(* ===== verification/_CoqProject ===== *)
-Q . S2P
Prelude.v
GoText.v
Netip.v
NetipText.v
NetipRoundTrip.v
Network.v
GoQuote.v
Firewall.v
FirewallSpecs.v
GoNet.v
ClientAddr.v
Json.v
Encoding.v
TextFacts.v
Storage.v
Limiter.v
Throttle.v
InMemory.v
InMemoryLaws.v
SqlStorage.v
SqlLaws.v
Schema.v
Atomic.v
AuthSession.v
ApiTokens.v
WebSessions.v
Totp.v
Passkeys.v
Passwords.v
TwoFactor.v
WireGuard.v
Devices.v
Allocation.v
DeviceSpecs.v
Dns.v
DnsProxy.v
DnsSpecs.v
Routes.v
RouteSpecs.v
Manager.v
ManagerSpecs.v
AuditLog.v
Api.v
ApiUsers.v
ApiServices.v
SignIn.v
AuthConfig.v
Oidc.v
Github.v
WebServer.v
Configuration.v
PasskeySpecs.v
TwoFactorSpecs.v
Confine.v
ApiSpecs.v
Metadata.v
Reachable.v
Host.v
Toys.v
Migration.v
Metrics.v
Server.v
FirewallTheorems.v
StorageTheorems.v
DeviceTheorems.v
PeerTheorems.v
PgWatcher.v
DnsTheorems.v
ApiTokenTheorems.v
WebSessionTheorems.v
SignInSpecs.v
AccountTheorems.v
PasskeyTheorems.v
ConfigurationTheorems.v
ThrottleTheorems.v
SignInTheorems.v
WebServerTheorems.v
ExternalTheorems.v
ApiTheorems.v
ApiAudit.v
