(* ===== verification/Prelude.v ===== *)
(** * wg-access-server: a verification library

    ** The program

    wg-access-server is a WireGuard VPN server with a web UI. Signed-in users create
    devices, the server hands out addresses, keeps the peers of the WireGuard interface
    in line with the stored devices, writes the firewall rules that say who reaches
    what, and answers DNS queries for the names of the devices. The parts, all below
    src/internal unless said otherwise:
    - storage: devices, users, sessions, API tokens and passkeys, in memory or in a
      SQL database whose schema is brought up to date by migrations; every change of a
      device is an event;
    - devices: the manager of the devices, called by the API, by the events of the
      storage and by background loops (access, inactivity, metadata, resync); it
      drives the interface and asks network for the firewall rules;
    - network: addresses of devices and of the server, the nftables and iptables rules;
    - users, websessions, apitokens: passwords, second factors and passkeys, the
      sessions behind a cookie, the tokens of scripts;
    - authnz: the providers somebody signs in with, the throttle, the sign-in pages
      and the middleware in front of everything;
    - api: the procedures of the web UI and of scripts, with the audit log;
    - dnsproxy, web, and the commands cmd/serve and cmd/migrate.

    ** The files

    Below are the source files and the file that models each. A definition has the
    name of its Go function, method or type; a prefix ([mem_], [sql_], [auth_], ...)
    or a suffix ([_call]) is there where two of them would clash. A definition with a
    name of its own is a loop body or a piece of a longer function.

    What the Go standard library does: [GoText.v], [TextFacts.v] (strings, unicode/utf8,
    strconv), [GoQuote.v] (the verb q), [GoNet.v] (net, net/http), [Netip.v],
    [NetipText.v], [NetipRoundTrip.v] (net/netip), [Json.v], [Encoding.v].
    [Atomic.v] has what code inherits from operations that fail without a trace,
    [Limiter.v] what counts of attempts have in common, [Toys.v] concrete functions
    for the classes of third-party code, on which the witnesses run.

    - storage/contracts.go and the records of sessions.go, tokens.go, passkeys.go:
      [Storage.v]. The tables as an abstract state [Abs], the interface as the class
      [Storage], its contract as the class [StorageLaws].
    - storage/inmemory.go, utils.go, inprocesswatcher.go: [InMemory.v]; that it keeps
      the contract: [InMemoryLaws.v].
    - storage/sql.go, the SQL halves of sessions.go, tokens.go and passkeys.go,
      gormwatcher.go: [SqlStorage.v] on the class [Gorm]; that it keeps the contract:
      [SqlLaws.v], from the laws of [GormLaws].
    - storage/migrations.go, allocation_lock.go: [Schema.v]; pgwatcher.go and the opening
      of a database (sql.go): [PgWatcher.v], with its property; NewStorage and the connection
      strings: [Host.v].
    - cmd/migrate/main.go: [Migration.v], between two storages of the interface.
    - network/network.go: [Network.v] (addresses), [Firewall.v] (rules); nftables.go:
      [Firewall.v], with the iptables backend. What a ruleset does to a packet:
      [FirewallSpecs.v].
    - devices/devices.go: [Devices.v] (what uses only the storage), [Manager.v] (what
      drives the interface, a class in [WireGuard.v]); routes.go: [Routes.v],
      [Manager.v]; access.go, inactive.go: [Manager.v]; metadata.go: [Metadata.v].
      Their lemmas: [Allocation.v], [DeviceSpecs.v], [RouteSpecs.v],
      [ManagerSpecs.v]; the invariant and the runs: [Reachable.v].
    - users/totp.go: [Totp.v]; twofactor.go: [TwoFactor.v]; passwords.go:
      [Passwords.v]; passkeys.go: [Passkeys.v]. Lemmas: [TwoFactorSpecs.v],
      [PasskeySpecs.v].
    - authnz/authsession: [AuthSession.v], and what a cookie has to
      do with a session, with websessions/websessions.go, in [WebSessions.v];
      apitokens: [ApiTokens.v].
    - authnz/authconfig: authconfig.go is [AuthConfig.v], basic.go, simple.go,
      session_start.go and authruntime/runtime.go are [SignIn.v], throttle.go is
      [Throttle.v], oidc.go, gitlab.go and authutil/random.go are [Oidc.v], github.go
      is [Github.v]. authnz/router.go and cmd/serve/http.go: [WebServer.v]. Lemmas:
      [SignInSpecs.v].
    - api: router.go and device_service.go are [Api.v], user_service.go is
      [ApiUsers.v], the other services and the dispatch [ApiServices.v]; audit/audit.go
      is [AuditLog.v]. Lemmas: [Confine.v], [ApiSpecs.v].
    - dnsproxy/auth.go and generateZone of cmd/serve/dns.go: [Dns.v]; proxy.go,
      server.go and zoneUpdater of dns.go: [DnsProxy.v]. Lemmas: [DnsSpecs.v].
    - web/clientaddr.go: [ClientAddr.v], with its property.
    - cmd/serve/config.go, secrets.go, wireguard.go: [Configuration.v]; bringing the parts
      up and down, cmd/serve/main.go with startWireGuard, startDNS, listenAndServe and
      hooks/: [Server.v], with its property.
    - metrics/: [Metrics.v], with its property.
    - resolvconf/, the detection of upstreams and of the default interface at the end of
      config.go, web/tls.go, middleware.go, health.go, router.go, traces/ and the cookie
      store of authnz/router.go: [Host.v].

    ** How the code is read

    A computation is [M S A], a function from a state to a result and a state: [Ok], or
    [Err] with a value of [goerror] (below) that says what [errors.Is] and [errors.As]
    see of it. An operation that fails after it changed something has changed it. Code
    over a storage is written against the class [Storage] and proved against
    [StorageLaws], so that its theorems hold of the in-memory storage and of the SQL
    one; the same for the interface ([WireGuard]), caches ([LRU]), the passkey library
    and the other classes of third-party code. A handler is the whole handler: its
    guards in the order of the code, its early returns, everything it writes.
    Time, random bytes and what the operating system answers are arguments or come
    from a class. Goroutines are turns of a step relation ([Reachable.v] for the
    manager and its loops, [DnsProxy.v] for the zone, [ThrottleTheorems.v] for
    concurrent answers); a mutex makes what it covers one step. A Go map that is
    walked is taken in the order of [map_to_list], or in an order that is an
    argument where the order shows. Integers that can overflow are kept at their
    width: the byte counters of peers (int64), the steps of codes (uint64), what a database adds up.

    Recursion that is not structural has fuel. The walk over a subnet ([Devices.scan])
    has one more than the number of used addresses in front of it, and [nextFree_lowest] shows that it
    never runs out; walks over text have the length of the text, which shrinks with
    every step; rendering a number has its bits; the pages of GitHub's
    answers have the ten the code reads. The reader of connection strings in [Host.v], a
    specification, is given the number of settings to read.

    ** The properties

    - The data: [memory_storage_refines] and [sql_storage_refines] (every program of
      operations on a backend is a run on the abstract tables, with the same answers
      and events), [migrations_reach_the_models], [migration_copies].
    - The devices: [devices_invariant] (whatever is interleaved, devices are well
      formed and share no name, key, address or network), [AddDevice_correct],
      [nextFree_lowest], [SetDeviceRoutes_correct], [sync_peers],
      [failed_operations_change_nothing]; with [who_reaches_what], from the
      configuration to the verdict on a packet.
    - Signing in: [simple_sign_in], [oidc_sign_in], [github_sign_in] (what it takes to
      get a session), [one_person_per_subject], [providers_told_apart],
      [claims_given], [second_step_limit]; and [requests_let_in], what a request acts as.
    - Accounts: [Check_correct], [no_replay], [guessing_limit], [enrolment],
      [FinishLogin_correct], [answers_count_once], [bearer_requests],
      [created_token_works].
    - The API: [api_confined] and [api_access] (nobody touches what is not theirs),
      [revoking_access], [audit_trail], [errors_tell_nothing].
    - The server: [ReadConfig_correct], [clientAddr_correct], [names_resolve],
      [zone_catches_up], [answers_in_time], [up_and_down] (whatever fails, in which order the
      parts come up and go down), [scrape_correct], [replicas_catch_up] (who hears of a change on PostgreSQL).

    The files named Theorems hold more than these: the single operations on devices,
    peers, sessions, tokens, passkeys, firewall rules and passwords, what happens at
    a deletion of a user and with an upstream that does not answer ([deleting_users],
    [signing_out_elsewhere], [one_upstream_is_enough]); [Host.v] has what libpq reads in
    a connection string ([pgconn_reads_back]), which backend an URI is for
    ([NewStorage_correct]), what a panic leaves of a response ([panics_are_caught], [health_check]), which
    paths are opened ([opens_below_root]) and whom a certificate is for ([certificate_hosts]). There are also cases in which the code does not do what
    it means to ([login_forgets_last_step], [members_policy_leaks],
    [passkeyName_cuts_characters], [names_collide], [unreadable_empties],
    [migrating_to_mysql_fails], [deleting_reports_twice], [zero_exports_devices],
    [failed_hook_leaves_interface]).

    ** Not modelled

    - Third-party code is a class or an argument, with what its documentation says as
      laws: the interface (wg-embed, wgctrl), WebAuthn, bcrypt and htpasswd, the LRU
      caches, the Unicode tables, OAuth and OpenID Connect with the rules of govaluate,
      the HTTP client and the JSON of GitHub's answers, the messages and exchanges of
      miekg/dns, iptables and nft, GORM and the databases. Of those it is assumed that
      text is compared byte by byte, that what is written is read back, that an
      addition gives the sum or fails, and that a failed transaction leaves
      nothing. A collation that ignores case or trailing spaces, rounding of times and MySQL's implicit commits
      of schema changes are outside this.
    - PostgreSQL with pg-events is an interface with a plain implementation, which reads the
      statements for triggers and raises one event per trigger and row; that notifications arrive is
      assumed, a lost connection ends in the same callback. Closing a database is output.
    - Values the in-memory storage hands out by pointer are snapshots here: nothing in the
      program writes through them outside its locks. The limit on the
      nesting of JSON is left out. A maximal age of sessions counts whole seconds.
    - The texts of pages, banners and buttons, icons, log lines other than the audit
      log, warnings about the configuration, the command line and the tickers of the loops: output,
      or input without a decision. Shell commands, listeners, files, certificates and routes of the
      host are steps that work or fail, or arguments. A panic in cmd/serve/main.go ends the process
      after what was deferred; [Server.v] has the errors. Which pattern of a
      router a request matches is net/http's and chi's.
    - The generated code of proto/ and the website.

    ** Plan

    Done: the storage with its backends, the schema and how the replicas hear of changes, the
    manager with its loops, the rules, accounts and sign-in with every provider, the API,
    the DNS server, the configuration, the migration, the metrics, the lifecycle of the
    server and the edges to its host. What is left is what Not modelled lists. *)
From stdpp Require Export base tactics list gmap strings sorting.
From Stdlib Require Export ZArith Lia.
From Stdlib Require Import Ascii.

#[global] Set Default Goal Selector "!".
#[global] Open Scope Z_scope.

(** ** Errors

    Go values of type [error] as the program builds them: a validation error
    meant for the user, a sentinel compared with [errors.Is], a plain message,
    a refusal that does not unwrap, an error wrapped by
    [fmt.Errorf("...: %w", err)], an answer of the API, a refused sign-in and a
    refused session. A call that panics is an error of its own. *)
Inductive sentinel :=
  | ErrUserNotFound | ErrSessionNotFound | ErrTokenNotFound
  | ErrPasskeyNotFound | StoragePasskeyExists
  | ErrWrongPassword | ErrNoPasswordHere | ErrTooManyAttempts
  | ErrNoTwoFactor | ErrTwoFactorSet | ErrWrongCode
  | ErrNoPasskey | ErrNoChallenge | ErrPasskeyExists
  | ErrInvalid | ErrExpired | ErrInvalidSession
  | ErrRecordNotFound.

(** The codes of connectrpc.com/connect the API answers with. *)
Inductive connect_code :=
  | CodeInvalidArgument | CodeNotFound | CodeAlreadyExists | CodePermissionDenied
  | CodeResourceExhausted | CodeFailedPrecondition | CodeInternal.

(** [loginErrorCode] of internal/authnz/router.go. *)
Inductive login_code := NotAuthenticated | NotAuthorized.

Inductive goerror :=
  | ValidationError (msg : string)
  | SentinelError (s : sentinel)
  | PlainError (msg : string)
  | ForbiddenError (cause : goerror)
  | WrappedError (msg : string) (cause : goerror)
  | ConnectError (code : connect_code) (cause : goerror)
  | RefusedError (reason detail : string)
  | LoginError (code : login_code) (msg : string)
  | Panic (msg : string).

#[export] Instance sentinel_eq_dec : EqDecision sentinel.
Proof. solve_decision. Defined.

#[export] Instance connect_code_eq_dec : EqDecision connect_code.
Proof. solve_decision. Defined.
#[export] Instance login_code_eq_dec : EqDecision login_code.
Proof. solve_decision. Defined.
#[export] Instance goerror_eq_dec : EqDecision goerror.
Proof. solve_decision. Defined.

(** [errors.As(err, &validation)]: the first validation error of the chain. *)
Fixpoint as_validation (e : goerror) : option string :=
  match e with
  | ValidationError m => Some m
  | WrappedError _ c | ConnectError _ c => as_validation c
  | _ => None
  end.

(** [errors.As(err, &refused)]: what a refused person is told. *)
Fixpoint as_refused (e : goerror) : option string :=
  match e with
  | RefusedError reason _ => Some reason
  | WrappedError _ c | ConnectError _ c => as_refused c
  | _ => None
  end.

(** [errors.Is(err, s)]. *)
Fixpoint error_is (e : goerror) (s : sentinel) : bool :=
  match e with
  | SentinelError s' => bool_decide (s' = s)
  | WrappedError _ c | ConnectError _ c => error_is c s
  | _ => false
  end.

(** [err.Error()] *)
Definition sentinel_text (s : sentinel) : string :=
  match s with
  | ErrUserNotFound => "user not found"
  | ErrSessionNotFound => "session not found"
  | ErrTokenNotFound => "api token not found"
  | ErrPasskeyNotFound => "passkey not found"
  | StoragePasskeyExists => "passkey already registered"
  | ErrWrongPassword => "wrong password"
  | ErrNoPasswordHere => "no password is kept here for this account"
  | ErrTooManyAttempts => "too many wrong passwords"
  | ErrNoTwoFactor => "this account has no second factor"
  | ErrTwoFactorSet => "this account already has a second factor"
  | ErrWrongCode => "wrong code"
  | ErrNoPasskey => "no such passkey"
  | ErrNoChallenge => "this passkey exchange has expired: start again"
  | ErrPasskeyExists => "this passkey is already registered"
  | ErrInvalid => "invalid api token"
  | ErrExpired => "api token has expired"
  | ErrInvalidSession => "invalid session"
  | ErrRecordNotFound => "record not found"
  end.
Definition code_text (c : connect_code) : string :=
  match c with
  | CodeInvalidArgument => "invalid_argument"
  | CodeNotFound => "not_found"
  | CodeAlreadyExists => "already_exists"
  | CodePermissionDenied => "permission_denied"
  | CodeResourceExhausted => "resource_exhausted"
  | CodeFailedPrecondition => "failed_precondition"
  | CodeInternal => "internal"
  end.
Fixpoint error_text (e : goerror) : string :=
  match e with
  | ValidationError m => m
  | SentinelError s => sentinel_text s
  | PlainError m => m
  | ForbiddenError c => "the owner of this api token has no access: " +:+ error_text c
  | WrappedError m c => m +:+ ": " +:+ error_text c
  | ConnectError k c => code_text k +:+ ": " +:+ error_text c
  | RefusedError reason detail => if String.eqb detail "" then reason else detail
  | LoginError code m => match code with NotAuthenticated => "1: " | NotAuthorized => "2: " end +:+ m
  | Panic m => m
  end.

(** ** Results: a Go function that returns a value and an error *)
Inductive result (A : Type) :=
  | Ok (a : A)
  | Err (e : goerror).
Arguments Ok {A} _.
Arguments Err {A} _.

Definition rbind {A B} (m : result A) (k : A → result B) : result B :=
  match m with Ok a => k a | Err e => Err e end.

(** [if err != nil { return fmt.Errorf(msg + ": %w", err) }] *)
Definition wrap {A} (msg : string) (m : result A) : result A :=
  match m with Ok a => Ok a | Err e => Err (WrappedError msg e) end.

Definition is_ok {A} (m : result A) : bool :=
  match m with Ok _ => true | Err _ => false end.

Declare Scope go_scope.
Delimit Scope go_scope with go.
Notation "'let?' x ':=' m 'in' k" := (rbind m (λ x, k))
  (at level 10, x pattern, m at level 100, k at level 200) : go_scope.
Notation "'fail!' e 'when' b ';' k" := (if b then Err e else k)
  (at level 10, e at level 9, b at level 100, k at level 200) : go_scope.
#[global] Open Scope go_scope.

Lemma rbind_ok {A B} (m : result A) (k : A → result B) b :
  rbind m k = Ok b ↔ ∃ a, m = Ok a ∧ k a = Ok b.
Proof. destruct m; naive_solver. Qed.

Lemma wrap_ok {A} msg (m : result A) a : wrap msg m = Ok a ↔ m = Ok a.
Proof. destruct m; naive_solver. Qed.

Lemma is_ok_true {A} (m : result A) : is_ok m = true ↔ ∃ a, m = Ok a.
Proof. destruct m; naive_solver. Qed.

(** [rinv] takes apart every hypothesis saying that a chain of checks
    succeeded, leaving one equation per step. *)
Ltac rinv_step :=
  match goal with
  | H : rbind _ _ = Ok _ |- _ => apply rbind_ok in H as (? & ? & H)
  | H : wrap _ _ = Ok _ |- _ => apply wrap_ok in H
  | H : Ok _ = Ok _ |- _ => injection H as H
  | H : Err _ = Ok _ |- _ => discriminate H
  | H : Ok _ = Err _ |- _ => discriminate H
  | H : (if ?b then Err _ else _) = Ok _ |- _ =>
      let E := fresh "Hguard" in destruct b eqn:E; [discriminate H|]
  | H : (if ?b then _ else Err _) = Ok _ |- _ =>
      let E := fresh "Hguard" in destruct b eqn:E; [|discriminate H]
  end.
Ltac rinv := repeat rinv_step.

(** ** Machine integers: Go's int64 wraps around *)
Definition wrap64 (z : Z) : Z := (z + 2 ^ 63) mod 2 ^ 64 - 2 ^ 63.
Definition int64 (z : Z) : Prop := - 2 ^ 63 <= z < 2 ^ 63.

Lemma wrap64_id z : int64 z → wrap64 z = z.
Proof. unfold wrap64, int64. intros. rewrite Z.mod_small; lia. Qed.
Lemma wrap64_range z : int64 (wrap64 z).
Proof. unfold wrap64, int64. pose proof (Z.mod_pos_bound (z + 2 ^ 63) (2 ^ 64)). lia. Qed.
Lemma wrap64_add_l a b : wrap64 (wrap64 a + b) = wrap64 (a + b).
Proof.
  unfold wrap64. f_equal.
  replace ((a + 2 ^ 63) mod 2 ^ 64 - 2 ^ 63 + b + 2 ^ 63) with ((a + 2 ^ 63) mod 2 ^ 64 + b) by lia.
  rewrite Z.add_mod_idemp_l by lia. f_equal. lia.
Qed.

(** ** Stateful code

    A Go method that reads and writes a shared state [S] and returns a value
    and an error. Unlike a function into [result (A * S)], what was written
    before an error is returned stays written. *)
Definition M (S A : Type) : Type := S → result A * S.

Definition m_ret {S A} (a : A) : M S A := λ s, (Ok a, s).
Definition m_fail {S A} (e : goerror) : M S A := λ s, (Err e, s).
Definition m_bind {S A B} (m : M S A) (k : A → M S B) : M S B := λ s,
  match m s with
  | (Ok a, s') => k a s'
  | (Err e, s') => (Err e, s')
  end.
Definition lift {S A} (r : result A) : M S A := λ s, (r, s).
Definition m_gets {S A} (f : S → A) : M S A := λ s, (Ok (f s), s).
Definition m_modify {S} (f : S → S) : M S unit := λ s, (Ok tt, f s).
(** [fmt.Errorf(msg + ": %w", err)] around a stateful call. *)
Definition m_wrap {S A} (msg : string) (m : M S A) : M S A := λ s,
  let '(r, s') := m s in (wrap msg r, s').
(** A call whose error the caller looks at instead of returning it. *)
Definition m_try {S A} (m : M S A) : M S (result A) := λ s,
  let '(r, s') := m s in (Ok r, s').
(** Run code of a component whose state is a part of a larger one. *)
Definition zoom {S T A} (get : T → S) (set : S → T → T) (m : M S A) : M T A := λ t,
  let '(r, s') := m (get t) in (r, set s' t).
Fixpoint m_for {S A} (f : A → M S unit) (l : list A) : M S unit :=
  match l with
  | [] => m_ret tt
  | x :: l' => m_bind (f x) (λ _, m_for f l')
  end.

Notation "'let!' x ':=' m 'in' k" := (m_bind m (λ x, k))
  (at level 10, x pattern, m at level 100, k at level 200) : go_scope.
Notation "'do!' m ';' k" := (m_bind m (λ _, k))
  (at level 10, m at level 100, k at level 200) : go_scope.
Notation "'stop!' e 'when' b ';' k" := (if b then m_fail e else k)
  (at level 10, e at level 9, b at level 100, k at level 200) : go_scope.

Section monad.
  Context {S A B : Type}.
  Implicit Types (s : S).

Lemma m_bind_ok (m : M S A) (k : A → M S B) s b s' :
  m_bind m k s = (Ok b, s') ↔ ∃ a s1, m s = (Ok a, s1) ∧ k a s1 = (Ok b, s').
Proof. unfold m_bind. destruct (m s) as [[?|?] ?]; naive_solver. Qed.

Lemma m_bind_step (m : M S A) (k : A → M S B) s a s1 : m s = (Ok a, s1) → m_bind m k s = k a s1.
Proof. unfold m_bind. by intros ->. Qed.

Lemma m_bind_err (m : M S A) (k : A → M S B) s e s' :
  m_bind m k s = (Err e, s') ↔
  m s = (Err e, s') ∨ ∃ a s1, m s = (Ok a, s1) ∧ k a s1 = (Err e, s').
Proof. unfold m_bind. destruct (m s) as [[?|?] ?]; naive_solver. Qed.

Lemma m_wrap_ok msg (m : M S A) s a s' :
  m_wrap msg m s = (Ok a, s') ↔ m s = (Ok a, s').
Proof. unfold m_wrap. destruct (m s) as [[?|?] ?]; naive_solver. Qed.

Lemma m_wrap_err msg (m : M S A) s e s' :
  m_wrap msg m s = (Err e, s') ↔ ∃ c, e = WrappedError msg c ∧ m s = (Err c, s').
Proof. unfold m_wrap. destruct (m s) as [[?|?] ?]; naive_solver. Qed.

Lemma m_try_ok (m : M S A) s r s' :
  m_try m s = (Ok r, s') ↔ m s = (r, s').
Proof. unfold m_try. destruct (m s); naive_solver. Qed.

Lemma m_try_err (m : M S A) s e s' : m_try m s ≠ (Err e, s').
Proof. unfold m_try. by destruct (m s). Qed.

Lemma lift_ok (r : result A) s a s' :
  lift r s = (Ok a, s') ↔ r = Ok a ∧ s' = s.
Proof. unfold lift. naive_solver. Qed.

Lemma lift_err (r : result A) s e s' :
  lift r s = (Err e, s') ↔ r = Err e ∧ s' = s.
Proof. unfold lift. naive_solver. Qed.

(** A computation that is known to succeed, or to fail, by evaluating it. *)
Lemma m_run_ok (m : M S A) s : is_ok (m s).1 = true → ∃ a, m s = (Ok a, (m s).2).
Proof. destruct (m s) as [[a|e] s']; [|done]. by exists a. Qed.
Lemma m_run_err (m : M S A) s : is_ok (m s).1 = false → ∃ e, m s = (Err e, (m s).2).
Proof. destruct (m s) as [[a|e] s']; [done|]. by exists e. Qed.

Lemma zoom_eq {T} (get : T → S) set (m : M S A) t r t' :
  zoom get set m t = (r, t') ↔ ∃ s', m (get t) = (r, s') ∧ t' = set s' t.
Proof. unfold zoom. destruct (m (get t)); naive_solver. Qed.
End monad.

(** [minv] takes apart every hypothesis saying how a stateful computation
    ended: one equation per step, the guards as boolean equations. *)
Ltac minv_step :=
  match goal with
  | H : m_bind _ _ _ = (Ok _, _) |- _ => apply (proj1 (m_bind_ok _ _ _ _ _)) in H as (? & ? & ? & H)
  | H : m_wrap _ _ _ = (Ok _, _) |- _ => apply (proj1 (m_wrap_ok _ _ _ _ _)) in H
  | H : m_wrap _ _ _ = (Err _, _) |- _ => apply (proj1 (m_wrap_err _ _ _ _ _)) in H as (? & ? & H)
  | H : m_try _ _ = (Ok _, _) |- _ => apply (proj1 (m_try_ok _ _ _ _)) in H
  | H : m_try _ _ = (Err _, _) |- _ => by apply m_try_err in H
  | H : lift _ _ = (Ok _, _) |- _ => apply (proj1 (lift_ok _ _ _ _)) in H as [H ?]
  | H : lift _ _ = (Err _, _) |- _ => apply (proj1 (lift_err _ _ _ _)) in H as [H ?]
  | H : m_ret _ _ = _ |- _ => injection H as H; subst
  | H : m_gets _ _ = _ |- _ => injection H as H; subst
  | H : m_modify _ _ = _ |- _ => injection H as H; subst
  | H : m_fail _ _ = (Ok _, _) |- _ => discriminate H
  | H : zoom _ _ _ _ = _ |- _ => apply (proj1 (zoom_eq _ _ _ _ _ _)) in H as (? & H & ?)
  | H : (Ok _, _) = (Ok _, _) |- _ => injection H as H; subst
  | H : (Err _, _) = (Err _, _) |- _ => injection H as H; subst
  | H : (Ok _, _) = (Err _, _) |- _ => discriminate H
  | H : (Err _, _) = (Ok _, _) |- _ => discriminate H
  | H : (if ?b then m_fail _ else _) _ = (Ok _, _) |- _ =>
      let E := fresh "Hguard" in destruct b eqn:E; [discriminate H|]
  | H : (if ?b then _ else m_fail _) _ = (Ok _, _) |- _ =>
      let E := fresh "Hguard" in destruct b eqn:E; [|discriminate H]
  end.
Ltac minv := repeat minv_step.

(** ** Calls that cannot fail *)
Definition never_fails {St A} (m : M St A) : Prop := ∀ s, is_ok (m s).1 = true.
Lemma never_try {St A} (m : M St A) : never_fails (m_try m).
Proof. intros s. unfold m_try. by destruct (m s). Qed.
Lemma never_ret {St A} (a : A) : never_fails (St := St) (m_ret a).
Proof. by intros s. Qed.
Lemma never_bind {St A B} (m : M St A) (k : A → M St B) : never_fails m → (∀ a, never_fails (k a)) → never_fails (m_bind m k).
Proof. intros Hm Hk s. unfold m_bind. specialize (Hm s). destruct (m s) as [[a|e] s']; [apply Hk|done]. Qed.
Lemma never_if {St A} (b : bool) (m1 m2 : M St A) : never_fails m1 → never_fails m2 → never_fails (if b then m1 else m2).
Proof. by destruct b. Qed.
Lemma never_zoom {St T A} (get : T → St) set (m : M St A) : never_fails m → never_fails (zoom get set m).
Proof. intros Hm t. unfold zoom. specialize (Hm (get t)). by destruct (m (get t)). Qed.
