(* ===== verification/GoText.v ===== *)
(** * Go's text functions

    The parts of the packages [strings], [unicode], [unicode/utf8] and
    [strconv] the program uses, on Go strings: sequences of bytes, which need
    not be valid UTF-8. A Go string is a Rocq [string], one [ascii] per byte. *)
From S2P Require Import Prelude.
From Stdlib Require Export Ascii String.
#[global] Open Scope Z_scope.
#[global] Open Scope list_scope.

Definition byte_of (c : ascii) : Z := Z.of_N (N_of_ascii c).
Definition chr (z : Z) : ascii := ascii_of_N (Z.to_N z).

Definition bytes (s : string) : list ascii := list_ascii_of_string s.
Definition of_bytes (l : list ascii) : string := string_of_list_ascii l.

Definition slen (s : string) : Z := Z.of_nat (String.length s).

Definition str (l : list Z) : string := of_bytes (chr <$> l).

(** ** unicode.IsSpace and strings.TrimSpace *)
(** The UTF-8 encodings of the code points [unicode.IsSpace] accepts. *)
Definition space_encodings : list (list Z) :=
  [[9]; [10]; [11]; [12]; [13]; [32]; [194; 133]; [194; 160];
   [225; 154; 128];
   [226; 128; 128]; [226; 128; 129]; [226; 128; 130]; [226; 128; 131];
   [226; 128; 132]; [226; 128; 133]; [226; 128; 134]; [226; 128; 135];
   [226; 128; 136]; [226; 128; 137]; [226; 128; 138];
   [226; 128; 168]; [226; 128; 169]; [226; 128; 175]; [226; 129; 159];
   [227; 128; 128]].

Fixpoint strip (p l : list ascii) : option (list ascii) :=
  match p, l with
  | [], _ => Some l
  | x :: p', y :: l' => if Ascii.eqb x y then strip p' l' else None
  | _ :: _, [] => None
  end.

Fixpoint strip_any (ps : list (list ascii)) (l : list ascii) : option (list ascii) :=
  match ps with
  | [] => None
  | p :: ps' => match strip p l with Some l' => Some l' | None => strip_any ps' l end
  end.

Fixpoint trim_with (ps : list (list ascii)) (fuel : nat) (l : list ascii) : list ascii :=
  match fuel with
  | O => l
  | S f => match strip_any ps l with Some l' => trim_with ps f l' | None => l end
  end.

Definition spaces : list (list ascii) := map (map chr) space_encodings.
Definition rspaces : list (list ascii) := map (@rev ascii) spaces.

Definition trim_left (l : list ascii) : list ascii := trim_with spaces (List.length l) l.
Definition trim_right (l : list ascii) : list ascii :=
  rev (trim_with rspaces (List.length l) (rev l)).

Definition TrimSpace (s : string) : string := of_bytes (trim_right (trim_left (bytes s))).

(** ** strings.Split with a one-byte separator, strings.Join *)
Fixpoint split_bytes (sep : ascii) (acc l : list ascii) : list (list ascii) :=
  match l with
  | [] => [rev acc]
  | c :: l' =>
      if Ascii.eqb c sep then rev acc :: split_bytes sep [] l'
      else split_bytes sep (c :: acc) l'
  end.
Definition Split (s : string) (sep : ascii) : list string :=
  of_bytes <$> split_bytes sep [] (bytes s).

Fixpoint Join (l : list string) (sep : string) : string :=
  match l with
  | [] => ""
  | [x] => x
  | x :: l' => x +:+ sep +:+ Join l' sep
  end.

(** ** strings.Fields and strings.ReplaceAll *)
(** The fields of [l], the bytes of the current one reversed in [acc]; every step takes
    a byte or a space away. *)
Fixpoint fields_fuel (fuel : nat) (acc l : list ascii) : list (list ascii) :=
  let field := match acc with [] => [] | _ => [rev acc] end in
  match fuel, l with
  | S f, c :: l' =>
      match strip_any spaces l with
      | Some rest => field ++ fields_fuel f [] rest
      | None => fields_fuel f (c :: acc) l'
      end
  | _, _ => field
  end.
Definition Fields (s : string) : list string := of_bytes <$> fields_fuel (String.length s) [] (bytes s).

(** [old] is not empty. *)
Fixpoint replace_fuel (fuel : nat) (old new l : list ascii) : list ascii :=
  match fuel, l with
  | S f, c :: l' =>
      match strip old l with
      | Some rest => new ++ replace_fuel f old new rest
      | None => c :: replace_fuel f old new l'
      end
  | _, _ => []
  end.
Definition ReplaceAll (s old new : string) : string :=
  of_bytes (replace_fuel (String.length s) (bytes old) (bytes new) (bytes s)).

Definition HasPrefix (s p : string) : bool := String.prefix p s.
Definition HasSuffix (s p : string) : bool :=
  match strip (rev (bytes p)) (rev (bytes s)) with Some _ => true | None => false end.
Definition Contains_byte (s : string) (c : ascii) : bool := existsb (Ascii.eqb c) (bytes s).
Definition TrimPrefix (s p : string) : string :=
  match strip (bytes p) (bytes s) with Some l => of_bytes l | None => s end.
Definition TrimSuffix (s p : string) : string :=
  match strip (rev (bytes p)) (rev (bytes s)) with Some l => of_bytes (rev l) | None => s end.

(** ** UTF-8 decoding, as [range] over a string does it *)
Definition RuneError : Z := 65533.

Definition cont (b : Z) : bool := (128 <=? b) && (b <=? 191).

(** One rune and its width; an invalid sequence is [RuneError], one byte wide. *)
Definition DecodeRune (l : list ascii) : Z * nat :=
  match l with
  | [] => (RuneError, 0%nat)
  | c0 :: l1 =>
      let b0 := byte_of c0 in
      if b0 <? 128 then (b0, 1%nat) else
      match l1 with
      | [] => (RuneError, 1%nat)
      | c1 :: l2 =>
          let b1 := byte_of c1 in
          if (194 <=? b0) && (b0 <=? 223) then
            if cont b1 then (Z.lor (Z.shiftl (b0 - 192) 6) (b1 - 128), 2%nat)
            else (RuneError, 1%nat)
          else
          match l2 with
          | [] => (RuneError, 1%nat)
          | c2 :: l3 =>
              let b2 := byte_of c2 in
              let lo3 := if b0 =? 224 then 160 else 128 in
              let hi3 := if b0 =? 237 then 159 else 191 in
              if (224 <=? b0) && (b0 <=? 239) then
                if (lo3 <=? b1) && (b1 <=? hi3) && cont b2 then
                  (Z.lor (Z.shiftl (b0 - 224) 12) (Z.lor (Z.shiftl (b1 - 128) 6) (b2 - 128)), 3%nat)
                else (RuneError, 1%nat)
              else
              match l3 with
              | [] => (RuneError, 1%nat)
              | c3 :: _ =>
                  let b3 := byte_of c3 in
                  let lo4 := if b0 =? 240 then 144 else 128 in
                  let hi4 := if b0 =? 244 then 143 else 191 in
                  if (240 <=? b0) && (b0 <=? 244) && (lo4 <=? b1) && (b1 <=? hi4)
                     && cont b2 && cont b3 then
                    (Z.lor (Z.shiftl (b0 - 240) 18)
                       (Z.lor (Z.shiftl (b1 - 128) 12)
                          (Z.lor (Z.shiftl (b2 - 128) 6) (b3 - 128))), 4%nat)
                  else (RuneError, 1%nat)
              end
          end
      end
  end.

Fixpoint runes_fuel (fuel : nat) (l : list ascii) : list Z :=
  match fuel, l with
  | S f, _ :: _ => let '(r, n) := DecodeRune l in r :: runes_fuel f (drop n l)
  | _, _ => []
  end.
(** The runes [for _, r := range s] visits; every step consumes a byte, so the
    length of the string is enough fuel. *)
Definition runes (s : string) : list Z := runes_fuel (String.length s) (bytes s).
Definition RuneCountInString (s : string) : Z := Z.of_nat (List.length (runes s)).

Definition IsControl (r : Z) : bool := (r <? 32) || ((127 <=? r) && (r <? 160)).

(** ** Decimal numbers *)
Definition digit (z : Z) : ascii := chr (48 + z).
Fixpoint itoa_fuel (fuel : nat) (n : Z) (acc : list ascii) : list ascii :=
  match fuel with
  | O => acc
  | S f => if n <? 10 then digit n :: acc
           else itoa_fuel f (n / 10) (digit (n mod 10) :: acc)
  end.
(** [%d] and [strconv.Itoa] of an int64: twenty digits are enough. *)
Definition Itoa (n : Z) : string :=
  if n <? 0 then "-" +:+ of_bytes (itoa_fuel 20 (- n) []) else of_bytes (itoa_fuel 20 n []).

Definition is_digit (c : ascii) : bool := (48 <=? byte_of c) && (byte_of c <=? 57).

Fixpoint digits_value (acc : Z) (l : list ascii) : option Z :=
  match l with
  | [] => Some acc
  | c :: l' => if is_digit c then digits_value (acc * 10 + (byte_of c - 48)) l' else None
  end.

(** [strconv.Atoi]: an optional sign, at least one digit, in the int64 range. *)
Definition Atoi (s : string) : option Z :=
  let '(neg, ds) := match bytes s with
                    | c :: l => if Ascii.eqb c "-" then (true, l)
                                else if Ascii.eqb c "+" then (false, l) else (false, c :: l)
                    | [] => (false, []) end in
  match ds with
  | [] => None
  | _ => match digits_value 0 ds with
         | None => None
         | Some v => let v := if (neg : bool) then - v else v in
                     if (- 2 ^ 63 <=? v) && (v <? 2 ^ 63) then Some v else None
         end
  end.

(** ** ASCII case *)
Definition lower_byte (c : ascii) : ascii :=
  if (65 <=? byte_of c) && (byte_of c <=? 90) then chr (byte_of c + 32) else c.
Definition upper_byte (c : ascii) : ascii :=
  if (97 <=? byte_of c) && (byte_of c <=? 122) then chr (byte_of c - 32) else c.

(** ** Lemmas *)
Lemma byte_of_range c : 0 <= byte_of c < 256.
Proof. unfold byte_of. pose proof (N_ascii_bounded c). lia. Qed.

Lemma byte_of_chr z : 0 <= z < 256 → byte_of (chr z) = z.
Proof. intros. unfold byte_of, chr. rewrite N_ascii_embedding; lia. Qed.

Lemma chr_byte_of c : chr (byte_of c) = c.
Proof. unfold byte_of, chr. rewrite N2Z.id. apply ascii_N_embedding. Qed.

Lemma bytes_of_bytes l : bytes (of_bytes l) = l.
Proof. apply list_ascii_of_string_of_list_ascii. Qed.
Lemma of_bytes_bytes s : of_bytes (bytes s) = s.
Proof. apply string_of_list_ascii_of_string. Qed.

Lemma bytes_app s t : bytes (s +:+ t) = bytes s ++ bytes t.
Proof. induction s as [|c s IH]; simpl; [done|]. f_equal. apply IH. Qed.

Lemma length_bytes s : List.length (bytes s) = String.length s.
Proof. induction s as [|c s IH]; simpl; [done|]. by rewrite <- IH. Qed.

Lemma bytes_inj s t : bytes s = bytes t → s = t.
Proof. intros H. by rewrite <- (of_bytes_bytes s), <- (of_bytes_bytes t), H. Qed.

#[export] Hint Rewrite bytes_of_bytes of_bytes_bytes bytes_app : gotext.

Example trim_ex : TrimSpace (str [226; 128; 131; 32; 97; 32; 98; 194; 160; 10]) = "a b".
Proof. reflexivity. Qed.
Example fields_ex : Fields (" nameserver" +:+ str [9; 194; 160] +:+ "1.1.1.1 ") = ["nameserver"; "1.1.1.1"] ∧ Fields "  " = [].
Proof. vm_compute. done. Qed.
Example replace_ex : ReplaceAll "ip link set %i up; echo %i" "%i" "wg0" = "ip link set wg0 up; echo wg0".
Proof. vm_compute. done. Qed.
Example split_ex : Split "a,,b" "," = ["a"; ""; "b"].
Proof. reflexivity. Qed.
Example runes_ex : runes (str [97; 195; 164; 240; 159; 152; 128; 237; 160; 128; 255]) =
  [97; 228; 128512; RuneError; RuneError; RuneError; RuneError].
Proof. reflexivity. Qed.
Example itoa_ex : Itoa 10 = "10" ∧ Itoa (-9223372036854775808) = "-9223372036854775808" ∧ Itoa 0 = "0".
Proof. done. Qed.
