(* ===== verification/Netip.v ===== *)
(** * Addresses and prefixes: Go's package [net/netip]

    Values, arithmetic, parsing and printing as the standard library defines
    them, and the facts about them the components rely on: what [Contains] and
    [Overlaps] mean in terms of addresses, what [Next] enumerates, and that
    what is printed parses back. *)
From S2P Require Import Prelude GoText.

(** [netip.Addr]. The zero value has no family; it keeps a number because
    [Next] of it is not the zero value. An IPv6 address without zone has the
    zone "". *)
Inductive Addr :=
  | A0 (v : Z)
  | A4 (v : Z)
  | A6 (v : Z) (zone : string).

#[export] Instance Addr_eq_dec : EqDecision Addr.
Proof. solve_decision. Defined.
#[export] Instance Addr_countable : Countable Addr.
Proof.
  refine (inj_countable'
    (λ a, match a with A0 v => inl v | A4 v => inr (inl v) | A6 v z => inr (inr (v, z)) end)
    (λ x, match x with inl v => A0 v | inr (inl v) => A4 v | inr (inr (v, z)) => A6 v z end) _).
  by intros [].
Defined.

Definition zero_addr : Addr := A0 0.

Definition Is4 (a : Addr) : bool := match a with A4 _ => true | _ => false end.
Definition Is6 (a : Addr) : bool := match a with A6 _ _ => true | _ => false end.
Definition Is4In6 (a : Addr) : bool :=
  match a with A6 v _ => Z.shiftr v 32 =? 65535 | _ => false end.
Definition BitLen (a : Addr) : Z := match a with A0 _ => 0 | A4 _ => 32 | A6 _ _ => 128 end.
Definition addr_val (a : Addr) : Z := match a with A0 v | A4 v | A6 v _ => v end.
Definition hasZone (a : Addr) : bool :=
  match a with A6 _ z => negb (String.eqb z "") | _ => false end.
Definition withoutZone (a : Addr) : Addr := match a with A6 v _ => A6 v "" | _ => a end.
Definition Unmap (a : Addr) : Addr :=
  if Is4In6 a then A4 (Z.land (addr_val a) (Z.ones 32)) else a.
Definition IsValidAddr (a : Addr) : bool := match a with A0 _ => false | _ => true end.

(** [Addr.Next]: the zero value after the last address of the family. *)
Definition Next (a : Addr) : Addr :=
  match a with
  | A0 v => if v + 1 =? 2 ^ 128 then zero_addr else A0 (v + 1)
  | A4 v => if v + 1 =? 2 ^ 32 then zero_addr else A4 (v + 1)
  | A6 v z => if v + 1 =? 2 ^ 128 then zero_addr else A6 (v + 1) z
  end.

(** [netip.Prefix]: an address without zone and a length; -1 is invalid. *)
Record Prefix := mkPrefix { PAddr : Addr; Bits : Z }.
#[export] Instance Prefix_eq_dec : EqDecision Prefix.
Proof. solve_decision. Defined.

Definition zero_prefix : Prefix := mkPrefix zero_addr (-1).
Definition IsValid (p : Prefix) : bool := 0 <=? Bits p.
Definition PrefixFrom (ip : Addr) (bits : Z) : Prefix :=
  mkPrefix (withoutZone ip)
    (if IsValidAddr ip && (0 <=? bits) && (bits <=? BitLen ip) then bits else -1).
Definition IsSingleIP (p : Prefix) : bool := IsValid p && (Bits p =? BitLen (PAddr p)).

(** Clear the low [k] bits. *)
Definition mask_low (k v : Z) : Z := Z.shiftl (Z.shiftr v k) k.
Definition with_val (a : Addr) (v : Z) : Addr :=
  match a with A0 _ => A0 v | A4 _ => A4 v | A6 _ z => A6 v z end.

(** [Addr.Prefix(b)]; [None] is an error. *)
Definition AddrPrefix (a : Addr) (b : Z) : option Prefix :=
  if b <? 0 then None else
  match a with
  | A0 _ => Some zero_prefix
  | _ => if BitLen a <? b then None
         else Some (PrefixFrom (with_val (withoutZone a) (mask_low (BitLen a - b) (addr_val a))) b)
  end.
Definition Masked (p : Prefix) : Prefix := default zero_prefix (AddrPrefix (PAddr p) (Bits p)).

Definition Contains (p : Prefix) (ip : Addr) : bool :=
  if negb (IsValid p) || hasZone ip then false else
  let f1 := BitLen (PAddr p) in let f2 := BitLen ip in
  if (f1 =? 0) || (f2 =? 0) || negb (f1 =? f2) then false else
  Z.shiftr (Z.lxor (addr_val ip) (addr_val (PAddr p))) (f1 - Bits p) =? 0.

Definition Overlaps (p o : Prefix) : bool :=
  if negb (IsValid p) || negb (IsValid o) then false else
  if bool_decide (p = o) then true else
  if negb (Bool.eqb (Is4 (PAddr p)) (Is4 (PAddr o))) then false else
  let minBits := if Bits p <? Bits o then Bits p else Bits o in
  if minBits =? 0 then true else
  match AddrPrefix (PAddr p) minBits, AddrPrefix (PAddr o) minBits with
  | Some p', Some o' => bool_decide (PAddr p' = PAddr o')
  | _, _ => false
  end.

(** ** Well-formed values: what parsing produces and the operations keep *)
Definition wf_addr (a : Addr) : Prop :=
  match a with
  | A0 v => v = 0
  | A4 v => 0 <= v < 2 ^ 32
  | A6 v _ => 0 <= v < 2 ^ 128
  end.
Definition wf_prefix (p : Prefix) : Prop :=
  wf_addr (PAddr p) ∧ hasZone (PAddr p) = false ∧ IsValidAddr (PAddr p) = true ∧
  0 <= Bits p <= BitLen (PAddr p).

Lemma shiftr_lxor_0 a b k : 0 <= k →
  Z.shiftr (Z.lxor a b) k = 0 ↔ a / 2 ^ k = b / 2 ^ k.
Proof.
  intros Hk. rewrite Z.shiftr_lxor, !Z.shiftr_div_pow2 by done. split.
  - apply Z.lxor_eq.
  - intros ->. apply Z.lxor_nilpotent.
Qed.

Lemma mask_low_div k v : 0 <= k → mask_low k v = v / 2 ^ k * 2 ^ k.
Proof. intros. unfold mask_low. by rewrite Z.shiftl_mul_pow2, Z.shiftr_div_pow2. Qed.

Lemma mask_low_range k n v : 0 <= k → 0 <= v < n → 0 <= mask_low k v <= v.
Proof.
  intros Hk Hv. rewrite mask_low_div by done.
  assert (0 < 2 ^ k) by (apply Z.pow_pos_nonneg; lia).
  pose proof (Z.mul_div_le v (2 ^ k)). pose proof (Z.div_pos v (2 ^ k)). nia.
Qed.

Lemma Contains_spec p a : wf_prefix p →
  Contains p a = true ↔
  BitLen a = BitLen (PAddr p) ∧ hasZone a = false ∧
  addr_val a / 2 ^ (BitLen (PAddr p) - Bits p) =
  addr_val (PAddr p) / 2 ^ (BitLen (PAddr p) - Bits p).
Proof.
  intros (_ & _ & Hval & Hb). unfold Contains, IsValid.
  assert (BitLen (PAddr p) ≠ 0) by (by destruct (PAddr p)).
  destruct (Z.leb_spec 0 (Bits p)); [|lia]. simpl.
  destruct (hasZone a); [naive_solver|]. simpl.
  destruct (Z.eqb_spec (BitLen (PAddr p)) 0); [done|].
  destruct (Z.eqb_spec (BitLen a) 0); simpl; [split; [done|intros [? _]; lia]|].
  destruct (Z.eqb_spec (BitLen (PAddr p)) (BitLen a)) as [E|]; simpl; [|naive_solver lia].
  rewrite Z.eqb_eq, shiftr_lxor_0 by lia. naive_solver.
Qed.

Lemma Masked_spec p : wf_prefix p →
  Masked p = mkPrefix (with_val (PAddr p) (mask_low (BitLen (PAddr p) - Bits p) (addr_val (PAddr p))))
    (Bits p).
Proof.
  destruct p as [a b]. intros (Hwf & Hz & Hv & Hb). simpl in *.
  unfold Masked, AddrPrefix; simpl.
  destruct (Z.ltb_spec b 0); [lia|].
  destruct a as [v|v|v z]; simpl in *; [done| |].
  - destruct (Z.ltb_spec 32 b); [lia|]. unfold PrefixFrom; simpl.
    destruct (Z.leb_spec 0 b), (Z.leb_spec b 32); (done || lia).
  - destruct (Z.ltb_spec 128 b); [lia|]. unfold PrefixFrom; simpl.
    apply negb_false_iff, String.eqb_eq in Hz as ->.
    destruct (Z.leb_spec 0 b), (Z.leb_spec b 128); (done || lia).
Qed.

Lemma Masked_wf p : wf_prefix p → wf_prefix (Masked p).
Proof.
  intros Hwf. rewrite Masked_spec by done. destruct p as [a b], Hwf as (Hwf & Hz & Hv & Hb).
  destruct a as [v|v|v z]; simpl in *; [done| |];
    repeat split; simpl; try done; try lia;
    pose proof (mask_low_range (BitLen (PAddr (mkPrefix (A4 v) b)) - b) (2 ^ 32) v);
    pose proof (mask_low_range (BitLen (PAddr (mkPrefix (A6 v "") b)) - b) (2 ^ 128) v);
    simpl in *; lia.
Qed.

(** ** What the operations mean *)

(** Division by [2^k] refined: agreeing on a finer prefix is agreeing on a
    coarser one. *)
Lemma div_pow_coarser a b k l : 0 <= k <= l →
  a / 2 ^ k = b / 2 ^ k → a / 2 ^ l = b / 2 ^ l.
Proof.
  intros Hk E. replace l with (k + (l - k)) by lia.
  rewrite Z.pow_add_r by lia. rewrite <- !Z.div_div by (try apply Z.pow_pos_nonneg; lia).
  by rewrite E.
Qed.

Lemma mask_low_eq_iff k a b : 0 <= k →
  mask_low k a = mask_low k b ↔ a / 2 ^ k = b / 2 ^ k.
Proof.
  intros Hk. rewrite !mask_low_div by done.
  assert (0 < 2 ^ k) by (apply Z.pow_pos_nonneg; lia).
  split; [|by intros ->]. intros E. by apply Z.mul_cancel_r in E; [|lia].
Qed.

Lemma AddrPrefix_wf a b : wf_addr a → hasZone a = false → IsValidAddr a = true →
  0 <= b <= BitLen a →
  AddrPrefix a b = Some (mkPrefix (with_val a (mask_low (BitLen a - b) (addr_val a))) b).
Proof.
  intros Ha Hz Hv Hb. unfold AddrPrefix.
  destruct (Z.ltb_spec b 0); [lia|].
  destruct a as [v|v|v z]; [done| |]; simpl in *.
  - destruct (Z.ltb_spec 32 b); [lia|]. unfold PrefixFrom; simpl.
    destruct (Z.leb_spec 0 b), (Z.leb_spec b 32); (done || lia).
  - destruct (Z.ltb_spec 128 b); [lia|]. unfold PrefixFrom; simpl.
    apply negb_false_iff, String.eqb_eq in Hz as ->.
    destruct (Z.leb_spec 0 b), (Z.leb_spec b 128); (done || lia).
Qed.

Lemma with_val_inj a b v w : hasZone a = false → hasZone b = false →
  IsValidAddr a = true → BitLen a = BitLen b →
  with_val a v = with_val b w ↔ v = w.
Proof.
  intros Ha Hb Hv Hl. destruct a, b; simpl in *; try done; [naive_solver|].
  apply negb_false_iff, String.eqb_eq in Ha as ->.
  apply negb_false_iff, String.eqb_eq in Hb as ->. naive_solver.
Qed.

(** The address of a prefix is one it contains. *)
Lemma Contains_self p : wf_prefix p → Contains p (PAddr p) = true.
Proof. intros Hwf. rewrite Contains_spec by done. destruct Hwf; naive_solver. Qed.

(** [Overlaps] says that the prefixes share an address. *)
Lemma Overlaps_spec p o : wf_prefix p → wf_prefix o →
  Overlaps p o = true ↔ ∃ a, Contains p a = true ∧ Contains o a = true.
Proof.
  intros Hp Ho. set (m := Z.min (Bits p) (Bits o)).
  trans (BitLen (PAddr p) = BitLen (PAddr o) ∧
    addr_val (PAddr p) / 2 ^ (BitLen (PAddr p) - m) =
    addr_val (PAddr o) / 2 ^ (BitLen (PAddr p) - m)).
  - pose proof Hp as (Hp1 & Hp2 & Hp3 & Hp4). pose proof Ho as (Ho1 & Ho2 & Ho3 & Ho4).
    unfold Overlaps, IsValid.
    destruct (Z.leb_spec 0 (Bits p)); [|lia]. destruct (Z.leb_spec 0 (Bits o)); [|lia]. simpl.
    case_bool_decide as E; [subst; naive_solver|].
    destruct (Bool.eqb _ _) eqn:E4; simpl; cycle 1.
    { apply eqb_false_iff in E4. split; [done|]. intros [? _].
      by destruct (PAddr p), (PAddr o). }
    assert (BitLen (PAddr p) = BitLen (PAddr o)) as El.
    { apply eqb_prop in E4. by destruct (PAddr p), (PAddr o). }
    replace (if Bits p <? Bits o then Bits p else Bits o) with m
      by (unfold m; destruct (Z.ltb_spec (Bits p) (Bits o)); lia).
    destruct (Z.eqb_spec m 0) as [->|].
    + split; [|done]. intros _. split; [done|]. rewrite Z.sub_0_r.
      assert (∀ p', wf_prefix p' → addr_val (PAddr p') / 2 ^ BitLen (PAddr p') = 0) as Hz.
      { intros p' (H1 & _ & ? & _). apply Z.div_small. by destruct (PAddr p'). }
      rewrite Hz by done. rewrite El. by rewrite Hz.
    + rewrite !AddrPrefix_wf by (done || (unfold m; lia)). simpl.
      rewrite bool_decide_eq_true, with_val_inj, <- El, mask_low_eq_iff by (done || unfold m; lia).
      naive_solver.
  - split.
    + intros [El E]. destruct (Z.le_ge_cases (Bits p) (Bits o)).
      * exists (PAddr o). split; [|by apply Contains_self].
        rewrite Contains_spec by done. destruct Ho as (_ & ? & _ & _).
        replace m with (Bits p) in E by lia. done.
      * exists (PAddr p). split; [by apply Contains_self|].
        rewrite Contains_spec by done. destruct Hp as (_ & ? & _ & _).
        replace m with (Bits o) in E by lia. rewrite <- El. done.
    + intros (a & (L1 & _ & E1)%Contains_spec & (L2 & _ & E2)%Contains_spec); [|done..].
      destruct Hp as (_ & _ & _ & Hp), Ho as (_ & _ & _ & Ho).
      assert (El : BitLen (PAddr p) = BitLen (PAddr o)) by congruence.
      split; [done|]. trans (addr_val a / 2 ^ (BitLen (PAddr p) - m)).
      * symmetry. eapply div_pow_coarser; [|exact E1]. lia.
      * eapply div_pow_coarser; [|rewrite <- El in E2; exact E2]. lia.
Qed.

Lemma Overlaps_comm p o : wf_prefix p → wf_prefix o → Overlaps p o = Overlaps o p.
Proof.
  intros Hp Ho. apply eq_true_iff_eq. rewrite !Overlaps_spec by done. naive_solver.
Qed.

(** ** The addresses of a prefix in order *)
Lemma Next_val a : IsValidAddr a = true → addr_val a + 1 < 2 ^ BitLen a →
  Next a = with_val a (addr_val a + 1).
Proof.
  intros ? ?. destruct a as [|v|v z]; simpl in *; [done| |].
  - by destruct (Z.eqb_spec (v + 1) (2 ^ 32)); [lia|].
  - by destruct (Z.eqb_spec (v + 1) (2 ^ 128)); [lia|].
Qed.

Lemma Next_overflow a : IsValidAddr a = true → addr_val a + 1 = 2 ^ BitLen a →
  Next a = zero_addr.
Proof.
  intros ? E. destruct a as [|v|v z]; simpl in *; [done| |].
  - by destruct (Z.eqb_spec (v + 1) (2 ^ 32)); [|lia].
  - by destruct (Z.eqb_spec (v + 1) (2 ^ 128)); [|lia].
Qed.

(** The first address of a prefix, and membership as a range. *)
Definition start (p : Prefix) : Addr := PAddr (Masked p).
Definition psize (p : Prefix) : Z := 2 ^ (BitLen (PAddr p) - Bits p).

Lemma start_spec p : wf_prefix p →
  wf_addr (start p) ∧ IsValidAddr (start p) = true ∧ hasZone (start p) = false ∧
  BitLen (start p) = BitLen (PAddr p) ∧
  addr_val (start p) = addr_val (PAddr p) / psize p * psize p ∧
  addr_val (start p) + psize p <= 2 ^ BitLen (PAddr p).
Proof.
  intros Hwf. pose proof (Masked_wf p Hwf) as (H1 & H2 & H3 & H4).
  unfold start. repeat split; try done.
  - rewrite Masked_spec by done. simpl. by destruct (PAddr p).
  - rewrite Masked_spec by done. simpl.
    destruct Hwf as (_ & _ & ? & ?). unfold psize.
    destruct (PAddr p); simpl; [done|..]; rewrite mask_low_div by (simpl in *; lia); done.
  - rewrite Masked_spec by done. simpl. destruct Hwf as (Hw & _ & ? & Hb). unfold psize.
    assert (addr_val (with_val (PAddr p) (mask_low (BitLen (PAddr p) - Bits p) (addr_val (PAddr p))))
      = addr_val (PAddr p) / 2 ^ (BitLen (PAddr p) - Bits p) * 2 ^ (BitLen (PAddr p) - Bits p)) as ->.
    { destruct (PAddr p); simpl; [done|..]; rewrite mask_low_div by (simpl in *; lia); done. }
    set (k := BitLen (PAddr p) - Bits p) in *. set (v := addr_val (PAddr p)) in *.
    assert (0 <= v < 2 ^ BitLen (PAddr p)) by (unfold v; by destruct (PAddr p)).
    replace (BitLen (PAddr p)) with (Bits p + k) in * by lia.
    rewrite Z.pow_add_r in * by lia.
    assert (0 < 2 ^ k) by (apply Z.pow_pos_nonneg; lia).
    assert (v / 2 ^ k < 2 ^ Bits p) by (apply Z.div_lt_upper_bound; nia). nia.
Qed.

Lemma Contains_range p a : wf_prefix p →
  Contains p a = true ↔
  BitLen a = BitLen (PAddr p) ∧ hasZone a = false ∧
  addr_val (start p) <= addr_val a < addr_val (start p) + psize p.
Proof.
  intros Hwf. rewrite Contains_spec by done.
  destruct (start_spec p Hwf) as (_ & _ & _ & _ & -> & _).
  destruct Hwf as (_ & _ & _ & Hb). fold (psize p).
  assert (0 < psize p) by (apply Z.pow_pos_nonneg; lia).
  split; intros (? & ? & H'); (split; [done|]; split; [done|]).
  - rewrite <- H'. pose proof (Z.div_mod (addr_val a) (psize p)).
    pose proof (Z.mod_pos_bound (addr_val a) (psize p)). nia.
  - symmetry. apply Z.div_unique_pos with (addr_val a - addr_val (PAddr p) / psize p * psize p); nia.
Qed.

(** Masking twice is masking once, and changes no containment. *)
Lemma mask_low_idem k v : 0 <= k → mask_low k (mask_low k v) = mask_low k v.
Proof.
  intros Hk. rewrite !mask_low_div by done.
  rewrite Z.div_mul; [done|]. assert (0 < 2 ^ k) by (apply Z.pow_pos_nonneg; lia). lia.
Qed.

Lemma Masked_idem p : wf_prefix p → Masked (Masked p) = Masked p.
Proof.
  intros Hwf. rewrite (Masked_spec (Masked p)) by by apply Masked_wf.
  rewrite (Masked_spec p) by done. simpl. destruct Hwf as (_ & _ & ? & Hb).
  f_equal. destruct (PAddr p) as [v|v|v z]; simpl in *; [done|f_equal; apply mask_low_idem; lia..].
Qed.

Lemma Contains_Masked p a : wf_prefix p → Contains (Masked p) a = Contains p a.
Proof.
  intros Hwf. pose proof (Masked_wf p Hwf) as Hwf'.
  assert (BitLen (PAddr (Masked p)) = BitLen (PAddr p) ∧ Bits (Masked p) = Bits p) as [Hb Hbits].
  { rewrite (Masked_spec p) by done. cbn. split; [|done]. by destruct (PAddr p). }
  apply eq_true_iff_eq. rewrite !Contains_range by done.
  unfold start, psize. by rewrite Masked_idem, Hb, Hbits.
Qed.
