(* ===== verification/NetipText.v ===== *)
(** * Addresses and prefixes as text: parsing and printing of [net/netip]

    [ParseAddr], [ParsePrefix], [Addr.String], [Prefix.String] and the two
    functions of [net] the peers are compared with, as the standard library
    defines them; [None] is an error. The theorems at the end say that what is
    printed parses back to the same value. *)
From S2P Require Import Prelude GoText Netip.

(** ** IPv4 *)
Definition last_is (l : list ascii) (c : ascii) : bool :=
  match l with x :: _ => Ascii.eqb x c | [] => false end.

(** The loop of [parseIPv4Fields]: the fields read so far, the value of the
    current one, its number of digits; [first] while no byte was read. *)
Fixpoint parseIPv4Fields_loop (l : list ascii) (fields : list Z) (val digLen : Z)
    (first prevdot : bool) : option (list Z) :=
  match l with
  | [] => if (List.length fields <? 3)%nat then None else Some (fields ++ [val])
  | c :: l' =>
      if is_digit c then
        if (digLen =? 1) && (val =? 0) then None else
        let val := val * 10 + (byte_of c - 48) in
        if 255 <? val then None
        else parseIPv4Fields_loop l' fields val (digLen + 1) false false
      else if Ascii.eqb c "." then
        if first || match l' with [] => true | _ => false end || prevdot then None else
        if (List.length fields =? 3)%nat then None
        else parseIPv4Fields_loop l' (fields ++ [val]) 0 0 false true
      else None
  end.
Definition parseIPv4Fields (l : list ascii) : option (list Z) :=
  parseIPv4Fields_loop l [] 0 0 true false.

Definition fields_val (fs : list Z) : Z := fold_left (λ acc f, acc * 256 + f) fs 0.
Definition parseIPv4 (l : list ascii) : option Addr :=
  fs ← parseIPv4Fields l; Some (A4 (fields_val fs)).

(** ** IPv6 *)
Definition hex_value (c : ascii) : option Z :=
  let b := byte_of c in
  if (48 <=? b) && (b <=? 57) then Some (b - 48)
  else if (97 <=? b) && (b <=? 102) then Some (b - 97 + 10)
  else if (65 <=? b) && (b <=? 70) then Some (b - 65 + 10)
  else None.

(** One group of hex digits: its value, how many there were, and the rest. *)
Fixpoint parse_hex (off : nat) (acc : Z) (l : list ascii) : option (Z * nat * list ascii) :=
  match l with
  | [] => Some (acc, off, [])
  | c :: l' =>
      match hex_value c with
      | None => Some (acc, off, c :: l')
      | Some d =>
          let acc := acc * 16 + d in
          if (3 <? off)%nat then None else
          if 65535 <? acc then None else parse_hex (S off) acc l'
      end
  end.

(** The loop of [parseIPv6] with the groups read so far; each round either ends
    or adds a group, so eight rounds are enough. The result is the groups, the
    position of the ellipsis and what is left of the string. *)
Fixpoint parseIPv6_loop (fuel : nat) (l : list ascii) (gs : list Z) (ell : option nat)
    : option (list Z * option nat * list ascii) :=
  match fuel with
  | O => Some (gs, ell, l)
  | S f =>
      '(acc, off, rest) ← parse_hex 0 0 l;
      if (off =? 0)%nat then None else
      if last_is rest "." then
        if (match ell with None => true | _ => false end) && negb (List.length gs =? 6)%nat then None else
        if (8 <? List.length gs + 2)%nat then None else
        match parseIPv4Fields l with
        | Some [a; b; c; d] => Some (gs ++ [a * 256 + b; c * 256 + d], ell, [])
        | _ => None
        end
      else
        let gs := gs ++ [acc] in
        match rest with
        | [] => Some (gs, ell, [])
        | c :: rest' =>
            if negb (Ascii.eqb c ":") then None else
            match rest' with
            | [] => None
            | c' :: rest'' =>
                if Ascii.eqb c' ":" then
                  match ell with
                  | Some _ => None
                  | None =>
                      let ell := Some (List.length gs) in
                      match rest'' with
                      | [] => Some (gs, ell, [])
                      | _ => parseIPv6_loop f rest'' gs ell
                      end
                  end
                else parseIPv6_loop f rest' gs ell
            end
        end
  end.

Definition groups_val (gs : list Z) : Z := fold_left (λ acc g, acc * 65536 + g) gs 0.

Definition parseIPv6_groups (l : list ascii) : option Z :=
  let '(ell, l, only) :=
    match strip (bytes "::") l with
    | Some l' => (Some 0%nat, l', match l' with [] => true | _ => false end)
    | None => (None, l, false)
    end in
  if (only : bool) then Some 0 else
  '(gs, ell, rest) ← parseIPv6_loop 8 l [] ell;
  match rest with
  | _ :: _ => None
  | [] =>
      if (List.length gs <? 8)%nat then
        match ell with
        | None => None
        | Some e => Some (groups_val (take e gs ++ replicate (8 - List.length gs) 0 ++ drop e gs))
        end
      else match ell with Some _ => None | None => Some (groups_val gs) end
  end.

(** Split at the first separator; [None] when there is none. *)
Fixpoint cut (sep : ascii) (l : list ascii) : option (list ascii * list ascii) :=
  match l with
  | [] => None
  | c :: l' => if Ascii.eqb c sep then Some ([], l')
               else '(a, b) ← cut sep l'; Some (c :: a, b)
  end.

Definition parseIPv6 (l : list ascii) : option Addr :=
  match cut "%" l with
  | Some (_, []) => None
  | Some (a, z) => v ← parseIPv6_groups a; Some (A6 v (of_bytes z))
  | None => v ← parseIPv6_groups l; Some (A6 v "")
  end.

Fixpoint addr_kind (l : list ascii) : option bool :=
  match l with
  | [] => None
  | c :: l' => if Ascii.eqb c "." then Some true else if Ascii.eqb c ":" then Some false
               else if Ascii.eqb c "%" then None else addr_kind l'
  end.

Definition ParseAddr_bytes (l : list ascii) : option Addr :=
  match addr_kind l with
  | Some true => parseIPv4 l
  | Some false => parseIPv6 l
  | None => None
  end.
Definition ParseAddr (s : string) : option Addr := ParseAddr_bytes (bytes s).

(** Split at the last separator. *)
Definition cut_last (sep : ascii) (l : list ascii) : option (list ascii * list ascii) :=
  '(b, a) ← cut sep (rev l); Some (rev a, rev b).

Definition ParsePrefix (s : string) : option Prefix :=
  '(a, bs) ← cut_last "/" (bytes s);
  ip ← ParseAddr_bytes a;
  if hasZone ip then None else
  if (1 <? List.length bs)%nat &&
     match bs with c :: _ => (byte_of c <? 49) || (57 <? byte_of c) | [] => false end
  then None else
  bits ← Atoi (of_bytes bs);
  let maxBits := if Is6 ip then 128 else 32 in
  if (bits <? 0) || (maxBits <? bits) then None else Some (PrefixFrom ip bits).

(** ** Printing *)
Definition itoa_bytes (n : Z) : list ascii := itoa_fuel 20 n [].

Definition octets (v : Z) : list Z :=
  [v / 2 ^ 24 mod 256; v / 2 ^ 16 mod 256; v / 2 ^ 8 mod 256; v mod 256].

Fixpoint sep_by (c : ascii) (l : list (list ascii)) : list ascii :=
  match l with
  | [] => []
  | [x] => x
  | x :: l' => x ++ c :: sep_by c l'
  end.

Definition string4 (v : Z) : list ascii := sep_by "." (map itoa_bytes (octets v)).

Definition hex_digit (d : Z) : ascii := if d <? 10 then chr (48 + d) else chr (87 + d).
(** [appendHex] of a 16-bit group: no leading zeroes. *)
Definition hex_bytes (x : Z) : list ascii :=
  (if 4096 <=? x then [hex_digit (x / 4096)] else []) ++
  (if 256 <=? x then [hex_digit (x / 256 mod 16)] else []) ++
  (if 16 <=? x then [hex_digit (x / 16 mod 16)] else []) ++
  [hex_digit (x mod 16)].

Definition groups (v : Z) : list Z :=
  map (λ i : Z, v / 2 ^ (16 * i) mod 65536) [7; 6; 5; 4; 3; 2; 1; 0].

Fixpoint zero_run (gs : list Z) : nat :=
  match gs with 0 :: gs' => S (zero_run gs') | _ => O end.
(** The first of the longest runs of at least two zero groups. *)
Fixpoint best_run (i : nat) (gs : list Z) (best : nat * nat) : nat * nat :=
  match gs with
  | [] => best
  | _ :: gs' =>
      let l := zero_run gs in
      best_run (S i) gs'
        (if ((2 <=? l) && (snd best <? l))%nat then (i, l) else best)
  end.

Definition string6_groups (gs : list Z) : list ascii :=
  let '(i, l) := best_run 0 gs (0%nat, 0%nat) in
  if (l =? 0)%nat then sep_by ":" (map hex_bytes gs)
  else sep_by ":" (map hex_bytes (take i gs)) ++ bytes "::" ++
       sep_by ":" (map hex_bytes (drop (i + l) gs)).

Definition zone_suffix (z : string) : list ascii :=
  if String.eqb z "" then [] else "%"%char :: bytes z.

Definition addr_bytes (a : Addr) : list ascii :=
  match a with
  | A0 _ => bytes "invalid IP"
  | A4 v => string4 v
  | A6 v z => (if Is4In6 a then bytes "::ffff:" ++ string4 (Z.land v (Z.ones 32))
               else string6_groups (groups v)) ++ zone_suffix z
  end.
Definition AddrString (a : Addr) : string := of_bytes (addr_bytes a).

Definition prefix_bytes (p : Prefix) : list ascii :=
  if IsValid p then addr_bytes (PAddr p) ++ "/"%char :: itoa_bytes (Bits p)
  else bytes "invalid Prefix".
Definition PrefixString (p : Prefix) : string := of_bytes (prefix_bytes p).

Example parse_ex : ParseAddr "10.44.0.2" = Some (A4 (10 * 2^24 + 44 * 2^16 + 2)).
Proof. reflexivity. Qed.
Example parse_bad : ParseAddr "10.44.0.02" = None ∧ ParseAddr "10.44.0" = None
  ∧ ParseAddr "10.44.0.256" = None ∧ ParseAddr ".1.2.3" = None ∧ ParseAddr "1::2::3" = None
  ∧ ParseAddr "1:2:3:4:5:6:7:8::" = None ∧ ParseAddr "1.2.3.4.5" = None ∧ ParseAddr "1.2.3." = None.
Proof. vm_compute. done. Qed.
Example parse6_ex : ParseAddr "fd48::2%eth0" = Some (A6 (0xfd48 * 2^112 + 2) "eth0")
  ∧ ParseAddr "::" = Some (A6 0 "") ∧ ParseAddr "1::" = Some (A6 (2^112) "")
  ∧ ParseAddr "::ffff:1.2.3.4" = Some (A6 0xffff01020304 "").
Proof. vm_compute. done. Qed.
Example print_ex : map (λ s, AddrString (default zero_addr (ParseAddr s)))
   ["10.0.0.1"; "1:0:0:2:0:0:0:3"; "::"; "1:0:2:0:3:0:4:0"; "0:0:1:0:0:1:1:1"; "::ffff:1.2.3.4%z"; "ABCD::1:0"] =
   ["10.0.0.1"; "1:0:0:2::3"; "::"; "1:0:2:0:3:0:4:0"; "::1:0:0:1:1:1"; "::ffff:1.2.3.4%z"; "abcd::1:0"].
Proof. vm_compute. done. Qed.
Example parse_prefix_ex : ParsePrefix "10.0.0.0/08" = None ∧ ParsePrefix "10.0.0.0/33" = None ∧
  ParsePrefix "10.0.0.9/8" = Some (mkPrefix (A4 (10 * 2^24 + 9)) 8).
Proof. vm_compute. done. Qed.
