(* ===== verification/NetipRoundTrip.v ===== *)
(** * What [net/netip] prints parses back

    The round trip the address allocation depends on: an address handed out is
    stored as text, and the next allocation reads it back. *)
From S2P Require Import Prelude GoText Netip NetipText.

(** A statement about the numbers below a bound, checked one by one. *)
Lemma below_forall (n : Z) (P : Z → Prop) :
  Forall P (seqZ 0 n) → ∀ x, 0 <= x < n → P x.
Proof. intros H x Hx. eapply Forall_forall in H; [exact H|]. apply elem_of_seqZ. lia. Qed.

Ltac enumerate_range n :=
  let l := eval vm_compute in (seqZ 0 n) in change (seqZ 0 n) with l.
Lemma below_forallb (n : Z) (f : Z → bool) :
  forallb f (seqZ 0 n) = true → ∀ x, 0 <= x < n → f x = true.
Proof.
  intros H x Hx. rewrite forallb_forall in H. apply H, list_elem_of_In, elem_of_seqZ. lia.
Qed.

Lemma octet_loop n : 0 <= n < 256 → ∃ k, ∀ rest fields first pd,
  parseIPv4Fields_loop (itoa_bytes n ++ rest) fields 0 0 first pd =
  parseIPv4Fields_loop rest fields n k false false.
Proof.
  revert n. apply below_forall. enumerate_range 256.
  repeat (constructor; [eexists; intros; reflexivity|]). constructor.
Qed.

Lemma dot_loop l fs val k : l ≠ [] → (List.length fs < 3)%nat →
  parseIPv4Fields_loop ("."%char :: l) fs val k false false =
  parseIPv4Fields_loop l (fs ++ [val]) 0 0 false true.
Proof.
  intros ? ?. simpl. destruct l; [done|]. simpl.
  destruct (Nat.eqb_spec (List.length fs) 3); [lia|done].
Qed.

Lemma itoa_bytes_ne n : 0 <= n < 256 → itoa_bytes n ≠ [].
Proof.
  intros Hn E. assert (negb (bool_decide (itoa_bytes n = [])) = true) as H.
  { revert n Hn E. intros n Hn _. revert n Hn. by apply below_forallb. }
  rewrite bool_decide_true in H by done. done.
Qed.

Lemma octets_range v : Forall (λ o, 0 <= o < 256) (octets v).
Proof. unfold octets. repeat constructor; apply Z.mod_pos_bound; lia. Qed.

Lemma div_split v k : 0 <= k → v / 2 ^ (k + 8) * 256 + v / 2 ^ k mod 256 = v / 2 ^ k.
Proof.
  intros. rewrite Z.pow_add_r by lia. rewrite <- Z.div_div by (try apply Z.pow_pos_nonneg; lia).
  change (2 ^ 8) with 256. pose proof (Z.div_mod (v / 2 ^ k) 256). lia.
Qed.

Lemma octets_val v : 0 <= v < 2 ^ 32 → fields_val (octets v) = v.
Proof.
  intros Hv. unfold fields_val, octets. simpl fold_left.
  pose proof (div_split v 16 ltac:(lia)) as E2. pose proof (div_split v 8 ltac:(lia)) as E1.
  pose proof (div_split v 0 ltac:(lia)) as E0.
  change (16 + 8) with 24 in E2. change (8 + 8) with 16 in E1. change (0 + 8) with 8 in E0.
  change (2 ^ 0) with 1 in E0. rewrite Z.div_1_r in E0.
  assert (v / 2 ^ 24 mod 256 = v / 2 ^ 24) as ->.
  { apply Z.mod_small. split; [by apply Z.div_pos; lia|]. apply Z.div_lt_upper_bound; lia. }
  lia.
Qed.

Lemma string4_fields v : 0 <= v < 2 ^ 32 →
  parseIPv4Fields (string4 v) = Some (octets v).
Proof.
  intros Hv. pose proof (octets_range v) as H. unfold string4, octets in *.
  repeat rewrite Forall_cons in H. destruct H as (H1 & H2 & H3 & H4 & _).
  destruct (octet_loop _ H1) as [k1 E1], (octet_loop _ H2) as [k2 E2],
    (octet_loop _ H3) as [k3 E3], (octet_loop _ H4) as [k4 E4].
  pose proof (itoa_bytes_ne _ H2). pose proof (itoa_bytes_ne _ H3). pose proof (itoa_bytes_ne _ H4).
  assert (∀ (a b : list ascii), a ≠ [] → a ++ b ≠ []) as Hne by (by intros []).
  unfold parseIPv4Fields. simpl map. simpl sep_by.
  rewrite E1, dot_loop by (simpl; auto with lia).
  rewrite E2, dot_loop by (simpl; auto with lia).
  rewrite E3, dot_loop by (simpl; auto with lia).
  specialize (E4 []). rewrite app_nil_r in E4. by rewrite E4.
Qed.

Lemma octet_kind n : 0 <= n < 256 → ∀ rest, addr_kind (itoa_bytes n ++ rest) = addr_kind rest.
Proof.
  revert n. apply (below_forall 256
    (λ n, ∀ rest, addr_kind (itoa_bytes n ++ rest) = addr_kind rest)).
  enumerate_range 256. repeat (constructor; [intros; reflexivity|]). constructor.
Qed.

Lemma parse_string4 v : 0 <= v < 2 ^ 32 → ParseAddr_bytes (string4 v) = Some (A4 v).
Proof.
  intros Hv. pose proof (octets_range v) as H. unfold octets in H.
  repeat rewrite Forall_cons in H. destruct H as (H1 & _).
  unfold ParseAddr_bytes.
  assert (addr_kind (string4 v) = Some true) as ->.
  { unfold string4, octets. simpl. by rewrite octet_kind. }
  unfold parseIPv4. rewrite string4_fields by done. simpl. by rewrite octets_val.
Qed.

(** ** IPv6 *)
Lemma hex_digit_value d : 0 <= d < 16 → hex_value (hex_digit d) = Some d.
Proof.
  intros Hd. apply (bool_decide_eq_true_1 (hex_value (hex_digit d) = Some d)).
  revert d Hd. by apply (below_forallb 16 (λ d, bool_decide (hex_value (hex_digit d) = Some d))).
Qed.

Lemma parse_hex_step off acc d l : 0 <= d < 16 → (off <= 3)%nat → acc * 16 + d < 65536 →
  parse_hex off acc (hex_digit d :: l) = parse_hex (S off) (acc * 16 + d) l.
Proof.
  intros. simpl. rewrite hex_digit_value by done.
  destruct (Nat.ltb_spec 3 off); [lia|]. by destruct (Z.ltb_spec 65535 (acc * 16 + d)); [lia|].
Qed.

Definition not_hex (l : list ascii) : Prop :=
  match l with [] => True | c :: _ => hex_value c = None end.

Lemma parse_hex_stop off acc l : not_hex l → parse_hex off acc l = Some (acc, off, l).
Proof. destruct l as [|c l]; simpl; [done|]. by intros ->. Qed.

Lemma parse_hex_bytes x rest : 0 <= x < 65536 → not_hex rest →
  ∃ off, off ≠ 0%nat ∧ parse_hex 0 0 (hex_bytes x ++ rest) = Some (x, off, rest).
Proof.
  intros Hx Hr. unfold hex_bytes.
  assert (E1 : x = x / 16 * 16 + x mod 16) by (pose proof (Z.div_mod x 16); lia).
  assert (E2 : x / 16 = x / (16 * 16) * 16 + x / 16 mod 16).
  { rewrite <- (Z.div_div x 16 16) by lia. pose proof (Z.div_mod (x / 16) 16). lia. }
  assert (E3 : x / 256 = x / (256 * 16) * 16 + x / 256 mod 16).
  { rewrite <- (Z.div_div x 256 16) by lia. pose proof (Z.div_mod (x / 256) 16). lia. }
  change (16 * 16) with 256 in E2. change (256 * 16) with 4096 in E3.
  pose proof (Z.mod_pos_bound x 16). pose proof (Z.mod_pos_bound (x / 16) 16).
  pose proof (Z.mod_pos_bound (x / 256) 16).
  assert (0 <= x / 4096 < 16) by (split; [apply Z.div_pos; lia|apply Z.div_lt_upper_bound; lia]).
  destruct (Z.leb_spec 4096 x) as [?|?], (Z.leb_spec 256 x) as [?|?],
    (Z.leb_spec 16 x) as [?|?]; try lia; simpl app;
    eexists; (split; cycle 1; [repeat (rewrite parse_hex_step by lia); rewrite parse_hex_stop by done;
      match goal with |- Some (?a, _, _) = _ => replace a with x by lia end; reflexivity|done]).
Qed.

Lemma seg_ne gs : gs ≠ [] → sep_by ":" (map hex_bytes gs) ≠ [].
Proof.
  destruct gs as [|g [|g' gs]]; simpl; [done| |]; intros _; unfold hex_bytes.
  - intros E. apply (f_equal (@List.length ascii)) in E. rewrite !length_app in E. simpl in E. lia.
  - intros E. apply (f_equal (@List.length ascii)) in E. rewrite !length_app in E. simpl in E. lia.
Qed.

Notation seg gs := (sep_by ":" (map hex_bytes gs)).
Definition group_ok (g : Z) : Prop := 0 <= g < 65536.

Lemma seg_cons g gs : gs ≠ [] → seg (g :: gs) = hex_bytes g ++ ":"%char :: seg gs.
Proof. by destruct gs. Qed.

Lemma hex_bytes_head g : group_ok g → ∃ d l, 0 <= d < 16 ∧ hex_bytes g = hex_digit d :: l.
Proof.
  intros Hg. unfold hex_bytes, group_ok in *.
  pose proof (Z.mod_pos_bound g 16). pose proof (Z.mod_pos_bound (g / 16) 16).
  pose proof (Z.mod_pos_bound (g / 256) 16).
  assert (0 <= g / 4096 < 16) by (split; [apply Z.div_pos; lia|apply Z.div_lt_upper_bound; lia]).
  repeat case_match; simpl; eexists _, _; (split; [|reflexivity]); lia.
Qed.

Lemma hex_digit_not d c : 0 <= d < 16 → hex_value c = None → Ascii.eqb (hex_digit d) c = false.
Proof.
  intros Hd Hc. destruct (Ascii.eqb_spec (hex_digit d) c) as [<-|]; [|done].
  by rewrite hex_digit_value in Hc.
Qed.

Lemma seg_head gs rest : gs ≠ [] → Forall group_ok gs →
  ∃ d l, 0 <= d < 16 ∧ seg gs ++ rest = hex_digit d :: l.
Proof.
  destruct gs as [|g gs]; [done|]. intros _ [Hg _]%Forall_cons.
  destruct (hex_bytes_head g Hg) as (d & l & Hd & E).
  destruct gs; [simpl; rewrite E; eauto|]. rewrite seg_cons by done. rewrite E. simpl. eauto.
Qed.

(** One round of the loop on a group followed by a colon. *)
Lemma loop_colon f g rest gs ell : group_ok g →
  rest ≠ [] → last_is rest ":" = false →
  parseIPv6_loop (S f) (hex_bytes g ++ ":"%char :: rest) gs ell = parseIPv6_loop f rest (gs ++ [g]) ell.
Proof.
  intros Hg Hne Hc. destruct (parse_hex_bytes g (":"%char :: rest) Hg) as (off & Ho & E); [done|].
  simpl. rewrite E. simpl. destruct (Nat.eqb_spec off 0); [done|].
  destruct rest as [|c rest]; [done|]. simpl in Hc. by rewrite Hc.
Qed.

Lemma loop_last f g gs ell : group_ok g →
  parseIPv6_loop (S f) (hex_bytes g) gs ell = Some (gs ++ [g], ell, []).
Proof.
  intros Hg. destruct (parse_hex_bytes g [] Hg) as (off & Ho & E); [done|].
  rewrite app_nil_r in E. simpl. rewrite E. simpl. by destruct (Nat.eqb_spec off 0).
Qed.

Lemma seg_not_colon gs : gs ≠ [] → Forall group_ok gs → last_is (seg gs) ":" = false.
Proof.
  intros Hne Hg. destruct (seg_head gs [] Hne Hg) as (d & l & Hd & E).
  rewrite app_nil_r in E. rewrite E. simpl. by apply hex_digit_not.
Qed.

Lemma loop_seg fuel gs gs0 ell : gs ≠ [] → Forall group_ok gs → (List.length gs <= fuel)%nat →
  parseIPv6_loop fuel (seg gs) gs0 ell = Some (gs0 ++ gs, ell, []).
Proof.
  revert fuel gs0. induction gs as [|g gs IH]; intros fuel gs0 Hne Hg Hf; [done|].
  apply Forall_cons in Hg as [Hg Hgs]. destruct fuel as [|fuel]; simpl in Hf; [lia|].
  destruct (decide (gs = [])) as [->|Hne'].
  - by apply loop_last.
  - rewrite seg_cons, loop_colon by (done || by apply seg_ne || by apply seg_not_colon).
    rewrite IH by (done || lia). by rewrite <- app_assoc.
Qed.

Lemma loop_seg_ellipsis fuel pre rest gs0 : pre ≠ [] → Forall group_ok pre →
  (List.length pre <= fuel)%nat →
  parseIPv6_loop fuel (seg pre ++ bytes "::" ++ rest) gs0 None =
  match rest with
  | [] => Some (gs0 ++ pre, Some (List.length (gs0 ++ pre)), [])
  | _ => parseIPv6_loop (fuel - List.length pre) rest (gs0 ++ pre) (Some (List.length (gs0 ++ pre)))
  end.
Proof.
  revert fuel gs0. induction pre as [|g gs IH]; intros fuel gs0 Hne Hg Hf; [done|].
  apply Forall_cons in Hg as [Hg Hgs]. destruct fuel as [|fuel]; simpl in Hf; [lia|].
  destruct (decide (gs = [])) as [->|Hne'].
  - simpl map. simpl sep_by. simpl bytes.
    destruct (parse_hex_bytes g (":"%char :: ":"%char :: rest) Hg) as (off & Ho & E); [done|].
    simpl. simpl in E. rewrite E. simpl. destruct (Nat.eqb_spec off 0); [done|].
    rewrite Nat.sub_0_r. by destruct rest.
  - rewrite seg_cons by done. rewrite <- app_assoc. simpl app.
    rewrite loop_colon; [|done| |].
    + rewrite IH by (done || lia). rewrite <- app_assoc. done.
    + destruct (seg_head gs (bytes "::" ++ rest) Hne' Hgs) as (? & ? & ? & E). simpl in E. by rewrite E.
    + destruct (seg_head gs (bytes "::" ++ rest) Hne' Hgs) as (? & ? & ? & E). simpl in E. rewrite E.
      simpl. by apply hex_digit_not.
Qed.

(** ** The whole address *)
Lemma zero_run_spec gs : (zero_run gs <= List.length gs)%nat ∧
  take (zero_run gs) gs = replicate (zero_run gs) 0.
Proof.
  induction gs as [|g gs [IH1 IH2]]; simpl; [done|].
  destruct g; simpl; split; try lia; try done. by rewrite IH2.
Qed.

Definition run_ok (gs : list Z) (r : nat * nat) : Prop :=
  snd r = 0%nat ∨ ((2 <= snd r)%nat ∧ (fst r + snd r <= List.length gs)%nat ∧
    take (snd r) (drop (fst r) gs) = replicate (snd r) 0).

Lemma best_run_ok all i gs best : drop i all = gs → (i <= List.length all)%nat →
  run_ok all best → run_ok all (best_run i gs best).
Proof.
  revert i best. induction gs as [|g gs IH]; intros i best Hd Hi Hb; [done|].
  cbn [best_run].
  assert (List.length all - i = S (List.length gs))%nat as Hlen.
  { rewrite <- length_drop, Hd. done. }
  apply IH.
  - replace (S i) with (i + 1)%nat by lia. by rewrite <- drop_drop, Hd.
  - lia.
  - destruct (_ && _)%nat eqn:E; [|done].
    apply andb_true_iff in E as [E _]. apply Nat.leb_le in E. right.
    destruct (zero_run_spec (g :: gs)) as [Hz1 Hz2]. cbn [fst snd].
    rewrite Hd. cbn [List.length] in Hz1. split; [done|]. split; [|done].
    set (z := zero_run (g :: gs)) in *. clearbody z. lia.
Qed.

Lemma best_run_split gs i l : best_run 0 gs (0%nat, 0%nat) = (i, l) →
  l = 0%nat ∨ ((2 <= l)%nat ∧ (i + l <= List.length gs)%nat ∧
    gs = take i gs ++ replicate l 0 ++ drop (i + l) gs).
Proof.
  intros E. pose proof (best_run_ok gs 0 gs (0%nat, 0%nat)) as H.
  rewrite E in H. destruct H as [H|(H1 & H2 & H3)]; try done; [lia|by left|by left|].
  right. split; [done|]. split; [done|]. simpl in H2, H3.
  rewrite <- H3, <- drop_drop, take_drop. by rewrite take_drop.
Qed.

Lemma div_split16 v k : 0 <= k → v / 2 ^ (k + 16) * 65536 + v / 2 ^ k mod 65536 = v / 2 ^ k.
Proof.
  intros. rewrite Z.pow_add_r by lia. rewrite <- Z.div_div by (try apply Z.pow_pos_nonneg; lia).
  change (2 ^ 16) with 65536. pose proof (Z.div_mod (v / 2 ^ k) 65536). lia.
Qed.

Lemma groups_val_groups v : 0 <= v < 2 ^ 128 → groups_val (groups v) = v.
Proof.
  intros Hv. unfold groups_val.
  assert (groups v = [v / 2 ^ 112 mod 65536; v / 2 ^ 96 mod 65536; v / 2 ^ 80 mod 65536;
    v / 2 ^ 64 mod 65536; v / 2 ^ 48 mod 65536; v / 2 ^ 32 mod 65536; v / 2 ^ 16 mod 65536;
    v / 2 ^ 0 mod 65536]) as -> by reflexivity.
  cbn [fold_left]. rewrite (Z.mul_0_l 65536), Z.add_0_l.
  assert (v / 2 ^ 112 mod 65536 = v / 2 ^ 112) as ->.
  { apply Z.mod_small. split; [by apply Z.div_pos; lia|]. apply Z.div_lt_upper_bound; lia. }
  change 112 with (96 + 16). rewrite (div_split16 v 96) by lia.
  change 96 with (80 + 16). rewrite (div_split16 v 80) by lia.
  change 80 with (64 + 16). rewrite (div_split16 v 64) by lia.
  change 64 with (48 + 16). rewrite (div_split16 v 48) by lia.
  change 48 with (32 + 16). rewrite (div_split16 v 32) by lia.
  change 32 with (16 + 16). rewrite (div_split16 v 16) by lia.
  change 16 with (0 + 16) at 1. rewrite (div_split16 v 0) by lia.
  change (2 ^ 0) with 1. by rewrite Z.div_1_r.
Qed.

Lemma groups_range v : Forall group_ok (groups v).
Proof. unfold groups, group_ok. simpl. repeat constructor; apply Z.mod_pos_bound; lia. Qed.

Lemma strip_seg gs rest : gs ≠ [] → Forall group_ok gs → strip (bytes "::") (seg gs ++ rest) = None.
Proof.
  intros Hne Hg. destruct (seg_head gs rest Hne Hg) as (d & l & Hd & ->).
  change (bytes "::") with [":"%char; ":"%char]. cbn [strip].
  destruct (Ascii.eqb_spec ":" (hex_digit d)) as [E|]; [|done].
  pose proof (hex_digit_value d Hd) as H. by rewrite <- E in H.
Qed.

Lemma groups_val_zeroes n gs : groups_val (replicate n 0 ++ gs) = groups_val gs.
Proof. unfold groups_val. induction n as [|n IH]; simpl; done. Qed.

#[local] Arguments parseIPv6_loop : simpl never.
Lemma parse_string6 gs : List.length gs = 8%nat → Forall group_ok gs →
  parseIPv6_groups (string6_groups gs) = Some (groups_val gs).
Proof.
  intros Hl Hg. unfold string6_groups. destruct (best_run 0 gs _) as [i l] eqn:E.
  apply best_run_split in E as [->|(Hl2 & Hil & E)].
  { unfold parseIPv6_groups. simpl Nat.eqb. cbv iota.
    assert (gs ≠ []) by (by intros ->).
    pose proof (strip_seg gs [] ltac:(done) Hg) as Hs. rewrite app_nil_r in Hs. rewrite Hs.
    cbv beta iota.
    rewrite loop_seg by (done || lia). simpl. rewrite Hl. done. }
  destruct (Nat.eqb_spec l 0); [lia|].
  set (pre := take i gs) in *. set (post := drop (i + l) gs) in *.
  assert (List.length pre = i) by (unfold pre; rewrite length_take; lia).
  assert (List.length post = 8 - (i + l))%nat by (unfold post; rewrite length_drop; lia).
  assert (Forall group_ok pre) by (by apply Forall_take).
  assert (Forall group_ok post) by (by apply Forall_drop).
  unfold parseIPv6_groups. destruct (decide (pre = [])) as [Hpre|Hpre].
  - rewrite Hpre in *. simpl in *. subst i. destruct (decide (post = [])) as [Hpost|Hpost].
    + rewrite Hpost. simpl. rewrite E, Hpost, groups_val_zeroes. done.
    + destruct (seg post) eqn:Eseg; [by apply seg_ne in Hpost|]. rewrite <- Eseg.
      rewrite loop_seg by (done || lia). simpl.
      destruct (Nat.ltb_spec (List.length post) 8); [|lia]. f_equal.
      rewrite drop_0. rewrite E. by rewrite !groups_val_zeroes.
  - rewrite strip_seg by done. cbv beta iota.
    rewrite loop_seg_ellipsis by (done || lia).
    assert (groups_val (pre ++ replicate (8 - (List.length pre + List.length post)) 0 ++ post)
            = groups_val gs) as Hval.
    { rewrite E at 1. do 3 f_equal. f_equal. lia. }
    destruct (decide (post = [])) as [Hpost|Hpost].
    + rewrite Hpost in *. simpl in *. destruct (Nat.ltb_spec (List.length pre) 8); [|lia].
      rewrite take_ge, drop_ge by done. rewrite Nat.add_0_r in Hval. by rewrite Hval.
    + destruct (seg post) eqn:Eseg; [by apply seg_ne in Hpost|]. rewrite <- Eseg.
      rewrite loop_seg by (done || lia). simpl. rewrite length_app.
      destruct (Nat.ltb_spec (List.length pre + List.length post) 8); [|lia].
      by rewrite take_app_length, drop_app_length, Hval.
Qed.

(** ** The characters of a printed address *)
Definition plain (c : ascii) : bool :=
  match hex_value c with Some _ => true | None => Ascii.eqb c ":" || Ascii.eqb c "." end.
Definition hexonly (c : ascii) : bool := match hex_value c with Some _ => true | None => false end.

Lemma hexonly_kind l rest : Forall (λ c, hexonly c = true) l → addr_kind (l ++ rest) = addr_kind rest.
Proof.
  induction 1 as [|c l Hc _ IH]; [done|]. simpl.
  destruct (Ascii.eqb_spec c "."); [by subst|]. destruct (Ascii.eqb_spec c ":"); [by subst|].
  destruct (Ascii.eqb_spec c "%"); [by subst|]. done.
Qed.

Lemma hex_bytes_hexonly g : group_ok g → Forall (λ c, hexonly c = true) (hex_bytes g).
Proof.
  intros Hg. unfold hex_bytes, group_ok in *.
  pose proof (Z.mod_pos_bound g 16). pose proof (Z.mod_pos_bound (g / 16) 16).
  pose proof (Z.mod_pos_bound (g / 256) 16).
  assert (0 <= g / 4096 < 16) by (split; [apply Z.div_pos; lia|apply Z.div_lt_upper_bound; lia]).
  repeat case_match; simpl; repeat constructor; unfold hexonly; rewrite hex_digit_value by lia; done.
Qed.

Lemma itoa_hexonly n : 0 <= n < 256 → Forall (λ c, hexonly c = true) (itoa_bytes n).
Proof.
  intros Hn. apply Forall_forall. intros c Hc.
  assert (forallb hexonly (itoa_bytes n) = true) as H.
  { clear Hc. revert n Hn. by apply (below_forallb 256 (λ n, forallb hexonly (itoa_bytes n))). }
  rewrite forallb_forall in H. by apply H, list_elem_of_In.
Qed.

Lemma hexonly_plain l : Forall (λ c, hexonly c = true) l → Forall (λ c, plain c = true) l.
Proof.
  intros H. eapply Forall_impl; [exact H|]. intros c. unfold hexonly, plain.
  by destruct (hex_value c).
Qed.

Lemma sep_plain c ls : plain c = true → Forall (Forall (λ c, plain c = true)) ls →
  Forall (λ c, plain c = true) (sep_by c ls).
Proof.
  intros Hc. induction ls as [|x [|y ls] IH]; intros H; simpl; [constructor|by inversion H|].
  inversion H; subst. apply Forall_app. split; [done|]. constructor; [done|]. by apply IH.
Qed.

Lemma string4_plain v : Forall (λ c, plain c = true) (string4 v).
Proof.
  apply sep_plain; [done|]. apply Forall_map.
  eapply Forall_impl; [apply octets_range|]. intros. by apply hexonly_plain, itoa_hexonly.
Qed.

Lemma seg_plain gs : Forall group_ok gs → Forall (λ c, plain c = true) (seg gs).
Proof.
  intros Hg. apply sep_plain; [done|]. apply Forall_map.
  eapply Forall_impl; [exact Hg|]. intros. by apply hexonly_plain, hex_bytes_hexonly.
Qed.

Lemma string6_plain gs : Forall group_ok gs → Forall (λ c, plain c = true) (string6_groups gs).
Proof.
  intros Hg. unfold string6_groups. destruct (best_run _ _ _) as [i l].
  case_match; [by apply seg_plain|].
  repeat (apply Forall_app; split); [|repeat constructor|];
    apply seg_plain; [by apply Forall_take|by apply Forall_drop].
Qed.

Lemma seg_kind gs rest : Forall group_ok gs →
  (1 < List.length gs)%nat ∨ last_is rest ":" = true → addr_kind (seg gs ++ rest) = Some false.
Proof.
  destruct gs as [|g [|g' gs]]; simpl List.length; intros Hg Hr.
  - destruct Hr; [lia|]. by destruct rest as [|c rest]; [|simpl in *; destruct (Ascii.eqb_spec c ":"); subst].
  - destruct Hr; [lia|]. inversion Hg; subst. rewrite hexonly_kind by by apply hex_bytes_hexonly.
    by destruct rest as [|c rest]; [|simpl in *; destruct (Ascii.eqb_spec c ":"); subst].
  - inversion Hg; subst. rewrite seg_cons by done. rewrite <- app_assoc, hexonly_kind by by apply hex_bytes_hexonly.
    done.
Qed.

Lemma string6_kind gs : List.length gs = 8%nat → Forall group_ok gs →
  addr_kind (string6_groups gs) = Some false.
Proof.
  intros Hl Hg. unfold string6_groups. destruct (best_run _ _ _) as [i l].
  case_match.
  - rewrite <- (app_nil_r (seg gs)). apply seg_kind; [done|lia].
  - apply seg_kind; [by apply Forall_take|]. by right.
Qed.

Lemma cut_plain c l : plain c = false → Forall (λ c, plain c = true) l → cut c l = None.
Proof.
  intros Hc. induction 1 as [|x l Hx _ IH]; [done|]. simpl.
  destruct (Ascii.eqb_spec x c); [congruence|]. by rewrite IH.
Qed.

(** ** ParseAddr after String, for addresses without a zone *)
Lemma addr_bytes_plain a : wf_addr a → IsValidAddr a = true → hasZone a = false →
  Forall (λ c, plain c = true) (addr_bytes a).
Proof.
  intros Hwf Hv Hz. destruct a as [v|v|v z]; [discriminate Hv|apply string4_plain|].
  cbn [addr_bytes]. simpl in Hz. apply negb_false_iff, String.eqb_eq in Hz as ->.
  change (zone_suffix "") with (@nil ascii). rewrite app_nil_r.
  destruct (Is4In6 _); [|apply string6_plain, groups_range].
  repeat (constructor; [done|]). apply string4_plain.
Qed.

(** An octet in decimal reads as a group in hexadecimal. *)
Lemma itoa_as_hex n : 0 <= n < 256 →
  itoa_bytes n = hex_bytes (n / 100 * 256 + n / 10 mod 10 * 16 + n mod 10).
Proof.
  intros Hn. apply (bool_decide_eq_true_1 (itoa_bytes n = hex_bytes (n / 100 * 256 + n / 10 mod 10 * 16 + n mod 10))).
  revert n Hn. apply (below_forallb 256 (λ n,
    bool_decide (itoa_bytes n = hex_bytes (n / 100 * 256 + n / 10 mod 10 * 16 + n mod 10)))).
  vm_compute. reflexivity.
Qed.

Lemma v4_hex_prefix n rest : 0 <= n < 256 → not_hex rest →
  ∃ acc off, off ≠ 0%nat ∧ parse_hex 0 0 (itoa_bytes n ++ rest) = Some (acc, off, rest).
Proof.
  intros Hn Hr. rewrite itoa_as_hex by done. eexists. apply parse_hex_bytes; [|done].
  pose proof (Z.mod_pos_bound (n / 10) 10). pose proof (Z.mod_pos_bound n 10).
  assert (0 <= n / 100 < 3) by (split; [apply Z.div_pos; lia|apply Z.div_lt_upper_bound; lia]). lia.
Qed.

Lemma octet_val_lt v : fields_val (octets v) < 2 ^ 32.
Proof.
  unfold fields_val, octets. cbn [fold_left].
  pose proof (Z.mod_pos_bound (v / 2 ^ 24) 256). pose proof (Z.mod_pos_bound (v / 2 ^ 16) 256).
  pose proof (Z.mod_pos_bound (v / 2 ^ 8) 256). pose proof (Z.mod_pos_bound v 256). lia.
Qed.

Lemma last_is_string4 v c : plain c = true → hex_value c = None → last_is (string4 v) c = false.
Proof.
  intros Hp Hc. pose proof (octets_range v) as H. unfold string4, octets in *. cbn [map sep_by].
  apply Forall_cons in H as [H _]. rewrite itoa_as_hex by done.
  destruct (hex_bytes_head (v / 2 ^ 24 mod 256 / 100 * 256 + v / 2 ^ 24 mod 256 / 10 mod 10 * 16
    + v / 2 ^ 24 mod 256 mod 10)) as (d & l & Hd & ->).
  { set (n := v / 2 ^ 24 mod 256) in *. unfold group_ok.
    pose proof (Z.mod_pos_bound (n / 10) 10). pose proof (Z.mod_pos_bound n 10).
    assert (0 <= n / 100 < 3) by (split; [apply Z.div_pos; lia|apply Z.div_lt_upper_bound; lia]). lia. }
  simpl. by apply hex_digit_not.
Qed.

Lemma loop_dot f l gs e acc off rest a b c d :
  parse_hex 0 0 l = Some (acc, off, "."%char :: rest) → off ≠ 0%nat → (List.length gs + 2 <= 8)%nat →
  parseIPv4Fields l = Some [a; b; c; d] →
  parseIPv6_loop (S f) l gs (Some e) = Some (gs ++ [a * 256 + b; c * 256 + d], Some e, []).
Proof.
  intros E Ho Hl Hf. unfold parseIPv6_loop; fold parseIPv6_loop. rewrite E. simpl.
  destruct (Nat.eqb_spec off 0); [done|]. rewrite Hf.
  change (match _ with 0%nat => false | S m' => _ end) with (8 <? List.length gs + 2)%nat.
  by destruct (Nat.ltb_spec 8 (List.length gs + 2)); [lia|].
Qed.

Lemma parse_4in6 v : 0 <= v < 2 ^ 32 →
  parseIPv6_groups (bytes "::ffff:" ++ string4 v) = Some (65535 * 2 ^ 32 + v).
Proof.
  intros Hv. unfold parseIPv6_groups.
  change (strip (bytes "::") (bytes "::ffff:" ++ string4 v)) with
    (Some (hex_bytes 65535 ++ ":"%char :: string4 v)).
  assert (string4 v ≠ []) as Hne.
  { intros E. pose proof (string4_fields v Hv) as H. by rewrite E in H. }
  destruct (hex_bytes 65535 ++ _) eqn:E; [done|]. rewrite <- E. clear E.
  rewrite (loop_colon 7) by (done || by apply last_is_string4).
  assert (parseIPv6_loop 7 (string4 v) ([] ++ [65535]) (Some 0%nat) =
    Some ([65535; v / 2 ^ 24 mod 256 * 256 + v / 2 ^ 16 mod 256;
           v / 2 ^ 8 mod 256 * 256 + v mod 256], Some 0%nat, [])) as ->.
  { pose proof (octets_range v) as H. unfold octets in H. apply Forall_cons in H as [H _].
    destruct (v4_hex_prefix _ ("."%char :: sep_by "." (map itoa_bytes (drop 1 (octets v)))) H)
      as (acc & off & Ho & E); [done|].
    eapply (loop_dot 6 _ [65535]); [exact E|done|simpl; lia|by apply string4_fields]. }
  simpl. f_equal. rewrite <- (octets_val v) at 5 by done.
  unfold groups_val, fields_val, octets. cbn [fold_left app replicate]. lia.
Qed.

Lemma addr_roundtrip a : wf_addr a → IsValidAddr a = true → hasZone a = false →
  ParseAddr_bytes (addr_bytes a) = Some a.
Proof.
  intros Hwf Hv Hz. destruct a as [v|v|v z]; [done|by apply parse_string4|].
  simpl in Hz, Hwf. apply negb_false_iff, String.eqb_eq in Hz as ->.
  assert (hasZone (A6 v "") = false) as Hz by done.
  pose proof (addr_bytes_plain (A6 v "") Hwf Hv Hz) as Hp.
  unfold ParseAddr_bytes. cbn [addr_bytes] in *. change (zone_suffix "") with (@nil ascii) in *.
  rewrite app_nil_r in *. revert Hp. destruct (Is4In6 (A6 v "")) eqn:E4.
  all: intros Hp.
  - change (addr_kind _) with (Some false). cbv iota. unfold parseIPv6.
    rewrite (cut_plain "%" _ eq_refl Hp). unfold Is4In6 in E4. apply Z.eqb_eq in E4.
    rewrite Z.shiftr_div_pow2 in E4 by lia. rewrite Z.land_ones by lia.
    pose proof (Z.div_mod v (2 ^ 32) ltac:(lia)) as Hd. rewrite E4 in Hd.
    pose proof (Z.mod_pos_bound v (2 ^ 32) ltac:(lia)).
    rewrite parse_4in6 by done. rewrite (Z.mul_comm 65535), <- Hd. reflexivity.
  - rewrite string6_kind by (done || apply groups_range). cbv iota. unfold parseIPv6.
    rewrite (cut_plain "%" _ eq_refl Hp).
    rewrite parse_string6 by (done || apply groups_range). simpl. by rewrite groups_val_groups.
Qed.

Theorem ParseAddr_AddrString a : wf_addr a → IsValidAddr a = true → hasZone a = false →
  ParseAddr (AddrString a) = Some a.
Proof. intros. unfold ParseAddr, AddrString. rewrite bytes_of_bytes. by apply addr_roundtrip. Qed.

(** ** Prefixes *)
Lemma bits_roundtrip n : 0 <= n < 256 → Atoi (of_bytes (itoa_bytes n)) = Some n.
Proof.
  intros Hn. apply (bool_decide_eq_true_1 (Atoi (of_bytes (itoa_bytes n)) = Some n)).
  revert n Hn. apply (below_forallb 256 (λ n, bool_decide (Atoi (of_bytes (itoa_bytes n)) = Some n))).
  vm_compute. reflexivity.
Qed.

(** What ParsePrefix asks of the length before it is a number. *)
Definition bits_text_ok (bs : list ascii) : bool :=
  negb ((1 <? List.length bs)%nat &&
     match bs with c :: _ => (byte_of c <? 49) || (57 <? byte_of c) | [] => false end).

Lemma bits_text n : 0 <= n < 256 → bits_text_ok (itoa_bytes n) = true.
Proof.
  intros Hn. revert n Hn. apply (below_forallb 256 (λ n, bits_text_ok (itoa_bytes n))).
  vm_compute. reflexivity.
Qed.

Lemma cut_app c l r : cut c l = None → cut c (l ++ c :: r) = Some (l, r).
Proof.
  induction l as [|x l IH]; simpl.
  - by rewrite Ascii.eqb_refl.
  - destruct (Ascii.eqb x c); [done|]. destruct (cut c l) as [[]|]; [done|]. intros _. by rewrite IH.
Qed.

Lemma cut_last_app c l r : cut c (rev r) = None → cut_last c (l ++ c :: r) = Some (l, r).
Proof.
  intros H. unfold cut_last. rewrite rev_app_distr. simpl. rewrite <- app_assoc. simpl.
  rewrite cut_app by done. simpl. by rewrite !rev_involutive.
Qed.

Theorem ParsePrefix_PrefixString p : wf_prefix p → ParsePrefix (PrefixString p) = Some p.
Proof.
  destruct p as [a b]. intros (Hwf & Hz & Hv & Hb). cbn [PAddr Bits] in *.
  assert (0 <= b < 256) by (destruct a; cbn [BitLen] in Hb; lia).
  unfold ParsePrefix, PrefixString, prefix_bytes, IsValid. cbn [PAddr Bits].
  destruct (Z.leb_spec 0 b); [|lia]. rewrite bytes_of_bytes, cut_last_app; cycle 1.
  { apply cut_plain; [done|]. apply Forall_rev. by apply hexonly_plain, itoa_hexonly. }
  unfold mbind, option_bind. rewrite addr_roundtrip by done. rewrite Hz.
  pose proof (bits_text b ltac:(done)) as Ht. unfold bits_text_ok in Ht.
  apply negb_true_iff in Ht. rewrite Ht. rewrite bits_roundtrip by done.
  assert ((if Is6 a then 128 else 32) = BitLen a) as -> by (by destruct a).
  destruct (Z.ltb_spec b 0), (Z.ltb_spec (BitLen a) b); try lia. simpl. f_equal.
  unfold PrefixFrom. rewrite Hv. destruct (Z.leb_spec 0 b), (Z.leb_spec b (BitLen a)); try lia. simpl.
  f_equal. destruct a; simpl in *; try done. apply negb_false_iff, String.eqb_eq in Hz. by subst.
Qed.

(** ** net.ParseCIDR and IPNet.String

    A network as the package [net] keeps it; only its printed form is used. *)
Definition ParseCIDR (s : string) : option Prefix :=
  '(a, mask) ← cut "/" (bytes s);
  ip ← ParseAddr_bytes a;
  if hasZone ip then None else
  match mask with
  | [] => None
  | _ =>
      n ← digits_value 0 mask;
      if (BitLen ip <? n) then None else Some (Masked (PrefixFrom ip n))
  end.

(** [IPNet.String]: a network of IPv4-mapped addresses prints as IPv4. *)
Definition IPNetString (p : Prefix) : string :=
  if Is4In6 (PAddr p) && (96 <=? Bits p)
  then PrefixString (mkPrefix (Unmap (PAddr p)) (Bits p - 96)) else PrefixString p.

Example ipnet_ex : IPNetString <$> ParseCIDR "::ffff:1.2.3.4/120" = Some "1.2.3.0/24"
  ∧ IPNetString <$> ParseCIDR "10.0.0.7/032" = Some "10.0.0.7/32" ∧ ParseCIDR "10.0.0.7" = None.
Proof. vm_compute. done. Qed.

(** ** What parsing produces is well formed *)
Lemma digits_value_nonneg l acc v : 0 <= acc → digits_value acc l = Some v → 0 <= v.
Proof.
  revert acc. induction l as [|c l IH]; intros acc Ha E; simpl in E; [by simplify_eq|].
  destruct (is_digit c) eqn:Ed; [|done]. apply (IH _) in E; [done|].
  unfold is_digit in Ed. apply andb_true_iff in Ed as [Ed _]. apply Z.leb_le in Ed. lia.
Qed.

Lemma fields_loop_range l fs val k fst pd fs' : Forall (λ f, 0 <= f < 256) fs → 0 <= val < 256 →
  (List.length fs <= 3)%nat →
  parseIPv4Fields_loop l fs val k fst pd = Some fs' → Forall (λ f, 0 <= f < 256) fs' ∧ List.length fs' = 4%nat.
Proof.
  revert fs val k fst pd. induction l as [|c l IH]; intros fs val k fst pd Hfs Hv Hlen E; cbn [parseIPv4Fields_loop] in E.
  - destruct (Nat.ltb_spec (List.length fs) 3); [done|]. simplify_eq.
    split; [apply Forall_app; auto|rewrite length_app; simpl; lia].
  - destruct (is_digit c) eqn:Ed.
    + destruct ((k =? 1) && (val =? 0)); [done|].
      destruct (Z.ltb_spec 255 (val * 10 + (byte_of c - 48))); [done|].
      unfold is_digit in Ed. apply andb_true_iff in Ed as [Ed _]. apply Z.leb_le in Ed.
      eapply IH in E; [done|done|lia|done].
    + destruct (Ascii.eqb c "."); [|done].
      destruct (fst || _ || pd); [done|]. destruct (Nat.eqb_spec (List.length fs) 3); [done|].
      eapply IH in E; [done|apply Forall_app; auto|lia|rewrite length_app; simpl; lia].
Qed.

Lemma fields_val_range fs : Forall (λ f, 0 <= f < 256) fs → List.length fs = 4%nat →
  0 <= fields_val fs < 2 ^ 32.
Proof.
  intros Hfs Hl. destruct fs as [|a [|b [|c [|d [|]]]]]; simplify_eq/=.
  repeat rewrite Forall_cons in Hfs. unfold fields_val. cbn [fold_left]. lia.
Qed.

Lemma hex_value_range c d : hex_value c = Some d → 0 <= d < 16.
Proof.
  unfold hex_value. intros E. repeat case_match; simplify_eq;
    repeat match goal with
    | H : (_ && _) = true |- _ => apply andb_true_iff in H as [?%Z.leb_le ?%Z.leb_le]
    end; lia.
Qed.

Lemma parse_hex_range off acc l v off' rest : 0 <= acc < 65536 →
  parse_hex off acc l = Some (v, off', rest) → 0 <= v < 65536.
Proof.
  revert off acc. induction l as [|c l IH]; intros off acc Ha E; cbn [parse_hex] in E; [by simplify_eq|].
  destruct (hex_value c) as [d|] eqn:Hd; [|by simplify_eq]. apply hex_value_range in Hd.
  destruct (3 <? off)%nat; [done|]. destruct (Z.ltb_spec 65535 (acc * 16 + d)); [done|].
  eapply IH; [|exact E]. lia.
Qed.

Definition ell_ok (ell : option nat) (gs : list Z) : Prop :=
  match ell with Some e => (e <= List.length gs)%nat | None => True end.

Lemma loop_range fuel l gs ell gs' ell' rest : Forall group_ok gs → (List.length gs + fuel = 8)%nat →
  ell_ok ell gs → parseIPv6_loop fuel l gs ell = Some (gs', ell', rest) →
  Forall group_ok gs' ∧ (List.length gs' <= 8)%nat ∧ ell_ok ell' gs'.
Proof.
  revert l gs ell. induction fuel as [|fuel IH]; intros l gs ell Hg Hl He E.
  { injection E as <- <- <-. split; [done|]. split; [lia|done]. }
  assert (∀ acc, 0 <= acc < 65536 → Forall group_ok (gs ++ [acc])) as Hg' by
    (intros; apply Forall_app; auto).
  assert (∀ acc, List.length (gs ++ [acc]) = S (List.length gs)) as Hl'
    by (intros; rewrite length_app; simpl; lia).
  assert (∀ acc, ell_ok ell (gs ++ [acc])) as He'
    by (intros; destruct ell; simpl in *; rewrite ?Hl'; lia).
  unfold parseIPv6_loop in E; fold parseIPv6_loop in E.
  destruct (parse_hex 0 0 l) as [[[acc off] rst]|] eqn:Eh; [|done]. simpl mbind in E.
  apply parse_hex_range in Eh; [|lia].
  destruct (off =? 0)%nat; [done|]. destruct (last_is rst ".").
  { destruct (_ && _)%nat; [done|]. destruct (8 <? List.length gs + 2)%nat eqn:E8; [done|].
    apply Nat.ltb_ge in E8.
    destruct (parseIPv4Fields l) as [fs|] eqn:Ef; [|done].
    apply fields_loop_range in Ef as [Hfs _]; [|by constructor|lia|simpl; lia].
    destruct fs as [|a [|b [|c [|d [|]]]]]; try done. injection E as <- <- <-.
    repeat rewrite Forall_cons in Hfs. split; [|split].
    - apply Forall_app. split; [done|]. unfold group_ok. repeat constructor; lia.
    - rewrite length_app. simpl. lia.
    - destruct ell; simpl in *; rewrite ?length_app; lia. }
  destruct rst as [|c rst].
  { injection E as <- <- <-. rewrite Hl'. split; [auto|]. split; [lia|auto]. }
  destruct (negb _); [done|]. destruct rst as [|c' rst]; [done|].
  destruct (Ascii.eqb c' ":").
  - destruct ell; [done|]. destruct rst as [|c'' rst].
    + injection E as <- <- <-. rewrite Hl'. split; [auto|]. split; [lia|]. simpl. rewrite Hl'. lia.
    + refine (IH _ (gs ++ [acc]) _ _ _ _ E); [auto|rewrite Hl'; lia|]. simpl. rewrite Hl'. lia.
  - refine (IH _ (gs ++ [acc]) _ _ _ _ E); [auto|rewrite Hl'; lia|auto].
Qed.

Lemma groups_val_range gs : Forall group_ok gs → 0 <= groups_val gs < 65536 ^ Z.of_nat (List.length gs).
Proof.
  induction gs as [|g gs IH] using rev_ind; intros Hg; [done|].
  apply Forall_app in Hg as [Hg [Hx _]%Forall_cons]. specialize (IH Hg).
  unfold groups_val in *. rewrite fold_left_app. cbn [fold_left]. rewrite length_app. simpl List.length.
  rewrite Nat2Z.inj_add, Z.pow_add_r by lia. unfold group_ok in Hx. simpl (65536 ^ Z.of_nat 1). lia.
Qed.

Lemma parseIPv6_groups_range l v : parseIPv6_groups l = Some v → 0 <= v < 2 ^ 128.
Proof.
  assert (∀ gs, Forall group_ok gs → List.length gs = 8%nat → 0 <= groups_val gs < 2 ^ 128) as H8.
  { intros gs Hg Hl. pose proof (groups_val_range gs Hg) as H. rewrite Hl in H. exact H. }
  unfold parseIPv6_groups.
  destruct (strip (bytes "::") l) as [l'|].
  - destruct l' as [|c l'']; [by intros [= <-]|]. set (l1 := c :: l''). simpl mbind.
    destruct (parseIPv6_loop 8 l1 [] (Some 0%nat)) as [[[gs ell] rest]|] eqn:E; [|done]. simpl mbind.
    apply loop_range in E as (Hg & Hl & He); [|constructor|done|simpl; lia].
    destruct rest; [|done]. destruct (Nat.ltb_spec (List.length gs) 8).
    + destruct ell as [e|]; [|done]. intros [= <-]. apply H8.
      * repeat (apply Forall_app; split); [by apply Forall_take| |by apply Forall_drop].
        apply Forall_replicate. unfold group_ok. lia.
      * simpl in He. rewrite !length_app, length_take, length_drop, length_replicate. lia.
    + destruct ell; [done|]. intros [= <-]. apply H8; [done|lia].
  - destruct (parseIPv6_loop 8 l [] None) as [[[gs ell] rest]|] eqn:E; [|done]. simpl mbind.
    apply loop_range in E as (Hg & Hl & He); [|constructor|done|done].
    destruct rest; [|done]. destruct (Nat.ltb_spec (List.length gs) 8).
    + destruct ell as [e|]; [|done]. intros [= <-]. apply H8.
      * repeat (apply Forall_app; split); [by apply Forall_take| |by apply Forall_drop].
        apply Forall_replicate. unfold group_ok. lia.
      * simpl in He. rewrite !length_app, length_take, length_drop, length_replicate. lia.
    + destruct ell; [done|]. intros [= <-]. apply H8; [done|lia].
Qed.

Lemma ParseAddr_bytes_wf l a : ParseAddr_bytes l = Some a → wf_addr a ∧ IsValidAddr a = true.
Proof.
  unfold ParseAddr_bytes. destruct (addr_kind l) as [[]|]; [| |done].
  - unfold parseIPv4. destruct (parseIPv4Fields l) as [fs|] eqn:Ef; [|done]. intros [= <-].
    apply fields_loop_range in Ef as [Hfs Hl]; [|by constructor|lia|simpl; lia].
    split; [by apply fields_val_range|done].
  - unfold parseIPv6. destruct (cut "%" l) as [[b [|c z]]|]; [done|..].
    + destruct (parseIPv6_groups b) eqn:E; [|done]. intros [= <-]. by apply parseIPv6_groups_range in E.
    + destruct (parseIPv6_groups l) eqn:E; [|done]. intros [= <-]. by apply parseIPv6_groups_range in E.
Qed.

Theorem ParseAddr_wf s a : ParseAddr s = Some a → wf_addr a ∧ IsValidAddr a = true.
Proof. apply ParseAddr_bytes_wf. Qed.

Theorem ParsePrefix_wf s p : ParsePrefix s = Some p → wf_prefix p.
Proof.
  unfold ParsePrefix. destruct (cut_last "/" (bytes s)) as [[a bs]|]; [|done]. simpl mbind.
  destruct (ParseAddr_bytes a) as [ip|] eqn:Ea; [|done]. simpl mbind.
  apply ParseAddr_bytes_wf in Ea as [Hwf Hv].
  destruct (hasZone ip) eqn:Hz; [done|]. destruct (_ && _)%nat; [done|].
  destruct (Atoi (of_bytes bs)) as [n|]; [|done]. simpl mbind.
  assert ((if Is6 ip then 128 else 32) = BitLen ip) as -> by (by destruct ip).
  destruct (Z.ltb_spec n 0), (Z.ltb_spec (BitLen ip) n); try done. simpl. intros [= <-].
  unfold PrefixFrom. rewrite Hv. destruct (Z.leb_spec 0 n), (Z.leb_spec n (BitLen ip)); try lia. simpl.
  destruct ip; simpl in *; done.
Qed.
