(* ===== verification/Network.v ===== *)
(** * internal/network/network.go: the addresses of devices and of the server

    How the addresses stored for a device are split and parsed, and where the
    server's own addresses come from. The firewall rules are in [Firewall.v]. *)
From S2P Require Import Prelude GoText Netip NetipText NetipRoundTrip.

Definition SplitAddresses (addresses : string) : list string := TrimSpace <$> Split addresses ",".

(** One entry: a prefix, a bare address, or unusable. *)
Definition parse_entry (addr : string) : option Addr :=
  match ParsePrefix addr with
  | Some prefix => Some (PAddr prefix)
  | None => ParseAddr addr
  end.

Definition ParseAddresses (addresses : string) : list Addr * list string :=
  let split := SplitAddresses addresses in
  (omap parse_entry split, filter (λ addr, parse_entry addr = None) split).

(** A parse error of [net/netip]; its text is not modelled. *)
Definition netip_error : goerror := PlainError "netip: parse error".

Definition server_prefix (cidr : string) : result Prefix :=
  if String.eqb cidr "" then Ok zero_prefix else
  match ParsePrefix cidr with
  | None => Err netip_error
  | Some vpnprefix => Ok (PrefixFrom (Next (PAddr (Masked vpnprefix))) (Bits vpnprefix))
  end.
Definition ServerVPNIPs (cidr cidr6 : string) : result (Prefix * Prefix) :=
  let? ipv4 := server_prefix cidr in
  let? ipv6 := server_prefix cidr6 in
  Ok (ipv4, ipv6).

Definition join_valid (f : Prefix → string) (a b : Prefix) : string :=
  if IsValid a && IsValid b then Join [f a; f b] ", "
  else if IsValid a then f a
  else if IsValid b then f b else "".
Definition StringJoinIPNets (a b : Prefix) : string := join_valid PrefixString a b.
Definition StringJoinIPs (a b : Prefix) : string := join_valid (λ p, AddrString (PAddr p)) a b.

(** ** What is printed for a device parses back *)

(** Characters that trimming and splitting leave alone. *)
Definition text_byte (c : ascii) : bool := (33 <=? byte_of c) && (byte_of c <? 127) && negb (Ascii.eqb c ",").

Lemma strip_any_text ps l : (∀ p, p ∈ ps → ∀ x, hd_error p = Some x → text_byte x = false) →
  (∀ p, p ∈ ps → p ≠ []) → Forall (λ c, text_byte c = true) (take 1 l) → strip_any ps l = None.
Proof.
  intros Hps Hne Hl. induction ps as [|p ps IH]; simpl; [done|].
  assert (strip p l = None) as ->.
  { destruct p as [|x p]; [exfalso; by eapply Hne; [apply list_elem_of_here|]|]. simpl.
    destruct l as [|y l]; [done|]. destruct (Ascii.eqb_spec x y) as [->|]; [|done].
    exfalso. simpl in Hl. apply Forall_cons in Hl as [Hl _].
    by rewrite (Hps (y :: p)) in Hl; [|apply list_elem_of_here|]. }
  apply IH; intros q Hq; [apply Hps|apply Hne]; by apply list_elem_of_further.
Qed.

Lemma forallb_Forall {A} (f : A → bool) (l : list A) : forallb f l = true → Forall (λ x, f x = true) l.
Proof. rewrite forallb_forall, Forall_forall. intros Hf x Hx. by apply Hf, list_elem_of_In. Qed.

(** The bytes of the spaces' encodings are not text. *)
Definition no_text (p : list ascii) : bool := forallb (λ c, negb (text_byte c)) p.
Lemma spaces_no_text : Forall (Forall (λ c, text_byte c = false)) spaces ∧
  Forall (Forall (λ c, text_byte c = false)) rspaces.
Proof.
  assert (∀ ps, forallb no_text ps = true → Forall (Forall (λ c, text_byte c = false)) ps) as Hps.
  { intros ps E%forallb_Forall. eapply Forall_impl; [exact E|].
    intros p Hp%forallb_Forall. eapply Forall_impl; [exact Hp|]. intros c. apply negb_true_iff. }
  split; apply Hps; vm_compute; reflexivity.
Qed.

Lemma spaces_heads : Forall (λ p, match hd_error p with Some x => text_byte x = false | None => False end)
  (spaces ++ rspaces).
Proof.
  assert (forallb (λ p, match p with [] => false | _ => true end) (spaces ++ rspaces) = true) as Hne
    by (vm_compute; reflexivity).
  apply forallb_Forall in Hne. destruct spaces_no_text as [H1 H2].
  assert (Forall (Forall (λ c, text_byte c = false)) (spaces ++ rspaces)) as H by by apply Forall_app.
  rewrite Forall_forall in *. intros [|x p] Hp; [by apply Hne in Hp|].
  apply H in Hp. by apply Forall_cons in Hp as [? _].
Qed.

Lemma trim_text fuel l : Forall (λ c, text_byte c = true) (take 1 l) →
  trim_with spaces fuel l = l ∧ trim_with rspaces fuel l = l.
Proof.
  intros Hl. pose proof spaces_heads as Hs. rewrite Forall_forall in Hs.
  assert (∀ ps, ps = spaces ∨ ps = rspaces → trim_with ps fuel l = l) as Ht; [|split; apply Ht; auto].
  intros ps Hps. destruct fuel; [done|]. cbn [trim_with].
  rewrite strip_any_text; [done| | |done]; intros p Hp.
  - intros x Hx. assert (p ∈ spaces ++ rspaces) as Hin by (apply elem_of_app; destruct Hps; subst; auto).
    apply Hs in Hin. by rewrite Hx in Hin.
  - intros ->. assert ([] ∈ spaces ++ rspaces) as Hin by (apply elem_of_app; destruct Hps; subst; auto).
    by apply Hs in Hin.
Qed.

(** Trimming text with one leading blank, as Join writes it. *)
Lemma TrimSpace_text l : Forall (λ c, text_byte c = true) l → TrimSpace (of_bytes l) = of_bytes l.
Proof.
  intros Hl. unfold TrimSpace, trim_left, trim_right. rewrite bytes_of_bytes.
  destruct (trim_text (List.length l) l) as [-> _]; [by apply Forall_take|].
  destruct (trim_text (List.length l) (rev l)) as [_ ->]; [by apply Forall_take, Forall_rev|].
  by rewrite rev_involutive.
Qed.

Lemma TrimSpace_blank l : l ≠ [] → Forall (λ c, text_byte c = true) l →
  TrimSpace (of_bytes (" "%char :: l)) = of_bytes l.
Proof.
  intros Hne Hl. unfold TrimSpace, trim_left. rewrite bytes_of_bytes.
  assert (trim_with spaces (List.length (" "%char :: l)) (" "%char :: l) = l) as ->.
  { cbn [List.length trim_with]. change (strip_any spaces (" "%char :: l)) with (Some l). cbv iota.
    apply trim_text. by apply Forall_take. }
  unfold trim_right. destruct (trim_text (List.length l) (rev l)) as [_ ->]; [by apply Forall_take, Forall_rev|].
  by rewrite rev_involutive.
Qed.

(** Trimming only removes bytes of spaces. *)
Lemma strip_app p l l' : strip p l = Some l' → l = p ++ l'.
Proof.
  revert l. induction p as [|x p IH]; intros l E; simpl in E; [by simplify_eq|].
  destruct l as [|y l]; [done|]. destruct (Ascii.eqb_spec x y) as [->|]; [|done].
  simpl. f_equal. by apply IH.
Qed.

Lemma trim_with_suffix ps fuel l : Forall (Forall (λ c, text_byte c = false)) ps →
  ∃ k, l = k ++ trim_with ps fuel l ∧ Forall (λ c, text_byte c = false) k.
Proof.
  intros Hps. revert l. induction fuel as [|fuel IH]; intros l; [by exists []|]. cbn [trim_with].
  assert (∀ l', strip_any ps l = Some l' → ∃ p, l = p ++ l' ∧ Forall (λ c, text_byte c = false) p) as Ha.
  { clear IH. induction Hps as [|p ps Hp _ IHps]; intros l' E; simpl in E; [done|].
    destruct (strip p l) as [l1|] eqn:Es; [|by apply IHps].
    injection E as <-. exists p. split; [by apply strip_app|done]. }
  destruct (strip_any ps l) as [l'|]; [|by exists []].
  destruct (Ha l' eq_refl) as (p & -> & Hp). destruct (IH l') as (k & E & Hk).
  exists (p ++ k). split; [by rewrite <- app_assoc, <- E|by apply Forall_app].
Qed.

Lemma TrimSpace_ne s c : c ∈ bytes s → text_byte c = true → TrimSpace s ≠ "".
Proof.
  intros Hin Hc E. apply (f_equal bytes) in E. unfold TrimSpace, trim_left, trim_right in E.
  rewrite bytes_of_bytes in E. change (bytes "") with (@nil ascii) in E.
  destruct spaces_no_text as [H1 H2].
  destruct (trim_with_suffix spaces (List.length (bytes s)) (bytes s) H1) as (k1 & E1 & Hk1).
  set (l := trim_with spaces (List.length (bytes s)) (bytes s)) in *.
  destruct (trim_with_suffix rspaces (List.length l) (rev l) H2) as (k2 & E2 & Hk2).
  apply (f_equal (@rev ascii)) in E. rewrite rev_involutive in E. simpl in E. rewrite E, app_nil_r in E2.
  rewrite E1 in Hin. apply elem_of_app in Hin as [Hin|Hin].
  - rewrite Forall_forall in Hk1. by rewrite (Hk1 _ Hin) in Hc.
  - rewrite Forall_forall in Hk2. rewrite (Hk2 c) in Hc; [done|].
    rewrite <- E2. by apply list_elem_of_In, in_rev; rewrite rev_involutive; apply list_elem_of_In.
Qed.

Lemma split_bytes_text acc l rest : Forall (λ c, text_byte c = true) l →
  split_bytes "," acc (l ++ ","%char :: rest) = (rev acc ++ l) :: split_bytes "," [] rest ∧
  split_bytes "," acc l = [rev acc ++ l].
Proof.
  revert acc. induction l as [|c l IH]; intros acc Hl; simpl.
  - by rewrite app_nil_r.
  - apply Forall_cons in Hl as [Hc Hl]. destruct (Ascii.eqb_spec c ","); [by subst|].
    destruct (IH (c :: acc) Hl) as [-> ->]. simpl. by rewrite <- app_assoc.
Qed.

Lemma plain_text l : Forall (λ c, plain c = true) l → Forall (λ c, text_byte c = true) l.
Proof.
  intros Hl. eapply Forall_impl; [exact Hl|]. intros c Hc. unfold plain, hex_value in Hc. unfold text_byte.
  assert (c ≠ ","%char) as Hne by (intros ->; done).
  destruct (Ascii.eqb_spec c ","); [done|]. rewrite andb_true_r.
  repeat case_match; simplify_eq;
    repeat match goal with
    | H : (_ && _) = true |- _ => apply andb_true_iff in H as [? ?]
    | H : (_ <=? _) = true |- _ => apply Z.leb_le in H
    end; try (apply andb_true_iff; split; [apply Z.leb_le|apply Z.ltb_lt]; lia).
  apply orb_true_iff in Hc as [->%Ascii.eqb_eq| ->%Ascii.eqb_eq]; done.
Qed.

Lemma prefix_bytes_text p : wf_prefix p → Forall (λ c, text_byte c = true) (prefix_bytes p).
Proof.
  intros (Hwf & Hz & Hv & Hb). unfold prefix_bytes, IsValid.
  destruct (Z.leb_spec 0 (Bits p)); [|lia]. apply Forall_app. split.
  - by apply plain_text, addr_bytes_plain.
  - constructor; [done|]. apply plain_text, hexonly_plain, itoa_hexonly.
    destruct (PAddr p); simpl in Hb; lia.
Qed.

Lemma prefix_bytes_ne p : wf_prefix p → prefix_bytes p ≠ [].
Proof.
  intros (Hwf & Hz & Hv & Hb). unfold prefix_bytes, IsValid.
  destruct (Z.leb_spec 0 (Bits p)); [|lia]. by destruct (addr_bytes (PAddr p)).
Qed.

Lemma parse_entry_prefix p : wf_prefix p → parse_entry (PrefixString p) = Some (PAddr p).
Proof. intros Hwf. unfold parse_entry. by rewrite ParsePrefix_PrefixString. Qed.

Lemma SplitAddresses_one p : wf_prefix p → SplitAddresses (PrefixString p) = [PrefixString p].
Proof.
  intros Hwf. pose proof (prefix_bytes_text p Hwf) as Ht.
  unfold SplitAddresses, Split, PrefixString. rewrite bytes_of_bytes.
  destruct (split_bytes_text [] (prefix_bytes p) [] Ht) as [_ ->]. simpl. by rewrite TrimSpace_text.
Qed.

Lemma SplitAddresses_two p q : wf_prefix p → wf_prefix q →
  SplitAddresses (PrefixString p +:+ ", " +:+ PrefixString q) = [PrefixString p; PrefixString q].
Proof.
  intros Hp Hq. pose proof (prefix_bytes_text p Hp) as Htp. pose proof (prefix_bytes_text q Hq) as Htq.
  unfold SplitAddresses, Split, PrefixString. rewrite !bytes_app, !bytes_of_bytes.
  change (bytes ", " ++ prefix_bytes q) with (","%char :: " "%char :: prefix_bytes q).
  destruct (split_bytes_text [] (prefix_bytes p) (" "%char :: prefix_bytes q) Htp) as [-> _].
  cbn [split_bytes]. change (Ascii.eqb " " ",") with false. cbv iota.
  destruct (split_bytes_text [" "%char] (prefix_bytes q) [] Htq) as [_ ->].
  cbn [fmap list_fmap rev app].
  rewrite TrimSpace_text by done. by rewrite TrimSpace_blank by (done || by apply prefix_bytes_ne).
Qed.

Lemma ParseAddresses_one p : wf_prefix p → ParseAddresses (PrefixString p) = ([PAddr p], []).
Proof.
  intros Hwf. unfold ParseAddresses. rewrite SplitAddresses_one by done. simpl.
  rewrite parse_entry_prefix by done. by rewrite filter_cons_False by (by rewrite parse_entry_prefix).
Qed.

Lemma ParseAddresses_two p q : wf_prefix p → wf_prefix q →
  ParseAddresses (PrefixString p +:+ ", " +:+ PrefixString q) = ([PAddr p; PAddr q], []).
Proof.
  intros Hp Hq. unfold ParseAddresses. rewrite SplitAddresses_two by done. simpl.
  rewrite !parse_entry_prefix by done.
  by rewrite !filter_cons_False by (by rewrite parse_entry_prefix).
Qed.

Example parse_addresses_ex : ParseAddresses "10.44.0.2/32, 10.44.0.3,junk" =
  ([A4 (10 * 2^24 + 44 * 2^16 + 2); A4 (10 * 2^24 + 44 * 2^16 + 3)], ["junk"]).
Proof. vm_compute. done. Qed.
