(* ===== verification/GoQuote.v ===== *)
(** * strconv.Quote, the verb %q

    The quoted form of a string as [fmt] prints it with [%q]. Which code points
    from U+0080 on are printable is a table of the Unicode package and a
    parameter here; the theorem that quoting can be undone holds for every
    table. *)
From S2P Require Import Prelude GoText.

Class UnicodeTables := { is_print : Z → bool }.

Definition low_hex (d : Z) : ascii := if d <? 10 then chr (48 + d) else chr (87 + d).
Definition unhex (c : ascii) : Z := if byte_of c <? 58 then byte_of c - 48 else byte_of c - 87.

Fixpoint hex_n (n : nat) (r : Z) : list ascii :=
  match n with O => [] | S m => hex_n m (r / 16) ++ [low_hex (r mod 16)] end.

Definition EncodeRune (r : Z) : list ascii :=
  chr <$> (if r <? 128 then [r]
   else if r <? 2048 then [192 + r / 64; 128 + r mod 64]
   else if r <? 65536 then [224 + r / 4096; 128 + r / 64 mod 64; 128 + r mod 64]
   else [240 + r / 262144; 128 + r / 4096 mod 64; 128 + r / 64 mod 64; 128 + r mod 64]).

Section quote.
  Context `{UnicodeTables}.

Definition IsPrint (r : Z) : bool :=
  if r <? 128 then (32 <=? r) && (r <? 127) else is_print r.

(** The one-letter escapes. *)
Definition letter_escapes : list (Z * ascii) :=
  [(7, "a"%char); (8, "b"%char); (12, "f"%char); (10, "n"%char); (13, "r"%char);
   (9, "t"%char); (11, "v"%char)].
Fixpoint assoc_z (r : Z) (l : list (Z * ascii)) : option ascii :=
  match l with [] => None | (k, c) :: l' => if r =? k then Some c else assoc_z r l' end.

Definition backslash : ascii := chr 92.
Definition dquote : ascii := chr 34.

(** [appendEscapedRune] of a rune and the bytes it was decoded from. *)
Definition appendEscapedRune (r : Z) (raw : list ascii) : list ascii :=
  if (r =? 34) || (r =? 92) then [backslash; chr r]
  else if IsPrint r then raw
  else match assoc_z r letter_escapes with
       | Some c => [backslash; c]
       | None =>
           if (r <? 32) || (r =? 127) then backslash :: "x"%char :: hex_n 2 r
           else if r <? 65536 then backslash :: "u"%char :: hex_n 4 r
           else backslash :: "U"%char :: hex_n 8 r
       end.

Fixpoint quote_fuel (fuel : nat) (l : list ascii) : list ascii :=
  match fuel, l with
  | S f, c :: _ =>
      let '(r, width) := DecodeRune l in
      (if (width =? 1)%nat && (r =? RuneError) then backslash :: "x"%char :: hex_n 2 (byte_of c)
       else appendEscapedRune r (take width l)) ++ quote_fuel f (drop width l)
  | _, _ => []
  end.

Definition Quote (s : string) : string :=
  of_bytes (dquote :: quote_fuel (String.length s) (bytes s) ++ [dquote]).

(** ** Undoing it *)
Definition unhex_list (l : list ascii) : Z := fold_left (λ acc c, acc * 16 + unhex c) l 0.

Fixpoint assoc_c (c : ascii) (l : list (Z * ascii)) : option Z :=
  match l with [] => None | (k, c') :: l' => if Ascii.eqb c c' then Some k else assoc_c c l' end.

(** What an escape stands for, after its backslash, and what follows it. *)
Definition unescape (l : list ascii) : list ascii * list ascii :=
  match l with
  | [] => ([], [])
  | c :: l =>
      if Ascii.eqb c "x" then ([chr (unhex_list (take 2 l))], drop 2 l)
      else if Ascii.eqb c "u" then (EncodeRune (unhex_list (take 4 l)), drop 4 l)
      else if Ascii.eqb c "U" then (EncodeRune (unhex_list (take 8 l)), drop 8 l)
      else match assoc_c c letter_escapes with
           | Some r => ([chr r], l)
           | None => ([c], l)
           end
  end.

(** The bytes up to the closing quote, and what follows it; [None] without one. *)
Fixpoint unquote_fuel (fuel : nat) (l : list ascii) : option (list ascii * list ascii) :=
  match fuel, l with
  | S f, c :: l1 =>
      if Ascii.eqb c dquote then Some ([], l1)
      else
        let '(chunk, rest) := if Ascii.eqb c backslash then unescape l1 else ([c], l1) in
        match unquote_fuel f rest with
        | Some (s, r) => Some (chunk ++ s, r)
        | None => None
        end
  | _, _ => None
  end.

Lemma unhex_low_hex d : 0 <= d < 16 → unhex (low_hex d) = d.
Proof.
  intros Hd. unfold low_hex, unhex.
  destruct (Z.ltb_spec d 10); rewrite byte_of_chr by lia.
  - destruct (Z.ltb_spec (48 + d) 58); lia.
  - destruct (Z.ltb_spec (87 + d) 58); lia.
Qed.

Lemma hex_n_length n r : List.length (hex_n n r) = n.
Proof. revert r. induction n as [|n IH]; intros r; simpl; [done|]. rewrite length_app, IH. simpl. lia. Qed.

Lemma unhex_hex_n n r : 0 <= r < 16 ^ Z.of_nat n → unhex_list (hex_n n r) = r.
Proof.
  revert r. induction n as [|n IH]; intros r Hr; [unfold unhex_list; simpl in *; lia|].
  unfold unhex_list in *. simpl hex_n. rewrite fold_left_app. simpl.
  rewrite Nat2Z.inj_succ, Z.pow_succ_r in Hr by lia.
  rewrite IH, unhex_low_hex.
  - pose proof (Z.div_mod r 16). lia.
  - apply Z.mod_pos_bound. lia.
  - split; [apply Z.div_pos; lia|apply Z.div_lt_upper_bound; lia].
Qed.

Lemma take_hex n r l : take n (hex_n n r ++ l) = hex_n n r.
Proof. rewrite <- (hex_n_length n r) at 1. apply take_app_length. Qed.
Lemma drop_hex n r l : drop n (hex_n n r ++ l) = l.
Proof. rewrite <- (hex_n_length n r) at 1. apply drop_app_length. Qed.

Lemma lor_shift a b k : 0 <= k → 0 <= b < 2 ^ k → Z.lor (Z.shiftl a k) b = a * 2 ^ k + b.
Proof.
  intros Hk Hb. rewrite Z.shiftl_mul_pow2 by done. symmetry.
  apply Z.add_nocarry_lor. apply Z.bits_inj'. intros n Hn.
  rewrite Z.land_spec, Z.bits_0. destruct (Z.lt_ge_cases n k).
  - rewrite Z.mul_pow2_bits_low by lia. done.
  - rewrite (Z.testbit_eqb b) by done. rewrite (Z.div_small b); [by rewrite andb_false_r|].
    split; [lia|]. eapply Z.lt_le_trans; [apply Hb|]. apply Z.pow_le_mono_r; lia.
Qed.

(** ** What decodes to a rune of several bytes is its encoding *)
Lemma Encode_split2 a b : 2 <= a < 32 → 0 <= b < 64 →
  EncodeRune (a * 64 + b) = chr <$> [192 + a; 128 + b].
Proof.
  intros Ha Hb. unfold EncodeRune.
  destruct (Z.ltb_spec (a * 64 + b) 128); [lia|]. destruct (Z.ltb_spec (a * 64 + b) 2048); [|lia].
  replace ((a * 64 + b) / 64) with a by (apply Z.div_unique_pos with b; lia).
  by replace ((a * 64 + b) mod 64) with b by (apply Z.mod_unique_pos with a; lia).
Qed.

Lemma Encode_split3 a b c : 0 <= a < 16 → 0 <= b < 64 → 0 <= c < 64 → 2048 <= a * 4096 + b * 64 + c →
  EncodeRune (a * 4096 + b * 64 + c) = chr <$> [224 + a; 128 + b; 128 + c].
Proof.
  intros Ha Hb Hc Hlow. unfold EncodeRune. set (r := a * 4096 + b * 64 + c).
  destruct (Z.ltb_spec r 128); [lia|]. destruct (Z.ltb_spec r 2048); [lia|].
  destruct (Z.ltb_spec r 65536); [|lia].
  replace (r / 4096) with a by (apply Z.div_unique_pos with (b * 64 + c); lia).
  replace (r / 64) with (a * 64 + b) by (apply Z.div_unique_pos with c; lia).
  replace ((a * 64 + b) mod 64) with b by (apply Z.mod_unique_pos with a; lia).
  by replace (r mod 64) with c by (apply Z.mod_unique_pos with (a * 64 + b); lia).
Qed.

Lemma Encode_split4 a b c d : 0 <= a < 8 → 0 <= b < 64 → 0 <= c < 64 → 0 <= d < 64 →
  65536 <= a * 262144 + b * 4096 + c * 64 + d →
  EncodeRune (a * 262144 + b * 4096 + c * 64 + d) = chr <$> [240 + a; 128 + b; 128 + c; 128 + d].
Proof.
  intros Ha Hb Hc Hd Hlow. unfold EncodeRune. set (r := a * 262144 + b * 4096 + c * 64 + d).
  destruct (Z.ltb_spec r 128); [lia|]. destruct (Z.ltb_spec r 2048); [lia|].
  destruct (Z.ltb_spec r 65536); [lia|].
  replace (r / 262144) with a by (apply Z.div_unique_pos with (b * 4096 + c * 64 + d); lia).
  replace (r / 4096) with (a * 64 + b) by (apply Z.div_unique_pos with (c * 64 + d); lia).
  replace ((a * 64 + b) mod 64) with b by (apply Z.mod_unique_pos with a; lia).
  replace (r / 64) with ((a * 64 + b) * 64 + c) by (apply Z.div_unique_pos with d; lia).
  replace (((a * 64 + b) * 64 + c) mod 64) with c by (apply Z.mod_unique_pos with (a * 64 + b); lia).
  by replace (r mod 64) with d by (apply Z.mod_unique_pos with ((a * 64 + b) * 64 + c); lia).
Qed.

Ltac byte_bounds := repeat match goal with
  | c : ascii |- _ => lazymatch goal with
     | H : 0 <= byte_of c < 256 |- _ => fail
     | _ => pose proof (byte_of_range c) end
  end.
Ltac split_bools := repeat match goal with
  | H : (_ && _) = true |- _ => apply andb_true_iff in H as [? ?]
  | H : (_ <=? _) = true |- _ => apply Z.leb_le in H
  | H : (_ <? _) = true |- _ => apply Z.ltb_lt in H
  | H : (_ <? _) = false |- _ => apply Z.ltb_ge in H
  | H : (_ <=? _) = false |- _ => apply Z.leb_gt in H
  | H : (_ =? _) = true |- _ => apply Z.eqb_eq in H
  | H : (_ =? _) = false |- _ => apply Z.eqb_neq in H
  end.

Lemma chr_shift k c : 0 <= byte_of c - k → chr (k + (byte_of c - k)) = c.
Proof. intros. replace (k + (byte_of c - k)) with (byte_of c) by lia. apply chr_byte_of. Qed.

(** A rune of one byte is that byte or an error; a longer one is printed by
    [EncodeRune] as it was read. *)
Lemma DecodeRune_spec c l r n : DecodeRune (c :: l) = (r, n) →
  (n = 1%nat ∧ (r = RuneError ∨ r = byte_of c ∧ byte_of c < 128)) ∨
  ((2 <= n <= 4)%nat ∧ 128 <= r < 2097152 ∧ 128 <= byte_of c ∧
   take n (c :: l) = EncodeRune r ∧ Forall (λ x, 128 <= byte_of x) (take n (c :: l))).
Proof.
  unfold DecodeRune, cont. intros E.
  repeat (case_match; split_bools; simplify_eq; try (left; eauto; fail));
    right; byte_bounds.
  all: try (rewrite !lor_shift by (repeat rewrite lor_shift; lia)).
  all: change (2 ^ 6) with 64; change (2 ^ 12) with 4096; change (2 ^ 18) with 262144.
  all: split; [lia|]; split; [lia|]; split; [lia|]; split; [|repeat constructor; lia].
  all: rewrite ?Z.add_assoc;
    first [rewrite Encode_split2 by lia | rewrite Encode_split3 by lia | rewrite Encode_split4 by lia].
  all: cbn; by rewrite !chr_shift by lia.
Qed.

(** ** Unquoting undoes quoting *)
Definition raw_byte (c : ascii) : Prop := c ≠ dquote ∧ c ≠ backslash.

Lemma unquote_raw chunk fuel t s r : Forall raw_byte chunk →
  unquote_fuel fuel t = Some (s, r) →
  unquote_fuel (List.length chunk + fuel) (chunk ++ t) = Some (chunk ++ s, r).
Proof.
  induction 1 as [|c chunk [Hq Hb] _ IH]; intros E; [done|]. simpl.
  destruct (Ascii.eqb_spec c dquote); [done|]. destruct (Ascii.eqb_spec c backslash); [done|].
  by rewrite IH.
Qed.

Lemma unquote_more fuel fuel' t x : (fuel <= fuel')%nat →
  unquote_fuel fuel t = Some x → unquote_fuel fuel' t = Some x.
Proof.
  revert fuel' t x. induction fuel as [|f IH]; intros fuel' t x Hf E; [done|].
  destruct fuel' as [|f']; [lia|]. destruct t as [|c t]; [done|].
  simpl in E |- *. destruct (Ascii.eqb c dquote); [done|].
  destruct (if Ascii.eqb c backslash then unescape t else ([c], t)) as [chunk rest].
  destruct (unquote_fuel f rest) as [[s r]|] eqn:E'; [|done].
  by rewrite (IH f' rest (s, r)) by (done || lia).
Qed.

(** What one token of a quoted string unquotes to. *)
Lemma unquote_escape e chunk t s r fuel : unescape (e ++ t) = (chunk, t) →
  unquote_fuel fuel t = Some (s, r) →
  unquote_fuel (S fuel) (backslash :: e ++ t) = Some (chunk ++ s, r).
Proof. intros E Ht. simpl. rewrite E. by rewrite Ht. Qed.

Lemma unescape_hex c n t r : (c, n) ∈ [("x"%char, 2%nat); ("u"%char, 4%nat); ("U"%char, 8%nat)] →
  0 <= r < 16 ^ Z.of_nat n →
  unescape (c :: hex_n n r ++ t) = (if Ascii.eqb c "x" then [chr r] else EncodeRune r, t).
Proof.
  intros Hin Hr. repeat (apply elem_of_cons in Hin as [[= -> ->]|Hin]; [unfold unescape; simpl Ascii.eqb;
    rewrite take_hex, drop_hex, unhex_hex_n by done; done|]). by apply elem_of_nil in Hin.
Qed.

Lemma assoc_z_elem r c l : assoc_z r l = Some c → (r, c) ∈ l.
Proof.
  induction l as [|[k c'] l IH]; simpl; [done|]. destruct (Z.eqb_spec r k) as [->|].
  - intros [= ->]. apply list_elem_of_here.
  - intros E. apply list_elem_of_further; auto.
Qed.

Lemma unescape_letter r c t : assoc_z r letter_escapes = Some c →
  unescape (c :: t) = ([chr r], t) ∧ 0 <= r < 32.
Proof.
  intros E%assoc_z_elem. unfold letter_escapes in E.
  repeat (apply elem_of_cons in E as [[= -> ->]|E]; [split; [done|lia]|]). by apply elem_of_nil in E.
Qed.

Definition token (l : list ascii) : list ascii :=
  match l with
  | [] => []
  | c :: _ =>
      let '(r, width) := DecodeRune l in
      if (width =? 1)%nat && (r =? RuneError) then backslash :: "x"%char :: hex_n 2 (byte_of c)
      else appendEscapedRune r (take width l)
  end.

Lemma token_ascii c : byte_of c < 128 → ∀ t fuel s r, unquote_fuel fuel t = Some (s, r) →
  ∃ k, (k <= List.length (appendEscapedRune (byte_of c) [c]))%nat ∧
    unquote_fuel (k + fuel) (appendEscapedRune (byte_of c) [c] ++ t) = Some (c :: s, r).
Proof.
  intros Hc t fuel s r Ht. pose proof (byte_of_range c) as Hr. unfold appendEscapedRune.
  destruct ((byte_of c =? 34) || (byte_of c =? 92)) eqn:Eq.
  { exists 1%nat. split; [simpl; lia|]. rewrite chr_byte_of.
    apply (unquote_escape [c] [c]); [|done].
    apply orb_true_iff in Eq as [Eq%Z.eqb_eq|Eq%Z.eqb_eq];
      rewrite <- (chr_byte_of c), Eq; reflexivity. }
  apply orb_false_iff in Eq as [Eq1%Z.eqb_neq Eq2%Z.eqb_neq].
  destruct (IsPrint (byte_of c)) eqn:Ep.
  { exists 1%nat. split; [done|]. apply (unquote_raw [c]); [|done]. constructor; [|done].
    split; intros ->; done. }
  destruct (assoc_z (byte_of c) letter_escapes) as [e|] eqn:Ee.
  { exists 1%nat. split; [simpl; lia|].
    destruct (unescape_letter _ _ t Ee) as [E _]. rewrite chr_byte_of in E.
    by apply (unquote_escape [e] [c]). }
  assert ((byte_of c <? 32) || (byte_of c =? 127) = true) as ->.
  { unfold IsPrint in Ep. destruct (Z.ltb_spec (byte_of c) 128); [|lia].
    destruct (Z.leb_spec 32 (byte_of c)), (Z.ltb_spec (byte_of c) 127),
      (Z.ltb_spec (byte_of c) 32), (Z.eqb_spec (byte_of c) 127); simpl in *; (done || lia). }
  exists 1%nat. split; [simpl; lia|].
  apply (unquote_escape ("x"%char :: hex_n 2 (byte_of c)) [c]); [|done].
  change (("x"%char :: hex_n 2 (byte_of c)) ++ t) with ("x"%char :: hex_n 2 (byte_of c) ++ t).
  rewrite unescape_hex by (set_solver || (simpl; lia)). simpl. by rewrite chr_byte_of.
Qed.

Lemma token_wide raw r0 : 128 <= r0 < 2097152 → raw = EncodeRune r0 →
  Forall (λ x, 128 <= byte_of x) raw → ∀ t fuel s r, unquote_fuel fuel t = Some (s, r) →
  ∃ k, (k <= List.length (appendEscapedRune r0 raw))%nat ∧
    unquote_fuel (k + fuel) (appendEscapedRune r0 raw ++ t) = Some (raw ++ s, r).
Proof.
  intros Hr0 Hraw Hhigh t fuel s r Ht. unfold appendEscapedRune.
  destruct (Z.eqb_spec r0 34); [lia|]. destruct (Z.eqb_spec r0 92); [lia|]. cbn [orb].
  destruct (IsPrint r0).
  { exists (List.length raw). split; [done|]. apply unquote_raw; [|done].
    eapply Forall_impl; [exact Hhigh|]. intros x Hx. split; intros ->; done. }
  destruct (assoc_z r0 letter_escapes) eqn:Ee.
  { destruct (unescape_letter _ _ t Ee) as [_ ?]. lia. }
  destruct (Z.ltb_spec r0 32), (Z.eqb_spec r0 127); try lia. cbn [orb].
  exists 1%nat. split; [destruct (r0 <? 65536); cbn [List.length]; lia|].
  destruct (Z.ltb_spec r0 65536).
  - apply (unquote_escape ("u"%char :: hex_n 4 r0) raw); [|done].
    change (("u"%char :: hex_n 4 r0) ++ t) with ("u"%char :: hex_n 4 r0 ++ t).
    rewrite unescape_hex by (set_solver || (simpl; lia)). by rewrite Hraw.
  - apply (unquote_escape ("U"%char :: hex_n 8 r0) raw); [|done].
    change (("U"%char :: hex_n 8 r0) ++ t) with ("U"%char :: hex_n 8 r0 ++ t).
    rewrite unescape_hex by (set_solver || (simpl; lia)). by rewrite Hraw.
Qed.

Lemma token_spec c l : let l := c :: l in let w := (DecodeRune l).2 in
  (1 <= w)%nat ∧ ∀ t fuel s r, unquote_fuel fuel t = Some (s, r) →
    ∃ k, (k <= List.length (token l))%nat ∧
      unquote_fuel (k + fuel) (token l ++ t) = Some (take w l ++ s, r).
Proof.
  intros l0 w. unfold token, w, l0. destruct (DecodeRune (c :: l)) as [r0 n] eqn:E. simpl snd.
  apply DecodeRune_spec in E as [[-> [->|[-> Hc]]]|(Hn & Hr0 & Hc & Henc & Hhigh)].
  - split; [done|]. intros t fuel s r Ht. exists 1%nat. split; [simpl; lia|].
    simpl andb. cbv iota. change (take 1 (c :: l)) with [c].
    apply (unquote_escape ("x"%char :: hex_n 2 (byte_of c)) [c]); [|done].
    change (("x"%char :: hex_n 2 (byte_of c)) ++ t) with ("x"%char :: hex_n 2 (byte_of c) ++ t).
    rewrite unescape_hex by (set_solver || apply byte_of_range); simpl; by rewrite chr_byte_of.
  - split; [done|]. intros t fuel s r Ht.
    destruct (Z.eqb_spec (byte_of c) RuneError); [unfold RuneError in *; lia|]. simpl andb. cbv iota.
    by apply token_ascii.
  - split; [lia|]. intros t fuel s r Ht.
    destruct (Nat.eqb_spec n 1); [lia|]. simpl andb. cbv iota.
    by apply token_wide.
Qed.

Lemma quote_fuel_token f c l : quote_fuel (S f) (c :: l) =
  token (c :: l) ++ quote_fuel f (drop (DecodeRune (c :: l)).2 (c :: l)).
Proof. unfold token. cbn [quote_fuel]. by destruct (DecodeRune (c :: l)). Qed.

Lemma unquote_quote n l rest : (List.length l <= n)%nat → ∃ fuel,
  (fuel <= List.length (quote_fuel n l ++ dquote :: rest))%nat ∧
  unquote_fuel fuel (quote_fuel n l ++ dquote :: rest) = Some (l, rest).
Proof.
  revert l. induction n as [|n IH]; intros l Hl.
  { destruct l; [|simpl in Hl; lia]. exists 1%nat. split; [simpl; lia|done]. }
  destruct l as [|c l]; [exists 1%nat; split; [simpl; lia|done]|].
  rewrite quote_fuel_token, <- app_assoc.
  destruct (token_spec c l) as [Hw Htok]. set (w := (DecodeRune (c :: l)).2) in *.
  destruct (IH (drop w (c :: l))) as (fuel & Hf & E).
  { rewrite length_drop. simpl in *. lia. }
  destruct (Htok _ _ _ _ E) as (k & Hk & E'). exists (k + fuel)%nat.
  rewrite take_drop in E'. split; [rewrite length_app; lia|exact E'].
Qed.

Definition unquote (l : list ascii) : option (list ascii * list ascii) := unquote_fuel (List.length l) l.

(** Quoting can be undone, whatever follows: no two strings have the same
    quoted form, and none is a prefix of another's. *)
Lemma unquote_Quote s rest : unquote (drop 1 (bytes (Quote s)) ++ rest) = Some (bytes s, rest).
Proof.
  unfold Quote. rewrite bytes_of_bytes. simpl. rewrite drop_0, <- app_assoc. simpl.
  destruct (unquote_quote (String.length s) (bytes s) rest) as (fuel & Hf & E).
  { by rewrite length_bytes. }
  by apply (unquote_more _ _ _ _ Hf).
Qed.
End quote.
