(* ===== verification/Firewall.v ===== *)
(** * internal/network: the firewall rules

    [network.go] from [ForwardingOptions] on and [nftables.go]. The nftables
    ruleset is built as data - sets and rules - and printed; what the rules do
    to a packet is in [FirewallSpecs.v]. The iptables backend, command by command,
    on an interface for the iptables library. *)
From S2P Require Import Prelude GoText GoQuote Netip NetipText NetipRoundTrip Network.

(** ** Options *)
Record Policy := mkPolicy {
  pol_Name : string;
  pol_AllowedIPs : list string;
  pol_Members : list string }.

Record ForwardingOptions := mkForwarding {
  GatewayIface : string;
  fo_CIDR : string;
  fo_CIDRv6 : string;
  NAT44 : bool;
  NAT66 : bool;
  ClientIsolation : bool;
  fo_AllowedIPs : list string;
  allowedIPv4s : list string;
  allowedIPv6s : list string;
  fo_Policies : list Policy;
  ServerAddresses : list string;
  Firewall : string }.

(** ^[A-Za-z0-9_]{1,32}$ *)
Definition alnum (c : ascii) : bool :=
  let b := byte_of c in
  ((65 <=? b) && (b <=? 90)) || ((97 <=? b) && (b <=? 122)) || ((48 <=? b) && (b <=? 57)).
Definition ValidPolicyName (name : string) : bool :=
  (1 <=? slen name) && (slen name <=? 32) && forallb (λ c, alnum c || Ascii.eqb c "_") (bytes name).
(** ^[A-Za-z0-9_.@:-]{1,15}$ *)
Definition interfaceName (name : string) : bool :=
  (1 <=? slen name) && (slen name <=? 15) &&
  forallb (λ c, alnum c || existsb (Ascii.eqb c) (bytes "_.@:-")) (bytes name).

Definition forwardChain : string := "WG_ACCESS_SERVER_FORWARD".
Definition postroutingChain : string := "WG_ACCESS_SERVER_POSTROUTING".
Definition FirewallIPTables : string := "iptables".
Definition FirewallNftables : string := "nftables".
Definition FirewallNone : string := "none".

Section firewall.
  Context `{UnicodeTables}.

Definition ResolveFirewall (firewall : string) (disableIPTables : bool) : result string :=
  if String.eqb firewall "" then Ok (if disableIPTables then FirewallNone else FirewallIPTables) else
  if existsb (String.eqb firewall) [FirewallIPTables; FirewallNftables; FirewallNone] then
    if disableIPTables && negb (String.eqb firewall FirewallNone)
    then Err (PlainError ("vpn.disableIPTables and vpn.firewall: " +:+ firewall
           +:+ " contradict each other - set only vpn.firewall"))
    else Ok firewall
  else Err (PlainError ("unknown firewall " +:+ Quote firewall +:+ ": use iptables, nftables or none")).

(** ** Families *)
Record family := mkFamily {
  keyword : string;
  f_cidr : string;
  f_allowed : list string;
  nat : bool }.
Definition families (options : ForwardingOptions) : list family :=
  filter (λ f, f_cidr f ≠ "")
    [mkFamily "ip" (fo_CIDR options) (allowedIPv4s options) (NAT44 options);
     mkFamily "ip6" (fo_CIDRv6 options) (allowedIPv6s options) (NAT66 options)].

(** [net.ParseCIDR]: the address and the length of the mask. *)
Definition cidr_parts (s : string) : option (Addr * Z) :=
  '(a, mask) ← cut "/" (bytes s);
  ip ← ParseAddr_bytes a;
  if hasZone ip then None else
  match mask with
  | [] => None
  | _ => n ← digits_value 0 mask; if BitLen ip <? n then None else Some (ip, n)
  end.
(** [parsedAddress.To4()] *)
Definition To4 (ip : Addr) : option Addr :=
  match ip with A4 _ => Some ip | _ => if Is4In6 ip then Some (Unmap ip) else None end.
(** [parsedNetwork.String()] after its IP was replaced by [as4]: the mask is the
    last four bytes of the parsed one. *)
Definition mapped_text (as4 : Addr) (ip : Addr) (n : Z) : string :=
  PrefixString (mkPrefix as4 (match ip with A4 _ => n | _ => Z.max 0 (n - 96) end)).

Fixpoint split_loop (l : list string) (v4 v6 : list string) : result (list string * list string) :=
  match l with
  | [] => Ok (v4, v6)
  | allowedCIDR :: l' =>
      match cidr_parts allowedCIDR with
      | None => Err (WrappedError "invalid cidr in AllowedIPs" (PlainError "invalid CIDR address"))
      | Some (ip, n) =>
          match To4 ip with
          | Some as4 => split_loop l' (v4 ++ [mapped_text as4 ip n]) v6
          | None => split_loop l' v4 (v6 ++ [IPNetString (Masked (PrefixFrom ip n))])
          end
      end
  end.
Definition splitAllowedIPs (options : ForwardingOptions) : result ForwardingOptions :=
  let? split := split_loop (fo_AllowedIPs options) [] [] in
  Ok (mkForwarding (GatewayIface options) (fo_CIDR options) (fo_CIDRv6 options) (NAT44 options)
        (NAT66 options) (ClientIsolation options) (fo_AllowedIPs options) split.1 split.2
        (fo_Policies options) (ServerAddresses options) (Firewall options)).

(** ** The parts of a ruleset *)
Definition is_ip (f : family) : bool := String.eqb (keyword f) "ip".

Fixpoint prefixesOfFamily (networks : list string) (f : family) : result (list string) :=
  match networks with
  | [] => Ok []
  | network :: networks' =>
      match ParsePrefix network with
      | None => Err (WrappedError ("invalid network " +:+ Quote network) netip_error)
      | Some prefix =>
          let? kept := prefixesOfFamily networks' f in
          Ok (if Bool.eqb (Is4 (Unmap (PAddr prefix))) (is_ip f)
              then PrefixString (Masked prefix) :: kept else kept)
      end
  end.

(** One entry of [addressesOfFamily]: a prefix or a bare address. *)
Definition entry_addr (address : string) : option Addr := parse_entry (TrimSpace address).
Definition addressesOfFamily (addresses : list string) (f : family) : list string :=
  omap (λ address, addr ← entry_addr address;
          if Bool.eqb (Is4 (Unmap addr)) (is_ip f) then Some (AddrString (Unmap addr)) else None) addresses.

Definition policySetName (policy : string) (f : family) : string :=
  "policy_" +:+ policy +:+ "_" +:+ keyword f.
Definition policyMembersSetName (f : family) : string := "policy_members_" +:+ keyword f.

Fixpoint policiesOfFamily (policies : list Policy) (f : family) : result (list Policy) :=
  match policies with
  | [] => Ok []
  | policy :: policies' =>
      fail! (PlainError ("invalid policy name " +:+ Quote (pol_Name policy)))
        when negb (ValidPolicyName (pol_Name policy));
      let? networks := wrap ("policy " +:+ Quote (pol_Name policy))
                         (prefixesOfFamily (pol_AllowedIPs policy) f) in
      let? reduced := policiesOfFamily policies' f in
      Ok (mkPolicy (pol_Name policy) networks (addressesOfFamily (pol_Members policy) f) :: reduced)
  end.

(** ** The ruleset as data *)
(** What an address is compared with: a network or address as text, or a set. *)
Inductive Match :=
  | Net (t : string)
  | InSet (name : string).
Inductive Verdict := Accept | Reject | Masquerade.
Record Rule := mkRule {
  r_ip : string;
  r_saddr : Match;
  r_daddr : option Match;
  r_oifname : option string;
  r_verdict : Verdict }.
Record NftSet := mkNftSet { set_Name : string; set_family : family; set_Elements : list string }.
Record Ruleset := mkRuleset {
  rs_sets : list NftSet;
  rs_forward : list Rule;
  rs_postrouting : list Rule }.
Definition rs_app (a b : Ruleset) : Ruleset :=
  mkRuleset (rs_sets a ++ rs_sets b) (rs_forward a ++ rs_forward b) (rs_postrouting a ++ rs_postrouting b).

Definition accept (f : family) (saddr daddr : Match) : Rule := mkRule (keyword f) saddr (Some daddr) None Accept.
Definition reject (f : family) (saddr : Match) : Rule := mkRule (keyword f) saddr None None Reject.

(** The rules of one policy. *)
Definition policy_rules (f : family) (policy : Policy) : list Rule :=
  let set := policySetName (pol_Name policy) f in
  ((λ network, accept f (InSet set) (Net network)) <$> pol_AllowedIPs policy) ++
  (if nat f then [] else (λ network, accept f (Net network) (InSet set)) <$> pol_AllowedIPs policy).

(** The rules and sets of all policies of a family. *)
Definition policies_ruleset (options : ForwardingOptions) (f : family) (cidr : string)
    (policies : list Policy) : Ruleset :=
  match policies with
  | [] => mkRuleset [] [] []
  | _ =>
      mkRuleset
        (((λ policy, mkNftSet (policySetName (pol_Name policy) f) f (pol_Members policy)) <$> policies)
          ++ [mkNftSet (policyMembersSetName f) f (policies ≫= pol_Members)])
        (((λ address, accept f (Net cidr) (Net address)) <$> addressesOfFamily (ServerAddresses options) f)
          ++ (policies ≫= policy_rules f)
          ++ [reject f (InSet (policyMembersSetName f))])
        []
  end.

(** One turn of the loop over the families. *)
Definition family_ruleset (options : ForwardingOptions) (f : family) : result Ruleset :=
  match ParsePrefix (f_cidr f) with
  | None => Err (WrappedError ("invalid VPN network " +:+ Quote (f_cidr f)) netip_error)
  | Some prefix =>
      let cidr := PrefixString (Masked prefix) in
      let isolation := if ClientIsolation options
                       then [mkRule (keyword f) (Net cidr) (Some (Net cidr)) None Reject] else [] in
      let? policies := policiesOfFamily (fo_Policies options) f in
      let allowed := (λ network, accept f (Net cidr) (Net network)) <$> f_allowed f in
      let returns := if nat f then [] else (λ network, accept f (Net network) (Net cidr)) <$> f_allowed f in
      let masquerade :=
        if negb (String.eqb (GatewayIface options) "") && nat f
        then [mkRule (keyword f) (Net cidr) None (Some (GatewayIface options)) Masquerade] else [] in
      Ok (rs_app (mkRuleset [] isolation [])
         (rs_app (policies_ruleset options f cidr policies)
                 (mkRuleset [] (allowed ++ returns ++ [reject f (Net cidr)]) masquerade)))
  end.

Fixpoint families_ruleset (options : ForwardingOptions) (fs : list family) : result Ruleset :=
  match fs with
  | [] => Ok (mkRuleset [] [] [])
  | f :: fs' =>
      let? r := family_ruleset options f in
      let? rest := families_ruleset options fs' in
      Ok (rs_app r rest)
  end.

Definition ruleset (options : ForwardingOptions) : result Ruleset :=
  fail! (PlainError ("invalid gateway interface name " +:+ Quote (GatewayIface options)))
    when negb (String.eqb (GatewayIface options) "") && negb (interfaceName (GatewayIface options));
  families_ruleset options (families options).

(** ** Printing it *)
Definition nl : string := of_bytes [chr 10].
Definition tab : string := of_bytes [chr 9].
Definition nftTable : string := "wg_access_server".
Definition match_text (m : Match) : string := match m with Net t => t | InSet name => "@" +:+ name end.
Definition rule_text (r : Rule) : string :=
  r_ip r +:+ " saddr " +:+ match_text (r_saddr r)
  +:+ match r_daddr r with Some d => " " +:+ r_ip r +:+ " daddr " +:+ match_text d | None => "" end
  +:+ match r_oifname r with Some i => " oifname " +:+ Quote i | None => "" end
  +:+ match r_verdict r with Accept => " accept" | Reject => " reject" | Masquerade => " masquerade" end.
Definition nftSet (s : NftSet) : string :=
  let kind := if String.eqb (keyword (set_family s)) "ip6" then "ipv6_addr" else "ipv4_addr" in
  tab +:+ "set " +:+ set_Name s +:+ " {" +:+ nl +:+ tab +:+ tab +:+ "type " +:+ kind +:+ nl
  +:+ match set_Elements s with
      | [] => ""
      | addresses => tab +:+ tab +:+ "elements = { " +:+ Join addresses ", " +:+ " }" +:+ nl
      end
  +:+ tab +:+ "}" +:+ nl.
Definition concat_text (l : list string) : string := Join l "".
Definition ruleset_text (rs : Ruleset) : string :=
  "table inet " +:+ nftTable +:+ nl +:+ "delete table inet " +:+ nftTable +:+ nl
  +:+ "table inet " +:+ nftTable +:+ " {" +:+ nl
  +:+ concat_text ((λ s, nftSet s +:+ nl) <$> rs_sets rs)
  +:+ tab +:+ "chain forward {" +:+ nl +:+ tab +:+ tab
  +:+ "type filter hook forward priority filter; policy accept;" +:+ nl
  +:+ concat_text ((λ r, tab +:+ tab +:+ rule_text r +:+ nl) <$> rs_forward rs)
  +:+ tab +:+ "}" +:+ nl +:+ nl +:+ tab +:+ "chain postrouting {" +:+ nl +:+ tab +:+ tab
  +:+ "type nat hook postrouting priority srcnat; policy accept;" +:+ nl
  +:+ concat_text ((λ r, tab +:+ tab +:+ rule_text r +:+ nl) <$> rs_postrouting rs)
  +:+ tab +:+ "}" +:+ nl +:+ "}" +:+ nl.
Definition nftablesRuleset (options : ForwardingOptions) : result string :=
  let? rs := ruleset options in Ok (ruleset_text rs).
End firewall.

(** ** The iptables backend

    [configureIPTables] and the choice between the backends, on the operations
    of the go-iptables library, which is an interface here: tables of chains of
    rules per protocol. [Tables] is the plain implementation its documentation
    describes; on it the theorems of [FirewallTheorems.v] say what the chains
    hold afterwards. *)
(** A rule is the list of its arguments; a protocol is the keyword of its
    family. *)
Notation Spec := (list string).
Class IPTables (T : Type) := {
  NewWithProtocol : string → M T unit;
  ChainExists : string → string → string → M T bool;
  ClearChain : string → string → string → M T unit;
  NewChain : string → string → string → M T unit;
  AppendUnique : string → string → string → Spec → M T unit;
  DeleteIfExists : string → string → string → Spec → M T unit;
  ClearAndDeleteChain : string → string → string → M T unit;
  (* the nft command: whether it is installed, and applying a ruleset *)
  LookPathNft : M T bool;
  runNft : string → M T unit }.

Section backend.
  Context `{UnicodeTables} {T : Type} `{IPTables T}.

Definition clearOrCreateChain (protocol table chain : string) : M T unit :=
  let! exists_ := m_wrap ("failed to read table " +:+ table) (ChainExists protocol table chain) in
  if exists_
  then m_wrap ("failed to clear chain " +:+ chain +:+ " in table " +:+ table) (ClearChain protocol table chain)
  else m_wrap ("failed to create chain " +:+ chain +:+ " in table " +:+ table) (NewChain protocol table chain).

(** The rules of the forward chain of one family, in order. *)
Definition isolation_specs (options : ForwardingOptions) (f : family) : list Spec :=
  if ClientIsolation options then [["-s"; f_cidr f; "-d"; f_cidr f; "-j"; "REJECT"]] else [].
Definition allowed_specs (f : family) : list Spec :=
  (λ allowedCIDR, ["-s"; f_cidr f; "-d"; allowedCIDR; "-j"; "ACCEPT"]) <$> f_allowed f.
Definition return_specs (f : family) : list Spec :=
  if nat f then [] else (λ allowedCIDR, ["-s"; allowedCIDR; "-d"; f_cidr f; "-j"; "ACCEPT"]) <$> f_allowed f.

Definition set_rule (f : family) (table chain : string) (spec : Spec) : M T unit :=
  m_wrap "failed to set ip tables rule" (AppendUnique (keyword f) table chain spec).

Definition configureIPTablesFamily (options : ForwardingOptions) (f : family) : M T unit :=
  do! m_wrap "failed to init iptables" (NewWithProtocol (keyword f));
  do! clearOrCreateChain (keyword f) "filter" forwardChain;
  do! clearOrCreateChain (keyword f) "nat" postroutingChain;
  do! m_wrap "failed to append FORWARD rule to filter chain"
        (AppendUnique (keyword f) "filter" "FORWARD" ["-j"; forwardChain]);
  do! m_wrap "failed to append POSTROUTING rule to nat chain"
        (AppendUnique (keyword f) "nat" "POSTROUTING" ["-j"; postroutingChain]);
  do! m_for (set_rule f "filter" forwardChain) (isolation_specs options f);
  do! m_for (set_rule f "filter" forwardChain) (allowed_specs f);
  do! m_for (λ spec, m_wrap "failed to set ip tables rule for return traffic"
               (AppendUnique (keyword f) "filter" forwardChain spec)) (return_specs f);
  do! set_rule f "filter" forwardChain ["-s"; f_cidr f; "-j"; "REJECT"];
  if negb (String.eqb (GatewayIface options) "") && nat f
  then set_rule f "nat" postroutingChain ["-s"; f_cidr f; "-o"; GatewayIface options; "-j"; "MASQUERADE"]
  else m_ret tt.

Definition configureIPTables (options : ForwardingOptions) : M T unit :=
  m_for (configureIPTablesFamily options) (families options).

(** [removeIPTables]: best effort, a failure goes on with the next chain. *)
Definition remove_chain (protocol table parent name : string) : M T unit :=
  let! exists_ := m_try (ChainExists protocol table name) in
  match exists_ with
  | Ok true =>
      let! r := m_try (DeleteIfExists protocol table parent ["-j"; name]) in
      if is_ok r then (do! m_try (ClearAndDeleteChain protocol table name); m_ret tt) else m_ret tt
  | _ => m_ret tt
  end.
Definition removeIPTables : M T unit :=
  m_for (λ protocol,
    let! r := m_try (NewWithProtocol protocol) in
    if is_ok r then
      do! remove_chain protocol "filter" "FORWARD" forwardChain;
      remove_chain protocol "nat" "POSTROUTING" postroutingChain
    else m_ret tt) ["ip"; "ip6"].

Definition configureNftables (options : ForwardingOptions) : M T unit :=
  let! ruleset := lift (nftablesRuleset options) in runNft ruleset.
Definition removeNftables : M T unit :=
  let! found := LookPathNft in
  if found then
    do! m_try (runNft ("table inet " +:+ nftTable +:+ nl +:+ "delete table inet " +:+ nftTable +:+ nl));
    m_ret tt
  else m_ret tt.

Definition ConfigureForwarding (options : ForwardingOptions) : M T unit :=
  if String.eqb (Firewall options) FirewallNone then m_ret tt else
  let! options := lift (splitAllowedIPs options) in
  if String.eqb (Firewall options) FirewallNftables
  then do! removeIPTables; configureNftables options
  else do! removeNftables; configureIPTables options.
End backend.

(** ** The plain implementation *)
(** The rules of each chain; [applied] are the rulesets nft was given. *)
Record Tables := mkTables {
  chains : gmap (string * string * string) (list Spec);
  applied : list string }.
Definition on_chains (f : gmap (string * string * string) (list Spec) → gmap (string * string * string) (list Spec))
    (t : Tables) : Tables := mkTables (f (chains t)) (applied t).

Definition no_chain {A} : M Tables A := m_fail (PlainError "no chain of that name").
Definition on_chain (protocol table chain : string) (f : list Spec → list Spec) : M Tables unit := λ t,
  match chains t !! (protocol, table, chain) with
  | Some rules => (Ok tt, on_chains <[(protocol, table, chain) := f rules]> t)
  | None => no_chain t
  end.
#[export] Instance Tables_IPTables : IPTables Tables := {
  NewWithProtocol _ := m_ret tt;
  ChainExists p t c := m_gets (λ s, bool_decide (is_Some (chains s !! (p, t, c))));
  ClearChain p t c := on_chain p t c (λ _, []);
  NewChain p t c := λ s, if bool_decide (is_Some (chains s !! (p, t, c)))
    then (Err (PlainError "chain exists"), s) else (Ok tt, on_chains <[(p, t, c) := []]> s);
  AppendUnique p t c spec := on_chain p t c (λ rules, if decide (spec ∈ rules) then rules else rules ++ [spec]);
  DeleteIfExists p t c spec := on_chain p t c (filter (λ r, r ≠ spec));
  ClearAndDeleteChain p t c := m_modify (on_chains (delete (p, t, c)));
  LookPathNft := m_ret true;
  runNft r := m_modify (λ s, mkTables (chains s) (applied s ++ [r])) }.
