(* ===== verification/FirewallSpecs.v ===== *)
(** * What the firewall rules do to a packet

    The meaning of the forward chain for a packet from one address to another:
    the first rule that matches decides, and a packet no rule matches is
    accepted. Lemmas about the ruleset [Firewall.v] builds. *)
From S2P Require Import Prelude GoText GoQuote Netip NetipText NetipRoundTrip Network Firewall.

(** ** Packets *)
Definition family_keyword (a : Addr) : string := if Is4 a then "ip" else "ip6".
(** The address is the text's, or in the network the text names. *)
Definition net_matches (t : string) (a : Addr) : bool :=
  match ParsePrefix t with
  | Some p => Contains p a
  | None => bool_decide (ParseAddr t = Some a)
  end.
(** Declaring a set twice adds to it. *)
Definition set_matches (sets : list NftSet) (name : string) (a : Addr) : bool :=
  existsb (λ s, String.eqb (set_Name s) name && existsb (λ t, bool_decide (ParseAddr t = Some a)) (set_Elements s)) sets.
Definition matches (sets : list NftSet) (m : Match) (a : Addr) : bool :=
  match m with Net t => net_matches t a | InSet name => set_matches sets name a end.
Definition rule_matches (sets : list NftSet) (src dst : Addr) (r : Rule) : bool :=
  String.eqb (r_ip r) (family_keyword src) && String.eqb (r_ip r) (family_keyword dst) &&
  matches sets (r_saddr r) src && match r_daddr r with Some d => matches sets d dst | None => true end.
Fixpoint chain_verdict (sets : list NftSet) (rules : list Rule) (src dst : Addr) : option Verdict :=
  match rules with
  | [] => None
  | r :: rules' => if rule_matches sets src dst r then Some (r_verdict r) else chain_verdict sets rules' src dst
  end.
Definition forwards (rs : Ruleset) (src dst : Addr) : bool :=
  match chain_verdict (rs_sets rs) (rs_forward rs) src dst with
  | Some Reject => false
  | _ => true
  end.

Lemma chain_verdict_app sets r1 r2 src dst : chain_verdict sets (r1 ++ r2) src dst =
  match chain_verdict sets r1 src dst with Some v => Some v | None => chain_verdict sets r2 src dst end.
Proof. induction r1 as [|r r1 IH]; cbn; [done|]. destruct (rule_matches _ _ _ r); [done|apply IH]. Qed.

(** Rules that all have the same verdict. *)
Lemma chain_verdict_same sets rules v src dst : Forall (λ r, r_verdict r = v) rules →
  chain_verdict sets rules src dst =
  if existsb (rule_matches sets src dst) rules then Some v else None.
Proof.
  induction 1 as [|r rules Hv _ IH]; cbn; [done|]. destruct (rule_matches sets src dst r); cbn; [by rewrite Hv|done].
Qed.

(** Rules for the other family do not match. *)
Lemma chain_verdict_other sets rules src dst : Forall (λ r, r_ip r ≠ family_keyword src) rules →
  chain_verdict sets rules src dst = None.
Proof.
  induction 1 as [|r rules Hr _ IH]; cbn; [done|]. unfold rule_matches.
  apply String.eqb_neq in Hr. by rewrite Hr.
Qed.

(** ** Names of sets *)
Definition keyword_ok (f : family) : Prop := keyword f = "ip" ∨ keyword f = "ip6".

Lemma string_app_inv_head s t u : s +:+ t = s +:+ u → t = u.
Proof. intros E. apply bytes_inj. apply (f_equal bytes) in E. rewrite !bytes_app in E. by apply app_inv_head in E. Qed.
Lemma string_app_inv_tail s t u : t +:+ s = u +:+ s → t = u.
Proof. intros E. apply bytes_inj. apply (f_equal bytes) in E. rewrite !bytes_app in E. by apply app_inv_tail in E. Qed.

(** A suffix of the name says which family its set is for. *)
Lemma suffix_family x y f g : keyword_ok f → keyword_ok g →
  x +:+ "_" +:+ keyword f = y +:+ "_" +:+ keyword g → keyword f = keyword g ∧ x = y.
Proof.
  intros Hf Hg E. assert (keyword f = keyword g) as Hk; [|split; [done|]].
  - apply (f_equal (λ s, rev (bytes s))) in E. rewrite !bytes_app, !rev_app_distr in E.
    destruct Hf as [Hf|Hf], Hg as [Hg|Hg]; rewrite Hf, Hg in *; try done; cbn in E; discriminate.
  - rewrite Hk in E. by apply string_app_inv_tail in E.
Qed.
Lemma policySetName_inj n m f g : keyword_ok f → keyword_ok g →
  policySetName n f = policySetName m g → keyword f = keyword g ∧ n = m.
Proof.
  intros Hf Hg E. unfold policySetName in E. apply string_app_inv_head in E. by apply suffix_family in E.
Qed.
Lemma members_set f : policyMembersSetName f = policySetName "members" f.
Proof. reflexivity. Qed.

(** ** The rules of one family *)
Section rules.
  Context `{UnicodeTables} (options : ForwardingOptions).

Lemma policiesOfFamily_spec policies f l : policiesOfFamily policies f = Ok l →
  Forall2 (λ pol q, pol_Name q = pol_Name pol ∧ prefixesOfFamily (pol_AllowedIPs pol) f = Ok (pol_AllowedIPs q) ∧
    pol_Members q = addressesOfFamily (pol_Members pol) f) policies l.
Proof.
  revert l. induction policies as [|pol policies IH]; intros l E; cbn in E; [injection E as <-; constructor|].
  destruct (negb (ValidPolicyName (pol_Name pol))); [done|]. rinv. subst. constructor; [done|]. by apply IH.
Qed.

Lemma prefixesOfFamily_spec networks f l t : prefixesOfFamily networks f = Ok l →
  t ∈ l ↔ ∃ n p, n ∈ networks ∧ ParsePrefix n = Some p ∧ Is4 (Unmap (PAddr p)) = is_ip f ∧ t = PrefixString (Masked p).
Proof.
  revert l. induction networks as [|n networks IH]; intros l E; cbn in E.
  { injection E as <-. split; [by intros ?%not_elem_of_nil|]. intros (? & ? & ?%not_elem_of_nil & _). done. }
  destruct (ParsePrefix n) as [p|] eqn:Hp; [|done]. apply rbind_ok in E as (kept & Hkept & E). specialize (IH _ Hkept).
  injection E as E.
  assert (t ∈ l ↔ (Is4 (Unmap (PAddr p)) = is_ip f ∧ t = PrefixString (Masked p)) ∨ t ∈ kept) as ->.
  { destruct (Bool.eqb _ _) eqn:Eb.
    - apply Bool.eqb_prop in Eb. subst l. rewrite elem_of_cons. tauto.
    - apply Bool.eqb_false_iff in Eb. subst l. tauto. }
  rewrite IH. split.
  - intros [[Hf ->]|(m & q & Hin & ?)]; [exists n, p|exists m, q]; (split; [set_solver|done]).
  - intros (m & q & [->|Hin]%elem_of_cons & Hq & Hf & ->); [left|right].
    + rewrite Hp in Hq. injection Hq as ->. done.
    + exists m, q. done.
Qed.

Lemma net_matches_prefix p a : wf_prefix p → net_matches (PrefixString (Masked p)) a = Contains p a.
Proof.
  intros Hwf. unfold net_matches. rewrite ParsePrefix_PrefixString by by apply Masked_wf. by apply Contains_Masked.
Qed.

Definition of_family (f : family) (rules : list Rule) : Prop := Forall (λ x, r_ip x = keyword f) rules.
Lemma of_family_map f (g : string → Rule) l : (∀ t, r_ip (g t) = keyword f) → of_family f (g <$> l).
Proof. intros Hg. apply Forall_fmap, Forall_forall. intros t _. apply Hg. Qed.
Lemma of_family_if f (b : bool) l : of_family f l → of_family f (if b then [] else l).
Proof. destruct b; [constructor|done]. Qed.
Lemma policy_rules_ip f pol : of_family f (policy_rules f pol).
Proof. apply Forall_app. split; [|apply of_family_if]; by apply of_family_map. Qed.
Lemma policies_ruleset_ip f cidr policies : of_family f (rs_forward (policies_ruleset options f cidr policies)).
Proof.
  destruct policies as [|pol l]; [constructor|]. cbn [rs_forward policies_ruleset].
  apply Forall_app. split; [by apply of_family_map|]. apply Forall_app. split; [|by repeat constructor].
  apply Forall_forall. intros r (q & Hr & _)%list_elem_of_bind.
  pose proof (policy_rules_ip f q) as Hq. unfold of_family in Hq. rewrite Forall_forall in Hq. by apply Hq.
Qed.
Lemma family_ruleset_ip f r : family_ruleset options f = Ok r → of_family f (rs_forward r).
Proof.
  unfold family_ruleset. destruct (ParsePrefix (f_cidr f)); [|done]. intros E. rinv. subst.
  cbn [rs_forward rs_app]. apply Forall_app. split; [by destruct (ClientIsolation options); repeat constructor|].
  apply Forall_app. split; [apply policies_ruleset_ip|].
  apply Forall_app. split; [by apply of_family_map|].
  apply Forall_app. split; [apply of_family_if; by apply of_family_map|by repeat constructor].
Qed.

(** The rules of the other family do not concern a packet. *)
Lemma families_verdict fs rs f src dst : families_ruleset options fs = Ok rs →
  NoDup (keyword <$> fs) → f ∈ fs → keyword f = family_keyword src →
  ∃ r, family_ruleset options f = Ok r ∧
    ∀ sets, chain_verdict sets (rs_forward rs) src dst = chain_verdict sets (rs_forward r) src dst.
Proof.
  revert rs. induction fs as [|g fs IH]; intros rs E Hn Hin Hk; [by apply not_elem_of_nil in Hin|].
  cbn in E. apply rbind_ok in E as (x & Hx & E). apply rbind_ok in E as (x0 & Hrest & E). injection E as E.
  cbn [fmap list_fmap] in Hn. apply NoDup_cons in Hn as [Hg Hn].
  apply elem_of_cons in Hin as [->|Hin].
  - exists x. split; [done|]. intros sets. subst rs. cbn. rewrite chain_verdict_app.
    assert (chain_verdict sets (rs_forward x0) src dst = None) as ->; [|by destruct (chain_verdict _ _ _ _)].
    apply chain_verdict_other. rewrite <- Hk. clear -Hg Hrest.
    assert (∀ rest, families_ruleset options fs = Ok rest → Forall (λ r, r_ip r ≠ keyword g) (rs_forward rest)) as Hall;
      [|by apply Hall].
    clear Hrest x0. induction fs as [|h fs IH]; intros rest E; cbn in E; [injection E as <-; constructor|].
    rinv. subst rest. cbn. apply Forall_app. split.
    + eapply Forall_impl; [by eapply family_ruleset_ip|]. intros r -> Eh. apply Hg. cbn. rewrite Eh. left.
    + apply IH; [|done]. intros Hin. apply Hg. cbn. by right.
  - destruct (IH _ Hrest Hn Hin Hk) as (r & Hr & Hv). exists r. split; [done|]. intros sets. subst rs. cbn.
    rewrite chain_verdict_app, chain_verdict_other; [done|].
    eapply Forall_impl; [by eapply family_ruleset_ip|]. intros r0 -> Eg. apply Hg.
    apply list_elem_of_fmap. exists f. split; [congruence|done].
Qed.
End rules.

(** ** What the sets hold *)
Definition in_texts (texts : list string) (a : Addr) : Prop := ∃ t, t ∈ texts ∧ ParseAddr t = Some a.

Lemma in_texts_bool texts a : existsb (λ t, bool_decide (ParseAddr t = Some a)) texts = true ↔ in_texts texts a.
Proof.
  rewrite existsb_exists. unfold in_texts. split; intros (t & Hin & Ht); exists t.
  - split; [by apply list_elem_of_In|]. by apply bool_decide_eq_true in Ht.
  - split; [by apply list_elem_of_In|]. by apply bool_decide_eq_true.
Qed.
Lemma set_matches_elem sets name a : set_matches sets name a = true ↔
  ∃ s, s ∈ sets ∧ set_Name s = name ∧ in_texts (set_Elements s) a.
Proof.
  unfold set_matches. rewrite existsb_exists. split.
  - intros (s & Hin & [Hn%String.eqb_eq Ht%in_texts_bool]%andb_true_iff). exists s.
    split; [by apply list_elem_of_In|done].
  - intros (s & Hin & Hn & Ht). exists s. split; [by apply list_elem_of_In|].
    apply andb_true_iff. split; [by apply String.eqb_eq|by apply in_texts_bool].
Qed.

Section sets.
  Context `{UnicodeTables} (options : ForwardingOptions).

Lemma families_sets fs rs s : families_ruleset options fs = Ok rs →
  s ∈ rs_sets rs ↔ ∃ f r, f ∈ fs ∧ family_ruleset options f = Ok r ∧ s ∈ rs_sets r.
Proof.
  revert rs. induction fs as [|f fs IH]; intros rs E; cbn in E.
  { injection E as <-. split; [by intros ?%not_elem_of_nil|]. by intros (? & ? & ?%not_elem_of_nil & _). }
  apply rbind_ok in E as (r & Hr & E). apply rbind_ok in E as (rest & Hrest & E). injection E as <-.
  cbn [rs_sets rs_app]. rewrite elem_of_app, (IH _ Hrest). split.
  - intros [Hs|(g & r' & Hg & Hr' & Hs)]; [exists f, r|exists g, r']; (split; [set_solver|done]).
  - intros (g & r' & [->|Hg]%elem_of_cons & Hr' & Hs); [left|right; by exists g, r'].
    rewrite Hr in Hr'. by injection Hr' as ->.
Qed.

(** The sets of a family: one per policy, and one for all their members. *)
Lemma family_sets f r s : family_ruleset options f = Ok r → s ∈ rs_sets r →
  ∃ l, policiesOfFamily (fo_Policies options) f = Ok l ∧
    ((∃ q, q ∈ l ∧ set_Name s = policySetName (pol_Name q) f ∧ set_Elements s = pol_Members q) ∨
     set_Name s = policyMembersSetName f ∧ set_Elements s = l ≫= pol_Members).
Proof.
  unfold family_ruleset. destruct (ParsePrefix (f_cidr f)); [|done]. intros E Hs.
  apply rbind_ok in E as (l & Hl & E). exists l. split; [done|]. injection E as <-.
  cbn [rs_sets rs_app] in Hs. rewrite (right_id_L [] (++)) in Hs. cbn [app] in Hs.
  destruct l as [|q0 l]; [by apply not_elem_of_nil in Hs|]. cbn [rs_sets policies_ruleset] in Hs.
  apply elem_of_app in Hs as [Hs|Hs].
  - apply list_elem_of_fmap in Hs as (q & -> & Hq). left. by exists q.
  - apply list_elem_of_singleton in Hs as ->. by right.
Qed.
Lemma family_has_sets f r l q : family_ruleset options f = Ok r →
  policiesOfFamily (fo_Policies options) f = Ok l → q ∈ l →
  mkNftSet (policySetName (pol_Name q) f) f (pol_Members q) ∈ rs_sets r ∧
  mkNftSet (policyMembersSetName f) f (l ≫= pol_Members) ∈ rs_sets r.
Proof.
  unfold family_ruleset. destruct (ParsePrefix (f_cidr f)); [|done]. intros E Hl Hq. rewrite Hl in E.
  injection E as <-. cbn [rs_sets rs_app]. rewrite (right_id_L [] (++)). cbn [app].
  destruct l as [|q0 l]; [by apply not_elem_of_nil in Hq|]. cbn [rs_sets policies_ruleset].
  split; apply elem_of_app; [left|right; left].
  apply list_elem_of_fmap. by exists q.
Qed.

(** The set of a policy named [n] holds the members of the policies of that
    name; the name "members" gets the members of all. *)
Lemma set_matches_spec fs rs f r l n a : families_ruleset options fs = Ok rs → Forall keyword_ok fs →
  NoDup (keyword <$> fs) → f ∈ fs → family_ruleset options f = Ok r →
  policiesOfFamily (fo_Policies options) f = Ok l →
  set_matches (rs_sets rs) (policySetName n f) a = true ↔
  ∃ q, q ∈ l ∧ (pol_Name q = n ∨ n = "members") ∧ in_texts (pol_Members q) a.
Proof.
  intros Hrs Hks Hn Hf Hr Hl. rewrite set_matches_elem. rewrite Forall_forall in Hks. split.
  - intros (s & Hs & Hname & t & Ht & Ha). apply (families_sets _ _ _ Hrs) in Hs as (g & r' & Hg & Hr' & Hs).
    apply (family_sets _ _ _ Hr') in Hs as (l' & Hl' & Hs).
    assert (∀ m, set_Name s = policySetName m g → l' = l ∧ m = n) as Hsame.
    { intros m Em. rewrite Hname in Em. apply policySetName_inj in Em as [Ek ->]; [|by apply Hks..].
      split; [|done]. assert (f = g) as ->.
      { apply list_elem_of_lookup in Hf as [i Hi], Hg as [j Hj].
        assert (i = j) as ->; [|congruence].
        eapply (NoDup_lookup _ _ _ (keyword f) Hn); rewrite list_lookup_fmap; [by rewrite Hi|by rewrite Hj, Ek]. }
      rewrite Hl in Hl'. by injection Hl' as ->. }
    destruct Hs as [(q & Hq & Eq & Ee)|[Eq Ee]].
    + destruct (Hsame _ Eq) as [-> <-]. exists q. split; [done|]. split; [by left|]. exists t. by rewrite <- Ee.
    + destruct (Hsame "members" Eq) as [-> <-]. rewrite Ee in Ht. apply list_elem_of_bind in Ht as (q & Ht & Hq).
      exists q. split; [done|]. split; [by right|]. by exists t.
  - intros (q & Hq & Hname & t & Ht & Ha). destruct (family_has_sets f r l q Hr Hl Hq) as [H1 H2].
    destruct Hname as [<-| ->].
    + eexists. split; [apply (families_sets _ _ _ Hrs); exists f, r; split; [done|]; split; [done|]; exact H1|].
      split; [done|]. by exists t.
    + eexists. split; [apply (families_sets _ _ _ Hrs); exists f, r; split; [done|]; split; [done|]; exact H2|].
      split; [done|]. exists t. split; [|done]. apply list_elem_of_bind. by exists q.
Qed.
End sets.
