(* ===== verification/GoNet.v ===== *)
(** * Pieces of the packages net, strings and net/http

    Splitting a host from its port, cutting at a separator, and comparing
    without regard to ASCII case, as Go's standard library does it. *)
From S2P Require Import Prelude GoText Netip NetipText.

(** [strings.Cut] with a one-byte separator. *)
Definition Cut (s : string) (sep : ascii) : option (string * string) :=
  '(a, b) ← cut sep (bytes s); Some (of_bytes a, of_bytes b).

(** [strings.EqualFold] with a word of ASCII letters other than k and s, which
    no other character folds to. *)
Definition EqualFold (s word : string) : bool :=
  bool_decide (lower_byte <$> bytes s = lower_byte <$> bytes word).

Fixpoint IndexByte (c : ascii) (l : list ascii) : option nat :=
  match l with
  | [] => None
  | x :: l' => if Ascii.eqb x c then Some O else S <$> IndexByte c l'
  end.
Definition LastIndexByte (c : ascii) (l : list ascii) : option nat :=
  match IndexByte c (rev l) with Some i => Some (List.length l - 1 - i)%nat | None => None end.
Definition has_byte (c : ascii) (l : list ascii) : bool := existsb (Ascii.eqb c) l.

(** [net.SplitHostPort] *)
Definition SplitHostPort (hostport : string) : option (string * string) :=
  let l := bytes hostport in
  match LastIndexByte ":" l with
  | None => None
  | Some i =>
      let '(host, j, k) :=
        match l with
        | c :: _ =>
            if Ascii.eqb c "[" then
              match IndexByte "]" l with
              | None => (None, O, O)
              | Some e => if (e + 1 =? i)%nat then (Some (take (e - 1) (drop 1 l)), 1%nat, (e + 1)%nat) else (None, O, O)
              end
            else if has_byte ":" (take i l) then (None, O, O) else (Some (take i l), O, O)
        | [] => (None, O, O)
        end in
      match host with
      | None => None
      | Some host =>
          if has_byte "[" (drop j l) || has_byte "]" (drop k l) then None
          else Some (of_bytes host, of_bytes (drop (i + 1) l))
      end
  end.

(** [net.JoinHostPort] *)
Definition JoinHostPort (host port : string) : string :=
  if Contains_byte host ":" then "[" +:+ host +:+ "]:" +:+ port else host +:+ ":" +:+ port.

Example split_ex1 : SplitHostPort "192.0.2.1:8000" = Some ("192.0.2.1", "8000")
  ∧ SplitHostPort "[2001:db8::1]:443" = Some ("2001:db8::1", "443")
  ∧ SplitHostPort "2001:db8::1" = None ∧ SplitHostPort "localhost" = None
  ∧ SplitHostPort ":80" = Some ("", "80") ∧ SplitHostPort "[::1]" = None.
Proof. vm_compute. done. Qed.

Lemma HasPrefix_app p s : HasPrefix (p +:+ s) p = true.
Proof.
  unfold HasPrefix. induction p as [|c p IH]; [by destruct s|]. simpl.
  by destruct (ascii_dec c c).
Qed.

(** ** Pieces of the package net/http

    The parts of a request the program looks at, and what a handler does with
    it: go on to the next handler, answer, or redirect. *)
(** The header as pairs of a canonical key and a value, in order. *)
Record Request := mkRequest {
  Method : string;
  Path : string;
  Host : string;
  RemoteAddr : string;
  TLS : bool;
  Header : list (string * string) }.

(** [r.Header.Values] and [r.Header.Get] of a canonical key. *)
Definition Values (r : Request) (key : string) : list string :=
  (filter (λ kv, kv.1 = key) (Header r)).*2.
Definition Header_Get (r : Request) (key : string) : string :=
  match Values r key with v :: _ => v | [] => "" end.
Definition UserAgent (r : Request) : string := Header_Get r "User-Agent".

Definition with_RemoteAddr (addr : string) (r : Request) : Request :=
  mkRequest (Method r) (Path r) (Host r) addr (TLS r) (Header r).

Definition StatusSeeOther : Z := 303.
Definition StatusTemporaryRedirect : Z := 307.
