(* ===== verification/ClientAddr.v ===== *)
(** * internal/web/clientaddr.go: the client behind trusted proxies

    The address of a request as the logs and the audit trail report it: the one
    it connected from, or the one a trusted proxy names. *)
From S2P Require Import Prelude GoText Netip NetipText NetipRoundTrip GoNet.

(** [TrustedProxies]: the networks, none for a nil pointer. *)
Notation TrustedProxies := (list Prefix).

Definition parse_trusted (entry : string) : result (option Prefix) :=
  let entry := TrimSpace entry in
  if String.eqb entry "" then Ok None else
  match ParsePrefix entry with
  | Some prefix => Ok (Some (Masked prefix))
  | None =>
      match ParseAddr entry with
      | Some addr => Ok (Some (PrefixFrom addr (BitLen addr)))
      | None => Err (PlainError ("'" +:+ entry +:+ "' is neither a network nor an address"))
      end
  end.
Fixpoint ParseTrustedProxies (entries : list string) : result TrustedProxies :=
  match entries with
  | [] => Ok []
  | entry :: entries =>
      let? net := parse_trusted entry in
      let? nets := ParseTrustedProxies entries in
      Ok (match net with Some n => n :: nets | None => nets end)
  end.
Definition Any (t : TrustedProxies) : bool := 0 <? Z.of_nat (List.length t).
Definition trusts (t : TrustedProxies) (addr : Addr) : bool :=
  Any t && existsb (λ network, Contains network (Unmap addr)) t.

(** [addrOf]: an address with or without a port, brackets or a zone. *)
Definition addrOf (value : string) : option Addr :=
  let value := TrimSpace value in
  if String.eqb value "" then None else
  match ParseAddr value with
  | Some addr => Some (withoutZone addr)
  | None =>
      match SplitHostPort value with
      | Some (host, _) => withoutZone <$> ParseAddr host
      | None => None
      end
  end.

(** [forwardedFor]: the chain, oldest first. *)
Definition forwardedFor (r : Request) : list string :=
  mjoin ((λ header, List.filter (λ e, negb (String.eqb e "")) (TrimSpace <$> Split header ","))
    <$> Values r "X-Forwarded-For").

(** The last entry that is an address and not one of ours; read backwards. *)
Fixpoint client_of (t : TrustedProxies) (backwards : list string) : option Addr :=
  match backwards with
  | [] => None
  | entry :: rest =>
      match addrOf entry with
      | Some candidate => if trusts t candidate then client_of t rest else Some candidate
      | None => client_of t rest
      end
  end.
(** The empty address leaves the request alone. *)
Definition clientAddr (t : TrustedProxies) (r : Request) : string :=
  if negb (Any t) then "" else
  match addrOf (RemoteAddr r) with
  | Some peer =>
      if negb (trusts t peer) then "" else
      match client_of t (rev (forwardedFor r)) with
      | Some candidate => AddrString (Unmap candidate)
      | None =>
          match addrOf (Header_Get r "X-Real-Ip") with
          | Some real => if trusts t real then "" else AddrString (Unmap real)
          | None => ""
          end
      end
  | None => ""
  end.
Definition ClientAddrMiddleware (t : TrustedProxies) (r : Request) : Request :=
  let client := clientAddr t r in
  if String.eqb client "" then r else with_RemoteAddr client r.

Definition from_proxy (chain : list string) : Request :=
  mkRequest "GET" "/" "vpn" "172.18.0.4:60904" false ((λ v, ("X-Forwarded-For", v)) <$> chain).
Definition our_proxies : TrustedProxies :=
  match ParseTrustedProxies ["172.18.0.0/16"; " "; "10.0.0.1"] with Ok t => t | Err _ => [] end.
Example client_ex1 : clientAddr our_proxies (from_proxy ["198.51.100.9, 203.0.113.7, 10.0.0.1"]) = "203.0.113.7".
Proof. vm_compute. done. Qed.
Example client_ex2 : clientAddr our_proxies (from_proxy ["not-an-address, [2001:db8::9]:443, unknown"]) = "2001:db8::9"
  ∧ clientAddr our_proxies (from_proxy []) = "" ∧ clientAddr [] (from_proxy ["203.0.113.7"]) = "".
Proof. vm_compute. done. Qed.

(** ** What it reports *)
Lemma trusts_none addr : trusts [] addr = false.
Proof. done. Qed.
Lemma addrOf_wf v a : addrOf v = Some a → wf_addr a ∧ IsValidAddr a = true ∧ hasZone a = false.
Proof.
  unfold addrOf. destruct (String.eqb _ ""); [done|]. intros E.
  assert (∃ b s, ParseAddr s = Some b ∧ a = withoutZone b) as (b & s & [Hw Hv]%ParseAddr_wf & ->).
  { destruct (ParseAddr (TrimSpace v)) as [b|] eqn:Ep; [injection E as <-; eauto|].
    destruct (SplitHostPort _) as [[host port]|]; [|done]. destruct (ParseAddr host) as [b|] eqn:Eh; [|done].
    injection E as <-. eauto. }
  by destruct b.
Qed.
Lemma Unmap_wf a : wf_addr a → IsValidAddr a = true → hasZone a = false →
  wf_addr (Unmap a) ∧ IsValidAddr (Unmap a) = true ∧ hasZone (Unmap a) = false.
Proof.
  intros Hw Hv Hz. unfold Unmap. destruct (Is4In6 a); [|done]. split; [|done]. simpl.
  rewrite Z.land_ones by lia. by apply Z.mod_pos_bound.
Qed.
Lemma client_of_app t l1 l2 a : client_of t l1 = Some a → client_of t (l1 ++ l2) = Some a.
Proof.
  induction l1 as [|e l1 IH]; [done|]. simpl. destruct (addrOf e) as [c|]; [|done]. by destruct (trusts t c).
Qed.
Lemma client_of_spec t l a : client_of t l = Some a →
  ∃ newer entry older, l = newer ++ entry :: older ∧ addrOf entry = Some a ∧ trusts t a = false ∧
    Forall (λ e, ∀ c, addrOf e = Some c → trusts t c = true) newer.
Proof.
  induction l as [|e l IH]; [done|]. simpl. intros E.
  destruct (addrOf e) as [c|] eqn:Ee; [destruct (trusts t c) eqn:Et|].
  - apply IH in E as (newer & entry & older & -> & Ha & Hu & Hn). exists (e :: newer), entry, older.
    split_and!; try done. constructor; [|done]. intros c' [= ->]%(eq_trans (eq_sym Ee)). done.
  - injection E as ->. exists [], e, l. by split_and!.
  - apply IH in E as (newer & entry & older & -> & Ha & Hu & Hn). exists (e :: newer), entry, older.
    split_and!; try done. constructor; [|done]. intros c'. by rewrite Ee.
Qed.

(** C17 The address that is reported for a client. A request that does not come
    from a trusted proxy keeps its own, whatever its headers say. For one that
    does, the reported address is the newest of the chain that is none of our
    proxies - everything after it was written by a proxy of ours or says nothing
    - or the one of X-Real-Ip; it reads back as that address. And whoever put
    entries in front of the chain changes nothing about it. *)
Theorem clientAddr_correct t r :
  (∀ peer, addrOf (RemoteAddr r) = Some peer → trusts t peer = false → clientAddr t r = "") ∧
  (clientAddr t r ≠ "" → ∃ peer a, addrOf (RemoteAddr r) = Some peer ∧ trusts t peer = true ∧
     trusts t a = false ∧ clientAddr t r = AddrString (Unmap a) ∧ ParseAddr (clientAddr t r) = Some (Unmap a) ∧
     ((∃ older entry newer, forwardedFor r = older ++ entry :: newer ∧ addrOf entry = Some a ∧
         Forall (λ e, ∀ c, addrOf e = Some c → trusts t c = true) newer) ∨
      addrOf (Header_Get r "X-Real-Ip") = Some a)) ∧
  (∀ r' forged, RemoteAddr r' = RemoteAddr r → forwardedFor r' = forged ++ forwardedFor r →
     is_Some (client_of t (rev (forwardedFor r))) → clientAddr t r' = clientAddr t r).
Proof.
  split_and!.
  - intros peer Hp Ht. unfold clientAddr. rewrite Hp, Ht. by destruct (negb (Any t)).
  - unfold clientAddr. destruct (negb (Any t)); [done|]. destruct (addrOf (RemoteAddr r)) as [peer|] eqn:Ep; [|done].
    destruct (trusts t peer) eqn:Et; [|done]. cbn [negb].
    destruct (client_of t _) as [a|] eqn:Ec.
    + intros _. apply client_of_spec in Ec as (newer & entry & older & El & Ha & Hu & Hn).
      pose proof (addrOf_wf _ _ Ha) as (Hw & Hv & Hz). destruct (Unmap_wf a Hw Hv Hz) as (Hw' & Hv' & Hz').
      exists peer, a. split_and!; [done..|by apply ParseAddr_AddrString|]. left. exists (rev older), entry, (rev newer).
      split_and!; [|done|by apply Forall_rev].
      rewrite <- (rev_involutive (forwardedFor r)), El, rev_app_distr. simpl. by rewrite <- app_assoc.
    + destruct (addrOf (Header_Get r "X-Real-Ip")) as [real|] eqn:Er; [|done]. destruct (trusts t real) eqn:Etr; [done|].
      intros _. pose proof (addrOf_wf _ _ Er) as (Hw & Hv & Hz). destruct (Unmap_wf real Hw Hv Hz) as (Hw' & Hv' & Hz').
      exists peer, real. split_and!; [done..|by apply ParseAddr_AddrString|]. by right.
  - intros r' forged Hr Hf [a Ha]. unfold clientAddr. rewrite Hr, Hf, rev_app_distr.
    destruct (negb (Any t)); [done|]. destruct (addrOf (RemoteAddr r)); [|done]. destruct (negb _); [done|].
    by rewrite (client_of_app _ _ _ _ Ha), Ha.
Qed.
Lemma clientAddr_correct_witness : ∃ a,
  clientAddr our_proxies (from_proxy ["198.51.100.9, 203.0.113.7, 10.0.0.1"]) = AddrString (Unmap a) ∧
  ParseAddr (clientAddr our_proxies (from_proxy ["198.51.100.9, 203.0.113.7, 10.0.0.1"])) = Some (Unmap a).
Proof.
  destruct (clientAddr_correct our_proxies (from_proxy ["198.51.100.9, 203.0.113.7, 10.0.0.1"])) as (_ & Hc & _).
  destruct Hc as (peer & a & _ & _ & _ & He & Hp & _); [vm_compute; discriminate|]. exists a. split; [exact He|exact Hp].
Defined.
