(* ===== verification/Json.v ===== *)
(** * Pieces of the package encoding/json

    [json.Marshal] of a string and [json.Unmarshal] into a syntax tree, as
    Go's standard library does it: HTML characters are escaped, bytes that are
    not UTF-8 become U+FFFD. What a structure does with the tree is said where
    the structure is. The nesting limit of the decoder (10000) is not
    modelled. *)
From S2P Require Import Prelude GoText GoQuote NetipText.

(** ** Marshal: appendString with escapeHTML *)
Definition htmlSafe (b : Z) : bool :=
  (32 <=? b) && negb (existsb (Z.eqb b) [34; 92; 60; 62; 38]).
Definition json_letters : list (Z * ascii) :=
  [(8, "b"%char); (12, "f"%char); (10, "n"%char); (13, "r"%char); (9, "t"%char)].
(** One rune, with the bytes it was decoded from. *)
Definition json_token (r : Z) (width : nat) (raw : list ascii) : list ascii :=
  if (width =? 1)%nat && (r =? RuneError) then backslash :: "u"%char :: hex_n 4 RuneError
  else if r <? 128 then
    if htmlSafe r then [chr r]
    else if (r =? 34) || (r =? 92) then [backslash; chr r]
    else match assoc_z r json_letters with
         | Some c => [backslash; c]
         | None => backslash :: "u"%char :: hex_n 4 r
         end
  else if (r =? 0x2028) || (r =? 0x2029) then backslash :: "u"%char :: hex_n 4 r
  else raw.
Fixpoint json_string_fuel (fuel : nat) (l : list ascii) : list ascii :=
  match fuel, l with
  | S f, _ :: _ =>
      let '(r, width) := DecodeRune l in
      json_token r width (take width l) ++ json_string_fuel f (drop width l)
  | _, _ => []
  end.
(** A string and its closing quote; every step consumes a byte, so the length
    is enough. *)
Definition json_body (s : string) : list ascii :=
  json_string_fuel (String.length s) (bytes s) ++ [dquote].
Definition json_string (s : string) : list ascii := dquote :: json_body s.

(** ** Unmarshal into a tree *)
Inductive json :=
  | JNull
  | JBool (b : bool)
  | JNumber (text : list ascii)
  | JString (s : string)
  | JArray (l : list json)
  | JObject (l : list (string * json)).

Definition is_json_space (c : ascii) : bool := existsb (Z.eqb (byte_of c)) [32; 9; 10; 13].
Fixpoint skip_space (l : list ascii) : list ascii :=
  match l with
  | c :: l' => if is_json_space c then skip_space l' else l
  | [] => []
  end.

(** [getu4]: four hex digits. *)
Definition hex4 (l : list ascii) : option (Z * list ascii) :=
  match l with
  | a :: b :: c :: d :: rest =>
      x ← hex_value a; y ← hex_value b; z ← hex_value c; w ← hex_value d;
      Some (((x * 16 + y) * 16 + z) * 16 + w, rest)
  | _ => None
  end.
Definition is_surrogate (r : Z) : bool := (0xd800 <=? r) && (r <? 0xe000).
(** What an escape after its backslash stands for, and what follows it. *)
Definition json_escape (l : list ascii) : option (list ascii * list ascii) :=
  match l with
  | [] => None
  | c :: rest =>
      if existsb (Ascii.eqb c) [backslash; dquote; "/"%char] then Some ([c], rest)
      else if Ascii.eqb c "u" then
        '(r, rest) ← hex4 rest;
        if is_surrogate r then
          match rest with
          | c1 :: c2 :: rest' =>
              if Ascii.eqb c1 backslash && Ascii.eqb c2 "u" then
                match hex4 rest' with
                | Some (r2, rest'') =>
                    if (r <? 0xdc00) && (0xdc00 <=? r2) && (r2 <? 0xe000)
                    then Some (EncodeRune (0x10000 + (r - 0xd800) * 0x400 + (r2 - 0xdc00)), rest'')
                    else Some (EncodeRune RuneError, rest)
                | None => Some (EncodeRune RuneError, rest)
                end
              else Some (EncodeRune RuneError, rest)
          | _ => Some (EncodeRune RuneError, rest)
          end
        else Some (EncodeRune r, rest)
      else match assoc_c c json_letters with
           | Some r => Some ([chr r], rest)
           | None => None
           end
  end.
(** The rest of a string after its opening quote. *)
Fixpoint json_unquote (fuel : nat) (l : list ascii) : option (list ascii * list ascii) :=
  match fuel, l with
  | S f, c :: l1 =>
      if Ascii.eqb c dquote then Some ([], l1)
      else
        '(chunk, rest) ←
          (if Ascii.eqb c backslash then json_escape l1
           else if byte_of c <? 32 then None
           else let '(r, width) := DecodeRune l in Some (EncodeRune r, drop width l));
        '(s, rest) ← json_unquote f rest;
        Some (chunk ++ s, rest)
  | _, _ => None
  end.
Definition json_text (l : list ascii) : option (string * list ascii) :=
  '(s, rest) ← json_unquote (List.length l) l; Some (of_bytes s, rest).

(** Numbers: an integer, a fraction and an exponent. *)
Fixpoint digits (l : list ascii) : list ascii * list ascii :=
  match l with
  | c :: l' => if is_digit c then let '(d, r) := digits l' in (c :: d, r) else ([], l)
  | [] => ([], [])
  end.
Definition one_or_more (p : list ascii * list ascii) : option (list ascii * list ascii) :=
  match p.1 with [] => None | _ => Some p end.
Definition json_integer (l : list ascii) : option (list ascii * list ascii) :=
  match l with
  | c :: l' => if Ascii.eqb c "0" then Some ([c], l') else one_or_more (digits l)
  | [] => None
  end.
Definition json_fraction (l : list ascii) : option (list ascii * list ascii) :=
  match l with
  | c :: l' => if Ascii.eqb c "." then '(d, r) ← one_or_more (digits l'); Some (c :: d, r) else Some ([], l)
  | [] => Some ([], [])
  end.
Definition json_exponent (l : list ascii) : option (list ascii * list ascii) :=
  match l with
  | c :: l' =>
      if Ascii.eqb c "e" || Ascii.eqb c "E" then
        let '(sign, l') := match l' with
                           | s :: l'' => if Ascii.eqb s "+" || Ascii.eqb s "-" then ([s], l'') else ([], l')
                           | [] => ([], [])
                           end in
        '(d, r) ← one_or_more (digits l'); Some (c :: sign ++ d, r)
      else Some ([], l)
  | [] => Some ([], [])
  end.
Definition json_number (l : list ascii) : option (list ascii * list ascii) :=
  let '(sign, l) := match l with
                    | c :: l' => if Ascii.eqb c "-" then ([c], l') else ([], l)
                    | [] => ([], [])
                    end in
  '(i, l) ← json_integer l; '(f, l) ← json_fraction l; '(e, l) ← json_exponent l;
  Some (sign ++ i ++ f ++ e, l).

Definition expect (word : string) (v : json) (l : list ascii) : option (json * list ascii) :=
  rest ← strip (bytes word) l; Some (v, rest).
(** The next character that is not white space, if it is [c]. *)
Definition punctuation (c : ascii) (l : list ascii) : option (list ascii) :=
  match skip_space l with
  | c' :: rest => if Ascii.eqb c' c then Some rest else None
  | [] => None
  end.

Fixpoint json_value (fuel : nat) (l : list ascii) : option (json * list ascii) :=
  match fuel with
  | O => None
  | S f =>
      match skip_space l with
      | [] => None
      | c :: rest =>
          if Ascii.eqb c dquote then '(s, rest) ← json_text rest; Some (JString s, rest)
          else if Ascii.eqb c "{" then
            match punctuation "}" rest with
            | Some rest => Some (JObject [], rest)
            | None => '(l, rest) ← json_members f rest; Some (JObject l, rest)
            end
          else if Ascii.eqb c "[" then
            match punctuation "]" rest with
            | Some rest => Some (JArray [], rest)
            | None => '(l, rest) ← json_elements f rest; Some (JArray l, rest)
            end
          else if Ascii.eqb c "n" then expect "ull" JNull rest
          else if Ascii.eqb c "t" then expect "rue" (JBool true) rest
          else if Ascii.eqb c "f" then expect "alse" (JBool false) rest
          else '(n, rest) ← json_number (c :: rest); Some (JNumber n, rest)
      end
  end
with json_elements (fuel : nat) (l : list ascii) : option (list json * list ascii) :=
  match fuel with
  | O => None
  | S f =>
      '(v, rest) ← json_value f l;
      match punctuation "]" rest with
      | Some rest => Some ([v], rest)
      | None =>
          rest ← punctuation "," rest;
          '(vs, rest) ← json_elements f rest;
          Some (v :: vs, rest)
      end
  end
with json_members (fuel : nat) (l : list ascii) : option (list (string * json) * list ascii) :=
  match fuel with
  | O => None
  | S f =>
      rest ← punctuation dquote l;
      '(k, rest) ← json_text rest;
      rest ← punctuation ":" rest;
      '(v, rest) ← json_value f rest;
      match punctuation "}" rest with
      | Some rest => Some ([(k, v)], rest)
      | None =>
          rest ← punctuation "," rest;
          '(kvs, rest) ← json_members f rest;
          Some ((k, v) :: kvs, rest)
      end
  end.
(** A value and nothing after it. Two calls in a row consume a byte, so twice
    the length is enough fuel. *)
Definition json_parse (s : string) : option json :=
  '(v, rest) ← json_value (S (2 * String.length s)) (bytes s);
  match skip_space rest with [] => Some v | _ => None end.

(** ** Fields: an exact match, or one that differs in case only *)
(** Folding of a rune of a key; U+017F and U+212A are the only runes outside
    ASCII that fold to a letter of it. *)
Definition fold_rune (r : Z) : Z :=
  if (97 <=? r) && (r <=? 122) then r - 32
  else if r =? 0x17f then 83 else if r =? 0x212a then 75 else r.
Definition same_fold (a b : string) : bool :=
  bool_decide (fold_rune <$> runes a = fold_rune <$> runes b).
(** Decoding into a text field: null leaves it alone, anything but a string is
    an error. *)
Definition text_field (v : json) (old : string) : option string :=
  match v with JString s => Some s | JNull => Some old | _ => None end.

(** Text with apostrophes for quotes, to write examples with. *)
Definition apostrophes (s : string) : string :=
  of_bytes ((λ c, if Ascii.eqb c "'" then dquote else c) <$> bytes s).
Example json_parse_ex : json_parse (apostrophes "{ 'a' : [1.5e3, true, null], 'b\u00e9':'\ud83d\ude00'}") =
  Some (JObject [("a", JArray [JNumber (bytes "1.5e3"); JBool true; JNull]);
                 (str [98; 195; 169], JString (str [240; 159; 152; 128]))]).
Proof. vm_compute. reflexivity. Qed.
Example json_parse_bad : json_parse (apostrophes "{'a':1,}") = None ∧ json_parse "01" = None
  ∧ json_parse "1 2" = None ∧ json_parse "" = None.
Proof. vm_compute. done. Qed.
Example json_string_ex : of_bytes (json_string (str [60; 10; 1; 34; 195; 169; 255])) =
  apostrophes "'\u003c\n\u0001\'é\ufffd'".
Proof. vm_compute. reflexivity. Qed.

(** ** Decoding undoes encoding *)
(** [string([]rune(s))]: every byte that is not UTF-8 becomes U+FFFD. *)
Definition to_valid (s : string) : string := of_bytes (mjoin (EncodeRune <$> runes s)).

Lemma hex_value_low_hex d : 0 <= d < 16 → hex_value (low_hex d) = Some d.
Proof.
  intros Hd. assert (Hin : d ∈ [0;1;2;3;4;5;6;7;8;9;10;11;12;13;14;15]).
  { rewrite !elem_of_cons. lia. }
  revert Hin. rewrite !elem_of_cons. intros Hin.
  repeat (destruct Hin as [->|Hin]; [reflexivity|]). by apply not_elem_of_nil in Hin.
Qed.
Lemma hex4_hex_n r t : 0 <= r < 65536 → hex4 (hex_n 4 r ++ t) = Some (r, t).
Proof.
  intros Hr. simpl. pose proof (λ x, Z.mod_pos_bound x 16 ltac:(lia)) as Hm.
  rewrite !hex_value_low_hex by apply Hm. simpl. do 2 f_equal.
  pose proof (Z.div_mod r 16). pose proof (Z.div_mod (r / 16) 16). pose proof (Z.div_mod (r / 16 / 16) 16).
  rewrite (Z.mod_small (r / 16 / 16 / 16)); [lia|].
  split; [apply Z.div_pos; [apply Z.div_pos; [apply Z.div_pos|]|]; lia|].
  do 3 (apply Z.div_lt_upper_bound; [lia|]). lia.
Qed.

(** A rune of several bytes is decoded alike whatever follows it. *)
Lemma DecodeRune_prefix l r n t : DecodeRune l = (r, n) → (2 <= n)%nat → DecodeRune (take n l ++ t) = (r, n).
Proof.
  intros E Hn. unfold DecodeRune in E.
  repeat (case_match; simplify_eq; try lia); simpl; unfold DecodeRune; repeat case_match; congruence.
Qed.

Lemma json_unquote_more fuel fuel' t x : (fuel <= fuel')%nat →
  json_unquote fuel t = Some x → json_unquote fuel' t = Some x.
Proof.
  revert fuel' t x. induction fuel as [|f IH]; intros fuel' t x Hf E; [done|].
  destruct fuel' as [|f']; [lia|]. destruct t as [|c t]; [done|].
  cbn [json_unquote] in E |- *. destruct (Ascii.eqb c dquote); [done|].
  destruct (if Ascii.eqb c backslash then json_escape t else _) as [[chunk rest]|]; [|done]. simpl in *.
  destruct (json_unquote f rest) as [[s r]|] eqn:E'; [|done].
  by rewrite (IH f' rest (s, r)) by (done || lia).
Qed.
Lemma json_unquote_escape e chunk t s r fuel : json_escape (e ++ t) = Some (chunk, t) →
  json_unquote fuel t = Some (s, r) →
  json_unquote (S fuel) (backslash :: e ++ t) = Some (chunk ++ s, r).
Proof. intros E Ht. cbn. rewrite E. simpl. by rewrite Ht. Qed.
Lemma json_unquote_hex r0 t s r fuel : 0 <= r0 < 65536 → is_surrogate r0 = false →
  json_unquote fuel t = Some (s, r) →
  json_unquote (S fuel) ((backslash :: "u"%char :: hex_n 4 r0) ++ t) = Some (EncodeRune r0 ++ s, r).
Proof.
  intros Hr Hs Ht. apply (json_unquote_escape ("u"%char :: hex_n 4 r0)); [|done].
  unfold json_escape. cbn [app existsb]. rewrite hex4_hex_n by done. simpl. by rewrite Hs.
Qed.
Lemma DecodeRune_ascii c l : byte_of c < 128 → DecodeRune (c :: l) = (byte_of c, 1%nat).
Proof. intros. unfold DecodeRune. by destruct (Z.ltb_spec (byte_of c) 128); [|lia]. Qed.
Lemma EncodeRune_ascii c : byte_of c < 128 → EncodeRune (byte_of c) = [c].
Proof. intros. unfold EncodeRune. destruct (Z.ltb_spec (byte_of c) 128); [|lia]. simpl. by rewrite chr_byte_of. Qed.
(** A printable byte that needs no escape is read as itself. *)
Lemma json_unquote_plain c t s r fuel : 32 <= byte_of c < 128 → c ≠ dquote → c ≠ backslash →
  json_unquote fuel t = Some (s, r) → json_unquote (S fuel) (c :: t) = Some (c :: s, r).
Proof.
  intros Hc Hq Hb Ht. cbn [json_unquote]. destruct (Ascii.eqb_spec c dquote); [done|].
  destruct (Ascii.eqb_spec c backslash); [done|]. destruct (Z.ltb_spec (byte_of c) 32); [lia|].
  rewrite DecodeRune_ascii by lia. cbn [mbind option_bind drop]. rewrite drop_0, Ht, EncodeRune_ascii by lia. done.
Qed.
Lemma json_letter_spec r c t : assoc_z r json_letters = Some c →
  json_escape (c :: t) = Some ([chr r], t).
Proof.
  intros E%assoc_z_elem. unfold json_letters in E.
  repeat (apply elem_of_cons in E as [[= -> ->]|E]; [done|]). by apply elem_of_nil in E.
Qed.

Lemma json_token_ascii c t s r fuel : byte_of c < 128 → json_unquote fuel t = Some (s, r) →
  json_unquote (S fuel) (json_token (byte_of c) 1 [c] ++ t) = Some ([c] ++ s, r).
Proof.
  intros Hc Ht. pose proof (byte_of_range c) as Hr. unfold json_token.
  destruct (Z.eqb_spec (byte_of c) RuneError); [unfold RuneError in *; lia|]. simpl andb. cbv iota.
  destruct (Z.ltb_spec (byte_of c) 128); [|lia].
  destruct (htmlSafe (byte_of c)) eqn:Es.
  { rewrite chr_byte_of. apply json_unquote_plain; [| | |done].
    - unfold htmlSafe in Es. apply andb_true_iff in Es as [Es%Z.leb_le _]. lia.
    - intros ->. done.
    - intros ->. done. }
  destruct ((byte_of c =? 34) || (byte_of c =? 92)) eqn:Eq.
  { rewrite chr_byte_of. apply (json_unquote_escape [c] [c]); [|done].
    apply orb_true_iff in Eq as [Eq%Z.eqb_eq|Eq%Z.eqb_eq];
      rewrite <- (chr_byte_of c), Eq; reflexivity. }
  destruct (assoc_z (byte_of c) json_letters) as [e|] eqn:Ee.
  { pose proof (json_letter_spec _ _ t Ee) as E. rewrite chr_byte_of in E.
    by apply (json_unquote_escape [e] [c]). }
  rewrite <- (EncodeRune_ascii c) by lia.
  apply json_unquote_hex; [lia| |done].
  unfold is_surrogate. destruct (Z.leb_spec 0xd800 (byte_of c)); [lia|done].
Qed.

(** What one token of an encoded string decodes to. *)
Lemma json_token_spec c l : let '(r0, w) := DecodeRune (c :: l) in
  (1 <= w)%nat ∧ (1 <= List.length (json_token r0 w (take w (c :: l))))%nat ∧
  ∀ t fuel s r, json_unquote fuel t = Some (s, r) →
    json_unquote (S fuel) (json_token r0 w (take w (c :: l)) ++ t) = Some (EncodeRune r0 ++ s, r).
Proof.
  destruct (DecodeRune (c :: l)) as [r0 w] eqn:E. pose proof E as E0.
  apply DecodeRune_spec in E as [[-> [->|[-> Hc]]]|(Hn & Hr0 & Hc & Henc & Hhigh)].
  - split_and!; [done|simpl; lia|]. intros t fuel s r Ht. by apply json_unquote_hex.
  - rewrite EncodeRune_ascii by done. split_and!; [done| |intros; by apply json_token_ascii].
    unfold json_token. repeat case_match; simpl; lia.
  - assert (w =? 1 = false)%nat as Ew by (apply Nat.eqb_neq; lia).
    assert (take w (c :: l) = c :: take (w - 1) l) as Etake by (destruct w; [lia|]; simpl; by rewrite Nat.sub_0_r).
    split_and!; [lia| |].
    { unfold json_token. rewrite Etake. repeat case_match; simpl; lia. }
    intros t fuel s r Ht. unfold json_token. rewrite Ew. simpl andb. cbv iota.
    destruct (Z.ltb_spec r0 128); [lia|].
    destruct ((r0 =? 0x2028) || (r0 =? 0x2029)) eqn:Els.
    { apply orb_true_iff in Els as [Els%Z.eqb_eq|Els%Z.eqb_eq]; rewrite Els; by apply json_unquote_hex. }
    pose proof (DecodeRune_prefix _ _ _ t E0 ltac:(lia)) as Ed.
    pose proof Ed as Ed'. rewrite Etake in Ed' |- *. cbn [app json_unquote].
    destruct (Ascii.eqb_spec c dquote) as [->|]; [done|]. destruct (Ascii.eqb_spec c backslash) as [->|]; [done|].
    destruct (Z.ltb_spec (byte_of c) 32); [lia|]. cbn [app] in Ed'. rewrite Ed'. cbn [mbind option_bind].
    change (c :: take (w - 1) l ++ t) with ((c :: take (w - 1) l) ++ t). rewrite <- Etake.
    assert (List.length (take w (c :: l)) = w) as Hlen.
    { rewrite length_take. enough (w <= List.length (c :: l))%nat by lia.
      clear - E0 Hn. unfold DecodeRune in E0. repeat (case_match; simplify_eq; simpl; try lia). }
    rewrite <- Hlen at 1. rewrite drop_app_length. by rewrite Ht.
Qed.

Lemma json_unquote_fuel n l rest : (List.length l <= n)%nat → ∃ fuel,
  (fuel <= List.length (json_string_fuel n l ++ dquote :: rest))%nat ∧
  json_unquote fuel (json_string_fuel n l ++ dquote :: rest) = Some (mjoin (EncodeRune <$> runes_fuel n l), rest).
Proof.
  revert l. induction n as [|n IH]; intros l Hl.
  { destruct l; [|simpl in Hl; lia]. exists 1%nat. split; [simpl; lia|done]. }
  destruct l as [|c l]; [exists 1%nat; split; [simpl; lia|done]|].
  pose proof (json_token_spec c l) as Htok. cbn [json_string_fuel runes_fuel].
  destruct (DecodeRune (c :: l)) as [r0 w]. destruct Htok as (Hw & Hone & Htok).
  destruct (IH (drop w (c :: l))) as (fuel & Hf & E).
  { rewrite length_drop. simpl in *. lia. }
  exists (S fuel). rewrite <- app_assoc. split; [rewrite length_app; lia|].
  apply (Htok _ _ _ _ E).
Qed.

(** A string is decoded to itself, up to its bytes that are not UTF-8. *)
Lemma json_text_string s rest : json_text (json_body s ++ rest) = Some (to_valid s, rest).
Proof.
  unfold json_text, json_body. rewrite <- app_assoc. cbn [app].
  destruct (json_unquote_fuel (String.length s) (bytes s) rest) as (fuel & Hf & E).
  { by rewrite length_bytes. }
  by rewrite (json_unquote_more _ _ _ _ Hf E).
Qed.

(** ** Objects and arrays *)
(** [text] is read as [v] with [n] nested calls, whatever follows it. *)
Definition reads (n : nat) (text : list ascii) (v : json) : Prop :=
  ∀ f rest, (n <= f)%nat → json_value f (text ++ rest) = Some (v, rest).

Definition json_member (kv : string * list ascii) : list ascii := json_string kv.1 ++ ":"%char :: kv.2.
Definition json_object (l : list (string * list ascii)) : list ascii :=
  "{"%char :: sep_by "," (json_member <$> l) ++ ["}"%char].
Definition json_array (l : list (list ascii)) : list ascii :=
  "["%char :: sep_by "," l ++ ["]"%char].

Lemma reads_null : reads 1 (bytes "null") JNull.
Proof. intros [|f] rest Hf; [lia|done]. Qed.
Lemma reads_string s : reads 1 (json_string s) (JString (to_valid s)).
Proof.
  intros [|f] rest Hf; [lia|].
  unfold json_string. cbn [app json_value skip_space is_json_space existsb]. simpl orb. cbv iota.
  simpl Ascii.eqb. cbv iota. by rewrite json_text_string.
Qed.

Lemma punctuation_here c l : is_json_space c = false → punctuation c (c :: l) = Some l.
Proof. intros Hc. unfold punctuation. simpl. by rewrite Hc, Ascii.eqb_refl. Qed.
Lemma punctuation_other c c' l : is_json_space c' = false → c' ≠ c → punctuation c (c' :: l) = None.
Proof. intros Hc Hne. unfold punctuation. simpl. rewrite Hc. by destruct (Ascii.eqb_spec c' c). Qed.
Lemma json_members_read n l vs f rest : l ≠ [] → (List.length l + n <= f)%nat →
  Forall2 (λ kp v, reads n kp.2 v) l vs →
  json_members f (sep_by "," (json_member <$> l) ++ "}"%char :: rest) =
    Some (zip (to_valid <$> l.*1) vs, rest).
Proof.
  intros Hne Hf Hl. revert f Hne Hf. induction Hl as [|[k p] v l vs Hv Hl IH]; intros f Hne Hf; [done|].
  destruct f as [|f]; [simpl in Hf; lia|]. simpl in Hf, Hv.
  assert (∀ tail, json_members (S f) (json_member (k, p) ++ tail) =
    (match punctuation "}" tail with
     | Some rest => Some ([(to_valid k, v)], rest)
     | None => rest ← punctuation "," tail;
         '(kvs, rest) ← json_members f rest; Some ((to_valid k, v) :: kvs, rest)
     end)) as Hstep.
  { intros tail. unfold json_member. cbn [fst snd]. rewrite <- app_assoc. cbn [app].
    unfold json_string. cbn [app json_members]. rewrite punctuation_here by done.
    cbn [mbind option_bind]. rewrite json_text_string. cbn [mbind option_bind].
    rewrite punctuation_here by done. cbn [mbind option_bind]. by rewrite Hv by lia. }
  cbn [fmap list_fmap]. destruct l as [|kp l].
  - inversion Hl; subst. cbn [fmap list_fmap sep_by]. by rewrite Hstep, punctuation_here.
  - change (sep_by "," (json_member (k, p) :: (json_member <$> kp :: l)))
      with (json_member (k, p) ++ ","%char :: sep_by "," (json_member <$> kp :: l)).
    rewrite <- app_assoc. rewrite Hstep. cbn [app]. rewrite punctuation_other, punctuation_here by done.
    cbn [mbind option_bind]. by rewrite IH by (done || lia).
Qed.
Lemma reads_object n l vs : l ≠ [] → Forall2 (λ kp v, reads n kp.2 v) l vs →
  reads (S (List.length l + n)) (json_object l) (JObject (zip (to_valid <$> l.*1) vs)).
Proof.
  intros Hne Hl [|f] rest Hf; [lia|]. unfold json_object. cbn [app]. rewrite <- app_assoc. cbn [app].
  cbn [json_value skip_space is_json_space existsb]. simpl orb. cbv iota. simpl Ascii.eqb. cbv iota.
  assert (punctuation "}" (sep_by "," (json_member <$> l) ++ "}"%char :: rest) = None) as ->.
  { destruct l as [|[k p] l]; [done|]. cbn [fmap list_fmap]. by destruct l. }
  rewrite (json_members_read n l vs) by (done || lia). done.
Qed.

Lemma json_elements_read n l vs f rest : l ≠ [] → (List.length l + n <= f)%nat →
  Forall2 (reads n) l vs →
  json_elements f (sep_by "," l ++ "]"%char :: rest) = Some (vs, rest).
Proof.
  intros Hne Hf Hl. revert f Hne Hf. induction Hl as [|p v l vs Hv Hl IH]; intros f Hne Hf; [done|].
  destruct f as [|f]; [simpl in Hf; lia|]. simpl in Hf. destruct l as [|p' l].
  - inversion Hl; subst. cbn [sep_by json_elements]. rewrite Hv by lia. cbn [mbind option_bind].
    by rewrite punctuation_here.
  - change (sep_by "," (p :: p' :: l)) with (p ++ ","%char :: sep_by "," (p' :: l)).
    rewrite <- app_assoc. cbn [json_elements]. rewrite Hv by lia. cbn [mbind option_bind app].
    rewrite punctuation_other, punctuation_here by done. cbn [mbind option_bind].
    by rewrite IH by (done || lia).
Qed.
(** An array of objects. *)
Lemma reads_array n l vs : l ≠ [] → Forall (λ p, ∃ t, p = "{"%char :: t) l → Forall2 (reads n) l vs →
  reads (S (List.length l + n)) (json_array l) (JArray vs).
Proof.
  intros Hne Hopen Hl [|f] rest Hf; [lia|]. unfold json_array. cbn [app]. rewrite <- app_assoc. cbn [app].
  cbn [json_value skip_space is_json_space existsb]. simpl orb. cbv iota. simpl Ascii.eqb. cbv iota.
  assert (punctuation "]" (sep_by "," l ++ "]"%char :: rest) = None) as ->.
  { destruct l as [|p l]; [done|]. inversion Hopen as [|? ? [t ->] _]; subst. by destruct l. }
  rewrite (json_elements_read n l vs) by (done || lia). done.
Qed.
Lemma sep_by_length c l : Forall (λ p, p ≠ []) l → (List.length l <= List.length (sep_by c l))%nat.
Proof.
  induction 1 as [|p l Hp Hl IH]; [done|]. destruct l as [|p' l].
  - simpl. destruct p; [done|]. simpl. lia.
  - change (sep_by c (p :: p' :: l)) with (p ++ c :: sep_by c (p' :: l)).
    rewrite length_app. simpl in *. lia.
Qed.
