(* ===== verification/Encoding.v ===== *)
(** * Pieces of the packages encoding and crypto

    [base64.RawURLEncoding.EncodeToString], base32 without padding in both
    directions and [strings.ToUpper], with the theorem that decoding undoes
    encoding; then crypto/sha1, crypto/sha256, crypto/hmac and encoding/hex: the
    digests of FIPS 180-4 and the HMAC of RFC 2104. Bytes are integers from 0 to
    255. *)
From S2P Require Import Prelude GoText GoQuote Json.

Definition is_byte (b : Z) : Prop := 0 <= b < 256.

(** ** base64, URL alphabet, no padding *)
Definition base64_char (d : Z) : ascii :=
  if d <? 26 then chr (65 + d) else if d <? 52 then chr (71 + d)
  else if d <? 62 then chr (d - 4) else if d =? 62 then "-"%char else "_"%char.
Fixpoint base64_encode (l : list Z) : list ascii :=
  match l with
  | [] => []
  | [a] => base64_char <$> [a / 4; a mod 4 * 16]
  | [a; b] => base64_char <$> [a / 4; a mod 4 * 16 + b / 16; b mod 16 * 4]
  | a :: b :: c :: l' =>
      (base64_char <$> [a / 4; a mod 4 * 16 + b / 16; b mod 16 * 4 + c / 64; c mod 64]) ++ base64_encode l'
  end.
Definition RawURLEncoding (l : list Z) : string := of_bytes (base64_encode l).

(** ** base32 without padding *)
Definition base32_char (d : Z) : ascii := if d <? 26 then chr (65 + d) else chr (24 + d).
Definition base32_value (c : ascii) : option Z :=
  let b := byte_of c in
  if (65 <=? b) && (b <=? 90) then Some (b - 65)
  else if (50 <=? b) && (b <=? 55) then Some (b - 24) else None.
(** Five bytes are eight digits of five bits; what is left over is filled up
    with zero bits. *)
Fixpoint base32_digits (l : list Z) : list Z :=
  match l with
  | [] => []
  | [a] => [a / 8; a mod 8 * 4]
  | [a; b] => [a / 8; a mod 8 * 4 + b / 64; b / 2 mod 32; b mod 2 * 16]
  | [a; b; c] => [a / 8; a mod 8 * 4 + b / 64; b / 2 mod 32; b mod 2 * 16 + c / 16; c mod 16 * 2]
  | [a; b; c; d] => [a / 8; a mod 8 * 4 + b / 64; b / 2 mod 32; b mod 2 * 16 + c / 16;
      c mod 16 * 2 + d / 128; d / 4 mod 32; d mod 4 * 8]
  | a :: b :: c :: d :: e :: l' =>
      [a / 8; a mod 8 * 4 + b / 64; b / 2 mod 32; b mod 2 * 16 + c / 16;
       c mod 16 * 2 + d / 128; d / 4 mod 32; d mod 4 * 8 + e / 32; e mod 32] ++ base32_digits l'
  end.
Definition base32_encode (l : list Z) : list ascii := base32_char <$> base32_digits l.
(** The bytes of up to eight digits. One, three or six digits are nothing the
    encoder writes; the decoder drops the whole group. *)
Definition base32_group (l : list Z) : list Z :=
  match l with
  | [a; b] => [a * 8 + b / 4]
  | [a; b; c; d] => [a * 8 + b / 4; b mod 4 * 64 + c * 2 + d / 16]
  | [a; b; c; d; e] => [a * 8 + b / 4; b mod 4 * 64 + c * 2 + d / 16; d mod 16 * 16 + e / 2]
  | [a; b; c; d; e; f; g] => [a * 8 + b / 4; b mod 4 * 64 + c * 2 + d / 16; d mod 16 * 16 + e / 2;
      e mod 2 * 128 + f * 4 + g / 8]
  | [a; b; c; d; e; f; g; h] => [a * 8 + b / 4; b mod 4 * 64 + c * 2 + d / 16; d mod 16 * 16 + e / 2;
      e mod 2 * 128 + f * 4 + g / 8; g mod 8 * 32 + h]
  | _ => []
  end.
Fixpoint base32_bytes (l : list Z) : list Z :=
  match l with
  | a :: b :: c :: d :: e :: f :: g :: h :: l' => base32_group [a; b; c; d; e; f; g; h] ++ base32_bytes l'
  | _ => base32_group l
  end.
Definition is_newline (c : ascii) : bool := (byte_of c =? 10) || (byte_of c =? 13).
(** [DecodeString]: line ends are skipped. The byte 255, which stands for the
    padding that is turned off, cannot occur in text that is UTF-8. *)
Definition base32_DecodeString (s : string) : option (list Z) :=
  base32_bytes <$> mapM base32_value (List.filter (λ c, negb (is_newline c)) (bytes s)).
Definition base32_EncodeToString (l : list Z) : string := of_bytes (base32_encode l).

(** ** strings.ToUpper *)
(** Upper case of the code points outside ASCII is a table of the Unicode
    package. *)
Class UpperTable := { upper_rune : Z → Z }.
Definition is_ascii (s : string) : bool := forallb (λ c, byte_of c <? 128) (bytes s).
Definition ToUpper `{UpperTable} (s : string) : string :=
  if is_ascii s then of_bytes (upper_byte <$> bytes s)
  else of_bytes (mjoin ((λ r, EncodeRune
    (if r <? 128 then byte_of (upper_byte (chr r)) else upper_rune r)) <$> runes s)).

Example base64_ex : RawURLEncoding [255; 254; 253; 1; 2] = "__79AQI".
Proof. reflexivity. Qed.
Example base32_ex : base32_EncodeToString (byte_of <$> bytes "foobar") = "MZXW6YTBOI"
  ∧ base32_DecodeString "MZXW6YTBOI" = Some (byte_of <$> bytes "foobar") ∧ base32_DecodeString "M1" = None.
Proof. done. Qed.

(** ** Decoding undoes encoding *)
Lemma base32_value_char d : 0 <= d < 32 → base32_value (base32_char d) = Some d.
Proof.
  intros Hd. unfold base32_char, base32_value. destruct (Z.ltb_spec d 26); rewrite byte_of_chr by lia.
  - destruct (Z.leb_spec 65 (65 + d)), (Z.leb_spec (65 + d) 90); try lia. simpl. f_equal. lia.
  - destruct (Z.leb_spec 65 (24 + d)); [lia|]. simpl.
    destruct (Z.leb_spec 50 (24 + d)), (Z.leb_spec (24 + d) 55); try lia. simpl. f_equal. lia.
Qed.
Lemma base32_char_byte d : 0 <= d < 32 →
  is_newline (base32_char d) = false ∧ 50 <= byte_of (base32_char d) < 97.
Proof.
  intros Hd. unfold base32_char, is_newline. destruct (Z.ltb_spec d 26); rewrite byte_of_chr by lia.
  - destruct (Z.eqb_spec (65 + d) 10), (Z.eqb_spec (65 + d) 13); simpl; (split; [done|lia]) || lia.
  - destruct (Z.eqb_spec (24 + d) 10), (Z.eqb_spec (24 + d) 13); simpl; (split; [done|lia]) || lia.
Qed.

(** Five bytes at a time. *)
Lemma list_ind5 {A} (P : list A → Prop) :
  P [] → (∀ a, P [a]) → (∀ a b, P [a; b]) → (∀ a b c, P [a; b; c]) → (∀ a b c d, P [a; b; c; d]) →
  (∀ a b c d e l, P l → P (a :: b :: c :: d :: e :: l)) → ∀ l, P l.
Proof.
  intros H0 H1 H2 H3 H4 H5. fix IH 1. intros [|a [|b [|c [|d [|e l]]]]]; [..|apply H5, IH]; auto.
Qed.
Ltac digits := unfold is_byte in *; Z.to_euclidean_division_equations; lia.
Lemma base32_digits_range l : Forall is_byte l → Forall (λ d, 0 <= d < 32) (base32_digits l).
Proof.
  induction l using list_ind5; intros Hl; decompose_Forall_hyps; simpl;
    repeat (constructor; [digits|]); auto.
Qed.

Lemma base32_bytes_digits l : Forall is_byte l → base32_bytes (base32_digits l) = l.
Proof.
  induction l using list_ind5; intros Hl; decompose_Forall_hyps; simpl; [done|..|rewrite IHl by done];
    repeat f_equal; digits.
Qed.

Lemma mapM_values l : Forall (λ d, 0 <= d < 32) l → mapM base32_value (base32_char <$> l) = Some l.
Proof.
  induction 1 as [|d l Hd Hl IH]; [done|]. cbn [fmap list_fmap]. simpl.
  rewrite base32_value_char by done. simpl. simpl in IH. by rewrite IH.
Qed.
(** Text of the encoder: digits and capital letters. *)
Lemma base32_text l : Forall is_byte l →
  Forall (λ c, is_newline c = false ∧ 50 <= byte_of c < 97 ∧ upper_byte c = c) (base32_encode l).
Proof.
  intros Hl%base32_digits_range. unfold base32_encode. apply Forall_fmap.
  eapply Forall_impl; [exact Hl|]. intros d Hd. simpl in Hd |- *.
  pose proof (base32_char_byte d Hd) as [Hn Hb].
  split_and!; [done|lia|lia|].
  unfold upper_byte. by destruct (Z.leb_spec 97 (byte_of (base32_char d))); [lia|].
Qed.
Lemma filter_keeps {A} (f : A → bool) l : Forall (λ x, f x = true) l → List.filter f l = l.
Proof. induction 1 as [|x l Hx Hl IH]; [done|]. simpl. by rewrite Hx, IH. Qed.
Lemma base32_roundtrip l : Forall is_byte l → base32_DecodeString (base32_EncodeToString l) = Some l.
Proof.
  intros Hl. unfold base32_DecodeString, base32_EncodeToString. rewrite bytes_of_bytes.
  rewrite filter_keeps.
  - unfold base32_encode. rewrite mapM_values by by apply base32_digits_range. simpl.
    by rewrite base32_bytes_digits.
  - eapply Forall_impl; [by apply base32_text|]. simpl. intros c (-> & _). done.
Qed.
Lemma ToUpper_base32 `{UpperTable} l : Forall is_byte l →
  ToUpper (base32_EncodeToString l) = base32_EncodeToString l.
Proof.
  intros Hl%base32_text. unfold ToUpper, base32_EncodeToString, is_ascii. rewrite bytes_of_bytes.
  assert (forallb (λ c, byte_of c <? 128) (base32_encode l) = true) as ->.
  { apply forallb_forall. intros c Hc%list_elem_of_In. rewrite Forall_forall in Hl.
    apply Hl in Hc as (_ & ? & _). apply Z.ltb_lt. lia. }
  f_equal. induction Hl as [|c t (_ & _ & Hc) Ht IH]; [done|]. cbn [fmap list_fmap]. by rewrite Hc, IH.
Qed.

(** ** Hashes *)
(** ** 32-bit words *)
Definition mask32 (x : Z) : Z := x mod 2 ^ 32.
Definition add32 (x y : Z) : Z := mask32 (x + y).
Definition not32 (x : Z) : Z := 2 ^ 32 - 1 - x.
Definition rotr (n x : Z) : Z := Z.lor (Z.shiftr x n) (mask32 (Z.shiftl x (32 - n))).
Definition rotl (n x : Z) : Z := rotr (32 - n) x.
Definition shr (n x : Z) : Z := Z.shiftr x n.
Definition xor3 (x y z : Z) : Z := Z.lxor x (Z.lxor y z).
Definition ch (x y z : Z) : Z := Z.lxor (Z.land x y) (Z.land (not32 x) z).
Definition maj (x y z : Z) : Z := xor3 (Z.land x y) (Z.land x z) (Z.land y z).

(** Big-endian bytes of a number, and back. *)
Fixpoint be_bytes (n : nat) (x : Z) : list Z :=
  match n with
  | O => []
  | S n' => be_bytes n' (Z.shiftr x 8) ++ [Z.land x 255]
  end.
Definition be_word (l : list Z) : Z := fold_left (λ acc b, acc * 256 + b) l 0.

(** The message with its padding, in blocks of 64 bytes. *)
Definition padded (msg : list Z) : list Z :=
  let n := List.length msg in
  let zeros := ((119 - n mod 64) mod 64)%nat in
  msg ++ [128] ++ repeat 0 zeros ++ be_bytes 8 (8 * Z.of_nat n).
Fixpoint chunks (fuel k : nat) (l : list Z) : list (list Z) :=
  match fuel with
  | O => []
  | S f => match l with [] => [] | _ => take k l :: chunks f k (drop k l) end
  end.
Definition blocks (msg : list Z) : list (list Z) :=
  let p := padded msg in chunks (List.length p) 64 p.
Definition words (block : list Z) : list Z := be_word <$> chunks 64 4 block.

(** The schedule is kept newest first; [next] computes a word from it. *)
Fixpoint schedule (n : nat) (next : list Z → Z) (w : list Z) : list Z :=
  match n with O => rev w | S n' => schedule n' next (next w :: w) end.
Definition nth0 (i : nat) (l : list Z) : Z := nth i l 0.

(** ** SHA-256 *)
(** The constants of FIPS 180-4: 32 bits of the fractional parts of the cube
    roots of the first 64 primes and of the square roots of the first 8. *)
Definition is_prime (n : nat) : bool :=
  (1 <? n)%nat && forallb (λ d, negb (n mod d =? 0)%nat) (seq 2 (n - 2)).
Definition primes : list Z :=
  Eval vm_compute in Z.of_nat <$> List.filter is_prime (seq 2 310).
(** The integer cube root, bit by bit from bit [n] down. *)
Fixpoint cube_root (n : nat) (x acc : Z) : Z :=
  let next := acc + 2 ^ Z.of_nat n in
  let acc := if next * next * next <=? x then next else acc in
  match n with O => acc | S m => cube_root m x acc end.
Definition K256 : list Z :=
  Eval vm_compute in (λ p, mask32 (cube_root 40 (p * 2 ^ 96) 0)) <$> primes.
Definition H256 : list Z :=
  Eval vm_compute in (λ p, mask32 (Z.sqrt (p * 2 ^ 64))) <$> take 8 primes.
Example constants_ex : List.length K256 = 64%nat ∧ last K256 = Some 0xc67178f2 ∧ head H256 = Some 0x6a09e667.
Proof. done. Qed.
Definition next256 (w : list Z) : Z :=
  let x := nth0 14 w in let y := nth0 1 w in
  let s0 := xor3 (rotr 7 x) (rotr 18 x) (shr 3 x) in
  let s1 := xor3 (rotr 17 y) (rotr 19 y) (shr 10 y) in
  mask32 (nth0 15 w + s0 + nth0 6 w + s1).
Definition round256 (st : list Z) (kw : Z * Z) : list Z :=
  match st with
  | [a; b; c; d; e; f; g; h] =>
      let t1 := h + xor3 (rotr 6 e) (rotr 11 e) (rotr 25 e) + ch e f g + kw.1 + kw.2 in
      let t2 := xor3 (rotr 2 a) (rotr 13 a) (rotr 22 a) + maj a b c in
      [mask32 (t1 + t2); a; b; c; add32 d t1; e; f; g]
  | _ => st
  end.
Definition block256 (st : list Z) (block : list Z) : list Z :=
  let w := schedule 48 next256 (rev (words block)) in
  zip_with add32 st (fold_left round256 (zip K256 w) st).
Definition Sum256 (msg : list Z) : list Z :=
  fold_left block256 (blocks msg) H256 ≫= be_bytes 4.

(** ** SHA-1 *)
Definition H1 : list Z := [0x67452301; 0xefcdab89; 0x98badcfe; 0x10325476; 0xc3d2e1f0].
Definition next1 (w : list Z) : Z :=
  rotl 1 (Z.lxor (Z.lxor (nth0 2 w) (nth0 7 w)) (Z.lxor (nth0 13 w) (nth0 15 w))).
Definition round1 (st : list Z) (tw : nat * Z) : list Z :=
  match st with
  | [a; b; c; d; e] =>
      let '(t, w) := tw in
      let '(f, k) :=
        if (t <? 20)%nat then (ch b c d, 0x5a827999)
        else if (t <? 40)%nat then (xor3 b c d, 0x6ed9eba1)
        else if (t <? 60)%nat then (maj b c d, 0x8f1bbcdc)
        else (xor3 b c d, 0xca62c1d6) in
      [mask32 (rotl 5 a + f + e + k + w); a; rotl 30 b; c; d]
  | _ => st
  end.
Definition block1 (st : list Z) (block : list Z) : list Z :=
  let w := schedule 64 next1 (rev (words block)) in
  zip_with add32 st (fold_left round1 (zip (seq 0 80) w) st).
Definition Sum1 (msg : list Z) : list Z :=
  fold_left block1 (blocks msg) H1 ≫= be_bytes 4.

(** ** HMAC, with hashes of 64-byte blocks *)
Definition hmac_key (hash : list Z → list Z) (key : list Z) : list Z :=
  let key := if (64 <? List.length key)%nat then hash key else key in
  key ++ repeat 0 (64 - List.length key)%nat.
Definition HMAC (hash : list Z → list Z) (key msg : list Z) : list Z :=
  let k := hmac_key hash key in
  hash ((Z.lxor 92 <$> k) ++ hash ((Z.lxor 54 <$> k) ++ msg)).

(** ** Text *)
Definition hex_char (d : Z) : ascii := if d <? 10 then chr (48 + d) else chr (87 + d).
Definition hex_EncodeToString (l : list Z) : string :=
  of_bytes (l ≫= λ b, [hex_char (b / 16); hex_char (b mod 16)]).
Definition string_bytes (s : string) : list Z := byte_of <$> bytes s.
Definition sha256_hex (s : string) : string := hex_EncodeToString (Sum256 (string_bytes s)).

Example sha256_abc : sha256_hex "abc" = "ba7816bf8f01cfea414140de5dae2223b00361a396177a9cb410ff61f20015ad".
Proof. vm_compute. reflexivity. Qed.
Example sha256_long :
  sha256_hex "abcdbcdecdefdefgefghfghighijhijkijkljklmklmnlmnomnopnopq"
  = "248d6a61d20638b8e5c026930c3e6039a33ce45964ff2167f6ecedd419db06c1".
Proof. vm_compute. reflexivity. Qed.
Example sha1_abc : hex_EncodeToString (Sum1 (string_bytes "abc")) = "a9993e364706816aba3e25717850c26c9cd0d89d".
Proof. vm_compute. reflexivity. Qed.
Example hmac_sha1_rfc2202 :
  hex_EncodeToString (HMAC Sum1 (string_bytes "Jefe") (string_bytes "what do ya want for nothing?"))
  = "effcdf6ae5eb2fa2d27416d5f184df9c259a7c79".
Proof. vm_compute. reflexivity. Qed.
