(* ===== verification/TextFacts.v ===== *)
(** * More facts on text

    Trimming twice is trimming once, and a comma-separated list of trimmed
    entries reads back as it was joined. *)
From S2P Require Import Prelude GoText Netip NetipText Network Encoding.

(** ** Trimming *)
Lemma strip_spec p l l' : strip p l = Some l' ↔ l = p ++ l'.
Proof.
  revert l. induction p as [|x p IH]; intros l; simpl; [naive_solver|].
  destruct l as [|y l]; [done|]. destruct (Ascii.eqb_spec x y) as [->|Hne].
  - rewrite IH. naive_solver.
  - naive_solver.
Qed.
Lemma strip_any_spec ps l : strip_any ps l = None ↔ ∀ p l', p ∈ ps → l ≠ p ++ l'.
Proof.
  induction ps as [|p ps IH]; simpl; [split; [|done]; by intros _ p l' ?%not_elem_of_nil|].
  destruct (strip p l) as [l1|] eqn:E.
  - apply strip_spec in E. split; [done|]. intros Hn. by destruct (Hn p l1 ltac:(by left)).
  - rewrite IH. split.
    + intros Hn q l' [->|Hq]%elem_of_cons; [|by apply Hn]. intros ->.
      by rewrite (proj2 (strip_spec p (p ++ l') l') eq_refl) in E.
    + intros Hn q l' Hq. apply Hn. by right.
Qed.
Lemma strip_any_some ps l l' : strip_any ps l = Some l' → ∃ p, p ∈ ps ∧ l = p ++ l'.
Proof.
  induction ps as [|p ps IH]; simpl; [done|]. destruct (strip p l) as [l1|] eqn:E.
  - intros [= ->]. apply strip_spec in E. exists p. split; [by left|done].
  - intros (q & Hq & ->)%IH. exists q. split; [by right|done].
Qed.
Lemma trim_with_id ps fuel l : strip_any ps l = None → trim_with ps fuel l = l.
Proof. intros E. destruct fuel; [done|]. simpl. by rewrite E. Qed.
Lemma trim_with_done ps fuel l : Forall (λ p, p ≠ []) ps → (List.length l <= fuel)%nat →
  strip_any ps (trim_with ps fuel l) = None ∧ ∃ k, l = k ++ trim_with ps fuel l.
Proof.
  intros Hps. revert l. induction fuel as [|fuel IH]; intros l Hl.
  - destruct l; [|simpl in Hl; lia]. simpl. split; [|by exists []]. apply strip_any_spec. intros p l' Hp E.
    symmetry in E. apply app_eq_nil in E as [-> _]. rewrite Forall_forall in Hps. by apply (Hps []).
  - cbn [trim_with]. destruct (strip_any ps l) as [l'|] eqn:E; [|split; [done|by exists []]].
    apply strip_any_some in E as (p & Hp & ->). rewrite Forall_forall in Hps. pose proof (Hps p Hp) as Hne.
    destruct (IH l') as [H1 [k Hk]]; [rewrite length_app in Hl; destruct p; [done|simpl in Hl; lia]|].
    split; [done|]. exists (p ++ k). by rewrite <- app_assoc, <- Hk.
Qed.
Lemma spaces_ne : Forall (λ p, p ≠ []) spaces.
Proof. repeat (constructor; [discriminate|]). constructor. Qed.
Lemma rspaces_ne : Forall (λ p, p ≠ []) rspaces.
Proof. repeat (constructor; [discriminate|]). constructor. Qed.

(** Text that trimming leaves alone, and what trimming does to any text. *)
Definition trimmed (l : list ascii) : Prop := strip_any spaces l = None ∧ strip_any rspaces (rev l) = None.
Lemma trimmed_TrimSpace l : trimmed l → TrimSpace (of_bytes l) = of_bytes l.
Proof.
  intros [H1 H2]. unfold TrimSpace, trim_left, trim_right. rewrite bytes_of_bytes.
  rewrite (trim_with_id spaces) by done. rewrite (trim_with_id rspaces) by done. by rewrite rev_involutive.
Qed.
Lemma TrimSpace_trimmed s : ∃ l k1 k2, TrimSpace s = of_bytes l ∧ trimmed l ∧ bytes s = k1 ++ l ++ k2.
Proof.
  unfold TrimSpace, trim_left, trim_right.
  destruct (trim_with_done spaces (List.length (bytes s)) (bytes s) spaces_ne ltac:(lia)) as [Hl [k1 Hk1]].
  set (l := trim_with spaces _ _) in *.
  destruct (trim_with_done rspaces (List.length l) (rev l) rspaces_ne) as [Hr [k2 Hk2]]; [by rewrite length_rev|].
  set (r := trim_with rspaces _ _) in *.
  assert (l = rev r ++ rev k2) as El by (rewrite <- rev_app_distr, <- Hk2; symmetry; apply rev_involutive).
  exists (rev r), k1, (rev k2). split; [done|]. split; [split|].
  - apply strip_any_spec. intros p l' Hp E. rewrite strip_any_spec in Hl. apply (Hl p (l' ++ rev k2) Hp).
    by rewrite El, E, <- app_assoc.
  - by rewrite rev_involutive.
  - by rewrite Hk1, El.
Qed.
Lemma TrimSpace_idem s : TrimSpace (TrimSpace s) = TrimSpace s.
Proof. destruct (TrimSpace_trimmed s) as (l & k1 & k2 & -> & Ht & _). by apply trimmed_TrimSpace. Qed.

(** ** Comma-separated lists *)
Definition comma_free (s : string) : Prop := ","%char ∉ bytes s.
Definition entry_ok (s : string) : Prop := s ≠ "" ∧ TrimSpace s = s ∧ comma_free s.

Lemma TrimSpace_comma_free s : comma_free s → comma_free (TrimSpace s).
Proof.
  unfold comma_free. destruct (TrimSpace_trimmed s) as (l & k1 & k2 & -> & _ & E).
  rewrite bytes_of_bytes, E. set_solver.
Qed.
Lemma split_bytes_parts sep acc l : sep ∉ acc → Forall (λ p, sep ∉ p) (split_bytes sep acc l).
Proof.
  revert acc. induction l as [|c l IH]; intros acc Ha; simpl.
  - constructor; [|done]. by rewrite list_elem_of_In, <- in_rev, <- list_elem_of_In.
  - destruct (Ascii.eqb_spec c sep) as [->|Hne].
    + constructor; [by rewrite list_elem_of_In, <- in_rev, <- list_elem_of_In|]. apply IH, not_elem_of_nil.
    + apply IH. apply not_elem_of_cons. done.
Qed.
Lemma split_bytes_app sep acc l rest : sep ∉ l →
  split_bytes sep acc (l ++ rest) = match rest with
    | [] => [rev acc ++ l]
    | c :: rest' => split_bytes sep (rev l ++ acc) rest
    end.
Proof.
  revert acc. induction l as [|c l IH]; intros acc Hl; simpl.
  - destruct rest; simpl; [by rewrite app_nil_r|done].
  - apply not_elem_of_cons in Hl as [Hc Hl]. destruct (Ascii.eqb_spec c sep) as [->|_]; [done|].
    rewrite IH by done. destruct rest; simpl; by rewrite <- app_assoc.
Qed.
Lemma Split_Join_byte sep l : Forall (λ s, sep ∉ bytes s) l → l ≠ [] → Split (Join l (String sep "")) sep = l.
Proof.
  intros Hl Hne. unfold Split. induction Hl as [|s l Hs Hl IH]; [done|]. destruct l as [|t l].
  - change (Join [s] _) with s. rewrite <- (app_nil_r (bytes s)), split_bytes_app by done.
    simpl. by rewrite of_bytes_bytes.
  - change (Join (s :: t :: l) ?x) with (s +:+ x +:+ Join (t :: l) x).
    rewrite !bytes_app. change (bytes (String sep "")) with [sep]. rewrite split_bytes_app by done. simpl app. cbn [split_bytes].
    rewrite Ascii.eqb_refl, app_nil_r, rev_involutive. cbn [fmap list_fmap]. rewrite of_bytes_bytes. f_equal.
    by apply IH.
Qed.
Lemma Split_Join l : Forall comma_free l → l ≠ [] → Split (Join l ",") "," = l.
Proof. apply Split_Join_byte. Qed.

(** ** Decimal text *)
Lemma itoa_fuel_all_digits f n acc : 0 <= n → Forall (λ c, is_digit c = true) acc →
  Forall (λ c, is_digit c = true) (itoa_fuel f n acc).
Proof.
  assert (∀ d, 0 <= d < 10 → is_digit (digit d) = true) as Hd.
  { intros d Hd. unfold is_digit, digit. rewrite byte_of_chr by lia. apply andb_true_iff. lia. }
  revert n acc. induction f as [|f IH]; intros n acc Hn Ha; [done|]. cbn [itoa_fuel].
  destruct (Z.ltb_spec n 10); [constructor; [apply Hd; lia|done]|].
  apply IH; [apply Z.div_pos; lia|]. constructor; [|done]. apply Hd. apply Z.mod_pos_bound. lia.
Qed.
Lemma itoa_fuel_value f n : (1 <= f)%nat → 0 <= n < 10 ^ Z.of_nat f →
  ∃ k, ∀ a acc, digits_value a (itoa_fuel f n acc) = digits_value (a * k + n) acc.
Proof.
  assert (∀ a d acc, 0 <= d < 10 → digits_value a (digit d :: acc) = digits_value (a * 10 + d) acc) as Hd.
  { intros a d acc Hd. unfold digit. cbn [digits_value]. unfold is_digit. rewrite byte_of_chr by lia.
    destruct (Z.leb_spec 48 (48 + d)), (Z.leb_spec (48 + d) 57); try lia. cbn. f_equal. lia. }
  revert n. induction f as [|f IH]; intros n Hf Hn; [lia|]. cbn [itoa_fuel].
  destruct (Z.ltb_spec n 10); [exists 10; intros a acc; apply Hd; lia|].
  destruct f as [|f]; [simpl in Hn; lia|].
  destruct (IH (n / 10)) as [k Hk]; [lia| |].
  - split; [apply Z.div_pos; lia|]. apply Z.div_lt_upper_bound; [lia|].
    rewrite <- Z.pow_succ_r by lia. rewrite <- Nat2Z.inj_succ. lia.
  - exists (k * 10). intros a acc. rewrite Hk, Hd by (apply Z.mod_pos_bound; lia). f_equal.
    pose proof (Z.div_mod n 10). lia.
Qed.
Lemma Itoa_inj n n' : 0 <= n < 10 ^ 20 → 0 <= n' < 10 ^ 20 → Itoa n = Itoa n' → n = n'.
Proof.
  intros Hn Hn' E. unfold Itoa in E. destruct (Z.ltb_spec n 0), (Z.ltb_spec n' 0); try lia.
  apply (f_equal bytes) in E. rewrite !bytes_of_bytes in E.
  destruct (itoa_fuel_value 20 n ltac:(lia) Hn) as [k Hk], (itoa_fuel_value 20 n' ltac:(lia) Hn') as [k' Hk'].
  specialize (Hk 0 []). specialize (Hk' 0 []). rewrite E in Hk. rewrite Hk in Hk'. injection Hk' as Hk'. lia.
Qed.
Lemma Itoa_digits n : 0 <= n → Forall (λ c, is_digit c = true) (bytes (Itoa n)).
Proof.
  intros Hn. unfold Itoa. destruct (Z.ltb_spec n 0); [lia|]. rewrite bytes_of_bytes. by apply itoa_fuel_all_digits.
Qed.

(** The last field of a text is what follows the last separator. *)
Lemma last_field (c : ascii) x y u v : c ∉ y → c ∉ v → x ++ c :: y = u ++ c :: v → x = u ∧ y = v.
Proof.
  revert u. induction x as [|a x IH]; intros u Hy Hv E; destruct u as [|b u]; simpl in E.
  - by injection E.
  - injection E as -> ->. set_solver.
  - injection E as -> <-. set_solver.
  - injection E as -> E. destruct (IH u) as [-> ->]; done.
Qed.

Lemma no_colon n : 0 <= n → ":"%char ∉ bytes (Itoa n).
Proof. intros Hn Hin. pose proof (Itoa_digits n Hn) as Hd. rewrite Forall_forall in Hd. by apply Hd in Hin. Qed.
Lemma numbered_inj x y n k : 0 <= n < 10 ^ 20 → 0 <= k < 10 ^ 20 →
  x +:+ ":" +:+ Itoa n = y +:+ ":" +:+ Itoa k → x = y ∧ n = k.
Proof.
  intros Hn Hk E. apply (f_equal bytes) in E. rewrite !bytes_app in E.
  apply last_field in E as [Ex En]; [|apply no_colon; lia..].
  split; [by apply bytes_inj|]. apply Itoa_inj; [done..|]. by apply bytes_inj.
Qed.

(** ** Hexadecimal text *)
Lemma hex_char_text d : 0 <= d < 16 → text_byte (hex_char d) = true.
Proof.
  intros Hd. unfold hex_char, text_byte.
  destruct (Z.ltb_spec d 10) as [H10|H10]; rewrite byte_of_chr by lia.
  - destruct (Z.leb_spec 33 (48 + d)), (Z.ltb_spec (48 + d) 127); try lia. simpl.
    destruct (Ascii.eqb_spec (chr (48 + d)) ",") as [E|]; [|done].
    apply (f_equal byte_of) in E. rewrite byte_of_chr in E by lia. change (byte_of ",") with 44 in E. lia.
  - destruct (Z.leb_spec 33 (87 + d)), (Z.ltb_spec (87 + d) 127); try lia. simpl.
    destruct (Ascii.eqb_spec (chr (87 + d)) ",") as [E|]; [|done].
    apply (f_equal byte_of) in E. rewrite byte_of_chr in E by lia. change (byte_of ",") with 44 in E. lia.
Qed.
Lemma text_entry_ok l : l ≠ [] → Forall (λ c, text_byte c = true) l → entry_ok (of_bytes l).
Proof.
  intros Hne Hl. split; [by destruct l|]. split; [by apply TrimSpace_text|].
  unfold comma_free. rewrite bytes_of_bytes. intros Hin. rewrite Forall_forall in Hl. by specialize (Hl _ Hin).
Qed.
Lemma hex_text l : Forall (λ b, 0 <= b < 256) l →
  Forall (λ c, text_byte c = true) (l ≫= λ b, [hex_char (b / 16); hex_char (b mod 16)]).
Proof.
  induction 1 as [|b l Hb Hl IH]; [constructor|]. cbn [mbind list_bind]. apply Forall_app. split; [|done].
  repeat constructor; apply hex_char_text; Z.to_euclidean_division_equations; lia.
Qed.
Lemma be_bytes_range n x : Forall (λ b, 0 <= b < 256) (be_bytes n x).
Proof.
  revert x. induction n as [|n IH]; intros x; [constructor|]. simpl. apply Forall_app. split; [done|].
  repeat constructor; change 255 with (Z.ones 8); rewrite Z.land_ones by lia; apply Z.mod_pos_bound; lia.
Qed.
Lemma Sum256_bytes msg : Forall (λ b, 0 <= b < 256) (Sum256 msg).
Proof.
  unfold Sum256. generalize (fold_left block256 (blocks msg) H256) as st. induction st as [|x st IH]; [constructor|].
  cbn [mbind list_bind]. apply Forall_app. split; [apply be_bytes_range|done].
Qed.
Lemma round256_length st kw : List.length (round256 st kw) = List.length st.
Proof. unfold round256. do 8 (destruct st as [|? st]; [done|]). by destruct st. Qed.
Lemma fold_round256_length st l : List.length (fold_left round256 l st) = List.length st.
Proof. revert st. induction l as [|kw l IH]; intros st; simpl; [done|]. by rewrite IH, round256_length. Qed.
Lemma block256_length st b : List.length (block256 st b) = List.length st.
Proof. unfold block256. rewrite length_zip_with, fold_round256_length. lia. Qed.
Lemma Sum256_ne msg : Sum256 msg ≠ [].
Proof.
  unfold Sum256. assert (∀ l st, List.length (fold_left block256 l st) = List.length st) as Hl.
  { induction l as [|b l IH]; intros st; simpl; [done|]. by rewrite IH, block256_length. }
  specialize (Hl (blocks msg) H256). revert Hl. generalize (fold_left block256 (blocks msg) H256) as st.
  intros [|x st] Hl; [discriminate|]. cbn [mbind list_bind be_bytes]. intros E.
  apply app_eq_nil in E as [E _]. by apply app_eq_nil in E as [_ E].
Qed.
(** The hash of a text is an entry a list can hold. *)
Lemma hex_entry_ok l : l ≠ [] → Forall (λ b, 0 <= b < 256) l → entry_ok (hex_EncodeToString l).
Proof. intros Hne Hl. apply text_entry_ok; [by destruct l|by apply hex_text]. Qed.
Lemma sha256_hex_ok s : entry_ok (sha256_hex s).
Proof. exact (hex_entry_ok _ (Sum256_ne (string_bytes s)) (Sum256_bytes (string_bytes s))). Qed.
