(* ===== verification/Storage.v ===== *)
(** * internal/storage: the data and the contract of the storage

    The records the storage keeps ([contracts.go], [sessions.go], [tokens.go],
    [passkeys.go]) with their methods, and the interface [Storage] with what
    its callers may rely on: an abstract store [Abs] of keyed tables and one
    law per operation saying what it does to them. [InMemory.v] and [SqlStorage.v]
    implement it. *)
From S2P Require Import Prelude GoText.

(** A point in time, in nanoseconds. *)
Notation Time := Z.

(** [splitList]: an empty string is no entries rather than one empty entry. *)
Definition splitList (value : string) : list string :=
  if String.eqb (TrimSpace value) "" then [] else
  filter (λ part, part ≠ "") (TrimSpace <$> Split value ",").

Module Device.
Record t := mk {
  Owner : string;
  OwnerName : string;
  OwnerEmail : string;
  OwnerProvider : string;
  Name : string;
  PublicKey : string;
  PresharedKey : string;
  Address : string;
  CreatedAt : Time;
  Disabled : bool;
  ExpiresAt : option Time;
  Routes : string;
  LastHandshakeTime : option Time;
  ReceiveBytes : Z;
  TransmitBytes : Z;
  Endpoint : string }.

#[export] Instance eq_dec : EqDecision t.
Proof. solve_decision. Defined.

Definition with_Name (name : string) (d : t) : t :=
  mk (Owner d) (OwnerName d) (OwnerEmail d) (OwnerProvider d) name (PublicKey d)
     (PresharedKey d) (Address d) (CreatedAt d) (Disabled d) (ExpiresAt d) (Routes d)
     (LastHandshakeTime d) (ReceiveBytes d) (TransmitBytes d) (Endpoint d).
Definition with_OwnerNames (name email : string) (d : t) : t :=
  mk (Owner d) name email (OwnerProvider d) (Name d) (PublicKey d)
     (PresharedKey d) (Address d) (CreatedAt d) (Disabled d) (ExpiresAt d) (Routes d)
     (LastHandshakeTime d) (ReceiveBytes d) (TransmitBytes d) (Endpoint d).
Definition with_Access (disabled : bool) (expiresAt : option Time) (d : t) : t :=
  mk (Owner d) (OwnerName d) (OwnerEmail d) (OwnerProvider d) (Name d) (PublicKey d)
     (PresharedKey d) (Address d) (CreatedAt d) disabled expiresAt (Routes d)
     (LastHandshakeTime d) (ReceiveBytes d) (TransmitBytes d) (Endpoint d).
Definition with_Routes (routes : string) (d : t) : t :=
  mk (Owner d) (OwnerName d) (OwnerEmail d) (OwnerProvider d) (Name d) (PublicKey d)
     (PresharedKey d) (Address d) (CreatedAt d) (Disabled d) (ExpiresAt d) routes
     (LastHandshakeTime d) (ReceiveBytes d) (TransmitBytes d) (Endpoint d).
Definition with_Keys (publicKey presharedKey : string) (d : t) : t :=
  mk (Owner d) (OwnerName d) (OwnerEmail d) (OwnerProvider d) (Name d) publicKey
     presharedKey (Address d) (CreatedAt d) (Disabled d) (ExpiresAt d) (Routes d)
     (LastHandshakeTime d) (ReceiveBytes d) (TransmitBytes d) (Endpoint d).
Definition with_Metadata (handshake : option Time) (rx tx : Z) (endpoint : string) (d : t) : t :=
  mk (Owner d) (OwnerName d) (OwnerEmail d) (OwnerProvider d) (Name d) (PublicKey d)
     (PresharedKey d) (Address d) (CreatedAt d) (Disabled d) (ExpiresAt d) (Routes d)
     handshake rx tx endpoint.

Definition AllowedIPs (d : t) : list string := splitList (Address d) ++ splitList (Routes d).
Definition RouteList (d : t) : list string := splitList (Routes d).

(** [Expired]: the access has run out at the given time. *)
Definition Expired (d : t) (at_ : Time) : bool :=
  match ExpiresAt d with Some e => negb (at_ <? e) | None => false end.
Definition AccessAllowed (d : t) (at_ : Time) : bool := negb (Disabled d) && negb (Expired d at_).

(** The primary key. *)
Definition key (d : t) : string * string := (Owner d, Name d).
End Device.
Notation Device := Device.t.

(** [MetadataUpdate] and [PeerConnection]: what one replica observed of a peer. *)
Record PeerConnection := mkPeerConnection { pc_Endpoint : string; pc_LastHandshakeTime : Time }.
Record MetadataUpdate := mkMetadataUpdate {
  mu_PublicKey : string;
  mu_ReceiveBytes : Z;
  mu_TransmitBytes : Z;
  mu_Connection : option PeerConnection }.

(** [TOTPState]: the second factor of a user as it is stored. *)
Record TOTPState := mkTOTP {
  Secret : string;
  EnabledAt : option Time;
  Recovery : string;
  LastStep : Z }.
Definition zero_TOTPState : TOTPState := mkTOTP "" None "" 0.
#[export] Instance TOTPState_eq_dec : EqDecision TOTPState.
Proof. solve_decision. Defined.

Module User.
Record t := mk {
  Subject : string;
  Provider : string;
  Name : string;
  Email : string;
  Policies : string;
  LastLogin : Time;
  PasswordHash : string;
  WebauthnChallenge : string;
  WebauthnChallengeUntil : option Time;
  TotpSecret : string;
  TotpEnabledAt : option Time;
  TotpRecovery : string;
  TotpLastStep : Z;
  PasswordFrom : string }.

#[export] Instance eq_dec : EqDecision t.
Proof. solve_decision. Defined.

Definition with_Password (hash from : string) (u : t) : t :=
  mk (Subject u) (Provider u) (Name u) (Email u) (Policies u) (LastLogin u) hash
     (WebauthnChallenge u) (WebauthnChallengeUntil u) (TotpSecret u) (TotpEnabledAt u)
     (TotpRecovery u) (TotpLastStep u) from.
Definition with_TOTP (s : TOTPState) (u : t) : t :=
  mk (Subject u) (Provider u) (Name u) (Email u) (Policies u) (LastLogin u) (PasswordHash u)
     (WebauthnChallenge u) (WebauthnChallengeUntil u) (Secret s) (EnabledAt s)
     (Recovery s) (LastStep s) (PasswordFrom u).
Definition with_Challenge (data : string) (until : option Time) (u : t) : t :=
  mk (Subject u) (Provider u) (Name u) (Email u) (Policies u) (LastLogin u) (PasswordHash u)
     data until (TotpSecret u) (TotpEnabledAt u)
     (TotpRecovery u) (TotpLastStep u) (PasswordFrom u).

Definition TOTP (u : t) : TOTPState :=
  mkTOTP (TotpSecret u) (TotpEnabledAt u) (TotpRecovery u) (TotpLastStep u).
Definition TwoFactorEnabled (u : t) : bool :=
  negb (String.eqb (TotpSecret u) "") && bool_decide (TotpEnabledAt u ≠ None).
Definition PolicyList (u : t) : list string := splitList (Policies u).
End User.
Notation User := User.t.

Module Session.
Record t := mk {
  ID : string;
  Owner : string;
  Hash : string;
  Identity : string;
  UserAgent : string;
  RemoteAddr : string;
  CreatedAt : Time;
  ExpiresAt : Time;
  LastSeenAt : Time }.

#[export] Instance eq_dec : EqDecision t.
Proof. solve_decision. Defined.

(** [now.Before(s.ExpiresAt)] fails. *)
Definition Expired (s : t) (now : Time) : bool := negb (now <? ExpiresAt s).
Definition with_LastSeenAt (at_ : Time) (s : t) : t :=
  mk (ID s) (Owner s) (Hash s) (Identity s) (UserAgent s) (RemoteAddr s) (CreatedAt s)
     (ExpiresAt s) at_.
End Session.
Notation Session := Session.t.

Module APIToken.
Record t := mk {
  ID : string;
  Owner : string;
  Name : string;
  Hash : string;
  Identity : string;
  CreatedAt : Time;
  ExpiresAt : option Time;
  LastUsedAt : option Time }.

#[export] Instance eq_dec : EqDecision t.
Proof. solve_decision. Defined.

Definition Expired (k : t) (now : Time) : bool :=
  match ExpiresAt k with Some e => negb (now <? e) | None => false end.
Definition with_LastUsedAt (at_ : Time) (k : t) : t :=
  mk (ID k) (Owner k) (Name k) (Hash k) (Identity k) (CreatedAt k) (ExpiresAt k) (Some at_).
End APIToken.
Notation APIToken := APIToken.t.

Module Passkey.
Record t := mk {
  ID : string;
  Owner : string;
  Name : string;
  Data : string;
  CreatedAt : Time;
  LastUsedAt : option Time }.

#[export] Instance eq_dec : EqDecision t.
Proof. solve_decision. Defined.

Definition with_Name (name : string) (p : t) : t :=
  mk (ID p) (Owner p) name (Data p) (CreatedAt p) (LastUsedAt p).
End Passkey.
Notation Passkey := Passkey.t.

(** ** The events of the [Watcher] *)
Inductive Event :=
  | EvAdd (d : Device)
  | EvUpdate (d : Device)
  | EvDelete (d : Device).

(** ** The interface [Storage]

    One operation per method; those of the watcher are the log of emitted
    events, which the subscribers of [OnAdd], [OnUpdate] and [OnDelete] get in
    order. *)
Class Storage (S : Type) := {
  (* Storage *)
  Save : Device → M S unit;
  RecordMetadata : list MetadataUpdate → M S unit;
  Rename : Device → string → M S Device;
  SetAccess : Device → bool → option Time → M S Device;
  SetRoutes : Device → string → M S Device;
  SetKeys : Device → string → string → M S Device;
  List_ : string → M S (list Device);
  Addresses : M S (list string);
  Get : string → string → M S Device;
  GetByPublicKey : string → M S Device;
  Delete : Device → M S unit;
  DeleteForOwner : string → M S (list Device);
  BlockForOwner : string → M S (list Device);
  (* taking the lock of [WithAllocationLock] *)
  AllocationLock : M S unit;
  (* UserStorage *)
  SaveUser : User → M S unit;
  GetUser : string → M S User;
  Users : M S (list User);
  DeleteUser : string → M S unit;
  SetUserPassword : string → string → string → M S unit;
  SetUserTOTP : string → TOTPState → M S unit;
  (* SessionStorage *)
  SaveSession : Session → M S unit;
  GetSessionByHash : string → M S Session;
  ListSessions : string → M S (list Session);
  TouchSession : string → Time → M S unit;
  DeleteSession : string → M S unit;
  DeleteSessionsForOwner : string → M S Z;
  DeleteExpiredSessions : Time → M S Z;
  (* TokenStorage *)
  SaveToken : APIToken → M S unit;
  ListTokens : string → M S (list APIToken);
  GetToken : string → M S APIToken;
  GetTokenByHash : string → M S APIToken;
  TouchToken : string → Time → M S unit;
  DeleteToken : string → M S unit;
  DeleteTokensForOwner : string → M S Z;
  (* PasskeyStorage *)
  AddPasskey : Passkey → M S unit;
  UpdatePasskey : Passkey → M S unit;
  RenamePasskey : string → string → string → M S unit;
  ListPasskeys : string → M S (list Passkey);
  GetPasskey : string → M S Passkey;
  DeletePasskey : string → string → M S unit;
  SetWebauthnChallenge : string → string → option Time → M S unit;
  (* Watcher *)
  emitted : S → list Event }.

(** [WithAllocationLock]: run [fn] while no other allocation runs. Getting the
    lock may fail; the operations of [fn] then do not happen. That [fn] is not
    interleaved with another allocation is how it is modelled: as one step. *)
Definition WithAllocationLock {S A} `{Storage S} (fn : M S A) : M S A :=
  do! AllocationLock; fn.

(** ** What the storage promises

    The abstract store: tables under their primary keys. *)
Record Abs := mkAbs {
  devices : gmap (string * string) Device;
  users : gmap string User;
  sessions : gmap string Session;
  tokens : gmap string APIToken;
  passkeys : gmap string Passkey }.

Definition on_devices (f : gmap (string * string) Device → gmap (string * string) Device) (a : Abs) : Abs :=
  mkAbs (f (devices a)) (users a) (sessions a) (tokens a) (passkeys a).
Definition on_users (f : gmap string User → gmap string User) (a : Abs) : Abs :=
  mkAbs (devices a) (f (users a)) (sessions a) (tokens a) (passkeys a).
Definition on_sessions (f : gmap string Session → gmap string Session) (a : Abs) : Abs :=
  mkAbs (devices a) (users a) (f (sessions a)) (tokens a) (passkeys a).
Definition on_tokens (f : gmap string APIToken → gmap string APIToken) (a : Abs) : Abs :=
  mkAbs (devices a) (users a) (sessions a) (f (tokens a)) (passkeys a).
Definition on_passkeys (f : gmap string Passkey → gmap string Passkey) (a : Abs) : Abs :=
  mkAbs (devices a) (users a) (sessions a) (tokens a) (f (passkeys a)).

(** The rows of a table that a listing returns: each once, in some order. *)
Definition lists_rows {K A} `{Countable K} (m : gmap K A) (P : A → Prop) `{∀ x, Decision (P x)}
    (l : list A) : Prop :=
  l ≡ₚ filter P (map_to_list m).*2.

(** No other device has this public key. *)
Definition key_free (m : gmap (string * string) Device) (k : string * string) (pk : string) : Prop :=
  ∀ k' d', m !! k' = Some d' → k' ≠ k → Device.PublicKey d' ≠ pk.

(** A login replaces what is recorded of a user except the password and the
    second factor, which only the user's own changes touch. *)
Definition keeps_credentials (previous stored : User) : Prop :=
  User.PasswordHash stored = User.PasswordHash previous ∧
  User.PasswordFrom stored = User.PasswordFrom previous ∧
  User.TotpSecret stored = User.TotpSecret previous ∧
  User.TotpEnabledAt stored = User.TotpEnabledAt previous ∧
  User.TotpRecovery stored = User.TotpRecovery previous.

(** What is recorded of the metadata of one device by a list of updates. *)
Definition apply_update (d : Device) (u : MetadataUpdate) : Device :=
  match mu_Connection u with
  | Some c => Device.with_Metadata (Some (pc_LastHandshakeTime c))
      (wrap64 (Device.ReceiveBytes d + mu_ReceiveBytes u))
      (wrap64 (Device.TransmitBytes d + mu_TransmitBytes u))
      (pc_Endpoint c) d
  | None => Device.with_Metadata (Device.LastHandshakeTime d)
      (wrap64 (Device.ReceiveBytes d + mu_ReceiveBytes u))
      (wrap64 (Device.TransmitBytes d + mu_TransmitBytes u))
      (Device.Endpoint d) d
  end.

(** The tables are kept under their primary keys, and the unique indexes hold:
    no two devices share a public key (the empty one is none), no two sessions
    or tokens a hash. *)
Record wf_abs (a : Abs) : Prop := {
  wf_dev_key : ∀ k d, devices a !! k = Some d → Device.key d = k;
  wf_dev_pk : ∀ k1 k2 d1 d2, devices a !! k1 = Some d1 → devices a !! k2 = Some d2 →
    Device.PublicKey d1 = Device.PublicKey d2 → Device.PublicKey d1 ≠ "" → k1 = k2;
  wf_user_key : ∀ k u, users a !! k = Some u → User.Subject u = k;
  wf_session_key : ∀ k x, sessions a !! k = Some x → Session.ID x = k;
  wf_session_hash : ∀ k1 k2 x1 x2, sessions a !! k1 = Some x1 → sessions a !! k2 = Some x2 →
    Session.Hash x1 = Session.Hash x2 → k1 = k2;
  wf_token_key : ∀ k x, tokens a !! k = Some x → APIToken.ID x = k;
  wf_token_hash : ∀ k1 k2 x1 x2, tokens a !! k1 = Some x1 → tokens a !! k2 = Some x2 →
    APIToken.Hash x1 = APIToken.Hash x2 → k1 = k2;
  wf_passkey_key : ∀ k x, passkeys a !! k = Some x → Passkey.ID x = k }.

(** Nobody is recorded under the error a lookup reports. *)
Definition on_ok {A} (P : A → Prop) (r : result A) : Prop :=
  match r with Ok x => P x | Err _ => True end.
Definition found {A} (P : A → Prop) (missing : Prop) (e : sentinel) (r : result A) : Prop :=
  match r with Ok x => P x | Err err => error_is err e = true → missing end.

Section laws.
  Context {S : Type} `{Storage S} (view : S → Abs) (ok : S → Prop).

  (** A reading operation changes nothing. *)
Definition query {A} (m : M S A) (P : Abs → result A → Prop) : Prop :=
  ∀ s r s', ok s → m s = (r, s') → s' = s ∧ P (view s) r.
(** A writing operation does what [P] says, or fails and changes nothing. *)
Definition effect {A} (m : M S A) (P : Abs → A → Abs → list Event → Prop) : Prop :=
  ∀ s r s', ok s → m s = (r, s') → ok s' ∧
    match r with
    | Ok a => ∃ evs, P (view s) a (view s') evs ∧ emitted s' = emitted s ++ evs
    | Err _ => view s' = view s ∧ emitted s' = emitted s
    end.
(** One stored device is changed under its own key. What is returned, and what
    the subscribers get, is the change of the stored device or of the one that was
    handed in: a backend need not read the row it writes. *)
Definition changes_device (m : M S Device) (device : Device) (f : Device → Device) : Prop :=
  effect m (λ a r a' evs, ∃ stored, devices a !! Device.key device = Some stored ∧
    a' = on_devices <[Device.key device := f stored]> a ∧
    (r = f stored ∨ r = f device) ∧ evs = [EvUpdate r]).
End laws.

Class StorageLaws (S : Type) `{Storage S} := {
  view : S → Abs;
  ok : S → Prop;
  ok_wf s : ok s → wf_abs (view s);
  (* a device that is there already is reported or not, and needs a key of its
     own to be found by *)
  law_Save d : effect view ok (Save d) (λ a _ a' evs,
    devices a !! Device.key d = None ∨ Device.Owner d ≠ "" ∧ Device.Name d ≠ "" →
    (Device.PublicKey d ≠ "" → key_free (devices a) (Device.key d) (Device.PublicKey d)) ∧
    a' = on_devices <[Device.key d := d]> a ∧
    (evs = [EvAdd d] ∨ evs = [] ∧ devices a !! Device.key d ≠ None));
  law_RecordMetadata us : Forall (λ u, mu_PublicKey u ≠ "") us →
    effect view ok (RecordMetadata us) (λ a _ a' evs, evs = [] ∧
      a' = on_devices (fmap (λ d,
        fold_left apply_update (filter (λ u, mu_PublicKey u = Device.PublicKey d) us) d)) a);
  law_Rename d newName : effect view ok (Rename d newName) (λ a r a' evs,
    ∃ stored, devices a !! Device.key d = Some stored ∧
      a' = on_devices (λ m, <[(Device.Owner d, newName) := Device.with_Name newName stored]>
             (delete (Device.key d) m)) a ∧
      (r = Device.with_Name newName stored ∨ r = Device.with_Name newName d) ∧ evs = [EvUpdate r]);
  law_SetAccess d disabled expiresAt :
    changes_device view ok (SetAccess d disabled expiresAt) d (Device.with_Access disabled expiresAt);
  law_SetRoutes d routes : changes_device view ok (SetRoutes d routes) d (Device.with_Routes routes);
  law_SetKeys d pk psk : effect view ok (SetKeys d pk psk) (λ a r a' evs,
    ∃ stored, devices a !! Device.key d = Some stored ∧
      key_free (devices a) (Device.key d) pk ∧
      a' = on_devices <[Device.key d := Device.with_Keys pk psk stored]> a ∧
      (r = Device.with_Keys pk psk stored ∨ r = Device.with_Keys pk psk d) ∧ evs = [EvUpdate r]);
  law_List owner : query view ok (List_ owner) (λ a,
    on_ok (lists_rows (devices a) (λ d, owner = "" ∨ Device.Owner d = owner)));
  law_Addresses : query view ok Addresses (λ a,
    on_ok (λ l, l ≡ₚ Device.Address <$> (map_to_list (devices a)).*2));
  law_Get owner name : query view ok (Get owner name) (λ a,
    on_ok (λ d, devices a !! (owner, name) = Some d));
  law_GetByPublicKey pk : query view ok (GetByPublicKey pk) (λ a,
    on_ok (λ d, devices a !! Device.key d = Some d ∧ Device.PublicKey d = pk));
  law_Delete d : effect view ok (Delete d) (λ a _ a' evs,
    a' = on_devices (delete (Device.key d)) a ∧ evs ≠ [] ∧ Forall (eq (EvDelete d)) evs);
  law_DeleteForOwner owner : effect view ok (DeleteForOwner owner) (λ a l a' evs,
    lists_rows (devices a) (λ d, Device.Owner d = owner) l ∧
    a' = on_devices (filter (λ kd, Device.Owner kd.2 ≠ owner)) a ∧ evs = EvDelete <$> l);
  law_BlockForOwner owner : effect view ok (BlockForOwner owner) (λ a l a' evs,
    (∃ l0, lists_rows (devices a) (λ d, Device.Owner d = owner ∧ Device.Disabled d = false) l0 ∧
       l = (λ d, Device.with_Access true (Device.ExpiresAt d) d) <$> l0) ∧
    a' = on_devices (fmap (λ d, if bool_decide (Device.Owner d = owner)
           then Device.with_Access true (Device.ExpiresAt d) d else d)) a ∧
    evs = EvUpdate <$> l);
  law_AllocationLock : effect view ok AllocationLock (λ a _ a' evs, a' = a ∧ evs = []);
  law_SaveUser u : effect view ok (SaveUser u) (λ a _ a' evs, evs = [] ∧
    ∃ stored, a' = on_users <[User.Subject u := stored]> a ∧
      User.Subject stored = User.Subject u ∧ User.Provider stored = User.Provider u ∧
      User.Name stored = User.Name u ∧ User.Email stored = User.Email u ∧
      User.Policies stored = User.Policies u ∧ User.LastLogin stored = User.LastLogin u ∧
      match users a !! User.Subject u with
      | Some previous => User.PasswordHash u = "" → User.TotpSecret u = "" →
          keeps_credentials previous stored
      | None => stored = u
      end);
  law_GetUser subject : query view ok (GetUser subject) (λ a,
    found (λ u, users a !! subject = Some u) (users a !! subject = None) ErrUserNotFound);
  law_Users : query view ok Users (λ a, on_ok (lists_rows (users a) (λ _, True)));
  law_DeleteUser subject : effect view ok (DeleteUser subject) (λ a _ a' evs, evs = [] ∧
    a' = on_passkeys (filter (λ ip, Passkey.Owner ip.2 ≠ subject)) (on_users (delete subject) a));
  law_SetUserPassword subject hash from : effect view ok (SetUserPassword subject hash from)
    (λ a _ a' evs, evs = [] ∧ ∃ u, users a !! subject = Some u ∧
       a' = on_users <[subject := User.with_Password hash from u]> a);
  law_SetUserTOTP subject state : effect view ok (SetUserTOTP subject state)
    (λ a _ a' evs, evs = [] ∧ ∃ u, users a !! subject = Some u ∧
       a' = on_users <[subject := User.with_TOTP state u]> a);
  law_SetWebauthnChallenge subject data until : effect view ok (SetWebauthnChallenge subject data until)
    (λ a _ a' evs, evs = [] ∧ ∃ u, users a !! subject = Some u ∧
       a' = on_users <[subject := User.with_Challenge data until u]> a);
  law_SaveSession x : effect view ok (SaveSession x) (λ a _ a' evs, evs = [] ∧
    (∀ k y, sessions a !! k = Some y → Session.Hash y = Session.Hash x → k = Session.ID x) ∧
    a' = on_sessions <[Session.ID x := x]> a);
  law_GetSessionByHash hash : query view ok (GetSessionByHash hash) (λ a,
    found (λ x, sessions a !! Session.ID x = Some x ∧ Session.Hash x = hash)
      (∀ k x, sessions a !! k = Some x → Session.Hash x ≠ hash) ErrSessionNotFound);
  law_ListSessions owner : query view ok (ListSessions owner) (λ a,
    on_ok (λ l, lists_rows (sessions a) (λ x, Session.Owner x = owner) l ∧
      Sorted (λ x y, Session.CreatedAt y <= Session.CreatedAt x) l));
  law_TouchSession id at_ : effect view ok (TouchSession id at_) (λ a _ a' evs, evs = [] ∧
    sessions a !! id ≠ None ∧ a' = on_sessions (alter (Session.with_LastSeenAt at_) id) a);
  law_DeleteSession id : effect view ok (DeleteSession id) (λ a _ a' evs, evs = [] ∧
    a' = on_sessions (delete id) a);
  law_DeleteSessionsForOwner owner : effect view ok (DeleteSessionsForOwner owner) (λ a n a' evs,
    evs = [] ∧ n = Z.of_nat (size (filter (λ ix, Session.Owner ix.2 = owner) (sessions a))) ∧
    a' = on_sessions (filter (λ ix, Session.Owner ix.2 ≠ owner)) a);
  law_DeleteExpiredSessions now : effect view ok (DeleteExpiredSessions now) (λ a n a' evs,
    evs = [] ∧ n = Z.of_nat (size (filter (λ ix, Session.Expired ix.2 now = true) (sessions a))) ∧
    a' = on_sessions (filter (λ ix, Session.Expired ix.2 now = false)) a);
  law_SaveToken x : effect view ok (SaveToken x) (λ a _ a' evs, evs = [] ∧
    (∀ k y, tokens a !! k = Some y → APIToken.Hash y = APIToken.Hash x → k = APIToken.ID x) ∧
    a' = on_tokens <[APIToken.ID x := x]> a);
  law_ListTokens owner : query view ok (ListTokens owner) (λ a,
    on_ok (λ l, lists_rows (tokens a) (λ x, owner = "" ∨ APIToken.Owner x = owner) l ∧
      Sorted (λ x y, APIToken.CreatedAt x <= APIToken.CreatedAt y) l));
  law_GetToken id : query view ok (GetToken id) (λ a,
    found (λ x, tokens a !! id = Some x) (tokens a !! id = None) ErrTokenNotFound);
  law_GetTokenByHash hash : query view ok (GetTokenByHash hash) (λ a,
    found (λ x, tokens a !! APIToken.ID x = Some x ∧ APIToken.Hash x = hash)
      (∀ k x, tokens a !! k = Some x → APIToken.Hash x ≠ hash) ErrTokenNotFound);
  law_TouchToken id at_ : effect view ok (TouchToken id at_) (λ a _ a' evs, evs = [] ∧
    a' = on_tokens (alter (APIToken.with_LastUsedAt at_) id) a);
  law_DeleteToken id : effect view ok (DeleteToken id) (λ a _ a' evs, evs = [] ∧
    tokens a !! id ≠ None ∧ a' = on_tokens (delete id) a);
  law_DeleteTokensForOwner owner : effect view ok (DeleteTokensForOwner owner) (λ a n a' evs,
    evs = [] ∧ n = Z.of_nat (size (filter (λ ix, APIToken.Owner ix.2 = owner) (tokens a))) ∧
    a' = on_tokens (filter (λ ix, APIToken.Owner ix.2 ≠ owner)) a);
  law_AddPasskey p : effect view ok (AddPasskey p) (λ a _ a' evs, evs = [] ∧
    passkeys a !! Passkey.ID p = None ∧ a' = on_passkeys <[Passkey.ID p := p]> a);
  law_AddPasskey_exists p s err s' : ok s → AddPasskey p s = (Err err, s') →
    error_is err StoragePasskeyExists = true → passkeys (view s) !! Passkey.ID p ≠ None;
  law_UpdatePasskey p : effect view ok (UpdatePasskey p) (λ a _ a' evs, evs = [] ∧
    ∃ old stored, passkeys a !! Passkey.ID p = Some old ∧ Passkey.Owner old = Passkey.Owner p ∧
      Passkey.ID stored = Passkey.ID p ∧ Passkey.Owner stored = Passkey.Owner p ∧
      Passkey.Name stored = Passkey.Name p ∧ Passkey.Data stored = Passkey.Data p ∧
      Passkey.LastUsedAt stored = Passkey.LastUsedAt p ∧
      a' = on_passkeys <[Passkey.ID p := stored]> a);
  law_RenamePasskey owner id name : effect view ok (RenamePasskey owner id name) (λ a _ a' evs,
    evs = [] ∧ ∃ old, passkeys a !! id = Some old ∧ Passkey.Owner old = owner ∧
      a' = on_passkeys <[id := Passkey.with_Name name old]> a);
  law_ListPasskeys owner : query view ok (ListPasskeys owner) (λ a,
    on_ok (λ l, lists_rows (passkeys a) (λ p, Passkey.Owner p = owner) l ∧
      Sorted (λ x y, Passkey.CreatedAt y <= Passkey.CreatedAt x) l));
  law_GetPasskey id : query view ok (GetPasskey id) (λ a,
    found (λ p, passkeys a !! id = Some p) (passkeys a !! id = None) ErrPasskeyNotFound);
  law_DeletePasskey owner id : effect view ok (DeletePasskey owner id) (λ a _ a' evs, evs = [] ∧
    ∃ old, passkeys a !! id = Some old ∧ Passkey.Owner old = owner ∧
      a' = on_passkeys (delete id) a) }.

(** ** Keeping the tables well formed *)
Definition dev_keyed (m : gmap (string * string) Device) : Prop :=
  ∀ k d, m !! k = Some d → Device.key d = k.
Definition pk_unique (m : gmap (string * string) Device) : Prop :=
  ∀ k1 k2 d1 d2, m !! k1 = Some d1 → m !! k2 = Some d2 →
    Device.PublicKey d1 = Device.PublicKey d2 → Device.PublicKey d1 ≠ "" → k1 = k2.

Lemma wf_on_devices a f : wf_abs a → dev_keyed (f (devices a)) → pk_unique (f (devices a)) →
  wf_abs (on_devices f a).
Proof. intros [] ? ?. by constructor. Qed.

Lemma dev_keyed_insert m d : dev_keyed m → dev_keyed (<[Device.key d := d]> m).
Proof. intros Hk k d' [[<- <-]|[_ ?]]%lookup_insert_Some; [done|by apply Hk]. Qed.
Lemma dev_keyed_subseteq m m' : m' ⊆ m → dev_keyed m → dev_keyed m'.
Proof. intros Hs Hk k d Hl. apply Hk. by eapply lookup_weaken. Qed.
Lemma dev_keyed_fmap m f : (∀ d, Device.key (f d) = Device.key d) → dev_keyed m → dev_keyed (f <$> m).
Proof.
  intros Hf Hk k d Hl. rewrite lookup_fmap in Hl. apply fmap_Some in Hl as (d' & Hl & ->).
  rewrite Hf. by apply Hk.
Qed.

Lemma pk_unique_insert m k d : pk_unique m →
  (Device.PublicKey d ≠ "" → key_free m k (Device.PublicKey d)) → pk_unique (<[k := d]> m).
Proof.
  intros Hu Hf k1 k2 d1 d2 [[<- <-]|[N1 H1]]%lookup_insert_Some [[<- <-]|[N2 H2]]%lookup_insert_Some E Hne.
  - done.
  - exfalso. eapply Hf; [done|exact H2|done|done].
  - exfalso. rewrite E in Hne. eapply Hf; [done|exact H1|done|done].
  - by eapply Hu.
Qed.
Lemma pk_unique_subseteq m m' : m' ⊆ m → pk_unique m → pk_unique m'.
Proof. intros Hs Hu k1 k2 d1 d2 H1 H2. eapply Hu; eapply lookup_weaken; done. Qed.
Lemma pk_unique_fmap m f : (∀ d, Device.PublicKey (f d) = Device.PublicKey d) →
  pk_unique m → pk_unique (f <$> m).
Proof.
  intros Hf Hu k1 k2 d1 d2. rewrite !lookup_fmap.
  intros (d1' & H1 & ->)%fmap_Some (d2' & H2 & ->)%fmap_Some. rewrite !Hf. by eapply Hu.
Qed.
(** A changed device keeps the key free for itself. *)
Lemma key_free_own m k d : pk_unique m → m !! k = Some d → Device.PublicKey d ≠ "" →
  key_free m k (Device.PublicKey d).
Proof. intros Hu Hl Hne k' d' Hl' Hk E. apply Hk. by eapply (Hu k' k d' d); [..|congruence]. Qed.
Lemma key_free_subseteq m m' k pk : m' ⊆ m → key_free m k pk → key_free m' k pk.
Proof. intros Hs Hf k' d' Hl. eapply Hf. by eapply lookup_weaken. Qed.

(** The same for any table kept under an id, and for its unique index. *)
Lemma table_insert {A} (key : A → string) (m : gmap string A) k x :
  (∀ k x, m !! k = Some x → key x = k) → key x = k →
  ∀ k' x', <[k := x]> m !! k' = Some x' → key x' = k'.
Proof. intros Hm Hk k' x' [[<- <-]|[_ ?]]%lookup_insert_Some; [done|by apply Hm]. Qed.
Lemma table_alter {A} (key : A → string) (m : gmap string A) k (f : A → A) :
  (∀ x, key (f x) = key x) → (∀ k x, m !! k = Some x → key x = k) →
  ∀ k' x', alter f k m !! k' = Some x' → key x' = k'.
Proof.
  intros Hf Hm k' x' Hl. destruct (decide (k = k')) as [<-|Hne].
  - rewrite lookup_alter_eq in Hl. apply fmap_Some in Hl as (y & Hl & ->). rewrite Hf. by apply Hm.
  - rewrite lookup_alter_ne in Hl by done. by apply Hm.
Qed.
Definition index_unique {A} (hash : A → string) (m : gmap string A) : Prop :=
  ∀ k1 k2 x1 x2, m !! k1 = Some x1 → m !! k2 = Some x2 → hash x1 = hash x2 → k1 = k2.
Lemma index_insert {A} (hash : A → string) (m : gmap string A) k x :
  index_unique hash m → (∀ k' y, m !! k' = Some y → hash y = hash x → k' = k) →
  index_unique hash (<[k := x]> m).
Proof.
  intros Hu Hf k1 k2 x1 x2 [[<- <-]|[N1 H1]]%lookup_insert_Some [[<- <-]|[N2 H2]]%lookup_insert_Some E.
  - done.
  - symmetry. eauto.
  - eauto.
  - by eapply Hu.
Qed.
Lemma index_subseteq {A} (hash : A → string) (m m' : gmap string A) : m' ⊆ m →
  index_unique hash m → index_unique hash m'.
Proof. intros Hs Hu k1 k2 x1 x2 H1 H2. eapply Hu; eapply lookup_weaken; done. Qed.
Lemma index_alter {A} (hash : A → string) (m : gmap string A) k (f : A → A) :
  (∀ x, hash (f x) = hash x) → index_unique hash m → index_unique hash (alter f k m).
Proof.
  intros Hf Hu.
  assert (∀ k' x', alter f k m !! k' = Some x' → ∃ x, m !! k' = Some x ∧ hash x' = hash x) as Hl.
  { intros k' x' Hl. destruct (decide (k = k')) as [<-|Hne].
    - rewrite lookup_alter_eq in Hl. apply fmap_Some in Hl as (y & Hl & ->). eauto.
    - rewrite lookup_alter_ne in Hl by done. eauto. }
  intros k1 k2 x1 x2 (y1 & H1 & E1)%Hl (y2 & H2 & E2)%Hl E. eapply Hu; [exact H1|exact H2|congruence].
Qed.

(** ** Using the laws *)
(** A row of a listing is a row of the table. *)
Lemma lists_rows_elem {K A} `{Countable K} (m : gmap K A) (P : A → Prop) `{∀ x, Decision (P x)} l x :
  lists_rows m P l → x ∈ l ↔ P x ∧ ∃ k, m !! k = Some x.
Proof.
  intros ->. rewrite list_elem_of_filter. f_equiv. rewrite list_elem_of_fmap. split.
  - intros ([k y] & -> & Hin). exists k. by apply elem_of_map_to_list.
  - intros [k Hl]. exists (k, x). split; [done|]. by apply elem_of_map_to_list.
Qed.

Section law_use.
  Context {S : Type} `{StorageLaws S}.
  Implicit Types (s : S).

Lemma query_ok {A} (m : M S A) P s r s' : query view ok m P → ok s → m s = (r, s') → s' = s ∧ P (view s) r.
Proof. intros Hq Hok E. by apply (Hq s r s'). Qed.

Lemma query_err {A} (m : M S A) P s e s' : query view ok m P → ok s → m s = (Err e, s') → s' = s.
Proof. intros Hq Hok E. by apply (Hq s (Err e) s'). Qed.
Lemma effect_ok {A} (m : M S A) P s a s' : effect view ok m P → ok s → m s = (Ok a, s') →
  ok s' ∧ ∃ evs, P (view s) a (view s') evs ∧ emitted s' = emitted s ++ evs.
Proof. intros He Hok E. by apply (He s (Ok a) s'). Qed.
Lemma effect_err {A} (m : M S A) P s e s' : effect view ok m P → ok s → m s = (Err e, s') →
  ok s' ∧ view s' = view s ∧ emitted s' = emitted s.
Proof. intros He Hok E. by apply (He s (Err e) s'). Qed.
(** A lookup that found something, and one that says there is nothing. *)
Lemma found_ok {A} (m : M S A) (P : Abs → A → Prop) Q e s x s' :
  query view ok m (λ a, found (P a) (Q a) e) → ok s → m s = (Ok x, s') → s' = s ∧ P (view s) x.
Proof. intros Hq Hok E. by apply (Hq s (Ok x) s'). Qed.
Lemma found_missing {A} (m : M S A) (P : Abs → A → Prop) Q e s err s' :
  query view ok m (λ a, found (P a) (Q a) e) → ok s → m s = (Err err, s') →
  s' = s ∧ (error_is err e = true → Q (view s)).
Proof. intros Hq Hok E. by apply (Hq s (Err err) s'). Qed.
End law_use.
