(* ===== verification/Limiter.v ===== *)
(** * Counting attempts, and a cache that forgets

    What the two limits of the program share: a count per name that stands for
    some time after the last attempt, an attempt that counts as wrong until it
    turns out right, and a bound above which nothing is tried. [Passwords.v] and
    [Throttle.v] keep their own records; their limits are instances of this. Then the class of caches
    the throttle and the DNS proxy use. *)
From S2P Require Import Prelude Storage.

(** Reserving an attempt, and reporting one that was right. *)
Inductive guess := Reserve (subject : string) (now : Time) | WasRight (subject : string).
Definition whose (g : guess) : string := match g with Reserve s _ => s | WasRight s => s end.

Section limiter.
  Context (limit window : Z).
  Implicit Types (m : gmap string (Z * Time)) (subject : string).

(** The count that still stands. *)
Definition standing (now : Time) (o : option (Z * Time)) : Z * Time :=
  match o with
  | Some (n, last) => if window <? now - last then (0, 0) else (n, last)
  | None => (0, 0)
  end.
Definition reserve (who : string) (now : Time) m : bool * gmap string (Z * Time) :=
  let r := standing now (m !! who) in
  if limit <=? r.1 then (false, <[who := r]> m) else (true, <[who := (r.1 + 1, now)]> m).
(** The attempts of one name that go ahead. *)
Fixpoint tried (subject : string) (l : list guess) m : Z :=
  match l with
  | [] => 0
  | Reserve who now :: l =>
      let '(b, m') := reserve who now m in
      (if bool_decide (who = subject) && b then 1 else 0) + tried subject l m'
  | WasRight who :: l => tried subject l (delete who m)
  end.

(** What is left in a window that starts at [a]. *)
Definition budget (a : Time) (o : option (Z * Time)) : Z :=
  match o with
  | Some (n, last) => if a <=? last then limit - n else limit
  | None => limit
  end.
Lemma reserve_other who now m subject : who ≠ subject → (reserve who now m).2 !! subject = m !! subject.
Proof. intros Hw. unfold reserve. destruct (_ <=? _); simpl; by rewrite lookup_insert_ne. Qed.
Lemma reserve_count who now m : (∀ p, m !! who = Some p → 0 <= p.1) → ∀ p, (reserve who now m).2 !! who = Some p → 0 <= p.1.
Proof.
  intros Hc p. unfold reserve. assert (0 <= (standing now (m !! who)).1) as H0.
  { unfold standing. destruct (m !! who) as [[n t]|]; [|done]. specialize (Hc _ eq_refl). by destruct (_ <? _). }
  destruct (_ <=? _); simpl; rewrite lookup_insert_eq; intros [= <-]; simpl; lia.
Qed.
(** Nobody uses up the attempts of somebody else. *)
Lemma tried_filter subject l m m' : m !! subject = m' !! subject →
  tried subject l m = tried subject (filter (λ g, whose g = subject) l) m'.
Proof.
  revert m m'. induction l as [|[who now|who] l IH]; intros m m' E; [done|..]; destruct (decide (who = subject)) as [->|Hne].
  - rewrite filter_cons_True by done. cbn [tried]. unfold reserve. rewrite E.
    destruct (_ <=? _); f_equal; apply IH; by rewrite !lookup_insert_eq.
  - rewrite filter_cons_False by done. cbn [tried]. pose proof (reserve_other who now m subject Hne) as Ho.
    destruct (reserve who now m) as [b m1]. rewrite bool_decide_eq_false_2 by done. cbn [andb].
    rewrite Z.add_0_l. apply IH. by rewrite <- E.
  - rewrite filter_cons_True by done. cbn [tried]. apply IH. by rewrite !lookup_delete_eq.
  - rewrite filter_cons_False by done. cbn [tried]. apply IH. by rewrite lookup_delete_ne.
Qed.

Hypothesis Hlimit : 0 <= limit.
(** One attempt of the name takes at most one from what is left. *)
Lemma reserve_budget subject a now m : a <= now <= a + window → (∀ p, m !! subject = Some p → 0 <= p.1) →
  (if (reserve subject now m).1 then 1 else 0) + Z.max 0 (budget a ((reserve subject now m).2 !! subject)) <=
  Z.max 0 (budget a (m !! subject)).
Proof.
  intros Hn Hc. unfold reserve, standing.
  destruct (m !! subject) as [[n t]|] eqn:E; [specialize (Hc _ eq_refl); simpl in Hc|];
    repeat (match goal with |- context [?x <? ?y] => destruct (Z.ltb_spec x y)
                          | |- context [?x <=? ?y] => destruct (Z.leb_spec x y) end; cbn [fst snd]);
    rewrite ?lookup_insert_eq; unfold budget;
    repeat match goal with |- context [?x <=? ?y] => destruct (Z.leb_spec x y) end; simpl in *; try lia.
Qed.
Lemma tried_budget subject a l m : (∀ p, m !! subject = Some p → 0 <= p.1) →
  Forall (λ g, match g with Reserve _ now => a <= now <= a + window | WasRight s => s ≠ subject end) l →
  tried subject l m <= Z.max 0 (budget a (m !! subject)).
Proof.
  intros Hc Hl. revert m Hc. induction Hl as [|[who now|who] l Hg Hl IH]; intros m Hc; cbn [tried]; [lia|..].
  - destruct (decide (who = subject)) as [->|Hne].
    + pose proof (reserve_budget subject a now m Hg Hc) as Hb. pose proof (reserve_count subject now m Hc) as Hc'.
      destruct (reserve subject now m) as [b m1]. simpl in *. rewrite bool_decide_eq_true_2 by done. cbn [andb].
      specialize (IH m1 Hc'). destruct b; lia.
    + pose proof (reserve_other who now m subject Hne) as Ho. destruct (reserve who now m) as [b m1]. simpl in Ho.
      rewrite bool_decide_eq_false_2 by done. cbn [andb]. rewrite Z.add_0_l, <- Ho. apply IH. by rewrite Ho.
  - rewrite <- (lookup_delete_ne m who) by done. apply IH. by rewrite lookup_delete_ne.
Qed.
(** However the attempts of one name interleave with each other and with those
    of others: without a right one, no more than the limit go ahead. *)
Lemma tried_limit subject a l m : (∀ p, m !! subject = Some p → 0 <= p.1) →
  Forall (λ g, match g with Reserve _ now => a <= now <= a + window | WasRight s => s ≠ subject end) l →
  tried subject l m <= limit.
Proof.
  intros Hc Hl. etrans; [by apply (tried_budget subject a)|]. unfold budget. destruct (m !! subject) as [[n t]|]; [|lia].
  specialize (Hc _ eq_refl). simpl in Hc. destruct (_ <=? _); lia.
Qed.
End limiter.

(** ** A cache that forgets the least recently used entry

    The cache of golang-lru is third-party code: a class of parameters with what
    its documentation promises - what it keeps, and that only adding an entry can
    make it forget another one. *)
Class LRU (V C : Type) := {
  lru_New : Z → C;
  lru_Get : string → C → option V * C;
  lru_Add : string → V → C → C;
  lru_Remove : string → C → C;
  kept : C → gmap string V;
  lru_new size : kept (lru_New size) = ∅;
  lru_get k c : (lru_Get k c).1 = kept c !! k ∧ kept (lru_Get k c).2 = kept c;
  lru_add k v c : kept (lru_Add k v c) !! k = Some v ∧ kept (lru_Add k v c) ⊆ <[k := v]> (kept c);
  lru_remove k c : kept (lru_Remove k c) = delete k (kept c) }.

(** What a lookup finds, in one piece. *)
Lemma lru_lookup {V C} `{LRU V C} k c o c' : lru_Get k c = (o, c') → o = kept c !! k ∧ kept c' = kept c.
Proof. intros E. pose proof (lru_get k c) as Hg. by rewrite E in Hg. Qed.

(** A cache that starts over once it is full. *)
Record toy_cache (V : Type) := mkToyCache { toy_size : Z; toy_kept : gmap string V }.
Arguments mkToyCache {V} _ _. Arguments toy_size {V} _. Arguments toy_kept {V} _.
#[export, refine] Instance toy_lru V : LRU V (toy_cache V) := {|
  lru_New size := mkToyCache size ∅;
  lru_Get k c := (toy_kept c !! k, c);
  lru_Add k v c :=
    mkToyCache (toy_size c) (<[k := v]> (if Z.of_nat (size (toy_kept c)) <? toy_size c then toy_kept c else ∅));
  lru_Remove k c := mkToyCache (toy_size c) (delete k (toy_kept c));
  kept := toy_kept |}.
Proof.
  - done.
  - done.
  - intros k v c. split; [apply lookup_insert_eq|]. apply insert_mono. destruct (_ <? _); [done|apply map_empty_subseteq].
  - done.
Defined.
