(* ===== verification/Throttle.v ===== *)
(** * internal/authnz/authconfig/throttle.go: slowing down guesses

    A failed sign-in makes the next one for that username wait, and the second
    step is refused after ten wrong answers. The cache of usernames is
    the class [LRU] of [Limiter.v]. The time is an argument; what a caller waits is the
    result of [wait]. *)
From S2P Require Import Prelude Storage Limiter.

Definition loginThrottleBase : Z := 250 * 10 ^ 6.
Definition loginThrottleMax : Z := 10 * 10 ^ 9.
Definition loginThrottleReset : Z := 15 * 60 * 10 ^ 9.
Definition loginThrottleSize : Z := 4096.
Definition maxSecondFactorFailures : Z := 10.
Definition secondFactorLockout : Z := 15 * 60 * 10 ^ 9.
Definition maxUsernameLength : Z := 256.

Record attempts := mkAttempts { a_failures : Z; a_last : Time }.

(** [loginThrottle] *)
Record Throttle (C : Type) := mkThrottle { cache : C; secondFactor : gmap string attempts }.
Arguments mkThrottle {C} _ _. Arguments cache {C} _. Arguments secondFactor {C} _.

Section throttle.
  Context {C : Type} `{LRU attempts C}.

Definition newLoginThrottle : Throttle C := mkThrottle (lru_New loginThrottleSize) ∅.
Definition set_cache (c : C) (t : Throttle C) : Throttle C := mkThrottle c (secondFactor t).

(** [failures]: the failed attempts that still count. *)
Definition failures (username : string) (now : Time) : M (Throttle C) Z := λ t,
  let '(record, c) := lru_Get username (cache t) in
  match record with
  | None => (Ok 0, set_cache c t)
  | Some r => if loginThrottleReset <? now - a_last r
              then (Ok 0, set_cache (lru_Remove username c) t) else (Ok (a_failures r), set_cache c t)
  end.

(** The wait doubles up to a cap; the loop runs [n] times more at most. *)
Fixpoint doubled (n : nat) (delay : Z) : Z :=
  match n with
  | O => delay
  | S n' => let delay := delay * 2 in if loginThrottleMax <=? delay then loginThrottleMax else doubled n' delay
  end.
Definition delay_after (failures : Z) : Z :=
  if failures =? 0 then 0 else doubled (Z.to_nat (failures - 1)) loginThrottleBase.
Definition delay (username : string) (now : Time) : M (Throttle C) Z :=
  let! n := failures username now in m_ret (delay_after n).

(** [wait]: how long the caller sleeps; the count is read once more for the log. *)
Definition wait (username : string) (now : Time) : M (Throttle C) Z :=
  let! d := delay username now in
  if 0 <? d then do! failures username now; m_ret d else m_ret 0.

Definition recordFailure (username : string) (now : Time) : M (Throttle C) unit := λ t,
  let '(record, c) := lru_Get username (cache t) in
  let r := match record with
           | Some r => if loginThrottleReset <? now - a_last r then mkAttempts 0 0 else r
           | None => mkAttempts 0 0
           end in
  (Ok tt, set_cache (lru_Add username (mkAttempts (a_failures r + 1) now) c) t).
Definition recordSuccess (username : string) : M (Throttle C) unit := λ t,
  (Ok tt, set_cache (lru_Remove username (cache t)) t).

(** ** The second step *)
Definition beginSecondFactor (username : string) (now : Time) : M (Throttle C) bool := λ t,
  let fresh := match secondFactor t !! username with
               | None => true
               | Some r => secondFactorLockout <? now - a_last r
               end in
  let r := if fresh then mkAttempts 0 0 else default (mkAttempts 0 0) (secondFactor t !! username) in
  let m := if fresh then <[username := r]> (secondFactor t) else secondFactor t in
  if maxSecondFactorFailures <=? a_failures r then (Ok false, mkThrottle (cache t) m)
  else (Ok true, mkThrottle (cache t) (<[username := mkAttempts (a_failures r + 1) now]> m)).
Definition secondFactorSucceeded (username : string) : M (Throttle C) unit := λ t,
  (Ok tt, mkThrottle (cache t) (delete username (secondFactor t))).
End throttle.

(** ** Lemmas *)
Lemma doubled_min n d : 0 < d → doubled n d = if decide (n = O) then d else Z.min loginThrottleMax (d * 2 ^ Z.of_nat n).
Proof.
  revert d. induction n as [|n IH]; intros d Hd; [done|]. cbn [doubled]. rewrite decide_False by done.
  assert (2 ^ Z.of_nat (S n) = 2 * 2 ^ Z.of_nat n) as -> by (rewrite Nat2Z.inj_succ, Z.pow_succ_r; lia).
  assert (0 < 2 ^ Z.of_nat n) by lia.
  destruct (Z.leb_spec loginThrottleMax (d * 2)); [rewrite Z.min_l; nia|].
  rewrite IH by lia. destruct (decide (n = O)) as [->|]; [simpl; lia|]. f_equal. lia.
Qed.

Section lemmas.
  Context {C : Type} `{LRU attempts C}.
  Implicit Types (t : Throttle C).

(** The failed attempts of a name that still count. *)
Definition counted (username : string) (now : Time) t : Z :=
  match kept (cache t) !! username with
  | Some r => if loginThrottleReset <? now - a_last r then 0 else a_failures r
  | None => 0
  end.
Lemma failures_run username now t : ∃ t', failures username now t = (Ok (counted username now t), t') ∧
  kept (cache t') ⊆ kept (cache t) ∧ counted username now t' = counted username now t ∧
  secondFactor t' = secondFactor t ∧ (∀ name, name ≠ username → kept (cache t') !! name = kept (cache t) !! name).
Proof.
  unfold failures, counted. destruct (lru_Get username (cache t)) as [record c] eqn:E. destruct (lru_lookup _ _ _ _ E) as [Hr Hc]. rewrite <- Hr.
  destruct record as [r|]; [destruct (_ <? _) eqn:Er|]; eexists; (split; [reflexivity|]); simpl; rewrite ?lru_remove, ?Hc.
  - split_and!; [apply delete_subseteq|by rewrite lookup_delete_eq|done|]. intros. by apply lookup_delete_ne.
  - split_and!; [done| |done..]. by rewrite <- Hr, Er.
  - split_and!; [done| |done..]. by rewrite <- Hr.
Qed.
Lemma delay_run username now t : ∃ t', delay username now t = (Ok (delay_after (counted username now t)), t') ∧
  counted username now t' = counted username now t ∧ secondFactor t' = secondFactor t.
Proof.
  destruct (failures_run username now t) as (t' & E & _ & Hc & Hs & _). exists t'. unfold delay, m_bind. by rewrite E.
Qed.
Lemma delay_after_nonneg n : 0 <= delay_after n.
Proof.
  unfold delay_after. destruct (n =? 0); [done|]. rewrite doubled_min by done.
  destruct (decide _); [done|]. unfold loginThrottleMax. apply Z.min_glb; [done|].
  apply Z.mul_nonneg_nonneg; [done|]. by apply Z.pow_nonneg.
Qed.
Lemma wait_run username now t : ∃ t', wait username now t = (Ok (delay_after (counted username now t)), t') ∧
  secondFactor t' = secondFactor t.
Proof.
  unfold wait, m_bind. destruct (delay_run username now t) as (t1 & -> & Hc & Hs).
  pose proof (delay_after_nonneg (counted username now t)).
  destruct (Z.ltb_spec 0 (delay_after (counted username now t))).
  - destruct (failures_run username now t1) as (t2 & -> & _ & _ & Hs2 & _). exists t2. split; [done|]. by rewrite Hs2.
  - exists t1. split; [|done]. unfold m_ret. do 2 f_equal. lia.
Qed.
Lemma recordFailure_run username now t : ∃ t', recordFailure username now t = (Ok tt, t') ∧
  kept (cache t') !! username = Some (mkAttempts (counted username now t + 1) now) ∧
  kept (cache t') ⊆ <[username := mkAttempts (counted username now t + 1) now]> (kept (cache t)) ∧
  secondFactor t' = secondFactor t.
Proof.
  unfold recordFailure. destruct (lru_Get username (cache t)) as [record c] eqn:E. destruct (lru_lookup _ _ _ _ E) as [Hr Hc].
  set (r := match record with Some _ => _ | None => _ end).
  assert (a_failures r = counted username now t) as ->.
  { unfold counted, r. rewrite <- Hr. destruct record as [x|]; [|done]. by destruct (_ <? _). }
  eexists. split; [done|]. simpl. rewrite <- Hc. split; [|split; [|done]]; apply lru_add.
Qed.

(** The limit of the second step is one of [Limiter.v]. *)
Definition answers_of t : gmap string (Z * Time) := (λ r, (a_failures r, a_last r)) <$> secondFactor t.
Lemma beginSecondFactor_reserve username now t :
  (beginSecondFactor username now t).1 = Ok (reserve maxSecondFactorFailures secondFactorLockout username now (answers_of t)).1 ∧
  answers_of (beginSecondFactor username now t).2 =
    (reserve maxSecondFactorFailures secondFactorLockout username now (answers_of t)).2.
Proof.
  unfold beginSecondFactor, reserve, answers_of, standing. rewrite lookup_fmap.
  destruct (secondFactor t !! username) as [r|] eqn:Er; simpl.
  - destruct (_ <? _); cbn [fst snd a_failures].
    + simpl. by rewrite !fmap_insert, insert_insert_eq.
    + destruct (_ <=? _); simpl; rewrite ?fmap_insert; [|done]. split; [done|]. symmetry. apply insert_id.
      by rewrite lookup_fmap, Er.
  - by rewrite !fmap_insert, insert_insert_eq.
Qed.
End lemmas.
