(* ===== verification/InMemory.v ===== *)
(** * internal/storage/inmemory.go: the in-memory backend

    [InMemoryStorage] with every operation of the interface [Storage]
    ([inmemory.go], [utils.go], the in-memory halves of [sessions.go],
    [tokens.go] and [passkeys.go], and [inprocesswatcher.go] as the log of
    emitted events). The theorems of [InMemoryLaws.v] say that it keeps the
    contract. The locks are not part of the state: every operation is one
    critical section. *)
From S2P Require Import Prelude GoText GoQuote Storage.

Record InMemoryStorage := mkMem {
  db : gmap string Device;
  m_tokens : gmap string APIToken;
  m_users : gmap string User;
  m_sessions : gmap string Session;
  m_passkeys : gmap string Passkey;
  log : list Event }.

Definition NewMemoryStorage : InMemoryStorage := mkMem ∅ ∅ ∅ ∅ ∅ [].

Definition set_db (f : gmap string Device → gmap string Device) (s : InMemoryStorage) :=
  mkMem (f (db s)) (m_tokens s) (m_users s) (m_sessions s) (m_passkeys s) (log s).
Definition set_tokens (f : gmap string APIToken → gmap string APIToken) (s : InMemoryStorage) :=
  mkMem (db s) (f (m_tokens s)) (m_users s) (m_sessions s) (m_passkeys s) (log s).
Definition set_users (f : gmap string User → gmap string User) (s : InMemoryStorage) :=
  mkMem (db s) (m_tokens s) (f (m_users s)) (m_sessions s) (m_passkeys s) (log s).
Definition set_sessions (f : gmap string Session → gmap string Session) (s : InMemoryStorage) :=
  mkMem (db s) (m_tokens s) (m_users s) (f (m_sessions s)) (m_passkeys s) (log s).
Definition set_passkeys (f : gmap string Passkey → gmap string Passkey) (s : InMemoryStorage) :=
  mkMem (db s) (m_tokens s) (m_users s) (m_sessions s) (f (m_passkeys s)) (log s).

(** [EmitAdd], [EmitUpdate], [EmitDelete]: the callbacks get the event. *)
Definition emit (e : Event) : M InMemoryStorage unit :=
  m_modify (λ s, mkMem (db s) (m_tokens s) (m_users s) (m_sessions s) (m_passkeys s) (log s ++ [e])).

Section inmemory.
  Context `{UnicodeTables}.

(** ** utils.go *)
Definition keyStr (owner name : string) : string := Quote owner +:+ "/" +:+ Quote name.
Definition key (d : Device) : string := keyStr (Device.Owner d) (Device.Name d).

(** ** Devices *)
(** Another stored device has the public key. *)
Definition public_key_taken (k : string) (publicKey : string) (s : InMemoryStorage) : bool :=
  bool_decide (map_Exists (λ storedKey stored,
    Device.PublicKey stored = publicKey ∧ storedKey ≠ k) (db s)).

Definition mem_Save (device : Device) : M InMemoryStorage unit := λ s,
  if negb (String.eqb (Device.PublicKey device) "")
     && public_key_taken (key device) (Device.PublicKey device) s
  then (Err (PlainError "public key is already in use by another device"), s)
  else (do! m_modify (set_db <[key device := device]>); emit (EvAdd device)) s.

(** The loop over the updates: [byPublicKey] maps a public key to where its
    device is stored, and the device is changed in place. *)
Definition record_one (byPublicKey : gmap string string) (m : gmap string Device)
    (update : MetadataUpdate) : gmap string Device :=
  match byPublicKey !! mu_PublicKey update with
  | None => m
  | Some k => alter (λ d, apply_update d update) k m
  end.
Definition by_public_key (m : gmap string Device) : gmap string string :=
  list_to_map ((λ kd, (Device.PublicKey kd.2, kd.1)) <$> reverse (map_to_list m)).
Definition mem_RecordMetadata (updates : list MetadataUpdate) : M InMemoryStorage unit :=
  m_modify (λ s, set_db (λ m, fold_left (record_one (by_public_key m)) updates m) s).

Definition all_devices (s : InMemoryStorage) : list Device := (map_to_list (db s)).*2.
Definition mem_Addresses : M InMemoryStorage (list string) :=
  m_gets (λ s, Device.Address <$> all_devices s).

Definition list_ (username : string) (s : InMemoryStorage) : list Device :=
  filter (λ d, username = "" ∨ Device.Owner d = username) (all_devices s).
Definition mem_List (username : string) : M InMemoryStorage (list Device) := m_gets (list_ username).

Definition no_device {A} : M InMemoryStorage A := m_fail (PlainError "device doesn't exist").

Definition mem_Get (owner name : string) : M InMemoryStorage Device := λ s,
  match db s !! keyStr owner name with
  | Some device => (Ok device, s)
  | None => no_device s
  end.

Definition mem_GetByPublicKey (publicKey : string) : M InMemoryStorage Device := λ s,
  match filter (λ d, Device.PublicKey d = publicKey) (list_ "" s) with
  | device :: _ => (Ok device, s)
  | [] => no_device s
  end.

Definition mem_Delete (device : Device) : M InMemoryStorage unit :=
  do! m_modify (set_db (delete (key device))); emit (EvDelete device).

Definition rename (device : Device) (newName : string) : M InMemoryStorage Device := λ s,
  match db s !! key device with
  | None => no_device s
  | Some stored =>
      let renamed := Device.with_Name newName stored in
      (Ok renamed, set_db (λ m, <[key renamed := renamed]> (delete (key stored) m)) s)
  end.
Definition mem_Rename (device : Device) (newName : string) : M InMemoryStorage Device :=
  let! renamed := rename device newName in
  do! emit (EvUpdate renamed); m_ret renamed.

(** The changes that replace the stored device under its key. *)
Definition setAccess (device : Device) (disabled : bool) (expiresAt : option Time) :
    M InMemoryStorage Device := λ s,
  match db s !! key device with
  | None => no_device s
  | Some stored =>
      let changed := Device.with_Access disabled expiresAt stored in
      (Ok changed, set_db <[key changed := changed]> s)
  end.
Definition mem_SetAccess device disabled expiresAt : M InMemoryStorage Device :=
  let! changed := setAccess device disabled expiresAt in
  do! emit (EvUpdate changed); m_ret changed.

Definition setRoutes (device : Device) (routes : string) : M InMemoryStorage Device := λ s,
  match db s !! key device with
  | None => no_device s
  | Some stored =>
      let changed := Device.with_Routes routes stored in
      (Ok changed, set_db <[key changed := changed]> s)
  end.
Definition mem_SetRoutes device routes : M InMemoryStorage Device :=
  let! changed := setRoutes device routes in
  do! emit (EvUpdate changed); m_ret changed.

Definition setKeys (device : Device) (publicKey presharedKey : string) : M InMemoryStorage Device := λ s,
  match db s !! key device with
  | None => no_device s
  | Some stored =>
      if public_key_taken (key device) publicKey s
      then (Err (PlainError "another device already uses this public key"), s)
      else
        let changed := Device.with_Keys publicKey presharedKey stored in
        (Ok changed, set_db <[key changed := changed]> s)
  end.
Definition mem_SetKeys device publicKey presharedKey : M InMemoryStorage Device :=
  let! changed := setKeys device publicKey presharedKey in
  do! emit (EvUpdate changed); m_ret changed.

Definition deleteForOwner (owner : string) : M InMemoryStorage (list Device) := λ s,
  (Ok (filter (λ d, Device.Owner d = owner) (all_devices s)),
   set_db (filter (λ kd, Device.Owner kd.2 ≠ owner)) s).
Definition mem_DeleteForOwner (owner : string) : M InMemoryStorage (list Device) :=
  let! deleted := deleteForOwner owner in
  do! m_for (λ d, emit (EvDelete d)) deleted; m_ret deleted.

Definition block (d : Device) : Device := Device.with_Access true (Device.ExpiresAt d) d.
Definition blockForOwner (owner : string) : M InMemoryStorage (list Device) := λ s,
  (Ok (block <$> filter (λ d, Device.Owner d = owner ∧ Device.Disabled d = false) (all_devices s)),
   set_db (fmap (λ d, if bool_decide (Device.Owner d ≠ owner) || Device.Disabled d then d else block d)) s).
Definition mem_BlockForOwner (owner : string) : M InMemoryStorage (list Device) :=
  let! blocked := blockForOwner owner in
  do! m_for (λ d, emit (EvUpdate d)) blocked; m_ret blocked.

(** [WithAllocationLock]: the lock of this process, which can always be had. *)
Definition mem_AllocationLock : M InMemoryStorage unit := m_ret tt.

(** ** Users *)
Definition no_user {A} (subject : string) : M InMemoryStorage A :=
  m_fail (PlainError ("user '" +:+ subject +:+ "' does not exist")).

(** What [SaveUser] stores: the password and the second factor of a user who
    is already known stay when the new record has none. *)
Definition merge_user (previous : option User) (user : User) : User :=
  match previous with
  | None => user
  | Some previous =>
      let stored :=
        if String.eqb (User.PasswordHash user) ""
        then User.with_Password (User.PasswordHash previous) (User.PasswordFrom previous) user
        else user in
      if String.eqb (User.TotpSecret stored) ""
      then User.with_TOTP (mkTOTP (User.TotpSecret previous) (User.TotpEnabledAt previous)
             (User.TotpRecovery previous) (User.TotpLastStep stored)) stored
      else stored
  end.
Definition mem_SaveUser (user : User) : M InMemoryStorage unit :=
  m_modify (λ s, set_users <[User.Subject user := merge_user (m_users s !! User.Subject user) user]> s).

(** The changes to a user who has to exist. *)
Definition change_user (subject : string) (f : User → User) : M InMemoryStorage unit := λ s,
  match m_users s !! subject with
  | None => no_user subject s
  | Some user => (Ok tt, set_users <[subject := f user]> s)
  end.
Definition mem_SetUserTOTP (subject : string) (state : TOTPState) : M InMemoryStorage unit :=
  change_user subject (User.with_TOTP state).
Definition mem_SetUserPassword (subject hash from : string) : M InMemoryStorage unit :=
  change_user subject (User.with_Password hash from).
Definition mem_SetWebauthnChallenge (subject data : string) (until : option Time) :
    M InMemoryStorage unit :=
  change_user subject (User.with_Challenge data until).

Definition mem_GetUser (subject : string) : M InMemoryStorage User := λ s,
  match m_users s !! subject with
  | None => (Err (SentinelError ErrUserNotFound), s)
  | Some user => (Ok user, s)
  end.
Definition mem_Users : M InMemoryStorage (list User) := m_gets (λ s, (map_to_list (m_users s)).*2).

Definition mem_DeleteUser (subject : string) : M InMemoryStorage unit :=
  do! m_modify (set_users (delete subject));
  m_modify (set_passkeys (filter (λ ip, Passkey.Owner ip.2 ≠ subject))).

(** ** sessions.go *)
Definition session_hash_taken (id hash : string) (s : InMemoryStorage) : bool :=
  bool_decide (map_Exists (λ _ stored, Session.Hash stored = hash ∧ Session.ID stored ≠ id) (m_sessions s)).
Definition mem_SaveSession (session : Session) : M InMemoryStorage unit := λ s,
  if session_hash_taken (Session.ID session) (Session.Hash session) s
  then (Err (PlainError "a session with this hash already exists"), s)
  else (Ok tt, set_sessions <[Session.ID session := session]> s).

Definition all_sessions (s : InMemoryStorage) : list Session := (map_to_list (m_sessions s)).*2.
Definition mem_GetSessionByHash (hash : string) : M InMemoryStorage Session := λ s,
  match filter (λ x, Session.Hash x = hash) (all_sessions s) with
  | found :: _ => (Ok found, s)
  | [] => (Err (SentinelError ErrSessionNotFound), s)
  end.

(** [sort.Slice], newest first; the order of equals is not specified. *)
Definition newest_first (a b : Session) : Prop := Session.CreatedAt b <= Session.CreatedAt a.
#[export] Instance newest_first_dec a b : Decision (newest_first a b).
Proof. unfold newest_first. apply _. Defined.
Definition mem_ListSessions (owner : string) : M InMemoryStorage (list Session) :=
  m_gets (λ s, merge_sort newest_first (filter (λ x, Session.Owner x = owner) (all_sessions s))).

Definition mem_TouchSession (id : string) (at_ : Time) : M InMemoryStorage unit := λ s,
  match m_sessions s !! id with
  | None => (Err (SentinelError ErrSessionNotFound), s)
  | Some _ => (Ok tt, set_sessions (alter (Session.with_LastSeenAt at_) id) s)
  end.
Definition mem_DeleteSession (id : string) : M InMemoryStorage unit :=
  m_modify (set_sessions (delete id)).

Definition mem_DeleteSessionsForOwner (owner : string) : M InMemoryStorage Z := λ s,
  (Ok (Z.of_nat (size (filter (λ ix, Session.Owner ix.2 = owner) (m_sessions s)))),
   set_sessions (filter (λ ix, Session.Owner ix.2 ≠ owner)) s).
Definition mem_DeleteExpiredSessions (now : Time) : M InMemoryStorage Z := λ s,
  (Ok (Z.of_nat (size (filter (λ ix, Session.Expired ix.2 now = true) (m_sessions s)))),
   set_sessions (filter (λ ix, Session.Expired ix.2 now = false)) s).

(** ** tokens.go *)
Definition token_hash_taken (id hash : string) (s : InMemoryStorage) : bool :=
  bool_decide (map_Exists (λ _ stored, APIToken.Hash stored = hash ∧ APIToken.ID stored ≠ id) (m_tokens s)).
Definition mem_SaveToken (token : APIToken) : M InMemoryStorage unit := λ s,
  if token_hash_taken (APIToken.ID token) (APIToken.Hash token) s
  then (Err (PlainError "an api token with this hash already exists"), s)
  else (Ok tt, set_tokens <[APIToken.ID token := token]> s).

Definition all_tokens (s : InMemoryStorage) : list APIToken := (map_to_list (m_tokens s)).*2.
Definition oldest_first (a b : APIToken) : Prop := APIToken.CreatedAt a <= APIToken.CreatedAt b.
#[export] Instance oldest_first_dec a b : Decision (oldest_first a b).
Proof. unfold oldest_first. apply _. Defined.
Definition mem_ListTokens (owner : string) : M InMemoryStorage (list APIToken) :=
  m_gets (λ s, merge_sort oldest_first (filter (λ x, owner = "" ∨ APIToken.Owner x = owner) (all_tokens s))).

Definition mem_GetToken (id : string) : M InMemoryStorage APIToken := λ s,
  match m_tokens s !! id with
  | Some token => (Ok token, s)
  | None => (Err (SentinelError ErrTokenNotFound), s)
  end.
Definition mem_GetTokenByHash (hash : string) : M InMemoryStorage APIToken := λ s,
  match filter (λ x, APIToken.Hash x = hash) (all_tokens s) with
  | token :: _ => (Ok token, s)
  | [] => (Err (SentinelError ErrTokenNotFound), s)
  end.
Definition mem_TouchToken (id : string) (at_ : Time) : M InMemoryStorage unit :=
  m_modify (set_tokens (alter (APIToken.with_LastUsedAt at_) id)).
Definition mem_DeleteToken (id : string) : M InMemoryStorage unit := λ s,
  match m_tokens s !! id with
  | None => (Err (SentinelError ErrTokenNotFound), s)
  | Some _ => (Ok tt, set_tokens (delete id) s)
  end.
Definition mem_DeleteTokensForOwner (owner : string) : M InMemoryStorage Z := λ s,
  (Ok (Z.of_nat (size (filter (λ ix, APIToken.Owner ix.2 = owner) (m_tokens s)))),
   set_tokens (filter (λ ix, APIToken.Owner ix.2 ≠ owner)) s).

(** ** passkeys.go *)
Definition no_passkey {A} : M InMemoryStorage A := m_fail (SentinelError ErrPasskeyNotFound).

Definition mem_AddPasskey (passkey : Passkey) : M InMemoryStorage unit := λ s,
  match m_passkeys s !! Passkey.ID passkey with
  | Some _ => (Err (SentinelError StoragePasskeyExists), s)
  | None => (Ok tt, set_passkeys <[Passkey.ID passkey := passkey]> s)
  end.

(** Run a change on a credential of its owner; anybody else's is missing. *)
Definition of_owner (owner id : string) (k : Passkey → InMemoryStorage → InMemoryStorage) :
    M InMemoryStorage unit := λ s,
  match m_passkeys s !! id with
  | Some existing => if bool_decide (Passkey.Owner existing ≠ owner) then no_passkey s
                     else (Ok tt, k existing s)
  | None => no_passkey s
  end.
Definition mem_UpdatePasskey (passkey : Passkey) : M InMemoryStorage unit :=
  of_owner (Passkey.Owner passkey) (Passkey.ID passkey)
    (λ _, set_passkeys <[Passkey.ID passkey := passkey]>).
Definition mem_RenamePasskey (owner id name : string) : M InMemoryStorage unit :=
  of_owner owner id (λ existing, set_passkeys <[id := Passkey.with_Name name existing]>).
Definition mem_DeletePasskey (owner id : string) : M InMemoryStorage unit :=
  of_owner owner id (λ _, set_passkeys (delete id)).

(** [sortPasskeys]: the inner loop moves one element towards the front past
    every older one; [before] is the sorted part, nearest element first. *)
Fixpoint sift (x : Passkey) (before : list Passkey) : list Passkey :=
  match before with
  | y :: before' => if Passkey.CreatedAt y <? Passkey.CreatedAt x then y :: sift x before'
                    else x :: before
  | [] => [x]
  end.
Definition sortPasskeys (l : list Passkey) : list Passkey :=
  rev (fold_left (λ before x, sift x before) l []).

Definition mem_ListPasskeys (owner : string) : M InMemoryStorage (list Passkey) :=
  m_gets (λ s, sortPasskeys (filter (λ p, Passkey.Owner p = owner) (map_to_list (m_passkeys s)).*2)).
Definition mem_GetPasskey (id : string) : M InMemoryStorage Passkey := λ s,
  match m_passkeys s !! id with
  | Some p => (Ok p, s)
  | None => no_passkey s
  end.

#[export] Instance InMemory_Storage : Storage InMemoryStorage := {
  Save := mem_Save; RecordMetadata := mem_RecordMetadata; Rename := mem_Rename;
  SetAccess := mem_SetAccess; SetRoutes := mem_SetRoutes; SetKeys := mem_SetKeys;
  List_ := mem_List; Addresses := mem_Addresses; Get := mem_Get;
  GetByPublicKey := mem_GetByPublicKey; Delete := mem_Delete;
  DeleteForOwner := mem_DeleteForOwner; BlockForOwner := mem_BlockForOwner;
  AllocationLock := mem_AllocationLock; SaveUser := mem_SaveUser; GetUser := mem_GetUser; Users := mem_Users;
  DeleteUser := mem_DeleteUser; SetUserPassword := mem_SetUserPassword;
  SetUserTOTP := mem_SetUserTOTP;
  SaveSession := mem_SaveSession; GetSessionByHash := mem_GetSessionByHash;
  ListSessions := mem_ListSessions; TouchSession := mem_TouchSession;
  DeleteSession := mem_DeleteSession; DeleteSessionsForOwner := mem_DeleteSessionsForOwner;
  DeleteExpiredSessions := mem_DeleteExpiredSessions;
  SaveToken := mem_SaveToken; ListTokens := mem_ListTokens; GetToken := mem_GetToken;
  GetTokenByHash := mem_GetTokenByHash; TouchToken := mem_TouchToken;
  DeleteToken := mem_DeleteToken; DeleteTokensForOwner := mem_DeleteTokensForOwner;
  AddPasskey := mem_AddPasskey; UpdatePasskey := mem_UpdatePasskey;
  RenamePasskey := mem_RenamePasskey; ListPasskeys := mem_ListPasskeys;
  GetPasskey := mem_GetPasskey; DeletePasskey := mem_DeletePasskey;
  SetWebauthnChallenge := mem_SetWebauthnChallenge;
  emitted := log }.
End inmemory.
