(* ===== verification/InMemoryLaws.v ===== *)
(** * The in-memory backend keeps the contract of the storage

    The abstraction of [InMemoryStorage] to the tables of [Storage.Abs], that
    no device can be stored under another device's key, and the instance of
    [StorageLaws]: every operation of the backend does what its law says. *)
From S2P Require Import Prelude GoText GoQuote Storage InMemory.

Section laws.
  Context `{UnicodeTables}.

(** ** Keys *)
Lemma keyStr_inj o1 n1 o2 n2 : keyStr o1 n1 = keyStr o2 n2 → o1 = o2 ∧ n1 = n2.
Proof.
  intros E. apply (f_equal bytes) in E. unfold keyStr in E. rewrite !bytes_app in E.
  assert (∀ s, bytes (Quote s) = dquote :: drop 1 (bytes (Quote s))) as Hq.
  { intros s. unfold Quote. rewrite bytes_of_bytes. simpl. by rewrite drop_0. }
  rewrite (Hq o1), (Hq o2), <- !app_comm_cons in E.
  apply (f_equal tail) in E. cbn [tail] in E.
  apply (f_equal unquote) in E. rewrite !unquote_Quote in E. apply (inj Some) in E. apply pair_equal_spec in E as [E1 E2].
  split; [by apply bytes_inj|].
  apply (f_equal tail) in E2. change (bytes "/") with ["/"%char] in E2. cbn [tail app] in E2.
  rewrite (Hq n1), (Hq n2) in E2. apply (f_equal tail) in E2. cbn [tail] in E2.
  assert (unquote (drop 1 (bytes (Quote n1)) ++ []) = unquote (drop 1 (bytes (Quote n2)) ++ [])) as E3
    by (rewrite !app_nil_r; congruence).
  rewrite !unquote_Quote in E3. injection E3 as E3. by apply bytes_inj.
Qed.

Definition keyed (m : gmap string Device) : Prop := ∀ k d, m !! k = Some d → key d = k.

Lemma key_eq d1 d2 : key d1 = key d2 ↔ Device.key d1 = Device.key d2.
Proof.
  unfold key, Device.key. split; [intros [? ?]%keyStr_inj; congruence|]. by intros [= -> ->].
Qed.

Definition devs (m : gmap string Device) : gmap (string * string) Device :=
  list_to_map ((λ d, (Device.key d, d)) <$> (map_to_list m).*2).

Lemma devs_keys_NoDup m : keyed m →
  NoDup (((λ d, (Device.key d, d)) <$> (map_to_list m).*2).*1).
Proof.
  intros Hk. rewrite <- !list_fmap_compose. apply NoDup_fmap_2_strong.
  - intros [k1 d1] [k2 d2] H1%elem_of_map_to_list H2%elem_of_map_to_list E. simpl in E.
    assert (k1 = k2) as ->.
    { rewrite <- (Hk _ _ H1), <- (Hk _ _ H2). by apply key_eq. }
    by simplify_map_eq.
  - apply NoDup_map_to_list.
Qed.

Lemma devs_rows m : keyed m → (map_to_list (devs m)).*2 ≡ₚ (map_to_list m).*2.
Proof.
  intros Hk. unfold devs. rewrite map_to_list_to_map by by apply devs_keys_NoDup.
  rewrite <- list_fmap_compose. by rewrite (list_fmap_ext _ id), list_fmap_id by done.
Qed.

Lemma devs_lookup m k d : keyed m → devs m !! k = Some d ↔ m !! keyStr k.1 k.2 = Some d ∧ Device.key d = k.
Proof.
  intros Hk. unfold devs. rewrite <- elem_of_list_to_map by by apply devs_keys_NoDup.
  rewrite list_elem_of_fmap. split.
  - intros (d' & [= -> ->] & ([k' d''] & -> & Hin)%list_elem_of_fmap).
    apply elem_of_map_to_list in Hin. split; [|done]. simpl in *.
    by rewrite <- (Hk _ _ Hin) in Hin.
  - intros [Hl <-]. exists d. split; [done|]. apply list_elem_of_fmap.
    eexists (_, _). split; [done|]. by apply elem_of_map_to_list.
Qed.

Lemma devs_lookup_key m d : keyed m → devs m !! Device.key d = m !! key d.
Proof.
  intros Hk. apply option_eq. intros d'. rewrite devs_lookup by done. simpl. fold (key d).
  split; [naive_solver|]. intros Hl. split; [done|]. apply key_eq. by apply Hk.
Qed.

Lemma devs_lookup_pair m o n : keyed m → devs m !! (o, n) = m !! keyStr o n.
Proof.
  intros Hk. apply option_eq. intros d'. rewrite devs_lookup by done. simpl.
  split; [naive_solver|]. intros Hl. split; [done|].
  apply Hk, keyStr_inj in Hl as [<- <-]. done.
Qed.

Lemma keyed_insert m d : keyed m → keyed (<[key d := d]> m).
Proof. intros Hk k d' [[<- <-]|[_ ?]]%lookup_insert_Some; [done|by apply Hk]. Qed.
Lemma keyed_delete m k : keyed m → keyed (delete k m).
Proof. intros Hk k' d [_ ?]%lookup_delete_Some. by apply Hk. Qed.
Lemma keyed_filter m (P : string * Device → Prop) `{∀ x, Decision (P x)} : keyed m → keyed (filter P m).
Proof. intros Hk k d [? _]%map_lookup_filter_Some. by apply Hk. Qed.
Lemma keyed_fmap m f : (∀ d, Device.key (f d) = Device.key d) → keyed m → keyed (f <$> m).
Proof.
  intros Hf Hk k d Hl. rewrite lookup_fmap in Hl. apply fmap_Some in Hl as (d' & Hl & ->).
  rewrite <- (Hk _ _ Hl). by apply key_eq.
Qed.

Lemma devs_insert m d : keyed m → devs (<[key d := d]> m) = <[Device.key d := d]> (devs m).
Proof.
  intros Hk. apply map_eq. intros [o n]. rewrite devs_lookup_pair by by apply keyed_insert.
  destruct (decide (Device.key d = (o, n))) as [E|Hne].
  - unfold Device.key in E. injection E as <- <-. fold (key d) (Device.key d).
    by rewrite !lookup_insert_eq.
  - rewrite !lookup_insert_ne; [by rewrite devs_lookup_pair|done|].
    intros [E1 E2]%keyStr_inj. apply Hne. unfold Device.key. congruence.
Qed.

Lemma devs_delete m d : keyed m → devs (delete (key d) m) = delete (Device.key d) (devs m).
Proof.
  intros Hk. apply map_eq. intros [o n]. rewrite devs_lookup_pair by by apply keyed_delete.
  destruct (decide (Device.key d = (o, n))) as [E|Hne].
  - unfold Device.key in E. injection E as <- <-. fold (key d) (Device.key d).
    by rewrite !lookup_delete_eq.
  - rewrite !lookup_delete_ne; [by rewrite devs_lookup_pair|done|].
    intros [E1 E2]%keyStr_inj. apply Hne. unfold Device.key. congruence.
Qed.

Lemma devs_filter m (R : Device → Prop) (P : string * Device → Prop)
    (Q : (string * string) * Device → Prop) `{∀ x, Decision (P x)} `{∀ x, Decision (Q x)} :
  (∀ k d, P (k, d) ↔ R d) → (∀ k d, Q (k, d) ↔ R d) → keyed m → devs (filter P m) = filter Q (devs m).
Proof.
  intros HP HQ Hk. apply map_eq. intros [o n]. rewrite devs_lookup_pair by by apply keyed_filter.
  apply option_eq. intros d. by rewrite !map_lookup_filter_Some, devs_lookup_pair, HP, HQ by done.
Qed.

Lemma devs_fmap m f : (∀ d, Device.key (f d) = Device.key d) → keyed m →
  devs (f <$> m) = f <$> devs m.
Proof.
  intros Hf Hk. apply map_eq. intros [o n]. rewrite devs_lookup_pair by by apply keyed_fmap.
  by rewrite !lookup_fmap, devs_lookup_pair.
Qed.

(** ** The abstraction *)
Definition mem_view (s : InMemoryStorage) : Abs :=
  mkAbs (devs (db s)) (m_users s) (m_sessions s) (m_tokens s) (m_passkeys s).
Definition mem_ok (s : InMemoryStorage) : Prop := keyed (db s) ∧ wf_abs (mem_view s).

Notation mquery := (query mem_view mem_ok).
Notation meffect := (effect mem_view mem_ok).

Lemma view_set_db f g s : devs (f (db s)) = g (devs (db s)) →
  mem_view (set_db f s) = on_devices g (mem_view s).
Proof. intros E. unfold mem_view, on_devices. simpl. by rewrite E. Qed.

(** A change of the devices that keeps them under their keys and the public
    keys unique keeps the storage in order. *)
Lemma ok_set_db f g s : mem_ok s → keyed (f (db s)) → devs (f (db s)) = g (devs (db s)) →
  pk_unique (g (devs (db s))) → mem_ok (set_db f s).
Proof.
  intros [Hk Hwf] Hk' E Hu. split; [done|]. rewrite (view_set_db f g) by done.
  apply wf_on_devices; [done| |done]. simpl. rewrite <- E.
  intros k d Hl. by apply devs_lookup in Hl as [_ ?].
Qed.

Lemma rows_filter (m : gmap string Device) (P : Device → Prop) `{∀ d, Decision (P d)} : keyed m →
  lists_rows (devs m) P (filter P (map_to_list m).*2).
Proof. intros Hk. unfold lists_rows. by rewrite devs_rows. Qed.

Lemma public_key_taken_false s k d : keyed (db s) →
  public_key_taken k (Device.PublicKey d) s = false → k = key d →
  key_free (devs (db s)) (Device.key d) (Device.PublicKey d).
Proof.
  intros Hk Ht -> k' d' Hl Hne Hpk. unfold public_key_taken in Ht.
  apply bool_decide_eq_false in Ht. apply Ht.
  apply devs_lookup in Hl as [Hl <-]; [|done]. eexists _, d'. split; [exact Hl|]. split; [done|].
  intros E. apply Hne. by apply key_eq.
Qed.

(** Emitting only adds to the log. *)
Lemma emit_view e s : ∃ s', emit e s = (Ok tt, s') ∧ mem_view s' = mem_view s ∧ db s' = db s ∧
  log s' = log s ++ [e].
Proof. by eexists. Qed.

Lemma emit_ok s s' : mem_view s' = mem_view s → db s' = db s → mem_ok s → mem_ok s'.
Proof. intros E1 E2 [? ?]. split; [by rewrite E2|by rewrite E1]. Qed.

Lemma emit_all (f : Device → Event) l s : ∃ s', m_for (λ d, emit (f d)) l s = (Ok tt, s') ∧
  mem_view s' = mem_view s ∧ db s' = db s ∧ log s' = log s ++ (f <$> l).
Proof.
  revert s. induction l as [|d l IH]; intros s; simpl.
  - exists s. by rewrite app_nil_r.
  - unfold m_bind at 1. destruct (emit_view (f d) s) as (s1 & -> & V1 & D1 & L1).
    destruct (IH s1) as (s2 & -> & V2 & D2 & L2). exists s2. split; [done|].
    rewrite V2, D2, L2, V1, D1, L1, <- app_assoc. done.
Qed.

(** An operation that changes the devices and then emits an update. *)
Lemma effect_then_emit {A} (m : M InMemoryStorage A) (f : A → Event) P :
  (∀ s r s', mem_ok s → m s = (r, s') → mem_ok s' ∧ log s' = log s ∧
     match r with Ok a => P (mem_view s) a (mem_view s') | Err _ => mem_view s' = mem_view s end) →
  meffect (let! a := m in do! emit (f a); m_ret a) (λ a r a' evs, P a r a' ∧ evs = [f r]).
Proof.
  intros Hm s r s' Hok E. unfold m_bind in E.
  destruct (m s) as [[a|e] s1] eqn:Em; apply Hm in Em as (Hok1 & Hlog & HP); [|done| |done].
  - destruct (emit_view (f a) s1) as (s2 & E2 & V & D & L). rewrite E2 in E. injection E as <- <-.
    split; [by eapply emit_ok|]. exists [f a]. simpl. rewrite V, L, Hlog. done.
  - injection E as <- <-. split; [done|]. simpl. by rewrite HP, Hlog.
Qed.

(** ** Devices *)
Lemma mem_law_Save d : meffect (mem_Save d) (λ a _ a' evs,
  (Device.PublicKey d ≠ "" → key_free (devices a) (Device.key d) (Device.PublicKey d)) ∧
  a' = on_devices <[Device.key d := d]> a ∧ evs = [EvAdd d]).
Proof.
  intros s r s' Hok E. unfold mem_Save in E. case_match eqn:Hg.
  { injection E as <- <-. done. }
  unfold m_bind, m_modify, emit in E. simpl in E. injection E as <- <-.
  destruct Hok as [Hk Hwf].
  assert (Device.PublicKey d ≠ "" → key_free (devs (db s)) (Device.key d) (Device.PublicKey d)) as Hf.
  { intros Hne. apply andb_false_iff in Hg as [Hg|Hg].
    - by apply negb_false_iff, String.eqb_eq in Hg.
    - by eapply public_key_taken_false. }
  set (s1 := set_db <[key d := d]> s).
  assert (mem_ok s1) as Hok1.
  { apply (ok_set_db _ <[Device.key d := d]>); [done|by apply keyed_insert|by apply devs_insert|].
    apply pk_unique_insert; [|done]. exact (wf_dev_pk _ Hwf). }
  split; [by apply (emit_ok s1)|]. exists [EvAdd d]. split; [|done]. split; [done|]. split; [|done].
  exact (view_set_db <[key d := d]> <[Device.key d := d]> s (devs_insert _ _ Hk)).
Qed.

Lemma mem_law_Delete d : meffect (mem_Delete d) (λ a _ a' evs,
  a' = on_devices (delete (Device.key d)) a ∧ evs = [EvDelete d]).
Proof.
  intros s r s' [Hk Hwf] E. unfold mem_Delete, m_bind, m_modify, emit in E. simpl in E.
  injection E as <- <-. set (s1 := set_db (delete (key d)) s).
  assert (mem_ok s1) as Hok1.
  { apply (ok_set_db _ (delete (Device.key d))); [done|by apply keyed_delete|by apply devs_delete|].
    eapply pk_unique_subseteq; [apply delete_subseteq|]. exact (wf_dev_pk _ Hwf). }
  split; [by apply (emit_ok s1)|]. exists [EvDelete d]. split; [|done]. split; [|done].
  exact (view_set_db (delete (key d)) (delete (Device.key d)) s (devs_delete _ _ Hk)).
Qed.

(** Replacing a stored device by one with the same key. *)
Lemma replace_stored s stored d f : mem_ok s → db s !! key d = Some stored →
  Device.key (f stored) = Device.key stored →
  (Device.PublicKey (f stored) ≠ "" →
     key_free (devs (db s)) (Device.key d) (Device.PublicKey (f stored))) →
  let s1 := set_db <[key (f stored) := f stored]> s in
  mem_ok s1 ∧ log s1 = log s ∧ devs (db s) !! Device.key d = Some stored ∧
  mem_view s1 = on_devices <[Device.key (f stored) := f stored]> (mem_view s).
Proof.
  intros [Hk Hwf] Hl Hkey Hf s1.
  assert (Device.key stored = Device.key d) as Hsd by (apply key_eq; by apply Hk).
  assert (devs (<[key (f stored) := f stored]> (db s)) =
    <[Device.key (f stored) := f stored]> (devs (db s))) as E by by apply devs_insert.
  split; [|split; [done|split]].
  - eapply ok_set_db; [done|by apply keyed_insert|exact E|].
    apply pk_unique_insert; [exact (wf_dev_pk _ Hwf)|]. rewrite Hkey, Hsd. exact Hf.
  - by rewrite devs_lookup_key.
  - by apply view_set_db.
Qed.

Lemma own_pk_free s d stored : mem_ok s → db s !! key d = Some stored →
  Device.PublicKey stored ≠ "" → key_free (devs (db s)) (Device.key d) (Device.PublicKey stored).
Proof.
  intros [Hk Hwf] Hl Hne. apply key_free_own; [exact (wf_dev_pk _ Hwf)| |done].
  by rewrite devs_lookup_key.
Qed.

(** The change of the stored device, as the contract puts it. *)
Lemma stored_change a d (f : Device → Device) r a' evs :
  wf_abs a → (∀ x, Device.key (f x) = Device.key x) →
  (∃ stored, devices a !! Device.key d = Some stored ∧ r = f stored ∧
     a' = on_devices <[Device.key r := r]> a ∧ evs = [EvUpdate r]) →
  ∃ stored, devices a !! Device.key d = Some stored ∧
    a' = on_devices <[Device.key d := f stored]> a ∧ (r = f stored ∨ r = f d) ∧ evs = [EvUpdate r].
Proof.
  intros Hwf Hf (stored & Hl & -> & -> & ->). exists stored. split; [done|].
  rewrite Hf, (wf_dev_key _ Hwf _ _ Hl). auto.
Qed.

(** An operation that replaces the stored device and emits an update. *)
Lemma change_law (m : M InMemoryStorage Device) d f :
  (∀ stored, Device.key (f stored) = Device.key stored ∧
             Device.PublicKey (f stored) = Device.PublicKey stored) →
  (∀ s, m s = match db s !! key d with
              | None => no_device s
              | Some stored => (Ok (f stored), set_db <[key (f stored) := f stored]> s)
              end) →
  changes_device mem_view mem_ok (let! a := m in do! emit (EvUpdate a); m_ret a) d f.
Proof.
  intros Hf Hm s r s' Hok E.
  destruct (effect_then_emit m EvUpdate (λ a r a', ∃ stored,
    devices a !! Device.key d = Some stored ∧ r = f stored ∧ a' = on_devices <[Device.key r := r]> a))
    with s r s' as [? HP]; [|done|exact E|].
  - clear - Hf Hm. intros s r s' Hok E. rewrite Hm in E.
    destruct (db s !! key d) as [stored|] eqn:Hl; [|by injection E as <- <-].
    injection E as <- <-. destruct (Hf stored) as [Hk Hpk].
    destruct (replace_stored s stored d f) as (? & ? & ? & ?); [done..| |eauto 10].
    rewrite Hpk. by apply own_pk_free.
  - split; [done|]. destruct r as [r|]; [|done]. destruct HP as (evs & HP & He). exists evs. split; [|done].
    apply stored_change; [apply Hok|intros x; apply Hf|]. naive_solver.
Qed.

Lemma mem_law_SetAccess d disabled expiresAt : changes_device mem_view mem_ok
  (mem_SetAccess d disabled expiresAt) d (Device.with_Access disabled expiresAt).
Proof. by apply change_law. Qed.

Lemma mem_law_SetRoutes d routes : changes_device mem_view mem_ok
  (mem_SetRoutes d routes) d (Device.with_Routes routes).
Proof. by apply change_law. Qed.

Lemma mem_law_SetKeys d pk psk : meffect (mem_SetKeys d pk psk) (λ a r a' evs,
  ∃ stored, devices a !! Device.key d = Some stored ∧ r = Device.with_Keys pk psk stored ∧
    key_free (devices a) (Device.key d) pk ∧
    a' = on_devices <[Device.key r := r]> a ∧ evs = [EvUpdate r]).
Proof.
  intros s r s' Hok E.
  destruct (effect_then_emit (setKeys d pk psk) EvUpdate (λ a r a', ∃ stored,
    devices a !! Device.key d = Some stored ∧ r = Device.with_Keys pk psk stored ∧
    key_free (devices a) (Device.key d) pk ∧ a' = on_devices <[Device.key r := r]> a))
    with s r s' as [? HP]; [|done|exact E|].
  - clear. intros s r s' Hok E. unfold setKeys in E.
    destruct (db s !! key d) as [stored|] eqn:Hl; [|by injection E as <- <-].
    case_match eqn:Ht; [by injection E as <- <-|]. injection E as <- <-.
    assert (key_free (devs (db s)) (Device.key d) pk) as Hfree.
    { apply (public_key_taken_false s (key d) (Device.with_Keys pk psk d)); [apply Hok|done|done]. }
    destruct (replace_stored s stored d (Device.with_Keys pk psk)) as (? & ? & ? & ?); [done..|].
    eauto 10.
  - split; [done|]. destruct r; [|done]. naive_solver.
Qed.

Lemma mem_law_Rename d newName : meffect (mem_Rename d newName) (λ a r a' evs,
  ∃ stored, devices a !! Device.key d = Some stored ∧ r = Device.with_Name newName stored ∧
    a' = on_devices (λ m, <[Device.key r := r]> (delete (Device.key d) m)) a ∧ evs = [EvUpdate r]).
Proof.
  intros s r s' Hok E.
  destruct (effect_then_emit (rename d newName) EvUpdate (λ a r a', ∃ stored,
    devices a !! Device.key d = Some stored ∧ r = Device.with_Name newName stored ∧
    a' = on_devices (λ m, <[Device.key r := r]> (delete (Device.key d) m)) a))
    with s r s' as [? HP]; [|done|exact E|].
  - clear. intros s r s' Hok E. unfold rename in E. pose proof Hok as [Hk Hwf].
    destruct (db s !! key d) as [stored|] eqn:Hl; [|by injection E as <- <-].
    injection E as <- <-. set (r := Device.with_Name newName stored).
    assert (Hsd : key stored = key d) by by apply Hk.
    assert (devs (<[key r := r]> (delete (key stored) (db s))) =
      <[Device.key r := r]> (delete (Device.key d) (devs (db s)))) as E.
    { rewrite devs_insert by by apply keyed_delete. rewrite devs_delete by done.
      by rewrite (proj1 (key_eq _ _) Hsd). }
    split; [|split; [done|]].
    + eapply (ok_set_db _ (λ m, <[Device.key r := r]> (delete (Device.key d) m)));
        [done|by apply keyed_insert, keyed_delete|exact E|].
      apply pk_unique_insert.
      * eapply pk_unique_subseteq; [apply delete_subseteq|exact (wf_dev_pk _ Hwf)].
      * intros Hne k' d' [Hk' Hl']%lookup_delete_Some _ Hpk.
        eapply (own_pk_free s d stored Hok Hl); [done|exact Hl'|done|done].
    + exists stored. split; [by rewrite <- devs_lookup_key in Hl|]. split; [done|].
      by apply view_set_db.
  - split; [done|]. destruct r; [|done]. naive_solver.
Qed.

(** An operation that changes devices and then emits an event for each. *)
Lemma effect_then_emit_all (m : M InMemoryStorage (list Device)) (f : Device → Event) P :
  (∀ s r s', mem_ok s → m s = (r, s') → mem_ok s' ∧ log s' = log s ∧
     match r with Ok l => P (mem_view s) l (mem_view s') | Err _ => mem_view s' = mem_view s end) →
  meffect (let! l := m in do! m_for (λ d, emit (f d)) l; m_ret l)
    (λ a l a' evs, P a l a' ∧ evs = f <$> l).
Proof.
  intros Hm s r s' Hok E. unfold m_bind in E.
  destruct (m s) as [[l|e] s1] eqn:Em; apply Hm in Em as (Hok1 & Hlog & HP); [|done| |done].
  - destruct (emit_all f l s1) as (s2 & E2 & V & D & L). rewrite E2 in E. injection E as <- <-.
    split; [by eapply emit_ok|]. exists (f <$> l). simpl. rewrite V, L, Hlog. done.
  - injection E as <- <-. split; [done|]. simpl. by rewrite HP, Hlog.
Qed.

Lemma mem_law_DeleteForOwner owner : meffect (mem_DeleteForOwner owner) (λ a l a' evs,
  lists_rows (devices a) (λ d, Device.Owner d = owner) l ∧
  a' = on_devices (filter (λ kd, Device.Owner kd.2 ≠ owner)) a ∧ evs = EvDelete <$> l).
Proof.
  intros s r s' Hok E.
  destruct (effect_then_emit_all (deleteForOwner owner) EvDelete (λ a l a',
    lists_rows (devices a) (λ d, Device.Owner d = owner) l ∧
    a' = on_devices (filter (λ kd, Device.Owner kd.2 ≠ owner)) a)) with s r s' as [? HP]; [|done|exact E|].
  - clear. intros s r s' Hok E. injection E as <- <-. pose proof Hok as [Hk Hwf].
    assert (devs (filter (λ kd, Device.Owner kd.2 ≠ owner) (db s)) =
      filter (λ kd, Device.Owner kd.2 ≠ owner) (devs (db s))) as E
      by by apply (devs_filter _ (λ d, Device.Owner d ≠ owner)).
    split; [|split; [done|split]].
    + eapply ok_set_db; [done|by apply keyed_filter|exact E|].
      eapply pk_unique_subseteq; [apply map_filter_subseteq|exact (wf_dev_pk _ Hwf)].
    + by apply rows_filter.
    + by apply view_set_db.
  - split; [done|]. destruct r; [|done]. naive_solver.
Qed.

Lemma mem_law_BlockForOwner owner : meffect (mem_BlockForOwner owner) (λ a l a' evs,
  (∃ l0, lists_rows (devices a) (λ d, Device.Owner d = owner ∧ Device.Disabled d = false) l0 ∧
     l = (λ d, Device.with_Access true (Device.ExpiresAt d) d) <$> l0) ∧
  a' = on_devices (fmap (λ d, if bool_decide (Device.Owner d = owner)
         then Device.with_Access true (Device.ExpiresAt d) d else d)) a ∧
  evs = EvUpdate <$> l).
Proof.
  intros s r s' Hok E.
  destruct (effect_then_emit_all (blockForOwner owner) EvUpdate (λ a l a',
    (∃ l0, lists_rows (devices a) (λ d, Device.Owner d = owner ∧ Device.Disabled d = false) l0 ∧
       l = (λ d, Device.with_Access true (Device.ExpiresAt d) d) <$> l0) ∧
    a' = on_devices (fmap (λ d, if bool_decide (Device.Owner d = owner)
         then Device.with_Access true (Device.ExpiresAt d) d else d)) a)) with s r s' as [? HP];
    [|done|exact E|].
  - clear. intros s r s' Hok E. injection E as <- <-. pose proof Hok as [Hk Hwf].
    set (f := λ d, if bool_decide (Device.Owner d ≠ owner) || Device.Disabled d then d else block d).
    assert (∀ d, f d = if bool_decide (Device.Owner d = owner)
         then Device.with_Access true (Device.ExpiresAt d) d else d) as Hf.
    { intros [] . unfold f, block. simpl. case_bool_decide as E1; case_bool_decide as E2; try done.
      simpl. by case_match; subst. }
    assert (∀ d, Device.key (f d) = Device.key d ∧ Device.PublicKey (f d) = Device.PublicKey d) as Hkey.
    { intros d. rewrite Hf. by case_match. }
    assert (devs (f <$> db s) = f <$> devs (db s)) as E by (apply devs_fmap; [apply Hkey|done]).
    split; [|split; [done|split]].
    + eapply ok_set_db; [done|apply keyed_fmap; [apply Hkey|done]|exact E|].
      apply pk_unique_fmap; [apply Hkey|exact (wf_dev_pk _ Hwf)].
    + eexists. split; [by apply rows_filter|done].
    + apply view_set_db. fold f. rewrite E. apply map_fmap_ext. intros ? d _. apply Hf.
  - split; [done|]. destruct r; [|done]. naive_solver.
Qed.

Lemma mem_law_List owner : mquery (mem_List owner) (λ a,
  on_ok (lists_rows (devices a) (λ d, owner = "" ∨ Device.Owner d = owner))).
Proof. intros s r s' [Hk _] [= <- <-]. split; [done|]. by apply rows_filter. Qed.

Lemma mem_law_Addresses : mquery mem_Addresses (λ a,
  on_ok (λ l, l ≡ₚ Device.Address <$> (map_to_list (devices a)).*2)).
Proof. intros s r s' [Hk _] [= <- <-]. split; [done|]. simpl. unfold all_devices. by rewrite devs_rows. Qed.

Lemma mem_law_Get owner name : mquery (mem_Get owner name) (λ a,
  on_ok (λ d, devices a !! (owner, name) = Some d)).
Proof.
  intros s r s' [Hk _] E. unfold mem_Get in E. case_match eqn:Hl; injection E as <- <-; [|done].
  split; [done|]. simpl. by rewrite devs_lookup_pair.
Qed.

Lemma filter_all {A} (P : A → Prop) `{∀ x, Decision (P x)} (l : list A) : (∀ x, P x) → filter P l = l.
Proof.
  intros HP. induction l as [|x l IH]; [done|]. rewrite filter_cons_True by done. by rewrite IH.
Qed.

Lemma filter_ext_in {A} (P Q : A → Prop) `{∀ x, Decision (P x)} `{∀ x, Decision (Q x)} (l : list A) :
  Forall (λ x, P x ↔ Q x) l → filter P l = filter Q l.
Proof.
  induction 1 as [|x l Hx _ IH]; [done|]. destruct (decide (P x)) as [HP|HP].
  - rewrite !filter_cons_True by tauto. by rewrite IH.
  - by rewrite !filter_cons_False by tauto.
Qed.

(** The first of a filtered listing is a row that satisfies the condition. *)
Lemma first_row {A} `{Countable K} (m : gmap K A) (P : A → Prop) `{∀ x, Decision (P x)} l x l' :
  l = (map_to_list m).*2 → filter P l = x :: l' → P x ∧ ∃ k, m !! k = Some x.
Proof.
  intros -> E. assert (x ∈ filter P (map_to_list m).*2) as Hin by (rewrite E; apply list_elem_of_here).
  apply list_elem_of_filter in Hin as [? ([k ?] & -> & Hin)%list_elem_of_fmap].
  split; [done|]. exists k. by apply elem_of_map_to_list.
Qed.
Lemma no_row {A} `{Countable K} (m : gmap K A) (P : A → Prop) `{∀ x, Decision (P x)} l k x :
  l = (map_to_list m).*2 → filter P l = [] → m !! k = Some x → ¬ P x.
Proof.
  intros -> E Hl HP. assert (x ∈ filter P (map_to_list m).*2) as Hin; [|by rewrite E in Hin; apply elem_of_nil in Hin].
  apply list_elem_of_filter. split; [done|]. apply list_elem_of_fmap. exists (k, x).
  split; [done|]. by apply elem_of_map_to_list.
Qed.

Lemma mem_law_GetByPublicKey pk : mquery (mem_GetByPublicKey pk) (λ a,
  on_ok (λ d, devices a !! Device.key d = Some d ∧ Device.PublicKey d = pk)).
Proof.
  intros s r s' [Hk _] E. unfold mem_GetByPublicKey in E.
  destruct (filter _ _) as [|d l] eqn:Hf; injection E as <- <-; [done|]. split; [done|].
  assert (list_ "" s = all_devices s) as Hall.
  { unfold list_. by apply filter_all; left. }
  rewrite Hall in Hf. apply (first_row (db s)) in Hf as [HP [k Hl]]; [|done].
  split; [|done]. simpl. rewrite devs_lookup_key by done. by rewrite (Hk _ _ Hl).
Qed.

(** *** RecordMetadata *)
Lemma by_public_key_Some m pk k : by_public_key m !! pk = Some k →
  ∃ d, m !! k = Some d ∧ Device.PublicKey d = pk.
Proof.
  intros E%elem_of_list_to_map_2. apply list_elem_of_fmap in E as ([k' d] & [= -> ->] & Hin).
  apply elem_of_reverse, elem_of_map_to_list in Hin. by exists d.
Qed.

Lemma by_public_key_lookup m k d : keyed m → pk_unique (devs m) → m !! k = Some d →
  Device.PublicKey d ≠ "" → by_public_key m !! Device.PublicKey d = Some k.
Proof.
  intros Hk Hu Hl Hne. destruct (by_public_key m !! Device.PublicKey d) as [k'|] eqn:E.
  - apply by_public_key_Some in E as (d' & Hl' & Hpk). f_equal.
    rewrite <- (Hk _ _ Hl), <- (Hk _ _ Hl'). apply key_eq.
    apply (Hu _ _ d' d); [| |exact Hpk|by rewrite Hpk]; rewrite devs_lookup_key by done.
    + by rewrite (Hk _ _ Hl').
    + by rewrite (Hk _ _ Hl).
  - exfalso. unfold by_public_key in E. apply not_elem_of_list_to_map in E.
    apply E. rewrite <- list_fmap_compose. apply list_elem_of_fmap. exists (k, d). split; [done|].
    by apply elem_of_reverse, elem_of_map_to_list.
Qed.

Lemma fold_record_lookup bpk us m k :
  fold_left (record_one bpk) us m !! k =
  (λ d, fold_left apply_update (filter (λ u, bpk !! mu_PublicKey u = Some k) us) d) <$> m !! k.
Proof.
  revert m. induction us as [|u us IH]; intros m; simpl; [by rewrite option_fmap_id|].
  rewrite IH. unfold record_one. destruct (bpk !! mu_PublicKey u) as [k'|] eqn:E.
  - destruct (decide (k' = k)) as [->|Hne].
    + rewrite lookup_alter_eq, filter_cons_True by done. rewrite <- option_fmap_compose. done.
    + rewrite lookup_alter_ne by done. by rewrite filter_cons_False by congruence.
  - by rewrite filter_cons_False by congruence.
Qed.

Lemma apply_updates_key us d :
  Device.key (fold_left apply_update us d) = Device.key d ∧
  Device.PublicKey (fold_left apply_update us d) = Device.PublicKey d.
Proof.
  revert d. induction us as [|u us IH]; intros d; [done|]. simpl.
  destruct (IH (apply_update d u)) as [-> ->]. unfold apply_update. by case_match.
Qed.

Lemma mem_law_RecordMetadata us : Forall (λ u, mu_PublicKey u ≠ "") us →
  meffect (mem_RecordMetadata us) (λ a _ a' evs, evs = [] ∧
    a' = on_devices (fmap (λ d,
      fold_left apply_update (filter (λ u, mu_PublicKey u = Device.PublicKey d) us) d)) a).
Proof.
  intros Hus s r s' Hok E. injection E as <- <-. pose proof Hok as [Hk Hwf].
  set (f := λ d, fold_left apply_update (filter (λ u, mu_PublicKey u = Device.PublicKey d) us) d).
  set (g := λ m : gmap string Device, fold_left (record_one (by_public_key m)) us m).
  assert (g (db s) = f <$> db s) as Eg.
  { apply map_eq. intros k. unfold g. rewrite fold_record_lookup, lookup_fmap.
    destruct (db s !! k) as [d|] eqn:Hl; [|done]. simpl. f_equal. unfold f.
    f_equal. apply filter_ext_in. eapply Forall_impl; [exact Hus|]. intros u Hu. split.
    - intros Hb. apply by_public_key_Some in Hb as (d' & Hl' & <-). by simplify_eq.
    - intros Hpk. rewrite Hpk. apply by_public_key_lookup; [done|exact (wf_dev_pk _ Hwf)|done|congruence]. }
  assert (∀ d, Device.key (f d) = Device.key d ∧ Device.PublicKey (f d) = Device.PublicKey d) as Hf
    by (intros; apply apply_updates_key).
  assert (devs (g (db s)) = f <$> devs (db s)) as E by (rewrite Eg; apply devs_fmap; [apply Hf|done]).
  split.
  - eapply ok_set_db; [done|fold (g (db s)); rewrite Eg; apply keyed_fmap; [apply Hf|done]|exact E|].
    apply pk_unique_fmap; [apply Hf|exact (wf_dev_pk _ Hwf)].
  - exists []. split; [split; [done|apply (view_set_db g), E]|]. simpl. by rewrite app_nil_r.
Qed.

(** ** The other tables

    A change of one of them leaves the devices, and with them [keyed], alone. *)
Lemma effect_modify {A} (f : InMemoryStorage → InMemoryStorage) (m : M InMemoryStorage A) P :
  (∀ s r s', mem_ok s → m s = (r, s') →
     match r with
     | Ok a => db s' = db s ∧ log s' = log s ∧ wf_abs (mem_view s') ∧ P (mem_view s) a (mem_view s')
     | Err _ => s' = s
     end) →
  meffect m (λ a r a' evs, evs = [] ∧ P a r a').
Proof.
  intros Hm s r s' Hok E. pose proof (Hm _ _ _ Hok E) as HP. destruct r as [a|e].
  - destruct HP as (Hdb & Hlog & Hwf & HP). split.
    + split; [rewrite Hdb; apply Hok|done].
    + exists []. simpl. by rewrite Hlog, app_nil_r.
  - by subst.
Qed.

Ltac table_op := apply (effect_modify id); intros s r s' [Hk Hwf] E.
Ltac table_done := split; [done|]; split; [done|].

Lemma change_user_law subject f :
  (∀ u, User.Subject (f u) = User.Subject u) →
  meffect (change_user subject f) (λ a _ a' evs, evs = [] ∧ ∃ u, users a !! subject = Some u ∧
    a' = on_users <[subject := f u]> a).
Proof.
  intros Hf. table_op. unfold change_user in E.
  destruct (m_users s !! subject) as [u|] eqn:Hl; injection E as <- <-; [|done].
  table_done. split; [|by exists u]. destruct Hwf as [H1 H2 H3 H4 H5 H6 H7 H8].
  constructor; simpl; try done. apply table_insert; [done|]. rewrite Hf. by apply H3.
Qed.

Lemma mem_law_SaveUser u : meffect (mem_SaveUser u) (λ a _ a' evs, evs = [] ∧
  ∃ stored, a' = on_users <[User.Subject u := stored]> a ∧
    User.Subject stored = User.Subject u ∧ User.Provider stored = User.Provider u ∧
    User.Name stored = User.Name u ∧ User.Email stored = User.Email u ∧
    User.Policies stored = User.Policies u ∧ User.LastLogin stored = User.LastLogin u ∧
    match users a !! User.Subject u with
    | Some previous => User.PasswordHash u = "" → User.TotpSecret u = "" →
        keeps_credentials previous stored
    | None => stored = u
    end).
Proof.
  table_op. injection E as <- <-. table_done.
  set (stored := merge_user (m_users s !! User.Subject u) u).
  assert (User.Subject stored = User.Subject u ∧ User.Provider stored = User.Provider u ∧
    User.Name stored = User.Name u ∧ User.Email stored = User.Email u ∧
    User.Policies stored = User.Policies u ∧ User.LastLogin stored = User.LastLogin u) as Hs.
  { unfold stored, merge_user. by repeat case_match. }
  split.
  - destruct Hwf as [H1 H2 H3 H4 H5 H6 H7 H8]. constructor; simpl; try done.
    apply table_insert; [done|]. apply Hs.
  - exists stored. split; [done|]. repeat (split; [apply Hs|]). simpl.
    unfold stored. destruct (m_users s !! User.Subject u); [|done].
    intros Hp Ht. unfold merge_user. rewrite Hp. simpl. by rewrite Ht.
Qed.

Lemma mem_law_DeleteUser subject : meffect (mem_DeleteUser subject) (λ a _ a' evs, evs = [] ∧
  a' = on_passkeys (filter (λ ip, Passkey.Owner ip.2 ≠ subject)) (on_users (delete subject) a)).
Proof.
  table_op. injection E as <- <-. table_done. split; [|done].
  destruct Hwf as [H1 H2 H3 H4 H5 H6 H7 H8]. constructor; simpl; try done.
  - intros k x [_ ?]%lookup_delete_Some. by apply H3.
  - intros k x [? _]%map_lookup_filter_Some. by apply H8.
Qed.

Lemma mem_law_GetUser subject : mquery (mem_GetUser subject) (λ a,
  found (λ u, users a !! subject = Some u) (users a !! subject = None) ErrUserNotFound).
Proof.
  intros s r s' _ E. unfold mem_GetUser in E.
  destruct (m_users s !! subject) eqn:Hl; injection E as <- <-; (split; [done|]); [exact Hl|intros _; exact Hl].
Qed.

Lemma mem_law_Users : mquery mem_Users (λ a, on_ok (lists_rows (users a) (λ _, True))).
Proof.
  intros s r s' _ [= <- <-]. split; [done|]. simpl. unfold lists_rows. by rewrite filter_all.
Qed.

Lemma mem_law_AllocationLock : meffect mem_AllocationLock (λ a _ a' evs, a' = a ∧ evs = []).
Proof.
  intros s r s' Hok E. injection E as <- <-. split; [done|]. exists []. by rewrite app_nil_r.
Qed.

(** Sessions and tokens: the unique index on the hash. *)
Lemma hash_taken_false {A} (m : gmap string A) (hash id : A → string) x :
  (∀ k y, m !! k = Some y → id y = k) →
  bool_decide (map_Exists (λ _ stored, hash stored = hash x ∧ id stored ≠ id x) m) = false →
  ∀ k y, m !! k = Some y → hash y = hash x → k = id x.
Proof.
  intros Hid Ht k y Hl Hh. apply bool_decide_eq_false in Ht. rewrite <- (Hid _ _ Hl).
  destruct (decide (id y = id x)) as [|Hne]; [done|]. exfalso. apply Ht. by exists k, y.
Qed.

Lemma mem_law_SaveSession x : meffect (mem_SaveSession x) (λ a _ a' evs, evs = [] ∧
  (∀ k y, sessions a !! k = Some y → Session.Hash y = Session.Hash x → k = Session.ID x) ∧
  a' = on_sessions <[Session.ID x := x]> a).
Proof.
  table_op. unfold mem_SaveSession in E. case_match eqn:Ht; injection E as <- <-; [done|].
  destruct Hwf as [H1 H2 H3 H4 H5 H6 H7 H8].
  pose proof (hash_taken_false _ Session.Hash Session.ID x H4 Ht) as Hfree.
  table_done. split; [|done].
  constructor; simpl; try done; [by apply table_insert|by apply index_insert].
Qed.

Lemma mem_law_SaveToken x : meffect (mem_SaveToken x) (λ a _ a' evs, evs = [] ∧
  (∀ k y, tokens a !! k = Some y → APIToken.Hash y = APIToken.Hash x → k = APIToken.ID x) ∧
  a' = on_tokens <[APIToken.ID x := x]> a).
Proof.
  table_op. unfold mem_SaveToken in E. case_match eqn:Ht; injection E as <- <-; [done|].
  destruct Hwf as [H1 H2 H3 H4 H5 H6 H7 H8].
  pose proof (hash_taken_false _ APIToken.Hash APIToken.ID x H6 Ht) as Hfree.
  table_done. split; [|done].
  constructor; simpl; try done; [by apply table_insert|by apply index_insert].
Qed.

(** A part of the sessions or of the tokens keeps the store well formed. *)
Lemma wf_sessions_subseteq a f : wf_abs a → f (sessions a) ⊆ sessions a → wf_abs (on_sessions f a).
Proof.
  intros [H1 H2 H3 H4 H5 H6 H7 H8] Hs. constructor; simpl; try done.
  - intros k x Hl. apply H4. by eapply lookup_weaken.
  - by eapply index_subseteq.
Qed.
Lemma wf_tokens_subseteq a f : wf_abs a → f (tokens a) ⊆ tokens a → wf_abs (on_tokens f a).
Proof.
  intros [H1 H2 H3 H4 H5 H6 H7 H8] Hs. constructor; simpl; try done.
  - intros k x Hl. apply H6. by eapply lookup_weaken.
  - by eapply index_subseteq.
Qed.
Lemma wf_passkeys_subseteq a f : wf_abs a → f (passkeys a) ⊆ passkeys a → wf_abs (on_passkeys f a).
Proof.
  intros [H1 H2 H3 H4 H5 H6 H7 H8] Hs. constructor; simpl; try done.
  intros k x Hl. apply H8. by eapply lookup_weaken.
Qed.

Ltac index_query := intros s r s' [_ Hwf] E; destruct Hwf as [H1 H2 H3 H4 H5 H6 H7 H8].

Lemma mem_law_GetSessionByHash hash : mquery (mem_GetSessionByHash hash) (λ a,
  found (λ x, sessions a !! Session.ID x = Some x ∧ Session.Hash x = hash)
    (∀ k x, sessions a !! k = Some x → Session.Hash x ≠ hash) ErrSessionNotFound).
Proof.
  index_query. unfold mem_GetSessionByHash in E.
  destruct (filter _ _) as [|x l] eqn:Hf; injection E as <- <-; (split; [done|]); simpl.
  - intros _ k x Hl. by apply (no_row (m_sessions s) _ _ _ _ eq_refl Hf Hl).
  - apply (first_row (m_sessions s)) in Hf as [HP [k Hl]]; [|done]. by rewrite (H4 _ _ Hl).
Qed.

Lemma mem_law_GetTokenByHash hash : mquery (mem_GetTokenByHash hash) (λ a,
  found (λ x, tokens a !! APIToken.ID x = Some x ∧ APIToken.Hash x = hash)
    (∀ k x, tokens a !! k = Some x → APIToken.Hash x ≠ hash) ErrTokenNotFound).
Proof.
  index_query. unfold mem_GetTokenByHash in E.
  destruct (filter _ _) as [|x l] eqn:Hf; injection E as <- <-; (split; [done|]); simpl.
  - intros _ k x Hl. by apply (no_row (m_tokens s) _ _ _ _ eq_refl Hf Hl).
  - apply (first_row (m_tokens s)) in Hf as [HP [k Hl]]; [|done]. by rewrite (H6 _ _ Hl).
Qed.

Lemma mem_law_GetToken id : mquery (mem_GetToken id) (λ a,
  found (λ x, tokens a !! id = Some x) (tokens a !! id = None) ErrTokenNotFound).
Proof.
  intros s r s' _ E. unfold mem_GetToken in E.
  destruct (m_tokens s !! id) eqn:Hl; injection E as <- <-; (split; [done|]); [exact Hl|intros _; exact Hl].
Qed.

Lemma mem_law_GetPasskey id : mquery (mem_GetPasskey id) (λ a,
  found (λ p, passkeys a !! id = Some p) (passkeys a !! id = None) ErrPasskeyNotFound).
Proof.
  intros s r s' _ E. unfold mem_GetPasskey in E.
  destruct (m_passkeys s !! id) eqn:Hl; injection E as <- <-; (split; [done|]); [exact Hl|intros _; exact Hl].
Qed.

#[local] Instance newest_first_total : Total newest_first.
Proof. intros x y. unfold newest_first. lia. Qed.
#[local] Instance oldest_first_total : Total oldest_first.
Proof. intros x y. unfold oldest_first. lia. Qed.

Lemma mem_law_ListSessions owner : mquery (mem_ListSessions owner) (λ a,
  on_ok (λ l, lists_rows (sessions a) (λ x, Session.Owner x = owner) l ∧
    Sorted (λ x y, Session.CreatedAt y <= Session.CreatedAt x) l)).
Proof.
  intros s r s' _ [= <- <-]. split; [done|]. split.
  - unfold lists_rows. apply merge_sort_Permutation.
  - apply (Sorted_merge_sort newest_first).
Qed.

Lemma mem_law_ListTokens owner : mquery (mem_ListTokens owner) (λ a,
  on_ok (λ l, lists_rows (tokens a) (λ x, owner = "" ∨ APIToken.Owner x = owner) l ∧
    Sorted (λ x y, APIToken.CreatedAt x <= APIToken.CreatedAt y) l)).
Proof.
  intros s r s' _ [= <- <-]. split; [done|]. split.
  - unfold lists_rows. apply merge_sort_Permutation.
  - apply (Sorted_merge_sort oldest_first).
Qed.

Lemma mem_law_TouchSession id at_ : meffect (mem_TouchSession id at_) (λ a _ a' evs, evs = [] ∧
  sessions a !! id ≠ None ∧ a' = on_sessions (alter (Session.with_LastSeenAt at_) id) a).
Proof.
  table_op. unfold mem_TouchSession in E.
  destruct (m_sessions s !! id) eqn:Hl; injection E as <- <-; [|done].
  table_done. split; [|simpl; by rewrite Hl].
  destruct Hwf as [H1 H2 H3 H4 H5 H6 H7 H8]. constructor; simpl; try done.
  - by apply table_alter.
  - by apply index_alter.
Qed.

Lemma mem_law_TouchToken id at_ : meffect (mem_TouchToken id at_) (λ a _ a' evs, evs = [] ∧
  a' = on_tokens (alter (APIToken.with_LastUsedAt at_) id) a).
Proof.
  table_op. injection E as <- <-. table_done. split; [|done].
  destruct Hwf as [H1 H2 H3 H4 H5 H6 H7 H8]. constructor; simpl; try done.
  - by apply table_alter.
  - by apply index_alter.
Qed.

Lemma mem_law_DeleteSession id : meffect (mem_DeleteSession id) (λ a _ a' evs, evs = [] ∧
  a' = on_sessions (delete id) a).
Proof.
  table_op. injection E as <- <-. table_done. split; [|done].
  apply (wf_sessions_subseteq (mem_view s) (delete id)); [done|apply delete_subseteq].
Qed.

Lemma mem_law_DeleteSessionsForOwner owner : meffect (mem_DeleteSessionsForOwner owner) (λ a n a' evs,
  evs = [] ∧ n = Z.of_nat (size (filter (λ ix, Session.Owner ix.2 = owner) (sessions a))) ∧
  a' = on_sessions (filter (λ ix, Session.Owner ix.2 ≠ owner)) a).
Proof.
  table_op. injection E as <- <-. table_done. split; [|done].
  apply (wf_sessions_subseteq (mem_view s) (filter _)); [done|apply map_filter_subseteq].
Qed.

Lemma mem_law_DeleteExpiredSessions now : meffect (mem_DeleteExpiredSessions now) (λ a n a' evs,
  evs = [] ∧ n = Z.of_nat (size (filter (λ ix, Session.Expired ix.2 now = true) (sessions a))) ∧
  a' = on_sessions (filter (λ ix, Session.Expired ix.2 now = false)) a).
Proof.
  table_op. injection E as <- <-. table_done. split; [|done].
  apply (wf_sessions_subseteq (mem_view s) (filter _)); [done|apply map_filter_subseteq].
Qed.

Lemma mem_law_DeleteToken id : meffect (mem_DeleteToken id) (λ a _ a' evs, evs = [] ∧
  tokens a !! id ≠ None ∧ a' = on_tokens (delete id) a).
Proof.
  table_op. unfold mem_DeleteToken in E.
  destruct (m_tokens s !! id) eqn:Hl; injection E as <- <-; [|done].
  table_done. split; [|simpl; by rewrite Hl].
  apply (wf_tokens_subseteq (mem_view s) (delete id)); [done|apply delete_subseteq].
Qed.

Lemma mem_law_DeleteTokensForOwner owner : meffect (mem_DeleteTokensForOwner owner) (λ a n a' evs,
  evs = [] ∧ n = Z.of_nat (size (filter (λ ix, APIToken.Owner ix.2 = owner) (tokens a))) ∧
  a' = on_tokens (filter (λ ix, APIToken.Owner ix.2 ≠ owner)) a).
Proof.
  table_op. injection E as <- <-. table_done. split; [|done].
  apply (wf_tokens_subseteq (mem_view s) (filter _)); [done|apply map_filter_subseteq].
Qed.

(** *** sortPasskeys: the insertion sort in place *)
Definition older_or_same (x y : Passkey) : Prop := Passkey.CreatedAt y <= Passkey.CreatedAt x.

Lemma sift_perm x l : sift x l ≡ₚ x :: l.
Proof.
  induction l as [|y l IH]; simpl; [done|]. case_match; [|done]. rewrite IH. apply Permutation_swap.
Qed.

(** [before] is read towards the front: it goes from older to newer. *)
Lemma sift_sorted x l : StronglySorted (λ a b, Passkey.CreatedAt a <= Passkey.CreatedAt b) l →
  StronglySorted (λ a b, Passkey.CreatedAt a <= Passkey.CreatedAt b) (sift x l).
Proof.
  induction 1 as [|y l Hs IH Hy]; simpl; [by repeat constructor|].
  destruct (Z.ltb_spec (Passkey.CreatedAt y) (Passkey.CreatedAt x)) as [Hlt|Hge].
  - constructor; [done|]. rewrite sift_perm. constructor; [lia|done].
  - constructor; [by constructor|]. constructor; [lia|].
    eapply Forall_impl; [exact Hy|]. simpl. lia.
Qed.

Lemma StronglySorted_snoc {A} (R : A → A → Prop) l x :
  StronglySorted R l → Forall (λ y, R y x) l → StronglySorted R (l ++ [x]).
Proof.
  induction 1 as [|y l Hs IH Hy]; intros Hf; simpl; [by repeat constructor|].
  apply Forall_cons in Hf as [? ?]. constructor; [by apply IH|].
  apply Forall_app. split; [done|]. by constructor.
Qed.
Lemma StronglySorted_rev {A} (R : A → A → Prop) l :
  StronglySorted R l → StronglySorted (λ a b, R b a) (rev l).
Proof.
  induction 1 as [|x l Hs IH Hx]; simpl; [constructor|].
  apply StronglySorted_snoc; [done|]. by apply Forall_rev.
Qed.

Lemma fold_sift_spec l acc : StronglySorted (λ a b, Passkey.CreatedAt a <= Passkey.CreatedAt b) acc →
  StronglySorted (λ a b, Passkey.CreatedAt a <= Passkey.CreatedAt b)
    (fold_left (λ before x, sift x before) l acc) ∧
  fold_left (λ before x, sift x before) l acc ≡ₚ l ++ acc.
Proof.
  revert acc. induction l as [|x l IH]; intros acc Hs; simpl; [done|].
  destruct (IH (sift x acc)) as [? Hp]; [by apply sift_sorted|]. split; [done|].
  rewrite Hp, sift_perm. by rewrite Permutation_middle.
Qed.

Lemma sortPasskeys_spec l : sortPasskeys l ≡ₚ l ∧ StronglySorted older_or_same (sortPasskeys l).
Proof.
  unfold sortPasskeys. destruct (fold_sift_spec l []) as [Hs Hp]; [constructor|].
  rewrite app_nil_r in Hp. split.
  - etrans; [symmetry; apply Permutation_rev|done].
  - by apply StronglySorted_rev in Hs.
Qed.

(** *** Passkeys *)
Lemma mem_law_ListPasskeys owner : mquery (mem_ListPasskeys owner) (λ a,
  on_ok (λ l, lists_rows (passkeys a) (λ p, Passkey.Owner p = owner) l ∧
    Sorted (λ x y, Passkey.CreatedAt y <= Passkey.CreatedAt x) l)).
Proof.
  intros s r s' _ [= <- <-]. split; [done|].
  destruct (sortPasskeys_spec (filter (λ p, Passkey.Owner p = owner) (map_to_list (m_passkeys s)).*2)) as [Hp Hs].
  split; [exact Hp|]. by apply StronglySorted_Sorted.
Qed.

Lemma mem_law_AddPasskey p : meffect (mem_AddPasskey p) (λ a _ a' evs, evs = [] ∧
  passkeys a !! Passkey.ID p = None ∧ a' = on_passkeys <[Passkey.ID p := p]> a).
Proof.
  table_op. unfold mem_AddPasskey in E. destruct (m_passkeys s !! _) eqn:Hl; injection E as <- <-; [done|].
  table_done. split; [|done]. destruct Hwf as [H1 H2 H3 H4 H5 H6 H7 H8].
  constructor; simpl; try done. by apply table_insert.
Qed.

Lemma of_owner_law owner id k (f : Passkey → gmap string Passkey → gmap string Passkey) :
  (∀ existing, k existing = set_passkeys (f existing)) →
  (∀ existing m, m !! id = Some existing → Passkey.Owner existing = owner →
     (∀ i p, m !! i = Some p → Passkey.ID p = i) →
     ∀ i p, f existing m !! i = Some p → Passkey.ID p = i) →
  meffect (of_owner owner id k) (λ a _ a' evs, evs = [] ∧
    ∃ old, passkeys a !! id = Some old ∧ Passkey.Owner old = owner ∧ a' = on_passkeys (f old) a).
Proof.
  intros Hk0 Hf. table_op. unfold of_owner in E.
  destruct (m_passkeys s !! id) as [old|] eqn:Hl; [|by injection E as <- <-].
  case_bool_decide as Ho; [by injection E as <- <-|]. rewrite Hk0 in E. injection E as <- <-.
  table_done. split; [|by exists old].
  destruct Hwf as [H1 H2 H3 H4 H5 H6 H7 H8]. constructor; simpl; try done. by apply Hf.
Qed.

Lemma mem_law_UpdatePasskey p : meffect (mem_UpdatePasskey p) (λ a _ a' evs, evs = [] ∧
  ∃ old stored, passkeys a !! Passkey.ID p = Some old ∧ Passkey.Owner old = Passkey.Owner p ∧
    Passkey.ID stored = Passkey.ID p ∧ Passkey.Owner stored = Passkey.Owner p ∧
    Passkey.Name stored = Passkey.Name p ∧ Passkey.Data stored = Passkey.Data p ∧
    Passkey.LastUsedAt stored = Passkey.LastUsedAt p ∧
    a' = on_passkeys <[Passkey.ID p := stored]> a).
Proof.
  intros s r s' Hok E. unfold mem_UpdatePasskey in E.
  apply (of_owner_law _ _ _ (λ _, <[Passkey.ID p := p]>)) in E as [? HP]; [|done| |done].
  - split; [done|]. destruct r; [|done]. destruct HP as (evs & (-> & old & ? & ? & ?) & ?).
    exists []. split; [|done]. split; [done|]. by exists old, p.
  - intros existing m Hl _ Hm. by apply table_insert.
Qed.

Lemma mem_law_RenamePasskey owner id name : meffect (mem_RenamePasskey owner id name) (λ a _ a' evs,
  evs = [] ∧ ∃ old, passkeys a !! id = Some old ∧ Passkey.Owner old = owner ∧
    a' = on_passkeys <[id := Passkey.with_Name name old]> a).
Proof.
  apply (of_owner_law _ _ _ (λ old, <[id := Passkey.with_Name name old]>)); [done|].
  intros existing m Hl _ Hm. apply table_insert; [done|]. exact (Hm _ _ Hl).
Qed.

Lemma mem_law_DeletePasskey owner id : meffect (mem_DeletePasskey owner id) (λ a _ a' evs, evs = [] ∧
  ∃ old, passkeys a !! id = Some old ∧ Passkey.Owner old = owner ∧
    a' = on_passkeys (delete id) a).
Proof.
  apply (of_owner_law _ _ _ (λ _, delete id)); [done|].
  intros existing m Hl _ Hm i p [_ ?]%lookup_delete_Some. by apply Hm.
Qed.

(** ** The contract

    The laws above say more than the contract asks for. *)
Lemma mem_law_mono {A} (m : M InMemoryStorage A) (P Q : Abs → A → Abs → list Event → Prop) :
  meffect m P → (∀ a r a' evs, wf_abs a → P a r a' evs → Q a r a' evs) → meffect m Q.
Proof.
  intros Hm HPQ s r s' Hok E. destruct (Hm s r s' Hok E) as [Hok' Hr]. split; [done|].
  destruct r as [x|]; [|done]. destruct Hr as (evs & HP & He). exists evs. split; [|done].
  apply HPQ; [apply Hok|done].
Qed.
Lemma law_of_Save d : meffect (mem_Save d) (λ a _ a' evs,
  devices a !! Device.key d = None ∨ Device.Owner d ≠ "" ∧ Device.Name d ≠ "" →
  (Device.PublicKey d ≠ "" → key_free (devices a) (Device.key d) (Device.PublicKey d)) ∧
  a' = on_devices <[Device.key d := d]> a ∧
  (evs = [EvAdd d] ∨ evs = [] ∧ devices a !! Device.key d ≠ None)).
Proof. eapply mem_law_mono; [apply mem_law_Save|]. naive_solver. Qed.
Lemma law_of_Delete d : meffect (mem_Delete d) (λ a _ a' evs,
  a' = on_devices (delete (Device.key d)) a ∧ evs ≠ [] ∧ Forall (eq (EvDelete d)) evs).
Proof. eapply mem_law_mono; [apply mem_law_Delete|]. intros a r a' evs _ [-> ->]. auto. Qed.
Lemma law_of_SetKeys d pk psk : meffect (mem_SetKeys d pk psk) (λ a r a' evs,
  ∃ stored, devices a !! Device.key d = Some stored ∧ key_free (devices a) (Device.key d) pk ∧
    a' = on_devices <[Device.key d := Device.with_Keys pk psk stored]> a ∧
    (r = Device.with_Keys pk psk stored ∨ r = Device.with_Keys pk psk d) ∧ evs = [EvUpdate r]).
Proof.
  eapply mem_law_mono; [apply mem_law_SetKeys|].
  intros a r a' evs Hwf (stored & Hl & Hr & Hf & Ha & He).
  destruct (stored_change a d (Device.with_Keys pk psk) r a' evs) as (x & ? & ? & ? & ?); eauto 10.
Qed.
Lemma law_of_Rename d newName : meffect (mem_Rename d newName) (λ a r a' evs,
  ∃ stored, devices a !! Device.key d = Some stored ∧
    a' = on_devices (λ m, <[(Device.Owner d, newName) := Device.with_Name newName stored]>
           (delete (Device.key d) m)) a ∧
    (r = Device.with_Name newName stored ∨ r = Device.with_Name newName d) ∧ evs = [EvUpdate r]).
Proof.
  eapply mem_law_mono; [apply mem_law_Rename|].
  intros a r a' evs Hwf (stored & Hl & -> & -> & ->). exists stored. split; [done|].
  pose proof (wf_dev_key _ Hwf _ _ Hl) as Hk. unfold Device.key in *. cbn. injection Hk as -> _. auto.
Qed.
Lemma mem_law_AddPasskey_exists p s err s' : mem_AddPasskey p s = (Err err, s') →
  error_is err StoragePasskeyExists = true → passkeys (mem_view s) !! Passkey.ID p ≠ None.
Proof.
  unfold mem_AddPasskey. intros E _. cbn. by destruct (m_passkeys s !! Passkey.ID p).
Qed.

#[export] Instance InMemory_laws : StorageLaws InMemoryStorage.
Proof.
  refine {| view := mem_view; ok := mem_ok |};
    [by intros s [_ ?]|exact law_of_Save|exact mem_law_RecordMetadata|exact law_of_Rename
    |exact mem_law_SetAccess|exact mem_law_SetRoutes|exact law_of_SetKeys|exact mem_law_List
    |exact mem_law_Addresses|exact mem_law_Get|exact mem_law_GetByPublicKey|exact law_of_Delete
    |exact mem_law_DeleteForOwner|exact mem_law_BlockForOwner|exact mem_law_AllocationLock|exact mem_law_SaveUser
    |exact mem_law_GetUser|exact mem_law_Users|exact mem_law_DeleteUser
    |intros; by apply change_user_law|intros; by apply change_user_law|intros; by apply change_user_law
    |exact mem_law_SaveSession|exact mem_law_GetSessionByHash|exact mem_law_ListSessions
    |exact mem_law_TouchSession|exact mem_law_DeleteSession|exact mem_law_DeleteSessionsForOwner
    |exact mem_law_DeleteExpiredSessions|exact mem_law_SaveToken|exact mem_law_ListTokens
    |exact mem_law_GetToken|exact mem_law_GetTokenByHash|exact mem_law_TouchToken
    |exact mem_law_DeleteToken|exact mem_law_DeleteTokensForOwner|exact mem_law_AddPasskey|intros p s err s' _; exact (mem_law_AddPasskey_exists p s err s')
    |exact mem_law_UpdatePasskey|exact mem_law_RenamePasskey|exact mem_law_ListPasskeys
    |exact mem_law_GetPasskey|exact mem_law_DeletePasskey].
Defined.

Lemma NewMemoryStorage_ok : mem_ok NewMemoryStorage.
Proof. split; [by intros ???|]. constructor; by intros ???. Qed.
End laws.
