(* ===== verification/SqlStorage.v ===== *)
(** * internal/storage/sql.go: the storage in a SQL database

    [SQLStorage] with every operation of the interface [Storage]: [sql.go], the
    SQL halves of [sessions.go], [tokens.go] and [passkeys.go], and the watcher of
    [gormwatcher.go], which is the one of SQLite and MySQL. GORM and the database
    are a class: one operation per kind of statement, on tables of rows, and what
    their documentation says of it. A condition is a predicate on rows, the
    columns a statement sets are a function on rows. *)
From S2P Require Import Prelude GoText Storage InMemory.

(** ** The tables *)
Inductive Table : Type → Type :=
  | DevicesTable : Table Device
  | UsersTable : Table User
  | SessionsTable : Table Session
  | TokensTable : Table APIToken
  | PasskeysTable : Table Passkey.

Definition TableName {T} (t : Table T) : string :=
  match t with
  | DevicesTable => "devices" | UsersTable => "users" | SessionsTable => "sessions"
  | TokensTable => "api_tokens" | PasskeysTable => "passkeys"
  end.
(** The columns of [primaryKey] in the tags of the structures. *)
Definition primaryKey {T} (t : Table T) : T → string * string :=
  match t with
  | DevicesTable => Device.key
  | UsersTable => λ u, (User.Subject u, "")
  | SessionsTable => λ x, (Session.ID x, "")
  | TokensTable => λ x, (APIToken.ID x, "")
  | PasskeysTable => λ p, (Passkey.ID p, "")
  end.
(** The column of [uniqueIndex]. *)
Definition uniqueIndex {T} (t : Table T) : T → option string :=
  match t with
  | DevicesTable => λ d, Some (Device.PublicKey d)
  | SessionsTable => λ x, Some (Session.Hash x)
  | TokensTable => λ x, Some (APIToken.Hash x)
  | UsersTable | PasskeysTable => λ _, None
  end.
(** What fits the columns: a counter is a 64-bit integer. *)
Definition storable {T} (t : Table T) : T → Prop :=
  match t with
  | DevicesTable => λ d, int64 (Device.ReceiveBytes d) ∧ int64 (Device.TransmitBytes d)
  | _ => λ _, True
  end.
(** GORM updates the row of a model by the columns of its key that are not zero. *)
Definition full_key {T} (t : Table T) (x : T) : Prop :=
  match t with
  | DevicesTable => (primaryKey t x).1 ≠ "" ∧ (primaryKey t x).2 ≠ ""
  | _ => (primaryKey t x).1 ≠ ""
  end.

(** ** GORM *)
Class Gorm (D : Type) := {
  gorm_Count {T} (t : Table T) (where_ : T → bool) : M D Z;
  gorm_Find {T} (t : Table T) (where_ : T → bool) : M D (list T);
  (* Order(column) or Order(column desc) *)
  gorm_FindOrdered {T} (t : Table T) (where_ : T → bool) (column : T → Z) (desc : bool) : M D (list T);
  gorm_First {T} (t : Table T) (where_ : T → bool) : M D T;
  gorm_Create {T} (t : Table T) (x : T) : M D unit;
  (* clause.OnConflict{DoUpdates: ...}: the row that is there is assigned columns of x *)
  gorm_CreateOrAssign {T} (t : Table T) (x : T) (assign : T → T) : M D unit;
  (* clause.OnConflict{DoNothing: true}, with RowsAffected *)
  gorm_CreateOrNothing {T} (t : Table T) (x : T) : M D Z;
  (* Model(x).Updates(x) with every column selected *)
  gorm_Updates {T} (t : Table T) (x : T) : M D unit;
  (* Where(...).UpdateColumns(...), with RowsAffected; no value for a column
     is an expression that cannot be evaluated *)
  gorm_UpdateColumns {T} (t : Table T) (where_ : T → bool) (columns : T → option T) : M D Z;
  (* Where(...).Delete, with RowsAffected *)
  gorm_DeleteWhere {T} (t : Table T) (where_ : T → bool) : M D Z;
  (* Delete(x) *)
  gorm_Delete {T} (t : Table T) (x : T) : M D unit;
  gorm_Transaction {A} (fn : M D A) : M D A;
  gorm_Begin : M D unit;
  gorm_Commit : M D unit;
  gorm_Rollback : M D unit;
  (* the addition of the database on BIGINT columns *)
  sql_plus : Z → Z → option Z;
  (* reserving a connection and taking the lock of that name on it *)
  db_lock (name : string) : M D unit }.

(** ** SQLStorage

    The database, which of the drivers it is, and what the watcher reported. A
    PostgreSQL reports changes through triggers of its own ([pgwatcher.go]), some time
    later and without the row; it is not one of the two here. *)
Inductive SqlType := mysql | sqlite3.
#[export] Instance SqlType_eq_dec : EqDecision SqlType.
Proof. solve_decision. Defined.

Record SQLStorage (D : Type) := mkSQL {
  sql_db : D;
  sqlType : SqlType;
  sql_log : list Event }.
Arguments mkSQL {D} _ _ _.
Arguments sql_db {D} _.
Arguments sqlType {D} _.
Arguments sql_log {D} _.

Section sql.
  Context {D : Type} `{Gorm D}.
  Notation SQL := (SQLStorage D).
  Implicit Types (s : SQL).

Definition on_db {A} (m : M D A) : M SQL A :=
  zoom sql_db (λ d s, mkSQL d (sqlType s) (sql_log s)) m.
Definition report (evs : list Event) : M SQL unit :=
  m_modify (λ s, mkSQL (sql_db s) (sqlType s) (sql_log s ++ evs)).

(** ** gormwatcher.go *)
Definition deviceOf {T} (t : Table T) : T → option Device :=
  match t with DevicesTable => Some | _ => λ _, None end.
(** What a callback after a create or a delete reports of the statement. *)
Definition GormWatcher_emit {T} (silent : bool) (failed : bool) (t : Table T) (dest : T)
    (event : Device → Event) : list Event :=
  if silent then [] else
  if failed then [] else
  if negb (String.eqb (TableName t) (TableName DevicesTable)) then [] else
  match deviceOf t dest with Some device => [event device] | None => [] end.
Definition EmitAdd (device : Device) : M SQL unit := m_ret tt.
Definition EmitUpdate (device : Device) : M SQL unit := report [EvUpdate device].
Definition EmitDelete (device : Device) : M SQL unit := report [EvDelete device].

(** A statement and the callbacks that [OnAdd] and [OnDelete] registered after it. *)
Definition after {T} (m : M D unit) (silent : bool) (t : Table T) (dest : T) (event : Device → Event) :
    M SQL unit := λ s,
  let '(r, d) := m (sql_db s) in
  (r, mkSQL d (sqlType s) (sql_log s ++ GormWatcher_emit silent (negb (is_ok r)) t dest event)).
Definition db_Create {T} (t : Table T) (x : T) : M SQL unit := after (gorm_Create t x) false t x EvAdd.
Definition db_Delete {T} (t : Table T) (x : T) : M SQL unit := after (gorm_Delete t x) false t x EvDelete.

(** ** Devices *)
(** [owner = ? AND name = ?] *)
Definition named (owner name : string) (d : Device) : bool :=
  String.eqb (Device.Owner d) owner && String.eqb (Device.Name d) name.
Definition row_of (device : Device) : Device → bool := named (Device.Owner device) (Device.Name device).

Definition sql_Save (device : Device) : M SQL unit :=
  let! existing := m_wrap "failed to look up the device"
    (on_db (gorm_Count DevicesTable (row_of device))) in
  if existing =? 0 then
    do! m_wrap "failed to write device" (db_Create DevicesTable device); EmitAdd device
  else
    do! m_wrap "failed to write device" (on_db (gorm_Updates DevicesTable device)); EmitAdd device.

(** The columns of one update, none when there is nothing to write. *)
Definition update_columns (update : MetadataUpdate) : option (Device → option Device) :=
  let add column n := if n =? 0 then Some column else sql_plus column n in
  if (mu_ReceiveBytes update =? 0) && (mu_TransmitBytes update =? 0)
     && bool_decide (mu_Connection update = None)
  then None
  else Some (λ d,
    match add (Device.ReceiveBytes d) (mu_ReceiveBytes update),
          add (Device.TransmitBytes d) (mu_TransmitBytes update) with
    | Some rx, Some tx => Some
        match mu_Connection update with
        | Some c => Device.with_Metadata (Some (pc_LastHandshakeTime c)) rx tx (pc_Endpoint c) d
        | None => Device.with_Metadata (Device.LastHandshakeTime d) rx tx (Device.Endpoint d) d
        end
    | _, _ => None
    end).
Definition record_update (update : MetadataUpdate) : M SQL unit :=
  match update_columns update with
  | None => m_ret tt
  | Some columns =>
      do! on_db (gorm_UpdateColumns DevicesTable
        (λ d, String.eqb (Device.PublicKey d) (mu_PublicKey update)) columns);
      m_ret tt
  end.
(** [tx.Rollback(); return err] when the loop fails. *)
Definition or_rollback (m : M SQL unit) : M SQL unit := λ s,
  match m s with
  | (Ok _, s') => (Ok tt, s')
  | (Err e, s') => (Err e, (m_try (on_db gorm_Rollback) s').2)
  end.
Definition sql_RecordMetadata (updates : list MetadataUpdate) : M SQL unit :=
  if bool_decide (updates = []) then m_ret tt else
  do! m_wrap "failed to begin metadata transaction" (on_db gorm_Begin);
  do! or_rollback (m_for (λ u, m_wrap "failed to record device metadata" (record_update u)) updates);
  m_wrap "failed to commit device metadata" (on_db gorm_Commit).

(** Changing columns of one device, the error of [q.Error] and the one of
    [q.RowsAffected == 0]. *)
Definition change_device (failed : string) (device : Device) (columns : Device → Device) : M SQL Device :=
  let! rowsAffected := m_wrap failed
    (on_db (gorm_UpdateColumns DevicesTable (row_of device) (λ d, Some (columns d)))) in
  stop! (PlainError ("device '" +:+ Device.Name device +:+ "' of user '" +:+ Device.Owner device
           +:+ "' no longer exists")) when rowsAffected =? 0;
  let changed := columns device in
  do! EmitUpdate changed; m_ret changed.
Definition sql_Rename (device : Device) (newName : string) : M SQL Device :=
  change_device "failed to rename device" device (Device.with_Name newName).
Definition sql_SetAccess (device : Device) (disabled : bool) (expiresAt : option Time) : M SQL Device :=
  change_device "failed to change the access of the device" device (Device.with_Access disabled expiresAt).
Definition sql_SetRoutes (device : Device) (routes : string) : M SQL Device :=
  change_device "failed to change the routes of the device" device (Device.with_Routes routes).
Definition sql_SetKeys (device : Device) (publicKey presharedKey : string) : M SQL Device :=
  change_device "failed to change the keys of the device" device (Device.with_Keys publicKey presharedKey).

Definition everything {T} : T → bool := λ _, true.
Definition sql_Addresses : M SQL (list string) :=
  let! devices := m_wrap "failed to read device addresses from sql"
    (on_db (gorm_Find DevicesTable everything)) in
  m_ret (Device.Address <$> devices).
Definition owned_by (owner : string) (d : Device) : bool := String.eqb (Device.Owner d) owner.
Definition sql_List (username : string) : M SQL (list Device) :=
  m_wrap "failed to read devices from sql"
    (on_db (if negb (String.eqb username "") then gorm_Find DevicesTable (owned_by username)
            else gorm_Find DevicesTable everything)).
Definition sql_Get (owner name : string) : M SQL Device :=
  m_wrap "failed to read device" (on_db (gorm_First DevicesTable (named owner name))).
Definition sql_GetByPublicKey (publicKey : string) : M SQL Device :=
  m_wrap "failed to read device"
    (on_db (gorm_First DevicesTable (λ d, String.eqb (Device.PublicKey d) publicKey))).

(** The callback of the statement reports the device, and so does the call. *)
Definition sql_Delete (device : Device) : M SQL unit :=
  do! m_wrap "failed to delete device file" (db_Delete DevicesTable device);
  EmitDelete device.

(** The statements of the transaction are silent; the events follow it. *)
Definition sql_DeleteForOwner (owner : string) : M SQL (list Device) :=
  let! deleted := on_db (gorm_Transaction (
    let! deleted := m_wrap "failed to list the devices of the user"
      (gorm_Find DevicesTable (owned_by owner)) in
    do! m_for (λ device, m_wrap ("failed to delete device '" +:+ Device.Name device +:+ "'")
      (gorm_Delete DevicesTable device)) deleted;
    m_ret deleted)) in
  do! m_for EmitDelete deleted;
  m_ret deleted.

(** [device.Disabled = true] *)
Definition disable (d : Device) : Device := Device.with_Access true (Device.ExpiresAt d) d.
Definition sql_BlockForOwner (owner : string) : M SQL (list Device) :=
  let! blocked := on_db (gorm_Transaction (
    let! blocked := m_wrap "failed to list the devices of the user"
      (gorm_Find DevicesTable (λ d, owned_by owner d && negb (Device.Disabled d))) in
    do! m_for (λ device, do! m_wrap ("failed to block device '" +:+ Device.Name device +:+ "'")
      (gorm_UpdateColumns DevicesTable (row_of device) (λ d, Some (disable d))); m_ret tt) blocked;
    m_ret blocked)) in
  let changed := disable <$> blocked in
  do! m_for EmitUpdate changed;
  m_ret changed.

(** ** allocation_lock.go: taking the lock

    SQLite has none: the mutex of the process is enough. *)
Definition allocationLockName : string := "wg-access-server/ip-allocation".
Definition sql_AllocationLock : M SQL unit := λ s,
  match sqlType s with
  | sqlite3 => (Ok tt, s)
  | mysql => m_wrap "failed to acquire the IP allocation lock" (on_db (db_lock allocationLockName)) s
  end.

(** ** Users *)
Definition with_subject (subject : string) (u : User) : bool := String.eqb (User.Subject u) subject.
(** [AssignmentColumns] of provider, name, email, policies and last_login. *)
Definition login_columns (user u : User) : User :=
  User.mk (User.Subject u) (User.Provider user) (User.Name user) (User.Email user) (User.Policies user)
    (User.LastLogin user) (User.PasswordHash u) (User.WebauthnChallenge u) (User.WebauthnChallengeUntil u)
    (User.TotpSecret u) (User.TotpEnabledAt u) (User.TotpRecovery u) (User.TotpLastStep u)
    (User.PasswordFrom u).
Definition sql_SaveUser (user : User) : M SQL unit :=
  m_wrap "failed to write user" (on_db (gorm_CreateOrAssign UsersTable user (login_columns user))).

Definition change_row (failed subject : string) (columns : User → User) : M SQL unit :=
  let! rowsAffected := m_wrap failed
    (on_db (gorm_UpdateColumns UsersTable (with_subject subject) (λ u, Some (columns u)))) in
  stop! (PlainError ("user '" +:+ subject +:+ "' does not exist")) when rowsAffected =? 0;
  m_ret tt.
Definition sql_SetUserTOTP (subject : string) (state : TOTPState) : M SQL unit :=
  change_row ("failed to write the second factor of user '" +:+ subject +:+ "'") subject (User.with_TOTP state).
Definition sql_SetUserPassword (subject hash from : string) : M SQL unit :=
  change_row ("failed to write the password of user '" +:+ subject +:+ "'") subject (User.with_Password hash from).
Definition sql_SetWebauthnChallenge (subject data : string) (until : option Time) : M SQL unit :=
  change_row "failed to write the webauthn challenge" subject (User.with_Challenge data until).

(** [if errors.Is(err, gorm.ErrRecordNotFound) { return notFound }], the wrapped error else. *)
Definition or_missing {A} (notFound : sentinel) (failed : string) (m : M SQL A) : M SQL A :=
  let! r := m_try m in
  match r with
  | Ok x => m_ret x
  | Err e => if error_is e ErrRecordNotFound then m_fail (SentinelError notFound)
             else m_fail (WrappedError failed e)
  end.
Definition sql_GetUser (subject : string) : M SQL User :=
  or_missing ErrUserNotFound "failed to read user" (on_db (gorm_First UsersTable (with_subject subject))).
Definition sql_Users : M SQL (list User) :=
  m_wrap "failed to read users from sql" (on_db (gorm_Find UsersTable everything)).
Definition sql_DeleteUser (subject : string) : M SQL unit :=
  m_wrap "failed to delete user" (on_db (gorm_Transaction (
    do! gorm_DeleteWhere PasskeysTable (λ p, String.eqb (Passkey.Owner p) subject);
    do! gorm_DeleteWhere UsersTable (with_subject subject);
    m_ret tt))).

(** ** sessions.go *)
Definition session_id (id : string) (x : Session) : bool := String.eqb (Session.ID x) id.
Definition sql_SaveSession (session : Session) : M SQL unit :=
  m_wrap "failed to write session" (db_Create SessionsTable session).
Definition sql_GetSessionByHash (hash : string) : M SQL Session :=
  or_missing ErrSessionNotFound "failed to read session"
    (on_db (gorm_First SessionsTable (λ x, String.eqb (Session.Hash x) hash))).
Definition sql_ListSessions (owner : string) : M SQL (list Session) :=
  m_wrap "failed to read sessions" (on_db (gorm_FindOrdered SessionsTable
    (λ x, String.eqb (Session.Owner x) owner) Session.CreatedAt true)).
Definition sql_TouchSession (id : string) (at_ : Time) : M SQL unit :=
  let! rowsAffected := m_wrap "failed to record the use of a session"
    (on_db (gorm_UpdateColumns SessionsTable (session_id id) (λ x, Some (Session.with_LastSeenAt at_ x)))) in
  stop! (SentinelError ErrSessionNotFound) when rowsAffected =? 0;
  m_ret tt.
Definition sql_DeleteSession (id : string) : M SQL unit :=
  do! m_wrap "failed to delete session" (on_db (gorm_DeleteWhere SessionsTable (session_id id))); m_ret tt.
Definition sql_DeleteSessionsForOwner (owner : string) : M SQL Z :=
  m_wrap "failed to delete the sessions of the user"
    (on_db (gorm_DeleteWhere SessionsTable (λ x, String.eqb (Session.Owner x) owner))).
Definition sql_DeleteExpiredSessions (now : Time) : M SQL Z :=
  m_wrap "failed to delete expired sessions"
    (on_db (gorm_DeleteWhere SessionsTable (λ x, Session.ExpiresAt x <=? now))).

(** ** tokens.go *)
Definition token_id (id : string) (x : APIToken) : bool := String.eqb (APIToken.ID x) id.
Definition sql_SaveToken (token : APIToken) : M SQL unit :=
  m_wrap "failed to write api token" (db_Create TokensTable token).
Definition sql_ListTokens (owner : string) : M SQL (list APIToken) :=
  m_wrap "failed to read api tokens" (on_db (gorm_FindOrdered TokensTable
    (if negb (String.eqb owner "") then λ x, String.eqb (APIToken.Owner x) owner else everything)
    APIToken.CreatedAt false)).
Definition firstToken (where_ : APIToken → bool) : M SQL APIToken :=
  or_missing ErrTokenNotFound "failed to read api token" (on_db (gorm_First TokensTable where_)).
Definition sql_GetToken (id : string) : M SQL APIToken := firstToken (token_id id).
Definition sql_GetTokenByHash (hash : string) : M SQL APIToken :=
  firstToken (λ x, String.eqb (APIToken.Hash x) hash).
Definition sql_TouchToken (id : string) (at_ : Time) : M SQL unit :=
  do! m_wrap "failed to record the use of an api token"
    (on_db (gorm_UpdateColumns TokensTable (token_id id) (λ x, Some (APIToken.with_LastUsedAt at_ x))));
  m_ret tt.
Definition sql_DeleteToken (id : string) : M SQL unit :=
  let! rowsAffected := m_wrap "failed to delete api token" (on_db (gorm_DeleteWhere TokensTable (token_id id))) in
  stop! (SentinelError ErrTokenNotFound) when rowsAffected =? 0;
  m_ret tt.
Definition sql_DeleteTokensForOwner (owner : string) : M SQL Z :=
  m_wrap "failed to delete the api tokens of the user"
    (on_db (gorm_DeleteWhere TokensTable (λ x, String.eqb (APIToken.Owner x) owner))).

(** ** passkeys.go *)
(** [id = ? AND owner = ?] *)
Definition passkey_of (owner id : string) (p : Passkey) : bool :=
  String.eqb (Passkey.ID p) id && String.eqb (Passkey.Owner p) owner.
Definition sql_AddPasskey (passkey : Passkey) : M SQL unit :=
  let! rowsAffected := m_wrap "failed to write the passkey" (on_db (gorm_CreateOrNothing PasskeysTable passkey)) in
  stop! (SentinelError StoragePasskeyExists) when rowsAffected =? 0;
  m_ret tt.
Definition write_passkey (failed owner id : string) (columns : Passkey → Passkey) : M SQL unit :=
  let! rowsAffected := m_wrap failed
    (on_db (gorm_UpdateColumns PasskeysTable (passkey_of owner id) (λ p, Some (columns p)))) in
  stop! (SentinelError ErrPasskeyNotFound) when rowsAffected =? 0;
  m_ret tt.
Definition sql_UpdatePasskey (passkey : Passkey) : M SQL unit :=
  write_passkey "failed to write the passkey" (Passkey.Owner passkey) (Passkey.ID passkey)
    (λ p, Passkey.mk (Passkey.ID p) (Passkey.Owner p) (Passkey.Name passkey) (Passkey.Data passkey)
       (Passkey.CreatedAt p) (Passkey.LastUsedAt passkey)).
Definition sql_RenamePasskey (owner id name : string) : M SQL unit :=
  write_passkey "failed to rename the passkey" owner id (Passkey.with_Name name).
Definition sql_ListPasskeys (owner : string) : M SQL (list Passkey) :=
  let! passkeys := m_wrap "failed to list the passkeys"
    (on_db (gorm_Find PasskeysTable (λ p, String.eqb (Passkey.Owner p) owner))) in
  m_ret (sortPasskeys passkeys).
Definition sql_GetPasskey (id : string) : M SQL Passkey :=
  or_missing ErrPasskeyNotFound "failed to read the passkey"
    (on_db (gorm_First PasskeysTable (λ p, String.eqb (Passkey.ID p) id))).
Definition sql_DeletePasskey (owner id : string) : M SQL unit :=
  let! rowsAffected := m_wrap "failed to delete the passkey"
    (on_db (gorm_DeleteWhere PasskeysTable (passkey_of owner id))) in
  stop! (SentinelError ErrPasskeyNotFound) when rowsAffected =? 0;
  m_ret tt.

#[export] Instance SQL_Storage : Storage SQL := {
  Save := sql_Save; RecordMetadata := sql_RecordMetadata; Rename := sql_Rename;
  SetAccess := sql_SetAccess; SetRoutes := sql_SetRoutes; SetKeys := sql_SetKeys;
  List_ := sql_List; Addresses := sql_Addresses; Get := sql_Get;
  GetByPublicKey := sql_GetByPublicKey; Delete := sql_Delete;
  DeleteForOwner := sql_DeleteForOwner; BlockForOwner := sql_BlockForOwner;
  AllocationLock := sql_AllocationLock; SaveUser := sql_SaveUser; GetUser := sql_GetUser; Users := sql_Users;
  DeleteUser := sql_DeleteUser; SetUserPassword := sql_SetUserPassword;
  SetUserTOTP := sql_SetUserTOTP;
  SaveSession := sql_SaveSession; GetSessionByHash := sql_GetSessionByHash;
  ListSessions := sql_ListSessions; TouchSession := sql_TouchSession;
  DeleteSession := sql_DeleteSession; DeleteSessionsForOwner := sql_DeleteSessionsForOwner;
  DeleteExpiredSessions := sql_DeleteExpiredSessions;
  SaveToken := sql_SaveToken; ListTokens := sql_ListTokens; GetToken := sql_GetToken;
  GetTokenByHash := sql_GetTokenByHash; TouchToken := sql_TouchToken;
  DeleteToken := sql_DeleteToken; DeleteTokensForOwner := sql_DeleteTokensForOwner;
  AddPasskey := sql_AddPasskey; UpdatePasskey := sql_UpdatePasskey;
  RenamePasskey := sql_RenamePasskey; ListPasskeys := sql_ListPasskeys;
  GetPasskey := sql_GetPasskey; DeletePasskey := sql_DeletePasskey;
  SetWebauthnChallenge := sql_SetWebauthnChallenge;
  emitted := sql_log }.
End sql.
