(* ===== verification/SqlLaws.v ===== *)
(** * The SQL storage keeps the contract of the storage

    What is relied on of GORM and the databases behind it, as the laws of a class,
    and from it the laws of [Storage.v] for [SqlStorage.v]: everything proved of
    programs on a storage holds of them on a database. *)
From S2P Require Import Prelude GoText Storage InMemory InMemoryLaws SqlStorage.

(** ** A table as a list of rows, and as a map *)
Definition to_map {K T} `{Countable K} (key : T → K) (l : list T) : gmap K T :=
  list_to_map ((λ x, (key x, x)) <$> l).

Section to_map.
  Context {K T : Type} `{Countable K} (key : T → K).
  Implicit Types (l : list T) (x : T) (k : K).

Lemma to_map_keys l : ((λ x, (key x, x)) <$> l).*1 = key <$> l.
Proof. rewrite <- list_fmap_compose. by apply list_fmap_ext. Qed.
Lemma to_map_lookup l k x : NoDup (key <$> l) → to_map key l !! k = Some x ↔ x ∈ l ∧ key x = k.
Proof.
  intros Hnd. unfold to_map. rewrite <- elem_of_list_to_map by by rewrite to_map_keys.
  rewrite list_elem_of_fmap. naive_solver.
Qed.
Lemma to_map_none l k : to_map key l !! k = None ↔ k ∉ key <$> l.
Proof. unfold to_map. rewrite <- not_elem_of_list_to_map, to_map_keys. done. Qed.
Lemma keys_filter l (P : T → Prop) `{∀ x, Decision (P x)} : NoDup (key <$> l) → NoDup (key <$> filter P l).
Proof.
  induction l as [|x l IH]; [done|]. cbn [fmap list_fmap]. intros [Hx Hl]%NoDup_cons. rewrite filter_cons.
  case_decide; [|by apply IH]. cbn. apply NoDup_cons. split; [|by apply IH].
  intros (y & Ey & [_ Hy]%list_elem_of_filter)%list_elem_of_fmap. apply Hx, list_elem_of_fmap. by exists y.
Qed.
(** Which rows a table has is all there is to it. *)
Lemma to_map_ext l m : NoDup (key <$> l) → (∀ k x, m !! k = Some x ↔ x ∈ l ∧ key x = k) → to_map key l = m.
Proof.
  intros Hnd Hm. apply map_eq. intros k. apply option_eq. intros x. by rewrite to_map_lookup, Hm.
Qed.
Lemma to_map_perm l l' : NoDup (key <$> l) → l ≡ₚ l' → to_map key l = to_map key l'.
Proof.
  intros Hnd Hp. apply list_to_map_proper; [by rewrite to_map_keys|]. by rewrite Hp.
Qed.
Lemma to_map_filter l (P : T → Prop) `{∀ x, Decision (P x)} : NoDup (key <$> l) →
  to_map key (filter P l) = filter (λ kx, P kx.2) (to_map key l).
Proof.
  intros Hnd. apply to_map_ext; [by apply keys_filter|]. intros k x.
  rewrite map_lookup_filter_Some, to_map_lookup, list_elem_of_filter by done. cbn. naive_solver.
Qed.
Lemma to_map_values l : NoDup (key <$> l) → (map_to_list (to_map key l)).*2 ≡ₚ l.
Proof.
  intros Hnd. unfold to_map. rewrite map_to_list_to_map by by rewrite to_map_keys.
  rewrite <- list_fmap_compose. cbn. by rewrite list_fmap_id.
Qed.
Lemma to_map_size l : NoDup (key <$> l) → size (to_map key l) = List.length l.
Proof.
  intros Hnd. unfold to_map. rewrite map_size_list_to_map by by rewrite to_map_keys. by rewrite length_fmap.
Qed.
Lemma to_map_fmap l f : (∀ x, key (f x) = key x) → to_map key (f <$> l) = f <$> to_map key l.
Proof.
  intros Hf. unfold to_map. rewrite <- list_to_map_fmap, <- !list_fmap_compose. f_equal.
  apply list_fmap_ext. intros i x _. cbn. by rewrite Hf.
Qed.
(** A statement that changes the row of one key, which may move it to another. *)
Lemma to_map_update l (P : T → bool) f k x : NoDup (key <$> l) → (∀ x, P x = true ↔ key x = k) →
  let l' := (λ x, if P x then f x else x) <$> l in
  NoDup (key <$> l') → x ∈ l → key x = k →
  to_map key l' = <[key (f x) := f x]> (delete k (to_map key l)).
Proof.
  intros Hnd HP l' Hnd' Hx Hk. apply elem_of_Permutation in Hx as [l0 Hl].
  assert (k ∉ key <$> l0 ∧ NoDup (key <$> l0)) as [Hk0 Hnd0].
  { rewrite Hl in Hnd. cbn in Hnd. rewrite Hk in Hnd. by apply NoDup_cons in Hnd. }
  assert (l' ≡ₚ f x :: l0) as Hl'.
  { subst l'. rewrite Hl. cbn. rewrite (proj2 (HP x) Hk).
    rewrite (list_fmap_ext (λ x, if P x then f x else x) id l0); [by rewrite list_fmap_id|].
    intros i y Hy. destruct (P y) eqn:E; [|done]. exfalso. apply Hk0, list_elem_of_fmap. exists y.
    split; [symmetry; by apply HP|]. by eapply list_elem_of_lookup_2. }
  rewrite (to_map_perm _ _ Hnd' Hl'), (to_map_perm _ _ Hnd Hl). unfold to_map at 1 2. cbn. f_equal.
  rewrite Hk, delete_insert_eq, delete_id; [done|]. by apply to_map_none.
Qed.
(** One that leaves the row under its key, and one that finds no row. *)
Lemma to_map_update_in l (P : T → bool) f k x : NoDup (key <$> l) → (∀ x, P x = true ↔ key x = k) →
  (∀ x, key (f x) = key x) → to_map key l !! k = Some x →
  to_map key ((λ x, if P x then f x else x) <$> l) = <[k := f x]> (to_map key l).
Proof.
  intros Hnd HP Hf [Hx Hk]%to_map_lookup; [|done]. rewrite (to_map_update l P f k x); [|done..| |done|done].
  - by rewrite Hf, Hk, insert_delete_eq.
  - rewrite <- list_fmap_compose. rewrite (list_fmap_ext _ key l); [done|].
    intros i y _. cbn. by destruct (P y).
Qed.
Lemma to_map_update_none l (P : T → bool) f k : (∀ x, P x = true ↔ key x = k) →
  to_map key l !! k = None → (λ x, if P x then f x else x) <$> l = l.
Proof.
  intros HP Hk%to_map_none. rewrite <- (list_fmap_id l) at 2. apply list_fmap_ext. intros i y Hy.
  destruct (P y) eqn:E; [|done]. exfalso. apply Hk, list_elem_of_fmap. exists y.
  split; [symmetry; by apply HP|]. by eapply list_elem_of_lookup_2.
Qed.
End to_map.

(** ** What GORM and the database promise

    A statement that fails changes nothing; one that succeeds leaves the rows it
    says in its table, and the other tables alone. The rows of a table are a list
    in no particular order. Strings are compared byte by byte, and a value is read
    back as it was written: a MySQL with a collation that ignores case, or one that
    rounds the times, promises less. *)
Section database.
  Context {D : Type} (rows : ∀ T, Table T → D → list T) (db_ok : D → Prop) (saved : D → option D).

Definition same_rows (d d' : D) : Prop := ∀ T (t : Table T), rows T t d' ≡ₚ rows T t d.
Definition untouched (d d' : D) : Prop := db_ok d' ∧ saved d' = saved d ∧ same_rows d d'.
Definition wrote {T} (t : Table T) (l : list T) (d d' : D) : Prop :=
  db_ok d' ∧ saved d' = saved d ∧ rows T t d' ≡ₚ l ∧
  ∀ T' (t' : Table T'), TableName t' ≠ TableName t → rows T' t' d' ≡ₚ rows T' t' d.
(** A statement that writes the rows [P] allows, or fails. *)
Definition statement {T A} (t : Table T) (m : M D A) (P : list T → A → list T → Prop) : Prop :=
  ∀ d r d', db_ok d → m d = (r, d') →
    match r with
    | Ok a => ∃ l, P (rows T t d) a l ∧ wrote t l d d'
    | Err _ => untouched d d'
    end.
Definition reads_rows {T A} (t : Table T) (m : M D A) (P : list T → result A → Prop) : Prop :=
  ∀ d r d', db_ok d → m d = (r, d') → d' = d ∧ P (rows T t d) r.
End database.

(** An error of the database is none of the program's own. *)
Definition db_error (e : goerror) : Prop := ∀ s, s ≠ ErrRecordNotFound → error_is e s = false.

Class GormLaws (D : Type) `{Gorm D} := {
  rows {T} : Table T → D → list T;
  db_ok : D → Prop;
  (* the state an open transaction goes back to *)
  saved : D → option D;
  (* RowsAffected of an update counts the rows that match; a MySQL counts
     those that changed, unless the connection asks for the other *)
  found_rows : bool;
  gorm_keys {T} (t : Table T) d : db_ok d → NoDup (primaryKey t <$> rows t d);
  gorm_unique {T} (t : Table T) d : db_ok d → NoDup (omap (uniqueIndex t) (rows t d));
  gorm_storable {T} (t : Table T) d : db_ok d → Forall (storable t) (rows t d);
  law_Count {T} (t : Table T) P : reads_rows (@rows) db_ok t (gorm_Count t P)
    (λ l, on_ok (λ n, n = Z.of_nat (List.length (filter (λ x, P x = true) l))));
  law_Find {T} (t : Table T) P : reads_rows (@rows) db_ok t (gorm_Find t P)
    (λ l, on_ok (λ found, found ≡ₚ filter (λ x, P x = true) l));
  law_FindOrdered {T} (t : Table T) P column desc :
    reads_rows (@rows) db_ok t (gorm_FindOrdered t P column desc)
      (λ l, on_ok (λ found, found ≡ₚ filter (λ x, P x = true) l ∧
         Sorted (λ x y, if desc : bool then column y <= column x else column x <= column y) found));
  law_First {T} (t : Table T) P : reads_rows (@rows) db_ok t (gorm_First t P)
    (λ l r, match r with
            | Ok x => x ∈ l ∧ P x = true
            | Err e => db_error e ∧ (error_is e ErrRecordNotFound = true → ∀ x, x ∈ l → P x = false)
            end);
  law_Create {T} (t : Table T) x : statement (@rows) db_ok saved t (gorm_Create t x) (λ l _ l', l' = x :: l);
  law_CreateOrAssign {T} (t : Table T) x assign :
    statement (@rows) db_ok saved t (gorm_CreateOrAssign t x assign) (λ l _ l',
      (primaryKey t x ∉ primaryKey t <$> l ∧ l' = x :: l) ∨
      (primaryKey t x ∈ primaryKey t <$> l ∧
       l' = (λ y, if bool_decide (primaryKey t y = primaryKey t x) then assign y else y) <$> l));
  law_CreateOrNothing {T} (t : Table T) x :
    statement (@rows) db_ok saved t (gorm_CreateOrNothing t x) (λ l n l',
      n = 1 ∧ l' = x :: l ∨
      n = 0 ∧ l' = l ∧ (primaryKey t x ∈ primaryKey t <$> l ∨
                        ∃ u, uniqueIndex t x = Some u ∧ u ∈ omap (uniqueIndex t) l));
  law_CreateOrNothing_error {T} (t : Table T) x d e d' : gorm_CreateOrNothing t x d = (Err e, d') → db_error e;
  law_Updates {T} (t : Table T) x : statement (@rows) db_ok saved t (gorm_Updates t x) (λ l _ l',
    full_key t x → l' = (λ y, if bool_decide (primaryKey t y = primaryKey t x) then x else y) <$> l);
  law_UpdateColumns {T} (t : Table T) P columns :
    statement (@rows) db_ok saved t (gorm_UpdateColumns t P columns) (λ l n l',
      (∀ x, x ∈ l → P x = true → columns x ≠ None) ∧
      l' = (λ x, if P x then default x (columns x) else x) <$> l ∧
      (n = 0 ↔ ∀ x, x ∈ l → P x = true → found_rows = false ∧ columns x = Some x));
  law_DeleteWhere {T} (t : Table T) P :
    statement (@rows) db_ok saved t (gorm_DeleteWhere t P) (λ l n l',
      n = Z.of_nat (List.length (filter (λ x, P x = true) l)) ∧ l' = filter (λ x, P x = false) l);
  law_gorm_Delete {T} (t : Table T) x :
    statement (@rows) db_ok saved t (gorm_Delete t x) (λ l _ l',
      l' = filter (λ y, primaryKey t y ≠ primaryKey t x) l);
  law_Transaction {A} (fn : M D A) d r d' : db_ok d → gorm_Transaction fn d = (r, d') →
    match r with
    | Ok a => ∃ d1 d2, db_ok d1 ∧ same_rows (@rows) d d1 ∧ fn d1 = (Ok a, d2) ∧
        (db_ok d2 → db_ok d') ∧ same_rows (@rows) d2 d'
    | Err _ => untouched (@rows) db_ok saved d d'
    end;
  law_Begin d r d' : db_ok d → gorm_Begin d = (r, d') →
    match r with
    | Ok _ => db_ok d' ∧ saved d' = Some d ∧ same_rows (@rows) d d'
    | Err _ => untouched (@rows) db_ok saved d d'
    end;
  law_Commit d d0 r d' : db_ok d → db_ok d0 → saved d = Some d0 → gorm_Commit d = (r, d') →
    db_ok d' ∧ same_rows (@rows) (if is_ok r then d else d0) d';
  law_Rollback d d0 r d' : db_ok d → db_ok d0 → saved d = Some d0 → gorm_Rollback d = (r, d') →
    db_ok d' ∧ same_rows (@rows) d0 d';
  law_plus a b c : sql_plus a b = Some c → c = a + b ∧ int64 c;
  law_lock name d r d' : db_ok d → db_lock name d = (r, d') → untouched (@rows) db_ok saved d d' }.

(** ** The tables of the contract *)
Section view.
  Context {D : Type} `{GormLaws D}.
  Notation SQL := (SQLStorage D).
  Implicit Types (d : D) (s : SQL).

Definition db_view (d : D) : Abs :=
  mkAbs (to_map Device.key (rows DevicesTable d)) (to_map User.Subject (rows UsersTable d))
    (to_map Session.ID (rows SessionsTable d)) (to_map APIToken.ID (rows TokensTable d))
    (to_map Passkey.ID (rows PasskeysTable d)).
Definition sql_view (s : SQL) : Abs := db_view (sql_db s).
Definition sql_ok (s : SQL) : Prop := db_ok (sql_db s).
Notation wrote := (wrote (@rows D _ _) db_ok saved).
Notation untouched := (untouched (@rows D _ _) db_ok saved).
Notation same_rows := (same_rows (@rows D _ _)).

Lemma NoDup_first {T} (key : T → string) l : NoDup ((λ x, (key x, "")) <$> l) → NoDup (key <$> l).
Proof.
  intros Hn. apply (NoDup_fmap_1 (λ k : string, (k, ""))). by rewrite <- list_fmap_compose.
Qed.
Lemma devices_keys d : db_ok d → NoDup (Device.key <$> rows DevicesTable d).
Proof. exact (gorm_keys DevicesTable d). Qed.
Lemma users_keys d : db_ok d → NoDup (User.Subject <$> rows UsersTable d).
Proof. intros Hd. by apply NoDup_first, (gorm_keys UsersTable). Qed.
Lemma sessions_keys d : db_ok d → NoDup (Session.ID <$> rows SessionsTable d).
Proof. intros Hd. by apply NoDup_first, (gorm_keys SessionsTable). Qed.
Lemma tokens_keys d : db_ok d → NoDup (APIToken.ID <$> rows TokensTable d).
Proof. intros Hd. by apply NoDup_first, (gorm_keys TokensTable). Qed.
Lemma passkeys_keys d : db_ok d → NoDup (Passkey.ID <$> rows PasskeysTable d).
Proof. intros Hd. by apply NoDup_first, (gorm_keys PasskeysTable). Qed.
Hint Resolve devices_keys users_keys sessions_keys tokens_keys passkeys_keys : sql.

Lemma same_rows_view d d' : db_ok d → same_rows d d' → db_view d' = db_view d.
Proof.
  intros Hd Hs. unfold db_view. f_equal; symmetry; apply to_map_perm; eauto with sql; symmetry; apply Hs.
Qed.
(** The tables with one of them replaced. *)
Definition put {T} (t : Table T) : list T → Abs → Abs :=
  match t with
  | DevicesTable => λ l, on_devices (λ _, to_map Device.key l)
  | UsersTable => λ l, on_users (λ _, to_map User.Subject l)
  | SessionsTable => λ l, on_sessions (λ _, to_map Session.ID l)
  | TokensTable => λ l, on_tokens (λ _, to_map APIToken.ID l)
  | PasskeysTable => λ l, on_passkeys (λ _, to_map Passkey.ID l)
  end.
Lemma wrote_view {T} (t : Table T) l d d' : db_ok d → wrote t l d d' → db_view d' = put t l (db_view d).
Proof.
  intros Hd (Hd' & _ & Ht & Ho).
  destruct t; unfold db_view, put, on_devices, on_users, on_sessions, on_tokens, on_passkeys; cbn;
    f_equal; (apply to_map_perm; [by eauto with sql|]); first [exact Ht | by apply Ho].
Qed.
Lemma put_same {T} (t : Table T) d : put t (rows t d) (db_view d) = db_view d.
Proof. by destruct t. Qed.
(** What was written has the keys and the unique index of its table. *)
Record fits {T} (t : Table T) (l : list T) : Prop := {
  fits_keys : NoDup (primaryKey t <$> l);
  fits_unique : NoDup (omap (uniqueIndex t) l) }.
Lemma rows_fit {T} (t : Table T) d : db_ok d → fits t (rows t d).
Proof. intros Hd. constructor; [by apply gorm_keys|by apply gorm_unique]. Qed.
Lemma wrote_fits {T} (t : Table T) l d d' : wrote t l d d' → fits t l.
Proof.
  intros (Hd' & _ & Ht & _). constructor; rewrite <- Ht; [by apply gorm_keys|by apply gorm_unique].
Qed.

(** The unique index of a table, as the contract puts it. *)
Lemma unique_rows {T} (t : Table T) l x y u : fits t l → x ∈ l → y ∈ l →
  uniqueIndex t x = Some u → uniqueIndex t y = Some u → x = y.
Proof.
  intros [_ Hn] Hx Hy Hux Huy. apply elem_of_Permutation in Hx as [l0 Hl]. rewrite Hl in Hy, Hn.
  cbn in Hn. rewrite Hux in Hn. apply NoDup_cons in Hn as [Hn _]. apply elem_of_cons in Hy as [->|Hy]; [done|].
  exfalso. apply Hn. apply list_elem_of_omap. by exists y.
Qed.

Lemma sql_wf s : sql_ok s → wf_abs (sql_view s).
Proof.
  intros Hd. unfold sql_ok in Hd.
  constructor; cbn;
    try (intros k x [_ <-]%to_map_lookup; [done|by eauto with sql]);
    intros k1 k2 x1 x2 [H1 <-]%to_map_lookup [H2 <-]%to_map_lookup E; eauto with sql.
  - intros _. f_equal. eapply (unique_rows DevicesTable); cbn; [by apply rows_fit|done..|by rewrite E].
  - f_equal. eapply (unique_rows SessionsTable); cbn; [by apply rows_fit|done..|by rewrite E].
  - f_equal. eapply (unique_rows TokensTable); cbn; [by apply rows_fit|done..|by rewrite E].
Qed.

(** ** From statements to operations *)
Notation sql_effect := (effect sql_view sql_ok).

Lemma on_db_run {A} msg (m : M D A) s :
  m_wrap msg (on_db m) s = (wrap msg (m (sql_db s)).1, mkSQL (m (sql_db s)).2 (sqlType s) (sql_log s)).
Proof. unfold m_wrap, on_db, zoom. by destruct (m (sql_db s)). Qed.

(** The abstract tables around a statement: [a] before, [a'] after. *)
Definition around {T A} (t : Table T) (P : list T → A → list T → Prop) (a : Abs) (n : A) (a' : Abs) : Prop :=
  ∃ d l, db_ok d ∧ a = db_view d ∧ P (rows t d) n l ∧ fits t l ∧ a' = put t l a.
Lemma statement_effect {T A} msg (t : Table T) (m : M D A) P :
  statement (@rows D _ _) db_ok saved t m P →
  sql_effect (m_wrap msg (on_db m)) (λ a n a' evs, evs = [] ∧ around t P a n a').
Proof.
  intros Hm s r s' Hok E. rewrite on_db_run in E. injection E as <- <-.
  destruct (m (sql_db s)) as [r d'] eqn:Em. pose proof (Hm _ _ _ Hok Em) as Hs. cbn.
  destruct r as [n|e]; cbn.
  - destruct Hs as (l & HP & Hw). split; [apply Hw|]. exists []. rewrite app_nil_r. split; [|done]. split; [done|].
    exists (sql_db s), l. split; [done|]. split; [done|]. split; [done|]. split; [by eapply wrote_fits|].
    by apply wrote_view.
  - destruct Hs as (Hd' & _ & Hs). split; [done|]. split; [|done]. by apply same_rows_view.
Qed.
Lemma effect_weaken {A} (m : M SQL A) (P Q : Abs → A → Abs → list Event → Prop) :
  sql_effect m P → (∀ a r a' evs, P a r a' evs → Q a r a' evs) → sql_effect m Q.
Proof.
  intros Hm HPQ s r s' Hok E. destruct (Hm s r s' Hok E) as [Hok' Hr]. split; [done|].
  destruct r as [x|]; [|done]. destruct Hr as (evs & HP & He). exists evs. auto.
Qed.
(** A statement, and then what cannot fail and leaves the database alone. *)
Lemma effect_then {A B} (m : M SQL A) (k : A → M SQL B) P (b : A → B) evs0 :
  sql_effect m P →
  (∀ x s, ∃ s', k x s = (Ok (b x), s') ∧ sql_db s' = sql_db s ∧ sql_log s' = sql_log s ++ evs0 x) →
  sql_effect (m_bind m k) (λ a r a' evs, ∃ x evs1, r = b x ∧ P a x a' evs1 ∧ evs = evs1 ++ evs0 x).
Proof.
  intros Hm Hk s r s' Hok E. unfold m_bind in E. destruct (m s) as [[x|e] s1] eqn:Em.
  - destruct (Hm _ _ _ Hok Em) as (Hok1 & evs & HP & He). destruct (Hk x s1) as (s2 & Ek & Hdb & Hlog).
    rewrite Ek in E. injection E as <- <-. unfold sql_ok, sql_view in *. rewrite Hdb. split; [done|].
    exists (evs ++ evs0 x). split; [by exists x, evs|]. cbn in *. by rewrite Hlog, He, app_assoc.
  - injection E as <- <-. by destruct (Hm _ _ _ Hok Em).
Qed.
(** A statement that has to affect a row. *)
Lemma effect_affected {B} (m : M SQL Z) (k : M SQL B) err P (b : B) evs0 :
  sql_effect m P → (∀ a a' evs, P a 0 a' evs → a' = a ∧ evs = []) →
  (∀ s, ∃ s', k s = (Ok b, s') ∧ sql_db s' = sql_db s ∧ sql_log s' = sql_log s ++ evs0) →
  sql_effect (let! n := m in stop! err when n =? 0; k)
    (λ a r a' evs, r = b ∧ ∃ n evs1, n ≠ 0 ∧ P a n a' evs1 ∧ evs = evs1 ++ evs0).
Proof.
  intros Hm Hz Hk s r s' Hok E. unfold m_bind in E. destruct (m s) as [[n|e] s1] eqn:Em.
  - destruct (Hm _ _ _ Hok Em) as (Hok1 & evs & HP & He). destruct (n =? 0) eqn:En.
    + apply Z.eqb_eq in En as ->. injection E as <- <-. destruct (Hz _ _ _ HP) as [Hv ->].
      split; [done|]. cbn in *. rewrite app_nil_r in He. done.
    + apply Z.eqb_neq in En. destruct (Hk s1) as (s2 & Ek & Hdb & Hlog). rewrite Ek in E. injection E as <- <-.
      unfold sql_ok, sql_view in *. rewrite Hdb. split; [done|]. exists (evs ++ evs0).
      split; [split; [done|]; by exists n, evs|]. cbn in *. by rewrite Hlog, He, app_assoc.
  - injection E as <- <-. by destruct (Hm _ _ _ Hok Em).
Qed.
(** An update whose columns always have a value. *)
Lemma update_around {T} (t : Table T) (P : T → bool) (f : T → T) a n a' :
  around t (λ l n l', (∀ x, x ∈ l → P x = true → Some (f x) ≠ None) ∧
      l' = (λ x, if P x then default x (Some (f x)) else x) <$> l ∧
      (n = 0 ↔ ∀ x, x ∈ l → P x = true → found_rows = false ∧ Some (f x) = Some x)) a n a' →
  ∃ d, db_ok d ∧ a = db_view d ∧
    let l' := (λ x, if P x then f x else x) <$> rows t d in
    fits t l' ∧ a' = put t l' a ∧ (n = 0 → a' = a) ∧ (n ≠ 0 → ∃ x, x ∈ rows t d ∧ P x = true).
Proof.
  intros (d & l & Hd & -> & (_ & -> & Hn) & Hf & ->). exists d. split; [done|]. split; [done|]. cbn.
  split; [done|]. split; [done|]. split.
  - intros Hz. rewrite <- (put_same t d) at 2. f_equal. rewrite <- (list_fmap_id (rows t d)) at 2.
    apply list_fmap_ext. intros i x Hx. destruct (P x) eqn:E; [|done].
    apply (proj1 Hn Hz x) in E as [_ [= ->]]; [done|]. by eapply list_elem_of_lookup_2.
  - intros Hz. destruct (decide (Exists (λ x, P x = true) (rows t d))) as [He|He].
    + apply Exists_exists in He as (x & ? & ?). by exists x.
    + exfalso. apply Hz, Hn. intros x Hx HPx. exfalso. apply He, Exists_exists. by exists x.
Qed.

(** ** Devices *)
Lemma row_of_iff device x : row_of device x = true ↔ Device.key x = Device.key device.
Proof.
  unfold row_of, named, Device.key. rewrite andb_true_iff, !String.eqb_eq. split; [by intros [-> ->]|by intros [= -> ->]].
Qed.
Lemma named_iff owner name x : named owner name x = true ↔ Device.key x = (owner, name).
Proof. unfold named, Device.key. rewrite andb_true_iff, !String.eqb_eq. split; [by intros [-> ->]|by intros [= -> ->]]. Qed.

Lemma change_device_effect failed device f : sql_effect (change_device failed device f) (λ a r a' evs,
  r = f device ∧ evs = [EvUpdate r] ∧ ∃ d x, db_ok d ∧ a = db_view d ∧
    devices a !! Device.key device = Some x ∧
    let l' := (λ x, if row_of device x then f x else x) <$> rows DevicesTable d in
    fits DevicesTable l' ∧ a' = put DevicesTable l' a).
Proof.
  eapply effect_weaken.
  - apply (effect_affected _ _ _ _ (f device) [EvUpdate (f device)]
      (statement_effect failed DevicesTable _ _ (law_UpdateColumns DevicesTable (row_of device) (λ x, Some (f x))))).
    + intros a a' evs [-> Ha]. apply update_around in Ha as (d & _ & _ & _ & _ & Hz & _). split; [by apply Hz|done].
    + intros s. by exists (mkSQL (sql_db s) (sqlType s) (sql_log s ++ [EvUpdate (f device)])).
  - intros a r a' evs (-> & n & evs1 & Hn & [-> Ha] & ->). split; [done|]. split; [done|].
    apply update_around in Ha as (d & Hd & -> & Hf & -> & _ & Hx).
    destruct (Hx Hn) as (x & Hx' & HP). exists d, x. split; [done|]. split; [done|]. split; [|done].
    apply to_map_lookup; [by apply devices_keys|]. split; [done|]. by apply row_of_iff.
Qed.
Lemma sql_law_change failed device f : (∀ x, Device.key (f x) = Device.key x) →
  changes_device sql_view sql_ok (change_device failed device f) device f.
Proof.
  intros Hf. eapply effect_weaken; [apply change_device_effect|].
  intros a r a' evs (-> & -> & d & x & Hd & -> & Hx & _ & ->). exists x. split; [done|]. split; [|by auto].
  unfold put, on_devices. cbn. f_equal. apply to_map_update_in; [by apply devices_keys|apply row_of_iff|done|done].
Qed.
Lemma sql_law_SetKeys (d : Device) pk psk : sql_effect (sql_SetKeys d pk psk) (λ a r a' evs,
  ∃ stored, devices a !! Device.key d = Some stored ∧ key_free (devices a) (Device.key d) pk ∧
    a' = on_devices <[Device.key d := Device.with_Keys pk psk stored]> a ∧
    (r = Device.with_Keys pk psk stored ∨ r = Device.with_Keys pk psk d) ∧ evs = [EvUpdate r]).
Proof.
  eapply effect_weaken; [apply change_device_effect|].
  intros a r a' evs (-> & -> & db & x & Hd & -> & Hx & Hfit & ->). exists x. split; [done|].
  apply to_map_lookup in Hx as [Hx Hk]; [|by apply devices_keys]. split; [|split; [|by auto]].
  - intros k' d' [Hd' <-]%to_map_lookup Hne Hpk; [|by apply devices_keys].
    set (f := Device.with_Keys pk psk) in *.
    assert (f x = d') as E.
    { eapply (unique_rows _ _ _ _ pk Hfit); [| |done|by cbn; rewrite Hpk].
      - apply list_elem_of_fmap. exists x. split; [|done]. by rewrite (proj2 (row_of_iff d x) Hk).
      - apply list_elem_of_fmap. exists d'. split; [|done].
        destruct (row_of d d') eqn:Er; [|done]. by apply row_of_iff in Er. }
    apply Hne. rewrite <- E. exact Hk.
  - unfold put, on_devices. cbn. f_equal.
    apply to_map_update_in; [by apply devices_keys|apply row_of_iff|done|].
    apply to_map_lookup; [by apply devices_keys|done].
Qed.
Lemma sql_law_Rename (d : Device) newName : sql_effect (sql_Rename d newName) (λ a r a' evs,
  ∃ stored, devices a !! Device.key d = Some stored ∧
    a' = on_devices (λ m, <[(Device.Owner d, newName) := Device.with_Name newName stored]>
           (delete (Device.key d) m)) a ∧
    (r = Device.with_Name newName stored ∨ r = Device.with_Name newName d) ∧ evs = [EvUpdate r]).
Proof.
  eapply effect_weaken; [apply change_device_effect|].
  intros a r a' evs (-> & -> & db & x & Hd & -> & Hx & Hfit & ->). exists x. split; [done|].
  apply to_map_lookup in Hx as [Hx Hk]; [|by apply devices_keys]. split; [|by auto].
  unfold put, on_devices. cbn. f_equal.
  rewrite (to_map_update Device.key _ (row_of d) (Device.with_Name newName) (Device.key d) x);
    [|by apply devices_keys|apply row_of_iff|apply Hfit|done|done].
  unfold Device.key in *. cbn. by injection Hk as -> _.
Qed.

(** A statement with the callbacks after it. *)
Lemma after_effect {T} msg (t : Table T) m silent dest event P :
  statement (@rows D _ _) db_ok saved t m P →
  sql_effect (m_wrap msg (after m silent t dest event))
    (λ a n a' evs, evs = GormWatcher_emit silent false t dest event ∧ around t P a n a').
Proof.
  intros Hm s r s' Hok E. unfold m_wrap, after in E. destruct (m (sql_db s)) as [r0 d'] eqn:Em.
  injection E as <- <-. pose proof (Hm _ _ _ Hok Em) as Hs. destruct r0 as [n|e]; cbn.
  - destruct Hs as (l & HP & Hw). split; [apply Hw|]. eexists. split; [split; [done|]|done].
    exists (sql_db s), l. split; [done|]. split; [done|]. split; [done|]. split; [by eapply wrote_fits|].
    by apply wrote_view.
  - destruct Hs as (Hd' & _ & Hs). split; [done|]. split; [exact (same_rows_view _ _ Hok Hs)|].
    unfold GormWatcher_emit. destruct silent; by rewrite app_nil_r.
Qed.
(** A read, wrapped. *)
Lemma read_run {T A} msg (t : Table T) (m : M D A) P s r s' : reads_rows (@rows D _ _) db_ok t m P → sql_ok s →
  m_wrap msg (on_db m) s = (r, s') → s' = s ∧ ∃ r0, r = wrap msg r0 ∧ P (rows t (sql_db s)) r0.
Proof.
  intros Hm Hok E. rewrite on_db_run in E. injection E as <- <-.
  destruct (m (sql_db s)) as [r0 d'] eqn:Em. destruct (Hm _ _ _ Hok Em) as [-> HP]. cbn.
  split; [by destruct s|]. by exists r0.
Qed.

Lemma count_none device (l : list Device) :
  Z.of_nat (List.length (filter (λ x, row_of device x = true) l)) = 0 ↔ Device.key device ∉ Device.key <$> l.
Proof.
  split.
  - intros Hn (x & Hk & Hx)%list_elem_of_fmap.
    assert (x ∈ filter (λ x, row_of device x = true) l) as Hf.
    { apply list_elem_of_filter. split; [|done]. apply row_of_iff. by symmetry. }
    destruct (filter _ l); [by apply not_elem_of_nil in Hf|done].
  - intros Hn. destruct (filter (λ x, row_of device x = true) l) as [|x l'] eqn:E; [done|]. exfalso.
    assert (x ∈ filter (λ x, row_of device x = true) l) as [HP Hx]%list_elem_of_filter by (rewrite E; left).
    apply Hn, list_elem_of_fmap. exists x. split; [|done]. symmetry. by apply row_of_iff.
Qed.

Lemma free_of_fits (dev : Device) l d : db_ok d → fits DevicesTable l → dev ∈ l →
  (∀ y, y ∈ rows DevicesTable d → Device.key y ≠ Device.key dev → y ∈ l) →
  key_free (devices (db_view d)) (Device.key dev) (Device.PublicKey dev).
Proof.
  intros Hd Hf Hdev Hl k' d' [Hd' <-]%to_map_lookup Hne Hpk; [|by apply devices_keys].
  apply Hne. f_equal. eapply (unique_rows _ _ _ _ (Device.PublicKey dev) Hf); [by apply Hl|done|by cbn; f_equal|done].
Qed.

(** The two ways of saving: a row of its own, and the row that is there. *)
Lemma save_new (d : Device) db a' (u : unit) : around DevicesTable (λ l _ l', l' = d :: l) (db_view db) u a' →
  key_free (devices (db_view db)) (Device.key d) (Device.PublicKey d) ∧
  a' = on_devices <[Device.key d := d]> (db_view db).
Proof.
  intros (db0 & l & Hd & Ha & -> & Hf & ->). rewrite Ha. split; [|done].
  eapply free_of_fits; [done|exact Hf|left|]. intros y Hy _. by right.
Qed.
Lemma save_there (d : Device) db a' (u : unit) : full_key DevicesTable d → devices (db_view db) !! Device.key d ≠ None →
  around DevicesTable (λ l _ l', full_key DevicesTable d →
    l' = (λ y, if bool_decide (primaryKey DevicesTable y = primaryKey DevicesTable d) then d else y) <$> l)
    (db_view db) u a' →
  key_free (devices (db_view db)) (Device.key d) (Device.PublicKey d) ∧
  a' = on_devices <[Device.key d := d]> (db_view db).
Proof.
  intros Hkey Hin (db0 & l & Hd & Ha & Hl & Hf & ->). rewrite Ha in *. rewrite (Hl Hkey) in *. clear Hl.
  destruct (devices (db_view db0) !! Device.key d) as [x|] eqn:Hx; [|done].
  apply to_map_lookup in Hx as [Hx Hk]; [|by apply devices_keys]. split.
  - eapply free_of_fits; [done|exact Hf| |].
    + apply list_elem_of_fmap. exists x. split; [|done]. by rewrite bool_decide_eq_true_2.
    + intros y Hy Hne. apply list_elem_of_fmap. exists y. split; [|done]. by rewrite bool_decide_eq_false_2.
  - unfold put, on_devices. cbn. f_equal.
    rewrite (to_map_update Device.key _ _ (λ _, d) (Device.key d) x);
      [apply insert_delete_eq|by apply devices_keys|intros; apply bool_decide_eq_true|apply Hf|done|done].
Qed.
Lemma sql_law_Save (d : Device) : sql_effect (sql_Save d) (λ a _ a' evs,
  devices a !! Device.key d = None ∨ Device.Owner d ≠ "" ∧ Device.Name d ≠ "" →
  (Device.PublicKey d ≠ "" → key_free (devices a) (Device.key d) (Device.PublicKey d)) ∧
  a' = on_devices <[Device.key d := d]> a ∧
  (evs = [EvAdd d] ∨ evs = [] ∧ devices a !! Device.key d ≠ None)).
Proof.
  intros s r s' Hok E. unfold sql_Save, m_bind in E.
  destruct (m_wrap _ _ s) as [[n|e] s1] eqn:Ec;
    apply (read_run _ _ _ _ _ _ _ (law_Count DevicesTable (row_of d)) Hok) in Ec as (-> & r0 & Er & Hc);
    [|by injection E as <- <-].
  destruct r0 as [n0|]; [|done]. injection Er as ->. cbn in Hc. subst n0.
  assert (devices (sql_view s) !! Device.key d = None ↔
    Z.of_nat (List.length (filter (λ x, row_of d x = true) (rows DevicesTable (sql_db s)))) = 0) as Hnone.
  { rewrite count_none. apply to_map_none. }
  destruct (_ =? 0) eqn:En; [apply Z.eqb_eq in En|apply Z.eqb_neq in En].
  - destruct (m_wrap "failed to write device" (db_Create DevicesTable d) s) as [[u|e] s2] eqn:Ew;
      destruct (after_effect _ _ _ _ _ _ _ (law_Create DevicesTable d) _ _ _ Hok Ew) as [Hok2 Hw];
      injection E as <- <-; [|by split].
    split; [done|]. destruct Hw as (evs & [-> Hw] & He). exists [EvAdd d]. split; [|exact He]. intros _.
    apply save_new in Hw as [? ?]. auto.
  - destruct (m_wrap "failed to write device" (on_db (gorm_Updates DevicesTable d)) s) as [[u|e] s2] eqn:Ew;
      destruct (statement_effect _ _ _ _ (law_Updates DevicesTable d) _ _ _ Hok Ew) as [Hok2 Hw];
      injection E as <- <-; [|by split].
    split; [done|]. destruct Hw as (evs & [-> Hw] & He). exists []. split; [|exact He]. rewrite Hnone.
    intros [?|Hkey]; [done|]. apply save_there in Hw as [? ?]; [|done|by rewrite Hnone]. auto.
Qed.

Lemma delete_rows {K T} `{Countable K} (key : T → K) (l : list T) (k : K) : NoDup (key <$> l) →
  to_map key (filter (λ y, key y ≠ k) l) = delete k (to_map key l).
Proof.
  intros Hn. apply to_map_ext; [by apply keys_filter|]. intros k' x.
  rewrite lookup_delete_Some, to_map_lookup, list_elem_of_filter by done. naive_solver.
Qed.
Lemma sql_law_Delete (d : Device) : sql_effect (sql_Delete d) (λ a _ a' evs,
  a' = on_devices (delete (Device.key d)) a ∧ evs ≠ [] ∧ Forall (eq (EvDelete d)) evs).
Proof.
  eapply effect_weaken.
  - apply (effect_then _ (λ _, EmitDelete d) _ (λ u, tt) (λ _, [EvDelete d])
      (after_effect "failed to delete device file" DevicesTable _ false d EvDelete _ (law_gorm_Delete DevicesTable d))).
    intros _ s. by exists (mkSQL (sql_db s) (sqlType s) (sql_log s ++ [EvDelete d])).
  - intros a _ a' evs (u & evs1 & _ & [-> (db & l & Hd & -> & -> & _ & ->)] & ->). cbn. split; [|by auto].
    unfold put, on_devices. cbn. f_equal. apply (delete_rows Device.key). by apply devices_keys.
Qed.

(** The callbacks of [OnDelete] are run by the statement and by [EmitDelete]. *)
Theorem deleting_reports_twice (d : Device) s s' : sql_Delete d s = (Ok tt, s') →
  sql_log s' = sql_log s ++ [EvDelete d; EvDelete d].
Proof.
  unfold sql_Delete, db_Delete, after, m_wrap, m_bind. destruct (gorm_Delete _ _ _) as [[[]|e] db]; cbn; [|done].
  intros [= <-]. cbn. by rewrite <- app_assoc.
Qed.

(** ** Transactions *)
Lemma transaction_effect {A} (fn : M D A) (P : Abs → A → Abs → Prop) :
  (∀ d a d', db_ok d → fn d = (Ok a, d') → db_ok d' ∧ P (db_view d) a (db_view d')) →
  sql_effect (on_db (gorm_Transaction fn)) (λ a r a' evs, evs = [] ∧ P a r a').
Proof.
  intros Hfn s r s' Hok E. unfold on_db, zoom in E.
  destruct (gorm_Transaction fn (sql_db s)) as [r0 d'] eqn:Et. injection E as <- <-.
  pose proof (law_Transaction _ _ _ _ Hok Et) as Ht. destruct r0 as [a|e].
  - destruct Ht as (d1 & d2 & Hd1 & Hs1 & Ef & Hd' & Hs2). destruct (Hfn _ _ _ Hd1 Ef) as [Hd2 HP].
    unfold sql_ok, sql_view. cbn. split; [by auto|]. exists []. split; [|by rewrite app_nil_r]. split; [done|].
    rewrite <- (same_rows_view _ _ Hok Hs1), (same_rows_view _ _ Hd2 Hs2). done.
  - destruct Ht as (Hd' & _ & Hs). split; [done|]. split; [|done]. by apply same_rows_view.
Qed.
(** A statement inside of one. *)
Lemma statement_run {T A} (t : Table T) (m : M D A) P d a d' :
  statement (@rows D _ _) db_ok saved t m P → db_ok d → m d = (Ok a, d') →
  db_ok d' ∧ around t P (db_view d) a (db_view d').
Proof.
  intros Hm Hd E. destruct (Hm _ _ _ Hd E) as (l & HP & Hw). split; [apply Hw|].
  exists d, l. split; [done|]. split; [done|]. split; [done|]. split; [by eapply wrote_fits|]. by apply wrote_view.
Qed.
Lemma find_run {T} msg (t : Table T) (P : T → bool) d found d' : db_ok d →
  m_wrap msg (gorm_Find t P) d = (Ok found, d') → d' = d ∧ found ≡ₚ filter (λ x, P x = true) (rows t d).
Proof. intros Hd E. apply m_wrap_ok in E. by destruct (law_Find t P _ _ _ Hd E). Qed.

(** What the statements of a loop add up to. *)
Lemma delete_loop msg (l : list Device) d d' : db_ok d →
  m_for (λ device, m_wrap (msg device) (gorm_Delete DevicesTable device)) l d = (Ok tt, d') →
  db_ok d' ∧ db_view d' = on_devices (filter (λ kx, kx.1 ∉ Device.key <$> l)) (db_view d).
Proof.
  revert d. induction l as [|x l IH]; cbn; intros d Hd E.
  - injection E as <-. split; [done|]. unfold on_devices. rewrite map_filter_id; [done|].
    intros k y _. by apply not_elem_of_nil.
  - apply m_bind_ok in E as ([] & d1 & E1 & E).
    apply m_wrap_ok, (statement_run _ _ _ _ _ _ (law_gorm_Delete DevicesTable x)) in E1 as [Hd1 Hv]; [|done].
    apply IH in E as [Hd' ->]; [|done]. split; [done|].
    destruct Hv as (db & l0 & Hdb & -> & -> & _ & ->). unfold put, on_devices. cbn. f_equal.
    rewrite (delete_rows Device.key) by by apply devices_keys. apply map_eq. intros k. apply option_eq. intros y.
    rewrite !map_lookup_filter_Some, lookup_delete_Some. cbn. rewrite not_elem_of_cons. naive_solver.
Qed.
Lemma report_loop {A} (f : A → Event) (l : list A) s :
  m_for (λ x, report [f x]) l s = (Ok tt, mkSQL (sql_db s) (sqlType s) (sql_log s ++ (f <$> l))).
Proof.
  revert s. induction l as [|x l IH]; intros s; cbn.
  - rewrite app_nil_r. by destruct s.
  - unfold m_bind. cbn. rewrite IH. cbn. by rewrite <- app_assoc.
Qed.

Lemma owned_by_iff owner x : owned_by owner x = true ↔ Device.Owner x = owner.
Proof. apply String.eqb_eq. Qed.
(** The rows a condition selects, as the contract lists them. *)
Lemma rows_listed {K T} `{Countable K} (key : T → K) (l found : list T) (P : T → bool) (Q : T → Prop)
    `{∀ x, Decision (Q x)} : NoDup (key <$> l) → (∀ x, P x = true ↔ Q x) →
  found ≡ₚ filter (λ x, P x = true) l → lists_rows (to_map key l) Q found.
Proof.
  intros Hn HPQ Hf. unfold lists_rows. rewrite Hf, to_map_values by done.
  by rewrite (list_filter_iff _ Q) by done.
Qed.

Lemma sql_law_DeleteForOwner owner : sql_effect (sql_DeleteForOwner owner) (λ a l a' evs,
  lists_rows (devices a) (λ x, Device.Owner x = owner) l ∧
  a' = on_devices (filter (λ kx, Device.Owner kx.2 ≠ owner)) a ∧ evs = EvDelete <$> l).
Proof.
  eapply effect_weaken.
  - eapply (effect_then _ (λ l, do! m_for EmitDelete l; m_ret l) _ id (λ l, EvDelete <$> l)).
    + apply (transaction_effect _ (λ a l a', lists_rows (devices a) (λ x, Device.Owner x = owner) l ∧
        a' = on_devices (filter (λ kx, Device.Owner kx.2 ≠ owner)) a)).
      intros d l d' Hd E. apply m_bind_ok in E as (found & d1 & Ef & E).
      apply find_run in Ef as [-> Ef]; [|done]. apply m_bind_ok in E as ([] & d2 & El & [= -> ->]).
      apply delete_loop in El as [Hd' ->]; [|done]. split; [done|]. split.
      { eapply rows_listed; [by apply devices_keys|intros x; apply owned_by_iff|done]. }
      unfold on_devices. cbn. f_equal. apply map_filter_ext. intros k x Hx. cbn.
      apply to_map_lookup in Hx as [Hx <-]; [|by apply devices_keys]. rewrite Ef. split.
      * intros Hn Ho. apply Hn, list_elem_of_fmap. exists x. split; [done|].
        apply list_elem_of_filter. by rewrite owned_by_iff.
      * intros Ho (y & Hk & [Hy _]%list_elem_of_filter)%list_elem_of_fmap. apply Ho.
        apply owned_by_iff in Hy. unfold Device.key in Hk. by injection Hk as -> _.
    + intros l s. eexists. split; [unfold m_bind, EmitDelete; rewrite report_loop; reflexivity|done].
  - intros a l a' evs (x & evs1 & -> & [-> [? ?]] & ->). done.
Qed.

Lemma disable_loop msg (l : list Device) d d' : db_ok d →
  m_for (λ device, do! m_wrap (msg device) (gorm_UpdateColumns DevicesTable (row_of device) (λ x, Some (disable x)));
                   m_ret tt) l d = (Ok tt, d') →
  db_ok d' ∧ db_view d' =
    on_devices (fmap (λ x, if decide (Device.key x ∈ Device.key <$> l) then disable x else x)) (db_view d).
Proof.
  revert d. induction l as [|x l IH]; cbn; intros d Hd E.
  - injection E as <-. split; [done|]. unfold on_devices. rewrite map_fmap_id. by destruct (db_view d).
  - apply m_bind_ok in E as ([] & d1 & E1 & E). apply m_bind_ok in E1 as (n & d2 & E1 & [= <-]).
    apply m_wrap_ok, (statement_run _ _ _ _ _ _ (law_UpdateColumns DevicesTable _ _)) in E1 as [Hd2 Hv]; [|done].
    apply IH in E as [Hd' ->]; [|done]. split; [done|].
    apply update_around in Hv as (db & Hdb & -> & _ & -> & _). unfold put, on_devices. cbn. f_equal.
    rewrite (to_map_fmap Device.key) by (intros y; by destruct (row_of x y)).
    rewrite <- map_fmap_compose. apply map_fmap_ext. intros k y _. cbn.
    destruct (row_of x y) eqn:E.
    + apply row_of_iff in E. rewrite (decide_True (P := Device.key y ∈ Device.key x :: (Device.key <$> l)))
        by (rewrite E; left).
      by destruct (decide _).
    + assert (Device.key y ≠ Device.key x) as Hne by (intros Ek; apply row_of_iff in Ek; congruence).
      apply decide_ext. rewrite elem_of_cons. naive_solver.
Qed.
Lemma sql_law_BlockForOwner owner : sql_effect (sql_BlockForOwner owner) (λ a l a' evs,
  (∃ l0, lists_rows (devices a) (λ x, Device.Owner x = owner ∧ Device.Disabled x = false) l0 ∧
     l = (λ x, Device.with_Access true (Device.ExpiresAt x) x) <$> l0) ∧
  a' = on_devices (fmap (λ x, if bool_decide (Device.Owner x = owner)
         then Device.with_Access true (Device.ExpiresAt x) x else x)) a ∧
  evs = EvUpdate <$> l).
Proof.
  eapply effect_weaken.
  - eapply (effect_then _ (λ l, do! m_for EmitUpdate (disable <$> l); m_ret (disable <$> l)) _
      (fmap disable) (λ l, EvUpdate <$> (disable <$> l))).
    + apply (transaction_effect _ (λ a l a',
        lists_rows (devices a) (λ x, Device.Owner x = owner ∧ Device.Disabled x = false) l ∧
        a' = on_devices (fmap (λ x, if bool_decide (Device.Owner x = owner) then disable x else x)) a)).
      intros d l d' Hd E. apply m_bind_ok in E as (found & d1 & Ef & E).
      apply find_run in Ef as [-> Ef]; [|done]. apply m_bind_ok in E as ([] & d2 & El & [= -> ->]).
      apply disable_loop in El as [Hd' ->]; [|done]. split; [done|].
      assert (∀ x, owned_by owner x && negb (Device.Disabled x) = true ↔
        Device.Owner x = owner ∧ Device.Disabled x = false) as Hcond.
      { intros x. by rewrite andb_true_iff, owned_by_iff, negb_true_iff. }
      split; [by eapply rows_listed; [apply devices_keys|exact Hcond|]|].
      unfold on_devices. cbn. f_equal. apply map_fmap_ext. intros k x Hx.
      apply to_map_lookup in Hx as [Hx <-]; [|by apply devices_keys].
      destruct (decide _) as [Hin|Hn]; rewrite Ef in *.
      * apply list_elem_of_fmap in Hin as (y & Hk & [Hy _]%list_elem_of_filter).
        apply Hcond in Hy as [Hy _]. unfold Device.key in Hk. injection Hk as Ho _.
        by rewrite bool_decide_eq_true_2 by congruence.
      * case_bool_decide as Ho; [|done]. destruct (Device.Disabled x) eqn:Edis.
        { destruct x. unfold disable, Device.with_Access. cbn in *. by subst. }
        exfalso. apply Hn, list_elem_of_fmap. exists x. split; [done|]. apply list_elem_of_filter. by rewrite Hcond.
    + intros l s. eexists. split; [unfold m_bind, EmitUpdate; rewrite report_loop; reflexivity|done].
  - intros a l a' evs (x & evs1 & -> & [-> [? ?]] & ->). split; [by exists x|]. done.
Qed.

(** ** Recording the traffic *)
Lemma update_columns_some u x : storable DevicesTable x →
  match update_columns u with
  | None => apply_update x u = x
  | Some columns => ∀ y, columns x = Some y → y = apply_update x u
  end.
Proof.
  intros [Hrx Htx]. assert (∀ c n c', int64 c →
    (if n =? 0 then Some c else sql_plus c n) = Some c' → c' = wrap64 (c + n)) as Hadd.
  { intros c n c' Hc E. destruct (Z.eqb_spec n 0) as [->|_].
    - injection E as <-. by rewrite Z.add_0_r, wrap64_id.
    - apply law_plus in E as [-> ?]. by rewrite wrap64_id. }
  unfold update_columns. destruct (_ && _) eqn:E.
  - apply andb_true_iff in E as [[Er%Z.eqb_eq Et%Z.eqb_eq]%andb_true_iff Ec%bool_decide_eq_true].
    unfold apply_update. rewrite Ec, Er, Et, !Z.add_0_r, !wrap64_id by done. by destruct x.
  - intros y Hy. destruct (if mu_ReceiveBytes u =? 0 then _ else _) as [rx|] eqn:Erx; [|done].
    destruct (if mu_TransmitBytes u =? 0 then _ else _) as [tx|] eqn:Etx; [|done]. injection Hy as <-.
    apply Hadd in Erx as ->; [|done]. apply Hadd in Etx as ->; [|done].
    unfold apply_update. by destruct (mu_Connection u).
Qed.

(** While the transaction is open: what it goes back to, and the log. *)
Definition open_from (d0 : D) (s : SQL) : Prop := sql_ok s ∧ saved (sql_db s) = Some d0.
Definition updated (u : MetadataUpdate) (x : Device) : Device :=
  if String.eqb (Device.PublicKey x) (mu_PublicKey u) then apply_update x u else x.
Lemma record_update_run msg u d0 s r s' : open_from d0 s → m_wrap msg (record_update u) s = (r, s') →
  open_from d0 s' ∧ sql_log s' = sql_log s ∧
  (is_ok r = true → sql_view s' = on_devices (fmap (updated u)) (sql_view s)).
Proof.
  intros [Hok Hsaved] E. unfold m_wrap, record_update in E.
  assert (∀ k x, devices (sql_view s) !! k = Some x → storable DevicesTable x) as Hst.
  { intros k x [Hx _]%to_map_lookup; [|by apply devices_keys].
    pose proof (gorm_storable DevicesTable _ Hok) as Hf. rewrite Forall_forall in Hf. by apply Hf. }
  destruct (update_columns u) as [columns|] eqn:Ec.
  - unfold m_bind, on_db, zoom in E. destruct (gorm_UpdateColumns _ _ _ _) as [[n|e] d'] eqn:Eu;
      pose proof (law_UpdateColumns _ _ _ _ _ _ Hok Eu) as Hu; injection E as <- <-; unfold open_from, sql_ok; cbn.
    + destruct Hu as (l & (Hsome & -> & _) & Hw). destruct (Hw) as (Hd' & Hs' & _).
      split; [by rewrite Hs'|]. split; [done|]. intros _. unfold sql_view. cbn.
      rewrite (wrote_view _ _ _ _ Hok Hw). unfold put, on_devices. cbn. f_equal.
      assert (∀ x, x ∈ rows DevicesTable (sql_db s) →
        (if String.eqb (Device.PublicKey x) (mu_PublicKey u) then default x (columns x) else x) = updated u x) as Heq.
      { intros x Hx. unfold updated. destruct (String.eqb _ _) eqn:Ek; [|done].
        pose proof (gorm_storable DevicesTable _ Hok) as Hf. rewrite Forall_forall in Hf.
        pose proof (update_columns_some u x (Hf _ Hx)) as Hy. rewrite Ec in Hy.
        destruct (columns x) eqn:Ecx; [by apply Hy|]. by destruct (Hsome _ Hx Ek). }
      rewrite (list_fmap_ext _ (updated u) (rows DevicesTable (sql_db s))).
      * apply to_map_fmap. intros x. unfold updated, apply_update.
        by destruct (String.eqb _ _), (mu_Connection u).
      * intros i x Hx. apply Heq. by eapply list_elem_of_lookup_2.
    + destruct Hu as (Hd' & Hs' & _). by rewrite Hs'.
  - injection E as <- <-. split; [done|]. split; [done|]. intros _. unfold on_devices.
    rewrite (map_fmap_ext _ id); [rewrite map_fmap_id; by destruct (sql_view s)|].
    intros k x Hx. unfold updated. destruct (String.eqb _ _); [|done].
    pose proof (update_columns_some u x (Hst _ _ Hx)) as Hy. by rewrite Ec in Hy.
Qed.
Lemma updated_rest u us x :
  fold_left apply_update (filter (λ v, mu_PublicKey v = Device.PublicKey x) (u :: us)) x =
  fold_left apply_update (filter (λ v, mu_PublicKey v = Device.PublicKey (updated u x)) us) (updated u x).
Proof.
  assert (Device.PublicKey (updated u x) = Device.PublicKey x) as ->.
  { unfold updated, apply_update. by destruct (String.eqb _ _), (mu_Connection u). }
  rewrite filter_cons. unfold updated. destruct (String.eqb_spec (Device.PublicKey x) (mu_PublicKey u)) as [E|E].
  - by rewrite decide_True by done.
  - by rewrite decide_False by (intros ?; by apply E).
Qed.
Lemma record_loop msg us d0 s r s' : open_from d0 s →
  m_for (λ u, m_wrap msg (record_update u)) us s = (r, s') →
  open_from d0 s' ∧ sql_log s' = sql_log s ∧
  (is_ok r = true → sql_view s' = on_devices (fmap (λ x,
     fold_left apply_update (filter (λ u, mu_PublicKey u = Device.PublicKey x) us) x)) (sql_view s)).
Proof.
  revert s. induction us as [|u us IH]; intros s Ho E; cbn in E.
  - injection E as <- <-. split; [done|]. split; [done|]. intros _. unfold on_devices. cbn. rewrite map_fmap_id.
    done.
  - unfold m_bind in E. destruct (m_wrap msg (record_update u) s) as [[[]|e] s1] eqn:Eu;
      apply (record_update_run _ _ d0) in Eu as (Ho1 & Hl1 & Hv1); try done.
    + apply IH in E as (Ho' & Hl' & Hv'); [|done]. split; [done|]. split; [congruence|]. intros Hr.
      rewrite Hv', Hv1 by done. unfold on_devices. cbn. f_equal. rewrite <- map_fmap_compose.
      apply map_fmap_ext. intros k x _. symmetry. apply updated_rest.
    + by injection E as <- <-.
Qed.
Lemma sql_law_RecordMetadata us : sql_effect (sql_RecordMetadata us) (λ a _ a' evs, evs = [] ∧
  a' = on_devices (fmap (λ x,
    fold_left apply_update (filter (λ u, mu_PublicKey u = Device.PublicKey x) us) x)) a).
Proof.
  intros s r s' Hok E. unfold sql_RecordMetadata in E. case_bool_decide as Hus.
  { subst us. injection E as <- <-. split; [done|]. exists []. rewrite app_nil_r. split; [|done]. split; [done|].
    unfold on_devices. cbn. by rewrite map_fmap_id. }
  clear Hus. unfold m_bind, or_rollback in E. rewrite on_db_run in E.
  destruct (gorm_Begin (sql_db s)) as [[u|e] d1] eqn:Eb; pose proof (law_Begin _ _ _ Hok Eb) as Hb; cbn in E.
  2: { injection E as <- <-. destruct Hb as (? & _ & Hs). split; [done|]. split; [|done]. by apply same_rows_view. }
  destruct Hb as (Hd1 & Hsaved & Hs1). set (s1 := mkSQL d1 (sqlType s) (sql_log s)) in *.
  assert (sql_view s1 = sql_view s) as Hv1 by by apply same_rows_view.
  assert (open_from (sql_db s) s1) as Ho1 by done.
  destruct (m_for _ us s1) as [[v|e] s2] eqn:Ef; apply (record_loop _ _ (sql_db s)) in Ef as ([Hd2 Hs2] & Hl & Hv);
    try done.
  - rewrite on_db_run in E. destruct (gorm_Commit (sql_db s2)) as [rc d3] eqn:Ec.
    apply (law_Commit _ (sql_db s)) in Ec as [Hd3 Hs3]; [|done..]. cbn in E. injection E as <- <-.
    split; [done|]. destruct rc as [w|e]; cbn in *.
    + exists []. rewrite app_nil_r. split; [|done]. split; [done|]. rewrite <- Hv1, <- (Hv eq_refl).
      exact (same_rows_view _ _ Hd2 Hs3).
    + split; [|done]. exact (same_rows_view _ _ Hok Hs3).
  - unfold m_try, on_db, zoom in E. destruct (gorm_Rollback (sql_db s2)) as [rc d3] eqn:Ec.
    apply (law_Rollback _ (sql_db s)) in Ec as [Hd3 Hs3]; [|done..]. cbn in E. injection E as <- <-.
    split; [done|]. cbn. split; [|done]. exact (same_rows_view _ _ Hok Hs3).
Qed.

(** ** Reading *)
Notation sql_query := (query sql_view sql_ok).
(** A condition on a key, or on whatever a query looks for. *)
Lemma read_query {T A} msg (t : Table T) (m : M D A) P (Q : Abs → result A → Prop) :
  reads_rows (@rows D _ _) db_ok t m P →
  (∀ d r, db_ok d → P (rows t d) r → Q (db_view d) (wrap msg r)) →
  sql_query (m_wrap msg (on_db m)) Q.
Proof.
  intros Hm HQ s r s' Hok E. eapply read_run in E as (-> & r0 & -> & HP); [|done..]. split; [done|].
  by apply (HQ (sql_db s)).
Qed.
Lemma query_map {A B} (m : M SQL A) (f : A → B) P : sql_query m P →
  sql_query (let! x := m in m_ret (f x)) (λ a r, ∃ r0, P a r0 ∧ r = rbind r0 (λ x, Ok (f x))).
Proof.
  intros Hm s r s' Hok E. unfold m_bind in E. destruct (m s) as [r0 s1] eqn:Em.
  destruct (Hm _ _ _ Hok Em) as [-> HP]. destruct r0; injection E as <- <-; (split; [done|]; by eexists).
Qed.
Lemma query_weaken {A} (m : M SQL A) P Q : sql_query m P → (∀ a r, P a r → Q a r) → sql_query m Q.
Proof. intros Hm HPQ s r s' Hok E. destruct (Hm _ _ _ Hok E) as [-> ?]. auto. Qed.

Lemma sql_law_List owner : sql_query (sql_List owner) (λ a,
  on_ok (lists_rows (devices a) (λ x, owner = "" ∨ Device.Owner x = owner))).
Proof.
  unfold sql_List. destruct (String.eqb_spec owner "") as [->|Hne]; cbn [negb];
    (eapply read_query; [apply law_Find|]; intros d [l|] Hd; [|done]; cbn; intros Hl;
     eapply rows_listed; [by apply devices_keys| |exact Hl]; intros x).
  - split; [by left|done].
  - rewrite owned_by_iff. naive_solver.
Qed.
Lemma filter_everything {T} (l : list T) : filter (λ x, everything x = true) l = l.
Proof. induction l as [|x l IH]; [done|]. by rewrite filter_cons_True, IH. Qed.
Lemma sql_law_Addresses : sql_query sql_Addresses (λ a,
  on_ok (λ l, l ≡ₚ Device.Address <$> (map_to_list (devices a)).*2)).
Proof.
  eapply query_weaken; [apply query_map, (read_query _ _ _ _ (λ a,
    on_ok (λ l, l ≡ₚ (map_to_list (devices a)).*2)) (law_Find DevicesTable everything))|].
  - intros d [l|] Hd; [|done]. cbn. intros ->. rewrite to_map_values by by apply devices_keys.
    by rewrite filter_everything.
  - intros a r ([l|] & Hl & ->); [|done]. cbn in *. by rewrite Hl.
Qed.
(** The first row there is. *)
Lemma first_query {K T} `{Countable K} msg (t : Table T) (key : T → K) (P : T → bool) (Q : T → Prop)
    (table : Abs → gmap K T) :
  (∀ d, db_ok d → NoDup (key <$> rows t d) ∧ table (db_view d) = to_map key (rows t d)) →
  (∀ x, P x = true → Q x) →
  sql_query (m_wrap msg (on_db (gorm_First t P)))
    (λ a, on_ok (λ x, table a !! key x = Some x ∧ Q x)).
Proof.
  intros Ht HPQ. eapply read_query; [apply law_First|]. intros d [x|] Hd; [|done]. cbn.
  destruct (Ht d Hd) as [Hn ->]. intros [Hx HP]. split; [|by apply HPQ]. by apply to_map_lookup.
Qed.
Lemma sql_law_Get owner name : sql_query (sql_Get owner name) (λ a,
  on_ok (λ x, devices a !! (owner, name) = Some x)).
Proof.
  eapply query_weaken.
  - apply (first_query _ DevicesTable Device.key _ (λ x, Device.key x = (owner, name)) devices);
      [by split; [apply devices_keys|]|by intros x; apply named_iff].
  - intros a [x|] Hx; [|done]. cbn in *. destruct Hx as [Hx <-]. done.
Qed.
Lemma sql_law_GetByPublicKey pk : sql_query (sql_GetByPublicKey pk) (λ a,
  on_ok (λ x, devices a !! Device.key x = Some x ∧ Device.PublicKey x = pk)).
Proof.
  apply (first_query _ DevicesTable Device.key _ (λ x, Device.PublicKey x = pk) devices);
    [by split; [apply devices_keys|]|by intros x; apply String.eqb_eq].
Qed.

(** A lookup that tells a missing row from a failure. *)
Lemma missing_query {K T} `{Countable K} notFound msg (t : Table T) (key : T → K) (P : T → bool)
    (Q : T → Prop) (table : Abs → gmap K T) : notFound ≠ ErrRecordNotFound →
  (∀ d, db_ok d → NoDup (key <$> rows t d) ∧ table (db_view d) = to_map key (rows t d)) →
  (∀ x, P x = true ↔ Q x) →
  sql_query (or_missing notFound msg (on_db (gorm_First t P)))
    (λ a, found (λ x, table a !! key x = Some x ∧ Q x) (∀ k x, table a !! k = Some x → ¬ Q x) notFound).
Proof.
  intros Hnf Ht HPQ s r s' Hok E. unfold or_missing, m_bind, m_try, on_db, zoom in E.
  destruct (gorm_First t P (sql_db s)) as [r0 d'] eqn:Ef.
  destruct (law_First t P _ _ _ Hok Ef) as [-> HP]. destruct (Ht _ Hok) as [Hn Htab].
  assert (mkSQL (sql_db s) (sqlType s) (sql_log s) = s) as Es by by destruct s. rewrite Es in E.
  destruct r0 as [x|e].
  - injection E as <- <-. split; [done|]. cbn. unfold sql_view. rewrite Htab, <- HPQ. split; [|apply HP].
    apply to_map_lookup; [done|]. by split; [apply HP|].
  - destruct HP as [He Hmissing]. destruct (error_is e ErrRecordNotFound) eqn:En; injection E as <- <-.
    + split; [done|]. cbn. intros _ k x. unfold sql_view. rewrite Htab.
      intros [Hx _]%to_map_lookup HQ; [|done]. apply HPQ in HQ. by rewrite (Hmissing eq_refl x Hx) in HQ.
    + split; [done|]. cbn. intros Ee. by rewrite He in Ee.
Qed.
(** One by its key. *)
Lemma missing_by_key {K T} `{Countable K} notFound msg (t : Table T) (key : T → K) (P : T → bool) k
    (table : Abs → gmap K T) : notFound ≠ ErrRecordNotFound →
  (∀ d, db_ok d → NoDup (key <$> rows t d) ∧ table (db_view d) = to_map key (rows t d)) →
  (∀ x, P x = true ↔ key x = k) →
  sql_query (or_missing notFound msg (on_db (gorm_First t P)))
    (λ a, found (λ x, table a !! k = Some x) (table a !! k = None) notFound).
Proof.
  intros Hnf Ht HPk s r s' Hok E.
  eapply (missing_query _ _ _ key _ (λ x, key x = k) table) in E as [-> Hf]; [|done..].
  split; [done|]. destruct r as [x|e]; cbn in *; [by destruct Hf as [Hx <-]|].
  intros Ee. destruct (table (sql_view s) !! k) as [x|] eqn:Hx; [|done]. exfalso.
  apply (Hf Ee k x Hx). destruct (Ht _ Hok) as [Hn Htab]. unfold sql_view in Hx. rewrite Htab in Hx.
  by apply to_map_lookup in Hx as [_ ?].
Qed.

(** ** Users *)
Lemma on_key {K T} `{Countable K} (key : T → K) (l : list T) (P : T → bool) (f : T → T) k :
  NoDup (key <$> l) → (∀ x, P x = true ↔ key x = k) → (∀ x, key (f x) = key x) →
  (∃ x, x ∈ l ∧ P x = true) →
  ∃ x, to_map key l !! k = Some x ∧
    to_map key ((λ x, if P x then f x else x) <$> l) = <[k := f x]> (to_map key l).
Proof.
  intros Hn HP Hf (x & Hx & HPx). assert (to_map key l !! k = Some x) as Hl by by apply to_map_lookup, conj, HP.
  exists x. split; [done|]. by apply to_map_update_in.
Qed.
Lemma sql_law_change_user failed subject f : (∀ u, User.Subject (f u) = User.Subject u) →
  sql_effect (change_row failed subject f) (λ a _ a' evs, evs = [] ∧ ∃ u, users a !! subject = Some u ∧
    a' = on_users <[subject := f u]> a).
Proof.
  intros Hf. eapply effect_weaken.
  - apply (effect_affected _ _ _ _ tt [] (statement_effect failed UsersTable _ _
      (law_UpdateColumns UsersTable (with_subject subject) (λ u, Some (f u))))).
    + intros a a' evs [-> Ha]. apply update_around in Ha as (d & _ & _ & _ & _ & Hz & _). split; [by apply Hz|done].
    + intros s. exists s. split; [done|]. split; [done|]. by rewrite app_nil_r.
  - intros a r a' evs (_ & n & evs1 & Hn & [-> Ha] & ->). split; [done|].
    apply update_around in Ha as (d & Hd & -> & _ & -> & _ & Hx).
    destruct (on_key User.Subject (rows UsersTable d) (with_subject subject) f subject) as (u & Hu & Ht);
      [by apply users_keys|intros x; apply String.eqb_eq|done|by apply Hx|].
    exists u. split; [exact Hu|]. unfold put, on_users. cbn. by rewrite Ht.
Qed.
Lemma sql_law_SaveUser u : sql_effect (sql_SaveUser u) (λ a _ a' evs, evs = [] ∧
  ∃ stored, a' = on_users <[User.Subject u := stored]> a ∧
    User.Subject stored = User.Subject u ∧ User.Provider stored = User.Provider u ∧
    User.Name stored = User.Name u ∧ User.Email stored = User.Email u ∧
    User.Policies stored = User.Policies u ∧ User.LastLogin stored = User.LastLogin u ∧
    match users a !! User.Subject u with
    | Some previous => User.PasswordHash u = "" → User.TotpSecret u = "" → keeps_credentials previous stored
    | None => stored = u
    end).
Proof.
  eapply effect_weaken; [apply (statement_effect _ UsersTable), law_CreateOrAssign|].
  intros a r a' evs [-> (d & l & Hd & -> & Hl & Hf & ->)]. split; [done|]. unfold put, on_users. cbn.
  assert (∀ x : User, (User.Subject x, "") = (User.Subject u, "") ↔ User.Subject x = User.Subject u) as Hpk.
  { intros x. split; [by intros [= ->]|by intros ->]. }
  assert ((User.Subject u, "") ∈ primaryKey UsersTable <$> rows UsersTable d ↔
    User.Subject u ∈ User.Subject <$> rows UsersTable d) as Hin.
  { rewrite !list_elem_of_fmap. cbn. split; intros (x & Ex & Hx); exists x; (split; [|done]); congruence. }
  destruct Hl as [[Hnew ->]|[Hold ->]].
  - exists u. split; [done|]. repeat (split; [done|]).
    rewrite (proj2 (to_map_none User.Subject _ _)); [done|]. by rewrite <- Hin.
  - apply Hin in Hold. destruct (on_key User.Subject (rows UsersTable d)
      (λ y, bool_decide (primaryKey UsersTable y = primaryKey UsersTable u)) (login_columns u) (User.Subject u))
      as (x & Hx & Ht); [by apply users_keys|intros x; rewrite bool_decide_eq_true; apply Hpk|done| |].
    + apply list_elem_of_fmap in Hold as (x & Ex & Hx). exists x. split; [done|].
      apply bool_decide_eq_true. by apply Hpk.
    + exists (login_columns u x). rewrite Ht. split; [done|].
      apply to_map_lookup in Hx as [Hx1 Hx2]; [|by apply users_keys].
      repeat (split; [done|]). rewrite (proj2 (to_map_lookup User.Subject _ _ x (users_keys d Hd))) by done. done.
Qed.
Lemma sql_law_GetUser subject : sql_query (sql_GetUser subject) (λ a,
  found (λ u, users a !! subject = Some u) (users a !! subject = None) ErrUserNotFound).
Proof.
  apply (missing_by_key _ _ UsersTable User.Subject _ subject users);
    [done|by split; [apply users_keys|]|by intros x; apply String.eqb_eq].
Qed.
Lemma sql_law_Users : sql_query sql_Users (λ a, on_ok (lists_rows (users a) (λ _, True))).
Proof.
  eapply read_query; [apply law_Find|]. intros d [l|] Hd; [|done]. cbn. intros Hl.
  eapply rows_listed; [by apply users_keys| |exact Hl]. done.
Qed.
(** Deleting what a condition selects. *)
Lemma deleted_rows {K T} `{Countable K} (key : T → K) (l : list T) (P : T → bool) (Q : T → Prop)
    `{∀ x, Decision (Q x)} : NoDup (key <$> l) → (∀ x, P x = false ↔ Q x) →
  to_map key (filter (λ x, P x = false) l) = filter (λ kx, Q kx.2) (to_map key l).
Proof. intros Hn HPQ. rewrite <- to_map_filter by done. f_equal. by apply list_filter_iff. Qed.
Lemma deleted_count {K T} `{Countable K} (key : T → K) (l : list T) (P : T → bool) (Q : T → Prop)
    `{∀ x, Decision (Q x)} : NoDup (key <$> l) → (∀ x, P x = true ↔ Q x) →
  List.length (filter (λ x, P x = true) l) = size (filter (λ kx, Q kx.2) (to_map key l)).
Proof.
  intros Hn HPQ. rewrite <- to_map_filter, to_map_size by (try apply keys_filter; done).
  f_equal. by apply list_filter_iff.
Qed.
Lemma eqb_false_iff (x y : string) : String.eqb x y = false ↔ x ≠ y.
Proof. apply String.eqb_neq. Qed.
Lemma delete_key {K T} `{Countable K} (key : T → K) (l : list T) (P : T → bool) k : NoDup (key <$> l) →
  (∀ x, P x = false ↔ key x ≠ k) → to_map key (filter (λ x, P x = false) l) = delete k (to_map key l).
Proof. intros Hn HP. rewrite <- delete_rows by done. f_equal. by apply list_filter_iff. Qed.

Lemma sql_law_DeleteUser subject : sql_effect (sql_DeleteUser subject) (λ a _ a' evs, evs = [] ∧
  a' = on_passkeys (filter (λ ip, Passkey.Owner ip.2 ≠ subject)) (on_users (delete subject) a)).
Proof.
  intros s r s' Hok E. unfold sql_DeleteUser in E. unfold m_wrap in E.
  destruct (on_db (gorm_Transaction _) s) as [r0 s1] eqn:Et. injection E as <- <-.
  apply (transaction_effect _ (λ a (_ : unit) a', a' = on_passkeys (filter (λ ip, Passkey.Owner ip.2 ≠ subject))
    (on_users (delete subject) a))) in Et as [Hok' Hr]; [| |done].
  - split; [done|]. by destruct r0.
  - intros d [] d' Hd E. apply m_bind_ok in E as (n & d1 & E1 & E). apply m_bind_ok in E as (n' & d2 & E2 & [= <-]).
    apply (statement_run _ _ _ _ _ _ (law_DeleteWhere PasskeysTable _)) in E1 as [Hd1 H1]; [|done].
    apply (statement_run _ _ _ _ _ _ (law_DeleteWhere UsersTable _)) in E2 as [Hd2 H2]; [|done]. split; [done|].
    destruct H1 as (db1 & l1 & Hdb1 & E1 & [_ ->] & _ & Ha1), H2 as (db2 & l2 & Hdb2 & E2 & [_ ->] & _ & ->).
    rewrite Ha1, E1 in *. unfold put, on_users, on_passkeys in *. cbn in *. injection E2 as Hv Hu Hs Ht Hp.
    f_equal.
    + rewrite (delete_key User.Subject _ _ subject), Hu; [done|by apply users_keys|].
      intros x. apply eqb_false_iff.
    + rewrite (deleted_rows Passkey.ID _ (λ p, String.eqb (Passkey.Owner p) subject)
        (λ p, Passkey.Owner p ≠ subject)); [done|by apply passkeys_keys|].
      intros x. apply eqb_false_iff.
Qed.

(** ** Sessions and tokens *)
(** A new row in a table with a unique index. *)
Lemma fresh_row {T} (t : Table T) (x : T) l u y : fits t (x :: l) → y ∈ l → uniqueIndex t x = Some u →
  uniqueIndex t y ≠ Some u.
Proof.
  intros Hf Hy Hx Hu. pose proof (fits_unique _ _ Hf) as Hn. cbn in Hn. rewrite Hx in Hn.
  apply NoDup_cons in Hn as [Hn _]. apply Hn, list_elem_of_omap. by exists y.
Qed.
Lemma sql_law_SaveSession x : sql_effect (sql_SaveSession x) (λ a _ a' evs, evs = [] ∧
  (∀ k y, sessions a !! k = Some y → Session.Hash y = Session.Hash x → k = Session.ID x) ∧
  a' = on_sessions <[Session.ID x := x]> a).
Proof.
  eapply effect_weaken; [apply (after_effect _ SessionsTable), law_Create|].
  intros a r a' evs [-> (d & l & Hd & -> & -> & Hf & ->)]. split; [done|]. split; [|done].
  intros k y [Hy <-]%to_map_lookup Hh; [|by apply sessions_keys]. exfalso.
  eapply (fresh_row _ _ _ (Session.Hash x) y Hf); [done|done|cbn; by rewrite Hh].
Qed.
Lemma sql_law_GetSessionByHash hash : sql_query (sql_GetSessionByHash hash) (λ a,
  found (λ x, sessions a !! Session.ID x = Some x ∧ Session.Hash x = hash)
    (∀ k x, sessions a !! k = Some x → Session.Hash x ≠ hash) ErrSessionNotFound).
Proof.
  apply (missing_query _ _ SessionsTable Session.ID _ (λ x, Session.Hash x = hash) sessions);
    [done|by split; [apply sessions_keys|]|by intros x; apply String.eqb_eq].
Qed.
Lemma sql_law_ListSessions owner : sql_query (sql_ListSessions owner) (λ a,
  on_ok (λ l, lists_rows (sessions a) (λ x, Session.Owner x = owner) l ∧
    Sorted (λ x y, Session.CreatedAt y <= Session.CreatedAt x) l)).
Proof.
  eapply read_query; [apply law_FindOrdered|]. intros d [l|] Hd; [|done]. cbn. intros [Hl Hs]. split; [|done].
  eapply rows_listed; [by apply sessions_keys| |exact Hl]. intros x. apply String.eqb_eq.
Qed.
Lemma sql_law_TouchSession id at_ : sql_effect (sql_TouchSession id at_) (λ a _ a' evs, evs = [] ∧
  sessions a !! id ≠ None ∧ a' = on_sessions (alter (Session.with_LastSeenAt at_) id) a).
Proof.
  eapply effect_weaken.
  - apply (effect_affected _ _ _ _ tt [] (statement_effect _ SessionsTable _ _
      (law_UpdateColumns SessionsTable (session_id id) (λ x, Some (Session.with_LastSeenAt at_ x))))).
    + intros a a' evs [-> Ha]. apply update_around in Ha as (d & _ & _ & _ & _ & Hz & _). split; [by apply Hz|done].
    + intros s. exists s. split; [done|]. split; [done|]. by rewrite app_nil_r.
  - intros a r a' evs (_ & n & evs1 & Hn & [-> Ha] & ->). split; [done|].
    apply update_around in Ha as (d & Hd & -> & _ & -> & _ & Hx).
    destruct (on_key Session.ID (rows SessionsTable d) (session_id id) (Session.with_LastSeenAt at_) id)
      as (x & Hl & Ht); [by apply sessions_keys|intros x; apply String.eqb_eq|done|by apply Hx|].
    cbn in *. rewrite Hl. split; [done|]. unfold on_sessions. cbn. rewrite Ht. f_equal.
    apply map_eq. intros k. destruct (decide (k = id)) as [->|Hne].
    + by rewrite lookup_insert_eq, lookup_alter_eq, Hl.
    + by rewrite lookup_insert_ne, lookup_alter_ne by done.
Qed.
Lemma sql_law_DeleteSession id : sql_effect (sql_DeleteSession id) (λ a _ a' evs, evs = [] ∧
  a' = on_sessions (delete id) a).
Proof.
  eapply effect_weaken.
  - apply (effect_then _ (λ _, m_ret tt) _ (λ _, tt) (λ _, [])
      (statement_effect _ SessionsTable _ _ (law_DeleteWhere SessionsTable (session_id id)))).
    intros n s. exists s. split; [done|]. split; [done|]. by rewrite app_nil_r.
  - intros a r a' evs (n & evs1 & _ & [-> (d & l & Hd & -> & [_ ->] & _ & ->)] & ->). split; [done|].
    unfold put, on_sessions. cbn. f_equal. apply delete_key; [by apply sessions_keys|].
    intros x. apply eqb_false_iff.
Qed.
(** Deleting by a condition, with how many that was. *)
Lemma sql_law_delete_sessions failed P (Q : Session → Prop) `{∀ x, Decision (Q x)} : (∀ x, P x = true ↔ Q x) →
  sql_effect (m_wrap failed (on_db (gorm_DeleteWhere SessionsTable P))) (λ a n a' evs, evs = [] ∧
    n = Z.of_nat (size (filter (λ ix, Q ix.2) (sessions a))) ∧
    a' = on_sessions (filter (λ ix, ¬ Q ix.2)) a).
Proof.
  intros HPQ. eapply effect_weaken; [apply (statement_effect _ SessionsTable), law_DeleteWhere|].
  intros a n a' evs [-> (d & l & Hd & -> & [-> ->] & _ & ->)]. split; [done|]. split.
  - f_equal. apply deleted_count; [by apply sessions_keys|done].
  - unfold put, on_sessions. cbn. f_equal. rewrite (deleted_rows Session.ID _ P (λ x, ¬ Q x)); [done|by apply sessions_keys|].
    intros x. rewrite <- HPQ. by rewrite not_true_iff_false.
Qed.
Lemma sql_law_DeleteSessionsForOwner owner : sql_effect (sql_DeleteSessionsForOwner owner) (λ a n a' evs,
  evs = [] ∧ n = Z.of_nat (size (filter (λ ix, Session.Owner ix.2 = owner) (sessions a))) ∧
  a' = on_sessions (filter (λ ix, Session.Owner ix.2 ≠ owner)) a).
Proof.
  eapply effect_weaken; [apply (sql_law_delete_sessions _ _ (λ x, Session.Owner x = owner)); intros x; apply String.eqb_eq|].
  done.
Qed.
Lemma sql_law_DeleteExpiredSessions now : sql_effect (sql_DeleteExpiredSessions now) (λ a n a' evs,
  evs = [] ∧ n = Z.of_nat (size (filter (λ ix, Session.Expired ix.2 now = true) (sessions a))) ∧
  a' = on_sessions (filter (λ ix, Session.Expired ix.2 now = false)) a).
Proof.
  eapply effect_weaken; [apply (sql_law_delete_sessions _ _ (λ x, Session.Expired x now = true))|].
  - intros x. unfold Session.Expired. rewrite Z.leb_le, negb_true_iff, Z.ltb_ge. done.
  - intros a n a' evs (-> & -> & ->). split; [done|]. split; [done|]. unfold on_sessions. f_equal.
    apply map_filter_ext. intros k x _. cbn. by rewrite not_true_iff_false.
Qed.

Lemma sql_law_SaveToken x : sql_effect (sql_SaveToken x) (λ a _ a' evs, evs = [] ∧
  (∀ k y, tokens a !! k = Some y → APIToken.Hash y = APIToken.Hash x → k = APIToken.ID x) ∧
  a' = on_tokens <[APIToken.ID x := x]> a).
Proof.
  eapply effect_weaken; [apply (after_effect _ TokensTable), law_Create|].
  intros a r a' evs [-> (d & l & Hd & -> & -> & Hf & ->)]. split; [done|]. split; [|done].
  intros k y [Hy <-]%to_map_lookup Hh; [|by apply tokens_keys]. exfalso.
  eapply (fresh_row _ _ _ (APIToken.Hash x) y Hf); [done|done|cbn; by rewrite Hh].
Qed.
Lemma sql_law_ListTokens owner : sql_query (sql_ListTokens owner) (λ a,
  on_ok (λ l, lists_rows (tokens a) (λ x, owner = "" ∨ APIToken.Owner x = owner) l ∧
    Sorted (λ x y, APIToken.CreatedAt x <= APIToken.CreatedAt y) l)).
Proof.
  eapply read_query; [apply law_FindOrdered|]. intros d [l|] Hd; [|done]. cbn. intros [Hl Hs]. split; [|done].
  eapply rows_listed; [by apply tokens_keys| |exact Hl]. intros x.
  destruct (String.eqb_spec owner "") as [->|Hne]; cbn; [by split; [left|]|].
  rewrite String.eqb_eq. naive_solver.
Qed.
Lemma sql_law_GetToken id : sql_query (sql_GetToken id) (λ a,
  found (λ x, tokens a !! id = Some x) (tokens a !! id = None) ErrTokenNotFound).
Proof.
  apply (missing_by_key _ _ TokensTable APIToken.ID _ id tokens);
    [done|by split; [apply tokens_keys|]|by intros x; apply String.eqb_eq].
Qed.
Lemma sql_law_GetTokenByHash hash : sql_query (sql_GetTokenByHash hash) (λ a,
  found (λ x, tokens a !! APIToken.ID x = Some x ∧ APIToken.Hash x = hash)
    (∀ k x, tokens a !! k = Some x → APIToken.Hash x ≠ hash) ErrTokenNotFound).
Proof.
  apply (missing_query _ _ TokensTable APIToken.ID _ (λ x, APIToken.Hash x = hash) tokens);
    [done|by split; [apply tokens_keys|]|by intros x; apply String.eqb_eq].
Qed.
Lemma sql_law_TouchToken id at_ : sql_effect (sql_TouchToken id at_) (λ a _ a' evs, evs = [] ∧
  a' = on_tokens (alter (APIToken.with_LastUsedAt at_) id) a).
Proof.
  eapply effect_weaken.
  - apply (effect_then _ (λ _, m_ret tt) _ (λ _, tt) (λ _, []) (statement_effect _ TokensTable _ _
      (law_UpdateColumns TokensTable (token_id id) (λ x, Some (APIToken.with_LastUsedAt at_ x))))).
    intros n s. exists s. split; [done|]. split; [done|]. by rewrite app_nil_r.
  - intros a r a' evs (n & evs1 & _ & [-> Ha] & ->). split; [done|].
    apply update_around in Ha as (d & Hd & -> & _ & -> & _ & _). unfold put, on_tokens. cbn. f_equal.
    rewrite (to_map_fmap APIToken.ID) by (intros x; by destruct (token_id id x)).
    apply map_eq. intros k. rewrite lookup_fmap. destruct (decide (k = id)) as [->|Hne].
    + rewrite lookup_alter_eq. destruct (to_map APIToken.ID _ !! id) as [x|] eqn:Hx; [|done].
      apply to_map_lookup in Hx as [_ Hx]; [|by apply tokens_keys]. cbn.
      unfold token_id. by rewrite Hx, String.eqb_refl.
    + rewrite lookup_alter_ne by done. destruct (to_map APIToken.ID _ !! k) as [x|] eqn:Hx; [|done].
      apply to_map_lookup in Hx as [_ <-]; [|by apply tokens_keys]. cbn.
      unfold token_id. by rewrite (proj2 (String.eqb_neq _ _) Hne).
Qed.
(** Deleting by a key has to find a row. *)
Lemma affected_some {T} (P : T → bool) (l : list T) :
  Z.of_nat (List.length (filter (λ x, P x = true) l)) ≠ 0 → ∃ x, x ∈ l ∧ P x = true.
Proof.
  destruct (filter (λ x, P x = true) l) as [|x l'] eqn:E; [done|]. intros _. exists x.
  assert (x ∈ filter (λ x, P x = true) l) as [? ?]%list_elem_of_filter by (rewrite E; left). done.
Qed.
Lemma affected_none {T} (P : T → bool) (l : list T) :
  0 = Z.of_nat (List.length (filter (λ x, P x = true) l)) → filter (λ x, P x = false) l = l.
Proof.
  induction l as [|x l IH]; [done|]. intros E. destruct (P x) eqn:HP.
  - rewrite filter_cons_True in E by done. cbn in E. lia.
  - rewrite filter_cons_False in E by congruence. rewrite filter_cons_True by done. by rewrite IH.
Qed.
Lemma delete_affected {T} failed err (t : Table T) P : sql_effect
  (let! n := m_wrap failed (on_db (gorm_DeleteWhere t P)) in stop! err when n =? 0; m_ret tt)
  (λ a _ a' evs, evs = [] ∧ ∃ d, db_ok d ∧ a = db_view d ∧ (∃ x, x ∈ rows t d ∧ P x = true) ∧
     a' = put t (filter (λ x, P x = false) (rows t d)) a).
Proof.
  eapply effect_weaken.
  - apply (effect_affected _ _ _ _ tt [] (statement_effect _ t _ _ (law_DeleteWhere t P))).
    + intros a a' evs [-> (d & l & Hd & -> & [Hn ->] & _ & ->)]. split; [|done].
      by rewrite (affected_none P _ Hn), put_same.
    + intros s. exists s. split; [done|]. split; [done|]. by rewrite app_nil_r.
  - intros a r a' evs (_ & n & evs1 & Hn & [-> (d & l & Hd & -> & [-> ->] & _ & ->)] & ->). split; [done|].
    exists d. split; [done|]. split; [done|]. split; [by apply affected_some|done].
Qed.
Lemma sql_law_DeleteToken id : sql_effect (sql_DeleteToken id) (λ a _ a' evs, evs = [] ∧
  tokens a !! id ≠ None ∧ a' = on_tokens (delete id) a).
Proof.
  eapply effect_weaken; [apply delete_affected|].
  intros a r a' evs (-> & d & Hd & -> & (x & Hx & HP) & ->). split; [done|]. apply String.eqb_eq in HP. split.
  - cbn. rewrite (proj2 (to_map_lookup APIToken.ID _ id x (tokens_keys d Hd))) by done. done.
  - unfold put, on_tokens. cbn. f_equal. apply delete_key; [by apply tokens_keys|].
    intros y. apply eqb_false_iff.
Qed.
Lemma sql_law_DeleteTokensForOwner owner : sql_effect (sql_DeleteTokensForOwner owner) (λ a n a' evs,
  evs = [] ∧ n = Z.of_nat (size (filter (λ ix, APIToken.Owner ix.2 = owner) (tokens a))) ∧
  a' = on_tokens (filter (λ ix, APIToken.Owner ix.2 ≠ owner)) a).
Proof.
  eapply effect_weaken; [apply (statement_effect _ TokensTable), law_DeleteWhere|].
  intros a n a' evs [-> (d & l & Hd & -> & [-> ->] & _ & ->)]. split; [done|]. split.
  - f_equal. rewrite (deleted_count APIToken.ID _ _ (λ x, APIToken.Owner x = owner)); [done|by apply tokens_keys|].
    intros x. apply String.eqb_eq.
  - unfold put, on_tokens. cbn. f_equal.
    rewrite (deleted_rows APIToken.ID _ (λ x, String.eqb (APIToken.Owner x) owner) (λ x, APIToken.Owner x ≠ owner));
      [done|by apply tokens_keys|]. intros x. apply eqb_false_iff.
Qed.

(** ** Passkeys *)
Lemma sql_law_AddPasskey p : sql_effect (sql_AddPasskey p) (λ a _ a' evs, evs = [] ∧
  passkeys a !! Passkey.ID p = None ∧ a' = on_passkeys <[Passkey.ID p := p]> a).
Proof.
  eapply effect_weaken.
  - apply (effect_affected _ _ _ _ tt [] (statement_effect _ PasskeysTable _ _ (law_CreateOrNothing PasskeysTable p))).
    + intros a a' evs [-> (d & l & Hd & -> & [[? _]|(_ & -> & _)] & _ & ->)]; [done|]. by rewrite put_same.
    + intros s. exists s. split; [done|]. split; [done|]. by rewrite app_nil_r.
  - intros a r a' evs (_ & n & evs1 & Hn & [-> (d & l & Hd & -> & [[_ ->]|[? _]] & Hf & ->)] & ->); [|done].
    split; [done|]. split; [|done]. apply to_map_none. pose proof (fits_keys _ _ Hf) as Hk. cbn in Hk.
    apply NoDup_cons in Hk as [Hk _]. intros (q & Eq & Hq)%list_elem_of_fmap. apply Hk, list_elem_of_fmap.
    exists q. by rewrite Eq.
Qed.
Lemma sql_law_AddPasskey_exists p s err s' : sql_ok s → sql_AddPasskey p s = (Err err, s') →
  error_is err StoragePasskeyExists = true → passkeys (sql_view s) !! Passkey.ID p ≠ None.
Proof.
  intros Hok E Ee Hnone. apply to_map_none in Hnone. unfold sql_AddPasskey, m_bind in E. rewrite on_db_run in E.
  destruct (gorm_CreateOrNothing PasskeysTable p (sql_db s)) as [[n|e] d'] eqn:Ec; cbn in E.
  - apply law_CreateOrNothing in Ec as (l & [[-> _]|(-> & _ & [Hin|(u & Hu & _)])] & _); [done| |done|done].
    apply list_elem_of_fmap in Hin as (q & Eq & Hq). apply Hnone, list_elem_of_fmap. exists q.
    cbn in Eq. by injection Eq.
  - injection E as <- _. apply law_CreateOrNothing_error in Ec. cbn in Ee. by rewrite Ec in Ee.
Qed.
Lemma passkey_of_iff owner id p : passkey_of owner id p = true ↔ Passkey.ID p = id ∧ Passkey.Owner p = owner.
Proof. unfold passkey_of. by rewrite andb_true_iff, !String.eqb_eq. Qed.
(** Where a passkey is, only the one of that owner matches. *)
Lemma passkey_row d owner id p : db_ok d → p ∈ rows PasskeysTable d → passkey_of owner id p = true →
  to_map Passkey.ID (rows PasskeysTable d) !! id = Some p ∧ Passkey.Owner p = owner ∧
  ∀ q, q ∈ rows PasskeysTable d → passkey_of owner id q = bool_decide (Passkey.ID q = id).
Proof.
  intros Hd Hp [Hid Ho]%passkey_of_iff.
  assert (to_map Passkey.ID (rows PasskeysTable d) !! id = Some p) as Hl
    by (by apply to_map_lookup; [apply passkeys_keys|]).
  split; [done|]. split; [done|]. intros q Hq. unfold passkey_of.
  destruct (String.eqb_spec (Passkey.ID q) id) as [E|E]; [|by rewrite bool_decide_eq_false_2].
  assert (to_map Passkey.ID (rows PasskeysTable d) !! id = Some q) as Hl'
    by (by apply to_map_lookup; [apply passkeys_keys|]).
  rewrite Hl in Hl'. injection Hl' as <-. by rewrite bool_decide_eq_true_2, Ho, String.eqb_refl.
Qed.
Lemma sql_law_write_passkey failed owner id f : (∀ p, Passkey.ID (f p) = Passkey.ID p) →
  sql_effect (write_passkey failed owner id f) (λ a _ a' evs, evs = [] ∧ ∃ old,
    passkeys a !! id = Some old ∧ Passkey.Owner old = owner ∧ a' = on_passkeys <[id := f old]> a).
Proof.
  intros Hf. eapply effect_weaken.
  - apply (effect_affected _ _ _ _ tt [] (statement_effect failed PasskeysTable _ _
      (law_UpdateColumns PasskeysTable (passkey_of owner id) (λ p, Some (f p))))).
    + intros a a' evs [-> Ha]. apply update_around in Ha as (d & _ & _ & _ & _ & Hz & _). split; [by apply Hz|done].
    + intros s. exists s. split; [done|]. split; [done|]. by rewrite app_nil_r.
  - intros a r a' evs (_ & n & evs1 & Hn & [-> Ha] & ->). split; [done|].
    apply update_around in Ha as (d & Hd & -> & _ & -> & _ & Hx). destruct (Hx Hn) as (p & Hp & HP).
    destruct (passkey_row d owner id p Hd Hp HP) as (Hl & Ho & Hq). exists p. split; [done|]. split; [done|].
    unfold put, on_passkeys. cbn. f_equal.
    rewrite (list_fmap_ext _ (λ q, if bool_decide (Passkey.ID q = id) then f q else q) (rows PasskeysTable d)).
    + apply to_map_update_in; [by apply passkeys_keys|intros q; apply bool_decide_eq_true|done|done].
    + intros i q Hi. by rewrite Hq by (by eapply list_elem_of_lookup_2).
Qed.
Lemma sql_law_UpdatePasskey p : sql_effect (sql_UpdatePasskey p) (λ a _ a' evs, evs = [] ∧
  ∃ old stored, passkeys a !! Passkey.ID p = Some old ∧ Passkey.Owner old = Passkey.Owner p ∧
    Passkey.ID stored = Passkey.ID p ∧ Passkey.Owner stored = Passkey.Owner p ∧
    Passkey.Name stored = Passkey.Name p ∧ Passkey.Data stored = Passkey.Data p ∧
    Passkey.LastUsedAt stored = Passkey.LastUsedAt p ∧ a' = on_passkeys <[Passkey.ID p := stored]> a).
Proof.
  intros s r s' Hok E. unfold sql_UpdatePasskey in E. apply sql_law_write_passkey in E as [Hok' Hr]; [|done..].
  split; [done|]. destruct r as [u|]; [|done]. destruct Hr as (evs & (-> & old & Hl & Ho & Ha) & He). exists [].
  split; [|done]. split; [done|]. pose proof (wf_passkey_key _ (sql_wf s Hok) _ _ Hl) as Hid.
  eexists old, _. split; [done|]. split; [done|]. split; [|split; [|split; [|split; [|split; [|exact Ha]]]]]; done.
Qed.
Lemma sql_law_ListPasskeys owner : sql_query (sql_ListPasskeys owner) (λ a,
  on_ok (λ l, lists_rows (passkeys a) (λ p, Passkey.Owner p = owner) l ∧
    Sorted (λ x y, Passkey.CreatedAt y <= Passkey.CreatedAt x) l)).
Proof.
  eapply query_weaken; [apply query_map, (read_query _ _ _ _ (λ a,
    on_ok (λ l, lists_rows (passkeys a) (λ p, Passkey.Owner p = owner) l)) (law_Find PasskeysTable _))|].
  - intros d [l|] Hd; [|done]. cbn. intros Hl.
    eapply rows_listed; [by apply passkeys_keys| |exact Hl]. intros x. apply String.eqb_eq.
  - intros a r ([l|] & Hl & ->); [|done]. cbn in *. destruct (sortPasskeys_spec l) as [Hp Hs].
    split; [|by apply StronglySorted_Sorted]. unfold lists_rows in *. by rewrite Hp.
Qed.
Lemma sql_law_GetPasskey id : sql_query (sql_GetPasskey id) (λ a,
  found (λ p, passkeys a !! id = Some p) (passkeys a !! id = None) ErrPasskeyNotFound).
Proof.
  apply (missing_by_key _ _ PasskeysTable Passkey.ID _ id passkeys);
    [done|by split; [apply passkeys_keys|]|by intros x; apply String.eqb_eq].
Qed.
Lemma sql_law_DeletePasskey owner id : sql_effect (sql_DeletePasskey owner id) (λ a _ a' evs, evs = [] ∧
  ∃ old, passkeys a !! id = Some old ∧ Passkey.Owner old = owner ∧ a' = on_passkeys (delete id) a).
Proof.
  eapply effect_weaken; [apply delete_affected|].
  intros a r a' evs (-> & d & Hd & -> & (p & Hp & HP) & ->). split; [done|].
  destruct (passkey_row d owner id p Hd Hp HP) as (Hl & Ho & Hq). exists p. split; [done|]. split; [done|].
  unfold put, on_passkeys. cbn. f_equal. rewrite <- delete_rows by by apply passkeys_keys. f_equal.
  clear Hl Hp HP. induction (rows PasskeysTable d) as [|q l IH]; [done|].
  assert (passkey_of owner id q = false ↔ Passkey.ID q ≠ id) as Hiff.
  { rewrite Hq by left. apply bool_decide_eq_false. }
  rewrite !filter_cons, (decide_ext _ _ _ _ Hiff), IH; [done|]. intros x Hx. apply Hq. by right.
Qed.

Lemma sql_law_AllocationLock : sql_effect sql_AllocationLock (λ a _ a' evs, a' = a ∧ evs = []).
Proof.
  intros s r s' Hok E. unfold sql_AllocationLock in E. destruct (sqlType s).
  - rewrite on_db_run in E. injection E as <- <-. destruct (db_lock _ _) as [r0 d'] eqn:El.
    apply law_lock in El as (Hd' & _ & Hs); [|done]. split; [done|].
    assert (sql_view (mkSQL d' (sqlType s) (sql_log s)) = sql_view s) as Hv by (by apply same_rows_view).
    destruct r0; cbn; [|by rewrite Hv]. exists []. rewrite app_nil_r. by rewrite Hv.
  - injection E as <- <-. split; [done|]. exists []. by rewrite app_nil_r.
Qed.

(** ** The contract *)
#[export] Instance SQL_laws : StorageLaws SQL.
Proof.
  refine {| view := sql_view; ok := sql_ok |};
    [exact sql_wf|exact sql_law_Save|intros us _; apply sql_law_RecordMetadata|exact sql_law_Rename
    |intros; by apply sql_law_change|intros; by apply sql_law_change|exact sql_law_SetKeys|exact sql_law_List
    |exact sql_law_Addresses|exact sql_law_Get|exact sql_law_GetByPublicKey|exact sql_law_Delete
    |exact sql_law_DeleteForOwner|exact sql_law_BlockForOwner|exact sql_law_AllocationLock|exact sql_law_SaveUser
    |exact sql_law_GetUser|exact sql_law_Users|exact sql_law_DeleteUser
    |intros; by apply sql_law_change_user|intros; by apply sql_law_change_user|intros; by apply sql_law_change_user
    |exact sql_law_SaveSession|exact sql_law_GetSessionByHash|exact sql_law_ListSessions
    |exact sql_law_TouchSession|exact sql_law_DeleteSession|exact sql_law_DeleteSessionsForOwner
    |exact sql_law_DeleteExpiredSessions|exact sql_law_SaveToken|exact sql_law_ListTokens
    |exact sql_law_GetToken|exact sql_law_GetTokenByHash|exact sql_law_TouchToken
    |exact sql_law_DeleteToken|exact sql_law_DeleteTokensForOwner|exact sql_law_AddPasskey
    |exact sql_law_AddPasskey_exists
    |exact sql_law_UpdatePasskey|intros; by apply sql_law_write_passkey|exact sql_law_ListPasskeys
    |exact sql_law_GetPasskey|exact sql_law_DeletePasskey].
Defined.
End view.
