(* ===== verification/Schema.v ===== *)
(** * internal/storage/migrations.go, allocation_lock.go: the schema and its locks

    The columns of the tables as the models in use today want them, the migrations
    that lead there from a new database and from every older version, and the lock
    of the database around them. What GORM does to a table and the statements for
    the locks are classes of parameters. *)
From S2P Require Import Prelude GoText.

(** ** The models

    A column: the field, its type in Go, the column type if the tag names one, whether
    it is part of the primary key, and its index. *)
Record Column := mkColumn {
  field : string; gotype : string; coltype : string; primary : bool; index : string }.
#[export] Instance Column_eq_dec : EqDecision Column.
Proof. solve_decision. Defined.
Definition plain (name gotype : string) : Column := mkColumn name gotype "" false "".

(** The models of [contracts.go], [tokens.go], [sessions.go] and [passkeys.go]. *)
Definition deviceModel : list Column := [
  mkColumn "Owner" "string" "varchar(100)" true ""; plain "OwnerName" "string"; plain "OwnerEmail" "string";
  plain "OwnerProvider" "string"; mkColumn "Name" "string" "varchar(100)" true "";
  mkColumn "PublicKey" "string" "" false "unique uix_devices_public_key";
  mkColumn "PresharedKey" "string" "varchar(100)" false ""; plain "Address" "string";
  plain "CreatedAt" "time.Time"; plain "Disabled" "bool"; plain "ExpiresAt" "*time.Time";
  plain "Routes" "string"; plain "LastHandshakeTime" "*time.Time"; plain "ReceiveBytes" "int64";
  plain "TransmitBytes" "int64"; plain "Endpoint" "string"].
Definition userModel : list Column := [
  mkColumn "Subject" "string" "varchar(100)" true ""; plain "Provider" "string"; plain "Name" "string";
  plain "Email" "string"; plain "Policies" "string"; plain "LastLogin" "time.Time";
  plain "PasswordHash" "string"; plain "WebauthnChallenge" "string";
  plain "WebauthnChallengeUntil" "*time.Time"; plain "TotpSecret" "string"; plain "TotpEnabledAt" "*time.Time";
  plain "TotpRecovery" "string"; plain "TotpLastStep" "int64"; plain "PasswordFrom" "string"].
Definition tokenModel : list Column := [
  mkColumn "ID" "string" "varchar(32)" true "";
  mkColumn "Owner" "string" "varchar(100)" false "index idx_api_tokens_owner";
  mkColumn "Name" "string" "varchar(100)" false "";
  mkColumn "Hash" "string" "varchar(64)" false "unique uix_api_tokens_hash";
  mkColumn "Identity" "string" "text" false ""; plain "CreatedAt" "time.Time"; plain "ExpiresAt" "*time.Time";
  plain "LastUsedAt" "*time.Time"].
Definition sessionModel : list Column := [
  mkColumn "ID" "string" "varchar(36)" true "";
  mkColumn "Owner" "string" "varchar(100)" false "index idx_sessions_owner";
  mkColumn "Hash" "string" "varchar(64)" false "unique uix_sessions_hash";
  mkColumn "Identity" "string" "text" false ""; mkColumn "UserAgent" "string" "varchar(255)" false "";
  mkColumn "RemoteAddr" "string" "varchar(64)" false ""; plain "CreatedAt" "time.Time";
  plain "ExpiresAt" "time.Time"; plain "LastSeenAt" "time.Time"].
Definition passkeyModel : list Column := [
  mkColumn "ID" "string" "varchar(255)" true ""; mkColumn "Owner" "string" "varchar(100)" false "index";
  plain "Name" "string"; plain "Data" "[]byte"; plain "CreatedAt" "time.Time"; plain "LastUsedAt" "*time.Time"].

(** The models as the migrations left them. *)
Definition deviceV1 : list Column := [
  mkColumn "Owner" "string" "varchar(100)" true ""; plain "OwnerName" "string"; plain "OwnerEmail" "string";
  plain "OwnerProvider" "string"; mkColumn "Name" "string" "varchar(100)" true "";
  mkColumn "PublicKey" "string" "" false "unique uix_devices_public_key";
  mkColumn "PresharedKey" "string" "varchar(100)" false ""; plain "Address" "string";
  plain "CreatedAt" "time.Time"; plain "LastHandshakeTime" "*time.Time"; plain "ReceiveBytes" "int64";
  plain "TransmitBytes" "int64"; plain "Endpoint" "string"].
Definition deviceV2 : list Column := [
  mkColumn "Owner" "string" "varchar(100)" true ""; plain "OwnerName" "string"; plain "OwnerEmail" "string";
  plain "OwnerProvider" "string"; mkColumn "Name" "string" "varchar(100)" true "";
  mkColumn "PublicKey" "string" "" false "unique uix_devices_public_key";
  mkColumn "PresharedKey" "string" "varchar(100)" false ""; plain "Address" "string";
  plain "CreatedAt" "time.Time"; plain "Disabled" "bool"; plain "ExpiresAt" "*time.Time";
  plain "LastHandshakeTime" "*time.Time"; plain "ReceiveBytes" "int64"; plain "TransmitBytes" "int64";
  plain "Endpoint" "string"].
Definition deviceV3 : list Column := [
  mkColumn "Owner" "string" "varchar(100)" true ""; plain "OwnerName" "string"; plain "OwnerEmail" "string";
  plain "OwnerProvider" "string"; mkColumn "Name" "string" "varchar(100)" true "";
  mkColumn "PublicKey" "string" "" false "unique uix_devices_public_key";
  mkColumn "PresharedKey" "string" "varchar(100)" false ""; plain "Address" "string";
  plain "CreatedAt" "time.Time"; plain "Disabled" "bool"; plain "ExpiresAt" "*time.Time";
  plain "Routes" "string"; plain "LastHandshakeTime" "*time.Time"; plain "ReceiveBytes" "int64";
  plain "TransmitBytes" "int64"; plain "Endpoint" "string"].
Definition apiTokenV1 : list Column := [
  mkColumn "ID" "string" "varchar(32)" true "";
  mkColumn "Owner" "string" "varchar(100)" false "index idx_api_tokens_owner";
  mkColumn "Name" "string" "varchar(100)" false "";
  mkColumn "Hash" "string" "varchar(64)" false "unique uix_api_tokens_hash";
  mkColumn "Identity" "string" "text" false ""; plain "CreatedAt" "time.Time"; plain "ExpiresAt" "*time.Time";
  plain "LastUsedAt" "*time.Time"].
Definition userV1 : list Column := [
  mkColumn "Subject" "string" "varchar(100)" true ""; plain "Provider" "string"; plain "Name" "string";
  plain "Email" "string"; plain "LastLogin" "time.Time"].
Definition userV2 : list Column := [
  mkColumn "Subject" "string" "varchar(100)" true ""; plain "Provider" "string"; plain "Name" "string";
  plain "Email" "string"; plain "Policies" "string"; plain "LastLogin" "time.Time"].
Definition userV3 : list Column := [
  mkColumn "Subject" "string" "varchar(100)" true ""; plain "Provider" "string"; plain "Name" "string";
  plain "Email" "string"; plain "Policies" "string"; plain "LastLogin" "time.Time";
  plain "PasswordHash" "string"; plain "PasswordFrom" "string"].
Definition userV4 : list Column := [
  mkColumn "Subject" "string" "varchar(100)" true ""; plain "Provider" "string"; plain "Name" "string";
  plain "Email" "string"; plain "Policies" "string"; plain "LastLogin" "time.Time";
  plain "PasswordHash" "string"; plain "PasswordFrom" "string"; plain "TotpSecret" "string";
  plain "TotpEnabledAt" "*time.Time"; plain "TotpRecovery" "string"].
Definition userV5 : list Column := [
  mkColumn "Subject" "string" "varchar(100)" true ""; plain "Provider" "string"; plain "Name" "string";
  plain "Email" "string"; plain "Policies" "string"; plain "LastLogin" "time.Time";
  plain "PasswordHash" "string"; plain "PasswordFrom" "string"; plain "TotpSecret" "string";
  plain "TotpEnabledAt" "*time.Time"; plain "TotpRecovery" "string"; plain "WebauthnChallenge" "string";
  plain "WebauthnChallengeUntil" "*time.Time"].
Definition userV6 : list Column := [
  mkColumn "Subject" "string" "varchar(100)" true ""; plain "Provider" "string"; plain "Name" "string";
  plain "Email" "string"; plain "Policies" "string"; plain "LastLogin" "time.Time";
  plain "PasswordHash" "string"; plain "PasswordFrom" "string"; plain "TotpSecret" "string";
  plain "TotpEnabledAt" "*time.Time"; plain "TotpRecovery" "string"; plain "TotpLastStep" "int64";
  plain "WebauthnChallenge" "string"; plain "WebauthnChallengeUntil" "*time.Time"].
Definition passkeyV1 : list Column := [
  mkColumn "ID" "string" "varchar(255)" true ""; mkColumn "Owner" "string" "varchar(100)" false "index";
  plain "Name" "string"; plain "Data" "[]byte"; plain "CreatedAt" "time.Time"; plain "LastUsedAt" "*time.Time"].
Definition sessionV1 : list Column := [
  mkColumn "ID" "string" "varchar(32)" true "";
  mkColumn "Owner" "string" "varchar(100)" false "index idx_sessions_owner";
  mkColumn "Hash" "string" "varchar(64)" false "unique uix_sessions_hash";
  mkColumn "Identity" "string" "text" false ""; mkColumn "UserAgent" "string" "varchar(255)" false "";
  mkColumn "RemoteAddr" "string" "varchar(64)" false ""; plain "CreatedAt" "time.Time";
  plain "ExpiresAt" "time.Time"; plain "LastSeenAt" "time.Time"].
Definition sessionV2 : list Column := [
  mkColumn "ID" "string" "varchar(36)" true "";
  mkColumn "Owner" "string" "varchar(100)" false "index idx_sessions_owner";
  mkColumn "Hash" "string" "varchar(64)" false "unique uix_sessions_hash";
  mkColumn "Identity" "string" "text" false ""; mkColumn "UserAgent" "string" "varchar(255)" false "";
  mkColumn "RemoteAddr" "string" "varchar(64)" false ""; plain "CreatedAt" "time.Time";
  plain "ExpiresAt" "time.Time"; plain "LastSeenAt" "time.Time"].

(** ** The migrations

    [apply] of a migration: tables that are brought up to a model, and a column
    whose type is changed, which SQLite is spared. *)
Inductive change :=
  | Auto (table : string) (model : list Column)
  | Alter (table : string) (model : list Column) (column : string).
Record migration := mkMigration { id : string; changes : list change; explained : option string }.
Definition migrationFailed : string := "failed to migrate the database schema".

Definition migrations : list migration := [
  mkMigration "0001_devices" [Auto "devices" deviceV1] (Some migrationFailed);
  mkMigration "0002_api_tokens" [Auto "api_tokens" apiTokenV1] None;
  mkMigration "0003_device_access" [Auto "devices" deviceV2] None;
  mkMigration "0004_device_routes" [Auto "devices" deviceV3] None;
  mkMigration "0005_users" [Auto "users" userV1] None;
  mkMigration "0006_user_policies" [Auto "users" userV2] None;
  mkMigration "0007_sessions" [Auto "sessions" sessionV1] None;
  mkMigration "0008_user_password" [Auto "users" userV3] None;
  mkMigration "0009_user_two_factor" [Auto "users" userV4] None;
  mkMigration "0010_passkeys" [Auto "passkeys" passkeyV1; Auto "users" userV5] None;
  mkMigration "0011_totp_last_step" [Auto "users" userV6] None;
  mkMigration "0012_session_id_length" [Alter "sessions" sessionV2 "ID"] None].

Class SchemaDB (D : Type) := {
  db_Name : string;
  AutoMigrate (table : string) (model : list Column) : M D unit;
  AlterColumn (table : string) (model : list Column) (column : string) : M D unit;
  (* the schema_migrations table *)
  create_schema_migrations : M D unit;
  find_schema_migrations : M D (list string);
  create_schema_migration (id : string) : M D unit;
  schema_Transaction (fn : M D unit) : M D unit }.

Section migrate.
  Context {D : Type} `{SchemaDB D}.

Definition run_change (c : change) : M D unit :=
  match c with
  | Auto table model => AutoMigrate table model
  | Alter table model column => if String.eqb db_Name "sqlite" then m_ret tt else AlterColumn table model column
  end.
Definition apply_migration (m : migration) : M D unit :=
  let run := m_for run_change (changes m) in
  match explained m with Some msg => m_wrap msg run | None => run end.

Definition runMigrations (migrations : list migration) : M D unit :=
  do! m_wrap "failed to create the schema_migrations table" create_schema_migrations;
  let! applied := m_wrap "failed to read the applied migrations" find_schema_migrations in
  let unknown := filter (λ a, a ∉ id <$> migrations) applied in
  stop! (PlainError ("the database was migrated by a newer version of wg-access-server (unknown migrations: "
           +:+ Join unknown ", " +:+ "). Run that version or newer, or restore a backup taken before the upgrade"))
    when negb (bool_decide (unknown = []));
  m_for (λ m,
    if bool_decide (id m ∈ applied) then m_ret tt else
    m_wrap ("database migration " +:+ id m +:+ " failed")
      (schema_Transaction (do! apply_migration m; create_schema_migration (id m)))) migrations.
End migrate.

(** ** The lock

    A named lock of a connection: [withDatabaseLock] of allocation_lock.go. *)
Class DatabaseLocks (D C : Type) := {
  (* whether the database has such locks *)
  distributed : bool;
  db_Conn : M D C;
  lock_acquire (conn : C) (name : string) : M D unit;
  lock_release (conn : C) (name : string) : M D unit;
  (* ends the session of a connection *)
  discardConn (conn : C) : D → D;
  conn_Close (conn : C) : D → D }.

Definition withDatabaseLock {D C A} `{DatabaseLocks D C} (name what : string) (fn : M D A) : M D A :=
  if negb distributed then fn else
  let! conn := m_wrap ("failed to reserve a database connection for the " +:+ what) db_Conn in
  λ d,
    match lock_acquire conn name d with
    | (Err e, d1) => (Err (WrappedError ("failed to acquire the " +:+ what) e), discardConn conn d1)
    | (Ok _, d1) =>
        let '(r, d2) := fn d1 in
        match lock_release conn name d2 with
        | (Err _, d3) => (r, discardConn conn d3)
        | (Ok _, d3) => (r, conn_Close conn d3)
        end
    end.
Definition withSchemaLock {D C A} `{DatabaseLocks D C} (fn : M D A) : M D A :=
  withDatabaseLock "wg-access-server/schema" "schema lock" fn.

(** ** What GORM does to the tables

    [AutoMigrate] creates a table or adds the columns it lacks and leaves the ones it
    has alone; it never removes any. A transaction that fails leaves the schema as it
    was, which MySQL does not promise of schema changes. *)
Notation Schema := (gmap string (list Column)).
Definition brought_up (model present : list Column) : list Column :=
  present ++ filter (λ c, field c ∉ field <$> present) model.
Definition altered (model : list Column) (column : string) (present : list Column) : list Column :=
  (λ c, if String.eqb (field c) column
        then default c (List.find (λ c', String.eqb (field c') column) model) else c) <$> present.

Class SchemaLaws (D : Type) `{SchemaDB D} := {
  columns : D → Schema;
  recorded : D → list string;
  law_AutoMigrate table model d d' : AutoMigrate table model d = (Ok tt, d') → recorded d' = recorded d ∧
    columns d' = <[table := brought_up model (default [] (columns d !! table))]> (columns d);
  law_AlterColumn table model column d d' : AlterColumn table model column d = (Ok tt, d') →
    recorded d' = recorded d ∧ columns d' = alter (altered model column) table (columns d);
  law_create_schema_migrations d r d' : create_schema_migrations d = (r, d') →
    columns d' = columns d ∧ recorded d' = recorded d;
  law_find_schema_migrations d r d' : find_schema_migrations d = (r, d') → d' = d ∧
    ∀ l, r = Ok l → l ≡ₚ recorded d;
  law_create_schema_migration id d d' : create_schema_migration id d = (Ok tt, d') →
    columns d' = columns d ∧ recorded d' = recorded d ++ [id];
  law_schema_Transaction fn d r d' : schema_Transaction fn d = (r, d') →
    match r with
    | Ok _ => ∃ d1 d2, columns d1 = columns d ∧ recorded d1 = recorded d ∧ fn d1 = (Ok tt, d2) ∧
        columns d' = columns d2 ∧ recorded d' = recorded d2
    | Err _ => columns d' = columns d ∧ recorded d' = recorded d
    end }.

(** What a migration makes of the tables, and the tables after the first [n]. *)
Definition change_schema (sqlite : bool) (s : Schema) (c : change) : Schema :=
  match c with
  | Auto table model => <[table := brought_up model (default [] (s !! table))]> s
  | Alter table model column => if sqlite then s else alter (altered model column) table s
  end.
Definition migrate_schema (sqlite : bool) (s : Schema) (m : migration) : Schema :=
  fold_left (change_schema sqlite) (changes m) s.
Definition schema_after (sqlite : bool) (n : nat) : Schema :=
  fold_left (migrate_schema sqlite) (take n migrations) ∅.
(** The tables of the models of today: the width of a session's id is left as it was
    on SQLite, which does not look at it. *)
Definition narrow_id (c : Column) : Column :=
  if String.eqb (field c) "ID" then mkColumn (field c) (gotype c) "varchar(32)" (primary c) (index c) else c.
Definition models (sqlite : bool) : list (string * list Column) := [
  ("devices", deviceModel); ("users", userModel); ("api_tokens", tokenModel);
  ("sessions", if sqlite then narrow_id <$> sessionModel else sessionModel); ("passkeys", passkeyModel)].
Lemma final_schema sqlite table model : (table, model) ∈ models sqlite →
  ∃ l, schema_after sqlite (List.length migrations) !! table = Some l ∧ l ≡ₚ model.
Proof.
  assert (Forall (λ tm, ∃ l, schema_after sqlite (List.length migrations) !! tm.1 = Some l ∧ l ≡ₚ tm.2)
    (models sqlite)) as Hall.
  { destruct sqlite; repeat apply Forall_cons_2; try apply Forall_nil_2;
      (eexists; split; [vm_compute; reflexivity|]);
      (refine (proj1 (bool_decide_eq_true _) _); vm_compute; reflexivity). }
  rewrite Forall_forall in Hall. intros Hin. exact (Hall _ Hin).
Qed.
Lemma migrations_distinct : NoDup (id <$> migrations).
Proof. refine (proj1 (bool_decide_eq_true _) _). vm_compute. reflexivity. Qed.

Section schema.
  Context {D : Type} `{SchemaLaws D}.
  Implicit Types (d : D).
Definition is_sqlite : bool := String.eqb db_Name "sqlite".

Lemma run_changes l d d' : m_for run_change l d = (Ok tt, d') →
  recorded d' = recorded d ∧ columns d' = fold_left (change_schema is_sqlite) l (columns d).
Proof.
  revert d. induction l as [|c l IH]; intros d E; cbn in E; [by injection E as <-|].
  apply m_bind_ok in E as ([] & d1 & E1 & E). apply IH in E as [-> ->]. cbn.
  destruct c as [table model|table model column]; cbn [run_change change_schema] in *.
  - apply law_AutoMigrate in E1 as [Hr Hc]. by rewrite Hr, Hc.
  - unfold is_sqlite. destruct (String.eqb db_Name "sqlite"); [by injection E1 as <-|]. apply law_AlterColumn in E1 as [Hr Hc].
    by rewrite Hr, Hc.
Qed.
Lemma apply_migration_spec m d d' : apply_migration m d = (Ok tt, d') →
  recorded d' = recorded d ∧ columns d' = migrate_schema is_sqlite (columns d) m.
Proof.
  unfold apply_migration. destruct (explained m); [intros E%m_wrap_ok|intros E]; by apply run_changes.
Qed.
(** A database some of the migrations ran on. *)
Definition at_version (n : nat) d : Prop :=
  recorded d ≡ₚ id <$> take n migrations ∧ columns d = schema_after is_sqlite n ∧ (n <= List.length migrations)%nat.

Lemma migrate_one n m d r d' : at_version n d → migrations !! n = Some m →
  m_wrap ("database migration " +:+ id m +:+ " failed")
    (schema_Transaction (do! apply_migration m; create_schema_migration (id m))) d = (r, d') →
  if is_ok r then at_version (S n) d' else at_version n d'.
Proof.
  intros (Hr & Hc & Hn) Hm E. unfold m_wrap in E. destruct (schema_Transaction _ d) as [r0 d1] eqn:Et.
  injection E as <- <-. apply law_schema_Transaction in Et. destruct r0 as [u|e]; cbn.
  - destruct Et as (d2 & d3 & Hc2 & Hr2 & Ef & Hc3 & Hr3). apply m_bind_ok in Ef as ([] & d4 & Ea & Ecr).
    apply apply_migration_spec in Ea as [Hr4 Hc4]. apply law_create_schema_migration in Ecr as [Hc5 Hr5].
    unfold at_version, schema_after. rewrite (take_S_r _ _ _ Hm), fmap_app, fold_left_app.
    split; [|split].
    + rewrite Hr3, Hr5, Hr4, Hr2, Hr. done.
    + rewrite Hc3, Hc5, Hc4, Hc2, Hc. done.
    + apply lookup_lt_Some in Hm. lia.
  - destruct Et as [Hc' Hr']. unfold at_version. by rewrite Hc', Hr'.
Qed.
(** The migrations that are recorded are skipped, the others run one by one. *)
Lemma run_loop applied n done_ todo d r d' : applied ≡ₚ id <$> take n migrations → migrations = done_ ++ todo →
  at_version (Nat.max n (List.length done_)) d →
  m_for (λ m, if bool_decide (id m ∈ applied) then m_ret tt else
    m_wrap ("database migration " +:+ id m +:+ " failed")
      (schema_Transaction (do! apply_migration m; create_schema_migration (id m)))) todo d = (r, d') →
  ∃ k, (n <= k)%nat ∧ at_version k d' ∧ (r = Ok tt → k = List.length migrations).
Proof.
  intros Ha. revert done_ d. induction todo as [|m todo IH]; intros done_ d Hall Hv E; cbn [m_for] in E.
  - injection E as <- <-. exists (Nat.max n (List.length done_)). split; [lia|]. split; [done|]. intros _.
    destruct Hv as (_ & _ & Hn). rewrite app_nil_r in Hall. rewrite Hall in Hn |- *. lia.
  - assert (migrations !! List.length done_ = Some m) as Hm by by rewrite Hall, list_lookup_middle.
    unfold m_bind in E. destruct (decide (List.length done_ < n)%nat) as [Hlt|Hge].
    + rewrite bool_decide_eq_true_2 in E.
      2: { rewrite Ha. apply list_elem_of_fmap. exists m. split; [done|]. apply list_elem_of_lookup.
           exists (List.length done_). by rewrite lookup_take_lt. }
      cbn in E. apply (IH (done_ ++ [m])) in E; [done|by rewrite <- app_assoc|].
      rewrite length_app. cbn. by replace (Nat.max n (List.length done_ + 1)) with (Nat.max n (List.length done_)) by lia.
    + rewrite bool_decide_eq_false_2 in E.
      2: { rewrite Ha. intros (m' & Em & (i & Hi)%list_elem_of_lookup)%list_elem_of_fmap.
           apply lookup_take_Some in Hi as [Hi Hlt]. pose proof migrations_distinct as Hd.
           assert (i = List.length done_); [|lia].
           apply (NoDup_lookup _ _ _ (id m) Hd); rewrite list_lookup_fmap; [by rewrite Hi, Em|by rewrite Hm]. }
      replace (Nat.max n (List.length done_)) with (List.length done_) in Hv by lia.
      destruct (m_wrap _ _ d) as [[[]|e] d1] eqn:E1; apply (migrate_one _ _ _ _ _ Hv Hm) in E1; cbn in E1.
      * apply (IH (done_ ++ [m])) in E; [done|by rewrite <- app_assoc|].
        rewrite length_app. cbn. by replace (Nat.max n (List.length done_ + 1)) with (S (List.length done_)) by lia.
      * injection E as <- <-. exists (List.length done_). split; [lia|]. split; [done|]. done.
Qed.

End schema.


(** ** What the lock comes to *)
Class LockLaws (D C : Type) `{DatabaseLocks D C} := {
  (* the session of the connection holds the lock *)
  holds : D → C → string → Prop;
  law_acquire conn name d d' : lock_acquire conn name d = (Ok tt, d') → holds d' conn name;
  law_release conn name d d' : lock_release conn name d = (Ok tt, d') → ¬ holds d' conn name;
  law_discard conn name d : ¬ holds (discardConn conn d) conn name;
  law_close conn name d : holds (conn_Close conn d) conn name → holds d conn name }.

(** What runs under the lock runs while its connection holds it, and not at all when
    it could not be taken; afterwards the connection does not hold it, whatever
    failed. *)
Theorem lock_held_and_released {D C A} `{LockLaws D C} name what (fn : M D A) d r d' : distributed = true →
  withDatabaseLock name what fn d = (r, d') →
  (∃ e, db_Conn d = (Err e, d') ∧ ∃ e', r = Err e') ∨
  ∃ conn d0, db_Conn d = (Ok conn, d0) ∧ ¬ holds d' conn name ∧
    ((∃ e, r = Err e) ∨ ∃ d1 d2, holds d1 conn name ∧ fn d1 = (r, d2)).
Proof.
  intros Hdist E. unfold withDatabaseLock, m_bind, m_wrap in E. rewrite Hdist in E. cbn [negb] in E.
  destruct (db_Conn d) as [[conn|e] d0] eqn:Ec; cbn in E; [|left; injection E as <- <-; eauto].
  right. exists conn, d0. split; [done|]. destruct (lock_acquire conn name d0) as [[[]|e] d1] eqn:Ea.
  - apply law_acquire in Ea. destruct (fn d1) as [r1 d2] eqn:Efn.
    destruct (lock_release conn name d2) as [[[]|e] d3] eqn:Er; injection E as <- <-.
    + split; [|right; eauto]. intros Hh%law_close. by apply law_release in Er.
    + split; [apply law_discard|right; eauto].
  - injection E as <- <-. split; [apply law_discard|left; eauto].
Qed.

(** ** A concrete database *)
Record plain_db := mkPlain { plain_columns : Schema; plain_recorded : list string }.
#[export] Instance plain_schema : SchemaDB plain_db := {|
  db_Name := "postgres";
  AutoMigrate table model := m_modify (λ d, mkPlain
    (<[table := brought_up model (default [] (plain_columns d !! table))]> (plain_columns d)) (plain_recorded d));
  AlterColumn table model column := m_modify (λ d, mkPlain
    (alter (altered model column) table (plain_columns d)) (plain_recorded d));
  create_schema_migrations := m_ret tt;
  find_schema_migrations := m_gets plain_recorded;
  create_schema_migration id := m_modify (λ d, mkPlain (plain_columns d) (plain_recorded d ++ [id]));
  schema_Transaction fn := λ d, match fn d with (Ok u, d') => (Ok u, d') | (Err e, _) => (Err e, d) end |}.
#[export, refine] Instance plain_laws : SchemaLaws plain_db := {|
  columns := plain_columns; recorded := plain_recorded |}.
Proof.
  - by intros table model d d' [= <-].
  - by intros table model column d d' [= <-].
  - by intros d r d' [= <- <-].
  - intros d r d' [= <- <-]. split; [done|]. by intros l [= <-].
  - by intros id d d' [= <-].
  - intros fn d r d'. cbn. destruct (fn d) as [[[]|e] d1] eqn:E; intros [= <- <-]; [|done]. by exists d, d1.
Defined.
(** A database as the fifth migration left it. *)
Definition older : plain_db := mkPlain (schema_after false 5) (id <$> take 5 migrations).
