(* ===== verification/Atomic.v ===== *)
(** * All or nothing

    The operations of the storage either do what their law says or fail and
    change nothing. Code that reads, checks and then writes once inherits that:
    [readonly] and [atomic] say so of a computation, and the hint database
    [atomic] derives them from the shape of the code. *)
From S2P Require Import Prelude GoText Storage.

Section atomic.
  Context {S : Type} `{StorageLaws S}.
  Implicit Types (s : S).

Definition same (s s' : S) : Prop := ok s' ∧ view s' = view s ∧ emitted s' = emitted s.
(** Changes nothing, whether it fails or not. *)
Definition readonly {A} (m : M S A) : Prop := ∀ s r s', ok s → m s = (r, s') → same s s'.
(** Changes nothing when it fails, and keeps the storage in order. *)
Definition atomic {A} (m : M S A) : Prop := ∀ s r s', ok s → m s = (r, s') →
  ok s' ∧ ∀ e, r = Err e → same s s'.
(** Cannot fail and changes nothing. *)
Definition pure_step {A} (m : M S A) : Prop := ∀ s, ∃ a, m s = (Ok a, s).

Lemma same_refl s : ok s → same s s.
Proof. done. Qed.
Lemma same_trans s1 s2 s3 : same s1 s2 → same s2 s3 → same s1 s3.
Proof. intros (? & ? & ?) (? & ? & ?). repeat split; congruence. Qed.

Lemma readonly_query {A} (m : M S A) P : query view ok m P → readonly m.
Proof. intros Hq s r s' Hok E. by apply Hq in E as [-> _]. Qed.
Lemma readonly_lift {A} (r : result A) : readonly (lift r).
Proof. intros s r' s' Hok [= <- <-]. done. Qed.
Lemma readonly_ret {A} (a : A) : readonly (m_ret a).
Proof. intros s r' s' Hok [= <- <-]. done. Qed.
Lemma readonly_fail {A} e : readonly (m_fail (A := A) e).
Proof. intros s r' s' Hok [= <- <-]. done. Qed.
Lemma readonly_wrap {A} msg (m : M S A) : readonly m → readonly (m_wrap msg m).
Proof.
  intros Hm s r s' Hok E. unfold m_wrap in E. destruct (m s) as [r1 s1] eqn:Em.
  injection E as _ <-. by eapply Hm.
Qed.
Lemma readonly_try {A} (m : M S A) : readonly m → readonly (m_try m).
Proof.
  intros Hm s r s' Hok E. unfold m_try in E. destruct (m s) as [r1 s1] eqn:Em.
  injection E as _ <-. by eapply Hm.
Qed.
Lemma readonly_bind {A B} (m : M S A) (k : A → M S B) :
  readonly m → (∀ a, readonly (k a)) → readonly (m_bind m k).
Proof.
  intros Hm Hk s r s' Hok E. unfold m_bind in E. destruct (m s) as [[a|e] s1] eqn:Em.
  - pose proof (Hm _ _ _ Hok Em) as Hs. eapply same_trans; [exact Hs|].
    eapply Hk; [apply Hs|exact E].
  - injection E as _ <-. by eapply Hm.
Qed.
Lemma readonly_if {A} (b : bool) (m1 m2 : M S A) :
  readonly m1 → readonly m2 → readonly (if b then m1 else m2).
Proof. by destruct b. Qed.
Lemma readonly_lock : readonly AllocationLock.
Proof.
  intros s r s' Hok E. apply law_AllocationLock in E as [Hok' Hr]; [|done].
  destruct r as [a|e]; [|done]. destruct Hr as (evs & [Hv ->] & He).
  rewrite app_nil_r in He. done.
Qed.

Lemma atomic_readonly {A} (m : M S A) : readonly m → atomic m.
Proof. intros Hm s r s' Hok E. pose proof (Hm _ _ _ Hok E) as Hs. split; [apply Hs|done]. Qed.
Lemma atomic_effect {A} (m : M S A) P : effect view ok m P → atomic m.
Proof.
  intros Hm s r s' Hok E. apply Hm in E as [Hok' Hr]; [|done]. split; [done|].
  intros e ->. by destruct Hr.
Qed.
Lemma atomic_wrap {A} msg (m : M S A) : atomic m → atomic (m_wrap msg m).
Proof.
  intros Hm s r s' Hok E. unfold m_wrap in E. destruct (m s) as [r1 s1] eqn:Em.
  injection E as Er <-. apply Hm in Em as [Hok' He]; [|done]. split; [done|].
  intros e ->. destruct r1; [done|]. by eapply He.
Qed.
(** Reading and checking before an atomic rest. *)
Lemma atomic_bind {A B} (m : M S A) (k : A → M S B) :
  readonly m → (∀ a, atomic (k a)) → atomic (m_bind m k).
Proof.
  intros Hm Hk s r s' Hok E. unfold m_bind in E. destruct (m s) as [[a|e] s1] eqn:Em.
  - pose proof (Hm _ _ _ Hok Em) as Hs. apply Hk in E as [Hok' He]; [|apply Hs].
    split; [done|]. intros e Er. eapply same_trans; [exact Hs|by eapply He].
  - injection E as <- <-. pose proof (Hm _ _ _ Hok Em) as Hs. split; [apply Hs|done].
Qed.
(** A write followed by steps that cannot fail. *)
Lemma atomic_then {A B} (m : M S A) (k : A → M S B) :
  atomic m → (∀ a, pure_step (k a)) → atomic (m_bind m k).
Proof.
  intros Hm Hk s r s' Hok E. unfold m_bind in E. destruct (m s) as [[a|e] s1] eqn:Em.
  - apply Hm in Em as [Hok' _]; [|done]. destruct (Hk a s1) as [b Eb]. rewrite Eb in E.
    injection E as <- <-. done.
  - injection E as <- <-. apply Hm in Em as [Hok' He]; [|done]. split; [done|]. intros e' _. by eapply He.
Qed.
Lemma atomic_if {A} (b : bool) (m1 m2 : M S A) : atomic m1 → atomic m2 → atomic (if b then m1 else m2).
Proof. by destruct b. Qed.
Lemma pure_ret {A} (a : A) : pure_step (m_ret a).
Proof. intros s. exists a. reflexivity. Qed.
Lemma atomic_under_lock {A} (m : M S A) : atomic m → atomic (WithAllocationLock m).
Proof. intros Hm. apply atomic_bind; [apply readonly_lock|done]. Qed.
End atomic.

Create HintDb atomic.
#[export] Hint Resolve readonly_lift readonly_ret readonly_fail readonly_wrap readonly_try readonly_bind
  readonly_if readonly_lock atomic_wrap atomic_if pure_ret atomic_under_lock : atomic.
#[export] Hint Extern 1 (readonly (List_ _)) => eapply readonly_query, law_List : atomic.
#[export] Hint Extern 1 (readonly Addresses) => eapply readonly_query, law_Addresses : atomic.
#[export] Hint Extern 1 (readonly (Get _ _)) => eapply readonly_query, law_Get : atomic.
#[export] Hint Extern 1 (readonly (GetByPublicKey _)) => eapply readonly_query, law_GetByPublicKey : atomic.
#[export] Hint Extern 1 (readonly (GetUser _)) => eapply readonly_query, law_GetUser : atomic.
#[export] Hint Extern 1 (readonly Users) => eapply readonly_query, law_Users : atomic.

(** [solve_readonly] and [solve_atomic] follow the code: branches, reads, one
    write, pure steps. *)
Ltac solve_readonly_step :=
  match goal with
  | |- ∀ _, _ => intros
  | |- readonly (match ?x with _ => _ end) => destruct x
  | |- readonly (m_bind _ _) => apply readonly_bind
  | |- readonly (m_wrap _ _) => apply readonly_wrap
  | |- readonly (m_try _) => apply readonly_try
  | |- _ => solve [eauto 4 with atomic]
  end.
Ltac solve_readonly := solve [repeat solve_readonly_step].
Ltac solve_atomic_step :=
  match goal with
  | |- ∀ _, _ => intros
  | |- atomic (match ?x with _ => _ end) => destruct x
  | |- atomic (m_bind _ _) => first [apply atomic_bind; [solve_readonly|] | apply atomic_then]
  | |- atomic (WithAllocationLock _) => apply atomic_under_lock
  | |- atomic (m_wrap _ _) => apply atomic_wrap
  | |- pure_step _ => apply pure_ret
  | |- atomic _ => apply atomic_readonly; solve_readonly
  | |- atomic _ => eapply atomic_effect;
      first [apply law_Save | apply law_Rename | apply law_SetAccess | apply law_SetRoutes
            | apply law_SetKeys | apply law_Delete | apply law_DeleteForOwner | apply law_BlockForOwner
            | apply law_DeleteUser]
  end.
Ltac solve_atomic := repeat solve_atomic_step.
