(* ===== verification/AuthSession.v ===== *)
(** * internal/authnz/authsession: identities, claims, pending sign-ins

    [identity.go], [claims.go] and the parts of [session.go] that do not touch
    the cookie. *)
From S2P Require Import Prelude GoText GoQuote NetipText Json Storage.

Definition AdminClaim : string := "admin".
Definition PolicyClaim : string := "policy".

Record claim := mkClaim { claim_Name : string; claim_Value : string }.
#[export] Instance claim_eq_dec : EqDecision claim.
Proof. solve_decision. Defined.

Definition Claims := list claim.
Definition claims_Add (c : Claims) (name value : string) : Claims := c ++ [mkClaim name value].
Definition claims_Contains (c : Claims) (name : string) : bool :=
  existsb (λ curr, String.eqb (claim_Name curr) name) c.
Definition claims_Has (c : Claims) (name value : string) : bool :=
  existsb (λ curr, String.eqb (claim_Name curr) name && String.eqb (claim_Value curr) value) c.
Definition claims_Values (c : Claims) (name : string) : list string :=
  claim_Value <$> filter (λ curr, claim_Name curr = name) c.
Definition IsAdmin (c : Claims) : bool := claims_Has c AdminClaim "true".
Definition MakeAdmin (c : Claims) : Claims := claims_Add c AdminClaim "true".

Module Identity.
Record t := mk {
  Provider : string;
  Subject : string;
  Name : string;
  Email : string;
  Claims : AuthSession.Claims }.

#[export] Instance eq_dec : EqDecision t.
Proof. solve_decision. Defined.
End Identity.
Notation Identity := Identity.t.

(** [PendingLogin]: the password was right, the code has not been given yet. *)
Record PendingLogin := mkPending { pl_Subject : string; pl_Provider : string; pl_Until : Time }.
Definition PendingLogin_Valid (p : option PendingLogin) (now : Time) : bool :=
  match p with
  | Some p => negb (String.eqb (pl_Subject p) "") && (now <? pl_Until p)
  | None => false
  end.

(** [AuthSession], what a request carries. *)
Record AuthSession := mkAuthSession {
  as_State : option string;
  as_Nonce : option string;
  as_Verifier : option string;
  as_ID : string;
  as_Identity : option Identity;
  as_APIToken : string;
  as_Pending : option PendingLogin }.

(** The session in a request's context, if there is one. *)
Definition Ctx := option AuthSession.
Definition CurrentSessionID (ctx : Ctx) : string :=
  match ctx with Some s => as_ID s | None => "" end.
Definition CurrentUser (ctx : Ctx) : result Identity :=
  match ctx with
  | Some s => match as_Identity s with
              | Some i => Ok i
              | None => Err (PlainError "Unauthenticated")
              end
  | None => Err (PlainError "Unauthenticated")
  end.
Definition APIToken_id (ctx : Ctx) : string :=
  match ctx with Some s => as_APIToken s | None => "" end.
Definition Authenticated (ctx : Ctx) : bool := is_ok (CurrentUser ctx).

Lemma claims_Has_spec c name value : claims_Has c name value = true ↔ mkClaim name value ∈ c.
Proof.
  unfold claims_Has. rewrite existsb_exists. split.
  - intros ([n v] & Hin & [En%String.eqb_eq Ev%String.eqb_eq]%andb_true_iff).
    simpl in *. subst. by apply list_elem_of_In.
  - intros Hin. exists (mkClaim name value). split; [by apply list_elem_of_In|]. cbn [claim_Name claim_Value].
    by rewrite !String.eqb_refl.
Qed.

Lemma claims_Values_spec c name value : value ∈ claims_Values c name ↔ claims_Has c name value = true.
Proof.
  rewrite claims_Has_spec. unfold claims_Values. rewrite list_elem_of_fmap. split.
  - intros ([n v] & -> & [E Hin]%list_elem_of_filter). simpl in *. by subst.
  - intros Hin. exists (mkClaim name value). split; [done|]. by apply list_elem_of_filter.
Qed.

Lemma CurrentUser_ok ctx u : CurrentUser ctx = Ok u ↔ ∃ s, ctx = Some s ∧ as_Identity s = Some u.
Proof. unfold CurrentUser. destruct ctx as [s|]; [|naive_solver]. destruct (as_Identity s) eqn:E; naive_solver. Qed.

(** ** Identities as JSON

    What [json.Marshal] and [json.Unmarshal] do with an [Identity]
    ([identity.go], [claims.go]): the form in which sessions and tokens keep who
    they belong to. A list of no claims is written as null. *)
(** ** Marshal *)
Definition marshal_claim (c : claim) : list ascii :=
  json_object [("Name", json_string (claim_Name c)); ("Value", json_string (claim_Value c))].
Definition marshal_claims (c : Claims) : list ascii :=
  match c with [] => bytes "null" | _ => json_array (marshal_claim <$> c) end.
Definition marshal_identity (i : Identity) : string :=
  of_bytes (json_object [("Provider", json_string (Identity.Provider i));
    ("Subject", json_string (Identity.Subject i)); ("Name", json_string (Identity.Name i));
    ("Email", json_string (Identity.Email i)); ("Claims", marshal_claims (Identity.Claims i))]).

(** ** Unmarshal *)
Fixpoint fold_fields {A} (f : A → string → json → option A) (a : A) (l : list (string * json)) : option A :=
  match l with
  | [] => Some a
  | (k, v) :: l' => a' ← f a k v; fold_fields f a' l'
  end.
(** A structure decoded on top of the one that is there. *)
Definition struct {A} (f : A → string → json → option A) (old : A) (v : json) : option A :=
  match v with JObject l => fold_fields f old l | JNull => Some old | _ => None end.

Definition claim_field (c : claim) (k : string) (v : json) : option claim :=
  if same_fold k "Name" then s ← text_field v (claim_Name c); Some (mkClaim s (claim_Value c))
  else if same_fold k "Value" then s ← text_field v (claim_Value c); Some (mkClaim (claim_Name c) s)
  else Some c.
(** Elements are decoded on top of those that are there already. *)
Fixpoint decode_elements (old : Claims) (l : list json) : option Claims :=
  match l with
  | [] => Some []
  | v :: l' =>
      c ← struct claim_field (hd (mkClaim "" "") old) v;
      cs ← decode_elements (tl old) l'; Some (c :: cs)
  end.
Definition decode_claims (old : Claims) (v : json) : option Claims :=
  match v with JArray l => decode_elements old l | JNull => Some [] | _ => None end.

Definition identity_field (i : Identity) (k : string) (v : json) : option Identity :=
  let '(Identity.mk provider subject name email claims) := i in
  if same_fold k "Provider" then s ← text_field v provider; Some (Identity.mk s subject name email claims)
  else if same_fold k "Subject" then s ← text_field v subject; Some (Identity.mk provider s name email claims)
  else if same_fold k "Name" then s ← text_field v name; Some (Identity.mk provider subject s email claims)
  else if same_fold k "Email" then s ← text_field v email; Some (Identity.mk provider subject name s claims)
  else if same_fold k "Claims" then c ← decode_claims claims v; Some (Identity.mk provider subject name email c)
  else Some i.
Definition unmarshal_identity (s : string) : option Identity :=
  v ← json_parse s; struct identity_field (Identity.mk "" "" "" "" []) v.

(** ** The round trip *)
(** The identity that comes back: bytes that are not UTF-8 are replaced. *)
Definition valid_claim (c : claim) : claim := mkClaim (to_valid (claim_Name c)) (to_valid (claim_Value c)).
Definition valid_identity (i : Identity) : Identity :=
  Identity.mk (to_valid (Identity.Provider i)) (to_valid (Identity.Subject i))
    (to_valid (Identity.Name i)) (to_valid (Identity.Email i)) (valid_claim <$> Identity.Claims i).

Definition claim_json (c : claim) : json :=
  JObject [("Name", JString (to_valid (claim_Name c))); ("Value", JString (to_valid (claim_Value c)))].
Definition claims_json (c : Claims) : json :=
  match c with [] => JNull | _ => JArray (claim_json <$> c) end.

Lemma reads_more n m text v : reads n text v → (n <= m)%nat → reads m text v.
Proof. intros Hr Hm f rest Hf. apply Hr. lia. Qed.
Lemma reads_claim c : reads 4 (marshal_claim c) (claim_json c).
Proof.
  apply (reads_object 1 [("Name", json_string (claim_Name c)); ("Value", json_string (claim_Value c))]
    [JString (to_valid (claim_Name c)); JString (to_valid (claim_Value c))]); [done|].
  repeat constructor; apply reads_string.
Qed.
Lemma reads_claims c : reads (S (List.length c + 4)) (marshal_claims c) (claims_json c).
Proof.
  destruct c as [|c0 c]; [apply (reads_more 1); [apply reads_null|simpl; lia]|].
  set (cs := c0 :: c). unfold marshal_claims, claims_json. subst cs. cbv iota.
  rewrite <- (length_map marshal_claim (c0 :: c)). apply reads_array; [done| |].
  - apply Forall_fmap, Forall_true. intros x. unfold marshal_claim, json_object. simpl. eauto.
  - induction (c0 :: c) as [|x l IH]; [constructor|]. constructor; [apply reads_claim|apply IH].
Qed.

Lemma decode_valid_claims c : decode_claims [] (claims_json c) = Some (valid_claim <$> c).
Proof.
  destruct c as [|c0 c]; [done|]. unfold decode_claims, claims_json.
  induction (c0 :: c) as [|x l IH]; [done|]. cbn [fmap list_fmap decode_elements hd tl].
  assert (struct claim_field (mkClaim "" "") (claim_json x) = Some (valid_claim x)) as -> by reflexivity.
  cbn [mbind option_bind]. by rewrite IH.
Qed.

Lemma marshal_claims_length c : (List.length c <= List.length (marshal_claims c))%nat.
Proof.
  destruct c as [|c0 c]; [simpl; lia|]. unfold marshal_claims, json_array. cbn [List.length].
  rewrite length_app.
  pose proof (sep_by_length "," (marshal_claim <$> c0 :: c)) as Hl. rewrite length_fmap in Hl.
  etrans; [|etrans]; [|apply Hl|]; [simpl; lia| |cbn [List.length]; lia].
  apply Forall_fmap, Forall_true. intros x. by unfold marshal_claim, json_object.
Qed.

(** Decoding what was encoded gives the identity back, up to bytes that are not
    UTF-8. *)
Lemma unmarshal_marshal i : unmarshal_identity (marshal_identity i) = Some (valid_identity i).
Proof.
  destruct i as [provider subject name email claims].
  set (members := [("Provider", json_string provider); ("Subject", json_string subject);
    ("Name", json_string name); ("Email", json_string email); ("Claims", marshal_claims claims)]).
  set (values := [JString (to_valid provider); JString (to_valid subject); JString (to_valid name);
    JString (to_valid email); claims_json claims]).
  assert (reads (S (5 + S (List.length claims + 4))) (json_object members)
    (JObject (zip (to_valid <$> members.*1) values))) as Hr.
  { change 5%nat with (List.length members). apply reads_object; [done|]. unfold members, values.
    repeat (apply Forall2_cons; split; [first [apply reads_claims | apply (reads_more 1); [apply reads_string|lia]]|]).
    constructor. }
  assert (S (5 + S (List.length claims + 4)) <= S (2 * List.length (json_object members)))%nat as Hf.
  { pose proof (marshal_claims_length claims). unfold members, json_object, json_member.
    cbn [fmap list_fmap sep_by fst snd]. cbn [List.length]. repeat (rewrite length_app; cbn [List.length]).
    lia. }
  unfold unmarshal_identity, marshal_identity. cbn [Identity.Provider Identity.Subject Identity.Name Identity.Email Identity.Claims].
  fold members. unfold json_parse. rewrite bytes_of_bytes, <- length_bytes, bytes_of_bytes.
  specialize (Hr _ [] Hf). rewrite app_nil_r in Hr. rewrite Hr. cbn [mbind option_bind skip_space].
  unfold values, members. cbn [fmap list_fmap fst zip zip_with struct fold_fields].
  change ((c ← decode_claims [] (claims_json claims); Some (Identity.mk (to_valid provider)
      (to_valid subject) (to_valid name) (to_valid email) c)) ≫= (λ i, Some i) =
    Some (valid_identity (Identity.mk provider subject name email claims))).
  by rewrite decode_valid_claims.
Qed.

Example marshal_ex : marshal_identity (Identity.mk "simple" "alice" "Alice <a>" "" [mkClaim "admin" "true"]) =
  apostrophes "{'Provider':'simple','Subject':'alice','Name':'Alice \u003ca\u003e','Email':'','Claims':[{'Name':'admin','Value':'true'}]}".
Proof. vm_compute. reflexivity. Qed.
