(* ===== verification/ApiTokens.v ===== *)
(** * internal/apitokens: tokens that act for a user

    [apitokens.go] and [middleware.go] on a storage of the interface. The
    random bytes of a new token, the time and the trace id are arguments; the
    claims middleware is a section variable. *)
From S2P Require Import Prelude GoText GoNet Encoding Storage AuthSession.

Definition Prefix : string := "wgas_".
Definition maxNameLength : Z := 100.
Definition second : Z := 10 ^ 9.
Definition touchInterval : Z := 60 * second.
Definition BasicAuthProvider : string := "basic".
Definition SimpleAuthProvider : string := "simple".

(** [ClaimsMiddleware]: changes the identity, or refuses it. *)
Definition ClaimsMiddleware := Identity → result Identity.

Definition hash (secret : string) : string := sha256_hex secret.
Definition randomString (buf : list Z) (encode : list Z → string) : string := encode buf.

(** The identity a token acts as: without the admin claim that the
    configuration gives the users of the built-in sign-in. *)
Definition derived_claim (owner : Identity) (c : claim) : bool :=
  (String.eqb (Identity.Provider owner) BasicAuthProvider
   || String.eqb (Identity.Provider owner) SimpleAuthProvider)
  && String.eqb (claim_Name c) AdminClaim.
Definition snapshot (owner : Identity) : Identity :=
  Identity.mk (Identity.Provider owner) (Identity.Subject owner) (Identity.Name owner)
    (Identity.Email owner) (List.filter (λ c, negb (derived_claim owner c)) (Identity.Claims owner)).

(** What the handler of a request does: go on with a context, or answer. *)
Inductive Handled :=
  | Next (ctx : Ctx)
  | Refused (status : Z) (message : string).

Section apitokens.
  Context {S : Type} `{Storage S} (claims : option ClaimsMiddleware).

Definition Create (owner : Identity) (name : string) (expiresAt : option Time) (now : Time)
    (id_bytes secret_bytes : list Z) : M S (string * APIToken) :=
  let name := TrimSpace name in
  stop! (ValidationError "a token needs a name") when String.eqb name "";
  stop! (ValidationError "the name of a token can be at most 100 characters long")
    when maxNameLength <? RuneCountInString name;
  stop! (ValidationError "the expiry date of a token must be in the future")
    when match expiresAt with Some e => negb (now <? e) | None => false end;
  let identity := marshal_identity (snapshot owner) in
  let id := randomString id_bytes hex_EncodeToString in
  let secret := Prefix +:+ randomString secret_bytes RawURLEncoding in
  let token := APIToken.mk id (Identity.Subject owner) name (hash secret) identity now expiresAt None in
  do! SaveToken token;
  m_ret (secret, token).

(** The last use is written at most once in a while, and a failure to write it
    is not a reason to refuse the request. *)
Definition touch_due (token : APIToken) (now : Time) : bool :=
  match APIToken.LastUsedAt token with None => true | Some last => touchInterval <=? now - last end.
Definition touch (token : APIToken) (now : Time) : M S unit :=
  if touch_due token now then do! m_try (TouchToken (APIToken.ID token) now); m_ret tt else m_ret tt.
Definition apply_claims (identity : Identity) : result Identity :=
  match claims with
  | None => Ok identity
  | Some f => match f identity with Ok i => Ok i | Err e => Err (ForbiddenError e) end
  end.
Definition Authenticate (secret : string) (now : Time) : M S (Identity * APIToken) :=
  stop! (SentinelError ErrInvalid) when negb (HasPrefix secret Prefix);
  let! found := m_try (GetTokenByHash (hash secret)) in
  match found with
  | Err e => m_fail (if error_is e ErrTokenNotFound then SentinelError ErrInvalid else e)
  | Ok token =>
      stop! (SentinelError ErrExpired) when APIToken.Expired token now;
      match unmarshal_identity (APIToken.Identity token) with
      | None => m_fail (WrappedError ("failed to decode the identity of api token " +:+ APIToken.ID token)
                  (PlainError "json"))
      | Some identity =>
          let! identity := lift (apply_claims identity) in
          do! touch token now;
          m_ret (identity, token)
      end
  end.

Definition List_tokens (owner : string) : M S (list APIToken) := ListTokens owner.

Definition Delete_token (user : Identity) (id : string) : M S APIToken :=
  let! token := GetToken id in
  stop! (SentinelError ErrTokenNotFound)
    when negb (String.eqb (APIToken.Owner token) (Identity.Subject user))
         && negb (IsAdmin (Identity.Claims user));
  do! DeleteToken id;
  m_ret token.

Definition DeleteForOwner (owner : string) : M S Z := DeleteTokensForOwner owner.
End apitokens.

(** ** middleware.go *)
Definition apiPrefix : string := "/api/".

Definition bearerToken (r : Request) : option string :=
  match Cut (Header_Get r "Authorization") " " with
  | Some (scheme, token) =>
      if negb (EqualFold scheme "Bearer") then None
      else let token := TrimSpace token in
           if String.eqb token "" then None else Some token
  | None => None
  end.

Fixpoint is_forbidden (e : goerror) : bool :=
  match e with ForbiddenError _ => true | WrappedError _ c => is_forbidden c | _ => false end.
Definition refusal (trace : string) (e : goerror) : Handled :=
  if is_forbidden e then Refused 403 "the owner of this token has no access"
  else if error_is e ErrInvalid || error_is e ErrExpired then Refused 401 (error_text e)
  else Refused 500 ("failed to check the token (trace = " +:+ trace +:+ ")").

(** The handler in front of every request: [m] says whether tokens are enabled. *)
Definition Middleware {S} `{Storage S} (enabled : bool) (claims : option ClaimsMiddleware)
    (trace : string) (r : Request) (ctx : Ctx) (now : Time) : M S Handled :=
  match bearerToken r with
  | None => m_ret (Next ctx)
  | Some secret =>
      if negb (HasPrefix (Path r) apiPrefix) then m_ret (Next ctx)
      else if negb enabled then m_ret (Refused 401 "API tokens are disabled on this server")
      else
        let! res := m_try (Authenticate claims secret now) in
        match res with
        | Err e => m_ret (refusal trace e)
        | Ok (identity, token) =>
            m_ret (Next (Some (mkAuthSession None None None "" (Some identity) (APIToken.ID token) None)))
        end
  end.
