(* ===== verification/WebSessions.v ===== *)
(** * internal/websessions and the cookie of internal/authnz/authsession

    The sessions the server keeps ([websessions.go]) and what the cookie of a
    browser has to do with them ([session.go]: [GetSession], [SetSession],
    [ClearSession]). Random ids and the time are arguments. The cookie store is
    third-party code: of a browser it keeps the value of the cookie, signed, and
    gives back what it was given or nothing. *)
From S2P Require Import Prelude GoText GoNet Encoding Storage AuthSession.

Definition second : Z := 10 ^ 9.
Definition touchInterval : Z := 60 * second.
Definition maxUserAgentLength : Z := 255.
Definition hash (id : string) : string := sha256_hex id.
Definition newID (buf : list Z) : string := RawURLEncoding buf.

Definition userAgent (r : option Request) : string :=
  match r with
  | None => ""
  | Some r =>
      let agent := UserAgent r in
      if maxUserAgentLength <? slen agent
      then of_bytes (take (Z.to_nat maxUserAgentLength) (bytes agent)) else agent
  end.
Definition remoteAddr (r : option Request) : string :=
  match r with
  | None => ""
  | Some r => match SplitHostPort (RemoteAddr r) with Some (host, _) => host | None => RemoteAddr r end
  end.

Section websessions.
  Context {S : Type} `{Storage S}.

(** ** websessions.go *)
(** [uuid] is the id of the new row, [buf] the random bytes of the cookie. *)
Definition Create (maxAge : Z) (identity : option Identity) (r : option Request) (now : Time)
    (uuid : string) (buf : list Z) : M S string :=
  match identity with
  | None => m_fail (PlainError "a session needs an identity")
  | Some identity =>
      let encoded := marshal_identity identity in
      let secret := newID buf in
      let session := Session.mk uuid (Identity.Subject identity) (hash secret) encoded
        (userAgent r) (remoteAddr r) now (now + maxAge) now in
      do! SaveSession session;
      m_ret secret
  end.

Definition touch (session : Session) (now : Time) : M S unit :=
  if touchInterval <=? now - Session.LastSeenAt session
  then do! m_try (TouchSession (Session.ID session) now); m_ret tt else m_ret tt.
(** A session by its secret; that there is none is [ErrInvalid]. *)
Definition lookup_session (id : string) : M S Session :=
  let! found := m_try (GetSessionByHash (hash id)) in
  match found with
  | Err e => m_fail (if error_is e ErrSessionNotFound then SentinelError ErrInvalidSession else e)
  | Ok session => m_ret session
  end.
Definition Identity_of (id : string) (now : Time) : M S Identity :=
  stop! (SentinelError ErrInvalidSession) when String.eqb id "";
  let! session := lookup_session id in
  stop! (SentinelError ErrInvalidSession) when Session.Expired session now;
  match unmarshal_identity (Session.Identity session) with
  | None => m_fail (WrappedError ("failed to decode the identity of session " +:+ Session.ID session)
              (PlainError "json"))
  | Some identity => do! touch session now; m_ret identity
  end.

Definition End_session (id : string) : M S unit :=
  if String.eqb id "" then m_ret tt else
  let! found := m_try (GetSessionByHash (hash id)) in
  match found with
  | Err e => if error_is e ErrSessionNotFound then m_ret tt else m_fail e
  | Ok session => DeleteSession (Session.ID session)
  end.

Definition List_sessions (owner : string) : M S (list Session) := ListSessions owner.

Definition Find (id : string) : M S Session :=
  stop! (SentinelError ErrInvalidSession) when String.eqb id "";
  lookup_session id.

Definition Delete_session (owner id : string) : M S unit :=
  let! sessions := ListSessions owner in
  if existsb (λ x, String.eqb (Session.ID x) id) sessions then DeleteSession id
  else m_fail (SentinelError ErrInvalidSession).

(** The count of ended sessions comes back with the error as well. *)
Fixpoint end_others (keep : string) (l : list Session) (ended : Z) : M S (Z * option goerror) :=
  match l with
  | [] => m_ret (ended, None)
  | x :: l' =>
      if String.eqb (Session.ID x) keep then end_others keep l' ended else
      let! r := m_try (DeleteSession (Session.ID x)) in
      match r with
      | Err e => m_ret (ended, Some e)
      | Ok _ => end_others keep l' (ended + 1)
      end
  end.
Definition EndOthers (owner keep : string) : M S (Z * option goerror) :=
  let! r := m_try (ListSessions owner) in
  match r with
  | Err e => m_ret (0, Some e)
  | Ok sessions => end_others keep sessions 0
  end.

Definition EndAllForOwner (owner : string) : M S Z := DeleteSessionsForOwner owner.

(** One turn of the cleanup loop; a failure is logged. *)
Definition cleanup_turn (now : Time) : M S unit :=
  do! m_try (DeleteExpiredSessions now); m_ret tt.

(** ** session.go *)
(** What the cookie holds: the fields of [AuthSession] that are written to it. *)
Record Cookie := mkCookie {
  ck_State : option string;
  ck_Nonce : option string;
  ck_Verifier : option string;
  ck_ID : string;
  ck_Pending : option PendingLogin }.
Definition from_cookie (c : Cookie) : AuthSession :=
  mkAuthSession (ck_State c) (ck_Nonce c) (ck_Verifier c) (ck_ID c) None "" (ck_Pending c).
Definition to_cookie (s : AuthSession) : Cookie :=
  mkCookie (as_State s) (as_Nonce s) (as_Verifier s) (as_ID s) (as_Pending s).
Definition with_Identity (i : Identity) (s : AuthSession) : AuthSession :=
  mkAuthSession (as_State s) (as_Nonce s) (as_Verifier s) (as_ID s) (Some i) (as_APIToken s) (as_Pending s).
Definition with_ID (id : string) (s : AuthSession) : AuthSession :=
  mkAuthSession (as_State s) (as_Nonce s) (as_Verifier s) id (as_Identity s) (as_APIToken s) (as_Pending s).

Definition GetSession (cookie : option Cookie) (now : Time) : M S AuthSession :=
  match cookie with
  | None => m_fail (PlainError "session not authenticated")
  | Some c =>
      let s := from_cookie c in
      if String.eqb (as_ID s) "" then m_ret s else
      let! identity := m_wrap "failed to read the session" (Identity_of (as_ID s) now) in
      m_ret (with_Identity identity s)
  end.

(** Ending the session that the new one replaces; a failure is logged. *)
Definition end_previous (cookie : option Cookie) (id : string) (now : Time) : M S unit :=
  let! previous := m_try (GetSession cookie now) in
  match previous with
  | Ok p => if negb (String.eqb (as_ID p) "") && negb (String.eqb (as_ID p) id)
            then do! m_try (End_session (as_ID p)); m_ret tt else m_ret tt
  | Err _ => m_ret tt
  end.
(** The cookie the browser gets, when it could be written ([saved]). *)
Definition SetSession (maxAge : Z) (cookie : option Cookie) (r : Request) (s : AuthSession)
    (now : Time) (uuid : string) (buf : list Z) (saved : result unit) : M S Cookie :=
  do! end_previous cookie (as_ID s) now;
  let! s := (if bool_decide (as_Identity s ≠ None) && String.eqb (as_ID s) ""
             then let! id := m_wrap "failed to start the session"
                    (Create maxAge (as_Identity s) (Some r) now uuid buf) in
                  m_ret (with_ID id s)
             else m_ret s) in
  do! lift saved;
  m_ret (to_cookie s).

(** The browser loses the cookie ([MaxAge] is -1) when it could be written. *)
Definition ClearSession (cookie : option Cookie) (now : Time) (saved : result unit) : M S (option Cookie) :=
  do! end_previous cookie "" now;
  do! lift saved;
  m_ret None.
End websessions.
