(* ===== verification/Totp.v ===== *)
(** * internal/users/totp.go: time-based one-time passwords

    The code of a time step as every authenticator app computes it (RFC 6238
    over RFC 4226), the check that tolerates one step either way, and the URI an
    app reads. Times are nanoseconds since the epoch. *)
From S2P Require Import Prelude GoText Netip NetipText Network GoQuote Encoding Storage.

Definition totpStep : Z := 30.
Definition totpDigits : nat := 6.
Definition totpWindow : Z := 1.
Definition secretBytes : nat := 20.

Definition uint64 (z : Z) : Z := z mod 2 ^ 64.
(** [at.Unix()] *)
Definition Unix (at_ : Time) : Z := at_ / 10 ^ 9.

Definition NewTOTPSecret (buf : list Z) : string := base32_EncodeToString buf.

(** ** code: the truncation of RFC 4226 *)
(** [%0*d] of a number that is not negative. *)
Definition zero_padded (digits : nat) (n : Z) : string :=
  let text := Itoa n in
  of_bytes (repeat "0"%char (digits - String.length text)) +:+ text.
Definition power10 (digits : nat) : Z := Nat.iter digits (λ m, mask32 (m * 10)) 1.
Definition truncated (sum : list Z) : Z :=
  let offset := Z.to_nat (Z.land (nth 19 sum 0) 0x0f) in
  Z.land (be_word (take 4 (drop offset sum))) 0x7fffffff.
Definition code (key : list Z) (counter : Z) (digits : nat) : string :=
  let sum := HMAC Sum1 key (be_bytes 8 counter) in
  zero_padded digits (truncated sum mod power10 digits).

Section totp.
  Context `{UpperTable}.

Definition secret_key (secret : string) : option (list Z) :=
  base32_DecodeString (ToUpper (TrimSpace secret)).
Definition time_step (at_ : Time) : Z := uint64 (Unix at_) / totpStep.

Definition TOTPCode (secret : string) (at_ : Time) : result string :=
  match secret_key secret with
  | None => Err (WrappedError "the two-factor secret is not base32" (PlainError "base32"))
  | Some key => Ok (code key (time_step at_) totpDigits)
  end.

(** The steps are all checked, the last one that matches is reported. *)
Definition check_step (key : list Z) (given : string) (step : Z) (found : Z * bool) (i : Z) : Z * bool :=
  let counter := uint64 (step + uint64 i) in
  if String.eqb (code key counter totpDigits) given then (wrap64 counter, true) else found.
Definition CheckTOTPStep (secret given : string) (now : Time) : Z * bool :=
  let given := TrimSpace given in
  if negb (slen given =? Z.of_nat totpDigits) then (0, false) else
  match secret_key secret with
  | None => (0, false)
  | Some key => fold_left (check_step key given (time_step now)) [- totpWindow; 0; totpWindow] (0, false)
  end.
Definition CheckTOTP (secret given : string) (now : Time) : bool := (CheckTOTPStep secret given now).2.
End totp.

(** ** The URI of the QR code *)
Definition upper_hex (d : Z) : ascii := if d <? 10 then chr (48 + d) else chr (55 + d).
Definition unreserved (c : ascii) : bool :=
  let b := byte_of c in
  ((97 <=? b) && (b <=? 122)) || ((65 <=? b) && (b <=? 90)) || ((48 <=? b) && (b <=? 57))
  || existsb (Ascii.eqb c) (bytes "-_.~").
Definition percent (c : ascii) : list ascii :=
  ["%"%char; upper_hex (byte_of c / 16); upper_hex (byte_of c mod 16)].
(** [url.PathEscape] *)
Definition PathEscape (s : string) : string :=
  of_bytes (bytes s ≫= λ c, if unreserved c || existsb (Ascii.eqb c) (bytes "$&+=:@") then [c] else percent c).
(** [url.QueryEscape] *)
Definition QueryEscape (s : string) : string :=
  of_bytes (bytes s ≫= λ c, if unreserved c then [c] else if Ascii.eqb c " " then ["+"%char] else percent c).
Definition TOTPURI (issuer account secret : string) : string :=
  let label := PathEscape (issuer +:+ ":" +:+ account) in
  let query := [("algorithm", "SHA1"); ("digits", Itoa (Z.of_nat totpDigits)); ("issuer", issuer);
                ("period", Itoa totpStep); ("secret", secret)] in
  "otpauth://totp/" +:+ label +:+ "?" +:+
    Join ((λ kv, QueryEscape kv.1 +:+ "=" +:+ QueryEscape kv.2) <$> query) "&".

(** The test vectors of RFC 6238, appendix B. *)
Definition rfc_key : list Z := byte_of <$> bytes "12345678901234567890".
Example totp_rfc6238 :
  (λ t, code rfc_key (t / 30) 8) <$> [59; 1111111109; 1111111111; 1234567890; 2000000000; 20000000000] =
  ["94287082"; "07081804"; "14050471"; "89005924"; "69279037"; "65353130"].
Proof. vm_compute. reflexivity. Qed.
Example totp_uri_ex : TOTPURI "wg access" "a/b" "ABC" =
  "otpauth://totp/wg%20access:a%2Fb?algorithm=SHA1&digits=6&issuer=wg+access&period=30&secret=ABC".
Proof. vm_compute. reflexivity. Qed.

(** ** Lemmas *)
Lemma power10_6 : power10 6 = 1000000.
Proof. reflexivity. Qed.
Lemma uint64_id z : 0 <= z < 2 ^ 64 → uint64 z = z.
Proof. intros. by apply Z.mod_small. Qed.

(** [strconv.Itoa] of a number below a power of ten is at most as long. *)
Lemma itoa_fuel_length f n acc : (1 <= f)%nat → 0 <= n < 10 ^ Z.of_nat f →
  ∀ k, (1 <= k <= f)%nat → n < 10 ^ Z.of_nat k →
  (List.length (itoa_fuel f n acc) <= k + List.length acc)%nat.
Proof.
  revert n acc. induction f as [|f IH]; intros n acc Hf Hn k Hk Hlt; [lia|].
  cbn [itoa_fuel]. destruct (Z.ltb_spec n 10); [simpl; lia|].
  destruct k as [|[|k]]; [lia|simpl in Hlt; lia|].
  destruct f as [|f]; [simpl in Hn; lia|].
  assert (n / 10 < 10 ^ Z.of_nat (S k)).
  { apply Z.div_lt_upper_bound; [lia|]. rewrite <- Z.pow_succ_r by lia. by rewrite <- Nat2Z.inj_succ. }
  assert (0 <= n / 10 < 10 ^ Z.of_nat (S f)).
  { split; [apply Z.div_pos; lia|]. apply Z.div_lt_upper_bound; [lia|].
    rewrite <- Z.pow_succ_r by lia. rewrite <- Nat2Z.inj_succ. lia. }
  etrans; [apply (IH _ _ ltac:(lia) ltac:(done) (S k)); [lia|done]|]. simpl. lia.
Qed.
Lemma Itoa_length n k : 0 <= n < 10 ^ Z.of_nat k → (1 <= k <= 20)%nat → (String.length (Itoa n) <= k)%nat.
Proof.
  intros Hn Hk. unfold Itoa. destruct (Z.ltb_spec n 0); [lia|].
  rewrite <- length_bytes, bytes_of_bytes. etrans; [apply (itoa_fuel_length 20 n [] ltac:(lia)) with (k := k)|simpl; lia]; try lia.
  split; [lia|]. eapply Z.lt_le_trans; [apply Hn|]. apply Z.pow_le_mono_r; lia.
Qed.
Lemma app_length_string (s t : string) : String.length (s +:+ t) = (String.length s + String.length t)%nat.
Proof. rewrite <- !length_bytes, bytes_app. apply length_app. Qed.
Lemma truncated_range sum : 0 <= truncated sum < 2 ^ 31.
Proof.
  unfold truncated. set (x := be_word _). change 0x7fffffff with (Z.ones 31). rewrite Z.land_ones by lia.
  apply Z.mod_pos_bound. lia.
Qed.
(** A code has six characters, whatever the key and the step. *)
Lemma code_length key counter : String.length (code key counter totpDigits) = 6%nat.
Proof.
  unfold code, zero_padded, totpDigits. rewrite power10_6. set (n := truncated _ mod 1000000).
  assert (0 <= n < 1000000) as Hn by (apply Z.mod_pos_bound; lia).
  pose proof (Itoa_length n 6 Hn ltac:(lia)) as Hl.
  rewrite app_length_string, <- length_bytes, bytes_of_bytes, repeat_length. lia.
Qed.
Lemma itoa_fuel_digits f n acc : 0 <= n → Forall (λ c, is_digit c = true) acc →
  Forall (λ c, is_digit c = true) (itoa_fuel f n acc).
Proof.
  revert n acc. induction f as [|f IH]; intros n acc Hn Ha; [done|].
  assert (∀ d, 0 <= d < 10 → is_digit (digit d) = true) as Hd.
  { intros d Hd. unfold is_digit, digit. rewrite byte_of_chr by lia.
    destruct (Z.leb_spec 48 (48 + d)), (Z.leb_spec (48 + d) 57); (done || lia). }
  cbn [itoa_fuel]. destruct (Z.ltb_spec n 10); [constructor; [apply Hd; lia|done]|].
  apply IH; [apply Z.div_pos; lia|]. constructor; [|done]. apply Hd, Z.mod_pos_bound. lia.
Qed.
Lemma code_digits key counter : Forall (λ c, is_digit c = true) (bytes (code key counter totpDigits)).
Proof.
  unfold code, zero_padded. rewrite bytes_app, bytes_of_bytes. apply Forall_app. split.
  - induction (totpDigits - _)%nat; simpl; constructor; auto.
  - unfold Itoa. destruct (Z.ltb_spec (truncated (HMAC Sum1 key (be_bytes 8 counter)) mod power10 totpDigits) 0) as [Hl|Hl].
    + pose proof (Z.mod_pos_bound (truncated (HMAC Sum1 key (be_bytes 8 counter))) (power10 totpDigits)) as Hb.
      change (power10 totpDigits) with 1000000 in *. lia.
    + rewrite bytes_of_bytes. by apply itoa_fuel_digits.
Qed.
(** A code has no blanks around it. *)
Lemma code_trimmed key counter : TrimSpace (code key counter totpDigits) = code key counter totpDigits.
Proof.
  rewrite <- (of_bytes_bytes (code key counter totpDigits)). apply TrimSpace_text.
  eapply Forall_impl; [apply code_digits|]. intros c Hc. simpl in Hc. unfold is_digit in Hc. unfold text_byte.
  apply andb_true_iff in Hc as [H1%Z.leb_le H2%Z.leb_le].
  destruct (Z.leb_spec 33 (byte_of c)), (Z.ltb_spec (byte_of c) 127); try lia. simpl.
  destruct (Ascii.eqb_spec c ","); [subst; simpl in *; done|done].
Qed.

Section lemmas.
  Context `{UpperTable}.

Lemma CheckTOTPStep_ok secret given now m : CheckTOTPStep secret given now = (m, true) →
  ∃ key i, secret_key secret = Some key ∧ i ∈ [-1; 0; 1] ∧
    m = wrap64 (uint64 (time_step now + uint64 i)) ∧
    code key (uint64 (time_step now + uint64 i)) totpDigits = TrimSpace given.
Proof.
  unfold CheckTOTPStep. destruct (negb _); [done|]. destruct (secret_key secret) as [key|]; [|done].
  unfold check_step, totpWindow. change (Z.opp 1) with (-1). cbn [fold_left].
  repeat (match goal with |- context [String.eqb ?c (TrimSpace given)] =>
      destruct (String.eqb_spec c (TrimSpace given)) as [Ec|_] end;
    [intros [= <-]; eexists key, _; split_and!; [done| |done|exact Ec]; rewrite !elem_of_cons; auto|]).
  done.
Qed.
Lemma fold_check_true key given step l acc i :
  acc.2 = true ∨ (i ∈ l ∧ code key (uint64 (step + uint64 i)) totpDigits = given) →
  (fold_left (check_step key given step) l acc).2 = true.
Proof.
  revert acc. induction l as [|j l IH]; intros acc [Ha|[Hin Hc]]; [done|by apply not_elem_of_nil in Hin|..];
    cbn [fold_left]; apply IH; unfold check_step.
  - left. by destruct (String.eqb _ given).
  - apply elem_of_cons in Hin as [->|Hin]; [left|by right].
    rewrite Hc. by rewrite String.eqb_refl.
Qed.
(** The code of a step is accepted one step before, in and one step after it. *)
Lemma CheckTOTPStep_code secret key now i : secret_key secret = Some key → i ∈ [-1; 0; 1] →
  (CheckTOTPStep secret (code key (uint64 (time_step now + uint64 i)) totpDigits) now).2 = true.
Proof.
  intros Hk Hi. unfold CheckTOTPStep. rewrite code_trimmed. unfold slen. rewrite code_length. simpl negb. cbv iota.
  rewrite Hk. apply (fold_check_true key _ _ _ _ i). right. split; [exact Hi|reflexivity].
Qed.
End lemmas.
