(* ===== verification/Passkeys.v ===== *)
(** * internal/users/passkeys.go: passkeys as a second factor

    The two halves of a registration and of a sign-in on a storage of the
    interface, what a person can do with their passkeys, and which site a
    browser binds them to. The WebAuthn library is third-party: a class of its
    calls, with the two things the code relies on as laws. The random bytes of a
    challenge and the time are arguments. *)
From S2P Require Import Prelude GoText GoNet Encoding Storage Totp.

Definition challengeFor : Z := 5 * 60 * 10 ^ 9.
Definition maxPasskeyName : nat := 64.

(** The configuration of the library for one request. *)
Record RelyingParty := mkRelyingParty { RPID : string; RPOrigins : list string }.
(** What the library asks about a person. *)
Record WebAuthnUser (Credential : Type) := mkWebAuthnUser {
  WebAuthnID : list Z;
  WebAuthnName : string;
  WebAuthnDisplayName : string;
  WebAuthnCredentials : list Credential }.
Arguments mkWebAuthnUser {Credential} _ _ _ _.
Arguments WebAuthnID {Credential} _. Arguments WebAuthnName {Credential} _.
Arguments WebAuthnDisplayName {Credential} _. Arguments WebAuthnCredentials {Credential} _.

(** github.com/go-webauthn/webauthn, and JSON of its types. *)
Class WebAuthn := {
  Credential : Type;
  Credential_ID : Credential → list Z;
  CloneWarning : Credential → bool;
  set_CloneWarning : bool → Credential → Credential;
  marshal_Credential : Credential → result string;
  unmarshal_Credential : string → option Credential;
  CredentialDescriptor : Type;
  Descriptor : Credential → CredentialDescriptor;
  SessionData : Type;
  marshal_SessionData : SessionData → result string;
  unmarshal_SessionData : string → option SessionData;
  CreationOptions : Type;
  marshal_CreationOptions : CreationOptions → result string;
  AssertionOptions : Type;
  marshal_AssertionOptions : AssertionOptions → result string;
  CreationData : Type;
  ParseCredentialCreationResponseBytes : string → result CreationData;
  AssertionData : Type;
  ParseCredentialRequestResponseBytes : string → result AssertionData;
  webauthn_New : RelyingParty → result unit;
  lib_BeginRegistration : RelyingParty → WebAuthnUser Credential → list CredentialDescriptor → list Z →
    result (CreationOptions * SessionData);
  lib_CreateCredential : RelyingParty → WebAuthnUser Credential → SessionData → CreationData → result Credential;
  lib_BeginLogin : RelyingParty → WebAuthnUser Credential → list Z → result (AssertionOptions * SessionData);
  lib_ValidateLogin : RelyingParty → WebAuthnUser Credential → SessionData → AssertionData → result Credential;
  (* a sign-in is with one of the credentials the user has *)
  ValidateLogin_known rp user session parsed c : lib_ValidateLogin rp user session parsed = Ok c →
    ∃ known, known ∈ WebAuthnCredentials user ∧ Credential_ID known = Credential_ID c;
  (* JSON keeps the id of a credential *)
  marshal_keeps_ID c data : marshal_Credential c = Ok data →
    ∃ c', unmarshal_Credential data = Some c' ∧ Credential_ID c' = Credential_ID c;
  set_CloneWarning_ID b c : Credential_ID (set_CloneWarning b c) = Credential_ID c }.

(** ** Names *)
Definition passkeyName (name : string) : string :=
  let name := TrimSpace name in
  let name := if String.eqb name "" then "Passkey" else name in
  if Z.of_nat maxPasskeyName <? slen name then of_bytes (take maxPasskeyName (bytes name)) else name.

(** ** The relying party *)
(** The host of [url.URL.String]: what may stand there, everything else
    percent-encoded. *)
Definition host_char (c : ascii) : bool :=
  unreserved c || existsb (Ascii.eqb c) (bytes "!$&'()*+,;=:[]<>") || (byte_of c =? 34).
Definition url_String (scheme host : string) : string :=
  scheme +:+ "://" +:+ of_bytes (bytes host ≫= λ c, if host_char c then [c] else percent c).

Definition hostWithPort (configured : string) (r : option Request) : string :=
  match SplitHostPort configured with
  | Some _ => configured
  | None =>
      match r with
      | Some r =>
          match SplitHostPort (Host r) with
          | Some (_, port) => if negb (String.eqb port "") then JoinHostPort configured port else configured
          | None => configured
          end
      | None => configured
      end
  end.
(** The id and the origin; empty when nothing says which host this is. *)
Definition RelyingPartyFromHost (configured : string) (httpsOnly : bool) (r : option Request) : string * string :=
  let host := match r with
              | Some r => if String.eqb configured "" then Host r else configured
              | None => configured
              end in
  if String.eqb host "" then ("", "") else
  let id := match SplitHostPort host with Some (name, _) => name | None => host end in
  let plain := match r with
               | Some r => negb httpsOnly && negb (TLS r) && negb (String.eqb (Header_Get r "X-Forwarded-Proto") "https")
               | None => false
               end in
  (id, url_String (if plain then "http" else "https") (hostWithPort host r)).

Section passkeys.
  Context {S : Type} `{Storage S} `{WebAuthn}.
  Variable relyingParty : option Request → string * string.

(** ** The person as the library sees them *)
Record passkeyUser := mkPasskeyUser { pu_stored : User; pu_passkeys : list Passkey }.
(** A row nothing can read is left out, and an old warning does not count. *)
Definition credentials (passkeys : list Passkey) : list Credential :=
  set_CloneWarning false <$> omap (λ p, unmarshal_Credential (Passkey.Data p)) passkeys.
Definition library_user (user : passkeyUser) : WebAuthnUser Credential :=
  let stored := pu_stored user in
  mkWebAuthnUser (Sum256 (string_bytes ("wg-access-server:" +:+ User.Subject stored))) (User.Subject stored)
    (if negb (String.eqb (User.Name stored) "") then User.Name stored else User.Subject stored)
    (credentials (pu_passkeys user)).
Definition credentialDescriptors (user : passkeyUser) : list CredentialDescriptor :=
  Descriptor <$> credentials (pu_passkeys user).

Definition user_ (subject : string) : M S passkeyUser :=
  let! r := m_try (GetUser subject) in
  match r with
  | Err _ => m_fail (SentinelError ErrNoPasswordHere)
  | Ok stored =>
      let! passkeys := m_wrap "failed to read the passkeys" (ListPasskeys subject) in
      m_ret (mkPasskeyUser stored passkeys)
  end.

Definition webauthn (r : option Request) : result RelyingParty :=
  let '(id, origin) := relyingParty r in
  fail! (PlainError "passkeys need to know which host this server is: set vpn.externalHost")
    when String.eqb id "";
  let rp := mkRelyingParty id [origin] in
  let? _ := wrap "failed to prepare the passkey exchange" (webauthn_New rp) in Ok rp.

(** ** Challenges *)
Definition keepChallenge (subject : string) (session : SessionData) (now : Time) : M S unit :=
  let! data := m_wrap "failed to keep the passkey challenge" (lift (marshal_SessionData session)) in
  m_wrap "failed to keep the passkey challenge" (SetWebauthnChallenge subject data (Some (now + challengeFor))).

Definition takeChallenge (subject : string) (user : User) (now : Time) : M S SessionData :=
  stop! (SentinelError ErrNoChallenge)
    when String.eqb (User.WebauthnChallenge user) "" ||
         match User.WebauthnChallengeUntil user with None => true | Some until => until <? now end;
  match unmarshal_SessionData (User.WebauthnChallenge user) with
  | None => m_fail (SentinelError ErrNoChallenge)
  | Some session =>
      do! m_wrap "failed to clear the passkey challenge" (SetWebauthnChallenge subject "" None);
      m_ret session
  end.
(** One step: a mutex is held across the reading and the clearing. *)
Definition userAndChallenge (subject : string) (now : Time) : M S (passkeyUser * SessionData) :=
  let! user := user_ subject in
  let! session := takeChallenge subject (pu_stored user) now in
  m_ret (user, session).

(** ** Registering *)
Definition BeginRegistration (r : option Request) (subject : string) (now : Time) (random : list Z) : M S string :=
  let! user := user_ subject in
  let! rp := lift (webauthn r) in
  let! (options, session) := m_wrap "failed to start the passkey registration"
    (lift (lib_BeginRegistration rp (library_user user) (credentialDescriptors user) random)) in
  do! keepChallenge subject session now;
  lift (marshal_CreationOptions options).

Definition FinishRegistration (r : option Request) (subject name answer : string) (now : Time) : M S Passkey :=
  let! (user, session) := userAndChallenge subject now in
  let! rp := lift (webauthn r) in
  let! parsed := m_wrap "the browser's answer could not be read"
    (lift (ParseCredentialCreationResponseBytes answer)) in
  let! credential := m_wrap "the passkey was not accepted"
    (lift (lib_CreateCredential rp (library_user user) session parsed)) in
  let! data := m_wrap "failed to store the passkey" (lift (marshal_Credential credential)) in
  let passkey := Passkey.mk (RawURLEncoding (Credential_ID credential)) subject (passkeyName name) data now None in
  let! r := m_try (AddPasskey passkey) in
  match r with
  | Ok _ => m_ret passkey
  | Err e => if error_is e StoragePasskeyExists then m_fail (SentinelError ErrPasskeyExists)
             else m_fail (WrappedError "failed to store the passkey" e)
  end.

(** ** Signing in *)
Definition BeginLogin (r : option Request) (subject : string) (now : Time) (random : list Z) : M S string :=
  let! user := user_ subject in
  stop! (SentinelError ErrNoPasskey) when bool_decide (WebAuthnCredentials (library_user user) = []);
  let! rp := lift (webauthn r) in
  let! (options, session) := m_wrap "failed to start the passkey sign-in"
    (lift (lib_BeginLogin rp (library_user user) random)) in
  do! keepChallenge subject session now;
  lift (marshal_AssertionOptions options).

(** Recording the use; the sign-in was fine even when the bookkeeping is not. *)
Definition record_use (credential : Credential) (now : Time) : M S unit :=
  let! r := m_try (GetPasskey (RawURLEncoding (Credential_ID credential))) in
  match r with
  | Err _ => m_ret tt
  | Ok stored =>
      let data := match marshal_Credential credential with Ok data => data | Err _ => Passkey.Data stored end in
      do! m_try (UpdatePasskey (Passkey.mk (Passkey.ID stored) (Passkey.Owner stored) (Passkey.Name stored) data
        (Passkey.CreatedAt stored) (Some now)));
      m_ret tt
  end.
Definition FinishLogin (r : option Request) (subject answer : string) (now : Time) : M S unit :=
  let! (user, session) := userAndChallenge subject now in
  let! rp := lift (webauthn r) in
  let! parsed := m_wrap "the browser's answer could not be read"
    (lift (ParseCredentialRequestResponseBytes answer)) in
  let! credential := m_wrap "the passkey was not accepted"
    (lift (lib_ValidateLogin rp (library_user user) session parsed)) in
  stop! (PlainError "the passkey was not accepted: its sign count did not go up, so a copy of it may be in use")
    when CloneWarning credential;
  record_use credential now.

(** ** What a person does with their passkeys *)
Definition List_passkeys (subject : string) : M S (list Passkey) := ListPasskeys subject.
Definition Has (subject : string) : M S bool :=
  let! r := m_try (ListPasskeys subject) in
  m_ret (match r with Ok (_ :: _) => true | _ => false end).

Definition Delete_passkey (subject id : string) : M S unit :=
  let! r := m_try (DeletePasskey subject id) in
  match r with
  | Ok _ => m_ret tt
  | Err e => if error_is e ErrPasskeyNotFound then m_fail (SentinelError ErrNoPasskey)
             else m_fail (WrappedError "failed to delete the passkey" e)
  end.
Definition Rename_passkey (subject id name : string) : M S Passkey :=
  let! r := m_try (RenamePasskey subject id (passkeyName name)) in
  match r with
  | Err e => if error_is e ErrPasskeyNotFound then m_fail (SentinelError ErrNoPasskey)
             else m_fail (WrappedError "failed to rename the passkey" e)
  | Ok _ =>
      let! renamed := m_wrap "failed to read the renamed passkey" (GetPasskey id) in
      stop! (SentinelError ErrNoPasskey) when negb (String.eqb (Passkey.Owner renamed) subject);
      m_ret renamed
  end.
End passkeys.

(** ** Examples *)
Definition at_host (host : string) (tls : bool) (header : list (string * string)) : option Request :=
  Some (mkRequest "POST" "/" host "192.0.2.1:999" tls header).
Example relying_ex :
  RelyingPartyFromHost "vpn.example.com" true (at_host "10.0.0.1:8443" false []) =
    ("vpn.example.com", "https://vpn.example.com:8443") ∧
  RelyingPartyFromHost "" false (at_host "vpn.example.com:8000" false []) =
    ("vpn.example.com", "http://vpn.example.com:8000") ∧
  RelyingPartyFromHost "" false (at_host "vpn.example.com" false [("X-Forwarded-Proto", "https")]) =
    ("vpn.example.com", "https://vpn.example.com") ∧
  RelyingPartyFromHost "" true None = ("", "") ∧
  RelyingPartyFromHost "[2001:db8::1]:443" true None = ("2001:db8::1", "https://[2001:db8::1]:443").
Proof. vm_compute. done. Qed.
