(* ===== verification/Passwords.v ===== *)
(** * internal/users/passwords.go: the password somebody set for themselves

    [Passwords] with its limit on wrong guesses. The configuration, the check of
    an htpasswd entry and bcrypt are third-party or configuration: a class of
    parameters, with the one thing the code relies on as its law. *)
From S2P Require Import Prelude GoText Storage.

(** bcrypt and the htpasswd formats. *)
Class PasswordHashing := {
  CompareHashAndPassword : string → string → bool;
  GenerateFromPassword : string → result string;
  (* an entry of the configuration and a password *)
  Matches : string → string → bool;
  hash_compares password hash :
    GenerateFromPassword password = Ok hash → CompareHashAndPassword hash password = true;
  hash_nonempty password hash : GenerateFromPassword password = Ok hash → hash ≠ "" }.

Definition maxWrongPasswords : Z := 5.
Definition wrongPasswordsFor : Z := 15 * 60 * 10 ^ 9.

Record wrongPasswords := mkWrong { count : Z; last : Time }.
(** The storage, and the wrong passwords per account of this process. *)
Record Accounts (S : Type) := mkAccounts { store : S; wrong : gmap string wrongPasswords }.
Arguments mkAccounts {S} _ _. Arguments store {S} _. Arguments wrong {S} _.
Definition set_wrong {S} (f : gmap string wrongPasswords → gmap string wrongPasswords)
    (u : Accounts S) : Accounts S := mkAccounts (store u) (f (wrong u)).
Definition on_store {S A} (m : M S A) : M (Accounts S) A :=
  zoom store (λ s u, mkAccounts s (wrong u)) m.

Section passwords.
  Context {S : Type} `{Storage S} `{PasswordHashing}.
  (** The configured entry of a subject, if the configuration lists it. *)
  Variable configured : string → option string.

(** The record of an account that still counts. *)
Definition record_of (subject : string) (now : Time) (w : gmap string wrongPasswords) : wrongPasswords :=
  match w !! subject with
  | Some r => if wrongPasswordsFor <? now - last r then mkWrong 0 0 else r
  | None => mkWrong 0 0
  end.
Definition attempt (subject : string) (now : Time) : M (Accounts S) bool := λ u,
  let record := record_of subject now (wrong u) in
  if maxWrongPasswords <=? count record then (Ok false, set_wrong <[subject := record]> u)
  else (Ok true, set_wrong <[subject := mkWrong (count record + 1) now]> u).
Definition right (subject : string) : M (Accounts S) unit := m_modify (set_wrong (delete subject)).

(** The stored hash and the entry it was set against; nothing when the storage
    cannot say. *)
Definition stored (subject : string) : M (Accounts S) (string * string) :=
  let! r := m_try (on_store (GetUser subject)) in
  m_ret (match r with Ok u => (User.PasswordHash u, User.PasswordFrom u) | Err _ => ("", "") end).

(** The rule of the sign-in: their own password while the configured entry is
    still the one it was set against, the configured entry otherwise. *)
Definition password_is (hash from entry password : string) : bool :=
  if negb (String.eqb hash "") && String.eqb from entry
  then CompareHashAndPassword hash password else Matches entry password.

Definition Verify (subject password : string) (now : Time) : M (Accounts S) unit :=
  match configured subject with
  | None => m_fail (SentinelError ErrNoPasswordHere)
  | Some entry =>
      let! allowed := attempt subject now in
      stop! (SentinelError ErrTooManyAttempts) when negb allowed;
      let! (hash, from) := stored subject in
      stop! (SentinelError ErrWrongPassword) when negb (password_is hash from entry password);
      right subject
  end.

Definition Change (subject current next : string) (now : Time) : M (Accounts S) unit :=
  match configured subject with
  | None => m_fail (SentinelError ErrNoPasswordHere)
  | Some entry =>
      do! Verify subject current now;
      let! hash := m_wrap "failed to hash the new password" (lift (GenerateFromPassword next)) in
      m_wrap "failed to store the new password" (on_store (SetUserPassword subject hash entry))
  end.
End passwords.

(** ** Lemmas *)
Section lemmas.
  Context {S : Type} `{StorageLaws S} `{PasswordHashing} (configured : string → option string).
  Implicit Types (u : Accounts S).

Lemma stored_run subject u : ok (store u) →
  ∃ hash from, stored subject u = (Ok (hash, from), u) ∧
    (∀ x, users (view (store u)) !! subject = Some x → is_ok (GetUser subject (store u)).1 = true →
       hash = User.PasswordHash x ∧ from = User.PasswordFrom x).
Proof.
  intros Hok. unfold stored, m_bind, m_try, on_store, zoom.
  destruct (GetUser subject (store u)) as [r s'] eqn:E.
  destruct (law_GetUser subject _ _ _ Hok E) as [-> Hf].
  assert (mkAccounts (store u) (wrong u) = u) as -> by by destruct u.
  destruct r as [x|e]; simpl in Hf; eexists _, _; (split; [reflexivity|]).
  - intros y Hy _. rewrite Hf in Hy. by injection Hy as ->.
  - by intros y _ [=].
Qed.

Lemma attempt_run subject now u : ∃ b w, attempt subject now u = (Ok b, mkAccounts (store u) w) ∧
  b = bool_decide (count (record_of subject now (wrong u)) < maxWrongPasswords) ∧
  w = <[subject := if b then mkWrong (count (record_of subject now (wrong u)) + 1) now
                   else record_of subject now (wrong u)]> (wrong u).
Proof.
  unfold attempt, set_wrong. destruct (Z.leb_spec maxWrongPasswords (count (record_of subject now (wrong u)))).
  - eexists false, _. split_and!; [reflexivity| |done]. by rewrite bool_decide_eq_false_2 by lia.
  - eexists true, _. split_and!; [reflexivity| |done]. by rewrite bool_decide_eq_true_2 by lia.
Qed.
End lemmas.

(** What [Verify] decides, by cases. *)
Section verify.
  Context {S : Type} `{StorageLaws S} `{PasswordHashing} (configured : string → option string).
  Implicit Types (u : Accounts S).

Lemma Verify_cases subject password now u r u' : ok (store u) →
  Verify configured subject password now u = (r, u') → store u' = store u ∧
  match configured subject with
  | None => r = Err (SentinelError ErrNoPasswordHere) ∧ u' = u
  | Some entry =>
      let c := record_of subject now (wrong u) in
      if maxWrongPasswords <=? count c
      then r = Err (SentinelError ErrTooManyAttempts) ∧ wrong u' = <[subject := c]> (wrong u)
      else ∃ hash from u1, stored subject u1 = (Ok (hash, from), u1) ∧ store u1 = store u ∧
        if password_is hash from entry password
        then r = Ok tt ∧ wrong u' = delete subject (wrong u)
        else r = Err (SentinelError ErrWrongPassword) ∧
             wrong u' = <[subject := mkWrong (count c + 1) now]> (wrong u)
  end.
Proof.
  intros Hok E. unfold Verify in E. destruct (configured subject) as [entry|]; [|by injection E as <- <-].
  set (c := record_of subject now (wrong u)). cbv zeta. unfold m_bind at 1 in E. unfold attempt in E.
  fold c in E. destruct (maxWrongPasswords <=? count c); cbn [negb] in E; [by injection E as <- <-|].
  set (u1 := set_wrong <[subject := mkWrong (count c + 1) now]> u) in E.
  destruct (stored_run subject u1 Hok) as (hash & from & Es & _).
  unfold m_bind in E. rewrite Es in E.
  assert (∃ hash from u1, stored subject u1 = (Ok (hash, from), u1) ∧ store u1 = store u ∧
        if password_is hash from entry password
        then r = Ok tt ∧ wrong u' = delete subject (wrong u)
        else r = Err (SentinelError ErrWrongPassword) ∧
             wrong u' = <[subject := mkWrong (count c + 1) now]> (wrong u)) as Hr.
  { exists hash, from, u1. split_and!; [done..|].
    destruct (password_is hash from entry password); cbn [negb] in E; injection E as <- <-; [|done].
    split; [done|]. simpl. by rewrite delete_insert_eq. }
  split; [|exact Hr]. destruct (password_is hash from entry password); cbn [negb] in E; by injection E as _ <-.
Qed.
End verify.
