(* ===== verification/TwoFactor.v ===== *)
(** * internal/users/twofactor.go: the second factor of the built-in sign-in

    Enrolment with a code from an app, the check of codes and recovery codes,
    replacing and removing. The random bytes and the time are arguments; every
    method is one step, which is what its mutex makes it. *)
From S2P Require Import Prelude GoText GoQuote Encoding Storage Totp Passkeys Passwords.

Definition recoveryCodes : nat := 10.
Definition recoveryCodeBytes : nat := 13.
Definition recoveryCodeGroups : nat := 4.

(** ** Recovery codes *)
Definition splitCodes (stored : string) : list string :=
  filter (λ code, code ≠ "") (TrimSpace <$> Split stored ",").

Fixpoint group_fuel (fuel : nat) (l : list ascii) : list string :=
  match fuel, l with
  | Datatypes.S f, _ :: _ => of_bytes (take recoveryCodeGroups l) :: group_fuel f (drop recoveryCodeGroups l)
  | _, _ => []
  end.
(** "ABCD-EFGH-..."; every part takes a character, so the length is enough. *)
Definition group (code : string) : string := Join (group_fuel (String.length code) (bytes code)) "-".

Section recovery.
  Context `{UpperTable}.

Definition normalizeRecoveryCode (code : string) : string :=
  ToUpper (of_bytes (List.filter (λ c, negb (Ascii.eqb c "-")) (bytes (TrimSpace code)))).
Definition hashRecoveryCode (code : string) : string := sha256_hex (normalizeRecoveryCode code).

(** The codes that are left and whether one was used; all of them are
    compared. *)
Definition useRecoveryCode (stored given : string) : string * bool :=
  let wanted := hashRecoveryCode given in
  let hashes := splitCodes stored in
  let left := filter (λ hash, hash ≠ wanted) hashes in
  if existsb (String.eqb wanted) hashes then (Join left ",", true) else (stored, false).

(** The codes to show once and the hashes to keep. *)
Definition newRecoveryCodes (bufs : list (list Z)) : list string * list string :=
  let codes := base32_EncodeToString <$> bufs in
  (group <$> codes, hashRecoveryCode <$> codes).
End recovery.

Section twofactor.
  Context {S : Type} `{Storage S} `{PasswordHashing} `{UpperTable}.
  Variable issuer : string.

(** [GetUser] where an error and no user are the same. *)
Definition known_user (subject : string) : M (Accounts S) (option User) :=
  let! r := m_try (on_store (GetUser subject)) in
  m_ret (match r with Ok u => Some u | Err _ => None end).
Definition need_user {A} (subject : string) (k : User → M (Accounts S) A) : M (Accounts S) A :=
  let! r := known_user subject in
  match r with None => m_fail (SentinelError ErrNoPasswordHere) | Some user => k user end.

Definition CodesEnabled (subject : string) : M (Accounts S) bool :=
  let! r := known_user subject in
  m_ret (match r with Some user => User.TwoFactorEnabled user | None => false end).

(** [passkeys]: whether passkeys are kept here. *)
Definition Enabled (passkeys : bool) (subject : string) : M (Accounts S) bool :=
  let! has := (if passkeys then on_store (Has subject) else m_ret false) in
  if has then m_ret true else CodesEnabled subject.

Definition Start (subject account : string) (buf : list Z) : M (Accounts S) (string * string) :=
  need_user subject (λ user,
    stop! (SentinelError ErrTwoFactorSet) when User.TwoFactorEnabled user;
    let secret := NewTOTPSecret buf in
    do! m_wrap "failed to store the new second factor"
      (on_store (SetUserTOTP subject (mkTOTP secret None "" 0)));
    m_ret (secret, TOTPURI issuer account secret)).

Definition Confirm (subject code : string) (now : Time) (bufs : list (list Z)) : M (Accounts S) (list string) :=
  need_user subject (λ user,
    stop! (SentinelError ErrTwoFactorSet) when User.TwoFactorEnabled user;
    stop! (SentinelError ErrNoTwoFactor) when String.eqb (User.TotpSecret user) "";
    stop! (SentinelError ErrWrongCode) when negb (CheckTOTP (User.TotpSecret user) code now);
    let '(codes, hashes) := newRecoveryCodes bufs in
    do! m_wrap "failed to store the second factor"
      (on_store (SetUserTOTP subject (mkTOTP (User.TotpSecret user) (Some now) (Join hashes ",") 0)));
    m_ret codes).

(** Writing what a right code leaves; a failure to write refuses the code. *)
Definition accept (subject : string) (state : TOTPState) : M (Accounts S) bool :=
  let! r := m_try (on_store (SetUserTOTP subject state)) in m_ret (is_ok r).
Definition Check (subject given : string) (now : Time) : M (Accounts S) bool :=
  let! r := known_user subject in
  match r with
  | None => m_ret false
  | Some user =>
      if negb (User.TwoFactorEnabled user) then m_ret false else
      let state := User.TOTP user in
      let '(step, ok) := CheckTOTPStep (User.TotpSecret user) given now in
      if ok then
        if step <=? User.TotpLastStep user then m_ret false
        else accept subject (mkTOTP (Secret state) (EnabledAt state) (Recovery state) step)
      else
        let '(rest, used) := useRecoveryCode (User.TotpRecovery user) given in
        if negb used then m_ret false
        else accept subject (mkTOTP (Secret state) (EnabledAt state) rest (LastStep state))
  end.

(** [passwords]: the configured entries, when passwords are kept here. *)
Definition verify_password (passwords : option (string → option string)) (subject password : string)
    (now : Time) : M (Accounts S) unit :=
  match passwords with
  | None => m_fail (SentinelError ErrNoPasswordHere)
  | Some configured => Verify configured subject password now
  end.

Definition ReplaceRecoveryCodes (passwords : option (string → option string)) (subject password : string)
    (now : Time) (bufs : list (list Z)) : M (Accounts S) (list string) :=
  stop! (SentinelError ErrNoPasswordHere) when bool_decide (passwords = None);
  need_user subject (λ user,
    stop! (SentinelError ErrNoTwoFactor) when negb (User.TwoFactorEnabled user);
    do! verify_password passwords subject password now;
    need_user subject (λ user,
      stop! (SentinelError ErrNoTwoFactor) when negb (User.TwoFactorEnabled user);
      let '(codes, hashes) := newRecoveryCodes bufs in
      let state := User.TOTP user in
      do! m_wrap "failed to store the new recovery codes"
        (on_store (SetUserTOTP subject
          (mkTOTP (Secret state) (EnabledAt state) (Join hashes ",") (LastStep state))));
      m_ret codes)).

Definition clear (subject : string) : M (Accounts S) unit :=
  m_wrap "failed to remove the second factor" (on_store (SetUserTOTP subject zero_TOTPState)).
Definition Disable (passwords : option (string → option string)) (subject password : string) (now : Time) :
    M (Accounts S) unit :=
  do! verify_password passwords subject password now;
  clear subject.
Definition Reset_factor (subject : string) : M (Accounts S) unit :=
  need_user subject (λ user,
    stop! (SentinelError ErrNoTwoFactor)
      when negb (User.TwoFactorEnabled user) && String.eqb (User.TotpSecret user) "";
    clear subject).

Definition RecoveryCodesLeft (subject : string) : M (Accounts S) Z :=
  let! r := known_user subject in
  m_ret (match r with Some user => Z.of_nat (List.length (splitCodes (User.TotpRecovery user))) | None => 0 end).
End twofactor.
