(* ===== verification/WireGuard.v ===== *)
(** * The WireGuard interface

    The interface is driven through the third-party packages wg-embed and
    wgctrl, so it is an interface here: its operations, and what their
    documentation promises. A peer is identified by its public key; keys are in
    the text form [Key.String] gives them. [Peers] is the plain implementation
    that shows the promises can be kept. A network belongs to one peer: giving it to another
    takes it away from the first. *)
From S2P Require Import Prelude GoText Netip NetipText NetipRoundTrip.

(** [wgtypes.Peer], as far as the program reads it. *)
Record Peer := mkPeer {
  p_PublicKey : string;
  p_PresharedKey : string;
  p_AllowedIPs : list Prefix;
  p_Endpoint : option string;
  p_LastHandshakeTime : Z;
  p_ReceiveBytes : Z;
  p_TransmitBytes : Z }.

Class WireGuard (W : Type) := {
  ListPeers : M W (list Peer);
  AddPeer : string → string → list string → M W unit;
  RemovePeer : string → M W unit;
  PingWireGuard : M W unit }.

(** [wgtypes.ParseKey] followed by [Key.String]: the canonical text of a key. *)
Class WireGuardKeys := { canonical_key : string → option string }.
Definition zero_key : string := "AAAAAAAAAAAAAAAAAAAAAAAAAAAAAAAAAAAAAAAAAAA=".

(** What a configured peer looks like when it is listed: the networks it was
    given and its keys; the counters start anew for a new peer. *)
Definition configured `{WireGuardKeys} (pk psk : string) (allowed : list string) (p : Peer) : Prop :=
  p_PublicKey p = pk ∧
  p_PresharedKey p = (if String.eqb psk "" then zero_key else default "" (canonical_key psk)) ∧
  Forall2 (λ s n, ParseCIDR s = Some n) allowed (p_AllowedIPs p).

Class WireGuardLaws (W : Type) `{WireGuard W} `{WireGuardKeys} := {
  peers : W → gmap string Peer;
  peers_keyed w k p : peers w !! k = Some p → p_PublicKey p = k;
  (* the text of a key is never empty *)
  peers_named w : peers w !! "" = None;
  wg_list w r w' : ListPeers w = (r, w') → w' = w ∧
    match r with Ok l => l ≡ₚ (map_to_list (peers w)).*2 | Err _ => True end;
  wg_remove pk w r w' : RemovePeer pk w = (r, w') →
    match r with Ok _ => peers w' = delete pk (peers w) | Err _ => peers w' = peers w end;
  wg_add pk psk allowed w r w' : AddPeer pk psk allowed w = (r, w') →
    match r with
    | Ok _ => ∃ p, configured pk psk allowed p ∧ peers w' !! pk = Some p ∧
        ∀ k, k ≠ pk →
          (peers w' !! k = None ↔ peers w !! k = None) ∧
          (∀ q, peers w !! k = Some q → p_AllowedIPs q ## p_AllowedIPs p → peers w' !! k = Some q)
    | Err _ => peers w' = peers w
    end }.

(** ** The plain implementation: the peers by their public key *)
Notation Peers := (gmap string Peer).

Section peers.
  Context `{WireGuardKeys}.

Fixpoint parse_all (l : list string) : option (list Prefix) :=
  match l with
  | [] => Some []
  | s :: l' => match ParseCIDR s, parse_all l' with
               | Some n, Some ns => Some (n :: ns)
               | _, _ => None
               end
  end.

(** A peer is listed under the key it is kept at; no key has an empty text. *)
Definition with_key (k : string) (p : Peer) : Peer :=
  mkPeer k (p_PresharedKey p) (p_AllowedIPs p) (p_Endpoint p) (p_LastHandshakeTime p)
    (p_ReceiveBytes p) (p_TransmitBytes p).
Definition listed (m : Peers) : gmap string Peer := delete "" (map_imap (λ k p, Some (with_key k p)) m).
Definition peers_ListPeers : M Peers (list Peer) := m_gets (λ m, (map_to_list (listed m)).*2).
Definition peers_RemovePeer (pk : string) : M Peers unit := m_modify (delete pk).
Definition lose_networks (ns : list Prefix) (p : Peer) : Peer :=
  mkPeer (p_PublicKey p) (p_PresharedKey p) (filter (λ n, n ∉ ns) (p_AllowedIPs p))
    (p_Endpoint p) (p_LastHandshakeTime p) (p_ReceiveBytes p) (p_TransmitBytes p).
Definition peers_AddPeer (pk psk : string) (allowed : list string) : M Peers unit := λ m,
  if String.eqb pk "" then (Err (PlainError "invalid key"), m) else
  match parse_all allowed with
  | None => (Err (PlainError "invalid allowed ip"), m)
  | Some ns =>
      let '(e, h, rx, tx) := match m !! pk with
        | Some p => (p_Endpoint p, p_LastHandshakeTime p, p_ReceiveBytes p, p_TransmitBytes p)
        | None => (None, 0, 0, 0)
        end in
      (Ok tt, <[pk := mkPeer pk (if String.eqb psk "" then zero_key else default "" (canonical_key psk))
                 ns e h rx tx]> (lose_networks ns <$> m))
  end.

#[export] Instance Peers_WireGuard : WireGuard Peers := {
  ListPeers := peers_ListPeers; AddPeer := peers_AddPeer;
  RemovePeer := peers_RemovePeer; PingWireGuard := m_ret tt }.

Lemma parse_all_spec l ns : parse_all l = Some ns → Forall2 (λ s n, ParseCIDR s = Some n) l ns.
Proof.
  revert ns. induction l as [|s l IH]; intros ns E; simpl in E; [by simplify_eq; constructor|].
  destruct (ParseCIDR s) eqn:Es; [|done]. destruct (parse_all l); [|done]. simplify_eq.
  constructor; auto.
Qed.

Lemma lose_networks_disjoint ns p : p_AllowedIPs p ## ns → lose_networks ns p = p.
Proof.
  intros Hd. unfold lose_networks. destruct p as [k psk al e h rx tx]. simpl in *. f_equal.
  induction al as [|n al IH]; [done|]. rewrite filter_cons_True by set_solver. f_equal.
  apply IH. set_solver.
Qed.

Lemma listed_lookup m k : k ≠ "" → listed m !! k = with_key k <$> m !! k.
Proof. intros Hk. unfold listed. rewrite lookup_delete_ne, map_lookup_imap by done. by destruct (m !! k). Qed.
Lemma listed_empty m : listed m !! "" = None.
Proof. apply lookup_delete_eq. Qed.

#[export] Instance Peers_laws : WireGuardLaws Peers.
Proof.
  refine {| peers := listed |}.
  - intros w k p. destruct (decide (k = "")) as [->|Hk]; [by rewrite listed_empty|].
    rewrite listed_lookup by done. by intros (q & _ & ->)%fmap_Some.
  - apply listed_empty.
  - by intros w r w' [= <- <-].
  - intros pk w r w' [= <- <-]. apply map_eq. intros k.
    destruct (decide (pk = k)) as [<-|Hne].
    + rewrite lookup_delete_eq. destruct (decide (pk = "")) as [->|]; [by rewrite listed_empty|].
      by rewrite listed_lookup, lookup_delete_eq.
    + rewrite lookup_delete_ne by done. destruct (decide (k = "")) as [->|]; [by rewrite !listed_empty|].
      by rewrite !listed_lookup, lookup_delete_ne.
  - intros pk psk allowed w r w' E. simpl in E. unfold peers_AddPeer in E.
    destruct (String.eqb_spec pk "") as [|Hpk]; [by injection E as <- <-|].
    destruct (parse_all allowed) as [ns|] eqn:Ep; [|by injection E as <- <-].
    assert (∃ e h rx tx, (match w !! pk with
        | Some p => (p_Endpoint p, p_LastHandshakeTime p, p_ReceiveBytes p, p_TransmitBytes p)
        | None => (None, 0, 0, 0) end) = (e, h, rx, tx)) as (e & h & rx & tx & Em)
      by (destruct (w !! pk); eauto 10).
    rewrite Em in E. injection E as <- <-.
    exists (mkPeer pk (if String.eqb psk "" then zero_key else default "" (canonical_key psk))
      ns e h rx tx).
    split; [|split].
    + split; [done|]. split; [done|]. simpl. by apply parse_all_spec.
    + by rewrite listed_lookup, lookup_insert_eq.
    + intros k Hk. destruct (decide (k = "")) as [->|]; [by rewrite !listed_empty|].
      rewrite !listed_lookup, lookup_insert_ne, lookup_fmap by done.
      destruct (w !! k) as [q|]; simpl; [|done]. split; [done|].
      intros q' [= <-] Hd. simpl in Hd. f_equal. by rewrite lose_networks_disjoint.
Defined.
End peers.
