(* ===== verification/Devices.v ===== *)
(** * internal/devices/devices.go: the device manager

    Adding, renaming, re-keying, blocking and deleting devices, and the
    allocation of their addresses. The operations that only use the storage run
    on the storage's state; keeping the WireGuard peers in line with it is in
    [Manager.v]. The configuration of the manager is an argument, and so is the
    time wherever the code asks for it. *)
From S2P Require Import Prelude GoText Netip NetipText NetipRoundTrip Network Storage AuthSession.

(** What [New] and its options set. *)
Record Config := mkConfig {
  cidr : string;
  cidrv6 : string;
  maxDevicesPerUser : Z }.

(** [wgKeyRegex]: ^[A-Za-z0-9+/]{42}[AEIMQUYcgkosw048]=$ *)
Definition in_range (c : ascii) (lo hi : Z) : bool := (lo <=? byte_of c) && (byte_of c <=? hi).
Definition base64_char (c : ascii) : bool :=
  in_range c 65 90 || in_range c 97 122 || in_range c 48 57 || Ascii.eqb c "+" || Ascii.eqb c "/".
Definition wgKey_MatchString (s : string) : bool :=
  let l := bytes s in
  forallb base64_char (take 42 l) &&
  match drop 42 l with
  | [c; e] => existsb (Ascii.eqb c) (bytes "AEIMQUYcgkosw048") && Ascii.eqb e "="
  | _ => false
  end.

Definition invalid {A} (msg : string) : result A := Err (ValidationError msg).

Definition maxDeviceNameLength : Z := 100.
Definition validateDeviceName (name : string) : result unit :=
  fail! (ValidationError "Device name must not be empty.") when String.eqb (TrimSpace name) "";
  fail! (ValidationError ("Device name must be at most " +:+ Itoa maxDeviceNameLength
          +:+ " characters long.")) when maxDeviceNameLength <? RuneCountInString name;
  fail! (ValidationError "Device name must not contain control characters.")
    when existsb IsControl (runes name);
  Ok tt.

(** The text of the messages of [addDeviceLocked]. *)
Definition manual_message (family : string) (rest : string) : goerror :=
  ValidationError ("Manual " +:+ family +:+ rest).

Section manager.
  Context {S : Type} `{Storage S} (cfg : Config).

(** ** Addresses in use *)
(** A [map[netip.Addr]bool] that only ever holds [true] is a set. *)
Definition add_used (used : gset Addr * gset Addr) (stored : string) : gset Addr * gset Addr :=
  fold_left (λ '(v4, v6) addr, if Is4 addr then ({[addr]} ∪ v4, v6) else (v4, {[addr]} ∪ v6))
    (ParseAddresses stored).1 used.
Definition usedAddresses : M S (gset Addr * gset Addr) :=
  let! stored := m_wrap "failed to list device addresses" Addresses in
  m_ret (fold_left add_used stored (∅, ∅)).

(** The loop over the subnet; [None] is fuel running out. *)
Fixpoint scan (fuel : nat) (subnet : Prefix) (used : gset Addr) (ip : Addr) : option (option Addr) :=
  match fuel with
  | O => None
  | Datatypes.S f =>
      if Contains subnet ip then
        if decide (ip ∈ used) then scan f subnet used (Next ip) else Some (Some ip)
      else Some None
  end.

(** The part of [nextClientAddressLocked] for one family. *)
Definition nextFree (cidr : string) (bits : Z) (used : gset Addr) : result string :=
  if String.eqb cidr "" then Ok "" else
  match ParsePrefix cidr with
  | None => Err (Panic "netip.MustParsePrefix")
  | Some vpnsubnet =>
      let startIP := PAddr (Masked vpnsubnet) in
      let used := {[startIP]} ∪ ({[Next startIP]} ∪ used) in
      match scan (Datatypes.S (size used)) vpnsubnet used (Next (Next startIP)) with
      | Some (Some ip) => Ok (PrefixString (PrefixFrom ip bits))
      | Some None => Ok ""
      | None => Err (Panic "out of fuel")
      end
  end.

Definition no_free {A} (subnets : string) : result A :=
  Err (PlainError ("there are no free IP addresses in the vpn " +:+ subnets)).

(** Which addresses the new device gets, given what was found. *)
Definition pickAddress (ipv4 ipv6 : string) : result string :=
  if negb (String.eqb ipv4 "") then
    if negb (String.eqb ipv6 "") then Ok (ipv4 +:+ ", " +:+ ipv6)
    else if negb (String.eqb (cidrv6 cfg) "") then no_free ("subnet: '" +:+ cidrv6 cfg +:+ "'")
    else Ok ipv4
  else if negb (String.eqb ipv6 "") then
    if negb (String.eqb (cidr cfg) "") then no_free ("subnet: '" +:+ cidr cfg +:+ "'")
    else Ok ipv6
  else no_free ("subnets: '" +:+ cidr cfg +:+ "', '" +:+ cidrv6 cfg +:+ "'").

Definition nextClientAddressLocked : M S string :=
  let! used := m_wrap "failed to get used addresses" usedAddresses in
  let '(usedIPv4s, usedIPv6s) := used in
  lift (let? ipv4 := nextFree (cidr cfg) 32 usedIPv4s in
        let? ipv6 := nextFree (cidrv6 cfg) 128 usedIPv6s in
        pickAddress ipv4 ipv6).

(** ** Manual assignment: one family of the checks of [addDeviceLocked] *)
Definition manualAddress (family : string) (cidr manual : string) (isFamily : Addr → bool)
    (bits : Z) (used : gset Addr) : result string :=
  if String.eqb manual "" then Ok "" else
  fail! (manual_message family (" assignment not possible, " +:+ family
          +:+ " subnet is not configured.")) when String.eqb cidr "";
  match ParseAddr manual with
  | None => Err (manual_message family " address is not a valid address.")
  | Some ip =>
      fail! (manual_message family (" address is not a valid " +:+ family +:+ " address."))
        when negb (isFamily ip);
      match ParsePrefix cidr with
      | None => Err (Panic "netip.MustParsePrefix")
      | Some vpnsubnet =>
          fail! (manual_message family (" address " +:+ manual +:+ " is not in the configured subnet "
                  +:+ cidr +:+ ".")) when negb (Contains vpnsubnet ip);
          let startIP := PAddr (Masked vpnsubnet) in
          fail! (manual_message family (" address " +:+ manual +:+ " is reserved."))
            when bool_decide (ip = startIP ∨ ip = Next startIP);
          fail! (manual_message family (" address " +:+ manual +:+ " is already in use."))
            when bool_decide (ip ∈ used);
          Ok (PrefixString (PrefixFrom ip bits))
      end
  end.

Definition manualClientAddress (manualIPv4Address manualIPv6Address : string) : M S string :=
  stop! (ValidationError "Manual IP assignment enabled but no IP address provided.")
    when String.eqb manualIPv4Address "" && String.eqb manualIPv6Address "";
  let! used := m_wrap "failed to get used addresses" usedAddresses in
  let '(usedIPv4s, usedIPv6s) := used in
  lift (let? ipv4Addr := manualAddress "IPv4" (cidr cfg) manualIPv4Address Is4 32 usedIPv4s in
        let? ipv6Addr := manualAddress "IPv6" (cidrv6 cfg) manualIPv6Address Is6 128 usedIPv6s in
        Ok (if negb (String.eqb ipv4Addr "") && negb (String.eqb ipv6Addr "")
            then ipv4Addr +:+ ", " +:+ ipv6Addr
            else if negb (String.eqb ipv4Addr "") then ipv4Addr else ipv6Addr)).

(** ** AddDevice *)
Definition ListDevices (user : string) : M S (list Device) := List_ user.
Definition SaveDevice (device : Device) : M S unit := Save device.

Definition addDeviceLocked (now : Time) (identity : Identity) (name publicKey presharedKey : string)
    (manualIPAssignment : bool) (manualIPv4Address manualIPv6Address : string) : M S Device :=
  let! devices := m_wrap "failed to list devices" (ListDevices (Identity.Subject identity)) in
  stop! (ValidationError "Device name already taken.")
    when existsb (λ x, String.eqb (Device.Name x) name) devices;
  stop! (ValidationError ("You already have " +:+ Itoa (maxDevicesPerUser cfg)
          +:+ " devices, which is the maximum allowed. Delete one to add another."))
    when (0 <? maxDevicesPerUser cfg) && (maxDevicesPerUser cfg <=? Z.of_nat (List.length devices));
  let! clientAddr :=
    (if manualIPAssignment
     then manualClientAddress manualIPv4Address manualIPv6Address
     else m_wrap "failed to generate an ip address for device" nextClientAddressLocked) in
  let device := Device.mk (Identity.Subject identity) (Identity.Name identity)
    (Identity.Email identity) (Identity.Provider identity) name publicKey presharedKey
    clientAddr now false None "" None 0 0 "" in
  do! m_wrap "failed to save the new device" (SaveDevice device);
  m_ret device.

Definition AddDevice (now : Time) (identity : Identity) (name publicKey presharedKey : string)
    (manualIPAssignment : bool) (manualIPv4Address manualIPv6Address : string) : M S Device :=
  do! lift (validateDeviceName name);
  stop! (ValidationError "Public key has invalid format.") when negb (wgKey_MatchString publicKey);
  stop! (ValidationError "Pre-shared key has invalid format.")
    when negb (slen presharedKey =? 0) && negb (wgKey_MatchString presharedKey);
  WithAllocationLock (addDeviceLocked now identity name publicKey presharedKey
    manualIPAssignment manualIPv4Address manualIPv6Address).

(** ** Listing *)
(** [withOwnerNames] of one device: what it lacks of its owner's name and
    email is filled in from the users table. *)
Definition complete (known : gmap string User) (device : Device) : Device :=
  match known !! Device.Owner device with
  | None => device
  | Some user =>
      Device.with_OwnerNames
        (if String.eqb (Device.OwnerName device) "" then User.Name user else Device.OwnerName device)
        (if String.eqb (Device.OwnerEmail device) "" then User.Email user else Device.OwnerEmail device)
        device
  end.
Definition incomplete (device : Device) : bool :=
  String.eqb (Device.OwnerName device) "" || String.eqb (Device.OwnerEmail device) "".
Definition users_by_subject (users : list User) : gmap string User :=
  fold_left (λ m u, <[User.Subject u := u]> m) users ∅.

(** A failure to read the users leaves the names as they are. *)
Definition withOwnerNames (devices : list Device) : M S (list Device) :=
  if negb (existsb incomplete devices) then m_ret devices else
  let! users := m_try Users in
  m_ret (match users with
         | Err _ => devices
         | Ok users => complete (users_by_subject users) <$> devices
         end).

Definition ListAllDevices : M S (list Device) :=
  let! devices := List_ "" in withOwnerNames devices.

(** ** RenameDevice *)
Definition RenameDevice (user name newName : string) : M S Device :=
  do! lift (validateDeviceName newName);
  if String.eqb name newName then Get user name else
  WithAllocationLock
    (let! device := m_wrap "failed to retrieve device" (Get user name) in
     let! devices := m_wrap "failed to list devices" (ListDevices user) in
     stop! (ValidationError "Device name already taken.")
       when existsb (λ existing, String.eqb (Device.Name existing) newName) devices;
     Rename device newName).

(** ** SetDeviceAccess *)
Record AccessChange := mkAccessChange {
  ac_Disabled : option bool;
  ac_ExpiresAt : option Time;
  ac_ClearExpiresAt : bool }.

Definition SetDeviceAccess (now : Time) (user name : string) (change : AccessChange) : M S Device :=
  let! device := m_wrap "failed to retrieve device" (Get user name) in
  let disabled := default (Device.Disabled device) (ac_Disabled change) in
  let! expiresAt :=
    (if ac_ClearExpiresAt change then m_ret None
     else match ac_ExpiresAt change with
          | Some e =>
              stop! (ValidationError ("The expiry date must be in the future. "
                       +:+ "Disable the device to end its access now.")) when negb (now <? e);
              m_ret (Some e)
          | None => m_ret (Device.ExpiresAt device)
          end) in
  m_wrap "failed to change the access of the device" (SetAccess device disabled expiresAt).

(** ** Deleting and blocking *)
Definition DeleteDevice (user name : string) : M S unit :=
  let! device := m_wrap "failed to retrieve device" (Get user name) in
  Delete device.

Definition ForgetUser (subject : string) : M S unit :=
  m_wrap ("failed to forget the user '" +:+ subject +:+ "'") (DeleteUser subject).
Definition DeleteDevicesForUser (user : string) : M S unit :=
  do! m_wrap ("failed to delete the devices of user '" +:+ user +:+ "'") (DeleteForOwner user);
  m_ret tt.
Definition BlockDevicesForUser (user : string) : M S Z :=
  let! blocked := m_wrap ("failed to block the devices of user '" +:+ user +:+ "'")
    (BlockForOwner user) in
  m_ret (Z.of_nat (List.length blocked)).

(** ** ListUsers *)
Record ListedUser := mkListedUser {
  lu_Name : string;
  lu_DisplayName : string;
  lu_LastLogin : option Time;
  lu_Policies : list string;
  lu_TwoFactor : bool }.

Definition listed_of_user (user : User) : ListedUser :=
  mkListedUser (User.Subject user) (User.Name user) (Some (User.LastLogin user))
    (User.PolicyList user) (User.TwoFactorEnabled user).

(** The loop over the devices: an owner who is listed already only gets a
    display name if they have none; anybody else is added. *)
Fixpoint see_owner (dev : Device) (users : list ListedUser) : list ListedUser :=
  match users with
  | [] => [mkListedUser (Device.Owner dev) (Device.OwnerName dev) None [] false]
  | u :: users' =>
      if String.eqb (lu_Name u) (Device.Owner dev) then
        (if String.eqb (lu_DisplayName u) ""
         then mkListedUser (lu_Name u) (Device.OwnerName dev) (lu_LastLogin u) (lu_Policies u) (lu_TwoFactor u)
         else u) :: users'
      else u :: see_owner dev users'
  end.

(** Go's order of strings: by bytes. *)
Fixpoint bytes_le (a b : list ascii) : bool :=
  match a, b with
  | [], _ => true
  | _ :: _, [] => false
  | x :: a', y :: b' => if byte_of x =? byte_of y then bytes_le a' b' else byte_of x <? byte_of y
  end.
Definition string_le (a b : string) : bool := bytes_le (bytes a) (bytes b).
Definition user_le (a b : ListedUser) : Prop := string_le (lu_Name a) (lu_Name b) = true.
#[export] Instance user_le_dec a b : Decision (user_le a b).
Proof. unfold user_le. apply _. Defined.

Definition ListUsers : M S (list ListedUser) :=
  let! stored := m_wrap "failed to retrieve users" Users in
  let! devices := m_wrap "failed to retrieve devices" (List_ "") in
  m_ret (merge_sort user_le (fold_left (λ users dev, see_owner dev users) devices (listed_of_user <$> stored))).
End manager.

(** [IsConnected]: a handshake within the last three minutes. *)
Definition second : Z := 1000000000.
Definition IsConnected (now lastHandshake : Time) : bool := now - 180 * second <? lastHandshake.

Example validate_ex : validateDeviceName "laptop 2.0" = Ok tt
  ∧ is_ok (validateDeviceName "  ") = false ∧ is_ok (validateDeviceName (str [97; 194; 133])) = false.
Proof. vm_compute. done. Qed.
Example key_ex : wgKey_MatchString "AAAAAAAAAAAAAAAAAAAAAAAAAAAAAAAAAAAAAAAAAAA=" = true
  ∧ wgKey_MatchString "AAAAAAAAAAAAAAAAAAAAAAAAAAAAAAAAAAAAAAAAAAB=" = false.
Proof. vm_compute. done. Qed.
