(* ===== verification/Allocation.v ===== *)
(** * Address allocation: what the device manager hands out

    Lemmas about the allocation of addresses in [Devices.v]: which addresses
    count as used, that the walk over the subnet ends and finds the lowest free
    address when there is one, and what the text stored for a new device means
    when it is read back. *)
From S2P Require Import Prelude GoText Netip NetipText NetipRoundTrip Network Storage AuthSession Devices.

(** The addresses stored for a device. *)
Definition addresses_of (d : Device) : list Addr := (ParseAddresses (Device.Address d)).1.
Definition in_use (m : gmap (string * string) Device) (a : Addr) : Prop :=
  ∃ k d, m !! k = Some d ∧ a ∈ addresses_of d.

(** ** usedAddresses *)
Lemma add_used_spec used stored a :
  let used' := add_used used stored in
  (a ∈ used'.1 ↔ a ∈ used.1 ∨ Is4 a = true ∧ a ∈ (ParseAddresses stored).1) ∧
  (a ∈ used'.2 ↔ a ∈ used.2 ∨ Is4 a = false ∧ a ∈ (ParseAddresses stored).1).
Proof.
  unfold add_used. generalize (ParseAddresses stored).1 as l. intros l. revert used.
  induction l as [|x l IH]; intros [v4 v6]; simpl; [set_solver|].
  destruct (Is4 x) eqn:E.
  - specialize (IH ({[x]} ∪ v4, v6)) as [H1 H2]. simpl in *. rewrite H1, H2.
    destruct (decide (a = x)) as [->|]; [rewrite E|]; set_solver.
  - specialize (IH (v4, {[x]} ∪ v6)) as [H1 H2]. simpl in *. rewrite H1, H2.
    destruct (decide (a = x)) as [->|]; [rewrite E|]; set_solver.
Qed.

Lemma fold_add_used l used a :
  let used' := fold_left add_used l used in
  (a ∈ used'.1 ↔ a ∈ used.1 ∨ Is4 a = true ∧ ∃ s, s ∈ l ∧ a ∈ (ParseAddresses s).1) ∧
  (a ∈ used'.2 ↔ a ∈ used.2 ∨ Is4 a = false ∧ ∃ s, s ∈ l ∧ a ∈ (ParseAddresses s).1).
Proof.
  revert used. induction l as [|s l IH]; intros used; simpl; [set_solver|].
  destruct (IH (add_used used s)) as [-> ->].
  destruct (add_used_spec used s a) as [-> ->]. set_solver.
Qed.

(** ** The walk over the subnet *)
(** An address of the same family as the subnet, without a zone. *)
Definition walks (p : Prefix) (ip : Addr) : Prop :=
  IsValidAddr ip = true ∧ hasZone ip = false ∧ BitLen ip = BitLen (PAddr p) ∧ wf_addr ip.

Lemma wf_addr_val ip : wf_addr ip → IsValidAddr ip = true → 0 <= addr_val ip < 2 ^ BitLen ip.
Proof. by destruct ip. Qed.

Lemma with_val_props a v : IsValidAddr (with_val a v) = IsValidAddr a ∧
  hasZone (with_val a v) = hasZone a ∧ BitLen (with_val a v) = BitLen a ∧ addr_val (with_val a v) = v.
Proof. by destruct a. Qed.

Lemma Next_walks p ip : walks p ip →
  (walks p (Next ip) ∧ addr_val (Next ip) = addr_val ip + 1) ∨
  (Next ip = zero_addr ∧ addr_val ip + 1 = 2 ^ BitLen (PAddr p)).
Proof.
  intros (Hv & Hz & Hb & Hwf). pose proof (wf_addr_val _ Hwf Hv) as Hr.
  destruct (decide (addr_val ip + 1 < 2 ^ BitLen ip)) as [Hlt|Hge].
  - left. rewrite Next_val by done. destruct (with_val_props ip (addr_val ip + 1)) as (E1 & E2 & E3 & E4).
    split; [|done]. split; [by rewrite E1|]. split; [by rewrite E2|]. split; [by rewrite E3|].
    destruct ip; simpl in *; [done|lia..].
  - right. rewrite <- Hb. assert (addr_val ip + 1 = 2 ^ BitLen ip) by lia.
    split; [by apply Next_overflow|done].
Qed.

Lemma Contains_zero p : Contains p zero_addr = false.
Proof. unfold Contains. destruct (negb _ || _); [done|]. simpl. by rewrite orb_true_r. Qed.

Lemma Contains_A0 p v : Contains p (A0 v) = false.
Proof. unfold Contains. destruct (negb _ || _); [done|]. simpl. by rewrite orb_true_r. Qed.

Lemma walks_eq p a b : walks p a → walks p b → addr_val a = addr_val b → a = b.
Proof.
  intros (? & Hza & Hba & _) (? & Hzb & Hbb & _) E. destruct a, b; simpl in *; try congruence.
  apply negb_false_iff, String.eqb_eq in Hza as ->. apply negb_false_iff, String.eqb_eq in Hzb as ->.
  congruence.
Qed.

Lemma Contains_walks p a : wf_prefix p → Contains p a = true → walks p a.
Proof.
  intros Hwf Hc. pose proof Hc as Hc'. apply Contains_range in Hc as (Hb & Hz & Hr); [|done].
  destruct (start_spec p Hwf) as (Hsw & Hsv & _ & Hsb & _ & Hse).
  destruct Hwf as (Hpw & _ & Hpv & _).
  assert (IsValidAddr a = true) as Hv by (destruct a; [by rewrite Contains_A0 in Hc'|done..]).
  split; [done|]. split; [done|]. split; [done|].
  assert (0 <= addr_val a < 2 ^ BitLen a).
  { rewrite Hb. split; [|lia]. pose proof (wf_addr_val _ Hsw Hsv). lia. }
  by destruct a.
Qed.

(** The used addresses from [ip] on: what bounds the walk. *)
Definition ahead (used : gset Addr) (ip : Addr) : gset Addr :=
  filter (λ a, BitLen a = BitLen ip ∧ addr_val ip <= addr_val a) used.

Lemma scan_ends fuel p used ip : (size (ahead used ip) < fuel)%nat → walks p ip →
  scan fuel p used ip ≠ None.
Proof.
  revert ip. induction fuel as [|fuel IH]; intros ip Hf Hw; [lia|]. cbn [scan].
  destruct (Contains p ip); [|done]. case_decide as Hin; [|done].
  assert (ip ∈ ahead used ip) as Hip by (apply elem_of_filter; split; [lia|done]).
  destruct (Next_walks p ip Hw) as [[Hw' E]|[-> _]].
  - apply IH; [|done]. assert (ahead used (Next ip) ⊂ ahead used ip) as Hss.
    { split.
      - intros a [[Hb Ha] ?]%elem_of_filter. apply elem_of_filter. split; [|done].
        destruct Hw as (_ & _ & -> & _), Hw' as (_ & _ & E' & _). rewrite Hb, E'. lia.
      - intros Hs. apply Hs in Hip. apply elem_of_filter in Hip as [[_ ?] _]. lia. }
    apply subset_size in Hss. lia.
  - destruct fuel as [|fuel]; [|cbn [scan]; by rewrite Contains_zero].
    assert (0 < size (ahead used ip))%nat; [|lia].
    destruct (decide (size (ahead used ip) = 0%nat)) as [E|]; [|lia].
    apply size_empty_inv in E. set_solver.
Qed.

Lemma ahead_size used ip : (size (ahead used ip) <= size used)%nat.
Proof. apply subseteq_size. intros a. unfold ahead. rewrite elem_of_filter. tauto. Qed.

(** An address found is the lowest free one; none found means none is free. *)
Lemma scan_spec fuel p used ip r : wf_prefix p → walks p ip → addr_val (start p) <= addr_val ip →
  scan fuel p used ip = Some r →
  match r with
  | Some a => Contains p a = true ∧ a ∉ used ∧ addr_val ip <= addr_val a ∧
      ∀ b, Contains p b = true → addr_val ip <= addr_val b < addr_val a → b ∈ used
  | None => ∀ b, Contains p b = true → addr_val ip <= addr_val b → b ∈ used
  end.
Proof.
  intros Hwf. revert ip. induction fuel as [|fuel IH]; intros ip Hw Hs E; [done|]. cbn [scan] in E.
  destruct (Contains p ip) eqn:Hc.
  - case_decide as Hin; [|injection E as <-; repeat split; [done|done|lia|intros; lia]].
    assert (∀ b, Contains p b = true → addr_val ip <= addr_val b →
      b ∈ used ∨ addr_val ip + 1 <= addr_val b) as Hstep.
    { intros b Hb Hle. destruct (decide (addr_val b = addr_val ip)) as [Eb|]; [left|right; lia].
      by rewrite (walks_eq p b ip) by (done || by apply Contains_walks). }
    destruct (Next_walks p ip Hw) as [[Hw' En]|[Ez Eo]].
    + apply IH in E; [|done|lia]. rewrite En in E. destruct r as [a|].
      * destruct E as (? & ? & ? & Hlow). repeat split; [done|done|lia|].
        intros b Hb Hr. destruct (Hstep b Hb ltac:(lia)); [done|]. apply Hlow; [done|lia].
      * intros b Hb Hr. destruct (Hstep b Hb Hr); [done|]. by apply E.
    + assert (r = None) as ->.
      { destruct fuel; [done|]. rewrite Ez in E. cbn [scan] in E. rewrite Contains_zero in E. congruence. }
      intros b Hb Hr. destruct (Hstep b Hb Hr); [done|].
      apply Contains_walks in Hb as (Hv & _ & Hbb & Hbw); [|done].
      pose proof (wf_addr_val _ Hbw Hv). rewrite Hbb in *. lia.
  - injection E as <-. intros b Hb Hr. exfalso.
    apply not_true_iff_false in Hc. apply Hc. apply Contains_range; [done|].
    apply Contains_range in Hb as (_ & _ & Hb); [|done]. destruct Hw as (_ & ? & ? & _).
    split; [done|]. split; [done|]. lia.
Qed.

(** ** nextClientAddressLocked for one family *)
(** The network address and the server's own are never handed out. *)
Definition reserved (p : Prefix) (a : Addr) : Prop := a = start p ∨ a = Next (start p).
Definition free_in (p : Prefix) (used : gset Addr) (a : Addr) : Prop :=
  Contains p a = true ∧ ¬ reserved p a ∧ a ∉ used.
(** The address as a prefix of its own, as it is stored. *)
Definition single (a : Addr) : Prefix := mkPrefix a (BitLen a).

Lemma walks_single p a : walks p a → wf_prefix (single a) ∧ PrefixFrom a (BitLen (PAddr p)) = single a.
Proof.
  intros (Hv & Hz & Hb & Hwf). split.
  - split; [done|]. split; [done|]. split; [done|]. simpl. destruct a; simpl; lia.
  - unfold PrefixFrom, single. rewrite Hv, <- Hb.
    destruct (Z.leb_spec 0 (BitLen a)); [|destruct a; simpl in *; lia]. rewrite Z.leb_refl. simpl.
    f_equal. destruct a; simpl in *; try done. apply negb_false_iff, String.eqb_eq in Hz. by subst.
Qed.

Lemma start_walks p : wf_prefix p → walks p (start p).
Proof. intros Hwf. destruct (start_spec p Hwf) as (? & ? & ? & ? & _). done. Qed.

(** The address two after the start, or that there is none. *)
Lemma third_address p : wf_prefix p →
  (walks p (Next (Next (start p))) ∧ addr_val (Next (Next (start p))) = addr_val (start p) + 2 ∧
   (∀ a, walks p a → reserved p a ↔ addr_val a = addr_val (start p) ∨ addr_val a = addr_val (start p) + 1)) ∨
  ((∃ v, Next (Next (start p)) = A0 v) ∧ ∀ a, Contains p a = true → reserved p a).
Proof.
  intros Hwf. pose proof (start_walks p Hwf) as Hs.
  assert (∀ a, Contains p a = true → walks p a ∧ addr_val (start p) <= addr_val a < 2 ^ BitLen (PAddr p)) as Hin.
  { intros a Ha. pose proof (Contains_walks p a Hwf Ha) as Hw. split; [done|].
    apply Contains_range in Ha as (_ & _ & ?); [|done]. destruct Hw as (Hv & _ & Hb & Hw).
    pose proof (wf_addr_val _ Hw Hv). rewrite Hb in *. lia. }
  destruct (Next_walks p _ Hs) as [[Hn En]|[Ez Eo]].
  - destruct (Next_walks p _ Hn) as [[Hnn Enn]|[Ez Eo]].
    + left. split; [done|]. split; [lia|]. intros a Ha. unfold reserved. split.
      * intros [->| ->]; lia.
      * intros [E|E]; [left|right]; apply (walks_eq p); (done || lia).
    + right. split; [rewrite Ez; by eexists|]. intros a [Ha Hr]%Hin. unfold reserved.
      destruct (decide (addr_val a = addr_val (start p))); [left|right]; apply (walks_eq p); (done || lia).
  - right. split; [rewrite Ez; by eexists|]. intros a [Ha Hr]%Hin.
    left. apply (walks_eq p); (done || lia).
Qed.

Lemma nextFree_spec cidr p used r : ParsePrefix cidr = Some p →
  nextFree cidr (BitLen (PAddr p)) used = r →
  (∃ a, r = Ok (PrefixString (single a)) ∧ walks p a ∧ free_in p used a ∧
     ∀ b, free_in p used b → addr_val a <= addr_val b) ∨
  (r = Ok "" ∧ ∀ a, ¬ free_in p used a).
Proof.
  intros Hp E. pose proof (ParsePrefix_wf _ _ Hp) as Hwf. unfold nextFree in E.
  destruct (String.eqb_spec cidr ""); [by subst|]. rewrite Hp in E. fold (start p) in E.
  set (used' := {[start p]} ∪ ({[Next (start p)]} ∪ used)) in *.
  destruct (third_address p Hwf) as [(Hw & Hv & Hres)|[[v Ev] Hall]].
  - assert (Hends : scan (Datatypes.S (size used')) p used' (Next (Next (start p))) ≠ None).
    { apply scan_ends; [|done]. pose proof (ahead_size used' (Next (Next (start p)))). lia. }
    destruct (scan _ _ _ _) as [o|] eqn:Es; [|done].
    apply scan_spec in Es; [|done|done|lia].
    assert (∀ b, Contains p b = true → addr_val (Next (Next (start p))) <= addr_val b →
      ¬ reserved p b) as Hnr.
    { intros b Hb Hle. rewrite Hres by by apply Contains_walks. lia. }
    assert (∀ b, free_in p used b → addr_val (Next (Next (start p))) <= addr_val b ∧ b ∉ used') as Hfree.
    { intros b (Hc & Hr & Hu). pose proof (Contains_walks p b Hwf Hc) as Hwb. split.
      - apply Contains_range in Hc as (_ & _ & ?); [|done]. rewrite Hres in Hr by done. lia.
      - unfold reserved in Hr. unfold used'. set_solver. }
    destruct o as [a|].
    + left. exists a. destruct Es as (Hc & Hu & Hle & Hlow).
      pose proof (Contains_walks p a Hwf Hc) as Hwa.
      destruct (walks_single p a Hwa) as [_ Es]. rewrite Es in E. split; [done|]. split; [done|]. split.
      * split; [done|]. split; [by apply Hnr|]. unfold used' in Hu. set_solver.
      * intros b Hb. destruct (Hfree b Hb) as [Hb1 Hb2].
        destruct (decide (addr_val a <= addr_val b)); [done|]. exfalso. apply Hb2, Hlow; [apply Hb|lia].
    + right. split; [done|]. intros b Hb. destruct (Hfree b Hb) as [Hb1 Hb2].
      apply Hb2, Es; [apply Hb|done].
  - right. rewrite Ev in E. cbn [scan] in E. rewrite Contains_A0 in E. split; [done|].
    intros a (Hc & Hr & _). by apply Hr, Hall.
Qed.

(** Parsing what is stored. *)
Lemma addresses_of_text s l : ParseAddresses s = (l, []) → (ParseAddresses s).1 = l.
Proof. by intros ->. Qed.

Lemma PrefixString_ne p : wf_prefix p → PrefixString p ≠ "".
Proof.
  intros Hwf E. apply (f_equal bytes) in E. unfold PrefixString in E. rewrite bytes_of_bytes in E.
  by apply (prefix_bytes_ne p Hwf).
Qed.

(** ** The configuration: each subnet is absent or a prefix of its family *)
Definition subnet_ok (cidr : string) (bits : Z) : Prop :=
  cidr = "" ∨ ∃ p, ParsePrefix cidr = Some p ∧ BitLen (PAddr p) = bits.
Definition config_ok (cfg : Config) : Prop :=
  subnet_ok (Devices.cidr cfg) 32 ∧ subnet_ok (cidrv6 cfg) 128.

(** An address the manager may hand out: in a subnet of the configuration, not
    reserved there, and not stored for any device. *)
Definition assignable (cfg : Config) (m : gmap (string * string) Device) (a : Addr) : Prop :=
  (∃ p, (ParsePrefix (Devices.cidr cfg) = Some p ∧ Is4 a = true ∨
         ParsePrefix (cidrv6 cfg) = Some p ∧ Is4 a = false) ∧
     Contains p a = true ∧ ¬ reserved p a) ∧ ¬ in_use m a.

(** The text for at most one address of each family, and what it parses to. *)
Definition address_text (o4 o6 : option Addr) : string :=
  match o4, o6 with
  | Some a, Some b => PrefixString (single a) +:+ ", " +:+ PrefixString (single b)
  | Some a, None => PrefixString (single a)
  | None, Some b => PrefixString (single b)
  | None, None => ""
  end.
Definition addrs (o4 o6 : option Addr) : list Addr := option_list o4 ++ option_list o6.

Lemma address_text_parses p4 p6 o4 o6 : (∀ a, o4 = Some a → walks p4 a) → (∀ a, o6 = Some a → walks p6 a) →
  addrs o4 o6 ≠ [] → ParseAddresses (address_text o4 o6) = (addrs o4 o6, []).
Proof.
  intros H4 H6 Hne. destruct o4 as [a|], o6 as [b|]; simpl; [| | |done].
  - destruct (walks_single p4 a (H4 a eq_refl)), (walks_single p6 b (H6 b eq_refl)).
    by rewrite ParseAddresses_two.
  - destruct (walks_single p4 a (H4 a eq_refl)). by rewrite ParseAddresses_one.
  - destruct (walks_single p6 b (H6 b eq_refl)). by rewrite ParseAddresses_one.
Qed.
