(* ===== verification/DeviceSpecs.v ===== *)
(** * What the device manager guarantees

    Specifications of the operations of [Devices.v], proved against the
    contract of the storage: what a successful call means for the stored
    devices, on every storage that keeps the contract. *)
From S2P Require Import Prelude GoText Netip NetipText NetipRoundTrip Network Storage AuthSession Devices.
From S2P Require Import Allocation.

Section specs.
  Context {S : Type} `{StorageLaws S} (cfg : Config).
  Implicit Types (s : S).

(** ** Rows of the device table *)
Lemma dev_key_lookup a k d : wf_abs a → devices a !! k = Some d → devices a !! Device.key d = Some d.
Proof. intros Hwf Hl. by rewrite (wf_dev_key _ Hwf _ _ Hl). Qed.

Lemma List_spec owner s l s' : ok s → List_ owner s = (Ok l, s') →
  s' = s ∧ ∀ d, d ∈ l ↔ (owner = "" ∨ Device.Owner d = owner) ∧ devices (view s) !! Device.key d = Some d.
Proof.
  intros Hok E. apply (query_ok _ _ _ _ _ (law_List owner)) in E as [-> Hl]; [|done].
  split; [done|]. intros d. rewrite (lists_rows_elem _ _ _ _ Hl). f_equiv. split; [|eauto].
  intros [k Hk]. eapply dev_key_lookup; [by apply ok_wf|done].
Qed.

(** The devices of one owner. *)
Definition owned (m : gmap (string * string) Device) (owner : string) : list Device :=
  filter (λ d, Device.Owner d = owner) (map_to_list m).*2.

Lemma filter_length_le {A} (P Q : A → Prop) `{∀ x, Decision (P x)} `{∀ x, Decision (Q x)} (l : list A) :
  (∀ x, P x → Q x) → (List.length (filter P l) <= List.length (filter Q l))%nat.
Proof.
  intros HPQ. induction l as [|x l IH]; [done|]. destruct (decide (P x)) as [HP|HP].
  - rewrite !filter_cons_True by auto. simpl. lia.
  - rewrite filter_cons_False by done. destruct (decide (Q x)) as [HQ|HQ].
    + rewrite filter_cons_True by done. simpl. lia.
    + by rewrite filter_cons_False.
Qed.

Lemma List_owned owner s l s' : ok s → List_ owner s = (Ok l, s') →
  (List.length (owned (devices (view s)) owner) <= List.length l)%nat.
Proof.
  intros Hok E. apply (query_ok _ _ _ _ _ (law_List owner)) in E as [_ Hl]; [|done].
  simpl in Hl. unfold lists_rows in Hl. rewrite Hl. apply filter_length_le. auto.
Qed.

Lemma Get_spec owner name s d s' : ok s → Get owner name s = (Ok d, s') →
  s' = s ∧ devices (view s) !! (owner, name) = Some d ∧ Device.key d = (owner, name).
Proof.
  intros Hok E. apply (query_ok _ _ _ _ _ (law_Get owner name)) in E as [-> Hl]; [|done].
  simpl in Hl. split; [done|]. split; [done|]. by apply (wf_dev_key _ (ok_wf _ Hok)).
Qed.

(** ** Addresses *)
Lemma usedAddresses_spec s v4 v6 s' : ok s → usedAddresses s = (Ok (v4, v6), s') →
  s' = s ∧ ∀ a, (a ∈ v4 ↔ Is4 a = true ∧ in_use (devices (view s)) a) ∧
                (a ∈ v6 ↔ Is4 a = false ∧ in_use (devices (view s)) a).
Proof.
  intros Hok E. unfold usedAddresses in E. minv.
  apply (query_ok _ _ _ _ _ law_Addresses) in H1 as [-> Hl]; [|done]. simpl in Hl.
  assert (∀ a, (∃ t, t ∈ x ∧ a ∈ (ParseAddresses t).1) ↔ in_use (devices (view s)) a) as Hu.
  { intros a. unfold in_use, addresses_of. setoid_rewrite Hl. split.
    - intros (t & ([k d] & -> & ([k' d'] & -> & Hin)%list_elem_of_fmap)%list_elem_of_fmap & Ha).
      exists k', d'. by apply elem_of_map_to_list in Hin.
    - intros (k & d & Hk & Ha). exists (Device.Address d). split; [|done].
      apply list_elem_of_fmap. exists d. split; [done|]. apply list_elem_of_fmap.
      exists (k, d). split; [done|]. by apply elem_of_map_to_list. }
  split; [done|]. intros a. pose proof (fold_add_used x (∅, ∅) a) as Hf.
  rewrite E in Hf. simpl in Hf. rewrite Hu in Hf. set_solver.
Qed.

(** What one family contributes. *)
Definition picked (cidr : string) (used : gset Addr) (o : option Addr) : Prop :=
  ∀ a, o = Some a → ∃ p, ParsePrefix cidr = Some p ∧ walks p a ∧ free_in p used a.
Definition text1 (o : option Addr) : string :=
  match o with Some a => PrefixString (single a) | None => "" end.

Lemma text1_empty cidr used o : picked cidr used o → text1 o = "" ↔ o = None.
Proof.
  intros Hp. destruct o as [a|]; [|done]. split; [|done]. intros E.
  destruct (Hp a eq_refl) as (p & _ & Hw & _). destruct (walks_single p a Hw) as [Hs _].
  by apply PrefixString_ne in Hs.
Qed.

Lemma nextFree_picked cidr bits used t : subnet_ok cidr bits → nextFree cidr bits used = Ok t →
  ∃ o, t = text1 o ∧ picked cidr used o ∧ (cidr = "" → o = None).
Proof.
  intros [->|(p & Hp & <-)] E; [injection E as <-; by exists None|].
  assert (cidr ≠ "") by (intros ->; done).
  apply (nextFree_spec cidr p) in E as [(a & E & Hw & Hf & _)|[E _]]; [| |done]; injection E as ->.
  - exists (Some a). split; [done|]. split; [|done]. intros b [= <-]. eauto.
  - by exists None.
Qed.

Lemma manualAddress_picked family cidr manual isFamily bits used t :
  subnet_ok cidr bits → manualAddress family cidr manual isFamily bits used = Ok t →
  ∃ o, t = text1 o ∧ picked cidr used o ∧ (cidr = "" → o = None) ∧
    (if String.eqb manual "" then o = None else ParseAddr manual = o ∧ o ≠ None).
Proof.
  intros Hs E. unfold manualAddress in E. destruct (String.eqb_spec manual "").
  { injection E as <-. by exists None. }
  destruct (String.eqb_spec cidr "") as [|Hc]; [done|].
  destruct (ParseAddr manual) as [ip|] eqn:Ea; [|done].
  destruct (negb (isFamily ip)); [done|].
  destruct Hs as [|(p & Hp & Hb)]; [done|]. rewrite Hp in E.
  destruct (Contains p ip) eqn:Hcont; [|done]. simpl negb in E. cbv iota in E. fold (start p) in E.
  case_bool_decide as Hr; [done|]. case_bool_decide as Hu; [done|]. injection E as <-.
  pose proof (Contains_walks p ip (ParsePrefix_wf _ _ Hp) Hcont) as Hw.
  destruct (walks_single p ip Hw) as [_ Es]. rewrite <- Hb, Es.
  exists (Some ip). split; [done|]. split; [|done].
  intros a [= <-]. exists p. split; [done|]. split; [done|]. split; [done|].
  unfold reserved. tauto.
Qed.

(** The text of a new device's address and what it means. *)
Definition good_address (m : gmap (string * string) Device) (t : string) : Prop :=
  ∃ l, l ≠ [] ∧ ParseAddresses t = (l, []) ∧ Forall (assignable cfg m) l.

Lemma picked_good s v4 v6 o4 o6 : config_ok cfg → 
  (∀ a, (a ∈ v4 ↔ Is4 a = true ∧ in_use (devices (view s)) a) ∧
        (a ∈ v6 ↔ Is4 a = false ∧ in_use (devices (view s)) a)) →
  picked (cidr cfg) v4 o4 → picked (cidrv6 cfg) v6 o6 → addrs o4 o6 ≠ [] →
  good_address (devices (view s)) (address_text o4 o6).
Proof.
  intros [Hc4 Hc6] Hu H4 H6 Hne. exists (addrs o4 o6). split; [done|].
  assert (∀ o cidr used, picked cidr used o → ∃ p, ∀ a, o = Some a → walks p a) as Hw.
  { intros [a|] cidr used Hp; [|by exists zero_prefix].
    destruct (Hp a eq_refl) as (p & _ & ? & _). exists p. by intros b [= <-]. }
  destruct (Hw _ _ _ H4) as [p4 Hw4], (Hw _ _ _ H6) as [p6 Hw6].
  split; [by apply (address_text_parses p4 p6)|].
  apply Forall_app. split.
  - destruct o4 as [a|]; [|constructor]. constructor; [|constructor].
    destruct (H4 a eq_refl) as (p & Hp & (_ & _ & Hb & _) & Hin & Hr & Hnu).
    assert (Is4 a = true) as H4a.
    { destruct Hc4 as [E|(q & Hq & Hbq)]; [rewrite E in Hp; done|]. simplify_eq.
      rewrite Hbq in Hb. by destruct a. }
    split; [exists p; auto|]. intros Hiu. apply Hnu. by apply Hu.
  - destruct o6 as [a|]; [|constructor]. constructor; [|constructor].
    destruct (H6 a eq_refl) as (p & Hp & (_ & _ & Hb & _) & Hin & Hr & Hnu).
    assert (Is4 a = false) as H6a.
    { destruct Hc6 as [E|(q & Hq & Hbq)]; [rewrite E in Hp; done|]. simplify_eq.
      rewrite Hbq in Hb. by destruct a. }
    split; [exists p; auto|]. intros Hiu. apply Hnu. by apply Hu.
Qed.

Lemma nextClientAddress_good s t s' : ok s → config_ok cfg →
  nextClientAddressLocked cfg s = (Ok t, s') → s' = s ∧ good_address (devices (view s)) t.
Proof.
  intros Hok Hcfg E. unfold nextClientAddressLocked in E. minv. destruct x as [v4 v6].
  apply usedAddresses_spec in H1 as [-> Hu]; [|done]. minv. subst. split; [done|]. rinv.
  destruct Hcfg as [Hc4 Hc6].
  apply (nextFree_picked _ _ _ _ Hc4) in H1 as (o4 & -> & P4 & N4).
  apply (nextFree_picked _ _ _ _ Hc6) in H2 as (o6 & -> & P6 & N6).
  assert (t = address_text o4 o6 ∧ addrs o4 o6 ≠ []) as [-> Hne].
  { unfold pickAddress in E. pose proof (text1_empty _ _ _ P4) as T4. pose proof (text1_empty _ _ _ P6) as T6.
    destruct (String.eqb_spec (text1 o4) "") as [E4|E4], (String.eqb_spec (text1 o6) "") as [E6|E6];
      simpl in E; repeat case_match; try discriminate; injection E as <-.
    - assert (o4 = None) as -> by tauto. by destruct o6.
    - assert (o6 = None) as -> by tauto. by destruct o4.
    - by destruct o4, o6. }
  by eapply picked_good.
Qed.

Lemma manualClientAddress_good m4 m6 s t s' : ok s → config_ok cfg →
  manualClientAddress cfg m4 m6 s = (Ok t, s') → s' = s ∧ good_address (devices (view s)) t.
Proof.
  intros Hok Hcfg E. unfold manualClientAddress in E. minv. destruct x as [v4 v6].
  apply usedAddresses_spec in H1 as [-> Hu]; [|done]. minv. subst. split; [done|]. rinv.
  destruct Hcfg as [Hc4 Hc6].
  apply (manualAddress_picked _ _ _ _ _ _ _ Hc4) in H1 as (o4 & -> & P4 & N4 & M4).
  apply (manualAddress_picked _ _ _ _ _ _ _ Hc6) in H2 as (o6 & -> & P6 & N6 & M6).
  pose proof (text1_empty _ _ _ P4) as T4. pose proof (text1_empty _ _ _ P6) as T6.
  assert (o4 ≠ None ∨ o6 ≠ None) as Hne.
  { apply andb_false_iff in Hguard as [Hg|Hg]; [rewrite Hg in M4|rewrite Hg in M6]; tauto. }
  assert (t = address_text o4 o6 ∧ addrs o4 o6 ≠ []) as [-> Hne'].
  { destruct (String.eqb_spec (text1 o4) "") as [E4|E4], (String.eqb_spec (text1 o6) "") as [E6|E6];
      simpl in E; subst t.
    - assert (o4 = None) as -> by tauto. assert (o6 = None) as -> by tauto. tauto.
    - assert (o4 = None) as -> by tauto. by destruct o6.
    - assert (o6 = None) as -> by tauto. by destruct o4.
    - by destruct o4, o6. }
  by eapply picked_good.
Qed.

(** ** AddDevice *)
Lemma validateDeviceName_ok name : validateDeviceName name = Ok tt ↔
  TrimSpace name ≠ "" ∧ RuneCountInString name <= 100 ∧ Forall (λ r, IsControl r = false) (runes name).
Proof.
  unfold validateDeviceName, maxDeviceNameLength. rewrite Forall_forall.
  destruct (String.eqb_spec (TrimSpace name) ""); [naive_solver|].
  destruct (Z.ltb_spec 100 (RuneCountInString name)); [naive_solver lia|].
  destruct (existsb IsControl (runes name)) eqn:E.
  - split; [done|]. intros (_ & _ & Hf). apply existsb_exists in E as (r & Hin & Hr).
    rewrite Hf in Hr by by apply list_elem_of_In. done.
  - split; [|done]. intros _. split; [done|]. split; [done|]. intros r Hr.
    apply not_true_iff_false. intros Hc. apply not_true_iff_false in E. apply E.
    apply existsb_exists. exists r. split; [by apply list_elem_of_In|done].
Qed.

Lemma existsb_name_false l name :
  existsb (λ x, String.eqb (Device.Name x) name) l = false ↔ Forall (λ d, Device.Name d ≠ name) l.
Proof.
  induction l as [|d l IH]; simpl; [by split; constructor|].
  rewrite orb_false_iff, IH, Forall_cons, String.eqb_neq. done.
Qed.

(** The device a successful call adds: its fields are those asked for. *)
Definition new_device (now : Time) (identity : Identity) (name pk psk t : string) : Device :=
  Device.mk (Identity.Subject identity) (Identity.Name identity) (Identity.Email identity)
    (Identity.Provider identity) name pk psk t now false None "" None 0 0 "".

Definition key_ok (k : string) : Prop := wgKey_MatchString k = true.

Definition under_limit (m : gmap (string * string) Device) (owner : string) : Prop :=
  0 < maxDevicesPerUser cfg → Z.of_nat (List.length (owned m owner)) < maxDevicesPerUser cfg.

Lemma addDeviceLocked_spec now identity name pk psk manual m4 m6 s d s' : ok s → config_ok cfg →
  addDeviceLocked cfg now identity name pk psk manual m4 m6 s = (Ok d, s') →
  ok s' ∧
  (∃ t, d = new_device now identity name pk psk t ∧ good_address (devices (view s)) t) ∧
  devices (view s) !! Device.key d = None ∧
  (pk ≠ "" → key_free (devices (view s)) (Device.key d) pk) ∧
  under_limit (devices (view s)) (Device.Owner d) ∧
  view s' = on_devices <[Device.key d := d]> (view s) ∧ emitted s' = emitted s ++ [EvAdd d].
Proof.
  intros Hok Hcfg E. unfold addDeviceLocked, ListDevices, SaveDevice in E. minv.
  match goal with Hl : List_ _ s = (Ok ?l, _), Ha : _ = (Ok ?t, ?s2), Hs : Save ?d _ = _ |- _ =>
    rename Hl into HL, Ha into HA, Hs into HS, l into ds, t into addr end.
  pose proof (List_owned _ _ _ _ Hok HL) as Hlen. apply List_spec in HL as [-> Hl]; [|done].
  assert (good_address (devices (view s)) addr ∧ x2 = s) as [Hgood ->].
  { destruct manual; minv.
    - apply manualClientAddress_good in HA as [-> ?]; done.
    - apply nextClientAddress_good in HA as [-> ?]; done. }
  fold (new_device now identity name pk psk addr) in *.
  set (d := new_device now identity name pk psk addr) in *.
  assert (devices (view s) !! Device.key d = None) as Hnew.
  { destruct (devices (view s) !! Device.key d) as [d'|] eqn:Hd; [|done]. exfalso.
    apply existsb_name_false in Hguard. rewrite Forall_forall in Hguard.
    pose proof (wf_dev_key _ (ok_wf _ Hok) _ _ Hd) as Hk. unfold Device.key in Hk. injection Hk as Ho Hn.
    apply (Hguard d'); [|done]. apply Hl. split; [by right|]. unfold Device.key. by rewrite Ho, Hn. }
  apply law_Save in HS as (Hok' & evs & HS & He); [|done].
  destruct HS as (Hfree & Hv & [->|[_ ?]]); [by left| |done].
  split; [done|]. split; [by exists addr|]. split; [done|]. split; [done|]. split; [|done].
  - intros Hmax. apply andb_false_iff in Hguard0 as [Hg%Z.ltb_ge|Hg%Z.leb_gt]; [lia|].
    change (Device.Owner d) with (Identity.Subject identity). lia.
Qed.

Lemma AddDevice_spec now identity name pk psk manual m4 m6 s d s' : ok s → config_ok cfg →
  AddDevice cfg now identity name pk psk manual m4 m6 s = (Ok d, s') →
  ok s' ∧ validateDeviceName name = Ok tt ∧ key_ok pk ∧ (psk = "" ∨ key_ok psk) ∧
  (∃ t, d = new_device now identity name pk psk t ∧ good_address (devices (view s)) t) ∧
  devices (view s) !! Device.key d = None ∧
  key_free (devices (view s)) (Device.key d) pk ∧
  under_limit (devices (view s)) (Device.Owner d) ∧
  view s' = on_devices <[Device.key d := d]> (view s) ∧ emitted s' = emitted s ++ [EvAdd d].
Proof.
  intros Hok Hcfg E. unfold AddDevice, WithAllocationLock in E. minv. subst.
  match goal with Hl : AllocationLock _ = _, Hn : validateDeviceName _ = Ok ?u |- _ =>
    rename Hn into Hname; destruct u;
    apply law_AllocationLock in Hl as (Hok0 & evs0 & [Hv0 ->] & He0); [|done] end.
  rewrite app_nil_r in He0. apply addDeviceLocked_spec in E; [|done|done].
  rewrite Hv0, He0 in E. destruct E as (? & ? & ? & Hfree & ? & ? & ?).
  apply negb_false_iff in Hguard. split; [done|]. split; [done|]. split; [done|]. split.
  { apply andb_false_iff in Hguard0 as [Hg|Hg]; apply negb_false_iff in Hg; [left|by right].
    unfold slen in Hg. destruct psk; [done|]. apply Z.eqb_eq in Hg. simpl in Hg. lia. }
  repeat (split; [done|]). split; [|done]. apply Hfree. by intros ->.
Qed.

(** ** The other operations of the manager *)
Ltac lock_law := match goal with Hl : AllocationLock _ = (Ok _, _) |- _ =>
  let V := fresh "Hv" in let E := fresh "He" in let O := fresh "Hok" in
  apply law_AllocationLock in Hl as (O & ? & [V ->] & E); [|done]; rewrite app_nil_r in E end.

(** A device that is there and has the key it is looked up by. *)
Lemma get_effect user name s d s1 : ok s → Get user name s = (Ok d, s1) →
  s1 = s ∧ devices (view s) !! (user, name) = Some d ∧ Device.key d = (user, name).
Proof. apply Get_spec. Qed.

Lemma RenameDevice_spec user name newName s d s' : ok s →
  RenameDevice user name newName s = (Ok d, s') →
  validateDeviceName newName = Ok tt ∧ ok s' ∧
  ∃ stored, devices (view s) !! (user, name) = Some stored ∧ Device.key stored = (user, name) ∧
  (if String.eqb name newName then d = stored ∧ s' = s
   else d = Device.with_Name newName stored ∧
     devices (view s) !! (user, newName) = None ∧
     view s' = on_devices (λ m, <[(user, newName) := d]> (delete (user, name) m)) (view s) ∧
     emitted s' = emitted s ++ [EvUpdate d]).
Proof.
  intros Hok E. unfold RenameDevice, WithAllocationLock, ListDevices in E. minv. subst.
  match goal with Hn : validateDeviceName _ = Ok ?u |- _ => destruct u end. split; [done|].
  destruct (String.eqb_spec name newName) as [<-|Hne].
  { apply Get_spec in E as (-> & Hl & Hk); [|done]. split; [done|]. by exists d. }
  minv. lock_law.
  match goal with Hg : Get _ _ _ = _ |- _ => apply Get_spec in Hg as (-> & Hl & Hk); [|done] end.
  match goal with Hl : List_ _ _ = _ |- _ => apply List_spec in Hl as (-> & Hds); [|done] end.
  apply law_Rename in E as (Hok' & evs & (stored & Hst & Hv' & Hr & ->) & He'); [|done].
  rewrite Hk in *. rewrite Hl in Hst. injection Hst as <-. split; [done|].
  match type of Hl with _ = Some ?x0 => assert (d = Device.with_Name newName x0) as -> by by destruct Hr end.
  rewrite Hv in *. eexists. split; [done|]. split; [done|]. split; [done|].
  unfold Device.key in Hk. injection Hk as Ho Hn. split; [|split].
  - destruct (devices (view s) !! (user, newName)) as [d'|] eqn:Hd'; [|done]. exfalso.
    pose proof (wf_dev_key _ (ok_wf _ Hok) _ _ Hd') as Hk'. unfold Device.key in Hk'. injection Hk' as Ho' Hn'.
    apply existsb_name_false in Hguard. rewrite Forall_forall in Hguard. apply (Hguard d'); [|done].
    apply Hds. split; [by right|]. unfold Device.key. by rewrite Ho', Hn'.
  - rewrite Hv'. unfold Device.key. simpl. by rewrite Ho.
  - by rewrite He', He.
Qed.

(** Changing a device that is handed in as it is stored. *)
Lemma changes_device_spec m d f s r s' : changes_device view ok m d f → ok s →
  devices (view s) !! Device.key d = Some d → m s = (Ok r, s') →
  ok s' ∧ r = f d ∧ view s' = on_devices <[Device.key d := r]> (view s) ∧
  emitted s' = emitted s ++ [EvUpdate r].
Proof.
  intros Hm Hok Hd E. apply Hm in E as (Hok' & evs & (stored & Hs & Hv & Hr & ->) & He); [|done].
  rewrite Hd in Hs. injection Hs as <-. assert (r = f d) as -> by by destruct Hr. done.
Qed.

(** What an access change asks for. *)
Definition new_expiry (old : option Time) (change : AccessChange) : option Time :=
  if ac_ClearExpiresAt change then None
  else match ac_ExpiresAt change with Some e => Some e | None => old end.

Lemma SetDeviceAccess_spec now user name change s d s' : ok s →
  SetDeviceAccess now user name change s = (Ok d, s') → ok s' ∧
  ∃ stored, devices (view s) !! (user, name) = Some stored ∧
    d = Device.with_Access (default (Device.Disabled stored) (ac_Disabled change))
          (new_expiry (Device.ExpiresAt stored) change) stored ∧
    (ac_ClearExpiresAt change = false → ∀ e, ac_ExpiresAt change = Some e → now < e) ∧
    view s' = on_devices <[(user, name) := d]> (view s) ∧ emitted s' = emitted s ++ [EvUpdate d].
Proof.
  intros Hok E. unfold SetDeviceAccess in E. minv.
  match goal with Hg : Get _ _ _ = _ |- _ => apply Get_spec in Hg as (-> & Hl & Hk); [|done] end.
  match goal with Hx : (if ac_ClearExpiresAt change then _ else _) _ = (Ok ?e, ?s2) |- _ =>
    assert (s2 = s ∧ e = new_expiry (Device.ExpiresAt x) change ∧
      (ac_ClearExpiresAt change = false → ∀ t, ac_ExpiresAt change = Some t → now < t)) as (-> & -> & Hfut);
    [unfold new_expiry; destruct (ac_ClearExpiresAt change);
      [minv; naive_solver|destruct (ac_ExpiresAt change) as [t|]; minv; [|naive_solver]]|] end.
  { split; [done|]. split; [done|]. intros _ t' [= <-]. apply negb_false_iff, Z.ltb_lt in Hguard. done. }
  apply (changes_device_spec _ _ _ _ _ _ (law_SetAccess _ _ _)) in E as (Hok' & -> & Hv & He); [|done|by rewrite Hk].
  rewrite Hk in Hv. split; [done|]. by exists x.
Qed.

Lemma DeleteDevice_spec user name s s' : ok s → DeleteDevice user name s = (Ok tt, s') → ok s' ∧
  ∃ d, devices (view s) !! (user, name) = Some d ∧
    view s' = on_devices (delete (user, name)) (view s) ∧
    ∃ evs, emitted s' = emitted s ++ evs ∧ evs ≠ [] ∧ Forall (eq (EvDelete d)) evs.
Proof.
  intros Hok E. unfold DeleteDevice in E. minv.
  match goal with Hg : Get _ _ _ = _ |- _ => apply Get_spec in Hg as (-> & Hl & Hk); [|done] end.
  apply law_Delete in E as (Hok' & evs & (Hv & ? & ?) & He); [|done]. rewrite Hk in Hv.
  split; [done|]. exists x. split; [done|]. split; [done|]. by exists evs.
Qed.

Lemma BlockDevicesForUser_spec user s n s' : ok s → BlockDevicesForUser user s = (Ok n, s') → ok s' ∧
  view s' = on_devices (fmap (λ d, if bool_decide (Device.Owner d = user)
    then Device.with_Access true (Device.ExpiresAt d) d else d)) (view s) ∧
  n = Z.of_nat (List.length (filter (λ d, Device.Disabled d = false) (owned (devices (view s)) user))).
Proof.
  intros Hok E. unfold BlockDevicesForUser in E. minv.
  match goal with Hb : BlockForOwner _ _ = _ |- _ =>
    apply law_BlockForOwner in Hb as (Hok' & evs & ((l0 & Hl0 & ->) & Hv & ->) & He); [|done] end.
  split; [done|]. split; [done|]. rewrite length_fmap. unfold lists_rows in Hl0. rewrite Hl0.
  unfold owned. rewrite list_filter_filter. do 2 f_equal. apply list_filter_iff. naive_solver.
Qed.
End specs.
