(* ===== verification/Dns.v ===== *)
(** * internal/dnsproxy/auth.go: the names of the devices

    The zone made of the devices, how a query is answered from it, and
    [generateZone] of [cmd/serve/dns.go]. Messages are records with the fields
    the program uses; what the DNS library does with one - replies, the EDNS
    record, splitting a name, reading a record from its text - is a class of
    parameters with what its documentation says. Names in a message are ASCII
    text: the library escapes every other byte. *)
From S2P Require Import Prelude GoText GoNet Netip NetipText Network GoQuote Encoding Storage Devices.

(** ** Messages *)
Record DNSQuestion := mkQuestion { q_Name : string; Qtype : Z; Qclass : Z }.
(** The OPT record of a message. *)
Record OPT := mkOPT { opt_Options : list (Z * string); opt_Do : bool; opt_UDPSize : Z }.
Record Msg (RR : Type) := mkMsg {
  Id : Z;
  Opcode : Z;
  Authoritative : bool;
  Truncated : bool;
  AuthenticatedData : bool;
  CheckingDisabled : bool;
  Rcode : Z;
  DQuestion : list DNSQuestion;
  Answer : list RR;
  Ns : list RR;
  Extra : list RR }.
Arguments mkMsg {RR} _ _ _ _ _ _ _ _ _ _ _. Arguments Id {RR} _. Arguments Opcode {RR} _.
Arguments Authoritative {RR} _. Arguments Truncated {RR} _. Arguments AuthenticatedData {RR} _.
Arguments CheckingDisabled {RR} _. Arguments Rcode {RR} _. Arguments DQuestion {RR} _.
Arguments Answer {RR} _. Arguments Ns {RR} _. Arguments Extra {RR} _.

Definition OpcodeQuery : Z := 0.
Definition ClassINET : Z := 1.
Definition TypeA : Z := 1.
Definition TypeCNAME : Z := 5.
Definition TypeAAAA : Z := 28.
Definition TypeOPT : Z := 41.
Definition TypeANY : Z := 255.
Definition RcodeSuccess : Z := 0.
Definition RcodeServerFailure : Z := 2.
Definition RcodeNameError : Z := 3.
Definition EDNS0SUBNET : Z := 8.
Definition TypeToString (t : Z) : string :=
  if t =? TypeA then "A" else if t =? TypeAAAA then "AAAA" else "CNAME".

Definition plain_label (l : string) : bool :=
  negb (String.eqb l "") && is_ascii l && negb (Contains_byte l ".") && negb (Contains_byte l "\").
Class DNSLib (RR : Type) := {
  Rrtype : RR → Z;
  Ttl : RR → Z;
  NewRR : string → result RR;
  SplitDomainName : string → list string;
  Fqdn : string → string;
  SetReply : Msg RR → Msg RR → Msg RR;
  SetRcode : Msg RR → Msg RR → Z → Msg RR;
  IsEdns0 : Msg RR → option OPT;
  (* writing through the record IsEdns0 returned *)
  with_OPT : OPT → Msg RR → Msg RR;
  SetEdns0 : Z → bool → Msg RR → Msg RR;
  Truncate : Z → Msg RR → Msg RR;
  ttl_range rr : 0 <= Ttl rr < 2 ^ 32;
  split_root : SplitDomainName "" = [] ∧ SplitDomainName "." = [];
  split_labels l : l ≠ [] → Forall (λ x, plain_label x = true) l → SplitDomainName (Join l "." +:+ ".") = l;
  reply_rcode m r : Rcode (SetReply m r) = RcodeSuccess;
  reply_keeps m r : Id (SetReply m r) = Id r ∧ Authoritative (SetReply m r) = Authoritative m ∧
    Answer (SetReply m r) = Answer m ∧ Ns (SetReply m r) = Ns m ∧ Extra (SetReply m r) = Extra m;
  rcode_set m r c : Rcode (SetRcode m r c) = c ∧ Answer (SetRcode m r c) = Answer m ∧
    Authoritative (SetRcode m r c) = Authoritative m ∧ Id (SetRcode m r c) = Id r;
  opt_written o o' m : IsEdns0 m = Some o → IsEdns0 (with_OPT o' m) = Some o' ∧
    DQuestion (with_OPT o' m) = DQuestion m ∧ Opcode (with_OPT o' m) = Opcode m ∧ Id (with_OPT o' m) = Id m;
  opt_added size do_ m : IsEdns0 m = None → ∃ o, IsEdns0 (SetEdns0 size do_ m) = Some o ∧ opt_Options o = [] ∧
    opt_Do o = do_ ∧ opt_UDPSize o = size ∧ DQuestion (SetEdns0 size do_ m) = DQuestion m;
  truncate_rcode size m : Rcode (Truncate size m) = Rcode m ∧ Id (Truncate size m) = Id m }.

(** ** strings.ToLower *)
(** Lower case of the code points outside ASCII is a table of the Unicode
    package. *)
Class LowerTable := { lower_rune : Z → Z }.
Definition ToLower `{LowerTable} (s : string) : string :=
  if is_ascii s then of_bytes (lower_byte <$> bytes s)
  else of_bytes (mjoin ((λ r, EncodeRune
    (if r <? 128 then byte_of (lower_byte (chr r)) else lower_rune r)) <$> runes s)).

Definition authoritativeTTL : Z := 300.
(** Owner and name. *)
Notation ZoneKey := (string * string)%type.
Notation Zone := (gmap ZoneKey (list Addr)).

(** [DNSAuth] *)
Record DNSAuth := mkDNSAuth { auth_Domain : string; zone : Zone }.

Section auth.
  Context {RR : Type} `{DNSLib RR} `{LowerTable}.
  Implicit Types (m : Msg RR).

Definition fold_key (key : ZoneKey) : ZoneKey := (ToLower key.1, ToLower key.2).
(** The entries in the order a walk over the map visits them. *)
Definition folded (entries : list (ZoneKey * list Addr)) : Zone :=
  fold_left (λ z e, <[fold_key e.1 := e.2]> z) entries ∅.
Definition PushZone (entries : list (ZoneKey * list Addr)) (d : DNSAuth) : DNSAuth :=
  mkDNSAuth (auth_Domain d) (folded entries).
Definition getDevice (owner device : string) (d : DNSAuth) : list Addr :=
  default [] (zone d !! (ToLower owner, ToLower device)).

(** [newRR]; the class is always INET here. *)
Definition newRR (qname : string) (qtype : Z) (data : string) : result RR :=
  NewRR (qname +:+ " " +:+ Itoa authoritativeTTL +:+ " IN " +:+ TypeToString qtype +:+ " " +:+ data).

(** The domain is cut off whatever its case. *)
Definition deviceAndOwner (domain qname : string) : string :=
  if (slen domain <=? slen qname) && EqualFold (of_bytes (drop (String.length qname - String.length domain) (bytes qname))) domain
  then of_bytes (take (String.length qname - String.length domain) (bytes qname)) else qname.

Definition with_Answer (l : list RR) m : Msg RR :=
  mkMsg (Id m) (Opcode m) (Authoritative m) (Truncated m) (AuthenticatedData m) (CheckingDisabled m) (Rcode m)
    (DQuestion m) l (Ns m) (Extra m).
Definition new_response : Msg RR := mkMsg 0 0 true false false false 0 [] [] [] [].

(** The records of one address that the type asks for. *)
Definition address_records (qname : string) (qtype : Z) (addr : Addr) : list RR :=
  (if ((qtype =? TypeAAAA) || (qtype =? TypeANY)) && Is6 addr
   then match newRR qname TypeAAAA (AddrString addr) with Ok rr => [rr] | Err _ => [] end else []) ++
  (if ((qtype =? TypeA) || (qtype =? TypeANY)) && Is4 addr
   then match newRR qname TypeA (AddrString addr) with Ok rr => [rr] | Err _ => [] end else []).
Definition answer_with (cname : list RR) (qname : string) (qtype : Z) (addresses : list Addr) m : Msg RR :=
  SetReply (with_Answer (cname ++ (addresses ≫= address_records qname qtype)) new_response) m.

(** The last two labels: the device and its owner. *)
Fixpoint last_two (parts : list string) : option (string * string) :=
  match parts with
  | [device; owner] => Some (device, owner)
  | _ :: parts => last_two parts
  | [] => None
  end.
Definition auth_Lookup (d : DNSAuth) m : result (Msg RR) :=
  match DQuestion m with
  | [question] =>
      fail! (PlainError "only class INET allowed") when negb (Qclass question =? ClassINET);
      let qname := q_Name question in
      let qtype := Qtype question in
      let parts := SplitDomainName (deviceAndOwner (auth_Domain d) qname) in
      match parts with
      | [] => Ok (answer_with [] qname qtype (getDevice "" "" d) m)
      | _ =>
          match last_two parts with
          | None => Ok (SetReply new_response m)
          | Some (device, owner) =>
              let aliased := (2 <? Z.of_nat (List.length parts)) in
              let target := device +:+ "." +:+ owner +:+ "." +:+ auth_Domain d in
              let? cname := (if aliased then let? rr := newRR qname TypeCNAME target in Ok [rr] else Ok []) in
              let addresses := getDevice owner device d in
              if bool_decide (addresses = [])
              then Ok (SetRcode (with_Answer cname new_response) m RcodeNameError)
              else Ok (answer_with cname (if aliased then target else qname) qtype addresses m)
          end
      end
  | _ => Err (PlainError "only one question per packet allowed")
  end.

(** What the client gets: a failure is a SERVFAIL. *)
Definition empty_msg : Msg RR := mkMsg 0 0 false false false false 0 [] [] [] [].
Definition HandleFailed m : Msg RR := SetRcode empty_msg m RcodeServerFailure.
Definition auth_ServeDNS (d : DNSAuth) m : Msg RR :=
  if Opcode m =? OpcodeQuery then
    match auth_Lookup d m with Ok response => response | Err _ => HandleFailed m end
  else SetReply empty_msg m.
End auth.

(** ** dns.go: the zone of the devices *)
(** Devices that cannot be read leave only the server in it. *)
Definition zone_of (devices : list Device) (vpnips : list Addr) : Zone :=
  <[("", "") := vpnips]> (fold_left (λ z device,
    <[(Device.Owner device, Device.Name device) := (ParseAddresses (Device.Address device)).1]> z) devices ∅).
Definition generateZone {S} `{Storage S} (vpnips : list Addr) : M S Zone :=
  let! devs := m_try ListAllDevices in
  m_ret (zone_of (match devs with Ok l => l | Err _ => [] end) vpnips).
