(* ===== verification/DnsProxy.v ===== *)
(** * internal/dnsproxy/proxy.go and server.go, cmd/serve/dns.go: the DNS server

    The cache of responses, the upstream servers with their cooldown, and the
    answer a client gets. What time it is belongs to the state of the proxy: an
    exchange with an upstream server takes as long as it takes. The exchanges,
    like the messages, are third-party code: a class of parameters. At the end,
    how the zone is kept in step with the devices ([zoneUpdater] of dns.go). *)
From S2P Require Import Prelude GoText GoNet Netip Limiter Storage Dns.

Definition upstreamCooldown : Z := 30 * 10 ^ 9.
Definition MinMsgSize : Z := 512.
Definition MaxMsgSize : Z := 65535.

(** The UDP and the TCP client: the target, the query, the time it is sent;
    the answer, and the time it is there. *)
Class Exchanges (RR : Type) := {
  udp_Exchange : string → Msg RR → M Time (Msg RR);
  tcp_Exchange : string → Msg RR → M Time (Msg RR);
  udp_takes target m t : t <= (udp_Exchange target m t).2;
  tcp_takes target m t : t <= (tcp_Exchange target m t).2 }.

Record cachedResponse (RR : Type) := mkCachedResponse { response : Msg RR; expiresAt : Time }.
Arguments mkCachedResponse {RR} _ _. Arguments response {RR} _. Arguments expiresAt {RR} _.

(** [DNSProxy]; no cache when caching is turned off. *)
Record DNSProxy (C : Type) := mkProxy {
  p_cache : option C;
  upstream : list string;
  failedAt : gmap string Time;
  clock : Time }.
Arguments mkProxy {C} _ _ _ _. Arguments p_cache {C} _. Arguments upstream {C} _.
Arguments failedAt {C} _. Arguments clock {C} _.

Section proxy.
  Context {RR C : Type} `{DNSLib RR, LowerTable, Exchanges RR, LRU (cachedResponse RR) C}.
  Implicit Types (m : Msg RR) (s : DNSProxy C).

(** ** Keys *)
Definition has_do m : bool := match IsEdns0 m with Some opt => opt_Do opt | None => false end.
Definition key_flags m : Z :=
  Z.lor (if AuthenticatedData m then 1 else 0)
    (Z.lor (if CheckingDisabled m then 2 else 0) (if has_do m then 4 else 0)).
(** Indexing the questions of a message that has none panics. *)
Definition makekey m : result string :=
  match DQuestion m with
  | [] => Err (Panic "index out of range")
  | q :: _ => Ok (q_Name q +:+ ":" +:+ Itoa (Qtype q) +:+ ":" +:+ Itoa (Qclass q) +:+ ":" +:+ Itoa (key_flags m))
  end.

(** ** What is done to a message *)
(** The smallest TTL of the records of a message; [uint32] seconds. *)
Definition min_of (found : option Z) (rr : RR) : option Z :=
  if Rrtype rr =? TypeOPT then found
  else Some (let least := default (2 ^ 32 - 1) found in if Ttl rr <? least then Ttl rr else least).
Definition records m : list RR := Answer m ++ Ns m ++ Extra m.
Definition minTTL m : Z :=
  match fold_left min_of (records m) None with None => 0 | Some least => least * 10 ^ 9 end.

Definition purgeECS m : Msg RR :=
  match IsEdns0 m with
  | Some opt => with_OPT (mkOPT (filter (λ o, o.1 ≠ EDNS0SUBNET) (opt_Options opt)) (opt_Do opt) (opt_UDPSize opt)) m
  | None => m
  end.
Definition ensureEDNS0BufSize m : Msg RR :=
  match IsEdns0 m with
  | Some opt => with_OPT (mkOPT (opt_Options opt) (opt_Do opt) 1232) m
  | None => SetEdns0 1232 false m
  end.
Definition response_size (original : Msg RR) (transport : string) : Z :=
  if String.eqb transport "tcp" then MaxMsgSize
  else match IsEdns0 original with Some opt => opt_UDPSize opt | None => MinMsgSize end.
Definition truncateIfRequired (response original : Msg RR) (transport : string) : Msg RR :=
  Truncate (response_size original transport) response.
Definition with_Rcode (rcode : Z) m : Msg RR :=
  mkMsg (Id m) (Opcode m) (Authoritative m) (Truncated m) (AuthenticatedData m) (CheckingDisabled m) rcode
    (DQuestion m) (Answer m) (Ns m) (Extra m).

(** ** The upstream servers *)
Definition upstreamAddr (upstream : string) : string :=
  match SplitHostPort upstream with Some _ => upstream | None => JoinHostPort upstream "53" end.

Definition set_failedAt (f : gmap string Time) s : DNSProxy C := mkProxy (p_cache s) (upstream s) f (clock s).
Definition set_clock (t : Time) s : DNSProxy C := mkProxy (p_cache s) (upstream s) (failedAt s) t.
Definition set_p_cache (c : C) s : DNSProxy C := mkProxy (Some c) (upstream s) (failedAt s) (clock s).

Definition cooling s (u : string) : bool :=
  match failedAt s !! u with Some failed => clock s - failed <? upstreamCooldown | None => false end.
Definition orderedUpstreams : M (DNSProxy C) (list string) :=
  m_gets (λ s, filter (λ u, cooling s u = false) (upstream s) ++ filter (λ u, cooling s u = true) (upstream s)).
Definition markFailed (u : string) : M (DNSProxy C) unit :=
  m_modify (λ s, set_failedAt (<[u := clock s]> (failedAt s)) s).
Definition markHealthy (u : string) : M (DNSProxy C) unit :=
  m_modify (λ s, set_failedAt (delete u (failedAt s)) s).

(** An exchange happens in time; the rest of the proxy is not looked at. *)
Definition exchange m (u : string) : M Time (Msg RR) :=
  let target := upstreamAddr u in
  let! response := udp_Exchange target m in
  if Truncated response then m_wrap "retry over TCP failed" (tcp_Exchange target m) else m_ret response.

(** The loop over the upstream servers: the first answer, or the first error. *)
Fixpoint try_upstreams m (us : list string) (firstErr : option goerror) : M (DNSProxy C) (Msg RR) :=
  match us with
  | [] => m_fail match firstErr with
                 | Some e => WrappedError "no response from upstream servers" e
                 | None => PlainError "no upstream servers configured"
                 end
  | u :: us =>
      let! resp := m_try (zoom clock set_clock (exchange m u)) in
      match resp with
      | Err e => do! markFailed u; try_upstreams m us (Some (default e firstErr))
      | Ok response => do! markHealthy u; m_ret response
      end
  end.

(** ** Lookup *)
Definition cacheResponse (key : string) (r : Msg RR) : M (DNSProxy C) unit := λ s,
  match p_cache s with
  | None => (Ok tt, s)
  | Some c =>
      if bool_decide (Answer r = []) then (Ok tt, s)
      else if 0 <? minTTL r then (Ok tt, set_p_cache (lru_Add key (mkCachedResponse r (clock s + minTTL r)) c) s)
      else (Ok tt, s)
  end.
(** What the cache still holds; an entry past its time is dropped. *)
Definition cached (key : string) : M (DNSProxy C) (option (Msg RR)) := λ s,
  match p_cache s with
  | None => (Ok None, s)
  | Some c =>
      let '(entry, c') := lru_Get key c in
      match entry with
      | Some e => if clock s <? expiresAt e then (Ok (Some (response e)), set_p_cache c' s)
                  else (Ok None, set_p_cache (lru_Remove key c') s)
      | None => (Ok None, set_p_cache c' s)
      end
  end.
Definition Lookup m : M (DNSProxy C) (Msg RR) :=
  let! key := lift (makekey m) in
  let! hit := cached key in
  match hit with
  | Some r => m_ret r
  | None =>
      let! us := orderedUpstreams in
      let! r := try_upstreams m us None in
      do! cacheResponse key r; m_ret r
  end.

(** What the client is sent. A lookup that panics is recovered from, and
    answered like one that failed. *)
Definition ServeDNS (transport : string) (request : Msg RR) : M (DNSProxy C) (Msg RR) :=
  if Opcode request =? OpcodeQuery then
    let r := purgeECS request in
    let! looked := m_try (Lookup (ensureEDNS0BufSize r)) in
    match looked with
    | Err _ => m_ret (HandleFailed r)
    | Ok m => m_ret (truncateIfRequired (with_Rcode (Rcode m) (SetReply m r)) r transport)
    end
  else m_ret (SetReply empty_msg request).

(** ** server.go *)
Record DNSServerOpts := mkDNSServerOpts {
  opts_Domain : string; ListenAddr : list string; opts_Upstream : list string; CacheSize : Z }.
(** A listener: its address, its network and the UDP size it reads. *)
Record Listener := mkListener { l_Addr : string; l_Net : string; l_UDPSize : Z }.
Record DNSServer := mkDNSServer { servers : list Listener; proxy : DNSProxy C; auth : DNSAuth }.
Definition New (opts : DNSServerOpts) (now : Time) : result DNSServer :=
  fail! (PlainError "at least 1 upstream dns server is required for the dns proxy server to function")
    when bool_decide (opts_Upstream opts = []);
  Ok (mkDNSServer
    (ListenAddr opts ≫= λ addr, [mkListener addr "udp" 1232; mkListener addr "tcp" 0])
    (mkProxy (if 0 <? CacheSize opts then Some (lru_New (CacheSize opts)) else None) (opts_Upstream opts) ∅ now)
    (mkDNSAuth (Fqdn (opts_Domain opts)) ∅)).
(** The patterns of the multiplexer: the names answered here, then the rest. *)
Definition mux_patterns (opts : DNSServerOpts) : list string :=
  (if String.eqb (opts_Domain opts) "" then [] else [Fqdn (opts_Domain opts)]) ++ ["."].
Definition PushAuthZone (entries : list (ZoneKey * list Netip.Addr)) (d : DNSServer) : DNSServer :=
  mkDNSServer (servers d) (proxy d) (PushZone entries (auth d)).
(** The error of the first listener that does not shut down; all are tried. *)
Definition Close (shutdowns : list (result unit)) : result unit :=
  match omap (λ x, match x with Err e => Some e | Ok _ => None end) shutdowns with
  | [] => Ok tt
  | e :: _ => Err (WrappedError "DNS server shutdown failed" e)
  end.
End proxy.

(** ** Keeping the zone in step with the devices

    [zoneUpdater] and what [startDNS] connects it to, as a step relation: the
    devices change, each change sends a notification, the channel holds one,
    and a worker reads the devices and pushes the zone. *)
Inductive phase :=
  | Selecting                     (* in the select *)
  | Rebuilding                    (* rebuild called, the devices not read yet *)
  | Built (z : Zone)              (* [generateZone] returned *)
  | Returned.                     (* done is closed *)

(** The devices stored, the notifications on their way, the slot of [changed],
    whether [quit] is closed, the worker and the zone being answered from. *)
Record updater := mkUpdater {
  stored : list Device;
  on_their_way : nat;
  changed : bool;
  quit : bool;
  worker : phase;
  served : DNSAuth }.

Section updater.
  Context `{LowerTable} (vpnips : list Addr).

(** The zone pushed is [z]; the map is walked in some order. *)
Definition pushed (z : Zone) (before after : DNSAuth) : Prop :=
  ∃ entries, entries ≡ₚ map_to_list z ∧ after = PushZone entries before.

(** What goes on by itself. *)
Inductive settles : updater → updater → Prop :=
  | on_notify devs n c q w z :
      settles (mkUpdater devs (S n) c q w z) (mkUpdater devs n true q w z)
  | on_take devs n q z :
      settles (mkUpdater devs n true q Selecting z) (mkUpdater devs n false q Rebuilding z)
  | on_generate devs n c q z :
      settles (mkUpdater devs n c q Rebuilding z) (mkUpdater devs n c q (Built (zone_of devs vpnips)) z)
  | on_push devs n c q zone z z' : pushed zone z z' →
      settles (mkUpdater devs n c q (Built zone) z) (mkUpdater devs n c q Selecting z').

(** And what happens to it: a device added, changed or deleted. *)
Inductive changes : updater → updater → Prop :=
  | on_change devs devs' n c q w z :
      changes (mkUpdater devs n c q w z) (mkUpdater devs' (S n) c q w z).
(** The devices could not be read; the server stops. *)
Inductive breaks : updater → updater → Prop :=
  | on_unreadable devs n c q z :
      breaks (mkUpdater devs n c q Rebuilding z) (mkUpdater devs n c q (Built (zone_of [] vpnips)) z)
  | on_stop devs n c q w z :
      breaks (mkUpdater devs n c q w z) (mkUpdater devs n c true w z)
  | on_return devs n c z :
      breaks (mkUpdater devs n c true Selecting z) (mkUpdater devs n c true Returned z).

(** [startDNS]: the zone is built once before the updater listens. *)
Definition starts (d : DNSAuth) (devs : list Device) (u : updater) : Prop :=
  ∃ z, pushed (zone_of devs vpnips) d z ∧ u = mkUpdater devs 0 false false Selecting z.

(** Running without a failure, and not stopped. *)
Definition goes (u u' : updater) : Prop := settles u u' ∨ changes u u'.
Definition running (u : updater) : Prop := ∃ d devs u0, starts d devs u0 ∧ rtc goes u0 u.

(** ** The zone is that of the devices *)
Definition up_to_date (u : updater) : Prop := ∃ before, pushed (zone_of (stored u) vpnips) before (served u).
(** A change the worker has not taken note of yet. *)
Definition noted (u : updater) : Prop := (0 < on_their_way u)%nat ∨ changed u = true.
Definition in_step (u : updater) : Prop :=
  match worker u with
  | Selecting => up_to_date u ∨ noted u
  | Rebuilding => True
  | Built z => z = zone_of (stored u) vpnips ∨ noted u
  | Returned => False
  end.

Lemma in_step_settles u u' : settles u u' → in_step u → in_step u'.
Proof.
  unfold in_step, noted, up_to_date. destruct 1 as [devs n c q w z| | |devs n c q zone z z' Hz]; simpl.
  - destruct w; naive_solver.
  - done.
  - by left.
  - intros [->|Hn]; [|by right]. left. by exists z.
Qed.
Lemma in_step_goes u u' : goes u u' → in_step u → in_step u'.
Proof.
  intros [Hs|Hc]; [by apply in_step_settles|]. destruct Hc as [devs devs' n c q w z].
  unfold in_step, noted. simpl. destruct w; try done; intros _; right; left; lia.
Qed.
Lemma running_in_step u : running u → in_step u.
Proof.
  intros (d & devs & u0 & (z & Hz & ->) & Hgo).
  assert (in_step (mkUpdater devs 0 false false Selecting z)) as H0 by (left; by exists d).
  induction Hgo as [|u1 u2 u3 Hstep _ IH]; [done|]. apply IH. by eapply in_step_goes.
Qed.

(** ** How much is left to do *)
Definition steps_left (u : updater) : nat :=
  (4 * on_their_way u + (if changed u then 3 else 0) +
   match worker u with Rebuilding => 2 | Built _ => 1 | _ => 0 end)%nat.
Lemma settles_less u u' : settles u u' → (steps_left u' < steps_left u)%nat ∧ stored u' = stored u.
Proof. destruct 1 as [? ? c| | |]; unfold steps_left; simpl; (split; [|done]); try destruct c; lia. Qed.
Lemma settles_nsteps n u u' : nsteps settles n u u' → (n + steps_left u' <= steps_left u)%nat ∧ stored u' = stored u.
Proof.
  induction 1 as [u|n u1 u2 u3 H1 _ [IHn IHs]]; [split; [lia|done]|].
  apply settles_less in H1 as [? E]. split; [lia|]. by rewrite IHs.
Qed.
(** Something goes on by itself unless everything noted is done. *)
Lemma settles_or_settled u : worker u ≠ Returned → (∃ u', settles u u') ∨ (worker u = Selecting ∧ ¬ noted u).
Proof.
  destruct u as [devs n c q w z]. unfold noted. simpl. intros Hw.
  destruct n as [|n]; [|left; eexists; constructor].
  destruct w; [|left; eexists; constructor|left; eexists; econstructor; by eexists|done].
  destruct c; [left; eexists; constructor|]. right. split; [done|]. intros [?|?]; [lia|done].
Qed.
Lemma catches_up u : in_step u →
  ∃ n u', nsteps settles n u u' ∧ worker u' = Selecting ∧ ¬ noted u'.
Proof.
  remember (steps_left u) as k eqn:Hk. revert u Hk. induction (lt_wf k) as [k _ IH]. intros u -> Hu.
  destruct (settles_or_settled u) as [[u1 H1]|?]; [unfold in_step in Hu; by destruct (worker u)| |by exists 0%nat, u; split; [constructor|]].
  destruct (IH (steps_left u1) ltac:(by apply settles_less) u1 eq_refl) as (n & u' & Hn & ?); [by eapply in_step_settles|].
  exists (S n), u'. split; [by econstructor|done].
Qed.
End updater.
