(* ===== verification/DnsSpecs.v ===== *)
(** * What the DNS server guarantees: lemmas

    What is found in the zone made of the devices, how a query name comes apart,
    which queries share a place in the cache, and what the loop over the
    upstream servers does. *)
From S2P Require Import Prelude GoText GoNet Netip Network TextFacts Encoding Storage Dns Limiter.
From S2P Require Import DnsProxy.

(** ** A map filled by a loop *)
(** What a loop of insertions leaves under a key is what the last one put there. *)
Lemma filled_lookup {K A V} `{Countable K} (f : A → K) (g : A → V) l (z : gmap K V) k v :
  fold_left (λ z a, <[f a := g a]> z) l z !! k = Some v →
  (∃ a, a ∈ l ∧ f a = k ∧ g a = v) ∨ (z !! k = Some v ∧ ∀ a, a ∈ l → f a ≠ k).
Proof.
  revert z. induction l as [|a l IH]; intros z Hv; simpl in Hv; [right; split; [done|]; set_solver|].
  apply IH in Hv as [(b & Hb & ?)|[Hv Hl]]; [left; exists b; set_solver|].
  destruct (decide (f a = k)) as [Hk|Hk].
  - left. exists a. subst k. rewrite lookup_insert_eq in Hv. injection Hv as Hv. set_solver.
  - right. rewrite lookup_insert_ne in Hv by done. set_solver.
Qed.
Lemma filled_some {K A V} `{Countable K} (f : A → K) (g : A → V) l (z : gmap K V) k :
  (∃ a, a ∈ l ∧ f a = k) ∨ is_Some (z !! k) → is_Some (fold_left (λ z a, <[f a := g a]> z) l z !! k).
Proof.
  revert z. induction l as [|a l IH]; intros z Hk; simpl.
  { destruct Hk as [(a & Ha & _)|?]; [set_solver|done]. }
  apply IH. destruct (decide (f a = k)) as [<-|Hne].
  - right. by rewrite lookup_insert_eq.
  - rewrite lookup_insert_ne by done. destruct Hk as [(b & [->|Hb]%elem_of_cons & Hf)|?]; [done|left; by exists b|by right].
Qed.

Section zone.
  Context `{LowerTable} (vpnips : list Addr).

(** The addresses of a device, as the zone has them. *)
Definition device_addresses (d : Device) : list Addr := (ParseAddresses (Device.Address d)).1.
(** Two names DNS does not tell apart. *)
Definition same_name (d : Device) (device owner : string) : Prop :=
  ToLower (Device.Name d) = ToLower device ∧ ToLower (Device.Owner d) = ToLower owner.

Lemma zone_of_lookup devs key l : zone_of devs vpnips !! key = Some l →
  (key = ("", "") ∧ l = vpnips) ∨ (key ≠ ("", "") ∧ ∃ d, d ∈ devs ∧ Device.key d = key ∧ device_addresses d = l).
Proof.
  unfold zone_of. destruct (decide (key = ("", ""))) as [->|Hne].
  - rewrite lookup_insert_eq. intros [= <-]. by left.
  - rewrite lookup_insert_ne by done. intros Hl. right. split; [done|].
    apply filled_lookup in Hl as [?|[Hl _]]; [done|]. by rewrite lookup_empty in Hl.
Qed.
Lemma zone_of_some devs d : d ∈ devs → is_Some (zone_of devs vpnips !! Device.key d).
Proof.
  intros Hd. unfold zone_of. destruct (decide (Device.key d = ("", ""))) as [->|Hne]; [by rewrite lookup_insert_eq|].
  rewrite lookup_insert_ne by done. apply filled_some. left. by exists d.
Qed.

Lemma folded_lookup (entries : list (ZoneKey * list Addr)) k l : folded entries !! k = Some l →
  ∃ e, e ∈ entries ∧ fold_key e.1 = k ∧ e.2 = l.
Proof.
  intros Hl. unfold folded in Hl.
  destruct (filled_lookup (λ e : ZoneKey * list Addr, fold_key e.1) snd entries ∅ k l Hl) as [?|[E _]]; [done|].
  by rewrite lookup_empty in E.
Qed.
Lemma folded_some (entries : list (ZoneKey * list Addr)) e : e ∈ entries → is_Some (folded entries !! fold_key e.1).
Proof. intros He. unfold folded. apply (filled_some (λ e : ZoneKey * list Addr, fold_key e.1) snd entries ∅). left. by exists e. Qed.

(** What a lookup in the pushed zone can find, whatever order the map was walked in. *)
Lemma served_lookup devs entries domain device owner :
  entries ≡ₚ map_to_list (zone_of devs vpnips) →
  let found := getDevice owner device (mkDNSAuth domain (folded entries)) in
  (found = [] ∧ (∀ d, d ∈ devs → ¬ same_name d device owner)) ∨
  (found = vpnips ∧ ToLower owner = ToLower "" ∧ ToLower device = ToLower "") ∨
  (∃ d, d ∈ devs ∧ same_name d device owner ∧ found = device_addresses d).
Proof.
  intros He. unfold getDevice. simpl. destruct (folded entries !! _) as [l|] eqn:El; simpl.
  - apply folded_lookup in El as ([key l'] & Hin & Hk & <-).
    rewrite He in Hin. apply elem_of_map_to_list in Hin. unfold fold_key in Hk. simpl in Hk. injection Hk as Hk1 Hk2.
    apply zone_of_lookup in Hin as [[-> ->]|(_ & d & Hd & <- & <-)]; [by right; left|].
    right. right. exists d. split; [done|]. by split; [split|].
  - left. split; [done|]. intros d Hd [Hn Ho]. destruct (zone_of_some devs d Hd) as [l Hl].
    destruct (folded_some entries (Device.key d, l)) as [? Hf]; [by rewrite He; apply elem_of_map_to_list|].
    unfold fold_key in Hf. simpl in Hf. rewrite Hn, Ho in Hf. congruence.
Qed.
(** A name one device alone has is that device's. *)
Lemma served_device devs entries domain device owner d :
  entries ≡ₚ map_to_list (zone_of devs vpnips) → d ∈ devs → same_name d device owner →
  (∀ d', d' ∈ devs → same_name d' device owner → d' = d) → ToLower device ≠ ToLower "" →
  getDevice owner device (mkDNSAuth domain (folded entries)) = device_addresses d.
Proof.
  intros He Hd Hs Hu Hne. destruct (served_lookup devs entries domain device owner He) as [[_ Hno]|[(_ & _ & ?)|(d' & Hd' & Hs' & ->)]].
  - by apply Hno in Hs.
  - done.
  - by rewrite (Hu d').
Qed.
Lemma served_nobody devs entries domain device owner :
  entries ≡ₚ map_to_list (zone_of devs vpnips) → (∀ d, d ∈ devs → ¬ same_name d device owner) →
  ToLower device ≠ ToLower "" → getDevice owner device (mkDNSAuth domain (folded entries)) = [].
Proof.
  intros He Hno Hne. destruct (served_lookup devs entries domain device owner He) as [[-> _]|[(_ & _ & ?)|(d' & Hd' & Hs' & _)]]; [done..|].
  by apply Hno in Hs'.
Qed.
Lemma served_server devs entries domain :
  entries ≡ₚ map_to_list (zone_of devs vpnips) → (∀ d, d ∈ devs → ¬ same_name d "" "") →
  getDevice "" "" (mkDNSAuth domain (folded entries)) = vpnips.
Proof.
  intros He Hno. destruct (folded_some entries (("", ""), vpnips)) as [l Hl].
  { rewrite He. apply elem_of_map_to_list. unfold zone_of. by rewrite lookup_insert_eq. }
  unfold getDevice. simpl. unfold fold_key in Hl. cbn [fst snd] in Hl. rewrite Hl. simpl.
  apply folded_lookup in Hl as ([key l'] & Hin & Hk & <-). rewrite He in Hin. apply elem_of_map_to_list, zone_of_lookup in Hin as [[-> ->]|(_ & d & Hd & <- & <-)]; [done|].
  exfalso. unfold fold_key in Hk. simpl in Hk. injection Hk as Ho Hn. by apply (Hno d Hd).
Qed.
End zone.

(** ** Names in a query *)
Lemma ToLower_ne `{LowerTable} s : plain_label s = true → ToLower s ≠ ToLower "".
Proof.
  unfold plain_label, ToLower. rewrite !andb_true_iff. intros [[[Hs Ha] _] _]. rewrite Ha. simpl.
  destruct (bytes s) eqn:E; [|done]. destruct s; [done|]. done.
Qed.
Lemma last_two_end l device owner : last_two (l ++ [device; owner]) = Some (device, owner).
Proof.
  induction l as [|x l IH]; [done|]. simpl. destruct (l ++ [device; owner]) as [|y l'] eqn:E; [by destruct l|].
  destruct l' as [|z l']; [|done]. apply (f_equal List.length) in E. rewrite length_app in E. simpl in E. lia.
Qed.

(** The text of labels before a domain. *)
Definition dotted (labels : list string) : string := foldr (λ l s, l +:+ "." +:+ s) "" labels.
Lemma dotted_Join labels : labels ≠ [] → dotted labels = Join labels "." +:+ ".".
Proof.
  induction labels as [|l labels IH]; [done|]. intros _. change (dotted (l :: labels)) with (l +:+ "." +:+ dotted labels).
  destruct labels as [|l' labels]; [done|].
  - rewrite IH by done. change (Join (l :: l' :: labels) ".") with (l +:+ "." +:+ Join (l' :: labels) ".").
    apply bytes_inj. rewrite !bytes_app. by rewrite <- !app_assoc.
Qed.

Section queries.
  Context {RR : Type} `{DNSLib RR, LowerTable}.
  Implicit Types (m : Msg RR).

Lemma EqualFold_length s t : EqualFold s t = true → String.length s = String.length t.
Proof.
  unfold EqualFold. rewrite bool_decide_eq_true. intros E. apply (f_equal List.length) in E.
  by rewrite !length_fmap, !length_bytes in E.
Qed.
(** The domain is cut off whatever its case. *)
Lemma deviceAndOwner_cut x dom domain : EqualFold dom domain = true → deviceAndOwner domain (x +:+ dom) = x.
Proof.
  intros E. pose proof (EqualFold_length _ _ E) as Hl. unfold deviceAndOwner, slen.
  assert (String.length (x +:+ dom) = (String.length x + String.length dom)%nat) as ->.
  { rewrite <- !length_bytes, bytes_app. apply length_app. }
  replace (String.length x + String.length dom - String.length domain)%nat with (List.length (bytes x)) by (rewrite length_bytes; lia).
  rewrite bytes_app, drop_app_length, take_app_length, !of_bytes_bytes, E.
  by rewrite (proj2 (Z.leb_le _ _)) by lia.
Qed.
Lemma split_dotted labels : Forall (λ l, plain_label l = true) labels → SplitDomainName (dotted labels) = labels.
Proof.
  intros Hl. destruct labels as [|l labels]; [apply split_root|]. rewrite dotted_Join by done. by apply split_labels.
Qed.
Lemma cut_and_split labels dom domain : EqualFold dom domain = true → Forall (λ l, plain_label l = true) labels →
  SplitDomainName (deviceAndOwner domain (dotted labels +:+ dom)) = labels.
Proof. intros. rewrite deviceAndOwner_cut by done. by apply split_dotted. Qed.

(** A query for one name, below the domain. *)
Definition asks m (labels : list string) (dom : string) (qtype : Z) : Prop :=
  Opcode m = OpcodeQuery ∧ DQuestion m = [mkQuestion (dotted labels +:+ dom) qtype ClassINET] ∧
  Forall (λ l, plain_label l = true) labels.
Lemma answer_with_spec cname qname qtype addresses m :
  let reply := answer_with cname qname qtype addresses m in
  Id reply = Id m ∧ Rcode reply = RcodeSuccess ∧ Authoritative reply = true ∧
  Answer reply = cname ++ (addresses ≫= address_records qname qtype).
Proof.
  unfold answer_with. destruct (reply_keeps (with_Answer (cname ++ (addresses ≫= address_records qname qtype)) new_response) m) as (-> & -> & -> & _).
  by rewrite reply_rcode.
Qed.
Lemma auth_one d m labels dom qtype : asks m labels dom qtype → EqualFold dom (auth_Domain d) = true →
  auth_ServeDNS d m = match
    match labels with
    | [] => Ok (answer_with [] (dotted labels +:+ dom) qtype (getDevice "" "" d) m)
    | _ => match last_two labels with
           | None => Ok (SetReply new_response m)
           | Some (device, owner) =>
               let target := device +:+ "." +:+ owner +:+ "." +:+ auth_Domain d in
               let aliased := (2 <? Z.of_nat (List.length labels)) in
               let? cname := (if aliased then let? rr := newRR (dotted labels +:+ dom) TypeCNAME target in Ok [rr] else Ok []) in
               if bool_decide (getDevice owner device d = [])
               then Ok (SetRcode (with_Answer cname new_response) m RcodeNameError)
               else Ok (answer_with cname (if aliased then target else dotted labels +:+ dom) qtype (getDevice owner device d) m)
           end
    end with Ok r => r | Err _ => HandleFailed m end.
Proof.
  intros (Ho & Hq & Hl) Hd. unfold auth_ServeDNS, auth_Lookup. rewrite Ho, Hq. cbn [Qclass q_Name Qtype Z.eqb OpcodeQuery].
  change (negb (ClassINET =? ClassINET)) with false. cbv iota zeta. rewrite cut_and_split by done. by destruct labels.
Qed.
(** The alias a query below a device is answered with, and the name it leads to. *)
Definition alias (sub : list string) (qname target : string) : result (list RR) :=
  if bool_decide (sub = []) then Ok [] else let? rr := newRR qname TypeCNAME target in Ok [rr].
Definition answered_name (sub : list string) (qname target : string) : string :=
  if bool_decide (sub = []) then qname else target.

Lemma auth_domain d m dom qtype : asks m [] dom qtype → EqualFold dom (auth_Domain d) = true →
  auth_ServeDNS d m = answer_with [] (dotted [] +:+ dom) qtype (getDevice "" "" d) m.
Proof. intros. by rewrite (auth_one d m [] dom qtype). Qed.
Lemma auth_owner d m owner dom qtype : asks m [owner] dom qtype → EqualFold dom (auth_Domain d) = true →
  auth_ServeDNS d m = SetReply new_response m.
Proof. intros. by rewrite (auth_one d m [owner] dom qtype). Qed.
Lemma auth_device d m sub device owner dom qtype cname :
  asks m (sub ++ [device; owner]) dom qtype → EqualFold dom (auth_Domain d) = true →
  let qname := dotted (sub ++ [device; owner]) +:+ dom in
  let target := device +:+ "." +:+ owner +:+ "." +:+ auth_Domain d in
  alias sub qname target = Ok cname →
  auth_ServeDNS d m =
    if bool_decide (getDevice owner device d = []) then SetRcode (with_Answer cname new_response) m RcodeNameError
    else answer_with cname (answered_name sub qname target) qtype (getDevice owner device d) m.
Proof.
  intros Hm Hd qname target Hc. rewrite (auth_one d m _ dom qtype) by done. fold qname.
  assert (∀ {A} (f : A) g, match sub ++ [device; owner] with [] => f | _ :: _ => g end = g) as -> by (by destruct sub).
  rewrite last_two_end. cbn zeta. fold target.
  assert ((2 <? Z.of_nat (List.length (sub ++ [device; owner]))) = negb (bool_decide (sub = []))) as ->.
  { rewrite length_app. destruct sub; [done|]. simpl. apply Z.ltb_lt. lia. }
  unfold alias, answered_name in *. destruct (bool_decide (sub = [])); simpl negb; cbv iota.
  - injection Hc as <-. simpl. by case_bool_decide.
  - rewrite Hc. simpl. by case_bool_decide.
Qed.
(** Whatever comes of it, the reply carries the id of the query. *)
Lemma auth_id d m labels dom qtype : asks m labels dom qtype → EqualFold dom (auth_Domain d) = true →
  Id (auth_ServeDNS d m) = Id m.
Proof.
  intros Hm Hd. rewrite (auth_one d m labels dom qtype) by done. cbn zeta.
  assert (∀ c q t a, Id (answer_with (RR := RR) c q t a m) = Id m) as Ha by (intros; apply answer_with_spec).
  assert (∀ r c, Id (SetRcode (RR := RR) r m c) = Id m) as Hs by (intros; apply rcode_set).
  assert (Id (SetReply new_response m) = Id m) as Hr by apply reply_keeps.
  destruct labels as [|l labels]; [done|]. destruct (last_two _) as [[device owner]|]; [|done].
  destruct (if _ <? _ then _ else _) as [cname|e]; simpl; [|apply Hs]. case_bool_decide; done.
Qed.
End queries.

(** ** Keys of the cache *)
Section keys.
  Context {RR : Type} `{DNSLib RR}.
  Implicit Types (m : Msg RR).

(** The fields of a question are 16 bits wide. *)
Definition wf_query m : Prop := Forall (λ q, 0 <= Qtype q < 2 ^ 16 ∧ 0 <= Qclass q < 2 ^ 16) (DQuestion m).
(** What a cached response is for. *)
Definition same_query m m' : Prop :=
  hd_error (DQuestion m) = hd_error (DQuestion m') ∧ AuthenticatedData m = AuthenticatedData m' ∧
  CheckingDisabled m = CheckingDisabled m' ∧ has_do m = has_do m'.

Lemma key_flags_inj m m' : key_flags m = key_flags m' →
  AuthenticatedData m = AuthenticatedData m' ∧ CheckingDisabled m = CheckingDisabled m' ∧ has_do m = has_do m'.
Proof.
  unfold key_flags. destruct (AuthenticatedData m), (CheckingDisabled m), (has_do m),
    (AuthenticatedData m'), (CheckingDisabled m'), (has_do m'); vm_compute; intros E; done.
Qed.
Lemma key_flags_range m : 0 <= key_flags m < 8.
Proof. unfold key_flags. by destruct (AuthenticatedData m), (CheckingDisabled m), (has_do m). Qed.
Lemma app_assoc_string (x y z : string) : (x +:+ y) +:+ z = x +:+ y +:+ z.
Proof. apply bytes_inj. rewrite !bytes_app. by rewrite app_assoc. Qed.
(** Two queries share a place in the cache exactly when they ask the same. *)
Lemma makekey_inj m m' key : wf_query m → wf_query m' → makekey m = Ok key → makekey m' = Ok key → same_query m m'.
Proof.
  unfold makekey, wf_query, same_query. destruct (DQuestion m) as [|[n t c] l], (DQuestion m') as [|[n' t' c'] l']; try done.
  intros [[Ht Hc] _]%Forall_cons [[Ht' Hc'] _]%Forall_cons. simpl in *. intros [= <-] [= E]. symmetry in E.
  rewrite <- !(app_assoc_string ":"), <- !app_assoc_string in E.
  pose proof (key_flags_range m). pose proof (key_flags_range m').
  rewrite !(app_assoc_string _ ":") in E.
  apply numbered_inj in E as [E Ef]; [|lia..]. apply numbered_inj in E as [E ->]; [|lia..].
  apply numbered_inj in E as [-> ->]; [|lia..]. apply key_flags_inj in Ef as (? & ? & ?). done.
Qed.

(** ** The time a response may be kept *)
Definition counts (rr : RR) : Prop := Rrtype rr ≠ TypeOPT.
Lemma min_of_fold l found : match found with Some least => 0 <= least < 2 ^ 32 | None => True end →
  match fold_left min_of l found with
  | Some least => 0 <= least < 2 ^ 32 ∧ least <= default (2 ^ 32 - 1) found ∧ (∀ rr, rr ∈ l → counts rr → least <= Ttl rr) ∧
      (found = Some least ∨ ∃ rr, rr ∈ l ∧ counts rr ∧ Ttl rr = least)
  | None => found = None ∧ ∀ rr, rr ∈ l → ¬ counts rr
  end.
Proof.
  revert found. induction l as [|rr l IH]; intros found Hf; simpl.
  { destruct found as [least|]; [split; [done|]; split; [done|]; split; [set_solver|by left]|]. split; [done|set_solver]. }
  pose proof (ttl_range rr) as Ht. unfold min_of at 2. destruct (Z.eqb_spec (Rrtype rr) TypeOPT) as [Ho|Ho].
  - specialize (IH found Hf). destruct (fold_left min_of l found) as [least|].
    + destruct IH as (? & ? & Hl & Hor). split; [done|]. split; [done|]. split.
      * by intros rr' [->|?]%elem_of_cons; [|apply Hl].
      * destruct Hor as [?|(rr' & ? & ?)]; [by left|right; exists rr'; set_solver].
    + destruct IH as [-> Hl]. split; [done|]. by intros rr' [->|?]%elem_of_cons; [intros []|apply Hl].
  - set (least0 := if Ttl rr <? default (2 ^ 32 - 1) found then Ttl rr else default (2 ^ 32 - 1) found).
    assert (0 <= least0 < 2 ^ 32 ∧ least0 <= default (2 ^ 32 - 1) found ∧ least0 <= Ttl rr ∧ (found = Some least0 ∨ Ttl rr = least0)) as (H0 & H1 & H2 & H3).
    { unfold least0. destruct found as [x|]; simpl; destruct (Z.ltb_spec (Ttl rr) x) || destruct (Z.ltb_spec (Ttl rr) (2 ^ 32 - 1));
        repeat split; try lia; try (by left); right; lia. }
    specialize (IH (Some least0) H0). change (default (2 ^ 32 - 1) (Some least0)) with least0 in IH.
    destruct (fold_left min_of l (Some least0)) as [least|]; [|by destruct IH].
    destruct IH as (? & ? & Hl & Hor). split; [done|]. split; [lia|]. split.
    + intros rr' [->|?]%elem_of_cons; [lia|by apply Hl].
    + destruct Hor as [[= <-]|(rr' & ? & ?)]; [|right; exists rr'; set_solver].
      destruct H3 as [?|?]; [by left|right; exists rr; set_solver].
Qed.
(** The smallest TTL of the records that have one, zero without any, and never
    more than an int64 of nanoseconds. *)
Lemma minTTL_spec m : 0 <= minTTL m < 2 ^ 63 ∧ (∀ rr, rr ∈ records m → counts rr → minTTL m <= Ttl rr * 10 ^ 9) ∧
  ((∃ rr, rr ∈ records m ∧ counts rr ∧ minTTL m = Ttl rr * 10 ^ 9) ∨ (minTTL m = 0 ∧ ∀ rr, rr ∈ records m → ¬ counts rr)).
Proof.
  unfold minTTL. pose proof (min_of_fold (records m) None I) as Hm. destruct (fold_left _ _ _) as [least|].
  - destruct Hm as (? & _ & Hl & [?|(rr & ? & ? & Hr)]); [done|]. split; [lia|]. split.
    + intros rr' Hin Hc. specialize (Hl rr' Hin Hc). lia.
    + left. exists rr. rewrite Hr. done.
  - destruct Hm as [_ Hl]. split; [lia|]. split; [intros rr Hin Hc; by apply Hl in Hin|]. by right.
Qed.
End keys.

(** ** The upstream servers *)
Section upstreams.
  Context {RR C : Type} `{DNSLib RR, Exchanges RR, LRU (cachedResponse RR) C}.
  Implicit Types (m r : Msg RR) (s : DNSProxy C).

Lemma exchange_takes m u t res t' : exchange m u t = (res, t') → t <= t'.
Proof.
  unfold exchange, m_bind. pose proof (udp_takes (upstreamAddr u) m t) as Hu.
  destruct (udp_Exchange _ m t) as [[x|e] t1]; simpl in Hu; [|by intros [= _ <-]].
  destruct (Truncated x); [|by intros [= _ <-]]. unfold m_wrap. pose proof (tcp_takes (upstreamAddr u) m t1) as Ht.
  destruct (tcp_Exchange _ m t1). simpl in Ht. intros [= _ <-]. lia.
Qed.

(** An upstream server that failed between two times, as the proxy remembers it. *)
Definition failed_between s (from to : Time) (u : string) : Prop := ∃ t, failedAt s !! u = Some t ∧ from <= t <= to.
(** It was asked, and failed. *)
Definition refuses m (u : string) (from : Time) : Prop := ∃ t e t', from <= t ∧ exchange m u t = (Err e, t').
Definition same_setting s s' : Prop := p_cache s' = p_cache s ∧ upstream s' = upstream s ∧ clock s <= clock s'.

Lemma try_upstreams_spec m us firstErr s res s' : try_upstreams m us firstErr s = (res, s') →
  same_setting s s' ∧
  match res with
  | Ok r => ∃ failed u rest t, us = failed ++ u :: rest ∧ clock s <= t ∧ exchange m u t = (Ok r, clock s') ∧
      failedAt s' !! u = None ∧
      (∀ v, v ∈ failed → refuses m v (clock s) ∧ (v ≠ u → failed_between s' (clock s) (clock s') v)) ∧
      (∀ v, v ∉ failed → v ≠ u → failedAt s' !! v = failedAt s !! v)
  | Err _ => (∀ v, v ∈ us → refuses m v (clock s) ∧ failed_between s' (clock s) (clock s') v) ∧
      (∀ v, v ∉ us → failedAt s' !! v = failedAt s !! v)
  end.
Proof.
  revert firstErr s. induction us as [|u us IH]; intros firstErr s E; simpl in E.
  { injection E as <- <-. split; [split_and!; [done..|lia]|]. split; [set_solver|done]. }
  unfold m_bind at 1, m_try, zoom in E. destruct (exchange m u (clock s)) as [[r|e] t] eqn:Ex; simpl in E;
    pose proof (exchange_takes _ _ _ _ _ Ex) as Ht.
  - unfold m_bind, markHealthy, m_modify, m_ret in E. injection E as <- <-. split; [split_and!; [done..|simpl; lia]|].
    exists [], u, us, (clock s). simpl. split; [done|]. split; [lia|]. split; [done|]. split; [apply lookup_delete_eq|].
    split; [set_solver|]. intros v _ Hv. by rewrite lookup_delete_ne.
  - unfold m_bind at 1, markFailed, m_modify in E. apply IH in E as [(Hc & Hu & Hcl) E]. simpl in Hc, Hu, Hcl.
    split; [split_and!; [done..|lia]|].
    assert (∀ v, refuses m v t → refuses m v (clock s)) as Hweak.
    { intros v (t1 & e1 & t2 & ? & ?). exists t1, e1, t2. split; [lia|done]. }
    assert (refuses m u (clock s)) as Hself by (exists (clock s), e, t; split; [lia|done]).
    destruct res as [r|e'].
    + destruct E as (failed & w & rest & t1 & -> & ? & ? & ? & Hf & Hsame). simpl in *.
      exists (u :: failed), w, rest, t1. split; [done|]. split; [lia|]. split; [done|]. split; [done|]. split.
      * intros v Hv. destruct (decide (v ∈ failed)) as [Hin|Hin].
        -- destruct (Hf v Hin) as [? Hb]. split; [by apply Hweak|]. intros Hw. destruct (Hb Hw) as (t2 & ? & ?). exists t2. split; [done|lia].
        -- assert (v = u) as -> by set_solver. split; [done|]. intros Hw. exists t. rewrite Hsame by done.
           rewrite lookup_insert_eq. split; [done|lia].
      * intros v Hv Hw. rewrite Hsame by set_solver. apply lookup_insert_ne. set_solver.
    + destruct E as [Hf Hsame]. simpl in *. split.
      * intros v Hv. destruct (decide (v ∈ us)) as [Hin|Hin].
        -- destruct (Hf v Hin) as [? (t2 & ? & ?)]. split; [by apply Hweak|]. exists t2. split; [done|lia].
        -- assert (v = u) as -> by set_solver. split; [done|]. exists t. rewrite Hsame by done.
           rewrite lookup_insert_eq. split; [done|lia].
      * intros v Hv. rewrite Hsame by set_solver. apply lookup_insert_ne. set_solver.
Qed.

(** The order the upstream servers are tried in. *)
Lemma behind {A} (l k : list A) failed u rest : l ++ k = failed ++ u :: rest → u ∉ l → ∀ v, v ∈ l → v ∈ failed.
Proof.
  revert failed. induction l as [|x l IH]; intros failed E Hu v Hv; [set_solver|].
  destruct failed as [|y failed]; simpl in E; injection E as -> E; [set_solver|].
  apply elem_of_cons in Hv as [->|Hv]; [by left|]. right. apply (IH failed E); [set_solver|done].
Qed.
Lemma ordered_spec s us s' : orderedUpstreams s = (Ok us, s') →
  s' = s ∧ us ≡ₚ upstream s ∧
  ∀ failed u rest, us = failed ++ u :: rest → cooling s u = true → ∀ v, v ∈ upstream s → cooling s v = false → v ∈ failed.
Proof.
  unfold orderedUpstreams, m_gets. intros [= <- <-]. split; [done|]. split.
  - rewrite (Permutation_app_comm (filter (λ u, cooling s u = false) _)).
    rewrite (list_filter_iff (λ u, cooling s u = false) (λ u, ¬ cooling s u = true)); [|intros u; by destruct (cooling s u)].
    apply filter_app_complement.
  - intros failed u rest E Hu v Hv Hcv. apply (behind _ _ _ _ _ E).
    + rewrite list_elem_of_filter. by intros [? _]; congruence.
    + by apply list_elem_of_filter.
Qed.

(** ** What the cache gives back *)
Lemma cached_spec key s res s' : cached key s = (res, s') →
  upstream s' = upstream s ∧ failedAt s' = failedAt s ∧ clock s' = clock s ∧
  (∀ c', p_cache s' = Some c' → ∃ c, p_cache s = Some c ∧ kept c' ⊆ kept c) ∧
  ∃ hit, res = Ok hit ∧ ∀ r, hit = Some r →
    ∃ c e, p_cache s = Some c ∧ kept c !! key = Some e ∧ r = response e ∧ clock s < expiresAt e.
Proof.
  unfold cached. destruct (p_cache s) as [c|] eqn:Ec.
  - destruct (lru_Get key c) as [entry c1] eqn:Eg. apply lru_lookup in Eg as [-> Ek].
    destruct (kept c !! key) as [e|] eqn:Ee; [destruct (Z.ltb_spec (clock s) (expiresAt e))|].
    + intros [= <- <-]. repeat (split; [done|]). split; [|eexists; split; [done|]; intros r [= <-]; by exists c, e].
      intros c' [= <-]. exists c. by rewrite Ek.
    + intros [= <- <-]. repeat (split; [done|]). split; [|by eexists].
      intros c' [= <-]. exists c. split; [done|]. rewrite lru_remove, Ek. apply delete_subseteq.
    + intros [= <- <-]. repeat (split; [done|]). split; [|by eexists].
      intros c' [= <-]. exists c. by rewrite Ek.
  - intros [= <- <-]. repeat (split; [done|]). split; [|by eexists]. intros c' Ec'. by rewrite Ec in Ec'.
Qed.
Lemma cacheResponse_spec key r s res s' : cacheResponse key r s = (res, s') →
  res = Ok tt ∧ upstream s' = upstream s ∧ failedAt s' = failedAt s ∧ clock s' = clock s ∧
  ∀ c', p_cache s' = Some c' → ∃ c, p_cache s = Some c ∧
    kept c' ⊆ <[key := mkCachedResponse r (clock s + minTTL r)]> (kept c) ∨ p_cache s = Some c'.
Proof.
  unfold cacheResponse. destruct (p_cache s) as [c|] eqn:Ec; [case_bool_decide; [|destruct (0 <? minTTL r)]|];
    intros [= <- <-]; repeat (split; [done|]); intros c' Ec'; try (exists c'; right; congruence).
  injection Ec' as <-. exists c. left. split; [done|]. apply lru_add.
Qed.

Lemma Lookup_spec m s res s' : Lookup m s = (res, s') → DQuestion m ≠ [] →
  ∃ key, makekey m = Ok key ∧
  ((∃ c e, p_cache s = Some c ∧ kept c !! key = Some e ∧ clock s < expiresAt e ∧ res = Ok (response e) ∧
     upstream s' = upstream s ∧ failedAt s' = failedAt s ∧ clock s' = clock s ∧
     (∀ c', p_cache s' = Some c' → kept c' ⊆ kept c)) ∨
   (∃ us s1 s2, orderedUpstreams s1 = (Ok us, s1) ∧ upstream s1 = upstream s ∧ failedAt s1 = failedAt s ∧ clock s1 = clock s ∧
     (∀ c1, p_cache s1 = Some c1 → ∃ c, p_cache s = Some c ∧ kept c1 ⊆ kept c) ∧
     try_upstreams m us None s1 = (res, s2) ∧
     match res with Ok r => cacheResponse key r s2 = (Ok tt, s') | Err _ => s' = s2 end)).
Proof.
  unfold Lookup. intros E Hq. destruct (makekey m) as [key|e] eqn:Ek; [|by unfold makekey in Ek; destruct (DQuestion m)].
  exists key. split; [done|]. unfold lift in E. cbn [m_bind] in E. unfold m_bind at 1 in E.
  unfold m_bind at 1 in E. destruct (cached key s) as [hit s1] eqn:Eh.
  apply cached_spec in Eh as (Hu & Hf & Hcl & Hk & hit' & -> & Hhit). destruct hit' as [r|].
  - left. destruct (Hhit r eq_refl) as (c & e & Hc & He & -> & Ht). injection E as <- <-. exists c, e.
    repeat (split; [done|]). intros c' Hc'. destruct (Hk c' Hc') as (c0 & Hc0 & ?). by simplify_eq.
  - right. assert (∃ us, orderedUpstreams s1 = (Ok us, s1)) as [us Eo] by (by eexists).
    unfold m_bind at 1 in E. rewrite Eo in E. unfold m_bind at 1 in E.
    destruct (try_upstreams m us None s1) as [res' s2] eqn:Et. exists us, s1, s2.
    do 5 (split; [done|]).
    destruct res' as [r|e]; [|by injection E as <- <-].
    unfold m_bind in E. destruct (cacheResponse key r s2) as [o s3] eqn:Ec.
    pose proof (cacheResponse_spec _ _ _ _ _ Ec) as [-> _]. by injection E as <- <-.
Qed.
End upstreams.
