(* ===== verification/Routes.v ===== *)
(** * internal/devices/routes.go: the networks behind a device

    What an admin may route to a device, and what the firewall has to be built
    from: the routed networks and the members of the access policies. *)
From S2P Require Import Prelude GoText Netip NetipText NetipRoundTrip Network Storage AuthSession Devices.

Definition maxRoutesPerDevice : Z := 25.

(** [hostNetworks]: the addresses of this host as [net.InterfaceAddrs] reports
    them - the text of an [IPNet], or something else - are an argument. *)
Definition hostNetworks (addrs : result (list (option string))) : result (list Prefix) :=
  let? addrs := wrap "failed to read the addresses of this host" addrs in
  Ok (omap (λ addr, ipnet ← addr; Masked <$> ParsePrefix ipnet) addrs).

(** One turn of the loop of [normalizeRoutes]; [seen] are the networks kept so
    far, in order. *)
Definition normalize_one (seen : list Prefix) (route : string) : result (list Prefix) :=
  let route := TrimSpace route in
  if String.eqb route "" then Ok seen else
  match ParsePrefix route with
  | None => Err (ValidationError ("'" +:+ route
      +:+ "' is not a network in CIDR notation, like '192.168.5.0/24'."))
  | Some prefix =>
      fail! (ValidationError ("'" +:+ route
        +:+ "' is a default route. Name the networks behind the device instead."))
        when Bits prefix =? 0;
      let prefix := Masked prefix in
      if decide (prefix ∈ seen) then Ok seen else Ok (seen ++ [prefix])
  end.
Fixpoint normalize_loop (seen : list Prefix) (routes : list string) : result (list Prefix) :=
  match routes with
  | [] => Ok seen
  | route :: routes' => let? seen := normalize_one seen route in normalize_loop seen routes'
  end.
Definition normalizeRoutes (routes : list string) : result (list Prefix) :=
  fail! (ValidationError ("A device may have at most " +:+ Itoa maxRoutesPerDevice
          +:+ " networks behind it.")) when maxRoutesPerDevice <? Z.of_nat (List.length routes);
  normalize_loop [] routes.

Definition routeStrings (routes : list Prefix) : list string := PrefixString <$> routes.

(** The first element for which the check fails decides. *)
Fixpoint check_all {A} (f : A → result unit) (l : list A) : result unit :=
  match l with
  | [] => Ok tt
  | x :: l' => let? _ := f x in check_all f l'
  end.

Section routes.
  Context {S : Type} `{Storage S} (cfg : Config).

Definition vpn_networks : result (list Prefix) :=
  let? v4 := (if String.eqb (cidr cfg) "" then Ok [] else
    match ParsePrefix (cidr cfg) with
    | Some p => Ok [Masked p]
    | None => Err (WrappedError ("the configured vpn network '" +:+ cidr cfg +:+ "' is not a network") netip_error)
    end) in
  let? v6 := (if String.eqb (cidrv6 cfg) "" then Ok [] else
    match ParsePrefix (cidrv6 cfg) with
    | Some p => Ok [Masked p]
    | None => Err (WrappedError ("the configured vpn network '" +:+ cidrv6 cfg +:+ "' is not a network") netip_error)
    end) in
  Ok (v4 ++ v6).

(** The checks of one route against the VPN, the host and the other devices. *)
Definition overlap_error (route prefix : Prefix) (rest : string) : goerror :=
  ValidationError ("'" +:+ PrefixString route +:+ "' overlaps '" +:+ PrefixString prefix +:+ rest).
Definition check_vpn (route prefix : Prefix) : result unit :=
  fail! (ValidationError ("'" +:+ PrefixString route +:+ "' overlaps the VPN network '"
          +:+ PrefixString prefix +:+ "', which the server hands out itself."))
    when Overlaps prefix route; Ok tt.
Definition check_host (route prefix : Prefix) : result unit :=
  fail! (overlap_error route prefix
          "', a network this server is in - routing it would cut the server off.")
    when Overlaps prefix route; Ok tt.
Definition check_taken (route : Prefix) (other : Device) (taken : string) : result unit :=
  match ParsePrefix taken with
  | None => Ok tt
  | Some prefix =>
      fail! (overlap_error route prefix ("', which is already routed to the device '"
              +:+ Device.Name other +:+ "'.")) when Overlaps prefix route; Ok tt
  end.
Definition check_other (device : Device) (route : Prefix) (other : Device) : result unit :=
  if String.eqb (Device.Owner other) (Device.Owner device)
     && String.eqb (Device.Name other) (Device.Name device)
  then Ok tt else check_all (check_taken route other) (Device.RouteList other).

Definition check_route (vpn host : list Prefix) (devices : list Device) (device : Device)
    (route : Prefix) : result unit :=
  let? _ := check_all (check_vpn route) vpn in
  let? _ := check_all (check_host route) host in
  check_all (check_other device route) devices.

Definition checkRoutes (addrs : result (list (option string))) (routes : list Prefix) (device : Device) :
    M S unit :=
  match routes with
  | [] => m_ret tt
  | _ =>
      let! vpn := lift vpn_networks in
      let! host := lift (hostNetworks addrs) in
      let! devices := m_wrap "failed to list devices" ListAllDevices in
      lift (check_all (check_route vpn host devices device) routes)
  end.

Definition SetDeviceRoutes (addrs : result (list (option string))) (user name : string)
    (routes : list string) : M S Device :=
  let! normalized := lift (normalizeRoutes routes) in
  WithAllocationLock
    (let! device := m_wrap "failed to retrieve device" (Get user name) in
     do! checkRoutes addrs normalized device;
     m_wrap "failed to change the routes of the device"
       (SetRoutes device (Join (routeStrings normalized) ", "))).

(** ** What the firewall is built from *)
Record FirewallState := mkFirewallState {
  Routed : list string;
  Policies : gmap string (list string) }.
Definition zero_FirewallState : FirewallState := mkFirewallState [] ∅.

Definition string_le_p (a b : string) : Prop := string_le a b = true.
#[export] Instance string_le_p_dec a b : Decision (string_le_p a b).
Proof. unfold string_le_p. apply _. Defined.
Definition sort_Strings (l : list string) : list string := merge_sort string_le_p l.

(** [FirewallState.key] *)
Definition fw_key (st : FirewallState) : string :=
  let names := sort_Strings (map_to_list (Policies st)).*1 in
  Join (Routed st) "," +:+
  Join ((λ name, "|" +:+ name +:+ "=" +:+ Join (default [] (Policies st !! name)) ",") <$> names) "".

Definition policiesOf (users : list User) : gmap string (list string) :=
  fold_left (λ m user, match User.PolicyList user with
                       | [] => m
                       | policies => <[User.Subject user := policies]> m
                       end) users ∅.

(** [append(state.Policies[policy], addresses...)] for every policy. *)
Definition add_members (addresses : list string) (m : gmap string (list string)) (policy : string) :
    gmap string (list string) :=
  <[policy := default [] (m !! policy) ++ addresses]> m.

Definition see_device (now : Time) (policies : gmap string (list string)) (st : FirewallState)
    (device : Device) : FirewallState :=
  let routed := Routed st ++ Device.RouteList device in
  if negb (Device.AccessAllowed device now) then mkFirewallState routed (Policies st) else
  mkFirewallState routed
    (fold_left (add_members (SplitAddresses (Device.Address device)))
       (default [] (policies !! Device.Owner device)) (Policies st)).

Definition build_state (now : Time) (users : list User) (devices : list Device) : FirewallState :=
  let st := fold_left (see_device now (policiesOf users)) devices zero_FirewallState in
  mkFirewallState (sort_Strings (Routed st)) (sort_Strings <$> Policies st).

Definition firewallState (now : Time) (devices : list Device) : M S FirewallState :=
  let! users := m_wrap "failed to list users" Users in
  m_ret (build_state now users devices).
End routes.
