(* ===== verification/RouteSpecs.v ===== *)
(** * What the routes of a device guarantee

    Lemmas about [Routes.v]: what normalizing and checking leave, what the
    stored text means when it is read back, and the specification of
    [SetDeviceRoutes] against the contract of the storage. *)
From S2P Require Import Prelude GoText Netip NetipText NetipRoundTrip Network Storage Atomic AuthSession.
From S2P Require Import Devices Allocation DeviceSpecs Routes.

(** The networks stored for a device. *)
Definition routes_of (d : Device) : list Prefix := omap ParsePrefix (Device.RouteList d).

(** ** normalizeRoutes *)
(** A network that may be stored: well formed, masked, not a default route. *)
Definition stored_route (p : Prefix) : Prop := wf_prefix p ∧ Masked p = p ∧ Bits p ≠ 0.

Lemma normalize_one_ok seen route seen' : normalize_one seen route = Ok seen' →
  NoDup seen → Forall stored_route seen → NoDup seen' ∧ Forall stored_route seen'.
Proof.
  unfold normalize_one. intros E Hn Hs. destruct (String.eqb _ ""); [by simplify_eq|].
  destruct (ParsePrefix (TrimSpace route)) as [p|] eqn:Hp; [|done]. apply ParsePrefix_wf in Hp.
  destruct (Z.eqb_spec (Bits p) 0); [done|]. case_decide; injection E as <-; [done|].
  split.
  - apply NoDup_app. split; [done|]. split; [|apply NoDup_singleton].
    by intros x Hx ->%list_elem_of_singleton.
  - apply Forall_app. split; [done|]. constructor; [|constructor].
    split; [by apply Masked_wf|]. split; [by apply Masked_idem|]. by rewrite Masked_spec.
Qed.

Lemma normalize_loop_ok routes seen l : normalize_loop seen routes = Ok l →
  NoDup seen → Forall stored_route seen → NoDup l ∧ Forall stored_route l ∧
  (List.length l <= List.length seen + List.length routes)%nat ∧ seen ⊆ l.
Proof.
  revert seen. induction routes as [|route routes IH]; intros seen E Hn Hs; simpl in E.
  { injection E as <-. split; [done|]. split; [done|]. split; [simpl; lia|done]. }
  rinv. pose proof (normalize_one_ok _ _ _ H Hn Hs) as [Hn' Hs'].
  apply IH in E as (? & ? & Hlen & Hsub); [|done..]. split; [done|]. split; [done|].
  assert (List.length x <= S (List.length seen) ∧ seen ⊆ x)%nat as [? ?].
  { unfold normalize_one in H. destruct (String.eqb _ ""); [simplify_eq; split; [lia|done]|].
    destruct (ParsePrefix _); [|done]. destruct (Bits p =? 0); [done|].
    case_decide; injection H as <-; [split; [lia|done]|]. rewrite length_app. simpl.
    split; [lia|set_solver]. }
  split; [simpl; lia|]. etrans; done.
Qed.

Lemma normalizeRoutes_ok routes l : normalizeRoutes routes = Ok l →
  NoDup l ∧ Forall stored_route l ∧ Z.of_nat (List.length l) <= 25.
Proof.
  unfold normalizeRoutes, maxRoutesPerDevice. intros E. rinv.
  apply normalize_loop_ok in E as (? & ? & Hl & _); [|constructor|constructor].
  split; [done|]. split; [done|]. apply Z.ltb_ge in Hguard. simpl in Hl. lia.
Qed.

(** ** The stored text *)
Lemma split_join l : Forall wf_prefix l → ∀ p, wf_prefix p →
  TrimSpace <$> Split (Join (routeStrings (p :: l)) ", ") "," = routeStrings (p :: l).
Proof.
  assert (∀ (p : Prefix) rest, wf_prefix p → ∀ blank, blank = [] ∨ blank = [" "%char] →
    TrimSpace <$> (of_bytes <$> split_bytes "," (rev blank) (prefix_bytes p ++ rest)) =
    match rest with
    | [] => [PrefixString p]
    | c :: rest => TrimSpace <$> (of_bytes <$> split_bytes "," (rev blank) (prefix_bytes p ++ c :: rest))
    end) as Hone.
  { intros p rest Hp blank Hb. destruct rest as [|c rest]; [|done]. rewrite app_nil_r.
    destruct (split_bytes_text (rev blank) (prefix_bytes p) [] (prefix_bytes_text p Hp)) as [_ ->].
    rewrite rev_involutive. cbn [fmap list_fmap]. f_equal.
    destruct Hb as [->| ->]; simpl app.
    - by apply TrimSpace_text, prefix_bytes_text.
    - apply TrimSpace_blank; [by apply prefix_bytes_ne|by apply prefix_bytes_text]. }
  intros Hl p Hp. unfold Split.
  assert (∀ blank, blank = [] ∨ blank = [" "%char] →
    TrimSpace <$> (of_bytes <$> split_bytes "," (rev blank) (bytes (Join (routeStrings (p :: l)) ", "))) =
    routeStrings (p :: l)) as H; [|by apply (H []); left].
  revert p Hp. induction Hl as [|q l Hq Hl IH]; intros p Hp blank Hb.
  - simpl. unfold PrefixString at 1. rewrite bytes_of_bytes, <- (app_nil_r (prefix_bytes p)).
    by rewrite Hone.
  - change (Join (routeStrings (p :: q :: l)) ", ") with
      (PrefixString p +:+ ", " +:+ Join (routeStrings (q :: l)) ", ").
    rewrite !bytes_app. unfold PrefixString at 1. rewrite bytes_of_bytes.
    change (bytes ", " ++ bytes (Join (routeStrings (q :: l)) ", ")) with
      (","%char :: " "%char :: bytes (Join (routeStrings (q :: l)) ", ")).
    destruct (split_bytes_text (rev blank) (prefix_bytes p)
      (" "%char :: bytes (Join (routeStrings (q :: l)) ", ")) (prefix_bytes_text p Hp)) as [-> _].
    rewrite rev_involutive. rewrite fmap_cons, fmap_cons.
    change (routeStrings (p :: q :: l)) with (PrefixString p :: routeStrings (q :: l)). f_equal.
    + destruct Hb as [->| ->]; simpl app.
      * by apply TrimSpace_text, prefix_bytes_text.
      * apply TrimSpace_blank; [by apply prefix_bytes_ne|by apply prefix_bytes_text].
    + cbn [split_bytes]. change (Ascii.eqb " " ",") with false. cbv iota.
      apply (IH q Hq [" "%char]). by right.
Qed.

Lemma filter_ne_id (l : list string) : Forall (λ t, t ≠ "") l → filter (λ part, part ≠ "") l = l.
Proof. induction 1 as [|t l Ht _ IH]; [done|]. rewrite filter_cons_True by done. by rewrite IH. Qed.

Lemma splitList_join l : Forall wf_prefix l →
  splitList (Join (routeStrings l) ", ") = routeStrings l.
Proof.
  intros Hl. destruct l as [|p l]; [done|]. apply Forall_cons in Hl as [Hp Hl].
  unfold splitList. pose proof (split_join l Hl p Hp) as Hs.
  destruct (String.eqb_spec (TrimSpace (Join (routeStrings (p :: l)) ", ")) "") as [E|_].
  - exfalso. destruct (prefix_bytes p) as [|c t] eqn:Ep; [by apply (prefix_bytes_ne p Hp)|].
    pose proof (prefix_bytes_text p Hp) as Ht. rewrite Ep in Ht. apply Forall_cons in Ht as [Hc _].
    revert E. apply (TrimSpace_ne _ c); [|done].
    assert (∃ r, bytes (Join (routeStrings (p :: l)) ", ") = prefix_bytes p ++ r) as [r ->].
    { destruct l as [|q l].
      - exists []. simpl. unfold PrefixString. by rewrite bytes_of_bytes, app_nil_r.
      - eexists. change (Join (routeStrings (p :: q :: l)) ", ") with
          (PrefixString p +:+ ", " +:+ Join (routeStrings (q :: l)) ", ").
        rewrite bytes_app. unfold PrefixString at 1. by rewrite bytes_of_bytes. }
    rewrite Ep. apply elem_of_app. left. apply list_elem_of_here.
  - rewrite Hs. assert (Forall (λ t, t ≠ "") (routeStrings (p :: l))) as Hne.
    { apply Forall_fmap. apply (Forall_impl wf_prefix); [by constructor|].
      intros q Hq. by apply PrefixString_ne. }
    by apply filter_ne_id.
Qed.

Lemma parse_routeStrings l : Forall wf_prefix l → omap ParsePrefix (routeStrings l) = l.
Proof.
  induction 1 as [|p l Hp _ IH]; [done|]. unfold routeStrings in *.
  rewrite fmap_cons. cbn [omap list_omap]. rewrite ParsePrefix_PrefixString by done. by rewrite IH.
Qed.

(** ** SetDeviceRoutes *)
Lemma check_all_ok {A} (f : A → result unit) l u : check_all f l = Ok u →
  Forall (λ x, f x = Ok tt) l.
Proof.
  induction l as [|x l IH]; simpl; intros E; [constructor|]. rinv. destruct x0. constructor; auto.
Qed.
Lemma check_all_elem {A} (f : A → result unit) l u : check_all f l = Ok u → ∀ x, x ∈ l → f x = Ok tt.
Proof. intros E%check_all_ok. by apply Forall_forall. Qed.

Section specs.
  Context {S : Type} `{StorageLaws S} (cfg : Config).
  Implicit Types (s : S).

(** Filling in owner names changes nothing else. *)
Definition same_device (d d' : Device) : Prop :=
  Device.key d' = Device.key d ∧ Device.PublicKey d' = Device.PublicKey d ∧
  Device.PresharedKey d' = Device.PresharedKey d ∧ Device.Address d' = Device.Address d ∧
  Device.Disabled d' = Device.Disabled d ∧ Device.ExpiresAt d' = Device.ExpiresAt d ∧
  Device.Routes d' = Device.Routes d ∧ Device.CreatedAt d' = Device.CreatedAt d ∧
  Device.LastHandshakeTime d' = Device.LastHandshakeTime d.

Lemma complete_same known d : same_device d (complete known d).
Proof. unfold complete, same_device. by destruct (known !! Device.Owner d). Qed.

Lemma ListAllDevices_spec s l s' : ok s → ListAllDevices s = (Ok l, s') → s' = s ∧
  (∃ l0, lists_rows (devices (view s)) (λ d, "" = "" ∨ Device.Owner d = "") l0 ∧ Forall2 same_device l0 l).
Proof.
  intros Hok E. unfold ListAllDevices in E. minv.
  match goal with Hl : List_ _ _ = _ |- _ =>
    apply (query_ok _ _ _ _ _ (law_List "")) in Hl as [-> Hl]; [|done] end.
  unfold withOwnerNames in E. destruct (negb (existsb incomplete x)).
  { minv. split; [done|]. exists l. split; [done|]. by apply Forall_Forall2_diag, Forall_forall. }
  minv. match goal with Hu : Users s = _ |- _ =>
    apply (query_ok _ _ _ _ _ law_Users) in Hu as [-> _]; [|done] end.
  split; [done|]. exists x. split; [done|]. destruct x0 as [us|e].
  - apply Forall2_fmap_r, Forall_Forall2_diag, Forall_forall. intros d _. apply complete_same.
  - by apply Forall_Forall2_diag, Forall_forall.
Qed.

Lemma readonly_ListAll : readonly (S := S) ListAllDevices.
Proof. unfold ListAllDevices, withOwnerNames. solve_readonly. Qed.

(** Every stored device is in the listing, and only those are. *)
Lemma ListAllDevices_elem s l s' : ok s → ListAllDevices s = (Ok l, s') →
  (∀ k d, devices (view s) !! k = Some d → ∃ d', d' ∈ l ∧ same_device d d') ∧
  (∀ d', d' ∈ l → ∃ d, devices (view s) !! Device.key d' = Some d ∧ same_device d d').
Proof.
  intros Hok E. apply ListAllDevices_spec in E as (-> & l0 & Hl0 & Hf); [|done]. split.
  - intros k d Hk. assert (d ∈ l0) as Hin.
    { apply (lists_rows_elem _ _ _ _ Hl0). split; [by left|eauto]. }
    apply list_elem_of_lookup in Hin as [i Hi]. eapply Forall2_lookup_l in Hf as (d' & Hd' & Hs); [|done].
    exists d'. split; [|done]. by eapply list_elem_of_lookup_2.
  - intros d' Hin. apply list_elem_of_lookup in Hin as [i Hi].
    eapply Forall2_lookup_r in Hf as (d & Hd & Hs); [|done]. exists d. split; [|done].
    destruct Hs as [-> _]. apply list_elem_of_lookup_2 in Hd.
    apply (lists_rows_elem _ _ _ _ Hl0) in Hd as [_ [k Hk]].
    by eapply dev_key_lookup; [apply ok_wf|].
Qed.

(** No route of a device shares an address with the network. *)
Definition not_routed (d : Device) (p : Prefix) : Prop := Forall (λ q, Overlaps q p = false) (routes_of d).

Lemma checkRoutes_spec addrs l device s u s' : ok s → checkRoutes cfg addrs l device s = (Ok u, s') →
  s' = s ∧ Forall (λ p,
    (∀ c v, c = cidr cfg ∨ c = cidrv6 cfg → ParsePrefix c = Some v → Overlaps (Masked v) p = false) ∧
    (∀ h, hostNetworks addrs = Ok h → Forall (λ q, Overlaps q p = false) h) ∧
    (∀ k d, devices (view s) !! k = Some d → k ≠ Device.key device → not_routed d p)) l.
Proof.
  intros Hok E. unfold checkRoutes in E. destruct l as [|p0 l0]; [minv; done|].
  set (l := p0 :: l0) in *. clearbody l. minv. subst.
  match goal with Hd : ListAllDevices s = _ |- _ =>
    pose proof (ListAllDevices_elem _ _ _ Hok Hd) as [Hall _];
    apply ListAllDevices_spec in Hd as [-> _]; [|done] end.
  split; [done|]. apply check_all_ok in E. eapply Forall_impl; [exact E|]. clear E. intros p E.
  unfold check_route in E. rinv.
  repeat match goal with Hc : check_all _ _ = Ok _ |- _ => apply check_all_ok in Hc end.
  split; [|split].
  - intros c v Hc Hv. rewrite Forall_forall in H3.
    assert (Masked v ∈ x) as Hin; [|apply H3 in Hin; unfold check_vpn in Hin; by destruct (Overlaps _ p)].
    unfold vpn_networks in H1. rinv.
    assert (c ≠ "") by (intros ->; done).
    destruct Hc as [->| ->].
    + match goal with Hif : (if String.eqb (cidr cfg) "" then _ else _) = Ok _ |- _ =>
        destruct (String.eqb_spec (cidr cfg) ""); [done|]; rewrite Hv in Hif; injection Hif as <- end.
      subst x. set_solver.
    + match goal with Hif : (if String.eqb (cidrv6 cfg) "" then _ else _) = Ok _ |- _ =>
        destruct (String.eqb_spec (cidrv6 cfg) ""); [done|]; rewrite Hv in Hif; injection Hif as <- end.
      subst x. set_solver.
  - intros h Hh. rewrite H2 in Hh. injection Hh as <-. eapply Forall_impl; [exact H4|].
    intros q Hq. unfold check_host in Hq. by destruct (Overlaps q p).
  - intros k d Hk Hne. destruct (Hall k d Hk) as (d' & Hin & Hkey & _ & _ & _ & _ & _ & Hr & _).
    rewrite Forall_forall in E. apply E in Hin. unfold check_other in Hin.
    pose proof (wf_dev_key _ (ok_wf _ Hok) _ _ Hk) as Hdk.
    destruct (String.eqb_spec (Device.Owner d') (Device.Owner device)) as [Eo|],
      (String.eqb_spec (Device.Name d') (Device.Name device)) as [En|]; simpl in Hin.
    { exfalso. apply Hne. rewrite <- Hdk, <- Hkey. unfold Device.key. by rewrite Eo, En. }
    all: apply check_all_ok in Hin; unfold not_routed, routes_of; unfold Device.RouteList in *;
      rewrite Hr in Hin; apply Forall_forall; intros q (t & Ht & Hq)%list_elem_of_omap;
      rewrite Forall_forall in Hin; apply Hin in Ht; unfold check_taken in Ht; rewrite Hq in Ht;
      by destruct (Overlaps q p).
Qed.

Lemma SetDeviceRoutes_spec addrs user name routes s d s' : ok s →
  SetDeviceRoutes cfg addrs user name routes s = (Ok d, s') → ok s' ∧
  ∃ l stored, normalizeRoutes routes = Ok l ∧ devices (view s) !! (user, name) = Some stored ∧
    d = Device.with_Routes (Join (routeStrings l) ", ") stored ∧ routes_of d = l ∧
    view s' = on_devices <[(user, name) := d]> (view s) ∧ emitted s' = emitted s ++ [EvUpdate d] ∧
    Forall (λ p,
      (∀ c v, c = cidr cfg ∨ c = cidrv6 cfg → ParsePrefix c = Some v → Overlaps (Masked v) p = false) ∧
      (∀ h, hostNetworks addrs = Ok h → Forall (λ q, Overlaps q p = false) h) ∧
      (∀ k d', devices (view s) !! k = Some d' → k ≠ (user, name) → not_routed d' p)) l.
Proof.
  intros Hok E. unfold SetDeviceRoutes, WithAllocationLock in E. minv. subst.
  match goal with Hl : AllocationLock _ = (Ok _, _) |- _ =>
    apply law_AllocationLock in Hl as (Hok1 & ? & [Hv ->] & He); [|done]; rewrite app_nil_r in He end.
  match goal with Hg : Get _ _ _ = _ |- _ => apply Get_spec in Hg as (-> & Hl & Hk); [|done] end.
  match goal with Hc : checkRoutes _ _ _ _ _ = _ |- _ => apply checkRoutes_spec in Hc as (-> & Hc); [|done] end.
  apply (changes_device_spec _ _ _ _ _ _ (law_SetRoutes _ _)) in E as (Hok' & -> & Hv' & He'); [|done|by rewrite Hk].
  rewrite Hk in *. rewrite Hv in *.
  match goal with Hn : normalizeRoutes routes = Ok ?l |- _ =>
    pose proof (normalizeRoutes_ok _ _ Hn) as (_ & Hst & _); split; [done|]; eexists l, _ end.
  split; [done|]. split; [done|]. split; [done|].
  assert (Forall wf_prefix x) as Hwf by (eapply Forall_impl; [exact Hst|]; by intros p [? _]).
  split; [|split; [|split; [by rewrite He', He|done]]].
  - unfold routes_of, Device.RouteList. simpl. by rewrite splitList_join, parse_routeStrings.
  - exact Hv'.
Qed.
End specs.

(** ** The state the firewall is built from *)
Lemma add_members_lookup addresses policies m p a :
  a ∈ default [] (fold_left (add_members addresses) policies m !! p) ↔
  a ∈ default [] (m !! p) ∨ a ∈ addresses ∧ p ∈ policies.
Proof.
  revert m. induction policies as [|q policies IH]; intros m; cbn; [set_solver|].
  rewrite IH. unfold add_members. destruct (decide (q = p)) as [->|Hne].
  - rewrite lookup_insert_eq. cbn. rewrite elem_of_app. set_solver.
  - rewrite lookup_insert_ne by done. set_solver.
Qed.

(** The addresses of an allowed device of somebody the policy names. *)
Definition member (now : Time) (policies : gmap string (list string)) (p a : string) (d : Device) : Prop :=
  Device.AccessAllowed d now = true ∧ p ∈ default [] (policies !! Device.Owner d) ∧
  a ∈ SplitAddresses (Device.Address d).

Lemma see_device_policies now policies st d p a :
  a ∈ default [] (Policies (see_device now policies st d) !! p) ↔
  a ∈ default [] (Policies st !! p) ∨ member now policies p a d.
Proof.
  unfold see_device, member. destruct (Device.AccessAllowed d now); cbn.
  - rewrite add_members_lookup. tauto.
  - split; [by left|]. by intros [?|(? & _)].
Qed.

Lemma see_devices_policies now policies devs st p a :
  a ∈ default [] (Policies (fold_left (see_device now policies) devs st) !! p) ↔
  a ∈ default [] (Policies st !! p) ∨ Exists (member now policies p a) devs.
Proof.
  revert st. induction devs as [|d devs IH]; intros st; cbn; [by rewrite Exists_nil; tauto|].
  rewrite IH, see_device_policies, Exists_cons. tauto.
Qed.

Lemma see_devices_routed now policies devs st :
  Routed (fold_left (see_device now policies) devs st) = Routed st ++ (devs ≫= Device.RouteList).
Proof.
  revert st. induction devs as [|d devs IH]; intros st; cbn; [by rewrite app_nil_r|].
  rewrite IH. unfold see_device. rewrite (assoc_L (++)). by destruct (negb _).
Qed.

Definition see_user (m : gmap string (list string)) (user : User) : gmap string (list string) :=
  match User.PolicyList user with [] => m | policies => <[User.Subject user := policies]> m end.
Lemma see_users_other users m k : k ∉ User.Subject <$> users → fold_left see_user users m !! k = m !! k.
Proof.
  revert m. induction users as [|v users IH]; intros m Hk; [done|]. cbn in *.
  rewrite IH by set_solver. unfold see_user. destruct (User.PolicyList v); [done|].
  rewrite lookup_insert_ne by set_solver. done.
Qed.
Lemma policiesOf_spec users u : NoDup (User.Subject <$> users) → u ∈ users →
  default [] (policiesOf users !! User.Subject u) = User.PolicyList u.
Proof.
  change (policiesOf users) with (fold_left see_user users ∅).
  assert (∀ m : gmap string (list string), m !! User.Subject u = None → NoDup (User.Subject <$> users) →
    u ∈ users → default [] (fold_left see_user users m !! User.Subject u) = User.PolicyList u) as Hgen;
    [|by apply Hgen].
  induction users as [|v users IH]; intros m Hm Hn Hin; [by apply not_elem_of_nil in Hin|].
  cbn [fmap list_fmap] in Hn. apply NoDup_cons in Hn as [Hv Hn]. cbn [fold_left].
  apply elem_of_cons in Hin as [->|Hin].
  - rewrite see_users_other by done. unfold see_user.
    destruct (User.PolicyList v); [by rewrite Hm|]. by rewrite lookup_insert_eq.
  - apply IH; [|done|done]. unfold see_user. destruct (User.PolicyList v); [done|].
    rewrite lookup_insert_ne; [done|]. intros E. apply Hv. rewrite E. apply list_elem_of_fmap. by exists u.
Qed.
