(* ===== verification/Manager.v ===== *)
(** * The device manager and the WireGuard interface

    The parts of internal/devices that drive the interface: [sync],
    [applyPeer], [peerMatches], [RotateDeviceKey] and the event handlers of
    [StartSync] from [devices.go], [syncFirewallState] and [Resync] from
    [routes.go], [removeBlockedPeers] from [access.go], [checkAndRemove] from
    [inactive.go] and [syncMetrics] from [metadata.go]. *)
From S2P Require Import Prelude GoText Netip NetipText NetipRoundTrip Network Storage AuthSession WireGuard.
From S2P Require Import Devices Routes.

(** Entries of the audit log the background loops write. *)
Inductive AuditEntry :=
  | DeviceExpire (owner device : string)
  | DeviceDelete (owner device : string).

(** [DeviceManager] with the storage and the interface it drives. [resync] is
    the one slot of the channel; [fw_calls] are the states [firewallSync] was
    called with, newest last, and [audited] what was logged. *)
Record DeviceManager (S W : Type) := mkDM {
  storage : S;
  wg : W;
  firewall : FirewallState;
  fw_calls : list FirewallState;
  resync : bool;
  audited : list AuditEntry }.
Arguments mkDM {S W} _ _ _ _ _ _.
Arguments storage {S W} _.
Arguments wg {S W} _.
Arguments firewall {S W} _.
Arguments fw_calls {S W} _.
Arguments resync {S W} _.
Arguments audited {S W} _.

Section manager.
  Context {S W : Type} `{Storage S} `{WireGuard W} `{WireGuardKeys} (cfg : Config)
    (firewallSync : option (FirewallState → result unit)).
  Notation DM := (DeviceManager S W).

Definition set_storage (s : S) (d : DM) : DM :=
  mkDM s (wg d) (firewall d) (fw_calls d) (resync d) (audited d).
Definition set_wg (w : W) (d : DM) : DM :=
  mkDM (storage d) w (firewall d) (fw_calls d) (resync d) (audited d).
Definition set_firewall (st : FirewallState) (d : DM) : DM :=
  mkDM (storage d) (wg d) st (fw_calls d) (resync d) (audited d).
Definition set_resync (b : bool) (d : DM) : DM :=
  mkDM (storage d) (wg d) (firewall d) (fw_calls d) b (audited d).
Definition log_fw (st : FirewallState) (d : DM) : DM :=
  mkDM (storage d) (wg d) (firewall d) (fw_calls d ++ [st]) (resync d) (audited d).
Definition log_audit (e : AuditEntry) (d : DM) : DM :=
  mkDM (storage d) (wg d) (firewall d) (fw_calls d) (resync d) (audited d ++ [e]).

Definition on_storage {A} (m : M S A) : M DM A := zoom storage set_storage m.
Definition on_wg {A} (m : M W A) : M DM A := zoom wg set_wg m.

(** A call whose error is only logged. *)
Definition logged (m : M DM unit) : M DM unit := do! m_try m; m_ret tt.

(** ** Peers *)
(** [presharedKeyOf] *)
Definition presharedKeyOf (device : Device) : string :=
  if String.eqb (Device.PresharedKey device) "" then zero_key
  else default "" (canonical_key (Device.PresharedKey device)).

Definition peerMatches (peer : Peer) (device : Device) : bool :=
  if negb (String.eqb (p_PresharedKey peer) (presharedKeyOf device)) then false else
  let stored := Device.AllowedIPs device in
  if negb (List.length (p_AllowedIPs peer) =? List.length stored)%nat then false else
  let allowed : gset string := list_to_set (IPNetString <$> p_AllowedIPs peer) in
  forallb (λ address, match ParseCIDR address with
                      | Some ipnet => bool_decide (IPNetString ipnet ∈ allowed)
                      | None => false
                      end) stored.

Definition applyPeer (now : Time) (device : Device) : M DM unit :=
  if negb (Device.AccessAllowed device now) then
    m_wrap "failed to remove the peer of a device that may not connect"
      (on_wg (RemovePeer (Device.PublicKey device)))
  else on_wg (AddPeer (Device.PublicKey device) (Device.PresharedKey device) (Device.AllowedIPs device)).

(** ** The firewall *)
Definition syncFirewallState (now : Time) (devices : list Device) : M DM unit :=
  match firewallSync with
  | None => m_ret tt
  | Some sync =>
      let! r := m_try (on_storage (firewallState now devices)) in
      match r with
      | Err _ => m_ret tt
      | Ok state => λ d,
          if String.eqb (fw_key state) (fw_key (firewall d)) then (Ok tt, d) else
          (do! m_modify (log_fw state);
           match sync state with
           | Err _ => m_ret tt
           | Ok _ => m_modify (set_firewall state)
           end) d
      end
  end.

(** ** sync *)
(** The keys of the devices that may connect. *)
Definition allowed_keys (now : Time) (devices : list Device) : gset string :=
  list_to_set (Device.PublicKey <$> filter (λ d, Device.AccessAllowed d now = true) devices).

Definition sync_remove (allowed : gset string) (peer : Peer) : M DM unit :=
  if bool_decide (p_PublicKey peer ∈ allowed) then m_ret tt
  else logged (on_wg (RemovePeer (p_PublicKey peer))).

Definition configured_peers (peers : list Peer) : gmap string Peer :=
  fold_left (λ m p, <[p_PublicKey p := p]> m) peers ∅.
Definition sync_add (allowed : gset string) (configured : gmap string Peer) (device : Device) : M DM unit :=
  if negb (bool_decide (Device.PublicKey device ∈ allowed)) then m_ret tt else
  if match configured !! Device.PublicKey device with
     | Some peer => peerMatches peer device
     | None => false
     end then m_ret tt
  else logged (on_wg (AddPeer (Device.PublicKey device) (Device.PresharedKey device)
                        (Device.AllowedIPs device))).

Definition sync (now : Time) : M DM unit :=
  let! devices := m_wrap "failed to list devices" (on_storage ListAllDevices) in
  let! peers := m_wrap "failed to list peers" (on_wg ListPeers) in
  let allowed := allowed_keys now devices in
  do! m_for (sync_remove allowed) peers;
  do! m_for (sync_add allowed (configured_peers peers)) devices;
  syncFirewallState now devices.

(** [Resync]: the slot of the channel is taken, whether it was or not. *)
Definition Resync : M DM unit := m_modify (set_resync true).

(** The callbacks [StartSync] registers for the events of the storage. *)
Definition handle_event (now : Time) (e : Event) : M DM unit :=
  match e with
  | EvAdd device | EvUpdate device => do! logged (applyPeer now device); Resync
  | EvDelete device => do! logged (on_wg (RemovePeer (Device.PublicKey device))); Resync
  end.

(** [StartSync]: the callbacks are [handle_event], the loops are turns of their
    own; what runs before they start is the initial sync. *)
Definition StartSync (now : Time) : M DM unit :=
  m_wrap "initial device sync from storage failed" (sync now).

(** [New], on a storage and an interface. *)
Definition New (s : S) (w : W) : DM := mkDM s w zero_FirewallState [] false [].

(** [RoutedNetworks], for as long as the firewall was last told about them. *)
Definition RoutedNetworks : M DM (list string) := m_gets (λ d, Routed (firewall d)).

(** [Ping]: the check of the storage is the backend's. *)
Definition Ping (storage_ping : M S unit) : M DM unit :=
  do! m_wrap "failed to ping storage" (on_storage storage_ping);
  m_wrap "failed to ping WireGuard" (on_wg PingWireGuard).

(** One turn of [resyncLoop] that found the slot taken. *)
Definition resync_turn (now : Time) : M DM unit :=
  do! m_modify (set_resync false); logged (sync now).

(** ** RotateDeviceKey *)
Definition RotateDeviceKey (now : Time) (user name publicKey presharedKey : string) : M DM Device :=
  stop! (ValidationError "Public key has invalid format.") when negb (wgKey_MatchString publicKey);
  stop! (ValidationError "Pre-shared key has invalid format.")
    when negb (slen presharedKey =? 0) && negb (wgKey_MatchString presharedKey);
  let! device := m_wrap "failed to retrieve device" (on_storage (Get user name)) in
  stop! (ValidationError "This is the key the device already uses.")
    when String.eqb (Device.PublicKey device) publicKey;
  let! existing := m_try (on_storage (GetByPublicKey publicKey)) in
  stop! (ValidationError "Another device already uses this key.") when is_ok existing;
  let previous := Device.PublicKey device in
  let! changed := m_wrap "failed to change the keys of the device"
    (on_storage (SetKeys device publicKey presharedKey)) in
  do! logged (on_wg (RemovePeer previous));
  do! logged (applyPeer now changed);
  m_ret changed.

(** ** access.go *)
Definition blocked_devices (now : Time) (devices : list Device) : gmap string Device :=
  fold_left (λ m device, if Device.AccessAllowed device now then m
                         else <[Device.PublicKey device := device]> m) devices ∅.

Definition remove_blocked (now : Time) (blocked : gmap string Device) (peer : Peer) : M DM unit :=
  match blocked !! p_PublicKey peer with
  | None => m_ret tt
  | Some device =>
      let! r := m_try (on_wg (RemovePeer (Device.PublicKey device))) in
      if negb (is_ok r) then m_ret tt else
      if Device.Expired device now
      then m_modify (log_audit (DeviceExpire (Device.Owner device) (Device.Name device)))
      else m_ret tt
  end.

Definition removeBlockedPeers (now : Time) : M DM unit :=
  let! devices := m_try (on_storage ListAllDevices) in
  match devices with
  | Err _ => m_ret tt
  | Ok devices =>
      let blocked := blocked_devices now devices in
      if bool_decide (blocked = ∅) then m_ret tt else
      let! peers := m_try (on_wg ListPeers) in
      match peers with
      | Err _ => m_ret tt
      | Ok peers => m_for (remove_blocked now blocked) peers
      end
  end.

(** ** inactive.go *)
(** [time.Since] saturates at the bounds of a Duration. *)
Definition Since (now t : Time) : Z := Z.max (- 2 ^ 63) (Z.min (2 ^ 63 - 1) (now - t)).
(** The zero [time.Time]: January 1, year 1. *)
Definition zero_time : Time := -62135596800 * second.

Definition elapsed (now : Time) (dev : Device) : Z :=
  match Device.LastHandshakeTime dev with
  | Some t => if t =? zero_time then Since now (Device.CreatedAt dev) else Since now t
  | None => Since now (Device.CreatedAt dev)
  end.
Definition check_inactive (now : Time) (grace : Z) (dev : Device) : M DM unit :=
  if elapsed now dev <=? grace then m_ret tt else
  let! r := m_try (on_storage (DeleteDevice (Device.Owner dev) (Device.Name dev))) in
  if is_ok r then m_modify (log_audit (DeviceDelete (Device.Owner dev) (Device.Name dev)))
  else m_ret tt.
Definition checkAndRemove (now : Time) (grace : Z) : M DM unit :=
  let! devices := m_try (on_storage ListAllDevices) in
  match devices with
  | Err _ => m_ret tt
  | Ok devices => m_for (check_inactive now grace) devices
  end.
End manager.
