(* ===== verification/ManagerSpecs.v ===== *)
(** * Peers in line with the storage

    Lemmas about [Manager.v]: which peers the interface has after a sync, an
    event, a pass of the access check and a rotation of keys, when its
    operations work; and what the inactivity check deletes. *)
From S2P Require Import Prelude GoText Netip NetipText NetipRoundTrip Network Storage Atomic AuthSession.
From S2P Require Import WireGuard Devices Allocation DeviceSpecs Routes RouteSpecs Manager.

(** The interface carries out what it is asked for, as long as the key is one
    and the networks can be read. *)
Class WireGuardWorks (W : Type) `{WireGuard W} := {
  list_works w : ∃ l, ListPeers w = (Ok l, w);
  remove_works pk w : pk ≠ "" → ∃ w', RemovePeer pk w = (Ok tt, w');
  add_works pk psk allowed w : pk ≠ "" → Forall (λ s, is_Some (ParseCIDR s)) allowed →
    ∃ w', AddPeer pk psk allowed w = (Ok tt, w') }.

#[export] Instance Peers_works `{WireGuardKeys} : WireGuardWorks Peers.
Proof.
  constructor.
  - by eexists.
  - by eexists.
  - intros pk psk allowed w Hpk Hf. cbn. unfold peers_AddPeer.
    destruct (String.eqb_spec pk ""); [done|].
    assert (∃ ns, parse_all allowed = Some ns) as [ns ->].
    { induction Hf as [|s l [net Hnet] _ [ns Hns]]; [by eexists|]. cbn. rewrite Hnet, Hns. by eexists. }
    by repeat case_match; eexists.
Qed.

Section specs.
  Context {S W : Type} `{StorageLaws S} `{WireGuardLaws W} `{!WireGuardWorks W}
    (firewallSync : option (FirewallState → result unit)).
  Notation DM := (DeviceManager S W).
  Implicit Types (d : DM).

Definition has_peer (d : DM) (k : string) : Prop := is_Some (peers (wg d) !! k).
(** What a call to the interface leaves alone. *)
Definition only_wg (d d' : DM) : Prop :=
  storage d' = storage d ∧ firewall d' = firewall d ∧ fw_calls d' = fw_calls d ∧
  resync d' = resync d ∧ audited d' = audited d.

Lemma only_wg_refl d : only_wg d d.
Proof. done. Qed.
Lemma only_wg_trans d1 d2 d3 : only_wg d1 d2 → only_wg d2 d3 → only_wg d1 d3.
Proof. intros (?&?&?&?&?) (?&?&?&?&?). repeat split; congruence. Qed.

Lemma RemovePeer_run pk d r d' : pk ≠ "" → on_wg (RemovePeer pk) d = (r, d') →
  r = Ok tt ∧ only_wg d d' ∧ peers (wg d') = delete pk (peers (wg d)).
Proof.
  intros Hpk E. unfold on_wg in E. minv. subst. destruct (remove_works pk (wg d) Hpk) as [w Ew].
  rewrite Ew in E. injection E as <- <-. apply wg_remove in Ew. done.
Qed.

Lemma AddPeer_run pk psk allowed d r d' : pk ≠ "" → Forall (λ s, is_Some (ParseCIDR s)) allowed →
  on_wg (AddPeer pk psk allowed) d = (r, d') →
  r = Ok tt ∧ only_wg d d' ∧ (∃ p, configured pk psk allowed p ∧ peers (wg d') !! pk = Some p) ∧
  ∀ k, k ≠ pk → has_peer d' k ↔ has_peer d k.
Proof.
  intros Hpk Hf E. unfold on_wg in E. minv. subst. destruct (add_works pk psk allowed (wg d) Hpk Hf) as [w Ew].
  rewrite Ew in E. injection E as <- <-. apply wg_add in Ew as (p & Hp & Hl & Hk).
  split; [done|]. split; [done|]. split; [by exists p|]. intros k Hne. destruct (Hk k Hne) as [Hn _].
  unfold has_peer. cbn. rewrite <- !not_eq_None_Some, Hn. done.
Qed.

Lemma logged_run (m : M DM unit) d r d' : logged m d = (r, d') → r = Ok tt ∧ ∃ r', m d = (r', d').
Proof.
  unfold logged, m_bind, m_try. destruct (m d) as [r' d1]. intros [= <- <-]. split; [done|]. by exists r'.
Qed.

(** ** Removing and adding in a loop *)
(** [m_for] over steps that cannot fail. *)
Lemma m_for_run {A} (f : A → M DM unit) (I : list A → DM → Prop) l d :
  I [] d →
  (∀ pre x d r d', I pre d → x ∈ l → f x d = (r, d') → r = Ok tt ∧ I (pre ++ [x]) d') →
  ∀ r d', m_for f l d = (r, d') → r = Ok tt ∧ I l d'.
Proof.
  intros Hbase Hf. assert (∀ post pre d, l = pre ++ post → I pre d → ∀ r d',
    m_for f post d = (r, d') → r = Ok tt ∧ I l d') as Hgen; [|by apply (Hgen l [] d)].
  clear d Hbase. induction post as [|x post IH]; intros pre d -> Hd r d' E; cbn in E.
  - injection E as <- <-. by rewrite app_nil_r.
  - unfold m_bind in E. destruct (f x d) as [r1 d1] eqn:Ef.
    apply (Hf pre) in Ef as [-> Hd1]; [|done|set_solver].
    eapply (IH (pre ++ [x])); [by rewrite <- (assoc_L (++))|done|done].
Qed.

Lemma sync_remove_run allowed ps d r d' :
  Forall (λ p, p_PublicKey p ≠ "") ps →
  m_for (sync_remove allowed) ps d = (r, d') → r = Ok tt ∧ only_wg d d' ∧
  ∀ k, has_peer d' k ↔ has_peer d k ∧ (k ∈ allowed ∨ k ∉ p_PublicKey <$> ps).
Proof.
  intros Hps. rewrite Forall_forall in Hps.
  apply (m_for_run _ (λ done d', only_wg d d' ∧
    ∀ k, has_peer d' k ↔ has_peer d k ∧ (k ∈ allowed ∨ k ∉ p_PublicKey <$> done)) ps d).
  { split; [apply only_wg_refl|]. intros k. cbn. set_solver. }
  intros pre p d1 r1 d2 [Ho Hk] Hp E. unfold sync_remove in E.
  assert (∀ k, k ∉ p_PublicKey <$> (pre ++ [p]) ↔ k ∉ p_PublicKey <$> pre ∧ k ≠ p_PublicKey p) as Hsplit.
  { intros k. rewrite fmap_app, not_elem_of_app. cbn. set_solver. }
  case_bool_decide as Hin.
  - injection E as <- <-. split; [done|]. split; [done|]. intros k. rewrite Hk, Hsplit.
    destruct (decide (k = p_PublicKey p)) as [->|]; tauto.
  - apply logged_run in E as (-> & r' & E). apply RemovePeer_run in E as (_ & Ho' & Hd); [|by apply Hps].
    split; [done|]. split; [by eapply only_wg_trans|]. intros k. rewrite Hsplit. unfold has_peer in *.
    rewrite Hd. destruct (decide (k = p_PublicKey p)) as [->|Hne].
    + rewrite lookup_delete_eq. split; [by intros []|tauto].
    + rewrite lookup_delete_ne by done. rewrite Hk. tauto.
Qed.

Lemma sync_add_run allowed conf devs d r d' :
  (∀ k, is_Some (conf !! k) → k ∈ allowed → has_peer d k) →
  (∀ dev, dev ∈ devs → Device.PublicKey dev ∈ allowed → Device.PublicKey dev ≠ "" ∧
     Forall (λ s, is_Some (ParseCIDR s)) (Device.AllowedIPs dev)) →
  m_for (sync_add allowed conf) devs d = (r, d') → r = Ok tt ∧ only_wg d d' ∧
  ∀ k, has_peer d' k ↔ has_peer d k ∨ k ∈ allowed ∧ k ∈ Device.PublicKey <$> devs.
Proof.
  intros Hconf Hdevs.
  apply (m_for_run _ (λ done d', only_wg d d' ∧
    ∀ k, has_peer d' k ↔ has_peer d k ∨ k ∈ allowed ∧ k ∈ Device.PublicKey <$> done) devs d).
  { split; [apply only_wg_refl|]. intros k. cbn. set_solver. }
  intros pre dev d1 r1 d2 [Ho Hk] Hp E. unfold sync_add in E.
  assert (∀ k, k ∈ Device.PublicKey <$> (pre ++ [dev]) ↔ k ∈ Device.PublicKey <$> pre ∨ k = Device.PublicKey dev) as Hsplit.
  { intros k. rewrite fmap_app, elem_of_app. cbn. set_solver. }
  setoid_rewrite Hsplit. case_bool_decide as Hin; cbn [negb] in E; cbv iota in E;
    [|injection E as <- <-; split; [done|]; split; [done|]; intros k; rewrite Hk;
      destruct (decide (k = Device.PublicKey dev)) as [->|]; tauto].
  destruct (Hdevs dev Hp Hin) as [Hne Hf].
  destruct (match conf !! Device.PublicKey dev with Some peer => peerMatches peer dev | None => false end) eqn:Em.
  - injection E as <- <-. split; [done|]. split; [done|].
    assert (has_peer d (Device.PublicKey dev)) as Hd.
    { apply Hconf; [|done]. by destruct (conf !! Device.PublicKey dev). }
    intros k. rewrite Hk. destruct (decide (k = Device.PublicKey dev)) as [->|]; tauto.
  - apply logged_run in E as (-> & r' & E). apply AddPeer_run in E as (_ & Ho' & (p & _ & Hpk) & Hother); [|done|done].
    split; [done|]. split; [by eapply only_wg_trans|]. intros k.
    destruct (decide (k = Device.PublicKey dev)) as [->|Hk'].
    + split; [tauto|]. intros _. by eexists.
    + rewrite Hother by done. rewrite Hk. tauto.
Qed.

(** ** sync *)
(** The public keys of the devices that may connect, as the storage has them. *)
Definition may_connect (now : Time) (m : gmap (string * string) Device) (k : string) : Prop :=
  ∃ kd dev, m !! kd = Some dev ∧ Device.PublicKey dev = k ∧ Device.AccessAllowed dev now = true.
(** Every device has a key and networks that can be read. *)
Definition can_be_peer (dev : Device) : Prop :=
  Device.PublicKey dev ≠ "" ∧ Forall (λ s, is_Some (ParseCIDR s)) (Device.AllowedIPs dev).

Lemma same_device_allowed now dev dev' : same_device dev dev' →
  Device.AccessAllowed dev' now = Device.AccessAllowed dev now.
Proof.
  intros (_ & _ & _ & _ & Hd & He & _). unfold Device.AccessAllowed, Device.Expired. by rewrite Hd, He.
Qed.
Lemma same_device_peer dev dev' : same_device dev dev' → can_be_peer dev → can_be_peer dev'.
Proof.
  intros (_ & Hp & _ & Ha & _ & _ & Hr & _). unfold can_be_peer, Device.AllowedIPs. by rewrite Hp, Ha, Hr.
Qed.

Lemma allowed_keys_spec now s l s' k : ok s → ListAllDevices s = (Ok l, s') →
  k ∈ allowed_keys now l ↔ may_connect now (devices (view s)) k.
Proof.
  intros Hok E. destruct (ListAllDevices_elem _ _ _ Hok E) as [H1' H2'].
  unfold allowed_keys, may_connect. rewrite elem_of_list_to_set, list_elem_of_fmap. split.
  - intros (dev' & -> & [Ha Hin]%list_elem_of_filter). destruct (H2' dev' Hin) as (dev & Hd & Hs).
    exists (Device.key dev'), dev. split; [done|]. rewrite <- (same_device_allowed now _ _ Hs).
    destruct Hs as (_ & -> & _). done.
  - intros (kd & dev & Hd & <- & Ha). destruct (H1' kd dev Hd) as (dev' & Hin & Hs).
    exists dev'. split; [by destruct Hs as (_ & -> & _)|]. apply list_elem_of_filter.
    by rewrite (same_device_allowed now _ _ Hs).
Qed.

(** The peers of a listing are those of the interface. *)
Lemma ListPeers_run d l d' : on_wg ListPeers d = (Ok l, d') → d' = d ∧
  Forall (λ p, p_PublicKey p ≠ "") l ∧ ∀ k, k ∈ p_PublicKey <$> l ↔ has_peer d k.
Proof.
  intros E. unfold on_wg in E. minv. subst. apply wg_list in E as [-> Hl].
  split; [by destruct d|]. split.
  - rewrite Hl. apply Forall_forall. intros p ([k q] & -> & Hin)%list_elem_of_fmap.
    apply elem_of_map_to_list in Hin. cbn. rewrite (peers_keyed _ _ _ Hin). intros ->.
    by rewrite peers_named in Hin.
  - intros k. rewrite Hl, list_elem_of_fmap. unfold has_peer. split.
    + intros (p & -> & ([k' q] & -> & Hin)%list_elem_of_fmap). apply elem_of_map_to_list in Hin.
      cbn. rewrite (peers_keyed _ _ _ Hin). by exists q.
    + intros [p Hp]. exists p. split; [by rewrite (peers_keyed _ _ _ Hp)|].
      apply list_elem_of_fmap. exists (k, p). split; [done|]. by apply elem_of_map_to_list.
Qed.

Lemma configured_keys l k : is_Some (configured_peers l !! k) → k ∈ p_PublicKey <$> l.
Proof.
  unfold configured_peers. assert (∀ m : gmap string Peer, is_Some (fold_left (λ m p, <[p_PublicKey p := p]> m) l m !! k) →
    k ∈ p_PublicKey <$> l ∨ is_Some (m !! k)) as Hgen.
  { induction l as [|p l IH]; intros m Hm; [by right|]. cbn in Hm. apply IH in Hm as [?|Hm]; [by left; right|].
    destruct (decide (p_PublicKey p = k)) as [<-|]; [left; left|]. right. by rewrite lookup_insert_ne in Hm. }
  intros [?|Hs]%Hgen; [done|]. rewrite lookup_empty in Hs. by destruct Hs.
Qed.

Lemma syncFirewallState_wg now devs d r d' : syncFirewallState firewallSync now devs d = (r, d') →
  wg d' = wg d.
Proof.
  unfold syncFirewallState, on_storage, zoom, m_try, m_bind, m_modify, m_ret. destruct firewallSync as [f|].
  - destruct (firewallState now devs (storage d)) as [[st|e] s']; cbn.
    + destruct (String.eqb _ _); [by intros [= _ <-]|]. destruct (f st); by intros [= _ <-].
    + by intros [= _ <-].
  - by intros [= _ <-].
Qed.

Lemma sync_spec now d d' : ok (storage d) →
  (∀ k dev, devices (view (storage d)) !! k = Some dev → can_be_peer dev) →
  sync firewallSync now d = (Ok tt, d') →
  ∀ k, has_peer d' k ↔ may_connect now (devices (view (storage d))) k.
Proof.
  intros Hok Hpeer E k. unfold sync in E. minv.
  match goal with Hl : on_storage ListAllDevices _ = (Ok ?l, _), Hp : on_wg ListPeers _ = (Ok ?ps, _) |- _ =>
    rename Hl into HL, Hp into HP, l into devs, ps into ps end.
  unfold on_storage in HL. minv. subst.
  pose proof (allowed_keys_spec now _ _ _ k Hok HL) as Hallowed.
  destruct (ListAllDevices_elem _ _ _ Hok HL) as [Hl1 Hl2].
  apply ListAllDevices_spec in HL as [-> _]; [|done].
  apply ListPeers_run in HP as (-> & Hne & HP).
  match goal with Hr : m_for (sync_remove _) _ _ = _ |- _ =>
    apply sync_remove_run in Hr as (_ & Hw1 & Hr); [|done]; rename Hr into HR end.
  match goal with Ha : m_for (sync_add _ _) _ _ = _ |- _ =>
    apply sync_add_run in Ha as (_ & Hw2 & Ha); [rename Ha into HA| |] end.
  - apply syncFirewallState_wg in E. unfold has_peer in *. rewrite E, HA, HR, <- Hallowed.
    assert (k ∈ allowed_keys now devs → k ∈ Device.PublicKey <$> devs) as Hin.
    { unfold allowed_keys. rewrite elem_of_list_to_set, !list_elem_of_fmap.
      intros (dev & -> & [_ Hd]%list_elem_of_filter). by exists dev. }
    rewrite HP. cbn. tauto.
  - intros k' Hk' Hin. apply HR. apply configured_keys, HP in Hk'. cbn in *. tauto.
  - intros dev Hin Ha. destruct (Hl2 dev Hin) as (dev0 & Hd0 & Hs).
    apply (same_device_peer dev0); [done|]. by eapply Hpeer.
Qed.

(** ** removeBlockedPeers *)
Lemma exists_cons {A} (P : A → Prop) (x : A) l : (∃ y, y ∈ x :: l ∧ P y) ↔ P x ∨ ∃ y, y ∈ l ∧ P y.
Proof.
  split.
  - intros (y & [->|Hy]%elem_of_cons & HP); [by left|right; by exists y].
  - intros [HP|(y & Hy & HP)]; [exists x|exists y]; (split; [set_solver|done]).
Qed.
Lemma blocked_devices_spec now l k : (is_Some (blocked_devices now l !! k) ↔
  ∃ dev, dev ∈ l ∧ Device.PublicKey dev = k ∧ Device.AccessAllowed dev now = false) ∧
  ∀ dev, blocked_devices now l !! k = Some dev → Device.PublicKey dev = k.
Proof.
  unfold blocked_devices.
  assert (∀ m : gmap string Device, (∀ dev, m !! k = Some dev → Device.PublicKey dev = k) →
    let m' := fold_left (λ m device, if Device.AccessAllowed device now then m
                         else <[Device.PublicKey device := device]> m) l m in
    (is_Some (m' !! k) ↔ is_Some (m !! k) ∨
      ∃ dev, dev ∈ l ∧ Device.PublicKey dev = k ∧ Device.AccessAllowed dev now = false) ∧
    ∀ dev, m' !! k = Some dev → Device.PublicKey dev = k) as Hgen.
  { induction l as [|dev l IH]; intros m Hm; cbn.
    { split; [|done]. split; [by left|]. intros [?|(dev & Hin & _)]; [done|]. by apply not_elem_of_nil in Hin. }
    rewrite exists_cons. destruct (Device.AccessAllowed dev now) eqn:Ea.
    - destruct (IH m Hm) as [IH1 IH2]. split; [|done]. rewrite IH1.
      split; [tauto|]. intros [?|[[_ ?]|?]]; [by left|done|by right].
    - destruct (IH (<[Device.PublicKey dev := dev]> m)) as [IH1 IH2].
      { intros dev' [[<- <-]|[_ ?]]%lookup_insert_Some; [done|by apply Hm]. }
      split; [|done]. rewrite IH1. destruct (decide (Device.PublicKey dev = k)) as [Ek|Hne].
      + rewrite Ek, lookup_insert_eq. split; [by right; left|by left; eexists].
      + rewrite lookup_insert_ne by done. tauto. }
  destruct (Hgen ∅) as [G1 G2]; [by intros ?|]. split; [|done]. rewrite G1, lookup_empty.
  split; [|by right]. intros [[? ?]|?]; done.
Qed.

Lemma remove_blocked_run now blocked ps d r d' :
  Forall (λ p, p_PublicKey p ≠ "") ps →
  (∀ k dev, blocked !! k = Some dev → Device.PublicKey dev = k) →
  m_for (remove_blocked now blocked) ps d = (r, d') →
  r = Ok tt ∧ storage d' = storage d ∧
  ∀ k, has_peer d' k ↔ has_peer d k ∧ (blocked !! k = None ∨ k ∉ p_PublicKey <$> ps).
Proof.
  intros Hps Hb. rewrite Forall_forall in Hps.
  apply (m_for_run _ (λ done d', storage d' = storage d ∧
    ∀ k, has_peer d' k ↔ has_peer d k ∧ (blocked !! k = None ∨ k ∉ p_PublicKey <$> done)) ps d).
  { split; [done|]. intros k. cbn. set_solver. }
  intros pre p d1 r1 d2 [Ho Hk] Hp E. unfold remove_blocked in E.
  assert (∀ k, k ∉ p_PublicKey <$> (pre ++ [p]) ↔ k ∉ p_PublicKey <$> pre ∧ k ≠ p_PublicKey p) as Hsplit.
  { intros k. rewrite fmap_app, not_elem_of_app. cbn. set_solver. }
  destruct (blocked !! p_PublicKey p) as [dev|] eqn:Edev.
  - rewrite (Hb _ _ Edev) in E. unfold m_bind at 1, m_try at 1 in E.
    destruct (on_wg (RemovePeer (p_PublicKey p)) d1) as [r2 d2'] eqn:Er.
    apply RemovePeer_run in Er as (-> & (Hs & _) & Hd); [|by apply Hps]. cbn in E.
    assert (r1 = Ok tt ∧ storage d2 = storage d2' ∧ wg d2 = wg d2') as (-> & Hs2 & Hw2).
    { destruct (Device.Expired dev now); by injection E as <- <-. }
    split; [done|]. split; [congruence|]. intros k. unfold has_peer in *. rewrite Hsplit, Hw2, Hd.
    destruct (decide (k = p_PublicKey p)) as [->|Hne].
    + rewrite lookup_delete_eq, Edev. split; [by intros []|naive_solver].
    + rewrite lookup_delete_ne by done. rewrite Hk. tauto.
  - injection E as <- <-. split; [done|]. split; [done|]. intros k. rewrite Hk, Hsplit.
    destruct (decide (k = p_PublicKey p)) as [->|]; [|tauto]. rewrite Edev. tauto.
Qed.

(** A peer some device of the storage has that may not connect. *)
Definition blocked_key (now : Time) (m : gmap (string * string) Device) (k : string) : Prop :=
  ∃ kd dev, m !! kd = Some dev ∧ Device.PublicKey dev = k ∧ Device.AccessAllowed dev now = false.

Lemma removeBlockedPeers_spec now d l s' r d' : ok (storage d) →
  ListAllDevices (storage d) = (Ok l, s') →
  removeBlockedPeers now d = (r, d') → r = Ok tt ∧ storage d' = storage d ∧
  ∀ k, has_peer d' k ↔ has_peer d k ∧ ¬ blocked_key now (devices (view (storage d))) k.
Proof.
  intros Hok HL E. destruct (ListAllDevices_elem _ _ _ Hok HL) as [Hl1 Hl2].
  pose proof HL as HL'. apply ListAllDevices_spec in HL' as [-> _]; [|done].
  unfold removeBlockedPeers in E. unfold m_bind at 1, m_try at 1, on_storage, zoom at 1 in E. rewrite HL in E.
  assert (set_storage (storage d) d = d) as Hset by by destruct d. rewrite Hset in E.
  assert (∀ k, is_Some (blocked_devices now l !! k) ↔ blocked_key now (devices (view (storage d))) k) as Hb.
  { intros k. rewrite (proj1 (blocked_devices_spec now l k)). unfold blocked_key. split.
    - intros (dev' & Hin & <- & Ha). destruct (Hl2 _ Hin) as (dev & Hd & Hs).
      exists (Device.key dev'), dev. split; [done|]. rewrite <- (same_device_allowed now _ _ Hs).
      by destruct Hs as (_ & -> & _).
    - intros (kd & dev & Hd & <- & Ha). destruct (Hl1 _ _ Hd) as (dev' & Hin & Hs).
      exists dev'. rewrite (same_device_allowed now _ _ Hs). by destruct Hs as (_ & -> & _). }
  case_bool_decide as Hempty.
  - injection E as <- <-. split; [done|]. split; [done|]. intros k. rewrite <- Hb, Hempty, lookup_empty.
    split; [|tauto]. intros ?. split; [done|]. by intros [].
  - destruct (list_works (wg d)) as [ps El].
    unfold m_bind at 1, m_try at 1, on_wg, zoom at 1 in E. rewrite El in E.
    assert (set_wg (wg d) d = d) as Hset' by by destruct d. rewrite Hset' in E.
    assert (on_wg ListPeers d = (Ok ps, d)) as HP by (unfold on_wg, zoom; by rewrite El, Hset').
    apply ListPeers_run in HP as (_ & Hne & HP).
    apply remove_blocked_run in E as (-> & Hs & Hk); [|done|].
    + split; [done|]. split; [done|]. intros k. rewrite Hk, <- Hb, HP, <- eq_None_not_Some. tauto.
    + intros k dev. apply blocked_devices_spec.
Qed.

(** ** Events and rotated keys *)
Lemma applyPeer_run now dev d r d' : can_be_peer dev → applyPeer now dev d = (r, d') →
  r = Ok tt ∧ only_wg d d' ∧ (has_peer d' (Device.PublicKey dev) ↔ Device.AccessAllowed dev now = true) ∧
  ∀ k, k ≠ Device.PublicKey dev → has_peer d' k ↔ has_peer d k.
Proof.
  intros [Hne Hf] E. unfold applyPeer in E. destruct (Device.AccessAllowed dev now).
  - apply AddPeer_run in E as (-> & Ho & (p & _ & Hp) & Hk); [|done|done].
    split; [done|]. split; [done|]. split; [|done]. split; [done|]. intros _. by exists p.
  - cbn [negb] in E. cbv iota in E. unfold m_wrap in E.
    destruct (on_wg (RemovePeer (Device.PublicKey dev)) d) as [r1 d1] eqn:Er.
    apply RemovePeer_run in Er as (-> & Ho & Hd); [|done]. injection E as <- <-.
    split; [done|]. split; [done|]. unfold has_peer. rewrite Hd. split.
    + rewrite lookup_delete_eq. split; [by intros []|done].
    + intros k Hk. by rewrite lookup_delete_ne.
Qed.

Definition event_device (e : Event) : Device :=
  match e with EvAdd d | EvUpdate d | EvDelete d => d end.
(** The device of the event may have a peer when it has been handled. *)
Definition event_allows (now : Time) (e : Event) : Prop :=
  match e with
  | EvAdd d | EvUpdate d => Device.AccessAllowed d now = true
  | EvDelete _ => False
  end.

Lemma handle_event_spec now e d r d' : can_be_peer (event_device e) → handle_event now e d = (r, d') →
  r = Ok tt ∧ storage d' = storage d ∧ resync d' = true ∧
  (has_peer d' (Device.PublicKey (event_device e)) ↔ event_allows now e) ∧
  ∀ k, k ≠ Device.PublicKey (event_device e) → has_peer d' k ↔ has_peer d k.
Proof.
  intros Hp E. assert (∀ m, (do! logged m; Resync) d = (r, d') → ∃ r1 d1, m d = (r1, d1) ∧
    r = Ok tt ∧ d' = set_resync true d1) as Hrun.
  { intros m Em. unfold m_bind at 1 in Em. destruct (logged m d) as [r1 d1] eqn:El.
    apply logged_run in El as (-> & r' & Em'). injection Em as <- <-. by exists r', d1. }
  destruct e as [dev|dev|dev]; cbn [handle_event event_device event_allows] in *;
    apply Hrun in E as (r1 & d1 & Em & -> & ->).
  1-2: apply applyPeer_run in Em as (_ & (Hs & _) & Ha & Hk); [|done]; done.
  destruct Hp as [Hne _]. apply RemovePeer_run in Em as (_ & (Hs & _) & Hd); [|done].
  split; [done|]. split; [done|]. split; [done|]. unfold has_peer. cbn. rewrite Hd. split.
  - rewrite lookup_delete_eq. split; [by intros []|done].
  - intros k Hk. by rewrite lookup_delete_ne.
Qed.

Lemma key_ok_ne k : key_ok k → k ≠ "".
Proof. by intros Hk ->. Qed.

Lemma RotateDeviceKey_spec now user name pk psk d dev d' : ok (storage d) →
  (∀ k dev, devices (view (storage d)) !! k = Some dev → can_be_peer dev) →
  RotateDeviceKey now user name pk psk d = (Ok dev, d') →
  key_ok pk ∧ (psk = "" ∨ key_ok psk) ∧ ok (storage d') ∧
  ∃ stored, devices (view (storage d)) !! (user, name) = Some stored ∧
    Device.PublicKey stored ≠ pk ∧ key_free (devices (view (storage d))) (user, name) pk ∧
    dev = Device.with_Keys pk psk stored ∧
    view (storage d') = on_devices <[(user, name) := dev]> (view (storage d)) ∧
    ¬ has_peer d' (Device.PublicKey stored) ∧
    (has_peer d' pk ↔ Device.AccessAllowed stored now = true).
Proof.
  intros Hok Hpeer E. unfold RotateDeviceKey in E. minv.
  apply negb_false_iff in Hguard. split; [done|]. split.
  { apply andb_false_iff in Hguard0 as [Hg|Hg]; apply negb_false_iff in Hg; [left|by right].
    unfold slen in Hg. destruct psk; [done|]. apply Z.eqb_eq in Hg. simpl in Hg. lia. }
  match goal with Hx : logged (applyPeer _ ?c) _ = _, Hl : logged _ _ = _ |- _ =>
    apply logged_run in Hl as (_ & ? & Hl) end.
  match goal with Hx : logged _ _ = _ |- _ => apply logged_run in Hx as (_ & ? & Hx) end.
  unfold on_storage in *. minv. subst.
  match goal with Hg : Get _ _ _ = _ |- _ => apply Get_spec in Hg as (-> & Hl & Hk); [|done] end.
  match goal with Hg : GetByPublicKey _ _ = _ |- _ =>
    apply (query_ok _ _ _ _ _ (law_GetByPublicKey pk)) in Hg as [-> _]; [|done] end.
  match goal with Hs : SetKeys _ _ _ _ = _ |- _ =>
    apply law_SetKeys in Hs as (Hok' & evs & (stored & Hst & Hfree & Hv & Hr & _) & _); [|done] end.
  rewrite Hk in *. cbn in Hst. rewrite Hl in Hst. injection Hst as <-.
  assert (dev = Device.with_Keys pk psk x) as -> by by destruct Hr.
  destruct (Hpeer _ _ Hl) as [Hne Hf].
  assert (Device.PublicKey x ≠ pk) as Hdiff by (by apply String.eqb_neq).
  match goal with HA : applyPeer _ _ ?d2 = _, HR : on_wg _ _ = (_, ?d2) |- _ =>
    apply RemovePeer_run in HR as (_ & (Hs1 & _) & Hd1); [|done];
    apply applyPeer_run in HA as (_ & (Hs2 & _) & Hpeer' & Hother);
      [|split; [by apply key_ok_ne|exact Hf]] end.
  rewrite Hs2, Hs1. cbn. split; [done|]. exists x.
  split; [done|]. split; [done|]. split; [done|]. split; [done|]. split; [|split].
  - exact Hv.
  - rewrite Hother by done. unfold has_peer. rewrite Hd1, lookup_delete_eq. by intros [].
  - exact Hpeer'.
Qed.

(** ** checkAndRemove *)
Definition inactive (now : Time) (grace : Z) (dev : Device) : Prop := grace < elapsed now dev.
(** What a pass over the devices may have done to the table. *)
Definition pruned (now : Time) (grace : Z) (d d' : DM) : Prop :=
  let before := devices (view (storage d)) in
  let after := devices (view (storage d')) in
  ok (storage d') ∧ wg d' = wg d ∧ after ⊆ before ∧
  (∀ k dev, before !! k = Some dev → ¬ inactive now grace dev → after !! k = Some dev) ∧
  (∀ k dev, before !! k = Some dev → after !! k = None → DeviceDelete k.1 k.2 ∈ audited d').

Lemma atomic_DeleteDevice owner name : atomic (S := S) (DeleteDevice owner name).
Proof. unfold DeleteDevice. solve_atomic. Qed.

Lemma same_device_elapsed now dev dev' : same_device dev dev' → elapsed now dev' = elapsed now dev.
Proof. intros (_ & _ & _ & _ & _ & _ & _ & Hc & Hl). unfold elapsed. by rewrite Hc, Hl. Qed.

Lemma check_inactive_run now grace dev d0 d r d' : pruned now grace d0 d →
  (∃ stored, devices (view (storage d0)) !! Device.key dev = Some stored ∧ same_device stored dev) →
  check_inactive now grace dev d = (r, d') → r = Ok tt ∧ pruned now grace d0 d'.
Proof.
  intros Hd (stored & Hst & Hsame) E. unfold check_inactive in E.
  destruct (Z.leb_spec (elapsed now dev) grace) as [|Hlong]; [by injection E as <- <-|].
  unfold m_bind at 1, m_try at 1, on_storage, zoom at 1 in E.
  destruct (DeleteDevice (Device.Owner dev) (Device.Name dev) (storage d)) as [r1 s1] eqn:Ed.
  destruct Hd as (Hok & Hwg & Hsub & Hkeep & Hlog).
  pose proof (atomic_DeleteDevice _ _ _ _ _ Hok Ed) as [Hok1 Herr].
  destruct r1 as [[]|e]; cbn in E; injection E as <- <-; (split; [done|]).
  - apply DeleteDevice_spec in Ed as (_ & dev' & Hdev' & Hv & _); [|done].
    unfold pruned. cbn. rewrite Hv. cbn. split; [done|]. split; [done|]. split; [|split].
    + etrans; [apply delete_subseteq|done].
    + intros k dev0 Hk Hact. rewrite lookup_delete_ne; [by apply Hkeep|]. intros <-. apply Hact.
      unfold Device.key in Hst. rewrite Hk in Hst. injection Hst as ->. unfold inactive.
      by rewrite <- (same_device_elapsed _ _ _ Hsame).
    + intros k dev0 Hk Hnone. apply elem_of_app.
      destruct (decide (k = (Device.Owner dev, Device.Name dev))) as [->|Hne]; [right; left|].
      rewrite lookup_delete_ne in Hnone by done. left. by eapply Hlog.
  - destruct (Herr e eq_refl) as (_ & Hv & _). unfold pruned. cbn. rewrite Hv. done.
Qed.

Lemma checkAndRemove_spec now grace d r d' : ok (storage d) → checkAndRemove now grace d = (r, d') →
  r = Ok tt ∧ pruned now grace d d'.
Proof.
  intros Hok E. assert (pruned now grace d d) as Hrefl.
  { split; [done|]. split; [done|]. split; [done|]. split; [done|]. intros k dev Hk. by rewrite Hk. }
  unfold checkAndRemove in E. unfold m_bind at 1, m_try at 1, on_storage, zoom at 1 in E.
  destruct (ListAllDevices (storage d)) as [[l|e] s1] eqn:El.
  - destruct (ListAllDevices_elem _ _ _ Hok El) as [_ Hl].
    apply ListAllDevices_spec in El as [-> _]; [|done].
    assert (set_storage (storage d) d = d) as Hset by by destruct d. rewrite Hset in E.
    apply (m_for_run _ (λ _ d', pruned now grace d d') l d) in E; [done|done|].
    intros _ dev d1 r1 d2 Hd1 Hin E1. eapply check_inactive_run; [done| |done]. by apply Hl.
  - pose proof (readonly_ListAll _ _ _ Hok El) as (Hok1 & Hv & _). injection E as <- <-.
    split; [done|]. unfold pruned in *. cbn. rewrite Hv. destruct Hrefl as (_ & ?). done.
Qed.
End specs.
