(* ===== verification/AuditLog.v ===== *)
(** * internal/audit/audit.go: who changed what

    An entry is the set of fields of the log line. The logger itself is
    third-party code; what it is handed is kept in the state. *)
From S2P Require Import Prelude GoText GoNet Storage AuthSession.

Definition DeviceCreate : string := "device.create".
Definition DeviceDelete : string := "device.delete".
Definition DeviceRename : string := "device.rename".
Definition DeviceAccess : string := "device.access".
Definition DeviceRotate : string := "device.rotate".
Definition DeviceRoutes : string := "device.routes".
Definition UserDelete : string := "user.delete".
Definition UserPassword : string := "user.password".
Definition UserTwoFactor : string := "user.two_factor".
Definition UserTwoFactorReset : string := "user.two_factor_reset".
Definition UserRecoveryCodes : string := "user.recovery_codes".
Definition UserPasskeyAdd : string := "user.passkey_add".
Definition UserPasskeyRename : string := "user.passkey_rename".
Definition UserPasskeyDelete : string := "user.passkey_delete".
Definition UserRevoke : string := "user.revoke".
Definition SessionDelete : string := "session.delete".
Definition TokenCreate : string := "api_token.create".
Definition TokenDelete : string := "api_token.delete".
Definition SystemActor : string := "system".

(** The value of a field, in the types the program logs. *)
Inductive field :=
  | FString (s : string)
  | FBool (b : bool)
  | FInt (n : Z)
  | FTime (t : Time).
Notation Fields := (gmap string field).

(** What [WithRemoteAddr] keeps of the address of a request. *)
Definition WithRemoteAddr (remoteAddr : string) : string :=
  match SplitHostPort remoteAddr with Some (host, _) => host | None => remoteAddr end.

(** The fields of a line; those of the action come last and win. *)
Definition Log (ctx : Ctx) (trace remoteAddr action : string) (fields : Fields) : Fields :=
  let base : Fields := {[ "audit" := FString action; "actor" := FString SystemActor;
                          "trace.id" := FString trace; "component" := FString "audit" ]} in
  let base :=
    match CurrentUser ctx with
    | Ok user =>
        let base := <["actor" := FString (Identity.Subject user)]>
                   (<["actor_provider" := FString (Identity.Provider user)]>
                   (<["actor_is_admin" := FBool (IsAdmin (Identity.Claims user))]> base)) in
        if String.eqb (APIToken_id ctx) "" then base
        else <["actor_api_token" := FString (APIToken_id ctx)]> base
    | Err _ => base
    end in
  let base := if String.eqb remoteAddr "" then base else <["remote_addr" := FString remoteAddr]> base in
  fields ∪ base.

Example audit_ex :
  let ctx := Some (mkAuthSession None None None "" (Some (Identity.mk "simple" "ada" "Ada" "" [])) "tok" None) in
  let line := Log ctx "t1" (WithRemoteAddr "192.0.2.1:99") UserDelete {["target_user" := FString "bob"]} in
  line !! "actor" = Some (FString "ada") ∧ line !! "actor_api_token" = Some (FString "tok") ∧
  line !! "remote_addr" = Some (FString "192.0.2.1") ∧ line !! "target_user" = Some (FString "bob").
Proof. vm_compute. done. Qed.
