(* ===== verification/Api.v ===== *)
(** * internal/api: what the services share, and the devices

    The state behind the API, the context of a call, the errors a client gets
    ([router.go]), and [device_service.go]. The messages are the generated types
    of proto/, as plain records; the transport is third-party code. *)
From S2P Require Import Prelude GoText GoNet Network Encoding Storage AuthSession.
From S2P Require Import WireGuard Devices Routes Manager AuditLog Totp Passkeys Passwords TwoFactor.

(** ** The state and the context of a call *)
Record Server (S W : Type) := mkServer {
  manager : DeviceManager S W;
  wrong_passwords : gmap string wrongPasswords;
  audit_log : list Fields }.
Arguments mkServer {S W} _ _ _. Arguments manager {S W} _.
Arguments wrong_passwords {S W} _. Arguments audit_log {S W} _.

(** What a request carries: its session, itself, the trace id, the address the
    audit log gets and the time. *)
Record CallContext := mkCall {
  ctx : Ctx;
  request : option Request;
  trace : string;
  remote_addr : string;
  now : Time }.

(** [int32(n)] *)
Definition int32 (n : Z) : Z := (n + 2 ^ 31) mod 2 ^ 32 - 2 ^ 31.

(** ** router.go: errors *)
Definition connect_error (code : connect_code) (msg : string) : goerror := ConnectError code (PlainError msg).
Definition errNotAuthenticated : goerror := connect_error CodePermissionDenied "not authenticated".
Definition errNotAdmin : goerror := connect_error CodePermissionDenied "must be an admin".
(** The cause is only logged. *)
Definition internalError (c : CallContext) (what : string) : goerror :=
  connect_error CodeInternal (what +:+ " (trace = " +:+ trace c +:+ ")").

(** A call whose error is answered with another one. *)
Definition m_answer {St A} (f : goerror → goerror) (m : M St A) : M St A := λ s,
  match m s with
  | (Ok a, s') => (Ok a, s')
  | (Err e, s') => (Err (f e), s')
  end.

Section lifts.
  Context {S W : Type}.
  Notation Srv := (Server S W).
Definition on_manager {A} (m : M (DeviceManager S W) A) : M Srv A :=
  zoom manager (λ d s, mkServer d (wrong_passwords s) (audit_log s)) m.
Definition on_data {A} (m : M S A) : M Srv A := on_manager (on_storage m).
Definition on_accounts {A} (m : M (Accounts S) A) : M Srv A :=
  zoom (λ s, mkAccounts (storage (manager s)) (wrong_passwords s))
       (λ u s, mkServer (set_storage (store u) (manager s)) (wrong u) (audit_log s)) m.
Definition audit (c : CallContext) (action : string) (fields : Fields) : M Srv unit :=
  m_modify (λ s, mkServer (manager s) (wrong_passwords s)
    (audit_log s ++ [Log (ctx c) (trace c) (remote_addr c) action fields])).

Definition current_user (c : CallContext) : M Srv Identity := m_answer (λ _, errNotAuthenticated) (lift (CurrentUser (ctx c))).
Definition is_admin (user : Identity) : bool := IsAdmin (Identity.Claims user).
End lifts.

(** ** converters and messages of devices *)
Module DeviceMsg.
Record t := mk {
  Name : string; Owner : string; OwnerName : string; OwnerEmail : string; OwnerProvider : string;
  PublicKey : string; PresharedKey : string; Address : string; CreatedAt : Time;
  LastHandshakeTime : option Time; ReceiveBytes : Z; TransmitBytes : Z; Endpoint : string;
  Disabled : bool; ExpiresAt : option Time; Routes : list string; Connected : bool }.
End DeviceMsg.
Definition mapDevice (now : Time) (d : Device) : DeviceMsg.t :=
  DeviceMsg.mk (Device.Name d) (Device.Owner d) (Device.OwnerName d) (Device.OwnerEmail d)
    (Device.OwnerProvider d) (Device.PublicKey d) (Device.PresharedKey d) (Device.Address d)
    (Device.CreatedAt d) (Device.LastHandshakeTime d) (Device.ReceiveBytes d) (Device.TransmitBytes d)
    (Device.Endpoint d) (Device.Disabled d) (Device.ExpiresAt d) (Device.RouteList d)
    (match Device.LastHandshakeTime d with Some t => IsConnected now t | None => false end).
Definition mapDevices (now : Time) (devices : list Device) : list DeviceMsg.t := mapDevice now <$> devices.

(** ** device_service.go *)
Section devices.
  Context {S W : Type} `{Storage S} `{WireGuard W} (cfg : Config).
  (** The addresses of the host, which [SetDeviceRoutes] reads. *)
  Variable host_addrs : result (list (option string)).
  Notation Srv := (Server S W).
  Implicit Types (c : CallContext).

(** Only a validation error carries its message to the client. *)
Definition deviceError c (fallback : string) (err : goerror) : goerror :=
  match as_validation err with
  | Some msg => ConnectError CodeInvalidArgument (ValidationError msg)
  | None => internalError c fallback
  end.

Definition AddDevice_call c (name publicKey presharedKey : string) (manual : bool) (ipv4 ipv6 : string) : M Srv DeviceMsg.t :=
  let! user := current_user c in
  let! device := m_answer (deviceError c "failed to add device")
    (on_data (AddDevice cfg (now c) user name publicKey presharedKey manual ipv4 ipv6)) in
  do! audit c DeviceCreate {[ "device" := FString (Device.Name device); "owner" := FString (Device.Owner device);
                              "address" := FString (Device.Address device) ]};
  m_ret (mapDevice (now c) device).

Definition ListDevices_call c : M Srv (list DeviceMsg.t) :=
  let! user := current_user c in
  let! devices := m_answer (λ _, internalError c "failed to retrieve devices")
    (on_data (ListDevices (Identity.Subject user))) in
  m_ret (mapDevices (now c) devices).

(** Whose device: the caller's, or for an admin the one they name. *)
Definition device_owner (user : Identity) (owner : option string) : M Srv string :=
  match owner with
  | None => m_ret (Identity.Subject user)
  | Some owner => if is_admin user then m_ret owner else m_fail errNotAdmin
  end.

Definition DeleteDevice_call c (owner : option string) (name : string) : M Srv unit :=
  let! user := current_user c in
  let! deviceOwner := device_owner user owner in
  do! m_answer (deviceError c "failed to delete device") (on_data (DeleteDevice deviceOwner name));
  audit c AuditLog.DeviceDelete {[ "device" := FString name; "owner" := FString deviceOwner ]}.

Definition RenameDevice_call c (owner : option string) (name newName : string) : M Srv DeviceMsg.t :=
  let! user := current_user c in
  let! deviceOwner := device_owner user owner in
  let! device := m_answer (deviceError c "failed to rename device") (on_data (RenameDevice deviceOwner name newName)) in
  do! audit c DeviceRename {[ "device" := FString newName; "previous" := FString name; "owner" := FString deviceOwner ]};
  m_ret (mapDevice (now c) device).

Definition RotateDeviceKey_call c (name publicKey presharedKey : string) : M Srv DeviceMsg.t :=
  let! user := current_user c in
  let! device := m_answer (deviceError c "failed to change the keys of the device")
    (on_manager (RotateDeviceKey (now c) (Identity.Subject user) name publicKey presharedKey)) in
  do! audit c DeviceRotate {[ "device" := FString (Device.Name device); "owner" := FString (Device.Owner device) ]};
  m_ret (mapDevice (now c) device).

Definition SetDeviceAccess_call c (owner : option string) (name : string) (disabled : option bool)
    (expiresAt : option Time) (clearExpiresAt : bool) : M Srv DeviceMsg.t :=
  let! user := current_user c in
  stop! errNotAdmin when negb (is_admin user);
  let deviceOwner := default (Identity.Subject user) owner in
  let change := mkAccessChange disabled expiresAt clearExpiresAt in
  let! device := m_answer (deviceError c "failed to change the access of the device")
    (on_data (SetDeviceAccess (now c) deviceOwner name change)) in
  let fields : Fields := {[ "device" := FString (Device.Name device); "owner" := FString (Device.Owner device);
                            "disabled" := FBool (Device.Disabled device) ]} in
  do! audit c DeviceAccess
    (match Device.ExpiresAt device with Some e => <["expires_at" := FTime e]> fields | None => fields end);
  m_ret (mapDevice (now c) device).

Definition SetDeviceRoutes_call c (owner : option string) (name : string) (routes : list string) : M Srv DeviceMsg.t :=
  let! user := current_user c in
  stop! errNotAdmin when negb (is_admin user);
  let deviceOwner := default (Identity.Subject user) owner in
  let! device := m_answer (deviceError c "failed to change the routes of the device")
    (on_data (SetDeviceRoutes cfg host_addrs deviceOwner name routes)) in
  do! audit c AuditLog.DeviceRoutes {[ "device" := FString (Device.Name device); "owner" := FString (Device.Owner device);
                              "routes" := FString (Device.Routes device) ]};
  m_ret (mapDevice (now c) device).

Definition ListAllDevices_call c : M Srv (list DeviceMsg.t) :=
  let! user := current_user c in
  stop! errNotAdmin when negb (is_admin user);
  let! devices := m_answer (λ _, internalError c "failed to retrieve devices") (on_data ListAllDevices) in
  m_ret (mapDevices (now c) devices).
End devices.
