(* ===== verification/ApiUsers.v ===== *)
(** * internal/api/user_service.go: accounts and their second factors

    [deps] says which parts are there; the random bytes of a call are arguments.
    A failure that is only logged changes nothing here. *)
From S2P Require Import Prelude GoText GoNet Network Encoding Storage AuthSession.
From S2P Require Import WireGuard Devices Routes Manager AuditLog Totp Passkeys Passwords TwoFactor.
From S2P Require Import ApiTokens WebSessions Api.

(** The second factor with what it was given. *)
Record TwoFactorDeps := mkTwoFactorDeps {
  tf_passwords : option (string → option string);
  tf_passkeys : bool;
  tf_issuer : string }.
Record Deps := mkDeps {
  dp_Passwords : option (string → option string);
  dp_TwoFactor : option TwoFactorDeps;
  dp_Passkeys : option (option Request → string * string);
  dp_Tokens : bool;
  dp_Sessions : bool }.

(** authconfig.HasPassword *)
Definition HasPassword (provider : string) : bool :=
  String.eqb provider BasicAuthProvider || String.eqb provider SimpleAuthProvider.
Definition minPasswordLength : Z := 10.

Definition refuseAPIToken (c : CallContext) : result unit :=
  if negb (String.eqb (APIToken_id (ctx c)) "")
  then Err (connect_error CodePermissionDenied "an API token cannot manage the account: do this in the web UI")
  else Ok tt.
Definition errTooManyWrongPasswords : goerror :=
  connect_error CodeResourceExhausted "too many wrong passwords: wait a few minutes before you try again".
Definition errNoSecondFactorHere : goerror :=
  connect_error CodeFailedPrecondition
    "basic auth cannot ask for a second factor: sign in with the password form to set one up".

Record RevokeAccessRes := mkRevokeAccessRes { DevicesBlocked : Z; TokensDeleted : Z; SessionsEnded : Z }.
Record PasskeyMsg := mkPasskeyMsg {
  pk_Id : string; pk_Name : string; pk_CreatedAt : Time; pk_LastUsedAt : option Time }.

Section users.
  Context {S W : Type} `{Storage S} `{PasswordHashing} `{UpperTable} `{WebAuthn}.
  Variable deps : Deps.
  Notation Srv := (Server S W).
  Implicit Types (c : CallContext).

Definition ListUsers_call c : M Srv (list ListedUser) :=
  let! user := current_user c in
  stop! errNotAdmin when negb (is_admin user);
  m_answer (λ _, internalError c "failed to retrieve users") (on_data ListUsers).

(** Revoking the tokens and ending the sessions of somebody, if the server has
    any; both come before anything else of theirs is touched. *)
Definition delete_tokens c (what name : string) : M Srv Z :=
  if dp_Tokens deps then m_answer (λ _, internalError c what) (on_data (DeleteForOwner name)) else m_ret 0.
Definition end_sessions c (what name : string) : M Srv Z :=
  if dp_Sessions deps then m_answer (λ _, internalError c what) (on_data (EndAllForOwner name)) else m_ret 0.

Definition DeleteUser_call c (name : string) : M Srv unit :=
  let! user := current_user c in
  stop! errNotAdmin when negb (is_admin user);
  let what := "failed to delete user" in
  do! delete_tokens c what name;
  do! end_sessions c what name;
  do! m_answer (λ _, internalError c what) (on_data (DeleteDevicesForUser name));
  do! m_answer (λ _, internalError c what) (on_data (ForgetUser name));
  audit c UserDelete {[ "target_user" := FString name ]}.

Definition RevokeAccess_call c (name : string) : M Srv RevokeAccessRes :=
  let! user := current_user c in
  stop! errNotAdmin when negb (is_admin user);
  stop! (connect_error CodeFailedPrecondition
          "this would take your own access away: block your devices and sign out instead")
    when String.eqb name (Identity.Subject user);
  let what := "failed to revoke the access of the user" in
  let! deleted := delete_tokens c what name in
  let! ended := end_sessions c what name in
  let! blocked := m_answer (λ _, internalError c what) (on_data (BlockDevicesForUser name)) in
  let res := mkRevokeAccessRes (int32 blocked) (int32 deleted) (int32 ended) in
  do! audit c UserRevoke {[ "target_user" := FString name; "devices_blocked" := FInt (DevicesBlocked res);
                            "tokens_deleted" := FInt (TokensDeleted res); "sessions_ended" := FInt (SessionsEnded res) ]};
  m_ret res.

(** The sessions go before the tokens, and what fails is logged. *)
Definition keep_session c : M Srv string :=
  let! r := m_try (on_data (Find (CurrentSessionID (ctx c)))) in
  m_ret (match r with Ok session => Session.ID session | Err _ => "" end).
Definition signOutElsewhere c (subject : string) : M Srv (Z * Z) :=
  let! ended := (if dp_Sessions deps then
                   let! keep := keep_session c in
                   let! r := m_try (on_data (EndOthers subject keep)) in
                   m_ret (match r with Ok (ended, _) => ended | Err _ => 0 end)
                 else m_ret 0) in
  let! deleted := (if dp_Tokens deps then
                     let! r := m_try (on_data (DeleteForOwner subject)) in
                     m_ret (match r with Ok deleted => deleted | Err _ => 0 end)
                   else m_ret 0) in
  m_ret (ended, deleted).

Definition change_error c (e : goerror) : goerror :=
  if error_is e ErrTooManyAttempts then errTooManyWrongPasswords
  else if error_is e ErrWrongPassword then connect_error CodePermissionDenied "that is not your current password"
  else if error_is e ErrNoPasswordHere then
    connect_error CodeFailedPrecondition "this account is not one the server keeps a password for"
  else internalError c "failed to change the password".
(** Answers the number of sessions that were ended. *)
Definition ChangePassword_call c (current next : string) : M Srv Z :=
  let! user := current_user c in
  do! lift (refuseAPIToken c);
  match dp_Passwords deps with
  | Some configured =>
      stop! (connect_error CodeFailedPrecondition
              "this account's password is not kept here: change it where you sign in")
        when negb (HasPassword (Identity.Provider user));
      stop! (connect_error CodeInvalidArgument
              ("the new password has to be at least " +:+ Itoa minPasswordLength +:+ " characters"))
        when slen next <? minPasswordLength;
      do! m_answer (change_error c) (on_accounts (Change configured (Identity.Subject user) current next (now c)));
      let! (ended, deleted) := signOutElsewhere c (Identity.Subject user) in
      do! audit c UserPassword {[ "sessions_ended" := FInt ended; "tokens_deleted" := FInt deleted ]};
      m_ret (int32 ended)
  | None => m_fail (connect_error CodeFailedPrecondition
              "this account's password is not kept here: change it where you sign in")
  end.

(** ** The second factor *)
Definition twoFactorFor c : M Srv (Identity * TwoFactorDeps) :=
  let! user := current_user c in
  do! lift (refuseAPIToken c);
  match dp_TwoFactor deps with
  | Some tf =>
      stop! (connect_error CodeFailedPrecondition
              "this account signs in through an identity provider: set up a second factor there")
        when negb (HasPassword (Identity.Provider user));
      stop! errNoSecondFactorHere when negb (String.eqb (Identity.Provider user) SimpleAuthProvider);
      m_ret (user, tf)
  | None => m_fail (connect_error CodeFailedPrecondition
              "this account signs in through an identity provider: set up a second factor there")
  end.

Definition StartTwoFactor_call c (buf : list Z) : M Srv (string * string) :=
  let! (user, tf) := twoFactorFor c in
  let account := if String.eqb (Identity.Name user) "" then Identity.Subject user else Identity.Name user in
  m_answer (λ e, if error_is e ErrTwoFactorSet
                 then connect_error CodeFailedPrecondition "this account already has a second factor: turn it off first"
                 else internalError c "failed to start the two-factor setup")
    (on_accounts (Start (tf_issuer tf) (Identity.Subject user) account buf)).

Definition confirm_error c (e : goerror) : goerror :=
  if error_is e ErrWrongCode then connect_error CodeInvalidArgument "that code is not right"
  else if error_is e ErrNoTwoFactor then connect_error CodeFailedPrecondition "start the setup first"
  else if error_is e ErrTwoFactorSet then
    connect_error CodeFailedPrecondition "this account already has a second factor"
  else internalError c "failed to turn the second factor on".
Definition ConfirmTwoFactor_call c (code : string) (bufs : list (list Z)) : M Srv (list string) :=
  let! (user, tf) := twoFactorFor c in
  let! codes := m_answer (confirm_error c) (on_accounts (Confirm (Identity.Subject user) code (now c) bufs)) in
  let! (ended, deleted) := signOutElsewhere c (Identity.Subject user) in
  do! audit c UserTwoFactor {[ "enabled" := FBool true; "sessions_ended" := FInt ended; "tokens_deleted" := FInt deleted ]};
  m_ret codes.

Definition password_error c (what : string) (e : goerror) : goerror :=
  if error_is e ErrTooManyAttempts then errTooManyWrongPasswords
  else if error_is e ErrWrongPassword then connect_error CodePermissionDenied "that is not your password"
  else internalError c what.
Definition DisableTwoFactor_call c (password : string) : M Srv unit :=
  let! (user, tf) := twoFactorFor c in
  do! m_answer (password_error c "failed to turn the second factor off")
    (on_accounts (Disable (tf_passwords tf) (Identity.Subject user) password (now c)));
  audit c UserTwoFactor {[ "enabled" := FBool false ]}.

Definition ResetTwoFactor_call c (name : string) : M Srv unit :=
  let! user := current_user c in
  stop! errNotAdmin when negb (is_admin user);
  stop! (connect_error CodeFailedPrecondition "this server keeps no second factors")
    when bool_decide (dp_TwoFactor deps = None);
  do! m_answer (λ e, if error_is e ErrNoTwoFactor || error_is e ErrNoPasswordHere
                     then connect_error CodeNotFound "this user has no second factor"
                     else internalError c "failed to remove the second factor")
    (on_accounts (Reset_factor name));
  audit c UserTwoFactorReset {[ "target_user" := FString name ]}.

Definition recovery_error c (e : goerror) : goerror :=
  if error_is e ErrNoTwoFactor then connect_error CodeFailedPrecondition
    "this account has no authenticator app set up, so it has no recovery codes"
  else if error_is e ErrTooManyAttempts then errTooManyWrongPasswords
  else if error_is e ErrWrongPassword then connect_error CodePermissionDenied "that is not your password"
  else if error_is e ErrNoPasswordHere then ConnectError CodeFailedPrecondition e
  else internalError c "failed to replace the recovery codes".
Definition NewRecoveryCodes_call c (password : string) (bufs : list (list Z)) : M Srv (list string) :=
  let! (user, tf) := twoFactorFor c in
  let! codes_left := on_accounts (RecoveryCodesLeft (Identity.Subject user)) in
  let! codes := m_answer (recovery_error c)
    (on_accounts (ReplaceRecoveryCodes (tf_passwords tf) (Identity.Subject user) password (now c) bufs)) in
  do! audit c UserRecoveryCodes {[ "codes_left_before" := FInt codes_left ]};
  m_ret codes.

(** ** Passkeys *)
Definition passkeysFor c : M Srv (Identity * (option Request → string * string)) :=
  let! user := current_user c in
  match dp_Passkeys deps with
  | Some relyingParty =>
      stop! (connect_error CodeFailedPrecondition
              "this account signs in through an identity provider: its passkeys belong there")
        when negb (HasPassword (Identity.Provider user));
      stop! errNoSecondFactorHere when negb (String.eqb (Identity.Provider user) SimpleAuthProvider);
      m_ret (user, relyingParty)
  | None => m_fail (connect_error CodeFailedPrecondition
              "this account signs in through an identity provider: its passkeys belong there")
  end.
Definition mapPasskey (p : Passkey) : PasskeyMsg :=
  mkPasskeyMsg (Passkey.ID p) (Passkey.Name p) (Passkey.CreatedAt p) (Passkey.LastUsedAt p).

Definition ListPasskeys_call c : M Srv (list PasskeyMsg) :=
  let! (user, _) := passkeysFor c in
  let! passkeys := m_answer (λ _, internalError c "failed to list the passkeys")
    (on_data (List_passkeys (Identity.Subject user))) in
  m_ret (mapPasskey <$> passkeys).

Definition BeginPasskey_call c (random : list Z) : M Srv string :=
  let! (user, relyingParty) := passkeysFor c in
  do! lift (refuseAPIToken c);
  m_answer (λ _, internalError c "failed to start the passkey registration")
    (on_data (BeginRegistration relyingParty (request c) (Identity.Subject user) (now c) random)).

Definition finish_error (e : goerror) : goerror :=
  if error_is e ErrNoChallenge then ConnectError CodeFailedPrecondition e
  else if error_is e ErrPasskeyExists then ConnectError CodeAlreadyExists e
  else connect_error CodeInvalidArgument "that passkey was not accepted".
(** The first passkey signs out elsewhere. *)
Definition FinishPasskey_call c (name credential : string) : M Srv PasskeyMsg :=
  let! (user, relyingParty) := passkeysFor c in
  do! lift (refuseAPIToken c);
  let! has := on_data (Has (Identity.Subject user)) in
  let! passkey := m_answer finish_error
    (on_data (FinishRegistration relyingParty (request c) (Identity.Subject user) name credential (now c))) in
  let fields : Fields := {[ "passkey" := FString (Passkey.Name passkey) ]} in
  let! fields :=
    (if has then m_ret fields
     else let! (ended, deleted) := signOutElsewhere c (Identity.Subject user) in
          m_ret (<["sessions_ended" := FInt ended]> (<["tokens_deleted" := FInt deleted]> fields))) in
  do! audit c UserPasskeyAdd fields;
  m_ret (mkPasskeyMsg (Passkey.ID passkey) (Passkey.Name passkey) (Passkey.CreatedAt passkey) None).

Definition RenamePasskey_call c (id name : string) : M Srv PasskeyMsg :=
  let! (user, _) := passkeysFor c in
  do! lift (refuseAPIToken c);
  let! passkey := m_answer (λ e, if error_is e ErrNoPasskey then connect_error CodeNotFound "no such passkey"
                                 else internalError c "failed to rename the passkey")
    (on_data (Rename_passkey (Identity.Subject user) id name)) in
  do! audit c UserPasskeyRename {[ "passkey" := FString (Passkey.Name passkey) ]};
  m_ret (mapPasskey passkey).

Definition DeletePasskey_call c (id : string) : M Srv unit :=
  let! (user, _) := passkeysFor c in
  do! lift (refuseAPIToken c);
  do! m_answer (λ e, if error_is e ErrNoPasskey then connect_error CodeNotFound "no such passkey"
                     else internalError c "failed to delete the passkey")
    (on_data (Delete_passkey (Identity.Subject user) id));
  audit c UserPasskeyDelete {[ "passkey" := FString id ]}.
End users.
