(* ===== verification/ApiServices.v ===== *)
(** * internal/api: tokens, sessions, the server, and the router

    [token_service.go], [session_service.go], [server_service.go], and every
    procedure of the API behind one dispatch ([Router] of [router.go]). *)
From S2P Require Import Prelude GoText GoNet Netip NetipText Network Encoding.
From S2P Require Import Storage AuthSession WireGuard Devices Routes Manager AuditLog Totp.
From S2P Require Import Passkeys Passwords TwoFactor ApiTokens WebSessions Api ApiUsers.

(** ** token_service.go *)
Record TokenMsg := mkTokenMsg {
  tm_Id : string; tm_Name : string; tm_Owner : string; tm_OwnerName : string;
  tm_CreatedAt : Time; tm_ExpiresAt : option Time; tm_LastUsedAt : option Time }.
Definition mapToken (t : APIToken) : TokenMsg :=
  mkTokenMsg (APIToken.ID t) (APIToken.Name t) (APIToken.Owner t)
    (match unmarshal_identity (APIToken.Identity t) with Some i => Identity.Name i | None => "" end)
    (APIToken.CreatedAt t) (APIToken.ExpiresAt t) (APIToken.LastUsedAt t).

Section tokens.
  Context {S W : Type} `{Storage S}.
  (** [EnableAPITokens] of the configuration. *)
  Variable enabled : bool.
  Notation Srv := (Server S W).
  Implicit Types (c : CallContext).

Definition token_user c : M Srv Identity :=
  stop! (connect_error CodeFailedPrecondition "API tokens are disabled on this server") when negb enabled;
  current_user c.

Definition create_error c (e : goerror) : goerror :=
  match as_validation e with
  | Some msg => ConnectError CodeInvalidArgument (ValidationError msg)
  | None => internalError c "failed to create token"
  end.
Definition CreateToken_call c (name : string) (expiresAt : option Time) (id_bytes secret_bytes : list Z) :
    M Srv (TokenMsg * string) :=
  let! user := token_user c in
  stop! (connect_error CodePermissionDenied "tokens can only be created in the web UI")
    when negb (String.eqb (APIToken_id (ctx c)) "");
  let! (secret, token) := m_answer (create_error c)
    (on_data (ApiTokens.Create user name expiresAt (now c) id_bytes secret_bytes)) in
  let fields : Fields := {[ "token" := FString (APIToken.ID token); "token_name" := FString (APIToken.Name token) ]} in
  do! audit c TokenCreate
    (match APIToken.ExpiresAt token with Some e => <["expires_at" := FTime e]> fields | None => fields end);
  m_ret (mapToken token, secret).

Definition ListTokens_call c : M Srv (list TokenMsg) :=
  let! user := token_user c in
  let! tokens := m_answer (λ _, internalError c "failed to retrieve tokens")
    (on_data (List_tokens (Identity.Subject user))) in
  m_ret (mapToken <$> tokens).

Definition DeleteToken_call c (id : string) : M Srv unit :=
  let! user := token_user c in
  let! token := m_answer (λ e, if error_is e ErrTokenNotFound then connect_error CodeNotFound "no such token"
                               else internalError c "failed to delete token")
    (on_data (Delete_token user id)) in
  audit c TokenDelete {[ "token" := FString (APIToken.ID token); "token_name" := FString (APIToken.Name token);
                         "owner" := FString (APIToken.Owner token) ]}.

Definition ListAllTokens_call c : M Srv (list TokenMsg) :=
  let! user := token_user c in
  stop! errNotAdmin when negb (is_admin user);
  let! tokens := m_answer (λ _, internalError c "failed to retrieve tokens") (on_data (List_tokens "")) in
  m_ret (mapToken <$> tokens).
End tokens.

(** ** session_service.go *)
Record SessionMsg := mkSessionMsg {
  sm_Id : string; sm_UserAgent : string; sm_RemoteAddr : string; sm_CreatedAt : Time;
  sm_LastSeenAt : Time; sm_ExpiresAt : Time; sm_Current : bool }.
Definition mapSession (current : string) (x : Session) : SessionMsg :=
  mkSessionMsg (Session.ID x) (Session.UserAgent x) (Session.RemoteAddr x) (Session.CreatedAt x)
    (Session.LastSeenAt x) (Session.ExpiresAt x) (String.eqb (Session.ID x) current).

Section sessions.
  Context {S W : Type} `{Storage S}.
  Notation Srv := (Server S W).
  Implicit Types (c : CallContext).

(** The id of the session of the request as it is stored; empty without one. *)
Definition currentID c : M Srv string :=
  let! r := m_try (on_data (Find (CurrentSessionID (ctx c)))) in
  m_ret (match r with Ok session => Session.ID session | Err _ => "" end).

Definition ListSessions_call c : M Srv (list SessionMsg) :=
  let! user := current_user c in
  let! sessions := m_answer (λ _, internalError c "failed to retrieve sessions")
    (on_data (List_sessions (Identity.Subject user))) in
  let! current := currentID c in
  m_ret (mapSession current <$> sessions).

Definition DeleteSession_call c (id : string) : M Srv unit :=
  let! user := current_user c in
  do! lift (refuseAPIToken c);
  do! m_answer (λ e, if error_is e ErrInvalidSession then connect_error CodeNotFound "session not found"
                     else internalError c "failed to end the session")
    (on_data (Delete_session (Identity.Subject user) id));
  audit c SessionDelete {[ "session" := FString id ]}.

Definition DeleteOtherSessions_call c : M Srv Z :=
  let! user := current_user c in
  do! lift (refuseAPIToken c);
  let! current := currentID c in
  stop! (connect_error CodeFailedPrecondition "this needs a browser session: there is none to keep")
    when String.eqb current "";
  let! (ended, err) := on_data (EndOthers (Identity.Subject user) current) in
  stop! (internalError c "failed to end the sessions") when bool_decide (err ≠ None);
  do! audit c SessionDelete {[ "sessions" := FInt ended; "reason" := FString "all others" ]};
  m_ret (int32 ended).
End sessions.

(** ** server_service.go *)
(** The settings [Info] reads. *)
Record InfoConfig := mkInfoConfig {
  ExternalHost : string; Port : Z; EnableMetadata : bool; EnableInactiveDeviceDeletion : bool;
  InactiveDeviceGracePeriod : Z; AllowedIPs_config : list string; DNSEnabled : bool; Filename : string;
  DNSServers : list string; DNSSearchDomain : string; ClientMTU : Z; PersistentKeepalive : Z;
  Version : string; CommitHash : string; MTU : Z; EnableAPITokens : bool }.
Record InfoRes := mkInfoRes {
  ir_Host : string; ir_PublicKey : string; ir_Port : Z; ir_MetadataEnabled : bool;
  ir_InactiveDeviceDeletionEnabled : bool; ir_InactiveDeviceGracePeriod : Z; ir_IsAdmin : bool;
  ir_AllowedIps : string; ir_DnsEnabled : bool; ir_DnsAddress : string; ir_Filename : string;
  ir_ClientConfigDnsServers : string; ir_ClientConfigDnsSearchDomain : string; ir_ClientConfigMtu : Z;
  ir_ClientConfigPersistentKeepalive : Z; ir_Version : string; ir_Commit : string; ir_Mtu : Z;
  ir_ApiTokensEnabled : bool; ir_Subject : string; ir_PasswordChangeEnabled : bool;
  ir_TwoFactorEnabled : bool; ir_RecoveryCodesLeft : Z; ir_Passkeys : Z }.

(** An IPv6 host in brackets. *)
Definition info_host (host : string) : string :=
  if Contains_byte host ":" then
    let host := if HasPrefix host "[" then host else "[" +:+ host in
    if HasSuffix host "]" then host else host +:+ "]"
  else host.
Definition add_routed (allowed : list string) (routed : string) : list string :=
  if existsb (String.eqb routed) allowed then allowed else allowed ++ [routed].
Definition allowedIPs (configured routed : list string) : string :=
  Join (fold_left add_routed routed configured) ", ".

Section info.
  Context {S W : Type} `{Storage S}.
  Variable conf : InfoConfig.
  Variable cfg : Config.
  Variable deps : Deps.
  Notation Srv := (Server S W).
  Implicit Types (c : CallContext).

Definition recoveryCodesLeft (subject : string) : M Srv Z :=
  match dp_TwoFactor deps with
  | None => m_ret 0
  | Some _ => let! n := on_accounts (RecoveryCodesLeft subject) in m_ret (int32 n)
  end.
Definition passkeyCount (subject : string) : M Srv Z :=
  match dp_Passkeys deps with
  | None => m_ret 0
  | Some _ =>
      let! registered := m_try (on_data (List_passkeys subject)) in
      m_ret (match registered with Ok l => int32 (Z.of_nat (List.length l)) | Err _ => 0 end)
  end.

(** [public_key]: what the WireGuard interface says. *)
Definition Info_call c (public_key : result string) : M Srv InfoRes :=
  let! user := current_user c in
  let! publicKey := m_answer (λ _, internalError c "failed to get public key") (lift public_key) in
  let! (vpnip, vpnipv6) := m_answer (λ _, internalError c "failed to get server IPs")
    (lift (ServerVPNIPs (cidr cfg) (cidrv6 cfg))) in
  let! routed := on_manager RoutedNetworks in
  let! twoFactor := match dp_TwoFactor deps with
                    | None => m_ret false
                    | Some tf => on_accounts (Enabled (tf_passkeys tf) (Identity.Subject user))
                    end in
  let! codesLeft := recoveryCodesLeft (Identity.Subject user) in
  let! passkeys := passkeyCount (Identity.Subject user) in
  m_ret (mkInfoRes (info_host (ExternalHost conf)) publicKey (int32 (Port conf)) (EnableMetadata conf)
    (EnableInactiveDeviceDeletion conf) (InactiveDeviceGracePeriod conf) (is_admin user)
    (allowedIPs (AllowedIPs_config conf) routed) (DNSEnabled conf) (StringJoinIPs vpnip vpnipv6)
    (Filename conf) (Join (DNSServers conf) ", ") (DNSSearchDomain conf) (int32 (ClientMTU conf))
    (int32 (PersistentKeepalive conf)) (Version conf) (CommitHash conf) (int32 (MTU conf))
    (EnableAPITokens conf) (Identity.Subject user)
    (bool_decide (dp_Passwords deps ≠ None) && HasPassword (Identity.Provider user))
    twoFactor codesLeft passkeys).
End info.

Example info_host_ex : info_host "2001:db8::1" = "[2001:db8::1]" ∧ info_host "vpn.example.com" = "vpn.example.com"
  ∧ info_host "[2001:db8::1]" = "[2001:db8::1]".
Proof. done. Qed.
Example allowed_ex : allowedIPs ["0.0.0.0/0"] ["10.1.0.0/16"; "0.0.0.0/0"] = "0.0.0.0/0, 10.1.0.0/16".
Proof. done. Qed.

(** ** router.go *)
(** The procedures of the API with their messages; what a call draws at random
    comes with it. *)
Inductive procedure :=
  | P_AddDevice (name publicKey presharedKey : string) (manual : bool) (ipv4 ipv6 : string)
  | P_ListDevices
  | P_DeleteDevice (owner : option string) (name : string)
  | P_RenameDevice (owner : option string) (name newName : string)
  | P_RotateDeviceKey (name publicKey presharedKey : string)
  | P_SetDeviceAccess (owner : option string) (name : string) (disabled : option bool)
      (expiresAt : option Time) (clearExpiresAt : bool)
  | P_SetDeviceRoutes (owner : option string) (name : string) (routes : list string)
  | P_ListAllDevices
  | P_ListUsers
  | P_DeleteUser (name : string)
  | P_RevokeAccess (name : string)
  | P_ChangePassword (current next : string)
  | P_StartTwoFactor (buf : list Z)
  | P_ConfirmTwoFactor (code : string) (bufs : list (list Z))
  | P_DisableTwoFactor (password : string)
  | P_ResetTwoFactor (name : string)
  | P_NewRecoveryCodes (password : string) (bufs : list (list Z))
  | P_ListPasskeys
  | P_BeginPasskey (random : list Z)
  | P_FinishPasskey (name credential : string)
  | P_RenamePasskey (id name : string)
  | P_DeletePasskey (id : string)
  | P_CreateToken (name : string) (expiresAt : option Time) (id_bytes secret_bytes : list Z)
  | P_ListTokens
  | P_DeleteToken (id : string)
  | P_ListAllTokens
  | P_ListSessions
  | P_DeleteSession (id : string)
  | P_DeleteOtherSessions
  | P_Info (public_key : result string).
Inductive answer :=
  | A_Empty
  | A_Device (d : DeviceMsg.t)
  | A_Devices (l : list DeviceMsg.t)
  | A_Users (l : list ListedUser)
  | A_Revoked (r : RevokeAccessRes)
  | A_Count (n : Z)
  | A_Enrolment (secret uri : string)
  | A_Codes (l : list string)
  | A_Passkeys (l : list PasskeyMsg)
  | A_Passkey (p : PasskeyMsg)
  | A_Options (json : string)
  | A_NewToken (t : TokenMsg) (secret : string)
  | A_Tokens (l : list TokenMsg)
  | A_Sessions (l : list SessionMsg)
  | A_Info (i : InfoRes).

Section router.
  Context {S W : Type} `{Storage S} `{WireGuard W} `{PasswordHashing} `{UpperTable} `{WebAuthn}.
  Variable conf : InfoConfig.
  Variable cfg : Config.
  Variable host_addrs : result (list (option string)).
  Variable deps : Deps.
  Notation Srv := (Server S W).

Definition answer_with {A} (f : A → answer) (m : M Srv A) : M Srv answer := let! a := m in m_ret (f a).
Definition serve (c : CallContext) (p : procedure) : M Srv answer :=
  match p with
  | P_AddDevice name pk psk manual ipv4 ipv6 => answer_with A_Device (AddDevice_call cfg c name pk psk manual ipv4 ipv6)
  | P_ListDevices => answer_with A_Devices (ListDevices_call c)
  | P_DeleteDevice owner name => answer_with (λ _, A_Empty) (DeleteDevice_call c owner name)
  | P_RenameDevice owner name newName => answer_with A_Device (RenameDevice_call c owner name newName)
  | P_RotateDeviceKey name pk psk => answer_with A_Device (RotateDeviceKey_call c name pk psk)
  | P_SetDeviceAccess owner name disabled expiresAt clear =>
      answer_with A_Device (SetDeviceAccess_call c owner name disabled expiresAt clear)
  | P_SetDeviceRoutes owner name routes => answer_with A_Device (SetDeviceRoutes_call cfg host_addrs c owner name routes)
  | P_ListAllDevices => answer_with A_Devices (ListAllDevices_call c)
  | P_ListUsers => answer_with A_Users (ListUsers_call c)
  | P_DeleteUser name => answer_with (λ _, A_Empty) (DeleteUser_call deps c name)
  | P_RevokeAccess name => answer_with A_Revoked (RevokeAccess_call deps c name)
  | P_ChangePassword current next => answer_with A_Count (ChangePassword_call deps c current next)
  | P_StartTwoFactor buf => answer_with (λ '(secret, uri), A_Enrolment secret uri) (StartTwoFactor_call deps c buf)
  | P_ConfirmTwoFactor code bufs => answer_with A_Codes (ConfirmTwoFactor_call deps c code bufs)
  | P_DisableTwoFactor password => answer_with (λ _, A_Empty) (DisableTwoFactor_call deps c password)
  | P_ResetTwoFactor name => answer_with (λ _, A_Empty) (ResetTwoFactor_call deps c name)
  | P_NewRecoveryCodes password bufs => answer_with A_Codes (NewRecoveryCodes_call deps c password bufs)
  | P_ListPasskeys => answer_with A_Passkeys (ListPasskeys_call deps c)
  | P_BeginPasskey random => answer_with A_Options (BeginPasskey_call deps c random)
  | P_FinishPasskey name credential => answer_with A_Passkey (FinishPasskey_call deps c name credential)
  | P_RenamePasskey id name => answer_with A_Passkey (RenamePasskey_call deps c id name)
  | P_DeletePasskey id => answer_with (λ _, A_Empty) (DeletePasskey_call deps c id)
  | P_CreateToken name expiresAt idb sb =>
      answer_with (λ '(t, secret), A_NewToken t secret) (CreateToken_call (EnableAPITokens conf) c name expiresAt idb sb)
  | P_ListTokens => answer_with A_Tokens (ListTokens_call (EnableAPITokens conf) c)
  | P_DeleteToken id => answer_with (λ _, A_Empty) (DeleteToken_call (EnableAPITokens conf) c id)
  | P_ListAllTokens => answer_with A_Tokens (ListAllTokens_call (EnableAPITokens conf) c)
  | P_ListSessions => answer_with A_Sessions (ListSessions_call c)
  | P_DeleteSession id => answer_with (λ _, A_Empty) (DeleteSession_call c id)
  | P_DeleteOtherSessions => answer_with A_Count (DeleteOtherSessions_call c)
  | P_Info public_key => answer_with A_Info (Info_call conf cfg deps c public_key)
  end.
End router.
