(* ===== verification/SignIn.v ===== *)
(** * internal/authnz/authconfig: signing in with a password

    [basic.go], [simple.go] and [session_start.go], with the runtime they share
    ([authruntime/runtime.go]). What net/http makes of a request - the form, the
    credentials of its header - and the value of the cookie come with it; what a
    handler draws at random, and whether the cookie could be written, are
    arguments. Waiting moves the clock of the rest of the handler. *)
From S2P Require Import Limiter.
From S2P Require Import Prelude GoText GoNet Network Encoding Storage AuthSession.
From S2P Require Import WireGuard Devices Routes Manager AuditLog Totp Passkeys Passwords TwoFactor.
From S2P Require Import ApiTokens WebSessions Api Throttle.

(** A request with what [ParseForm] makes of it - the values of the body, the
    values of the address, and whether everything could be read -, the
    credentials of its header ([BasicAuth]) and the cookie of the browser. *)
Record SignInRequest := mkSignIn {
  http : Request;
  PostForm : list (string * string);
  URLQuery : list (string * string);
  form_error : option goerror;
  basic_auth : option (string * string);
  cookie : option Cookie }.
(** What starting a session and a passkey exchange draws. *)
Record Draws := mkDraws { d_uuid : string; d_id : list Z; d_saved : result unit; d_challenge : list Z }.

Definition values_Get (form : list (string * string)) (key : string) : string :=
  match List.find (λ kv, String.eqb kv.1 key) form with Some (_, v) => v | None => "" end.
(** What could not be read is left out; the body comes before the address. *)
Definition PostFormValue (r : SignInRequest) (key : string) : string := values_Get (PostForm r) key.
Definition FormValue (r : SignInRequest) (key : string) : string := values_Get (PostForm r ++ URLQuery r) key.

(** ** What the browser gets *)
Record SimpleAuthPage := mkPage {
  ErrorMessage : string; OtherProviders : bool; AskForCode : bool; OfferPasskey : bool; HasCodes : bool }.
Inductive reply :=
  | Redirect (status : Z) (location : string)
  | ErrorText (status : Z) (text : string)
  | Page (status : Z) (page : SimpleAuthPage)
  | Banner (text : string)
  | Challenge
  | PasskeyOptions (json : string).
(** A reply, and the cookie the browser holds afterwards. *)
Definition reaction : Type := reply * option Cookie.

(** [parsehtpassword] *)
Definition parsehtpassword (user : string) : option (string * string) :=
  match Cut user ":" with
  | Some (username, hash) =>
      if String.eqb username "" || String.eqb hash "" then None else Some (username, hash)
  | None => None
  end.

(** The part of the process a provider sees: the server and its own throttle. *)
Record Door (S W C : Type) := mkDoor { site : Server S W; throttle : Throttle C }.
Arguments mkDoor {S W C} _ _. Arguments site {S W C} _. Arguments throttle {S W C} _.

(** [ProviderRuntime]: what it was told to use. The second factor carries
    whether it knows of passkeys. *)
Record ProviderRuntime (S W : Type) := mkRuntime {
  rt_maxAge : Z;
  rt_otherProviders : bool;
  rt_recordLogin : option (Identity → Time → M (Server S W) unit);
  rt_checkLogin : option (Identity → M (Server S W) unit);
  rt_passwords : option (string → M (Server S W) (string * string));
  rt_twoFactor : option bool;
  rt_passkeys : option (option Request → string * string) }.
Arguments rt_maxAge {S W} _. Arguments rt_otherProviders {S W} _. Arguments rt_recordLogin {S W} _.
Arguments rt_checkLogin {S W} _. Arguments rt_passwords {S W} _. Arguments rt_twoFactor {S W} _.
Arguments rt_passkeys {S W} _.

(** The times a pending sign-in is good for, and where things are. *)
Definition pendingFor : Z := 5 * 60 * 10 ^ 9.
Definition secondFactorNotPossible : string :=
  "This account has a second factor, which basic auth cannot ask for. Sign in with the password form instead.".

Section runtime.
  Context {S W : Type} `{Storage S} `{PasswordHashing} `{UpperTable} `{WebAuthn}.
  Notation Srv := (Server S W).
  Variable rt : ProviderRuntime S W.

Definition Password (subject : string) : M Srv (string * string) :=
  match rt_passwords rt with None => m_ret ("", "") | Some lookup => lookup subject end.
Definition TwoFactorRequired (subject : string) : M Srv bool :=
  match rt_twoFactor rt with None => m_ret false | Some passkeys => on_accounts (Enabled passkeys subject) end.
Definition TwoFactorCodes (subject : string) : M Srv bool :=
  match rt_twoFactor rt with None => m_ret false | Some _ => on_accounts (CodesEnabled subject) end.
Definition CheckTwoFactor (subject code : string) (now : Time) : M Srv bool :=
  match rt_twoFactor rt with None => m_ret false | Some _ => on_accounts (Check subject code now) end.
Definition HasPasskey (subject : string) : M Srv bool :=
  match rt_passkeys rt with None => m_ret false | Some _ => on_data (Has subject) end.
Definition BeginPasskeyLogin (r : Request) (subject : string) (now : Time) (random : list Z) : M Srv string :=
  match rt_passkeys rt with
  | None => m_fail (PlainError "this server keeps no passkeys")
  | Some rp => on_data (BeginLogin rp (Some r) subject now random)
  end.
Definition FinishPasskeyLogin (r : Request) (subject answer : string) (now : Time) : M Srv unit :=
  match rt_passkeys rt with
  | None => m_fail (PlainError "this server keeps no passkeys")
  | Some rp => on_data (FinishLogin rp (Some r) subject answer now)
  end.

(** The check comes first, the record last; both only when somebody signs in. *)
Definition rt_SetSession (r : SignInRequest) (s : AuthSession) (now : Time) (d : Draws) : M Srv Cookie :=
  do! match as_Identity s, rt_checkLogin rt with Some i, Some check => check i | _, _ => m_ret tt end;
  let! cookie := on_data (SetSession (rt_maxAge rt) (cookie r) (http r) s now (d_uuid d) (d_id d) (d_saved d)) in
  do! match as_Identity s, rt_recordLogin rt with Some i, Some record => record i now | _, _ => m_ret tt end;
  m_ret cookie.
Definition rt_GetSession (r : SignInRequest) (now : Time) : M Srv AuthSession := on_data (GetSession (cookie r) now).
Definition rt_ClearSession (r : SignInRequest) (now : Time) (d : Draws) : M Srv (option Cookie) :=
  on_data (ClearSession (cookie r) now (d_saved d)).

Definition Restart : reply := Redirect StatusSeeOther "/signin?signout=1".
Definition Done : reply := Redirect StatusSeeOther "/".

(** [checkCreds]: the configuration says who may sign in, the stored password
    what their password is - while it was set against the same entry. *)
Fixpoint checkCreds (users : list string) (username password : string) : M Srv bool :=
  match users with
  | [] => m_ret false
  | user :: users =>
      match parsehtpassword user with
      | Some (u, configured) =>
          if negb (String.eqb u username) then checkCreds users username password else
          let! (hash, from) := Password username in
          m_ret (if negb (String.eqb hash "") && String.eqb from configured
                 then CompareHashAndPassword hash password else Matches configured password)
      | None => checkCreds users username password
      end
  end.

(** [sessionNotStarted]: only a refusal says why. *)
Definition sessionNotStarted (e : goerror) : reply :=
  match as_refused e with
  | Some reason => ErrorText 403 reason
  | None => ErrorText 500 "Could not sign in"
  end.
End runtime.

Section providers.
  Context {S W C : Type} `{Storage S} `{PasswordHashing} `{UpperTable} `{WebAuthn} `{LRU attempts C}.
  Notation DoorM := (M (Door S W C)).
  Variables (rt : ProviderRuntime S W) (users : list string).
  Implicit Types (r : SignInRequest) (now : Time) (d : Draws).

Definition on_site {A} (m : M (Server S W) A) : DoorM A := zoom site (λ s t, mkDoor s (throttle t)) m.
Definition on_throttle {A} (m : M (Throttle C) A) : DoorM A := zoom throttle (λ c t, mkDoor (site t) c) m.

(** An attempt is a username that can be somebody's. *)
Definition identity_of (provider username : string) : Identity := Identity.mk provider username username "" [].
Definition signed_in (provider username : string) : AuthSession :=
  mkAuthSession None None None "" (Some (identity_of provider username)) "" None.
Definition sessionFor (username : string) : AuthSession := signed_in SimpleAuthProvider username.
(** Starting the session of somebody who signed in, and sending them on. *)
Definition start_session r (s : AuthSession) now d : DoorM reaction :=
  let! started := m_try (on_site (rt_SetSession rt r s now d)) in
  m_ret (match started with
         | Ok c => (Done, Some c)
         | Err e => (sessionNotStarted e, cookie r)
         end).

(** ** basic.go *)
(** The credentials, from the header or from the form. *)
Definition basic_credentials r : string * string :=
  match basic_auth r with
  | Some (u, p) => (u, p)
  | None => (PostFormValue r "username", PostFormValue r "password")
  end.
Definition basicAuthLogin r now d : DoorM reaction :=
  let isBasic := bool_decide (basic_auth r ≠ None) in
  let '(u, p) := basic_credentials r in
  let attempted := negb (String.eqb u "") && (slen u <=? maxUsernameLength) in
  let! waited := (if attempted then on_throttle (wait u now) else m_ret 0) in
  let now := now + waited in
  let! ok := (if attempted then on_site (checkCreds rt users u p) else m_ret false) in
  if ok then
    let! required := on_site (TwoFactorRequired rt u) in
    if required then
      m_ret (if negb isBasic then Banner secondFactorNotPossible else ErrorText 403 secondFactorNotPossible, cookie r)
    else
      do! on_throttle (recordSuccess u);
      start_session r (signed_in BasicAuthProvider u) now d
  else
    do! (if attempted then on_throttle (recordFailure u now) else m_ret tt);
    m_ret (if negb isBasic then Banner "Invalid username or password" else Challenge, cookie r).

(** ** simple.go *)
Definition simpleAuthLogin r : DoorM reaction :=
  m_ret (Page 200 (mkPage "" (rt_otherProviders rt) false false false), cookie r).

Definition renderCodePage (status : Z) (username message : string) r : DoorM reaction :=
  let! offer := on_site (HasPasskey rt username) in
  let! codes := on_site (TwoFactorCodes rt username) in
  m_ret (Page status (mkPage message (rt_otherProviders rt) true offer codes), cookie r).

Definition askForCode r (username : string) now d : DoorM reaction :=
  let pending := mkAuthSession None None None "" None ""
    (Some (mkPending username SimpleAuthProvider (now + pendingFor))) in
  let! started := m_try (on_site (rt_SetSession rt r pending now d)) in
  match started with
  | Err _ => m_ret (ErrorText 500 "Could not start the sign-in", cookie r)
  | Ok c =>
      let! (page, _) := renderCodePage 200 username "" r in
      m_ret (page, Some c)
  end.

(** Whose password was right a moment ago. *)
Definition pending_user (s : AuthSession) now : option string :=
  match as_Pending s with
  | Some p => if PendingLogin_Valid (Some p) now && String.eqb (pl_Provider p) SimpleAuthProvider
              then Some (pl_Subject p) else None
  | None => None
  end.
Definition pending_of r now : DoorM (option string) :=
  let! session := m_try (on_site (rt_GetSession r now)) in
  m_ret (match session with Ok s => pending_user s now | Err _ => None end).

Definition refuseSecondFactor r (username : string) : DoorM reaction :=
  renderCodePage 429 username "Too many wrong answers. Wait a few minutes before you try again." r.

(** The second step, with what proves it. *)
Definition second_step r now d (wrong : string) (proves : string → Time → M (Server S W) bool) : DoorM reaction :=
  let! pending := pending_of r now in
  match pending with
  | None => m_ret (Restart, cookie r)
  | Some username =>
      let! allowed := on_throttle (beginSecondFactor username now) in
      if negb allowed then refuseSecondFactor r username else
      let! waited := on_throttle (wait username now) in
      let now := now + waited in
      let! right := on_site (proves username now) in
      if negb right then
        do! on_throttle (recordFailure username now);
        renderCodePage 403 username wrong r
      else
        do! on_throttle (recordSuccess username);
        do! on_throttle (secondFactorSucceeded username);
        start_session r (sessionFor username) now d
  end.
Definition finishWithCode r (code : string) now d : DoorM reaction :=
  second_step r now d "That code is not right" (λ username, CheckTwoFactor rt username code).
Definition finishWithPasskey r (answer : string) now d : DoorM reaction :=
  second_step r now d "That passkey was not accepted" (λ username now,
    let! done := m_try (FinishPasskeyLogin rt (http r) username answer now) in m_ret (is_ok done)).

Definition first_step r (u p : string) now d : DoorM reaction :=
  let attempted := negb (String.eqb u "") && negb (String.eqb p "") && (slen u <=? maxUsernameLength) in
  let! waited := (if attempted then on_throttle (wait u now) else m_ret 0) in
  let now := now + waited in
  let! ok := (if attempted then on_site (checkCreds rt users u p) else m_ret false) in
  if ok then
    do! on_throttle (recordSuccess u);
    let! required := on_site (TwoFactorRequired rt u) in
    if required then askForCode r u now d else start_session r (sessionFor u) now d
  else
    do! (if attempted then on_throttle (recordFailure u now) else m_ret tt);
    m_ret (Page 403 (mkPage "Invalid username or password" (rt_otherProviders rt) false false false), cookie r).

Definition simpleAuthPostEndpoint r now d : DoorM reaction :=
  if negb (String.eqb (Method (http r)) "POST") then m_ret (ErrorText 405 "Method not allowed", cookie r) else
  if bool_decide (form_error r ≠ None) then m_ret (ErrorText 400 "Could not parse form", cookie r) else
  let answer := values_Get (PostForm r) "passkey" in
  if negb (String.eqb answer "") then finishWithPasskey r answer now d else
  let code := values_Get (PostForm r) "code" in
  if negb (String.eqb code "") then finishWithCode r code now d else
  first_step r (values_Get (PostForm r) "username") (values_Get (PostForm r) "password") now d.

Definition passkeyOptionsEndpoint r now d : DoorM reaction :=
  let! pending := pending_of r now in
  match pending with
  | None => m_ret (ErrorText 403 "No sign-in is in progress", cookie r)
  | Some username =>
      let! options := m_try (on_site (BeginPasskeyLogin rt (http r) username now (d_challenge d))) in
      m_ret (match options with
             | Ok json => PasskeyOptions json
             | Err _ => ErrorText 500 "The passkey sign-in could not be started"
             end, cookie r)
  end.
End providers.
