(* ===== verification/AuthConfig.v ===== *)
(** * internal/authnz/authconfig/authconfig.go: which providers there are

    The configuration of the sign-in, its checks, and the entries of the
    built-in providers. A Go map is iterated in any order: the functions that
    walk [auth.multiple] take the entries in the order of the iteration. The
    check of a GitHub configuration parses URLs and is an argument. *)
From S2P Require Import Prelude GoText GoQuote Storage AuthSession ApiTokens Throttle SignIn ApiUsers Routes.

(** The parts of the provider configurations the program reads by itself. *)
Record OIDCConfig := mkOIDC { oidc_Name : string; AccessClaim : string; PolicyMapping : list string }.
Record GithubConfig := mkGithub { gh_Name : string; gh_valid : result unit }.
Record ProviderConfig := mkProviderConfig {
  OIDC : option OIDCConfig;
  Gitlab : option string;
  Github : option GithubConfig;
  Basic : option (list string);
  Simple : option (list string) }.
(** The embedded providers, and [auth.multiple] in the order of an iteration;
    an entry without a body is a nil pointer. *)
Record AuthConfig := mkAuthConfig {
  Embedded : ProviderConfig;
  Multiple : list (string * option ProviderConfig) }.

Definition nil_pointer : goerror := Panic "invalid memory address or nil pointer dereference".
Definition deref {A} (p : option A) : result A := match p with Some a => Ok a | None => Err nil_pointer end.
Definition github_name (c : GithubConfig) : string := if String.eqb (gh_Name c) "" then "GitHub" else gh_Name c.

Definition is_set {A} (o : option A) : bool := match o with Some _ => true | None => false end.
Definition IsEnabled (c : AuthConfig) : bool :=
  let p := Embedded c in
  is_set (OIDC p) || is_set (Gitlab p) || is_set (Github p) || is_set (Basic p) || is_set (Simple p)
  || (0 <? Z.of_nat (List.length (Multiple c))).

(** ** identityProviderNames *)
(** [names[name] = append(names[name], where)] *)
Definition add_name (name where_ : string) (names : gmap string (list string)) : gmap string (list string) :=
  <[name := default [] (names !! name) ++ [where_]]> names.
Definition named {A} (o : option A) (f : A → string) (where_ : string) (names : gmap string (list string)) :
    gmap string (list string) :=
  match o with Some a => add_name (f a) where_ names | None => names end.
Definition or_key (key name : string) : string := if String.eqb name "" then key else name.
Definition multiple_names (names : gmap string (list string)) (entry : string * option ProviderConfig) :
    gmap string (list string) :=
  let '(key, provider) := entry in
  match provider with
  | None => names
  | Some p =>
      named (Github p) (λ c, or_key key (gh_Name c)) ("auth.multiple." +:+ key +:+ ".github")
        (named (Gitlab p) (λ name, name) ("auth.multiple." +:+ key +:+ ".gitlab")
          (named (OIDC p) (λ c, or_key key (oidc_Name c)) ("auth.multiple." +:+ key +:+ ".oidc") names))
  end.
Definition identityProviderNames (c : AuthConfig) : gmap string (list string) :=
  let p := Embedded c in
  fold_left multiple_names (Multiple c)
    (named (Github p) github_name "auth.github"
      (named (Gitlab p) (λ name, name) "auth.gitlab"
        (named (OIDC p) oidc_Name "auth.oidc" ∅))).

(** ** Validate *)
Section validate.
  Context `{UnicodeTables}.
Definition check_github (where_ : string) (o : option GithubConfig) : result unit :=
  match o with Some c => wrap where_ (gh_valid c) | None => Ok tt end.
Fixpoint check_githubs (l : list (string * option ProviderConfig)) : result unit :=
  match l with
  | [] => Ok tt
  | (name, provider) :: l =>
      let? p := deref provider in
      let? _ := check_github ("auth.multiple." +:+ name +:+ ".github") (Github p) in
      check_githubs l
  end.
Definition check_name (name : string) (where_ : list string) : result unit :=
  let where_ := sort_Strings where_ in
  fail! (PlainError (default "" (head where_) +:+ ": the name " +:+ Quote name +:+
          " is taken by the built-in sign-in, give the provider another one")) when HasPassword name;
  fail! (PlainError (Join where_ " and " +:+ " share the name " +:+ Quote name +:+
          ": their users could not be told apart, give each provider its own"))
    when (1 <? Z.of_nat (List.length where_));
  Ok tt.
Fixpoint check_names (names : gmap string (list string)) (sorted : list string) : result unit :=
  match sorted with
  | [] => Ok tt
  | name :: sorted => let? _ := check_name name (default [] (names !! name)) in check_names names sorted
  end.
Definition Validate (c : AuthConfig) : result unit :=
  let? _ := check_github "auth.github" (Github (Embedded c)) in
  let? _ := check_githubs (Multiple c) in
  let names := identityProviderNames c in
  check_names names (sort_Strings (map_to_list names).*1).
End validate.

(** ** The entries of the built-in providers *)
Definition user_lists (p : ProviderConfig) : list (list string) :=
  match Basic p with Some users => [users] | None => [] end ++
  match Simple p with Some users => [users] | None => [] end.
Fixpoint multiple_lists (l : list (string * option ProviderConfig)) : result (list (list string)) :=
  match l with
  | [] => Ok []
  | (_, provider) :: l =>
      let? p := deref provider in
      let? rest := multiple_lists l in
      Ok (user_lists p ++ rest)
  end.
Definition all_lists (c : AuthConfig) : result (list (list string)) :=
  let? rest := multiple_lists (Multiple c) in Ok (user_lists (Embedded c) ++ rest).
Fixpoint entry_of (users : list string) (subject : string) : option string :=
  match users with
  | [] => None
  | user :: users =>
      match parsehtpassword user with
      | Some (name, entry) => if String.eqb name subject then Some entry else entry_of users subject
      | None => entry_of users subject
      end
  end.
Definition first_entry (lists : list (list string)) (subject : string) : option string := entry_of (mjoin lists) subject.
Definition ConfiguredEntry (c : AuthConfig) (subject : string) : result (option string) :=
  let? lists := all_lists c in Ok (first_entry lists subject).
Definition ConfiguredEntries (c : AuthConfig) : result Z :=
  let? lists := all_lists c in Ok (fold_left (λ n users, n + Z.of_nat (List.length users)) lists 0).

Definition basic_in (entry : string * option ProviderConfig) : result bool :=
  let? p := deref entry.2 in Ok (is_set (Basic p)).
Fixpoint any_basic (l : list (string * option ProviderConfig)) : result bool :=
  match l with
  | [] => Ok false
  | entry :: l => let? b := basic_in entry in if b then Ok true else any_basic l
  end.
Definition DesiresSignInPage (c : AuthConfig) : result bool :=
  if is_set (Basic (Embedded c)) then Ok true else any_basic (Multiple c).

(** The policies that the rules of a provider name. *)
Definition policy_names (names : gmap string (list string)) (provider : string) (p : ProviderConfig) :
    gmap string (list string) :=
  match OIDC p with
  | Some c => fold_left (λ names name, add_name provider name names) (PolicyMapping c) names
  | None => names
  end.
Fixpoint multiple_policies (names : gmap string (list string)) (l : list (string * option ProviderConfig)) :
    result (gmap string (list string)) :=
  match l with
  | [] => Ok names
  | (name, provider) :: l =>
      let? p := deref provider in multiple_policies (policy_names names ("auth.multiple." +:+ name) p) l
  end.
Definition PolicyNames (c : AuthConfig) : result (gmap string (list string)) :=
  multiple_policies (policy_names ∅ "auth.oidc" (Embedded c)) (Multiple c).

(** ** Providers: what each is, in the order of the sign-in page *)
Inductive provider :=
  | POIDC (name : string) | PGitlab (name : string) | PGithub (name : string)
  | PBasic (users : list string) | PSimple (users : list string).
Definition providers_of (key : string) (p : ProviderConfig) : list provider :=
  match OIDC p with Some c => [POIDC (or_key key (oidc_Name c))] | None => [] end ++
  match Gitlab p with Some name => [PGitlab name] | None => [] end ++
  match Github p with Some c => [PGithub (github_name (mkGithub (or_key key (gh_Name c)) (gh_valid c)))] | None => [] end ++
  match Basic p with Some users => [PBasic users] | None => [] end ++
  match Simple p with Some users => [PSimple users] | None => [] end.
Fixpoint multiple_providers (l : list (string * option ProviderConfig)) : result (list provider) :=
  match l with
  | [] => Ok []
  | (name, p) :: l => let? p := deref p in let? rest := multiple_providers l in Ok (providers_of name p ++ rest)
  end.
Definition Providers (c : AuthConfig) : result (list provider) :=
  let? rest := multiple_providers (Multiple c) in Ok (providers_of "" (Embedded c) ++ rest).

Example names_ex :
  let c := mkAuthConfig (mkProviderConfig (Some (mkOIDC "corp" "" [])) None None None None)
             [("corp", Some (mkProviderConfig (Some (mkOIDC "" "" [])) None None None (Some [])))] in
  identityProviderNames c !! "corp" = Some ["auth.oidc"; "auth.multiple.corp.oidc"].
Proof. vm_compute. done. Qed.
Example entry_ex :
  ConfiguredEntry (mkAuthConfig (mkProviderConfig None None None (Some ["bob:x"; "broken"; ":y"]) (Some ["ada:one"; "ada:two"])) [])
    "ada" = Ok (Some "one").
Proof. vm_compute. done. Qed.
