(* ===== verification/Oidc.v ===== *)
(** * internal/authnz/authconfig/oidc.go, gitlab.go: signing in with another service

    The OpenID Connect client: where a sign-in is started, what the answer of the
    service has to be, and who somebody is by it. The libraries that talk to the service
    and check its tokens, the rules (govaluate) and parsing a URL are third-party
    code or far away: classes of parameters. Random strings are arguments. *)
From S2P Require Import Limiter.
From S2P Require Import Prelude GoText GoNet Encoding Json Storage AuthSession.
From S2P Require Import WireGuard Routes Manager Totp Passkeys Passwords TwoFactor.
From S2P Require Import WebSessions Api Throttle SignIn AuthConfig.

(** [authutil.RandomString] of the bytes drawn. *)
Definition RandomString (blk : list Z) : string :=
  RawURLEncoding blk +:+
  match (List.length blk mod 3)%nat with 1%nat => "==" | 2%nat => "=" | _ => "" end.

(** [strings.EqualFold]; what a code point outside ASCII folds to is a table of the Unicode
    package. *)
Class FoldTable := { fold_other : Z → Z }.
Definition fold_of `{FoldTable} (r : Z) : Z :=
  if (97 <=? r) && (r <=? 122) then r - 32 else if r <? 128 then r else fold_other r.
Definition equal_fold `{FoldTable} (s t : string) : bool := bool_decide (fold_of <$> runes s = fold_of <$> runes t).

(** The claims a service sends: a JSON object. *)
Notation OIDCClaims := (gmap string json).

(** What a rule comes to. *)
Inductive rule_value := RBool (b : bool) | RString (s : string) | ROther.
Class Rules (Rule : Type) := { Evaluate : Rule → OIDCClaims → result rule_value }.

(** [oauth2.Config], and the options of an authorization URL. *)
Record OAuthConfig := mkOAuth {
  oa_RedirectURL : string; oa_ClientID : string; oa_ClientSecret : string; oa_Scopes : list string;
  oa_Endpoint : string * string }.
Inductive AuthOption := Nonce (nonce : string) | S256Challenge (verifier : string).
(** The libraries: golang.org/x/oauth2, and go-oidc with the service behind it. *)
Class OAuth := {
  Token : Type;
  AuthCodeURL : OAuthConfig → string → list AuthOption → string;
  Exchange : OAuthConfig → string → option string → result Token }.
Class OIDCLibrary `{OAuth} := {
  ServiceProvider : Type;
  NewProvider : string → result ServiceProvider;
  Endpoint : ServiceProvider → string * string;
  CodeChallengeMethods : ServiceProvider → result (list string);
  UserInfo : ServiceProvider → OAuthConfig → Token → result json;
  info_Claims : json → result OIDCClaims;
  id_token : Token → option string;
  IDToken : Type;
  Verify : ServiceProvider → string → string → result IDToken;
  token_Nonce : IDToken → string;
  token_Claims : IDToken → result OIDCClaims }.

(** [OIDCConfig], all of it; the mapping of claims in the order a walk over it takes. *)
Record OIDCClient (Rule : Type) := mkClient {
  o_Name : string; o_Issuer : string; o_ClientID : string; o_ClientSecret : string;
  o_Scopes : list string; o_RedirectURL : string; o_EmailDomains : list string;
  o_ClaimMapping : list (string * Rule); o_PolicyMapping : gmap string Rule;
  o_ClaimsFromIDToken : bool; o_AccessClaim : string }.
Arguments mkClient {Rule} _ _ _ _ _ _ _ _ _ _ _. Arguments o_Name {Rule} _. Arguments o_Issuer {Rule} _.
Arguments o_ClientID {Rule} _. Arguments o_ClientSecret {Rule} _. Arguments o_Scopes {Rule} _.
Arguments o_RedirectURL {Rule} _. Arguments o_EmailDomains {Rule} _. Arguments o_ClaimMapping {Rule} _.
Arguments o_PolicyMapping {Rule} _. Arguments o_ClaimsFromIDToken {Rule} _. Arguments o_AccessClaim {Rule} _.
(** The part the rest of the program looks at. *)
Definition as_config {Rule} (c : OIDCClient Rule) : OIDCConfig :=
  mkOIDC (o_Name c) (o_AccessClaim c) (map_to_list (o_PolicyMapping c)).*1.

(** ** What is asked for *)
Definition ensureScopes (configured emailDomains : list string) : list string :=
  let scopes := if bool_decide (configured = []) then ["openid"; "profile"] else configured in
  if bool_decide (emailDomains = []) || existsb (String.eqb "email") scopes then scopes else scopes ++ ["email"].
Definition supportsPKCE `{OIDCLibrary} (p : ServiceProvider) : bool :=
  match CodeChallengeMethods p with Ok methods => existsb (String.eqb "S256") methods | Err _ => false end.

(** ** What the claims say *)
Definition text_claim (claims : OIDCClaims) (name : string) : option string :=
  match claims !! name with Some (JString s) => Some s | _ => None end.
Definition nameClaims : list string := ["name"; "preferred_username"; "nickname"; "given_name"].
Fixpoint first_name (claims : OIDCClaims) (names : list string) : string :=
  match names with
  | [] => ""
  | claim :: names =>
      match text_claim claims claim with
      | Some name => if negb (String.eqb (TrimSpace name) "") then TrimSpace name else first_name claims names
      | None => first_name claims names
      end
  end.
Definition displayName (claims : OIDCClaims) : string := first_name claims nameClaims.

Section claims.
  Context `{FoldTable} {Rule : Type} `{Rules Rule}.

(** Whether the address is verified, and whether the service says so at all. *)
Definition emailVerified (claims : OIDCClaims) : bool * bool :=
  match claims !! "email_verified" with
  | Some (JBool b) => (b, true)
  | Some (JString s) => (equal_fold s "true", true)
  | _ => (false, false)
  end.
(** The message when the address is not one of an allowed domain. *)
Definition verifyEmailDomain (allowedDomains : list string) (email : string) : option string :=
  if bool_decide (allowedDomains = []) then None else
  match Split email "@" with
  | [_; domain] =>
      if existsb (λ allowed, equal_fold allowed domain) allowedDomains then None else Some "Email domain not authorized"
  | _ => Some "Missing or invalid email address"
  end.

Definition mapped_claim (name : string) (v : rule_value) (claims : Claims) : Claims :=
  match v with
  | RBool true => claims_Add claims name "true"
  | RString s => if 0 <? slen s then claims_Add claims name s else claims
  | _ => claims
  end.
Fixpoint evaluate_claims (mapping : list (string * Rule)) (claims : Claims) (oidcClaims : OIDCClaims) : result Claims :=
  match mapping with
  | [] => Ok claims
  | (name, rule) :: mapping =>
      let? v := Evaluate rule oidcClaims in
      evaluate_claims mapping (mapped_claim name v claims) oidcClaims
  end.
Definition evaluateClaimMapping (mapping : list (string * Rule)) (oidcClaims : OIDCClaims) : result Claims :=
  evaluate_claims mapping [] oidcClaims.
Fixpoint evaluate_policies (names : list string) (mapping : gmap string Rule) (claims : Claims)
    (oidcClaims : OIDCClaims) : result Claims :=
  match names with
  | [] => Ok claims
  | name :: names =>
      match mapping !! name with
      | None => evaluate_policies names mapping claims oidcClaims
      | Some rule =>
          let? v := wrap ("failed to evaluate the rule of policy '" +:+ name +:+ "'") (Evaluate rule oidcClaims) in
          evaluate_policies names mapping
            match v with RBool true => claims_Add claims PolicyClaim name | _ => claims end oidcClaims
      end
  end.
Definition evaluatePolicyMapping (claims : Claims) (mapping : gmap string Rule) (oidcClaims : OIDCClaims) : result Claims :=
  evaluate_policies (sort_Strings (map_to_list mapping).*1) mapping claims oidcClaims.
End claims.

(** ** The handlers *)
(** A handler goes on with what it has, or answers. *)
Inductive step (A : Type) := Go (a : A) | Stop (answer : reply).
Arguments Go {A} _. Arguments Stop {A} _.
Definition step_bind {A B} (m : step A) (k : A → step B) : step B := match m with Go a => k a | Stop x => Stop x end.
Notation "'go!' x ':=' m 'in' k" := (step_bind m (λ x, k))
  (at level 10, x pattern, m at level 100, k at level 200) : go_scope.
Notation "'answer!' e 'when' b ';' k" := (if b then Stop e else k)
  (at level 10, e at level 9, b at level 100, k at level 200) : go_scope.
Definition or_stop {A} (answer : goerror → reply) (m : result A) : step A :=
  match m with Ok a => Go a | Err e => Stop (answer e) end.

Definition signInFailed : reply := ErrorText 502 "The sign-in with the identity provider failed".

Section handlers.
  Context {S W : Type} `{Storage S} `{PasswordHashing} `{UpperTable} `{WebAuthn}.
  Context `{FoldTable} {Rule : Type} `{Rules Rule} `{OIDCLibrary}.
  Variables (rt : ProviderRuntime S W) (c : OIDCClient Rule).
  Implicit Types (r : SignInRequest) (now : Time) (d : Draws).

Definition oauthConfig (p : ServiceProvider) : OAuthConfig :=
  mkOAuth (o_RedirectURL c) (o_ClientID c) (o_ClientSecret c) (ensureScopes (o_Scopes c) (o_EmailDomains c)) (Endpoint p).
(** [Provider]: an issuer that does not answer, or a redirect URL that is none,
    panics; the address of the callback is the path of the redirect URL. *)
Definition Provider (url_Path : string → result string) : result (ServiceProvider * string) :=
  match NewProvider (o_Issuer c) with
  | Err e => Err (Panic ("failed to create OIDC provider: " +:+ error_text e))
  | Ok p =>
      match url_Path (o_RedirectURL c) with
      | Err e => Err (Panic ("redirect URL is not valid: " +:+ o_RedirectURL c +:+ ": " +:+ error_text e))
      | Ok path => Ok (p, path)
      end
  end.

(** What a sign-in draws: its state, its nonce and the verifier of its code. *)
Definition loginHandler (p : ServiceProvider) (state nonce : list Z) (verifier : string) r now d : M (Server S W) reaction :=
  let session := mkAuthSession (Some (RandomString state)) (Some (RandomString nonce))
    (if supportsPKCE p then Some verifier else None) "" None "" None in
  let options := Nonce (RandomString nonce) :: (if supportsPKCE p then [S256Challenge verifier] else []) in
  let! started := m_try (rt_SetSession rt r session now d) in
  m_ret match started with
        | Err _ => (ErrorText 401 "No session", cookie r)
        | Ok k => (Redirect StatusTemporaryRedirect (AuthCodeURL (oauthConfig p) (RandomString state) options), Some k)
        end.

(** The session the browser started the sign-in with. *)
Definition check_state (s : AuthSession) (state : string) : step unit :=
  match as_State s with
  | None => Stop (ErrorText 400 "No state associated with session")
  | Some started => answer! (ErrorText 400 "Bad state value") when negb (String.eqb started state); Go tt
  end.
(** The claims, from the service or from a token that it signed for this sign-in. *)
Definition claims_of (p : ServiceProvider) (s : AuthSession) (token : Token) : step OIDCClaims :=
  if negb (o_ClaimsFromIDToken c) then
    go! info := or_stop (λ _, signInFailed) (UserInfo p (oauthConfig p) token) in
    or_stop (λ _, signInFailed) (info_Claims info)
  else
    match id_token token with
    | None => Stop signInFailed
    | Some raw =>
        go! idToken := or_stop (λ _, signInFailed) (Verify p (o_ClientID c) raw) in
        match as_Nonce s with
        | None => Stop (ErrorText 400 "No nonce associated with session")
        | Some nonce =>
            answer! (ErrorText 400 "Bad nonce value in ID token") when negb (String.eqb (token_Nonce idToken) nonce);
            or_stop (λ _, signInFailed) (token_Claims idToken)
        end
    end.
Definition check_email (claims : OIDCClaims) : step unit :=
  answer! (ErrorText 403 "Email address is not verified")
    when negb (bool_decide (o_EmailDomains c = [])) && (let '(verified, stated) := emailVerified claims in stated && negb verified);
  match verifyEmailDomain (o_EmailDomains c) (default "" (text_claim claims "email")) with
  | Some msg => Stop (ErrorText 403 msg)
  | None => Go tt
  end.
Definition bad_rule (e : goerror) : reply := ErrorText 400 (error_text e).
Definition identity_from (claims : OIDCClaims) : step Identity :=
  go! given := or_stop bad_rule (evaluateClaimMapping (o_ClaimMapping c) claims) in
  go! given := or_stop bad_rule (evaluatePolicyMapping given (o_PolicyMapping c) claims) in
  match text_claim claims "sub" with
  | None => Stop signInFailed
  | Some subject => Go (Identity.mk (o_Name c) subject (displayName claims) (default "" (text_claim claims "email")) given)
  end.
(** Everything between the session and the new one. *)
Definition authenticate (p : ServiceProvider) r (s : AuthSession) : step Identity :=
  go! _ := check_state s (FormValue r "state") in
  go! token := or_stop (λ _, signInFailed) (Exchange (oauthConfig p) (FormValue r "code") (as_Verifier s)) in
  go! claims := claims_of p s token in
  go! _ := check_email claims in
  identity_from claims.
Definition session_of (i : Identity) : AuthSession := mkAuthSession None None None "" (Some i) "" None.
Definition callbackHandler (p : ServiceProvider) r now d : M (Server S W) reaction :=
  let! session := m_try (rt_GetSession r now) in
  match session with
  | Err _ => m_ret (ErrorText 400 "No session", cookie r)
  | Ok s =>
      match authenticate p r s with
      | Stop answer => m_ret (answer, cookie r)
      | Go identity =>
          let! started := m_try (rt_SetSession rt r (session_of identity) now d) in
          m_ret match started with
                | Ok k => (Done, Some k)
                | Err e => (sessionNotStarted e, cookie r)
                end
      end
  end.
End handlers.

(** [GitlabConfig.Provider]: an OpenID Connect client without rules. *)
Record GitlabConfig := mkGitlab {
  gl_Name : string; gl_BaseURL : string; gl_ClientID : string; gl_ClientSecret : string; gl_RedirectURL : string;
  gl_EmailDomains : list string }.
Definition gitlab_client {Rule} (c : GitlabConfig) : OIDCClient Rule :=
  mkClient (gl_Name c) (gl_BaseURL c) (gl_ClientID c) (gl_ClientSecret c) [] (gl_RedirectURL c) (gl_EmailDomains c) [] ∅
    false "".
