(* ===== verification/Github.v ===== *)
(** * internal/authnz/authconfig/github.go: signing in with GitHub

    Who of the people with a GitHub account may sign in, and who of them is an
    admin. The REST API answers with a status and a body; decoding a body into the
    fields that are read, and parsing a URL, are arguments. *)
From S2P Require Import Limiter.
From S2P Require Import Prelude GoText GoQuote GoNet Encoding Storage AuthSession.
From S2P Require Import WireGuard Manager Totp Passkeys Passwords TwoFactor.
From S2P Require Import WebSessions Api Throttle SignIn AuthConfig Oidc.

(** [GithubConfig], all of it. *)
Record GithubSettings := mkGithubSettings {
  gs_Name : string; gs_ClientID : string; gs_ClientSecret : string; gs_RedirectURL : string; gs_BaseURL : string;
  Organizations : list string; Teams : list string; Users : list string;
  AdminTeams : list string; AdminUsers : list string }.

Record githubUser := mkGithubUser { login : string; id : Z }.
(** The answers of the API, decoded. *)
Record team := mkTeam { t_Slug : string; t_Organization : string }.
Record email := mkEmail { e_Email : string; e_Primary : bool; e_Verified : bool }.
Record account := mkAccount { u_ID : Z; u_Login : string; u_Name : string }.

(** [client.Do] of a GET on behalf of the person, with the status of the answer
    and its body; and what decoding a body gives. *)
Class GithubAPI `{OAuth} := {
  Do : Token → string → result (Z * string);
  decode_account : string → result account;
  decode_state : string → result string;
  decode_teams : string → result (list team);
  decode_emails : string → result (list email) }.
(** Scheme and host of a URL. *)
Class URLs := { url_Parse : string → result (string * string) }.

(** [url.PathEscape] *)
Definition hex_upper (d : Z) : ascii := if d <? 10 then chr (48 + d) else chr (55 + d).
Definition unreserved (c : ascii) : bool :=
  let b := byte_of c in
  ((48 <=? b) && (b <=? 57)) || ((65 <=? b) && (b <=? 90)) || ((97 <=? b) && (b <=? 122)) ||
  existsb (Ascii.eqb c) ["-"; "_"; "."; "~"; "$"; "&"; "+"; "="; ":"; "@"]%char.
Definition PathEscape (s : string) : string :=
  of_bytes (mjoin ((λ c, if unreserved c then [c]
    else ["%"%char; hex_upper (byte_of c / 16); hex_upper (byte_of c mod 16)]) <$> bytes s)).

(** ** Users: login:id *)
Section users.
  Context `{UnicodeTables}.
Definition parseGithubUser (entry : string) : result githubUser :=
  let bad := Err (PlainError ("user " +:+ Quote entry +:+
    " is not of the form login:id - a login alone can be registered by somebody else once it is free")) in
  match Cut entry ":" with
  | Some (login, text) =>
      match Atoi text with
      | Some id => if negb (String.eqb login "") && (0 <? id) then Ok (mkGithubUser login id) else bad
      | None => bad
      end
  | None => bad
  end.
Fixpoint findGithubUser (l : list string) (n : Z) : option githubUser :=
  match l with
  | [] => None
  | entry :: l =>
      match parseGithubUser entry with
      | Ok user => if id user =? n then Some user else findGithubUser l n
      | Err _ => findGithubUser l n
      end
  end.
(** [listed]; that the login has changed is only logged. *)
Definition listed (l : list string) (n : Z) : bool := is_set (findGithubUser l n).
End users.

Definition containsFold `{FoldTable} (l : list string) (value : string) : bool := existsb (λ item, equal_fold item value) l.
Definition intersectsFold `{FoldTable} (configured actual : list string) : bool := existsb (containsFold configured) actual.

(** ** The configuration *)
Section settings.
  Context `{URLs} `{UnicodeTables}.
  Implicit Types (c : GithubSettings).

Definition github_name c : string := if String.eqb (gs_Name c) "" then "GitHub" else gs_Name c.
Definition endpoints c : (string * string) * string :=
  if String.eqb (gs_BaseURL c) "" then
    (("https://github.com/login/oauth/authorize", "https://github.com/login/oauth/access_token"), "https://api.github.com")
  else
    let base := TrimSuffix (gs_BaseURL c) "/" in
    ((base +:+ "/login/oauth/authorize", base +:+ "/login/oauth/access_token"), base +:+ "/api/v3").
Definition apiURL c : string := (endpoints c).2.
Definition scopes c : list string :=
  ["user:email"] ++
  (if bool_decide (Organizations c = []) && bool_decide (Teams c = []) && bool_decide (AdminTeams c = []) then []
   else ["read:org"]).
Definition subject c (n : Z) : string :=
  if String.eqb (gs_BaseURL c) "" then "github:" +:+ Itoa n
  else "github@" +:+ match url_Parse (gs_BaseURL c) with Ok (_, host) => host | Err _ => gs_BaseURL c end +:+ ":" +:+ Itoa n.

Definition well_formed_team (t : string) : bool :=
  match Cut t "/" with
  | Some (org, slug) => negb (String.eqb org "") && negb (String.eqb slug "") && negb (Contains_byte slug "/")
  | None => false
  end.
Fixpoint check_users c (l : list string) : result unit :=
  match l with
  | [] => Ok tt
  | entry :: l =>
      match parseGithubUser entry with
      | Ok _ => check_users c l
      | Err e => Err (PlainError (error_text e +:+ " (the id of a login is at " +:+ apiURL c +:+ "/users/<login>)"))
      end
  end.
Fixpoint check_teams (l : list string) : result unit :=
  match l with
  | [] => Ok tt
  | t :: l =>
      fail! (PlainError ("team " +:+ Quote t +:+ " is not of the form organization/team-slug")) when negb (well_formed_team t);
      check_teams l
  end.
Definition github_Validate c : result unit :=
  fail! (PlainError "clientID, clientSecret and redirectURL are required")
    when String.eqb (gs_ClientID c) "" || String.eqb (gs_ClientSecret c) "" || String.eqb (gs_RedirectURL c) "";
  let? _ := wrap ("redirectURL is not a URL: " +:+ gs_RedirectURL c) (url_Parse (gs_RedirectURL c)) in
  fail! (PlainError ("baseURL is not a URL such as https://github.example.com: " +:+ gs_BaseURL c))
    when negb (String.eqb (gs_BaseURL c) "") &&
      match url_Parse (gs_BaseURL c) with
      | Ok (scheme, host) => String.eqb scheme "" || String.eqb host ""
      | Err _ => true
      end;
  fail! (PlainError "anybody can create a GitHub account - restrict who may sign in with organizations, teams or users")
    when bool_decide (Organizations c = []) && bool_decide (Teams c = []) && bool_decide (Users c = []);
  let? _ := check_users c (Users c ++ AdminUsers c) in
  check_teams (Teams c ++ AdminTeams c).
(** The part the rest of the program looks at. *)
Definition github_config c : GithubConfig := mkGithub (gs_Name c) (github_Validate c).
End settings.

(** ** The API *)
(** A membership that does not exist is an answer of its own. *)
Inductive answer (A : Type) := Found (a : A) | NotFound | Failed (e : goerror).
Arguments Found {A} _. Arguments NotFound {A}. Arguments Failed {A} _.

Section api.
  Context `{GithubAPI} (baseURL : string) (token : Token).

Definition api_get {A} (path : string) (decode : string → result A) : answer A :=
  match Do token (baseURL +:+ path) with
  | Err e => Failed (WrappedError ("GET " +:+ path) e)
  | Ok (status, body) =>
      if status =? 404 then NotFound
      else if negb (status =? 200) then Failed (PlainError ("GET " +:+ path +:+ ": " +:+ Itoa status))
      else match decode body with
           | Ok a => Found a
           | Err e => Failed (WrappedError ("GET " +:+ path) e)
           end
  end.
Definition errNotFound : goerror := PlainError "not found".
(** A failed call where a membership is not what is asked for. *)
Definition or_error {A} (x : answer A) : result A :=
  match x with Found a => Ok a | NotFound => Err errNotFound | Failed e => Err e end.

Definition isMember (org : string) : result bool :=
  match api_get ("/user/memberships/orgs/" +:+ PathEscape org) decode_state with
  | Found state => Ok (String.eqb state "active")
  | NotFound => Ok false
  | Failed e => Err e
  end.
Definition perPage : Z := 100.
Definition team_name (t : team) : string := t_Organization t +:+ "/" +:+ t_Slug t.
Definition teams_page (page : Z) : result (list team) :=
  or_error (api_get ("/user/teams?per_page=" +:+ Itoa perPage +:+ "&page=" +:+ Itoa page) decode_teams).
(** At most [n] more pages, from [page] on. *)
Fixpoint teams_from (n : nat) (page : Z) (all : list string) : result (list string) :=
  match n with
  | O => Ok all
  | S n =>
      let? teams := teams_page page in
      let all := all ++ (team_name <$> teams) in
      if Z.of_nat (List.length teams) <? perPage then Ok all else teams_from n (page + 1) all
  end.
Definition teams : result (list string) := teams_from 10 1 [].
Fixpoint first_verified (l : list email) : string :=
  match l with
  | [] => ""
  | e :: l => if e_Primary e && e_Verified e then e_Email e else first_verified l
  end.
Definition primaryEmail : string :=
  match api_get "/user/emails" decode_emails with Found l => first_verified l | _ => "" end.
End api.

(** ** Who may sign in *)
(** [refusedError] is the other way an account can come back. *)
Inductive verdict := Allowed (i : Identity) | RefusedAccount (login reason : string).

Section identity.
  Context `{GithubAPI} `{URLs} `{UnicodeTables} `{FoldTable} (c : GithubSettings) (token : Token).
  Notation api := (apiURL c).

Fixpoint member_of_any (orgs : list string) : result bool :=
  match orgs with
  | [] => Ok false
  | org :: orgs => let? member := isMember api token org in if member then Ok true else member_of_any orgs
  end.
Definition allowed (n : Z) (teams : list string) : result bool :=
  if listed (Users c) n || intersectsFold (Teams c) teams then Ok true else member_of_any (Organizations c).
Definition is_admin (n : Z) (teams : list string) : bool :=
  listed (AdminUsers c) n || intersectsFold (AdminTeams c) teams.
Definition identity : result verdict :=
  let? user := or_error (api_get api token "/user" decode_account) in
  fail! (PlainError "GitHub returned no user") when (u_ID user =? 0) || String.eqb (u_Login user) "";
  let? ts := (if bool_decide (Teams c = []) && bool_decide (AdminTeams c = []) then Ok [] else teams api token) in
  let? ok := allowed (u_ID user) ts in
  if negb ok then Ok (RefusedAccount (u_Login user) "not in any of the configured organizations, teams or users") else
  Ok (Allowed (Identity.mk (github_name c) (subject c (u_ID user))
    (if String.eqb (u_Name user) "" then u_Login user else u_Name user) (primaryEmail api token)
    (if is_admin (u_ID user) ts then MakeAdmin [] else []))).
End identity.

(** ** The handlers *)
Section handlers.
  Context {S W : Type} `{Storage S} `{PasswordHashing} `{UpperTable} `{WebAuthn}.
  Context `{GithubAPI} `{URLs} `{UnicodeTables} `{FoldTable}.
  Variables (rt : ProviderRuntime S W) (c : GithubSettings).
  Implicit Types (r : SignInRequest) (now : Time) (d : Draws).

Definition github_oauth : OAuthConfig :=
  mkOAuth (gs_RedirectURL c) (gs_ClientID c) (gs_ClientSecret c) (scopes c) (endpoints c).1.
(** [Provider] refuses a configuration that is not valid with a panic. *)
Definition github_Provider : result OAuthConfig :=
  match github_Validate c with
  | Ok _ => Ok github_oauth
  | Err e => Err (Panic ("invalid GitHub configuration: " +:+ error_text e))
  end.
Definition github_login (state : list Z) r now d : M (Server S W) reaction :=
  let session := mkAuthSession (Some (RandomString state)) None None "" None "" None in
  let! started := m_try (rt_SetSession rt r session now d) in
  m_ret match started with
        | Err _ => (ErrorText 401 "No session", cookie r)
        | Ok k => (Redirect StatusTemporaryRedirect (AuthCodeURL github_oauth (RandomString state) []), Some k)
        end.
(** Everything between the session and the new one. *)
Definition github_authenticate r (s : AuthSession) : step Identity :=
  match as_State s with
  | None => Stop (ErrorText 400 "No sign-in in progress - please start again")
  | Some state =>
      answer! (ErrorText 400 "Bad state value") when negb (String.eqb (FormValue r "state") state);
      answer! (ErrorText 403 "The sign-in with GitHub was not completed") when negb (String.eqb (FormValue r "error") "");
      go! token := or_stop (λ _, ErrorText 502 "The sign-in with GitHub failed")
                     (Exchange github_oauth (FormValue r "code") None) in
      match identity c token with
      | Ok (Allowed i) => Go i
      | Ok (RefusedAccount _ _) => Stop (ErrorText 403 "Your GitHub account is not allowed to use this server.")
      | Err _ => Stop (ErrorText 502 "The sign-in with GitHub failed")
      end
  end.
Definition github_callback r now d : M (Server S W) reaction :=
  let! session := m_try (rt_GetSession r now) in
  match session with
  | Err _ => m_ret (ErrorText 400 "No sign-in in progress - please start again", cookie r)
  | Ok s =>
      match github_authenticate r s with
      | Stop answer => m_ret (answer, cookie r)
      | Go i =>
          let! started := m_try (rt_SetSession rt r (session_of i) now d) in
          m_ret match started with
                | Ok k => (Done, Some k)
                | Err e => (sessionNotStarted e, cookie r)
                end
      end
  end.
End handlers.
