(* ===== verification/WebServer.v ===== *)
(** * cmd/serve/http.go and internal/authnz/router.go: the way of a request

    What the server plugs into the sign-in, the sign-in pages, and the handlers
    a request passes before the API or the web UI gets it. The providers that
    ask another service, parsing a URL and the trace id are arguments. *)
From S2P Require Import Limiter.
From S2P Require Import Prelude GoText GoQuote GoNet ClientAddr Network Encoding Storage.
From S2P Require Import AuthSession WireGuard Devices Routes Manager AuditLog Totp Passkeys Passwords.
From S2P Require Import TwoFactor ApiTokens WebSessions Api ApiUsers Throttle SignIn AuthConfig.

(** ** http.go: what the sign-in is given *)
Fixpoint dedup (seen l : list string) : list string :=
  match l with
  | [] => []
  | policy :: l =>
      if String.eqb policy "" || existsb (String.eqb policy) seen then dedup seen l
      else policy :: dedup (policy :: seen) l
  end.
Definition policies_of_identity (identity : Identity) : list string :=
  sort_Strings (dedup [] (claims_Values (Identity.Claims identity) PolicyClaim)).
Definition twoFactorIssuer (externalHost : string) : string :=
  if negb (String.eqb externalHost "") then externalHost else "wg-access-server".
Definition sameProvider (a b : string) : bool := String.eqb a b || (HasPassword a && HasPassword b).

Section plugged_in.
  Context {S W : Type} `{Storage S} `{UnicodeTables}.
  Notation Srv := (Server S W).

(** [storedPasswords] *)
Definition UserPassword (subject : string) : M Srv (string * string) :=
  let! r := m_try (on_data (GetUser subject)) in
  m_ret (match r with Ok user => (User.PasswordHash user, User.PasswordFrom user) | Err _ => ("", "") end).

(** A failure is only logged; the firewall is built again. *)
Definition recordLogin (identity : Identity) (now : Time) : M Srv unit :=
  let user := User.mk (Identity.Subject identity) (Identity.Provider identity) (Identity.Name identity)
    (Identity.Email identity) (Join (policies_of_identity identity) ", ") now "" "" None "" None "" 0 "" in
  let! r := m_try (on_data (SaveUser user)) in
  if is_ok r then on_manager Resync else m_ret tt.

(** The providers a subject is known from: the one of its row, or without a row
    those of its devices. *)
Definition known_providers (subject : string) : M Srv (list string) :=
  let! r := m_try (on_data (GetUser subject)) in
  match r with
  | Ok user => m_ret [User.Provider user]
  | Err e =>
      if error_is e ErrUserNotFound then
        let! devices := m_wrap ("failed to read the devices of " +:+ Quote subject +:+ " to check the sign-in")
          (on_data (List_ subject)) in
        m_ret (Device.OwnerProvider <$> devices)
      else m_fail (WrappedError ("failed to read the user " +:+ Quote subject +:+ " to check the sign-in") e)
  end.
Definition login_refused (identity : Identity) (provider : string) : goerror :=
  RefusedError "This account already signs in another way here. Sign in the way you did before, or ask an admin."
    ("the subject " +:+ Quote (Identity.Subject identity) +:+ " signed in through " +:+
     Quote (Identity.Provider identity) +:+ " belongs to a user of " +:+ Quote provider).
Fixpoint check_known (identity : Identity) (known : list string) : result unit :=
  match known with
  | [] => Ok tt
  | provider :: known =>
      if String.eqb provider "" || sameProvider provider (Identity.Provider identity)
      then check_known identity known else Err (login_refused identity provider)
  end.
Definition checkLogin (identity : Identity) : M Srv unit :=
  let! known := known_providers (Identity.Subject identity) in
  lift (check_known identity known).
End plugged_in.

(** What the sign-in is given. *)
Definition newRuntime {S W} `{Storage S} `{UnicodeTables} (maxAge : Z) (otherProviders : bool)
    (twoFactor : option (option Request → string * string)) : ProviderRuntime S W :=
  mkRuntime S W maxAge otherProviders (Some recordLogin) (Some checkLogin) (Some UserPassword)
    (match twoFactor with Some _ => Some true | None => None end) twoFactor.

(** ** router.go: the claims *)
Fixpoint find_multiple (l : list (string * option ProviderConfig)) (name : string) : result (option OIDCConfig) :=
  match l with
  | [] => Ok None
  | (providerName, provider) :: l =>
      let? p := deref provider in
      match OIDC p with
      | None => find_multiple l name
      | Some c =>
          if String.eqb (oidc_Name c) name || (String.eqb (oidc_Name c) "" && String.eqb providerName name)
          then Ok (Some c) else find_multiple l name
      end
  end.
Definition findOIDCProvider (auth : AuthConfig) (name : string) : result (option OIDCConfig) :=
  match OIDC (Embedded auth) with
  | Some c => if String.eqb (oidc_Name c) name then Ok (Some c) else find_multiple (Multiple auth) name
  | None => find_multiple (Multiple auth) name
  end.
Definition with_Claims (claims : Claims) (i : Identity) : Identity :=
  Identity.mk (Identity.Provider i) (Identity.Subject i) (Identity.Name i) (Identity.Email i) claims.
Definition claimsMiddleware (adminUsername : string) (auth : AuthConfig) : ClaimsMiddleware := λ user,
  let user := if HasPassword (Identity.Provider user) && String.eqb (Identity.Subject user) adminUsername
              then with_Claims (MakeAdmin (Identity.Claims user)) user else user in
  let? oidc := findOIDCProvider auth (Identity.Provider user) in
  match oidc with
  | Some c =>
      if negb (String.eqb (AccessClaim c) "") && negb (claims_Has (Identity.Claims user) (AccessClaim c) "true")
      then Err (LoginError NotAuthorized "User has no access") else Ok user
  | None => Ok user
  end.

(** [sessionMaxAge]: whole seconds; [parsed] is what time.ParseDuration says. *)
Definition DefaultSessionMaxAge : Z := 30 * 24 * 3600 * 10 ^ 9.
Section max_age.
  Context `{UnicodeTables}.
Definition sessionMaxAge (configured : string) (parsed : result Z) : result Z :=
  if String.eqb configured "" then Ok (DefaultSessionMaxAge / 10 ^ 9) else
  let? maxAge := wrap ("auth.sessionStore.maxAge is not a duration such as " +:+ Quote "24h" +:+ ": " +:+ Quote configured)
    parsed in
  fail! (PlainError ("auth.sessionStore.maxAge must be positive, got " +:+ Quote configured)) when maxAge <=? 0;
  Ok (maxAge / 10 ^ 9).
Definition SessionMaxAge (configured : string) (parsed : result Z) : result Z :=
  let? seconds := sessionMaxAge configured parsed in Ok (seconds * 10 ^ 9).
End max_age.

(** ** The pages of the sign-in *)
(** The server, and the throttle of each provider. *)
Record House (S W C : Type) := mkHouse { server : Server S W; throttles : gmap nat (Throttle C) }.
Arguments mkHouse {S W C} _ _. Arguments server {S W C} _. Arguments throttles {S W C} _.

(** What the router of the sign-in knows: the pages, and the addresses the
    providers registered. *)
Inductive page :=
  | SimplePost (index : nat)
  | SimplePasskey (index : nat)
  | SimpleScript
  | SignInPage
  | SignInWith (index : string)
  | SignOut
  | Callback (index : nat).
Definition is_simple (p : provider) : bool := match p with PSimple _ => true | _ => false end.
(** [/signin/{index}]: one segment that is not empty. *)
Definition signin_index (path : string) : option string :=
  if HasPrefix path "/signin/" then
    let index := TrimPrefix path "/signin/" in
    if String.eqb index "" || Contains_byte index "/" then None else Some index
  else None.

Inductive outcome := Passed (ctx : Ctx) | Answered (r : reaction).
Definition notAuthorized : reply :=
  ErrorText 403 "Your account is not allowed to access this server.

To sign in with a different account, go to /signout
".

Section pages.
  Context {S W C : Type} `{Storage S} `{PasswordHashing} `{UpperTable} `{WebAuthn} `{LRU attempts C}.
  Variables (rt : ProviderRuntime S W) (providers : list provider) (desires_page : bool).
  (** A provider that asks another service: starting it, the address it answers
      at, and the answer. *)
  Variable external_login : provider → SignInRequest → Time → Draws → M (Server S W) reaction.
  Variable external_callback : provider → string → bool.
  Variable external_answer : provider → SignInRequest → Time → Draws → M (Server S W) reaction.
  Notation HouseM := (M (House S W C)).
  Implicit Types (r : SignInRequest) (now : Time) (d : Draws).

Definition on_server {A} (m : M (Server S W) A) : HouseM A := zoom server (λ s h, mkHouse s (throttles h)) m.
Definition throttle_of (index : nat) (h : House S W C) : Throttle C := default newLoginThrottle (throttles h !! index).
Definition on_door {A} (index : nat) (m : M (Door S W C) A) : HouseM A :=
  zoom (λ h, mkDoor (server h) (throttle_of index h))
       (λ t h, mkHouse (site t) (<[index := throttle t]> (throttles h))) m.

(** Each provider registers its addresses before the pages; the first that
    matches gets the request. *)
Fixpoint provider_page (index : nat) (l : list provider) (path : string) : option page :=
  match l with
  | [] => None
  | p :: l =>
      if is_simple p && String.eqb path "/signin/simpleauth" then Some (SimplePost index)
      else if is_simple p && String.eqb path "/signin/simpleauth/passkey" then Some (SimplePasskey index)
      else if is_simple p && String.eqb path "/signin/simpleauth/passkey.js" then Some SimpleScript
      else if external_callback p path then Some (Callback index)
      else provider_page (1 + index) l path
  end.
Definition page_of (path : string) : option page :=
  match provider_page 0 providers path with
  | Some p => Some p
  | None =>
      if String.eqb path "/signin" then Some SignInPage
      else match signin_index path with
           | Some index => Some (SignInWith index)
           | None => if String.eqb path "/signout" then Some SignOut else None
           end
  end.

Definition Invoke (index : nat) r now d : HouseM reaction :=
  match providers !! index with
  | Some (PBasic users) => on_door index (basicAuthLogin rt users r now d)
  | Some (PSimple _) => on_door index (simpleAuthLogin rt r)
  | Some p => on_server (external_login p r now d)
  | None => m_ret (ErrorText 400 "Unknown provider", cookie r)
  end.
Definition login_page r : reaction := (ErrorText 200 "Sign in", cookie r).
Definition signin r now d : HouseM reaction :=
  if negb (String.eqb (FormValue r "signout") "1") && negb desires_page
     && bool_decide (List.length providers = 1%nat)
  then Invoke 0 r now d else m_ret (login_page r).
Definition signin_with (index : string) r now d : HouseM reaction :=
  match Atoi index with
  | Some n => if (n <? 0) || (Z.of_nat (List.length providers) <=? n)
              then m_ret (ErrorText 400 "Unknown provider", cookie r) else Invoke (Z.to_nat n) r now d
  | None => m_ret (ErrorText 400 "Unknown provider", cookie r)
  end.
(** Only a POST signs out; a GET gets a page with the button. *)
Definition signout r now d : HouseM reaction :=
  if negb (String.eqb (Method (http r)) "POST") then m_ret (ErrorText 200 "Sign out", cookie r) else
  let! cleared := m_try (on_server (rt_ClearSession r now d)) in
  m_ret (Restart, match cleared with Ok c => c | Err _ => cookie r end).

Definition serve_page (p : page) r now d : HouseM reaction :=
  match p with
  | SimplePost i =>
      match providers !! i with
      | Some (PSimple users) => on_door i (simpleAuthPostEndpoint rt users r now d)
      | _ => m_ret (login_page r)
      end
  | SimplePasskey i => on_door i (passkeyOptionsEndpoint rt r now d)
  | SimpleScript => m_ret (ErrorText 200 "passkey.js", cookie r)
  | SignInPage => signin r now d
  | SignInWith index => signin_with index r now d
  | SignOut => signout r now d
  | Callback i => match providers !! i with
                  | Some p => on_server (external_answer p r now d)
                  | None => m_ret (login_page r)
                  end
  end.

(** ** The way of a request *)
Variable claims : ClaimsMiddleware.
(** [AuthMiddleware.Middleware] *)
Definition auth_middleware r now d : HouseM outcome :=
  match page_of (Path (http r)) with
  | Some p => let! x := serve_page p r now d in m_ret (Answered x)
  | None =>
      let! session := m_try (on_server (rt_GetSession r now)) in
      m_ret match session with
            | Err _ => Passed None
            | Ok s =>
                match as_Identity s with
                | None => Answered (Redirect StatusSeeOther "/signin", cookie r)
                | Some i =>
                    match claims i with
                    | Ok i => Passed (Some (with_Identity i s))
                    | Err (LoginError NotAuthorized _) => Answered (notAuthorized, cookie r)
                    | Err _ => Answered (Redirect StatusSeeOther "/signin", cookie r)
                    end
                end
            end
  end.
Definition RequireAuthentication (ctx : Ctx) r : outcome :=
  if Authenticated ctx then Passed ctx else Answered (Redirect StatusTemporaryRedirect "/signin", cookie r).

(** [newRouter]: from the connection to the API and the web UI. *)
Variables (trusted : TrustedProxies) (tokens_enabled : bool) (url_Host : string → option string).
(** http.CrossOriginProtection without exceptions: why it refuses a request. *)
Definition cross_origin (r : Request) : option string :=
  if existsb (String.eqb (Method r)) ["GET"; "HEAD"; "OPTIONS"] then None else
  let site := Header_Get r "Sec-Fetch-Site" in
  if String.eqb site "" then
    let origin := Header_Get r "Origin" in
    if String.eqb origin "" || bool_decide (url_Host origin = Some (Host r)) then None
    else Some "cross-origin request detected, and/or browser is out of date: Sec-Fetch-Site is missing, and Origin does not match Host"
  else if String.eqb site "same-origin" || String.eqb site "none" then None
  else Some "cross-origin request detected from Sec-Fetch-Site header".
Definition with_http (r : SignInRequest) (q : Request) : SignInRequest :=
  mkSignIn q (PostForm r) (URLQuery r) (form_error r) (basic_auth r) (cookie r).
Definition is_site (path : string) : bool := negb (HasPrefix path "/health" || String.eqb path "/metrics").
(** What the client connected from, for everything that follows. *)
Definition seen_as r : SignInRequest := with_http r (ClientAddrMiddleware trusted (http r)).
Definition newRouter (trace : string) r now d : HouseM outcome :=
  let r := seen_as r in
  match cross_origin (http r) with
  | Some why => m_ret (Answered (ErrorText 403 why, cookie r))
  | None =>
      let! passed := auth_middleware r now d in
      match passed with
      | Answered x => m_ret (Answered x)
      | Passed ctx =>
          let! handled := on_server (on_data (Middleware tokens_enabled (Some claims) trace (http r) ctx now)) in
          m_ret match handled with
                | Refused status message => Answered (ErrorText status message, cookie r)
                | Next ctx => if is_site (Path (http r)) then RequireAuthentication ctx r else Passed ctx
                end
      end
  end.
(** The call the API sees. *)
Definition call_of (trace : string) r (ctx : Ctx) now : CallContext :=
  mkCall ctx (Some (http (seen_as r))) trace (WithRemoteAddr (RemoteAddr (http (seen_as r)))) now.
End pages.
