(* ===== verification/Configuration.v ===== *)
(** * cmd/serve: the configuration and what is made of it

    [config.go] from where the flags, the environment and the file have been
    read into one structure, [secrets.go] and [wireguard.go]: the checks before
    the server starts, the server's own addresses, and the firewall rules the
    configuration and the state of the devices come to. A fatal error is an
    error. Reading files, drawing a key and hashing a password are arguments. *)
From S2P Require Import Prelude GoText GoQuote Netip NetipText Network Firewall Storage.
From S2P Require Import AuthSession Devices Routes Passwords Throttle SignIn AuthConfig.

(** [AppConfig], the parts that are checked here. *)
Record VPNConfig := mkVPN {
  vpn_AllowedIPs : list string;
  vpn_CIDR : string;
  vpn_CIDRv6 : string;
  vpn_NAT44 : bool;
  vpn_NAT66 : bool;
  vpn_GatewayInterface : string;
  vpn_ClientIsolation : bool;
  vpn_Policies : gmap string (list string);
  vpn_Firewall : string;
  vpn_DisableIPTables : bool }.
Record AppConfig := mkApp {
  HttpEnabled : bool;
  HTTPSEnabled : bool;
  AdminUsername : string;
  AdminPassword : string;
  StorageURI : string;
  PrivateKey : string;
  DNSDomain : string;
  DNSUpstream : list string;
  ClientDNSServers : list string;
  VPN : VPNConfig;
  Auth : AuthConfig }.

Definition with_AllowedIPs (l : list string) (v : VPNConfig) : VPNConfig :=
  mkVPN l (vpn_CIDR v) (vpn_CIDRv6 v) (vpn_NAT44 v) (vpn_NAT66 v) (vpn_GatewayInterface v) (vpn_ClientIsolation v)
    (vpn_Policies v) (vpn_Firewall v) (vpn_DisableIPTables v).
Definition with_VPN (v : VPNConfig) (c : AppConfig) : AppConfig :=
  mkApp (HttpEnabled c) (HTTPSEnabled c) (AdminUsername c) (AdminPassword c) (StorageURI c) (PrivateKey c) (DNSDomain c)
    (DNSUpstream c) (ClientDNSServers c) v (Auth c).
Definition with_Auth (a : AuthConfig) (c : AppConfig) : AppConfig :=
  mkApp (HttpEnabled c) (HTTPSEnabled c) (AdminUsername c) (AdminPassword c) (StorageURI c) (PrivateKey c) (DNSDomain c)
    (DNSUpstream c) (ClientDNSServers c) (VPN c) a.
Definition with_PrivateKey (k : string) (c : AppConfig) : AppConfig :=
  mkApp (HttpEnabled c) (HTTPSEnabled c) (AdminUsername c) (AdminPassword c) (StorageURI c) k (DNSDomain c)
    (DNSUpstream c) (ClientDNSServers c) (VPN c) (Auth c).

(** ** secrets.go *)
(** A setting with a file beside it: [content] is what reading the file gives. *)
Record secretSource := mkSecret { s_value : string; s_file : string; s_direct : string; s_fileEnv : string }.
(** [strings.TrimRight(content, "\r\n")] *)
Definition line_break (c : ascii) : bool := Ascii.eqb c (chr 13) || Ascii.eqb c (chr 10).
Fixpoint drop_breaks (l : list ascii) : list ascii :=
  match l with c :: l' => if line_break c then drop_breaks l' else l | [] => [] end.
Definition trim_breaks (s : string) : string := of_bytes (rev (drop_breaks (rev (bytes s)))).
Definition readSecretFile (path : string) (content : result string) : result string :=
  let? content := content in
  let secret := trim_breaks content in
  fail! (PlainError (path +:+ " is empty")) when String.eqb secret "";
  Ok secret.
Definition load (s : secretSource) (content : result string) : result string :=
  if String.eqb (s_file s) "" then Ok (s_value s) else
  fail! (PlainError ("both " +:+ s_direct s +:+ " and " +:+ s_fileEnv s +:+ " are set, but they are exclusive"))
    when negb (String.eqb (s_value s) "");
  wrap ("failed to read " +:+ s_fileEnv s) (readSecretFile (s_file s) content).

(** ** config.go *)
Definition splitByCommaAndTrim (s : string) : list string := TrimSpace <$> Split s ",".
Definition split_single (l : list string) : list string :=
  match l with [s] => splitByCommaAndTrim s | _ => l end.
(** The empty string can be hard to pass through an environment variable. *)
Definition zero_is_empty (s : string) : string := if String.eqb s "0" then "" else s.

Section config.
  Context `{UnicodeTables} `{PasswordHashing}.

Definition check_network (name allowed : string) : result unit :=
  match ParsePrefix allowed with
  | Some _ => Ok tt
  | None => Err (WrappedError ("the policy '" +:+ name +:+ "' has an invalid network '" +:+ allowed +:+ "'") netip_error)
  end.
Definition check_policy (entry : string * list string) : result unit :=
  let '(name, allowedIPs) := entry in
  fail! (PlainError ("the policy name '" +:+ name +:+ "' is not usable: letters, digits and underscores, at most 32 of them - it becomes part of a firewall set name"))
    when negb (ValidPolicyName name);
  fail! (PlainError ("the policy '" +:+ name +:+ "' names no networks - leave people out of every policy to give them vpn.allowedIPs instead"))
    when bool_decide (allowedIPs = []);
  check_all (check_network name) allowedIPs.
Definition check_rule (policies : gmap string (list string)) (provider name : string) : result unit :=
  match policies !! name with
  | Some _ => Ok tt
  | None => Err (PlainError (provider +:+ " has a rule for the policy '" +:+ name
             +:+ "', which is not configured under vpn.policies"))
  end.
Definition check_rules (policies : gmap string (list string)) (entry : string * list string) : result unit :=
  check_all (check_rule policies entry.1) entry.2.
(** The order of the maps decides which mistake is reported first. *)
Definition validatePolicies (policies : gmap string (list string)) (auth : AuthConfig) : result unit :=
  let? _ := check_all check_policy (map_to_list policies) in
  let? names := PolicyNames auth in
  check_all (check_rules policies) (map_to_list names).

Definition with_users (simple : bool) (users : list string) (p : ProviderConfig) : ProviderConfig :=
  if simple then mkProviderConfig (OIDC p) (Gitlab p) (Github p) (Basic p) (Some users)
  else mkProviderConfig (OIDC p) (Gitlab p) (Github p) (Some users) (Simple p).
Definition set_embedded (p : ProviderConfig) (a : AuthConfig) : AuthConfig := mkAuthConfig p (Multiple a).
(** The entry of the admin goes behind the configured ones. *)
Definition add_admin (username pw : string) (a : AuthConfig) : AuthConfig :=
  let entry := username +:+ ":" +:+ pw in
  let p := Embedded a in
  match Simple p, Basic p with
  | None, None => set_embedded (with_users true [entry] p) a
  | Some users, _ => set_embedded (with_users true (users ++ [entry]) p) a
  | None, Some users => set_embedded (with_users false (users ++ [entry]) p) a
  end.

Definition check_auth (c : AppConfig) : result AppConfig :=
  fail! (PlainError "Missing admin password: please set via environment variable, flag or config file")
    when negb (IsEnabled (Auth c)) && String.eqb (AdminPassword c) "";
  if String.eqb (AdminPassword c) "" then Ok c else
  let? pw := wrap "failed to generate a bcrypt hash for the provided admin password"
               (GenerateFromPassword (AdminPassword c)) in
  Ok (with_Auth (add_admin (AdminUsername c) pw (Auth c)) c).
Definition check_key (key : result string) (c : AppConfig) : result AppConfig :=
  if negb (String.eqb (PrivateKey c) "") then Ok c else
  fail! (PlainError "Missing WireGuard private key") when negb (HasPrefix (StorageURI c) "memory://");
  let? key := wrap "failed to generate a server private key" key in
  Ok (with_PrivateKey key c).
Definition check_firewall (c : AppConfig) : result AppConfig :=
  let v := VPN c in
  let? firewall := ResolveFirewall (vpn_Firewall v) (vpn_DisableIPTables v) in
  let c := with_VPN (mkVPN (vpn_AllowedIPs v) (vpn_CIDR v) (vpn_CIDRv6 v) (vpn_NAT44 v) (vpn_NAT66 v)
    (vpn_GatewayInterface v) (vpn_ClientIsolation v) (vpn_Policies v) firewall (vpn_DisableIPTables v)) c in
  fail! (PlainError ("access policies need vpn.firewall: nftables, but the firewall is " +:+ Quote firewall))
    when bool_decide (vpn_Policies v ≠ ∅) && negb (String.eqb firewall FirewallNftables);
  Ok c.
Definition tidy (c : AppConfig) : AppConfig :=
  let v := VPN c in
  mkApp (HttpEnabled c) (HTTPSEnabled c) (AdminUsername c) (AdminPassword c) (StorageURI c) (PrivateKey c)
    (zero_is_empty (DNSDomain c)) (split_single (DNSUpstream c)) (split_single (ClientDNSServers c))
    (mkVPN (split_single (vpn_AllowedIPs v)) (zero_is_empty (vpn_CIDR v)) (zero_is_empty (vpn_CIDRv6 v)) (vpn_NAT44 v)
      (vpn_NAT66 v) (vpn_GatewayInterface v) (vpn_ClientIsolation v) (vpn_Policies v) (vpn_Firewall v)
      (vpn_DisableIPTables v)) (Auth c).
(** [ReadConfig], once everything has been read. *)
Definition ReadConfig (key : result string) (c : AppConfig) : result AppConfig :=
  fail! (PlainError "Both the HTTP and the HTTPS listener are disabled - the web UI would not be reachable at all")
    when negb (HttpEnabled c) && negb (HTTPSEnabled c);
  let? _ := validatePolicies (vpn_Policies (VPN c)) (Auth c) in
  let? _ := Validate (Auth c) in
  let? c := check_firewall c in
  let? c := check_auth c in
  let? c := check_key key c in
  Ok (tidy c).

Definition detectDNSUpstream (nameservers : list string) (ipv4Enabled ipv6Enabled : bool) : list string :=
  if bool_decide (nameservers = []) then
    (if ipv6Enabled then ["2606:4700:4700::1111"] else []) ++ (if ipv4Enabled then ["1.1.1.1"] else [])
  else nameservers.

(** ** wireguard.go *)
Record vpnAddressing := mkAddressing { a_ipv4 : Prefix; a_ipv6 : Prefix; a_prefixes : list string; a_addrs : list Addr }.
(** The server's own addresses, which the clients may reach. *)
Definition vpnAddresses (c : AppConfig) : result (vpnAddressing * AppConfig) :=
  let? (ipv4, ipv6) := ServerVPNIPs (vpn_CIDR (VPN c)) (vpn_CIDRv6 (VPN c)) in
  fail! (PlainError "Need at least one of VPN.CIDR or VPN.CIDRv6 set") when negb (IsValid ipv4) && negb (IsValid ipv6);
  let own := filter (λ pb : Prefix * Z, IsValid pb.1 = true) [(ipv4, 32); (ipv6, 128)] in
  Ok (mkAddressing ipv4 ipv6 ((λ pb, PrefixString pb.1) <$> own) ((λ pb, PAddr pb.1) <$> own),
      with_VPN (with_AllowedIPs (vpn_AllowedIPs (VPN c) ++ ((λ pb, PrefixString (PrefixFrom (PAddr pb.1) pb.2)) <$> own)) (VPN c)) c).

Definition sortedPolicyNames (policies : gmap string (list string)) : list string :=
  sort_Strings (map_to_list policies).*1.
Definition forwardingOptions (c : AppConfig) (vpn : vpnAddressing) (state : FirewallState) : ForwardingOptions :=
  let v := VPN c in
  mkForwarding (vpn_GatewayInterface v) (vpn_CIDR v) (vpn_CIDRv6 v) (vpn_NAT44 v) (vpn_NAT66 v) (vpn_ClientIsolation v)
    (vpn_AllowedIPs v ++ Routed state) [] []
    ((λ name, mkPolicy name (default [] (vpn_Policies v !! name)) (default [] (Policies state !! name)))
       <$> sortedPolicyNames (vpn_Policies v))
    (AddrString <$> a_addrs vpn) (vpn_Firewall v).
End config.
