(* ===== verification/PasskeySpecs.v ===== *)
(** * What the operations on passkeys do to the storage: lemmas *)
From S2P Require Import Prelude GoText GoNet Encoding Storage Passkeys.

Section passkey_specs.
  Context {S : Type} `{StorageLaws S} `{WebAuthn} (relyingParty : option Request → string * string).
  Implicit Types (s : S) (a : Abs).

(** A challenge that an answer at [now] may use. *)
Definition pending (a : Abs) (subject : string) (now : Time) (x : User) (session : SessionData) : Prop :=
  users a !! subject = Some x ∧ User.WebauthnChallenge x ≠ "" ∧
  (∃ until, User.WebauthnChallengeUntil x = Some until ∧ now <= until) ∧
  unmarshal_SessionData (User.WebauthnChallenge x) = Some session.
Definition with_challenge (subject data : string) (until : option Time) (x : User) (a : Abs) : Abs :=
  on_users <[subject := User.with_Challenge data until x]> a.
Definition cleared (subject : string) (x : User) (a : Abs) : Abs := with_challenge subject "" None x a.
Definition rows_of (a : Abs) (subject : string) (rows : list Passkey) : Prop :=
  lists_rows (passkeys a) (λ p, Passkey.Owner p = subject) rows.

Lemma user_run subject s r s' : ok s → user_ subject s = (r, s') →
  s' = s ∧ match r with
           | Ok user => users (view s) !! subject = Some (pu_stored user) ∧ rows_of (view s) subject (pu_passkeys user)
           | Err _ => True
           end.
Proof.
  intros Hok E. unfold user_, m_bind, m_try in E. destruct (GetUser subject s) as [g s1] eqn:Eg.
  pose proof (law_GetUser subject _ _ _ Hok Eg) as [-> Hg].
  destruct g as [x|e]; [|by injection E as <- <-].
  unfold m_wrap in E. destruct (ListPasskeys subject s) as [l s1] eqn:El.
  pose proof (law_ListPasskeys subject _ _ _ Hok El) as [-> Hl].
  destruct l as [l|e]; injection E as <- <-; [|done]. split; [done|]. split; [done|]. apply Hl.
Qed.

Lemma set_challenge_run subject data until s r s' : ok s → SetWebauthnChallenge subject data until s = (r, s') →
  ok s' ∧ match r with
          | Ok _ => ∃ x, users (view s) !! subject = Some x ∧ view s' = with_challenge subject data until x (view s)
          | Err _ => view s' = view s
          end.
Proof.
  intros Hok E. destruct r as [[]|e].
  - apply (effect_ok _ _ _ _ _ (law_SetWebauthnChallenge _ _ _)) in E as (Hok' & evs & (_ & x & Hx & Hv) & _); [|done].
    split; [done|]. by exists x.
  - by apply (effect_err _ _ _ _ _ (law_SetWebauthnChallenge _ _ _)) in E as (Hok' & Hv & _).
Qed.

Lemma takeChallenge_run subject x now s r s' : ok s → users (view s) !! subject = Some x →
  takeChallenge subject x now s = (r, s') →
  ok s' ∧ match r with
          | Ok session => pending (view s) subject now x session ∧ view s' = cleared subject x (view s)
          | Err _ => view s' = view s
          end.
Proof.
  intros Hok Hx E. unfold takeChallenge in E.
  destruct (String.eqb_spec (User.WebauthnChallenge x) "") as [_|Hne]; [by injection E as <- <-|].
  destruct (User.WebauthnChallengeUntil x) as [until|] eqn:Eu; [|by injection E as <- <-].
  cbn [orb] in E. destruct (Z.ltb_spec until now); [by injection E as <- <-|].
  destruct (unmarshal_SessionData (User.WebauthnChallenge x)) as [session|] eqn:Es; [|by injection E as <- <-].
  unfold m_bind, m_wrap in E. destruct (SetWebauthnChallenge subject "" None s) as [g s1] eqn:Eg.
  apply set_challenge_run in Eg as [Hok1 Hg]; [|done].
  destruct g as [[]|e]; injection E as <- <-; [|done]. destruct Hg as (y & Hy & Hv).
  assert (y = x) as -> by congruence. split; [done|]. split; [|exact Hv]. split_and!; try done.
  exists until. split; [done|lia].
Qed.
Lemma userAndChallenge_run subject now s r s' : ok s → userAndChallenge subject now s = (r, s') →
  ok s' ∧ match r with
          | Ok (user, session) => pending (view s) subject now (pu_stored user) session ∧
              rows_of (view s) subject (pu_passkeys user) ∧ view s' = cleared subject (pu_stored user) (view s)
          | Err _ => view s' = view s
          end.
Proof.
  intros Hok E. unfold userAndChallenge, m_bind in E. destruct (user_ subject s) as [g s1] eqn:Eg.
  apply user_run in Eg as [-> Hg]; [|done]. destruct g as [user|e]; [|by injection E as <- <-].
  destruct Hg as [Hx Hrows]. destruct (takeChallenge subject (pu_stored user) now s) as [t s1] eqn:Et.
  apply takeChallenge_run in Et as [Hok1 Ht]; [|done|done].
  destruct t as [session|e]; injection E as <- <-; [|done]. by destruct Ht.
Qed.

Lemma keepChallenge_run subject session now s r s' : ok s → keepChallenge subject session now s = (r, s') →
  ok s' ∧ match r with
          | Ok _ => ∃ x data, users (view s) !! subject = Some x ∧ marshal_SessionData session = Ok data ∧
              view s' = with_challenge subject data (Some (now + challengeFor)) x (view s)
          | Err _ => view s' = view s
          end.
Proof.
  intros Hok E. unfold keepChallenge, m_bind, m_wrap, lift in E.
  destruct (marshal_SessionData session) as [data|e] eqn:Em; simpl in E; [|by injection E as <- <-].
  destruct (SetWebauthnChallenge subject data _ s) as [g s1] eqn:Eg.
  apply set_challenge_run in Eg as [Hok1 Hg]; [|done]. injection E as <- <-. split; [done|].
  destruct g as [[]|e]; [|done]. simpl. destruct Hg as (x & Hx & Hv). by exists x, data.
Qed.

(** The first halves only keep a challenge. *)
Definition kept (subject : string) (now : Time) (a a' : Abs) : Prop :=
  a' = a ∨ ∃ x data, users a !! subject = Some x ∧ a' = with_challenge subject data (Some (now + challengeFor)) x a.
Lemma keep_then subject session now s r s' (f : result string) : ok s →
  m_bind (keepChallenge subject session now) (λ _, lift f) s = (r, s') → ok s' ∧ kept subject now (view s) (view s').
Proof.
  intros Hok E. unfold m_bind, lift in E. destruct (keepChallenge subject session now s) as [g s1] eqn:Eg.
  apply keepChallenge_run in Eg as [Hok1 Hg]; [|done].
  destruct g as [u|e]; injection E as <- <-; (split; [done|]); [right|by left].
  destruct Hg as (x & data & Hx & _ & Hv). by exists x, data.
Qed.
Lemma BeginRegistration_run r subject now random s res s' : ok s →
  BeginRegistration relyingParty r subject now random s = (res, s') → ok s' ∧ kept subject now (view s) (view s').
Proof.
  intros Hok E. unfold BeginRegistration in E. unfold m_bind at 1 in E. destruct (user_ subject s) as [g s1] eqn:Eg.
  apply user_run in Eg as [-> Hg]; [|done]. destruct g as [user|e]; [|injection E as <- <-; by split; [|left]].
  unfold m_bind at 1, lift at 1 in E. destruct (webauthn relyingParty r) as [rp|e]; [|injection E as <- <-; by split; [|left]].
  unfold m_bind at 1, m_wrap at 1, lift at 1 in E.
  destruct (lib_BeginRegistration _ _ _ _) as [[options session]|e]; simpl in E; [|injection E as <- <-; by split; [|left]].
  by eapply keep_then.
Qed.
Lemma BeginLogin_run r subject now random s res s' : ok s →
  BeginLogin relyingParty r subject now random s = (res, s') → ok s' ∧ kept subject now (view s) (view s').
Proof.
  intros Hok E. unfold BeginLogin in E. unfold m_bind at 1 in E. destruct (user_ subject s) as [g s1] eqn:Eg.
  apply user_run in Eg as [-> Hg]; [|done]. destruct g as [user|e]; [|injection E as <- <-; by split; [|left]].
  destruct (bool_decide _); [injection E as <- <-; by split; [|left]|].
  unfold m_bind at 1, lift at 1 in E. destruct (webauthn relyingParty r) as [rp|e]; [|injection E as <- <-; by split; [|left]].
  unfold m_bind at 1, m_wrap at 1, lift at 1 in E.
  destruct (lib_BeginLogin _ _ _) as [[options session]|e]; simpl in E; [|injection E as <- <-; by split; [|left]].
  by eapply keep_then.
Qed.

(** ** The second halves *)
(** What an accepted sign-in leaves: the challenge is gone, and the row of the
    credential may have its data and its last use written. *)
Definition use_recorded (c : Credential) (now : Time) (a a' : Abs) : Prop :=
  a' = a ∨ ∃ p q, passkeys a !! RawURLEncoding (Credential_ID c) = Some p ∧
    a' = on_passkeys <[RawURLEncoding (Credential_ID c) := q]> a ∧
    Passkey.ID q = Passkey.ID p ∧ Passkey.Owner q = Passkey.Owner p ∧ Passkey.Name q = Passkey.Name p ∧
    Passkey.LastUsedAt q = Some now ∧
    (Passkey.Data q = Passkey.Data p ∨ marshal_Credential c = Ok (Passkey.Data q)).
Lemma record_use_run c now s r s' : ok s → record_use c now s = (r, s') →
  r = Ok tt ∧ ok s' ∧ use_recorded c now (view s) (view s').
Proof.
  intros Hok E. unfold record_use, m_bind at 1, m_try at 1 in E.
  destruct (GetPasskey (RawURLEncoding (Credential_ID c)) s) as [g s1] eqn:Eg.
  pose proof (law_GetPasskey _ _ _ _ Hok Eg) as [-> Hg].
  destruct g as [p|e]; [|injection E as <- <-; split_and!; [done..|by left]]. cbn [found] in Hg.
  pose proof (wf_passkey_key _ (ok_wf _ Hok) _ _ Hg) as Hid.
  unfold m_bind, m_try in E. set (upd := Passkey.mk _ _ _ _ _ _) in E.
  destruct (UpdatePasskey upd s) as [t s1] eqn:Et. injection E as <- <-. destruct t as [[]|e].
  - apply (effect_ok _ _ _ _ _ (law_UpdatePasskey _)) in Et as (Hok' & evs & (_ & old & q & Hold & Ho & Hi & Hw & Hn & Hd & Hu & Hv) & _); [|done].
    split_and!; [done..|]. right. exists p, q. simpl in *. rewrite Hid in *.
    split_and!; [done|done|done|congruence..|].
    rewrite Hd. destruct (marshal_Credential c) as [data|e]; [by right|by left].
  - apply (effect_err _ _ _ _ _ (law_UpdatePasskey _)) in Et as (Hok' & Hv & _); [|done]. split_and!; [done..|]. by left.
Qed.

(** How a second half ends, before or after the challenge is taken. *)
Definition taken_then {A} (subject : string) (now : Time) (a a' : Abs) (r : result A)
    (P : passkeyUser → SessionData → A → Abs → Prop) : Prop :=
  ((∃ e, r = Err e) ∧ a' = a) ∨
  ∃ user session, pending a subject now (pu_stored user) session ∧ rows_of a subject (pu_passkeys user) ∧
    match r with
    | Err _ => a' = cleared subject (pu_stored user) a
    | Ok x => P user session x a'
    end.
Lemma take_then {A} subject now s r s' (k : passkeyUser * SessionData → M S A) P : ok s →
  m_bind (userAndChallenge subject now) k s = (r, s') →
  (∀ user session s1, ok s1 → view s1 = cleared subject (pu_stored user) (view s) → k (user, session) s1 = (r, s') →
     ok s' ∧ match r with
             | Err _ => view s' = view s1
             | Ok x => P user session x (view s')
             end) →
  ok s' ∧ taken_then subject now (view s) (view s') r P.
Proof.
  intros Hok E Hk. unfold m_bind in E. destruct (userAndChallenge subject now s) as [g s1] eqn:Eg.
  apply userAndChallenge_run in Eg as [Hok1 Hg]; [|done].
  destruct g as [[user session]|e].
  - destruct Hg as (Hp & Hrows & Hv). destruct (Hk _ _ _ Hok1 Hv E) as [Hok' Hr]. split; [done|].
    right. exists user, session. split_and!; [done..|]. destruct r as [x|e]; [done|]. by rewrite Hr.
  - injection E as <- <-. split; [done|]. left. split; [eauto|done].
Qed.
(** The steps between, which touch nothing. *)
Lemma lifted {A B} (x : result A) msg (k : A → M S B) s r s' :
  m_bind (m_wrap msg (lift x)) k s = (r, s') → (∃ e, r = Err e ∧ s' = s) ∨ ∃ y, x = Ok y ∧ k y s = (r, s').
Proof.
  unfold m_bind, m_wrap, lift. destruct x as [y|e]; simpl; intros E; [right; by exists y|left]. injection E as <- <-. eauto.
Qed.
Lemma lifted0 {A B} (x : result A) (k : A → M S B) s r s' :
  m_bind (lift x) k s = (r, s') → (∃ e, r = Err e ∧ s' = s) ∨ ∃ y, x = Ok y ∧ k y s = (r, s').
Proof. unfold m_bind, lift. destruct x as [y|e]; intros E; [right; by exists y|left]. injection E as <- <-. eauto. Qed.

Lemma FinishRegistration_run r subject name answer now s res s' : ok s →
  FinishRegistration relyingParty r subject name answer now s = (res, s') →
  ok s' ∧ taken_then subject now (view s) (view s') res (λ user session p a',
    ∃ rp parsed c data, webauthn relyingParty r = Ok rp ∧ ParseCredentialCreationResponseBytes answer = Ok parsed ∧
      lib_CreateCredential rp (library_user user) session parsed = Ok c ∧ marshal_Credential c = Ok data ∧
      p = Passkey.mk (RawURLEncoding (Credential_ID c)) subject (passkeyName name) data now None ∧
      passkeys (view s) !! Passkey.ID p = None ∧
      a' = on_passkeys <[Passkey.ID p := p]> (cleared subject (pu_stored user) (view s))).
Proof.
  intros Hok E. eapply (take_then _ _ _ _ _ _ _ Hok E). intros user session s1 Hok1 Hv E1. cbn beta iota in E1.
  apply lifted0 in E1 as [(e & -> & ->)|(rp & Hrp & E1)]; [done|].
  apply lifted in E1 as [(e & -> & ->)|(parsed & Hparsed & E1)]; [done|].
  apply lifted in E1 as [(e & -> & ->)|(c & Hc & E1)]; [done|].
  apply lifted in E1 as [(e & -> & ->)|(data & Hdata & E1)]; [done|].
  unfold m_bind, m_try in E1. set (p := Passkey.mk _ _ _ _ _ _) in E1.
  destruct (AddPasskey p s1) as [t s2] eqn:Et. destruct t as [u|e].
  - injection E1 as <- <-. apply (effect_ok _ _ _ _ _ (law_AddPasskey _)) in Et as (Hok' & evs & (_ & Hnew & Hv') & _); [|done].
    split; [done|]. exists rp, parsed, c, data. split_and!; try done; [by rewrite Hv in Hnew|by rewrite Hv', Hv].
  - apply (effect_err _ _ _ _ _ (law_AddPasskey _)) in Et as (Hok' & Hv' & _); [|done].
    destruct (error_is e _); injection E1 as <- <-; done.
Qed.

Lemma FinishLogin_run r subject answer now s res s' : ok s →
  FinishLogin relyingParty r subject answer now s = (res, s') →
  ok s' ∧ taken_then subject now (view s) (view s') res (λ user session _ a',
    ∃ rp parsed c, webauthn relyingParty r = Ok rp ∧ ParseCredentialRequestResponseBytes answer = Ok parsed ∧
      lib_ValidateLogin rp (library_user user) session parsed = Ok c ∧ CloneWarning c = false ∧
      use_recorded c now (cleared subject (pu_stored user) (view s)) a').
Proof.
  intros Hok E. eapply (take_then _ _ _ _ _ _ _ Hok E). intros user session s1 Hok1 Hv E1. cbn beta iota in E1.
  apply lifted0 in E1 as [(e & -> & ->)|(rp & Hrp & E1)]; [done|].
  apply lifted in E1 as [(e & -> & ->)|(parsed & Hparsed & E1)]; [done|].
  apply lifted in E1 as [(e & -> & ->)|(c & Hc & E1)]; [done|].
  destruct (CloneWarning c) eqn:Ec; [by injection E1 as <- <-|].
  apply record_use_run in E1 as (-> & Hok' & Hu); [|done]. split; [done|].
  exists rp, parsed, c. split_and!; [done..|]. by rewrite Hv in Hu.
Qed.

(** ** Renaming and deleting *)
Lemma Delete_passkey_run subject id s r s' : ok s → Delete_passkey subject id s = (r, s') →
  ok s' ∧ match r with
          | Ok _ => ∃ p, passkeys (view s) !! id = Some p ∧ Passkey.Owner p = subject ∧
              view s' = on_passkeys (delete id) (view s)
          | Err _ => view s' = view s
          end.
Proof.
  intros Hok E. unfold Delete_passkey, m_bind, m_try in E. destruct (DeletePasskey subject id s) as [[u|e] s1] eqn:Ed.
  - injection E as <- <-. apply (effect_ok _ _ _ _ _ (law_DeletePasskey _ _)) in Ed as (Hok' & evs & (_ & p & Hp & Ho & Hv) & _); [|done].
    split; [done|]. by exists p.
  - apply (effect_err _ _ _ _ _ (law_DeletePasskey _ _)) in Ed as (Hok' & Hv & _); [|done].
    destruct (error_is e _); by injection E as <- <-.
Qed.
Lemma Rename_passkey_run subject id name s r s' : ok s → Rename_passkey subject id name s = (r, s') →
  ok s' ∧ ((∃ e, r = Err e) ∧ view s' = view s ∨
    ∃ p, passkeys (view s) !! id = Some p ∧ Passkey.Owner p = subject ∧
      view s' = on_passkeys <[id := Passkey.with_Name (passkeyName name) p]> (view s) ∧
      ∀ q, r = Ok q → q = Passkey.with_Name (passkeyName name) p).
Proof.
  intros Hok E. unfold Rename_passkey in E. unfold m_bind at 1, m_try at 1 in E.
  destruct (RenamePasskey subject id (passkeyName name) s) as [[u|e] s1] eqn:Er.
  - apply (effect_ok _ _ _ _ _ (law_RenamePasskey _ _ _)) in Er as (Hok1 & evs & (_ & p & Hp & Ho & Hv) & _); [|done].
    unfold m_bind, m_wrap in E. destruct (GetPasskey id s1) as [g s2] eqn:Eg.
    pose proof (law_GetPasskey _ _ _ _ Hok1 Eg) as [-> Hg].
    assert (ok s' ∧ view s' = view s1 ∧ ∀ q, r = Ok q → q = Passkey.with_Name (passkeyName name) p) as (Hok' & Hv' & Hq).
    { destruct g as [q|e]; simpl in E, Hg; [|by injection E as <- <-]. rewrite Hv in Hg. simpl in Hg.
      rewrite lookup_insert_eq in Hg. injection Hg as Hg.
      destruct (negb _); injection E as <- <-; split_and!; try done. by intros ? [= <-]. }
    split; [done|]. right. exists p. split_and!; try done. by rewrite Hv', Hv.
  - apply (effect_err _ _ _ _ _ (law_RenamePasskey _ _ _)) in Er as (Hok1 & Hv & _); [|done].
    destruct (error_is e _); injection E as <- <-; (split; [done|]); left; eauto.
Qed.
End passkey_specs.
