(* ===== verification/TwoFactorSpecs.v ===== *)
(** * What the second factor and the passwords guarantee: lemmas

    Recovery codes and their lists, and what [Check], [Confirm] and their
    helpers do to the storage. *)
From S2P Require Import Prelude GoText Netip NetipText Network GoQuote Encoding TextFacts Storage.
From S2P Require Import Totp Passwords TwoFactor.

(** ** Lists of hashes *)
Lemma splitCodes_Join l : Forall entry_ok l → splitCodes (Join l ",") = l.
Proof.
  intros Hl. destruct l as [|s l]; [done|]. unfold splitCodes. rewrite Split_Join; [| |done].
  - induction Hl as [|t m (Hne & Ht & _) Hm IH]; [done|]. cbn [fmap list_fmap]. rewrite Ht.
    rewrite filter_cons_True by done. by rewrite IH.
  - eapply Forall_impl; [exact Hl|]. by intros t (_ & _ & Hc).
Qed.
Lemma splitCodes_ok stored : Forall entry_ok (splitCodes stored).
Proof.
  unfold splitCodes. apply Forall_forall. intros c [Hne Hc]%list_elem_of_filter. apply list_elem_of_fmap in Hc as (t & -> & Ht).
  split; [done|]. split; [apply TrimSpace_idem|]. apply TrimSpace_comma_free. unfold Split in Ht.
  apply list_elem_of_fmap in Ht as (p & -> & Hp). unfold comma_free. rewrite bytes_of_bytes.
  pose proof (split_bytes_parts "," [] (bytes stored) ltac:(apply not_elem_of_nil)) as Hparts.
  rewrite Forall_forall in Hparts. by apply Hparts.
Qed.

(** The text of base32 is printable and holds no dash. *)
Lemma base32_plain l : Forall is_byte l →
  Forall (λ c, text_byte c = true ∧ c ≠ "-"%char) (base32_encode l).
Proof.
  intros Hl%base32_text. eapply Forall_impl; [exact Hl|]. simpl. intros c (_ & Hc & _). unfold text_byte.
  destruct (Z.leb_spec 33 (byte_of c)), (Z.ltb_spec (byte_of c) 127); try lia. simpl.
  destruct (Ascii.eqb_spec c ","); [subst c; change (byte_of ",") with 44 in Hc; lia|]. split; [done|].
  intros ->. change (byte_of "-") with 45 in Hc. lia.
Qed.
Lemma base32_trimmed l : Forall is_byte l → TrimSpace (base32_EncodeToString l) = base32_EncodeToString l.
Proof.
  intros Hl. apply TrimSpace_text. eapply Forall_impl; [by apply base32_plain|]. by intros c [? _].
Qed.

Section recovery.
  Context `{UpperTable}.

(** Using a code takes its hash off the list and leaves the others. *)
Lemma useRecoveryCode_spec stored given rest used : useRecoveryCode stored given = (rest, used) →
  if used then hashRecoveryCode given ∈ splitCodes stored ∧
    splitCodes rest = filter (λ hash, hash ≠ hashRecoveryCode given) (splitCodes stored)
  else rest = stored ∧ hashRecoveryCode given ∉ splitCodes stored.
Proof.
  unfold useRecoveryCode. set (wanted := hashRecoveryCode given).
  destruct (existsb (String.eqb wanted) (splitCodes stored)) eqn:E; intros [= <- <-].
  - apply existsb_exists in E as (c & Hc & <-%String.eqb_eq). split; [by apply list_elem_of_In|].
    apply splitCodes_Join. apply Forall_forall. intros c [_ Hin]%list_elem_of_filter.
    pose proof (splitCodes_ok stored) as Hok. rewrite Forall_forall in Hok. by apply Hok.
  - split; [done|]. intros Hin. apply not_true_iff_false in E. apply E, existsb_exists.
    exists wanted. split; [by apply list_elem_of_In|apply String.eqb_refl].
Qed.

(** ** What is shown is what is accepted *)
Lemma group_fuel_bytes n l : (List.length l <= n)%nat → mjoin (bytes <$> group_fuel n l) = l ∧
  Forall (λ s, s ≠ "") (group_fuel n l).
Proof.
  revert l. induction n as [|n IH]; intros l Hl; [by destruct l; [|simpl in Hl; lia]|].
  destruct l as [|c l]; [done|]. cbn [group_fuel fmap list_fmap]. 
  destruct (IH (drop recoveryCodeGroups (c :: l))) as [Hj Hf].
  { rewrite length_drop. unfold recoveryCodeGroups. simpl in *. lia. }
  split.
  - change (bytes (of_bytes (take recoveryCodeGroups (c :: l))) ++
      mjoin (bytes <$> group_fuel n (drop recoveryCodeGroups (c :: l))) = c :: l).
    rewrite Hj, bytes_of_bytes. apply take_drop.
  - by constructor.
Qed.
Lemma filter_Join_dashes (l : list string) : Forall (λ s, "-"%char ∉ bytes s) l →
  List.filter (λ c, negb (Ascii.eqb c "-")) (bytes (Join l "-")) = mjoin (bytes <$> l).
Proof.
  intros Hl. induction Hl as [|s l Hs Hl IH]; [done|].
  assert (List.filter (λ c, negb (Ascii.eqb c "-")) (bytes s) = bytes s) as Hid.
  { apply filter_keeps, Forall_forall. intros c Hc. destruct (Ascii.eqb_spec c "-"); [subst; done|done]. }
  destruct l as [|t l].
  - change (mjoin (bytes <$> [s])) with (bytes s ++ []). by rewrite app_nil_r.
  - change (Join (s :: t :: l) "-") with (s +:+ "-" +:+ Join (t :: l) "-").
    rewrite !bytes_app, !List.filter_app, Hid. change (bytes "-") with ["-"%char]. simpl (List.filter _ ["-"%char]).
    rewrite IH. done.
Qed.
Lemma group_normal l : Forall is_byte l →
  normalizeRecoveryCode (group (base32_EncodeToString l)) = base32_EncodeToString l.
Proof.
  intros Hl. unfold normalizeRecoveryCode.
  set (code := base32_EncodeToString l). assert (bytes code = base32_encode l) as Eb by apply bytes_of_bytes.
  destruct (group_fuel_bytes (String.length code) (bytes code) ltac:(by rewrite length_bytes)) as [Hj Hne].
  assert (Forall (λ c, text_byte c = true ∧ c ≠ "-"%char) (bytes code)) as Htext.
  { rewrite Eb. by apply base32_plain. }
  assert (Forall (λ s, Forall (λ c, text_byte c = true ∧ c ≠ "-"%char) (bytes s))
    (group_fuel (String.length code) (bytes code))) as Hparts.
  { revert Htext. rewrite <- Hj at 1. generalize (group_fuel (String.length code) (bytes code)) as parts.
    induction parts as [|p parts IH]; [done|]. cbn [fmap list_fmap]. intros [H1 H2]%Forall_app. constructor; auto. }
  assert (TrimSpace (group code) = group code) as ->.
  { unfold group. rewrite <- (of_bytes_bytes (Join _ "-")). apply TrimSpace_text.
    clear -Hparts. induction Hparts as [|s k Hs Hk IH]; [constructor|].
    assert (Forall (λ c, text_byte c = true) (bytes s)) as Hs' by (eapply Forall_impl; [exact Hs|]; by intros c [? _]).
    destruct k as [|t k]; [done|].
    change (Join (s :: t :: k) "-") with (s +:+ "-" +:+ Join (t :: k) "-"). rewrite !bytes_app.
    apply Forall_app. split; [done|]. apply Forall_app. split; [by repeat constructor|done]. }
  unfold group. rewrite filter_Join_dashes.
  - rewrite Hj, of_bytes_bytes. by apply ToUpper_base32.
  - eapply Forall_impl; [exact Hparts|]. intros s Hs Hin. rewrite Forall_forall in Hs. destruct (Hs _ Hin) as [_ Hd]. done.
Qed.
Lemma plain_normal l : Forall is_byte l →
  normalizeRecoveryCode (base32_EncodeToString l) = base32_EncodeToString l.
Proof.
  intros Hl. unfold normalizeRecoveryCode. rewrite base32_trimmed by done.
  rewrite filter_keeps, of_bytes_bytes; [by apply ToUpper_base32|].
  unfold base32_EncodeToString. rewrite bytes_of_bytes.
  eapply Forall_impl; [by apply base32_plain|]. intros c [_ Hc]. by destruct (Ascii.eqb_spec c "-").
Qed.
End recovery.

(** ** What the operations do to the storage *)
Section state.
  Context {S : Type} `{StorageLaws S} `{PasswordHashing} `{UpperTable}.
  Implicit Types (u : Accounts S).

Definition user_of u (subject : string) : option User := users (view (store u)) !! subject.
(** Reading the user failed for another reason than there being none. *)
Definition read_fails u (subject : string) : Prop :=
  ∃ e s, GetUser subject (store u) = (Err e, s) ∧ error_is e ErrUserNotFound = false.
Definition write_fails u (subject : string) : Prop :=
  ∃ state e s, SetUserTOTP subject state (store u) = (Err e, s).
(** The stored state after the second factor of one user was written. *)
Definition factor_set (subject : string) (state : TOTPState) u u' : Prop :=
  ∃ x, user_of u subject = Some x ∧ wrong u' = wrong u ∧
    view (store u') = on_users <[subject := User.with_TOTP state x]> (view (store u)).
Definition nothing_written u u' : Prop := wrong u' = wrong u ∧ view (store u') = view (store u).

Lemma known_user_run subject u r u' : ok (store u) → known_user subject u = (r, u') →
  u' = u ∧ ∃ o, r = Ok o ∧
    match o with
    | Some x => user_of u subject = Some x
    | None => user_of u subject = None ∨ read_fails u subject
    end.
Proof.
  intros Hok E. unfold known_user, m_bind, m_try, on_store, zoom in E.
  destruct (GetUser subject (store u)) as [r0 s'] eqn:Eg.
  pose proof (law_GetUser subject _ _ _ Hok Eg) as [-> Hf].
  injection E as <- <-. split; [by destruct u|]. eexists. split; [done|].
  destruct r0 as [x|e]; [done|]. destruct (error_is e ErrUserNotFound) eqn:Ee.
  - left. by apply Hf.
  - right. by exists e, (store u).
Qed.
Lemma need_user_ok {A} subject (k : User → M (Accounts S) A) u a u' : ok (store u) →
  need_user subject k u = (Ok a, u') → ∃ x, user_of u subject = Some x ∧ k x u = (Ok a, u').
Proof.
  intros Hok E. unfold need_user in E. minv.
  match goal with Hk : known_user _ _ = _ |- _ => apply known_user_run in Hk as (-> & o & Ho & Hx); [|done] end.
  injection Ho as ->. destruct o as [x|]; [by exists x|by minv].
Qed.

Lemma set_factor_run subject state u r u' : ok (store u) →
  on_store (SetUserTOTP subject state) u = (r, u') →
  ok (store u') ∧ match r with
                  | Ok _ => factor_set subject state u u'
                  | Err _ => nothing_written u u' ∧ write_fails u subject
                  end.
Proof.
  intros Hok E. unfold on_store, zoom in E. destruct (SetUserTOTP subject state (store u)) as [r0 s'] eqn:Es.
  injection E as <- <-. destruct r0 as [x|e].
  - apply (effect_ok _ _ _ _ _ (law_SetUserTOTP _ _)) in Es as (Hok' & evs & (_ & y & Hy & Hv) & _); [|done].
    split; [done|]. by exists y.
  - pose proof Es as Es0. apply (effect_err _ _ _ _ _ (law_SetUserTOTP _ _)) in Es as (Hok' & Hv & _); [|done].
    split; [done|]. split; [by split|]. by eexists state, e, s'.
Qed.
Lemma accept_run subject state u r u' : ok (store u) → accept subject state u = (r, u') →
  ok (store u') ∧ ∃ b, r = Ok b ∧
    if b then factor_set subject state u u' else nothing_written u u' ∧ write_fails u subject.
Proof.
  intros Hok E. unfold accept, m_bind, m_try in E.
  destruct (on_store (SetUserTOTP subject state) u) as [r0 u0] eqn:Es. injection E as <- <-.
  apply set_factor_run in Es as [Hok' Hr]; [|done]. split; [done|]. eexists. split; [done|]. by destruct r0.
Qed.

(** How [Check] decides. *)
Definition by_app (x : User) (given : string) (now : Time) (step : Z) : Prop :=
  CheckTOTPStep (User.TotpSecret x) given now = (step, true) ∧ User.TotpLastStep x < step.
Definition by_recovery (x : User) (given : string) (now : Time) : Prop :=
  (CheckTOTPStep (User.TotpSecret x) given now).2 = false ∧
  hashRecoveryCode given ∈ splitCodes (User.TotpRecovery x).
Definition with_step (x : User) (step : Z) : TOTPState :=
  mkTOTP (User.TotpSecret x) (User.TotpEnabledAt x) (User.TotpRecovery x) step.
Definition with_codes (x : User) (recovery : string) : TOTPState :=
  mkTOTP (User.TotpSecret x) (User.TotpEnabledAt x) recovery (User.TotpLastStep x).

Lemma Check_run subject given now u r u' : ok (store u) → Check subject given now u = (r, u') →
  ok (store u') ∧ ∃ b, r = Ok b ∧
    if b then ∃ x, user_of u subject = Some x ∧ User.TwoFactorEnabled x = true ∧
      ((∃ step, by_app x given now step ∧ factor_set subject (with_step x step) u u') ∨
       (by_recovery x given now ∧ ∃ rest,
          splitCodes rest = filter (λ h, h ≠ hashRecoveryCode given) (splitCodes (User.TotpRecovery x)) ∧
          factor_set subject (with_codes x rest) u u'))
    else nothing_written u u' ∧
      (read_fails u subject ∨ write_fails u subject ∨
       ∀ x, user_of u subject = Some x → User.TwoFactorEnabled x = true →
         ¬ (∃ step, by_app x given now step) ∧ ¬ by_recovery x given now).
Proof.
  intros Hok E. unfold Check, m_bind in E. destruct (known_user subject u) as [r0 u0] eqn:Ek.
  apply known_user_run in Ek as (-> & o & -> & Hx); [|done].
  destruct o as [x|]; [|injection E as <- <-; split; [done|]; exists false; split; [done|]; split; [by split|];
    destruct Hx as [Hx|Hx]; [right; right; intros x' Hx'; congruence|by left]].
  destruct (User.TwoFactorEnabled x) eqn:Een; cbn [negb] in E;
    [|injection E as <- <-; split; [done|]; exists false; split; [done|]; split; [by split|];
      right; right; intros x' Hx'; congruence].
  assert (∀ r1, accept subject r1 u = (r, u') → ok (store u') ∧ ∃ b, r = Ok b ∧
    if b then factor_set subject r1 u u' else nothing_written u u' ∧ write_fails u subject) as Hacc
    by (intros r1; apply accept_run, Hok).
  destruct (CheckTOTPStep (User.TotpSecret x) given now) as [step good] eqn:Es. destruct good.
  - destruct (Z.leb_spec step (User.TotpLastStep x)).
    + injection E as <- <-. split; [done|]. exists false. split; [done|]. split; [by split|]. right. right.
      intros x' Hx' _. assert (x' = x) as -> by congruence. unfold by_app, by_recovery. rewrite Es. split; [|by intros [[=] _]].
      intros (m & [[= <-] ?]). lia.
    + apply Hacc in E as (Hok' & b & -> & Hb). split; [done|]. exists b. split; [done|]. destruct b.
      * exists x. split_and!; [done..|]. left. exists step. split; [by split|exact Hb].
      * destruct Hb as [Hn Hw]. split; [done|]. by right; left.
  - destruct (useRecoveryCode (User.TotpRecovery x) given) as [rest used] eqn:Er.
    apply useRecoveryCode_spec in Er. destruct used; cbn [negb] in E.
    + destruct Er as [Hin Hrest]. apply Hacc in E as (Hok' & b & -> & Hb). split; [done|]. exists b. split; [done|].
      destruct b.
      * exists x. split_and!; [done..|]. right. unfold by_recovery. rewrite Es. split; [by split|]. exists rest. by split.
      * destruct Hb as [Hn Hw]. split; [done|]. by right; left.
    + destruct Er as [_ Hout]. injection E as <- <-. split; [done|]. exists false. split; [done|]. split; [by split|].
      right. right. intros x' Hx' _. assert (x' = x) as -> by congruence. unfold by_app, by_recovery. rewrite Es.
      split; [by intros (m & [=] & _)|]. by intros [_ ?].
Qed.
End state.

(** ** A recovery code is not mistaken for a code of the app *)
Lemma base32_digits_long l : List.length l = recoveryCodeBytes → List.length (base32_digits l) = 21%nat.
Proof.
  unfold recoveryCodeBytes. intros Hl. do 13 (destruct l as [|? l]; [discriminate|]).
  destruct l; [reflexivity|discriminate].
Qed.

Section codes.
  Context `{UpperTable}.

Lemma totp_text key counter :
  ToUpper (of_bytes (List.filter (λ c, negb (Ascii.eqb c "-")) (bytes (code key counter totpDigits)))) =
  code key counter totpDigits.
Proof.
  pose proof (code_digits key counter) as Hd.
  assert (Forall (λ c, negb (Ascii.eqb c "-") = true ∧ (byte_of c <? 128) = true ∧ upper_byte c = c)
    (bytes (code key counter totpDigits))) as Hf.
  { eapply Forall_impl; [exact Hd|]. simpl. intros c Hc. unfold is_digit in Hc.
    apply andb_true_iff in Hc as [H1%Z.leb_le H2%Z.leb_le]. split_and!.
    - destruct (Ascii.eqb_spec c "-"); [subst; change (byte_of "-") with 45 in *; lia|done].
    - apply Z.ltb_lt. lia.
    - unfold upper_byte. destruct (Z.leb_spec 97 (byte_of c)); [lia|done]. }
  rewrite filter_keeps by (eapply Forall_impl; [exact Hf|]; by intros c (? & _)).
  rewrite of_bytes_bytes. unfold ToUpper, is_ascii.
  assert (forallb (λ c, byte_of c <? 128) (bytes (code key counter totpDigits)) = true) as ->.
  { apply forallb_forall. intros c Hc%list_elem_of_In. rewrite Forall_forall in Hf. by apply Hf in Hc as (_ & ? & _). }
  rewrite <- (of_bytes_bytes (code key counter totpDigits)) at 2. f_equal.
  induction Hf as [|c t (_ & _ & Hc) Ht IH]; [done|]. inversion Hd; subst. cbn [fmap list_fmap]. rewrite Hc. by rewrite IH.
Qed.
Lemma recovery_not_totp buf secret given now : Forall is_byte buf → List.length buf = recoveryCodeBytes →
  normalizeRecoveryCode given = base32_EncodeToString buf → (CheckTOTPStep secret given now).2 = false.
Proof.
  intros Hb Hl Hn. destruct (CheckTOTPStep secret given now) as [m b] eqn:E. destruct b; [|done]. exfalso.
  apply CheckTOTPStep_ok in E as (key & i & _ & _ & _ & Hc). unfold normalizeRecoveryCode in Hn.
  rewrite <- Hc, totp_text in Hn. apply (f_equal String.length) in Hn. rewrite code_length in Hn.
  unfold base32_EncodeToString in Hn. rewrite <- length_bytes, bytes_of_bytes in Hn. unfold base32_encode in Hn.
  rewrite length_fmap, base32_digits_long in Hn by done. lia.
Qed.
End codes.

(** ** Passwords *)
Section passwords.
  Context {S : Type} `{StorageLaws S} `{PasswordHashing} (configured : string → option string).
  Implicit Types (u : Accounts S).

Lemma stored_cases subject u hash from u' : ok (store u) → stored subject u = (Ok (hash, from), u') →
  (∃ x, user_of u subject = Some x ∧ hash = User.PasswordHash x ∧ from = User.PasswordFrom x) ∨
  (hash = "" ∧ (user_of u subject = None ∨ read_fails u subject)).
Proof.
  intros Hok E. unfold stored, m_bind, m_try, on_store, zoom in E.
  destruct (GetUser subject (store u)) as [r s'] eqn:Eg.
  pose proof (law_GetUser subject _ _ _ Hok Eg) as [-> Hf]. destruct r as [x|e]; injection E as <- <- _.
  - left. exists x. by split_and!.
  - right. split; [done|]. destruct (error_is e ErrUserNotFound) eqn:Ee; [left; by apply Hf|right].
    by exists e, (store u).
Qed.

(** The password the sign-in takes: their own while the configured entry is
    the one it was set against, and the configured one otherwise, which is also
    what counts when the storage cannot say. *)
Definition right_password u (subject password : string) : Prop :=
  ∃ entry, configured subject = Some entry ∧
    ((∃ x, user_of u subject = Some x ∧
        password_is (User.PasswordHash x) (User.PasswordFrom x) entry password = true) ∨
     ((user_of u subject = None ∨ read_fails u subject) ∧ Matches entry password = true)).

Lemma user_of_store u u' subject : store u = store u' → user_of u subject = user_of u' subject.
Proof. unfold user_of. by intros ->. Qed.
Lemma read_fails_store u u' subject : store u = store u' → read_fails u subject → read_fails u' subject.
Proof. unfold read_fails. by intros ->. Qed.

Lemma Verify_ok subject password now u u' : ok (store u) →
  Verify configured subject password now u = (Ok tt, u') →
  store u' = store u ∧ wrong u' = delete subject (wrong u) ∧ right_password u subject password.
Proof.
  intros Hok E. apply Verify_cases in E as [Hs E]; [|done]. split; [done|].
  destruct (configured subject) as [entry|] eqn:Ec; [|by destruct E as [[=] _]]. cbv zeta in E.
  destruct (_ <=? _); [by destruct E as [[=] _]|]. destruct E as (hash & from & u1 & Es & Hu1 & E).
  destruct (password_is hash from entry password) eqn:Ep; [|by destruct E as [[=] _]]. destruct E as [_ Hw].
  split; [done|]. exists entry. split; [done|].
  apply stored_cases in Es as [(x & Hx & -> & ->)|[-> Hn]]; [| |by rewrite Hu1].
  - left. exists x. split; [|done]. by rewrite <- (user_of_store u1 u).
  - right. split; [|exact Ep]. rewrite <- (user_of_store u1 u subject Hu1).
    destruct Hn as [Hn|Hn]; [by left|right]. by apply (read_fails_store u1 u).
Qed.
End passwords.

(** ** Enrolling *)
Section enrolling.
  Context {S : Type} `{StorageLaws S} `{PasswordHashing} `{UpperTable}.
  Implicit Types (u : Accounts S).

Lemma factor_set_user subject state u u' : factor_set subject state u u' →
  ∃ x, user_of u subject = Some x ∧ user_of u' subject = Some (User.with_TOTP state x).
Proof.
  intros (x & Hx & _ & Hv). exists x. split; [done|]. unfold user_of. rewrite Hv. simpl. apply lookup_insert_eq.
Qed.
Lemma factor_set_other subject state u u' other : factor_set subject state u u' → other ≠ subject →
  user_of u' other = user_of u other.
Proof.
  intros (x & Hx & _ & Hv) Hne. unfold user_of. rewrite Hv. simpl. by rewrite lookup_insert_ne.
Qed.

Lemma Start_ok issuer subject account buf u secret uri u' : ok (store u) →
  Start issuer subject account buf u = (Ok (secret, uri), u') →
  ok (store u') ∧ secret = NewTOTPSecret buf ∧
  (∀ x, user_of u subject = Some x → User.TwoFactorEnabled x = false) ∧
  factor_set subject (mkTOTP secret None "" 0) u u'.
Proof.
  intros Hok E. unfold Start in E. apply need_user_ok in E as (x & Hx & E); [|done]. minv.
  match goal with Hf : on_store _ _ = _ |- _ => apply set_factor_run in Hf as [Hok' Hs]; [|done] end.
  split_and!; [done..| |done]. intros y Hy. congruence.
Qed.

Lemma Confirm_ok subject given now bufs u codes u' : ok (store u) →
  Confirm subject given now bufs u = (Ok codes, u') →
  ok (store u') ∧ ∃ x, user_of u subject = Some x ∧ User.TwoFactorEnabled x = false ∧
    User.TotpSecret x ≠ "" ∧ CheckTOTP (User.TotpSecret x) given now = true ∧
    codes = group <$> (base32_EncodeToString <$> bufs) ∧
    factor_set subject (mkTOTP (User.TotpSecret x) (Some now)
      (Join (hashRecoveryCode <$> (base32_EncodeToString <$> bufs)) ",") 0) u u'.
Proof.
  intros Hok E. unfold Confirm in E. apply need_user_ok in E as (x & Hx & E); [|done]. simpl in E. minv.
  match goal with Hf : on_store _ _ = _ |- _ => apply set_factor_run in Hf as [Hok' Hs]; [|done] end.
  split; [done|]. exists x. apply String.eqb_neq in Hguard0. apply negb_false_iff in Hguard1. by split_and!.
Qed.

(** A recovery code that was just stored is accepted, however it is typed. *)
Lemma stored_code_accepted subject given now u b u' bufs buf x : ok (store u) →
  Forall (λ buf, Forall is_byte buf ∧ List.length buf = recoveryCodeBytes) bufs → buf ∈ bufs →
  user_of u subject = Some x → User.TwoFactorEnabled x = true →
  User.TotpRecovery x = Join (hashRecoveryCode <$> (base32_EncodeToString <$> bufs)) "," →
  normalizeRecoveryCode given = base32_EncodeToString buf →
  Check subject given now u = (Ok b, u') → b = true ∨ read_fails u subject ∨ write_fails u subject.
Proof.
  intros Hok Hb Hin Hx Hen Hrec Hn E. apply Check_run in E as (_ & b' & [= <-] & Hr); [|done].
  destruct b; [by left|right]. destruct Hr as (_ & [Hr|[Hr|Hr]]); [by left|by right|exfalso].
  destruct (Hr x Hx Hen) as [_ Hno]. apply Hno. rewrite Forall_forall in Hb. destruct (Hb _ Hin) as [Hbyte Hlen]. split.
  - by eapply recovery_not_totp.
  - rewrite Hrec, splitCodes_Join.
    + unfold hashRecoveryCode at 1. rewrite Hn, <- (plain_normal buf) by done.
      change (sha256_hex (normalizeRecoveryCode (base32_EncodeToString buf))) with (hashRecoveryCode (base32_EncodeToString buf)).
      by do 2 apply list_elem_of_fmap_2.
    + apply Forall_forall. intros h (c & -> & _)%list_elem_of_fmap. apply sha256_hex_ok.
Qed.

(** Signing in: any number of codes of any users are checked. *)
Inductive checked : Accounts S → Accounts S → Prop :=
  | checked_refl u : checked u u
  | checked_step subject given now u r u1 u2 :
      Check subject given now u = (r, u1) → checked u1 u2 → checked u u2.
(** A user whose factor only lost what was used up. *)
Definition used_up (x x' : User) : Prop :=
  User.TotpSecret x' = User.TotpSecret x ∧ User.TotpLastStep x <= User.TotpLastStep x' ∧
  ∀ h, h ∈ splitCodes (User.TotpRecovery x') → h ∈ splitCodes (User.TotpRecovery x).

Lemma Check_used_up subject given now u r u' : ok (store u) → Check subject given now u = (r, u') →
  ok (store u') ∧ ∀ who x, user_of u who = Some x → ∃ x', user_of u' who = Some x' ∧ used_up x x'.
Proof.
  intros Hok E. apply Check_run in E as (Hok' & b & _ & Hr); [|done]. split; [done|]. intros who x Hx.
  destruct b.
  - destruct Hr as (y & Hy & _ & Hf).
    assert (∃ state, factor_set subject state u u' ∧ (who = subject → Secret state = User.TotpSecret x ∧
      User.TotpLastStep x <= LastStep state ∧ ∀ h, h ∈ splitCodes (Recovery state) → h ∈ splitCodes (User.TotpRecovery x)))
      as (state & Hfs & Hst).
    { destruct Hf as [(step & [_ Hs] & Hf)|(_ & rest & Hrest & Hf)]; (eexists; split; [exact Hf|]); intros ->;
        assert (x = y) as -> by congruence; simpl; split_and!; try done; [lia|].
      intros h. rewrite Hrest. by intros [_ ?]%list_elem_of_filter. }
    destruct (decide (who = subject)) as [->|Hne].
    + destruct (factor_set_user _ _ _ _ Hfs) as (z & Hz & Hz'). assert (z = x) as -> by congruence.
      eexists. split; [exact Hz'|]. by apply Hst.
    + exists x. split; [by rewrite (factor_set_other _ _ _ _ _ Hfs)|]. by split_and!.
  - destruct Hr as ([_ Hv] & _). exists x. split; [|by split_and!]. unfold user_of in *. by rewrite Hv.
Qed.
Lemma checked_used_up u u' : checked u u' → ok (store u) →
  ok (store u') ∧ ∀ who x, user_of u who = Some x → ∃ x', user_of u' who = Some x' ∧ used_up x x'.
Proof.
  intros Hc. induction Hc as [u|subject given now u r u1 u2 E Hc IH]; intros Hok.
  - split; [done|]. intros who x Hx. exists x. by split_and!.
  - apply Check_used_up in E as [Hok1 Hone]; [|done]. destruct (IH Hok1) as [Hok2 Htwo]. split; [done|].
    intros who x (x1 & Hx1 & Hs1 & Hl1 & Hr1)%Hone. apply Htwo in Hx1 as (x2 & Hx2 & Hs2 & Hl2 & Hr2).
    exists x2. split; [done|]. split_and!; [congruence|lia|auto].
Qed.
End enrolling.
