(* ===== verification/Confine.v ===== *)
(** * What a computation can touch

    [others subject a] is what everybody but [subject] has in the storage. A
    computation is confined to a subject when it leaves that alone, whatever its
    outcome; the lemmas follow the shape of the code, and [solve_confined]
    applies them. The state of the computation is any state with a storage in
    it. *)
From S2P Require Import Prelude GoText Network GoNet Encoding TextFacts Storage Atomic.
From S2P Require Import AuthSession ApiTokens WebSessions Totp Passkeys Passwords TwoFactor WireGuard Devices.
From S2P Require Import Allocation DeviceSpecs Routes Manager PasskeySpecs TwoFactorSpecs.

(** What everybody else has. *)
Definition others (subject : string) (a : Abs) : Abs :=
  mkAbs (filter (λ kd, Device.Owner kd.2 ≠ subject) (devices a)) (delete subject (users a))
    (filter (λ kx, Session.Owner kx.2 ≠ subject) (sessions a))
    (filter (λ kx, APIToken.Owner kx.2 ≠ subject) (tokens a))
    (filter (λ kx, Passkey.Owner kx.2 ≠ subject) (passkeys a)).

(** ** Tables of which some rows are the subject's *)
Section tables.
  Context `{Countable K} {A : Type} (owner : A → string) (subject : string).
  Implicit Types (m : gmap K A).
  Notation rest m := (filter (λ kx, owner kx.2 ≠ subject) m).

Lemma own_insert m k x : owner x = subject → (∀ y, m !! k = Some y → owner y = subject) → rest (<[k := x]> m) = rest m.
Proof. intros Hx Hy. apply map_filter_insert_not'; simpl; [by intros []|]. intros y Hl Hn. by apply Hn, Hy. Qed.
Lemma own_delete m k : (∀ y, m !! k = Some y → owner y = subject) → rest (delete k m) = rest m.
Proof. intros Hy. apply map_filter_delete_not. simpl. intros y Hl Hn. by apply Hn, Hy. Qed.
Lemma own_filter m : rest (rest m) = rest m.
Proof.
  apply map_eq. intros k. apply option_eq. intros x. rewrite !map_lookup_filter_Some. simpl. tauto.
Qed.
(** Only rows of the subject went away. *)
Lemma own_removed m m' : m' ⊆ m → (∀ k x, m !! k = Some x → owner x ≠ subject → m' !! k = Some x) → rest m' = rest m.
Proof.
  intros Hs Hk. apply map_eq. intros k. apply option_eq. intros x. rewrite !map_lookup_filter_Some. simpl. split.
  - intros [Hx Ho]. split; [|done]. by eapply lookup_weaken.
  - intros [Hx Ho]. split; [|done]. by apply Hk.
Qed.
End tables.

Section confine.
  Context {S T : Type} `{StorageLaws S} (get : T → S) (subject : string).
  Implicit Types (t : T).

Definition confined {A} (m : M T A) : Prop := ∀ t r t', ok (get t) → m t = (r, t') →
  ok (get t') ∧ others subject (view (get t')) = others subject (view (get t)).

Lemma confined_ret {A} (a : A) : confined (m_ret a).
Proof. by intros t r t' Hok [= <- <-]. Qed.
Lemma confined_fail {A} e : confined (m_fail (A := A) e).
Proof. by intros t r t' Hok [= <- <-]. Qed.
Lemma confined_lift {A} (x : result A) : confined (lift x).
Proof. by intros t r t' Hok [= <- <-]. Qed.
(** What a step returns may be used in what follows. *)
Lemma confined_bind_post {A B} (Q : A → Prop) (m : M T A) (k : A → M T B) : confined m →
  (∀ t a t', ok (get t) → m t = (Ok a, t') → Q a) → (∀ a, Q a → confined (k a)) → confined (m_bind m k).
Proof.
  intros Hm HQ Hk t r t' Hok E. unfold m_bind in E. destruct (m t) as [[a|e] t1] eqn:Em.
  - pose proof (HQ _ _ _ Hok Em) as Ha. apply Hm in Em as [Hok1 Hv]; [|done].
    apply Hk in E as [Hok' Hv']; [|done|done]. split; [done|]. by rewrite Hv'.
  - injection E as <- <-. by apply Hm in Em.
Qed.
Lemma confined_bind {A B} (m : M T A) (k : A → M T B) : confined m → (∀ a, confined (k a)) → confined (m_bind m k).
Proof. intros Hm Hk. by apply (confined_bind_post (λ _, True)). Qed.
Lemma confined_wrap {A} msg (m : M T A) : confined m → confined (m_wrap msg m).
Proof.
  intros Hm t r t' Hok E. unfold m_wrap in E. destruct (m t) as [x t1] eqn:Em. injection E as _ <-. by apply Hm in Em.
Qed.
Lemma confined_try {A} (m : M T A) : confined m → confined (m_try m).
Proof.
  intros Hm t r t' Hok E. unfold m_try in E. destruct (m t) as [x t1] eqn:Em. injection E as _ <-. by apply Hm in Em.
Qed.
Lemma confined_if {A} (b : bool) (m1 m2 : M T A) : confined m1 → confined m2 → confined (if b then m1 else m2).
Proof. by destruct b. Qed.
(** Steps that do not touch the storage. *)
Lemma confined_elsewhere {A} (m : M T A) : (∀ t r t', m t = (r, t') → get t' = get t) → confined m.
Proof. intros Hm t r t' Hok E. apply Hm in E. by rewrite E. Qed.
End confine.

(** ** Operations of the storage *)
Section storage.
  Context {S : Type} `{StorageLaws S} (subject : string).
  Notation confined := (confined (λ s : S, s) subject).

Lemma confined_view {A} (m : M S A) :
  (∀ s r s', ok s → m s = (r, s') → ok s' ∧ (view s' = view s ∨ others subject (view s') = others subject (view s))) →
  confined m.
Proof. intros Hm s r s' Hok E. apply Hm in E as [Hok' [Hv|Hv]]; [| |done]; (split; [done|]); [|done]. by rewrite Hv. Qed.
Lemma confined_readonly {A} (m : M S A) : readonly m → confined m.
Proof. intros Hm s r s' Hok E. apply Hm in E as (Hok' & Hv & _); [|done]. split; [done|]. by rewrite Hv. Qed.
Lemma confined_query {A} (m : M S A) P : query view ok m P → confined m.
Proof. intros Hq. by eapply confined_readonly, readonly_query. Qed.
Lemma confined_effect {A} (m : M S A) P : effect view ok m P →
  (∀ s x a' evs, ok s → P (view s) x a' evs → others subject a' = others subject (view s)) → confined m.
Proof.
  intros He HP s r s' Hok E. apply He in E as [Hok' Hr]; [|done]. split; [done|]. destruct r as [x|e].
  - destruct Hr as (evs & HPx & _). by eapply HP.
  - destruct Hr as [Hv _]. by rewrite Hv.
Qed.
Lemma confined_atomic {A} (m : M S A) : atomic m →
  (∀ s x s', ok s → m s = (Ok x, s') → others subject (view s') = others subject (view s)) → confined m.
Proof.
  intros Ha Hm s r s' Hok E. pose proof (Ha _ _ _ Hok E) as [Hok' He]. split; [done|]. destruct r as [x|e].
  - by eapply Hm.
  - destruct (He e eq_refl) as (_ & Hv & _). by rewrite Hv.
Qed.

(** Changes of one table. *)
Lemma others_devices f a : filter (λ kd, Device.Owner kd.2 ≠ subject) (f (devices a)) =
    filter (λ kd, Device.Owner kd.2 ≠ subject) (devices a) →
  others subject (on_devices f a) = others subject a.
Proof. intros E. unfold others. simpl. by rewrite E. Qed.
Lemma others_sessions f a : filter (λ kx, Session.Owner kx.2 ≠ subject) (f (sessions a)) =
    filter (λ kx, Session.Owner kx.2 ≠ subject) (sessions a) →
  others subject (on_sessions f a) = others subject a.
Proof. intros E. unfold others. simpl. by rewrite E. Qed.
Lemma others_tokens f a : filter (λ kx, APIToken.Owner kx.2 ≠ subject) (f (tokens a)) =
    filter (λ kx, APIToken.Owner kx.2 ≠ subject) (tokens a) →
  others subject (on_tokens f a) = others subject a.
Proof. intros E. unfold others. simpl. by rewrite E. Qed.
Lemma others_passkeys f a : filter (λ kx, Passkey.Owner kx.2 ≠ subject) (f (passkeys a)) =
    filter (λ kx, Passkey.Owner kx.2 ≠ subject) (passkeys a) →
  others subject (on_passkeys f a) = others subject a.
Proof. intros E. unfold others. simpl. by rewrite E. Qed.
Lemma others_users x a : others subject (on_users <[subject := x]> a) = others subject a.
Proof. unfold others. simpl. by rewrite delete_insert_eq. Qed.

(** A device under a key of the subject is theirs. *)
Lemma own_device s name d : ok s → devices (view s) !! (subject, name) = Some d → Device.Owner d = subject.
Proof. intros Hok Hd. apply (wf_dev_key _ (ok_wf _ Hok)) in Hd. unfold Device.key in Hd. congruence. Qed.
Lemma others_device s name x : ok s → Device.Owner x = subject →
  others subject (on_devices <[(subject, name) := x]> (view s)) = others subject (view s).
Proof. intros Hok Hx. apply others_devices, own_insert; [done|]. intros y Hy. by eapply own_device. Qed.
End storage.

(** ** The operations of an account *)
(** ** Devices *)
Section devices.
  Context {S : Type} `{StorageLaws S} (subject : string).
  Notation confined := (confined (λ s : S, s) subject).

Lemma confined_AddDevice cfg now user name pk psk manual v4 v6 : config_ok cfg → Identity.Subject user = subject →
  confined (AddDevice cfg now user name pk psk manual v4 v6).
Proof.
  intros Hcfg Hu. apply confined_atomic.
  { unfold AddDevice, addDeviceLocked, ListDevices, SaveDevice, manualClientAddress,
      nextClientAddressLocked, usedAddresses. solve_atomic. }
  intros s d s' Hok E. apply AddDevice_spec in E as (_ & _ & _ & _ & (t & -> & _) & _ & _ & _ & -> & _); [|done..].
  unfold Device.key. simpl. rewrite Hu. by apply others_device.
Qed.
Lemma confined_RenameDevice name newName : confined (RenameDevice subject name newName).
Proof.
  apply confined_atomic; [unfold RenameDevice, ListDevices; solve_atomic|].
  intros s d s' Hok E. apply RenameDevice_spec in E as (_ & Hok' & stored & Hl & Hk & Hd); [|done].
  destruct (String.eqb name newName); [by destruct Hd as [_ ->]|]. destruct Hd as (-> & Hfree & -> & _).
  pose proof (own_device _ _ _ _ Hok Hl) as Ho. apply others_devices. rewrite own_insert; [|done|].
  - apply own_delete. intros y Hy. exact (own_device _ _ _ _ Hok Hy).
  - intros y Hy. apply lookup_delete_Some in Hy as [_ Hy]. exact (own_device _ _ _ _ Hok Hy).
Qed.
Lemma confined_DeleteDevice name : confined (DeleteDevice subject name).
Proof.
  apply confined_atomic; [unfold DeleteDevice; solve_atomic|].
  intros s [] s' Hok E. apply DeleteDevice_spec in E as (_ & d & Hd & -> & _); [|done].
  apply others_devices, own_delete. intros y Hy. exact (own_device _ _ _ _ Hok Hy).
Qed.
Lemma confined_SetKeys d pk psk : Device.Owner d = subject → confined (SetKeys d pk psk).
Proof.
  intros Ho. eapply confined_effect; [apply law_SetKeys|]. simpl.
  intros s r a' evs Hok (stored & Hst & _ & -> & _).
  pose proof (wf_dev_key _ (ok_wf _ Hok) _ _ Hst) as Hk. unfold Device.key in *. injection Hk as Hown Hname.
  rewrite Ho. apply others_device; [done|]. simpl. congruence.
Qed.
End devices.

Section manager.
  Context {S W : Type} `{StorageLaws S} `{WireGuard W} (subject : string).
  Notation confined := (confined (storage (S := S) (W := W)) subject).

Lemma confined_on_storage {A} (m : M S A) : Confine.confined (λ s, s) subject m → confined (on_storage m).
Proof.
  intros Hm d r d' Hok E. unfold on_storage in E. minv. subst. cbn. by eapply Hm.
Qed.
Lemma confined_on_wg {A} (m : M W A) : confined (on_wg m).
Proof. apply confined_elsewhere. intros d r d' E. unfold on_wg in E. minv. by subst. Qed.
Lemma confined_logged (m : M (DeviceManager S W) unit) : confined m → confined (logged m).
Proof. intros Hm. unfold logged. apply confined_bind; [by apply confined_try|]. intros. apply confined_ret. Qed.
Lemma confined_applyPeer now d : confined (applyPeer now d).
Proof.
  unfold applyPeer. apply confined_if; [apply confined_wrap|]; apply confined_on_wg.
Qed.
Lemma confined_RotateDeviceKey now name pk psk : confined (RotateDeviceKey now subject name pk psk).
Proof.
  unfold RotateDeviceKey. do 2 (apply confined_if; [apply confined_fail|]).
  apply (confined_bind_post _ _ (λ d, Device.Owner d = subject)).
  - apply confined_wrap, confined_on_storage. eapply confined_query, law_Get.
  - intros t d t' Hok E. unfold on_storage in E. minv.
    match goal with Hg : Get _ _ _ = _ |- _ => apply Get_spec in Hg as (_ & _ & Hk); [|done] end.
    unfold Device.key in Hk. congruence.
  - intros d Hd. apply confined_if; [apply confined_fail|].
    apply confined_bind; [apply confined_try, confined_on_storage; eapply confined_query, law_GetByPublicKey|].
    intros existing. apply confined_if; [apply confined_fail|].
    apply confined_bind; [by apply confined_wrap, confined_on_storage, confined_SetKeys|]. intros changed.
    apply confined_bind; [apply confined_logged, confined_on_wg|]. intros _.
    apply confined_bind; [apply confined_logged, confined_applyPeer|]. intros _. apply confined_ret.
Qed.
End manager.

(** ** Sessions and tokens *)
Section sessions.
  Context {S : Type} `{StorageLaws S} (subject : string).
  Notation confined := (confined (λ s : S, s) subject).

Lemma confined_Find id : confined (Find id).
Proof.
  unfold Find, lookup_session. apply confined_if; [apply confined_fail|].
  apply confined_bind; [apply confined_try; eapply confined_query, law_GetSessionByHash|].
  intros [x|e]; [apply confined_ret|apply confined_fail].
Qed.
Lemma session_row s id x : ok s → sessions (view s) !! id = Some x → Session.ID x = id.
Proof. intros Hok. apply (wf_session_key _ (ok_wf _ Hok)). Qed.
(** The sessions of a listing are the subject's, and stay so while some go. *)
Lemma confined_end_others keep l n : ∀ s r s', ok s →
  (∀ x y, x ∈ l → sessions (view s) !! Session.ID x = Some y → Session.Owner y = subject) →
  end_others keep l n s = (r, s') → ok s' ∧ others subject (view s') = others subject (view s).
Proof.
  revert n. induction l as [|x l IH]; intros n s r s' Hok Hl E; cbn [end_others] in E; [by injection E as <- <-|].
  destruct (String.eqb _ keep); [apply IH in E; [done|done|]; intros y z Hy; apply Hl; by right|].
  unfold m_bind, m_try in E. destruct (DeleteSession (Session.ID x) s) as [[u|e] s1] eqn:Ed.
  - apply (effect_ok _ _ _ _ _ (law_DeleteSession _)) in Ed as (Hok1 & evs & (_ & Hv) & _); [|done].
    assert (others subject (view s1) = others subject (view s)) as Ho.
    { rewrite Hv. apply others_sessions, own_delete. intros y Hy. apply (Hl x); [by left|done]. }
    apply IH in E as [Hok' Hv']; [by rewrite Hv'|done|]. intros y z Hy Hz. rewrite Hv in Hz. simpl in Hz.
    apply lookup_delete_Some in Hz as [_ Hz]. apply (Hl y); [by right|done].
  - injection E as <- <-. apply (effect_err _ _ _ _ _ (law_DeleteSession _)) in Ed as (Hok1 & Hv & _); [|done].
    by rewrite Hv.
Qed.
Lemma ListSessions_own s l s' : ok s → ListSessions subject s = (Ok l, s') →
  s' = s ∧ ∀ x y, x ∈ l → sessions (view s) !! Session.ID x = Some y → Session.Owner y = subject.
Proof.
  intros Hok E. apply (query_ok _ _ _ _ _ (law_ListSessions subject)) in E as [-> [Hl _]]; [|done]. split; [done|].
  intros x y Hx Hy. unfold lists_rows in Hl. rewrite Hl in Hx. apply list_elem_of_filter in Hx as [Ho Hx].
  apply list_elem_of_fmap in Hx as ([id z] & -> & Hz). apply elem_of_map_to_list in Hz. simpl in *.
  rewrite (session_row _ _ _ Hok Hz) in Hy. congruence.
Qed.
Lemma confined_EndOthers keep : confined (EndOthers subject keep).
Proof.
  intros s r s' Hok E. unfold EndOthers, m_bind, m_try in E.
  destruct (ListSessions subject s) as [[l|e] s1] eqn:El.
  - apply ListSessions_own in El as [-> Hl]; [|done]. by eapply confined_end_others.
  - apply (query_err _ _ _ _ _ (law_ListSessions subject)) in El as ->; [|done]. by injection E as <- <-.
Qed.
Lemma confined_Delete_session id : confined (Delete_session subject id).
Proof.
  intros s r s' Hok E. unfold Delete_session, m_bind in E.
  destruct (ListSessions subject s) as [[l|e] s1] eqn:El.
  - apply ListSessions_own in El as [-> Hl]; [|done].
    destruct (existsb _ l) eqn:Ex; [|by injection E as <- <-].
    apply existsb_exists in Ex as (x & Hx%list_elem_of_In & Eid%String.eqb_eq). subst id.
    apply (law_DeleteSession (Session.ID x)) in E as [Hok' Hr]; [|done]. split; [done|]. destruct r as [u|e].
    + destruct Hr as (evs & (_ & ->) & _). apply others_sessions, own_delete. intros y Hy. by eapply Hl.
    + by destruct Hr as [-> _].
  - apply (query_err _ _ _ _ _ (law_ListSessions subject)) in El as ->; [|done]. by injection E as <- <-.
Qed.

(** ** Tokens *)
Lemma confined_DeleteForOwner : confined (DeleteForOwner subject).
Proof.
  eapply confined_effect; [apply law_DeleteTokensForOwner|]. simpl. intros s n a' evs Hok (_ & _ & ->).
  by apply others_tokens, own_filter.
Qed.
(** The id that is drawn for a new token is nobody's. *)
Definition fresh_token_id (id : string) (s : S) : Prop := tokens (view s) !! id = None.
Lemma Create_token_run user name expires now idb sb s r s' : ok s → Identity.Subject user = subject →
  fresh_token_id (hex_EncodeToString idb) s → ApiTokens.Create user name expires now idb sb s = (r, s') →
  ok s' ∧ others subject (view s') = others subject (view s).
Proof.
  intros Hok Hu Hf E. unfold ApiTokens.Create in E.
  do 3 (match type of E with (if ?b then _ else _) _ = _ => destruct b; [by injection E as <- <-|] end).
  unfold m_bind in E. set (token := APIToken.mk _ _ _ _ _ _ _ _) in E.
  destruct (SaveToken token s) as [[u|e] s1] eqn:Es; injection E as <- <-.
  - apply (effect_ok _ _ _ _ _ (law_SaveToken _)) in Es as (Hok' & evs & (_ & _ & ->) & _); [|done]. split; [done|].
    apply others_tokens, own_insert; [done|]. intros y Hy. unfold fresh_token_id in Hf. simpl in Hy.
    unfold randomString in Hy. congruence.
  - apply (effect_err _ _ _ _ _ (law_SaveToken _)) in Es as (Hok' & -> & _); [|done]. done.
Qed.
Lemma confined_Delete_token user id : Identity.Subject user = subject → IsAdmin (Identity.Claims user) = false →
  confined (Delete_token user id).
Proof.
  intros Hu Ha s r s' Hok E. unfold Delete_token, m_bind in E. destruct (GetToken id s) as [[x|e] s1] eqn:Eg.
  - apply (found_ok _ _ _ _ _ _ _ (law_GetToken id)) in Eg as [-> Hx]; [|done].
    rewrite Ha, andb_true_r in E. destruct (String.eqb_spec (APIToken.Owner x) (Identity.Subject user)) as [Ho|];
      cbn [negb] in E; [|by injection E as <- <-].
    destruct (DeleteToken id s) as [[u|e] s1] eqn:Ed; injection E as <- <-.
    + apply (effect_ok _ _ _ _ _ (law_DeleteToken _)) in Ed as (Hok' & evs & (_ & _ & ->) & _); [|done]. split; [done|].
      apply others_tokens, own_delete. intros y Hy. congruence.
    + by apply (effect_err _ _ _ _ _ (law_DeleteToken _)) in Ed as (Hok' & -> & _).
  - pose proof Eg as Eg0. apply (found_missing _ _ _ _ _ _ _ (law_GetToken id)) in Eg0 as [-> _]; [|done]. by injection E as <- <-.
Qed.
End sessions.

(** ** Passkeys *)
Section passkeys.
  Context {S : Type} `{StorageLaws S} `{WebAuthn} (subject : string) (relyingParty : option Request → string * string).
  Notation confined := (confined (λ s : S, s) subject).

Lemma others_challenge data until x (a : Abs) : others subject (with_challenge subject data until x a) = others subject a.
Proof. apply others_users. Qed.
Lemma confined_BeginRegistration r now random : confined (BeginRegistration relyingParty r subject now random).
Proof.
  intros s res s' Hok E. apply BeginRegistration_run in E as [Hok' Hk]; [|done]. split; [done|].
  destruct Hk as [->|(x & data & _ & ->)]; [done|]. apply others_challenge.
Qed.
Lemma confined_FinishRegistration r name answer now :
  confined (FinishRegistration relyingParty r subject name answer now).
Proof.
  intros s res s' Hok E. apply FinishRegistration_run in E as [Hok' Ht]; [|done]. split; [done|].
  destruct Ht as [[_ ->]|(user & session & _ & _ & Ht)]; [done|]. destruct res as [p|e]; [|rewrite Ht; apply others_challenge].
  destruct Ht as (rp & parsed & c & data & _ & _ & _ & _ & -> & Hnew & ->).
  etrans; [|apply (others_challenge "" None (pu_stored user))]. apply others_passkeys, own_insert; [done|].
  simpl in *. intros y Hy. congruence.
Qed.
Lemma confined_Rename_passkey id name : confined (Rename_passkey subject id name).
Proof.
  intros s r s' Hok E. apply Rename_passkey_run in E as [Hok' [[_ ->]|(p & Hp & Ho & -> & _)]]; [done| |done].
  split; [done|]. apply others_passkeys, own_insert; [done|]. intros y Hy. congruence.
Qed.
Lemma confined_Delete_passkey id : confined (Delete_passkey subject id).
Proof.
  intros s r s' Hok E. apply Delete_passkey_run in E as [Hok' Hr]; [|done]. split; [done|].
  destruct r as [u|e]; [|by rewrite Hr]. destruct Hr as (p & Hp & Ho & ->).
  apply others_passkeys, own_delete. intros y Hy. congruence.
Qed.
Lemma confined_Has : confined (Has subject).
Proof.
  unfold Has. apply confined_bind; [apply confined_try; eapply confined_query, law_ListPasskeys|].
  intros r. apply confined_ret.
Qed.
End passkeys.

(** ** Accounts *)
Section accounts.
  Context {S : Type} `{StorageLaws S} `{PasswordHashing} `{UpperTable} (subject : string).
  Notation confined := (confined (store (S := S)) subject).

Lemma confined_on_store {A} (m : M S A) : Confine.confined (λ s, s) subject m → confined (on_store m).
Proof. intros Hm u r u' Hok E. unfold on_store in E. minv. subst. cbn. by eapply Hm. Qed.
Lemma confined_factor state : confined (on_store (SetUserTOTP subject state)).
Proof.
  apply confined_on_store. eapply confined_effect; [apply law_SetUserTOTP|]. simpl.
  intros s x a' evs Hok (_ & y & _ & ->). apply others_users.
Qed.
Lemma confined_known_user : confined (known_user subject).
Proof. intros u r u' Hok E. by apply known_user_run in E as [-> _]. Qed.
Lemma confined_need_user {A} (k : User → M (Accounts S) A) : (∀ x, confined (k x)) → confined (need_user subject k).
Proof.
  intros Hk. unfold need_user. apply confined_bind; [apply confined_known_user|].
  intros [x|]; [apply Hk|apply confined_fail].
Qed.
Lemma confined_Verify configured password now : confined (Verify configured subject password now).
Proof. intros u r u' Hok E. apply Verify_cases in E as [Hs _]; [|done]. by rewrite Hs. Qed.
Lemma confined_verify_password passwords password now : confined (verify_password passwords subject password now).
Proof. destruct passwords as [configured|]; [apply confined_Verify|apply confined_fail]. Qed.

Lemma confined_Change configured current next now : confined (Change configured subject current next now).
Proof.
  unfold Change. destruct (configured subject) as [entry|]; [|apply confined_fail].
  apply confined_bind; [apply confined_Verify|]. intros _.
  apply confined_bind; [apply confined_wrap, confined_lift|]. intros hash.
  apply confined_wrap, confined_on_store. eapply confined_effect; [apply law_SetUserPassword|]. simpl.
  intros s x a' evs Hok (_ & y & _ & ->). apply others_users.
Qed.
Lemma confined_Start issuer account buf : confined (Start issuer subject account buf).
Proof.
  apply confined_need_user. intros x. apply confined_if; [apply confined_fail|].
  apply confined_bind; [apply confined_wrap, confined_factor|]. intros _. apply confined_ret.
Qed.
Lemma confined_Confirm code now bufs : confined (Confirm subject code now bufs).
Proof.
  apply confined_need_user. intros x. do 3 (apply confined_if; [apply confined_fail|]). cbn [newRecoveryCodes].
  apply confined_bind; [apply confined_wrap, confined_factor|]. intros _. apply confined_ret.
Qed.
Lemma confined_Disable passwords password now : confined (Disable passwords subject password now).
Proof.
  unfold Disable, clear. apply confined_bind; [apply confined_verify_password|]. intros _.
  apply confined_wrap, confined_factor.
Qed.
Lemma confined_ReplaceRecoveryCodes passwords password now bufs :
  confined (ReplaceRecoveryCodes passwords subject password now bufs).
Proof.
  unfold ReplaceRecoveryCodes. apply confined_if; [apply confined_fail|]. apply confined_need_user. intros x.
  apply confined_if; [apply confined_fail|]. apply confined_bind; [apply confined_verify_password|]. intros _.
  apply confined_need_user. intros y. apply confined_if; [apply confined_fail|]. cbn [newRecoveryCodes].
  apply confined_bind; [apply confined_wrap, confined_factor|]. intros _. apply confined_ret.
Qed.
Lemma confined_RecoveryCodesLeft : confined (RecoveryCodesLeft subject).
Proof. unfold RecoveryCodesLeft. apply confined_bind; [apply confined_known_user|]. intros [x|]; apply confined_ret. Qed.
Lemma confined_Enabled b : confined (Enabled b subject).
Proof.
  unfold Enabled, CodesEnabled. apply confined_bind; [apply confined_if; [by apply confined_on_store, confined_Has|apply confined_ret]|].
  intros has. apply confined_if; [apply confined_ret|].
  apply confined_bind; [apply confined_known_user|]. intros [x|]; apply confined_ret.
Qed.
End accounts.
