(* ===== verification/ApiSpecs.v ===== *)
(** * The procedures of the API are confined to the caller: lemmas *)
From S2P Require Import Prelude GoText GoNet Network Encoding TextFacts Storage Atomic.
From S2P Require Import AuthSession WireGuard Devices Allocation DeviceSpecs Routes Manager AuditLog Totp.
From S2P Require Import Passkeys Passwords TwoFactor PasskeySpecs TwoFactorSpecs ApiTokens WebSessions.
From S2P Require Import Confine Api ApiUsers ApiServices.

Section server.
  Context {S W : Type} `{StorageLaws S}.
  Notation Srv := (Server S W).
  Implicit Types (srv : Srv).

(** The storage behind the server. *)
Definition data srv : S := storage (manager srv).

Section subject.
  Variable subject : string.
  Notation confined := (confined data subject).

Lemma srv_on_manager {A} (m : M (DeviceManager S W) A) : Confine.confined storage subject m → confined (on_manager m).
Proof. intros Hm t r t' Hok E. unfold on_manager in E. minv. subst. by eapply Hm. Qed.
Lemma srv_on_data {A} (m : M S A) : Confine.confined (λ s, s) subject m → confined (on_data m).
Proof. intros Hm. by apply srv_on_manager, confined_on_storage. Qed.
Lemma srv_on_accounts {A} (m : M (Accounts S) A) : Confine.confined store subject m → confined (on_accounts m).
Proof.
  intros Hm t r t' Hok E. unfold on_accounts in E. minv. subst.
  match goal with Hx : m _ = _ |- _ => apply Hm in Hx; [|done] end. done.
Qed.
Lemma srv_audit c action fields : confined (audit c action fields).
Proof. apply confined_elsewhere. intros t r t' E. unfold audit in E. by minv. Qed.
Lemma srv_answer {A} f (m : M Srv A) : confined m → confined (m_answer f m).
Proof.
  intros Hm t r t' Hok E. unfold m_answer in E. destruct (m t) as [[x|e] t1] eqn:Em; injection E as <- <-; by apply Hm in Em.
Qed.
Lemma srv_answer_with {A} (f : A → answer) (m : M Srv A) : confined m → confined (answer_with f m).
Proof. intros Hm. apply confined_bind; [done|]. intros. apply confined_ret. Qed.

(** After the caller is known. *)
Lemma srv_user {A} c user (k : Identity → M Srv A) : CurrentUser (ctx c) = Ok user → confined (k user) →
  confined (m_bind (current_user c) k).
Proof.
  intros Hu Hk. apply (confined_bind_post _ _ (λ u, u = user)).
  - apply srv_answer, confined_lift.
  - intros t a t' _ E. unfold current_user, m_answer, lift in E. rewrite Hu in E. by injection E.
  - by intros ? ->.
Qed.
Lemma srv_owner user owner {A} (k : string → M Srv A) : Identity.Subject user = subject → is_admin user = false →
  confined (k subject) → confined (m_bind (device_owner user owner) k).
Proof.
  intros Hu Ha Hk. apply (confined_bind_post _ _ (λ o, o = subject)).
  - destruct owner as [o|]; simpl; [rewrite Ha; apply confined_fail|apply confined_ret].
  - intros t a t' _ E. destruct owner as [o|]; simpl in E; [by rewrite Ha in E|]. injection E as <- <-. done.
  - by intros ? ->.
Qed.
(** What only an admin may do stops here. *)
Lemma srv_admin {A} user (m : M Srv A) : is_admin user = false →
  confined (if negb (is_admin user) then m_fail errNotAdmin else m).
Proof. intros ->. apply confined_fail. Qed.
Lemma srv_query {A} (m : M S A) P : query view ok m P → confined (on_data m).
Proof. intros Hq. by eapply srv_on_data, confined_query. Qed.
End subject.
End server.

Create HintDb confined.
#[export] Hint Resolve confined_ret confined_fail confined_lift confined_wrap confined_try srv_audit srv_answer
  srv_on_data srv_on_accounts srv_on_manager confined_Find confined_EndOthers confined_Delete_session
  confined_DeleteForOwner confined_BeginRegistration confined_FinishRegistration confined_Rename_passkey
  confined_Delete_passkey confined_Has confined_Change confined_Start confined_Confirm confined_Disable
  confined_ReplaceRecoveryCodes confined_RecoveryCodesLeft confined_Enabled confined_DeleteDevice
  confined_RenameDevice confined_RotateDeviceKey : confined.

(** [api_step] follows the code of a procedure of a caller who is no admin. *)
Ltac api_step :=
  match goal with
  | |- ∀ _, _ => intros
  | Hu : CurrentUser _ = Ok _ |- confined _ _ (m_bind (current_user _) _) => eapply srv_user; [exact Hu|]
  | Ha : is_admin ?u = false |- confined _ _ (if negb (is_admin ?u) then _ else _) => by apply srv_admin
  | |- confined _ _ (if _ then _ else _) => apply confined_if
  | |- confined _ _ (m_bind _ _) => apply confined_bind
  | |- confined _ _ (m_answer _ _) => apply srv_answer
  | |- confined _ _ (match ?x with _ => _ end) => destruct x
  | |- confined _ _ _ => solve [eauto with confined]
  end.

Section calls.
  Context {S W : Type} `{StorageLaws S} `{WireGuard W} `{PasswordHashing} `{UpperTable} `{WebAuthn}.
  Variables (conf : InfoConfig) (cfg : Config) (host_addrs : result (list (option string))) (deps : Deps).
  Variables (c : CallContext) (user : Identity).
  Hypothesis Hcfg : config_ok cfg.
  Hypothesis Huser : CurrentUser (ctx c) = Ok user.
  Hypothesis Hadmin : is_admin user = false.
  Notation subject := (Identity.Subject user).
  Notation confined := (confined (data (S := S) (W := W)) subject).

Lemma srv_signOutElsewhere : confined (signOutElsewhere deps c subject).
Proof. unfold signOutElsewhere, keep_session. repeat api_step. Qed.
Lemma srv_currentID : confined (currentID c).
Proof. unfold currentID. repeat api_step. Qed.
Lemma srv_twoFactorFor {A} (k : Identity * TwoFactorDeps → M (Server S W) A) :
  (∀ tf, confined (k (user, tf))) → confined (m_bind (twoFactorFor deps c) k).
Proof.
  intros Hk. apply (confined_bind_post _ _ (λ ut, ut.1 = user)).
  - unfold twoFactorFor. repeat api_step.
  - intros t [u tf] t' _ E. unfold twoFactorFor in E.
    apply m_bind_ok in E as (a & t1 & E1 & E). unfold current_user, m_answer, lift in E1. rewrite Huser in E1.
    injection E1 as <- <-. minv. destruct (dp_TwoFactor deps); [|by minv]. by minv.
  - intros [u tf] Hu. simpl in Hu. subst u. apply Hk.
Qed.
Lemma srv_passkeysFor {A} (k : Identity * (option Request → string * string) → M (Server S W) A) :
  (∀ rp, confined (k (user, rp))) → confined (m_bind (passkeysFor deps c) k).
Proof.
  intros Hk. apply (confined_bind_post _ _ (λ ut, ut.1 = user)).
  - unfold passkeysFor. repeat api_step.
  - intros t [u tf] t' _ E. unfold passkeysFor in E.
    apply m_bind_ok in E as (a & t1 & E1 & E). unfold current_user, m_answer, lift in E1. rewrite Huser in E1.
    injection E1 as <- <-. destruct (dp_Passkeys deps); [|by minv]. by minv.
  - intros [u tf] Hu. simpl in Hu. subst u. apply Hk.
Qed.
End calls.

(** ** Every procedure *)
Section every.
  Context {S W : Type} `{StorageLaws S} `{WireGuard W} `{PasswordHashing} `{UpperTable} `{WebAuthn}.
  Variables (conf : InfoConfig) (cfg : Config) (host_addrs : result (list (option string))) (deps : Deps).
  Variables (c : CallContext) (user : Identity).
  Hypothesis Hcfg : config_ok cfg.
  Hypothesis Huser : CurrentUser (ctx c) = Ok user.
  Hypothesis Hadmin : is_admin user = false.
  Notation subject := (Identity.Subject user).
  Notation confined := (confined (data (S := S) (W := W)) subject).

(** The id a new token draws is not taken. *)
Definition draws_fresh (p : procedure) (srv : Server S W) : Prop :=
  match p with
  | P_CreateToken _ _ id_bytes _ => fresh_token_id (hex_EncodeToString id_bytes) (data srv)
  | _ => True
  end.

Lemma srv_CreateToken enabled name expires idb sb (srv : Server S W) r srv' : ok (data srv) →
  fresh_token_id (hex_EncodeToString idb) (data srv) →
  CreateToken_call enabled c name expires idb sb srv = (r, srv') →
  ok (data srv') ∧ others subject (view (data srv')) = others subject (view (data srv)).
Proof.
  intros Hok Hf E. unfold CreateToken_call, token_user in E.
  destruct (negb enabled); [by injection E as <- <-|].
  unfold m_bind at 1, current_user, m_answer at 1, lift in E. rewrite Huser in E.
  destruct (negb _); [by injection E as <- <-|].
  unfold m_bind at 1, m_answer, on_data, on_manager, on_storage, zoom in E.
  destruct (ApiTokens.Create user name expires (now c) idb sb (storage (manager srv))) as [x s1] eqn:Ec.
  eapply Create_token_run in Ec as [Hok1 Hv]; [|done|done|exact Hf].
  destruct x as [[secret token]|e].
  - unfold m_bind, audit, m_modify in E. injection E as <- <-. by split.
  - injection E as <- <-. by split.
Qed.

Lemma srv_token_user {A} enabled (k : Identity → M (Server S W) A) : confined (k user) →
  confined (m_bind (token_user enabled c) k).
Proof.
  intros Hk. apply (confined_bind_post _ _ (λ u, u = user)).
  - unfold token_user. apply confined_if; [apply confined_fail|]. apply srv_answer, confined_lift.
  - intros t a t' _ E. unfold token_user, current_user, m_answer, lift in E. rewrite Huser in E.
    destruct (negb enabled); by injection E.
  - by intros ? ->.
Qed.
Lemma serve_confined p (srv : Server S W) r srv' : ok (data srv) → draws_fresh p srv →
  serve conf cfg host_addrs deps c p srv = (r, srv') →
  ok (data srv') ∧ others subject (view (data srv')) = others subject (view (data srv)).
Proof.
  intros Hok Hf E. destruct p as [| | | | | | | | | | | | | | | | | | | | | |name expires idb sb| | | | | | |].
  23:{ unfold serve, answer_with, m_bind in E.
       destruct (CreateToken_call _ _ _ _ _ _ srv) as [x srv1] eqn:Ec. apply srv_CreateToken in Ec; [|done|done].
       destruct x as [[t secret]|e]; injection E as _ <-; exact Ec. }
  all: clear Hf; revert srv r srv' Hok E; apply srv_answer_with.
  - unfold AddDevice_call. api_step. apply confined_bind.
    + by apply srv_answer, srv_on_data, confined_AddDevice.
    + repeat api_step.
  - unfold ListDevices_call. api_step. apply confined_bind; [|repeat api_step].
    eapply srv_answer, srv_query, law_List.
  - unfold DeleteDevice_call. api_step. apply (srv_owner _ user); [done..|]. repeat api_step.
  - unfold RenameDevice_call. api_step. apply (srv_owner _ user); [done..|]. repeat api_step.
  - unfold RotateDeviceKey_call. repeat api_step.
  - unfold SetDeviceAccess_call. repeat api_step.
  - unfold SetDeviceRoutes_call. repeat api_step.
  - unfold ListAllDevices_call. repeat api_step.
  - unfold ListUsers_call. repeat api_step.
  - unfold DeleteUser_call. repeat api_step.
  - unfold RevokeAccess_call. repeat api_step.
  - unfold ChangePassword_call. repeat first [apply srv_signOutElsewhere|api_step].
  - unfold StartTwoFactor_call. apply (srv_twoFactorFor deps c user); [done..|]. repeat api_step.
  - unfold ConfirmTwoFactor_call. apply (srv_twoFactorFor deps c user); [done..|].
    repeat first [apply srv_signOutElsewhere|api_step].
  - unfold DisableTwoFactor_call. apply (srv_twoFactorFor deps c user); [done..|]. repeat api_step.
  - unfold ResetTwoFactor_call. repeat api_step.
  - unfold NewRecoveryCodes_call. apply (srv_twoFactorFor deps c user); [done..|]. repeat api_step.
  - unfold ListPasskeys_call. apply (srv_passkeysFor deps c user); [done..|]. intros rp.
    apply confined_bind; [|repeat api_step]. eapply srv_answer, srv_query, law_ListPasskeys.
  - unfold BeginPasskey_call. apply (srv_passkeysFor deps c user); [done..|]. repeat api_step.
  - unfold FinishPasskey_call. apply (srv_passkeysFor deps c user); [done..|].
    repeat first [apply srv_signOutElsewhere|api_step].
  - unfold RenamePasskey_call. apply (srv_passkeysFor deps c user); [done..|]. repeat api_step.
  - unfold DeletePasskey_call. apply (srv_passkeysFor deps c user); [done..|]. repeat api_step.
  - unfold ListTokens_call. apply srv_token_user. apply confined_bind; [|repeat api_step].
    eapply srv_answer, srv_query, law_ListTokens.
  - unfold DeleteToken_call. apply srv_token_user. apply confined_bind; [|repeat api_step].
    by apply srv_answer, srv_on_data, confined_Delete_token.
  - unfold ListAllTokens_call. apply srv_token_user. repeat api_step.
  - unfold ListSessions_call. api_step. apply confined_bind; [eapply srv_answer, srv_query, law_ListSessions|].
    repeat first [apply srv_currentID|api_step].
  - unfold DeleteSession_call. repeat api_step.
  - unfold DeleteOtherSessions_call. repeat first [apply srv_currentID|api_step].
  - unfold Info_call, recoveryCodesLeft, passkeyCount. api_step. apply confined_bind; [repeat api_step|]. intros key.
    apply confined_bind; [repeat api_step|]. intros [ip4 ip6]. apply confined_bind.
    { apply srv_on_manager, confined_elsewhere. intros t r t' E. by injection E as _ <-. }
    intros routed. apply confined_bind; [destruct (dp_TwoFactor deps); repeat api_step|]. intros tf.
    apply confined_bind; [destruct (dp_TwoFactor deps); repeat api_step|]. intros codes.
    apply confined_bind; [|repeat api_step]. destruct (dp_Passkeys deps); [|repeat api_step].
    apply confined_bind; [|repeat api_step]. eapply confined_try, srv_query, law_ListPasskeys.
Qed.
End every.

(** What cannot fail. *)
Section total.
  Context {S W : Type} `{Storage S}.
Lemma never_EndOthers owner keep : never_fails (St := S) (EndOthers owner keep).
Proof.
  unfold EndOthers. apply never_bind; [apply never_try|]. intros [l|e]; [|apply never_ret]. generalize 0.
  induction l as [|x l IH]; intros n; [apply never_ret|]. cbn [end_others]. apply never_if; [done|].
  apply never_bind; [apply never_try|]. intros [u|e]; [apply IH|apply never_ret].
Qed.
Lemma never_Has subject : never_fails (St := S) (Has subject).
Proof. apply never_bind; [apply never_try|]. intros. apply never_ret. Qed.
Lemma never_known_user subject : never_fails (St := Accounts S) (known_user subject).
Proof. apply never_bind; [apply never_try|]. intros. repeat case_match; apply never_ret. Qed.
Lemma never_RecoveryCodesLeft subject : never_fails (St := Accounts S) (RecoveryCodesLeft subject).
Proof. apply never_bind; [apply never_known_user|]. intros. apply never_ret. Qed.
Lemma never_Enabled passkeys subject : never_fails (St := Accounts S) (Enabled passkeys subject).
Proof.
  apply never_bind; [apply never_if; [apply never_zoom, never_Has|apply never_ret]|]. intros has. apply never_if; [apply never_ret|].
  apply never_bind; [apply never_known_user|]. intros. apply never_ret.
Qed.
Lemma never_on_manager {A} (m : M (DeviceManager S W) A) : never_fails m → never_fails (on_manager m).
Proof. apply never_zoom. Qed.
Lemma never_on_data {A} (m : M S A) : never_fails m → never_fails (on_data (W := W) m).
Proof. intros Hm. by apply never_zoom, never_zoom. Qed.
Lemma never_on_accounts {A} (m : M (Accounts S) A) : never_fails m → never_fails (on_accounts (W := W) m).
Proof. apply never_zoom. Qed.
End total.
