(* ===== verification/Metadata.v ===== *)
(** * internal/devices/metadata.go: what the peers transferred

    The traffic tracker, which turns the byte counters of the peers into the
    traffic since the previous sync, and the sync itself. Two peers of one
    snapshot never share a key; nothing here relies on it unless it says so. *)
From S2P Require Import Prelude GoText Netip Network Storage WireGuard Devices Manager.

(** [counterDelta], on int64. *)
Definition counterDelta (previous current : Z) : Z :=
  if current <? previous then current else wrap64 (current - previous).

Record byteCounters := mkCounters { c_receive : Z; c_transmit : Z }.
(** Indexing a map without the key gives the zero counters. *)
Definition zero_counters : byteCounters := mkCounters 0 0.

(** [trafficTracker]: the counters of the previous sync. *)
Record trafficTracker := mkTracker { last_counters : gmap string byteCounters }.
Definition newTrafficTracker : trafficTracker := mkTracker ∅.

Definition observe (t : trafficTracker) (key : string) (receive transmit : Z) : Z * Z * trafficTracker :=
  let previous := default zero_counters (last_counters t !! key) in
  (counterDelta (c_receive previous) receive, counterDelta (c_transmit previous) transmit,
   mkTracker (<[key := mkCounters receive transmit]> (last_counters t))).

Definition present_keys (peers : list Peer) : gset string := list_to_set (p_PublicKey <$> peers).
Definition forgetAllBut (t : trafficTracker) (peers : list Peer) : trafficTracker :=
  mkTracker (filter (λ kc, kc.1 ∈ present_keys peers) (last_counters t)).

(** One turn of the loop of [collectMetadata]. *)
Definition connection (now : Time) (peer : Peer) : option PeerConnection :=
  match p_Endpoint peer with
  | Some endpoint => if IsConnected now (p_LastHandshakeTime peer)
                     then Some (mkPeerConnection endpoint (p_LastHandshakeTime peer)) else None
  | None => None
  end.
Definition collect_one (now : Time) (st : list MetadataUpdate * trafficTracker) (peer : Peer) :
    list MetadataUpdate * trafficTracker :=
  let '(updates, tracker) := st in
  let '(rx, tx, tracker) := observe tracker (p_PublicKey peer) (p_ReceiveBytes peer) (p_TransmitBytes peer) in
  let update := mkMetadataUpdate (p_PublicKey peer) rx tx (connection now peer) in
  match connection now peer with
  | None => if (rx =? 0) && (tx =? 0) then (updates, tracker) else (updates ++ [update], tracker)
  | Some _ => (updates ++ [update], tracker)
  end.
Definition collectMetadata (now : Time) (peers : list Peer) (tracker : trafficTracker) :
    list MetadataUpdate * trafficTracker :=
  fold_left (collect_one now) peers ([], forgetAllBut tracker peers).

(** The tracker belongs to the loop, so it is passed along. *)
Section sync.
  Context {S W : Type} `{Storage S} `{WireGuard W}.
Definition syncMetrics (now : Time) (tracker : trafficTracker) : M (DeviceManager S W) trafficTracker :=
  let! peers := m_try (on_wg ListPeers) in
  match peers with
  | Err _ => m_ret tracker
  | Ok peers =>
      let '(updates, tracker) := collectMetadata now peers tracker in
      do! m_try (on_storage (RecordMetadata updates));
      m_ret tracker
  end.
End sync.

(** ** What the tracker guarantees *)
(** The counters of one peer over several syncs: what is recorded of them. *)
Fixpoint recorded (previous : Z) (counters : list Z) : Z :=
  match counters with
  | [] => 0
  | c :: counters' => counterDelta previous c + recorded c counters'
  end.
(** What the peer transferred: the counter of the last sync, and what every
    earlier life of the counter had come to when it was reset. *)
Fixpoint transferred (previous : Z) (counters : list Z) : Z :=
  match counters with
  | [] => previous
  | c :: counters' => (if c <? previous then previous else 0) + transferred c counters'
  end.

Lemma counterDelta_range previous current : 0 <= previous < 2 ^ 63 → 0 <= current < 2 ^ 63 →
  0 <= counterDelta previous current <= current.
Proof.
  intros Hp Hc. unfold counterDelta. destruct (Z.ltb_spec current previous); [lia|].
  rewrite wrap64_id by (unfold int64; lia). lia.
Qed.

Lemma recorded_transferred counters previous : 0 <= previous < 2 ^ 63 →
  Forall (λ c, 0 <= c < 2 ^ 63) counters →
  recorded previous counters + previous = transferred previous counters.
Proof.
  intros Hp Hc. revert previous Hp. induction Hc as [|c counters Hc _ IH]; intros previous Hp; simpl; [lia|].
  rewrite <- IH by done. unfold counterDelta. destruct (Z.ltb_spec c previous); [lia|].
  rewrite wrap64_id by (unfold int64; lia). lia.
Qed.

(** What a sync reports of a peer, given what the tracker remembers. *)
Definition report (now : Time) (t : trafficTracker) (peer : Peer) : option MetadataUpdate :=
  let previous := default zero_counters (last_counters t !! p_PublicKey peer) in
  let rx := counterDelta (c_receive previous) (p_ReceiveBytes peer) in
  let tx := counterDelta (c_transmit previous) (p_TransmitBytes peer) in
  if bool_decide (rx = 0 ∧ tx = 0 ∧ connection now peer = None) then None
  else Some (mkMetadataUpdate (p_PublicKey peer) rx tx (connection now peer)).

Lemma collect_one_report now updates t peer : collect_one now (updates, t) peer =
  (updates ++ option_list (report now t peer),
   mkTracker (<[p_PublicKey peer := mkCounters (p_ReceiveBytes peer) (p_TransmitBytes peer)]> (last_counters t))).
Proof.
  unfold collect_one, observe, report. cbv zeta. destruct (connection now peer) as [c|] eqn:Ec.
  - rewrite bool_decide_eq_false_2 by naive_solver. done.
  - destruct (Z.eqb_spec (counterDelta (c_receive (default zero_counters (last_counters t !! p_PublicKey peer)))
      (p_ReceiveBytes peer)) 0) as [->|], (Z.eqb_spec (counterDelta (c_transmit (default zero_counters
      (last_counters t !! p_PublicKey peer))) (p_TransmitBytes peer)) 0) as [->|]; cbn [andb];
      [rewrite bool_decide_eq_true_2 by done; by rewrite app_nil_r|
       rewrite bool_decide_eq_false_2 by naive_solver; done..].
Qed.

(** What the tracker remembers after a snapshot. *)
Definition snapshot (peers : list Peer) : trafficTracker :=
  mkTracker (list_to_map ((λ p, (p_PublicKey p, mkCounters (p_ReceiveBytes p) (p_TransmitBytes p))) <$> peers)).

Lemma report_ext now t t' p : last_counters t !! p_PublicKey p = last_counters t' !! p_PublicKey p → report now t p = report now t' p.
Proof. intros E. unfold report. by rewrite E. Qed.
Lemma reports_ext now t t' (peers : list Peer) : (∀ p, p ∈ peers → last_counters t !! p_PublicKey p = last_counters t' !! p_PublicKey p) →
  omap (report now t) peers = omap (report now t') peers.
Proof.
  induction peers as [|p peers IH]; intros E; [done|]. cbn. rewrite (report_ext now t t') by (apply E; left).
  rewrite IH; [done|]. intros q Hq. apply E. by right.
Qed.

Lemma collect_fold now peers : NoDup (p_PublicKey <$> peers) → ∀ updates t,
  fold_left (collect_one now) peers (updates, t) =
  (updates ++ omap (report now t) peers, mkTracker (last_counters (snapshot peers) ∪ last_counters t)).
Proof.
  induction peers as [|p peers IH]; intros Hn updates t.
  { cbn. rewrite app_nil_r, (left_id_L ∅ (∪)). by destruct t. }
  cbn [fmap list_fmap] in Hn. apply NoDup_cons in Hn as [Hp Hn].
  cbn [fold_left]. rewrite collect_one_report, IH by done. f_equal.
  - rewrite <- (assoc_L (++)). f_equal.
    rewrite (reports_ext now _ t).
    + cbn. by destruct (report now t p).
    + intros q Hq. cbn [last_counters]. rewrite lookup_insert_ne; [done|]. intros E. apply Hp. rewrite E.
      apply list_elem_of_fmap. eauto.
  - unfold snapshot. cbn. f_equal. rewrite <- insert_union_l. rewrite insert_union_r; [done|].
    apply not_elem_of_list_to_map_1. rewrite <- list_fmap_compose. exact Hp.
Qed.

Lemma snapshot_lookup peers k : NoDup (p_PublicKey <$> peers) →
  last_counters (snapshot peers) !! k = None → k ∉ present_keys peers.
Proof.
  intros Hn Hk Hin. unfold present_keys in Hin. apply elem_of_list_to_set in Hin.
  apply not_elem_of_list_to_map_2 in Hk. apply Hk. rewrite <- list_fmap_compose. exact Hin.
Qed.

Lemma collectMetadata_report now peers tracker : NoDup (p_PublicKey <$> peers) →
  collectMetadata now peers tracker = (omap (report now tracker) peers, snapshot peers).
Proof.
  intros Hn. unfold collectMetadata. rewrite collect_fold by done. f_equal; cbn [app].
  - apply reports_ext. intros q Hq. unfold forgetAllBut. cbn [last_counters].
    assert (p_PublicKey q ∈ present_keys peers) as Hin
      by (apply elem_of_list_to_set, list_elem_of_fmap; eauto).
    destruct (last_counters tracker !! p_PublicKey q) eqn:E.
    + by rewrite (map_lookup_filter_Some_2 _ _ _ _ E Hin).
    + by rewrite map_lookup_filter_None_2 by (by left).
  - change (snapshot peers) with (mkTracker (last_counters (snapshot peers))) at 2. f_equal.
    apply map_eq. intros k. rewrite lookup_union.
    destruct (last_counters (snapshot peers) !! k) eqn:E; [by destruct (last_counters (forgetAllBut _ _) !! k)|].
    unfold forgetAllBut. cbn [last_counters]. rewrite map_lookup_filter_None_2; [done|]. right. intros c _. cbn. by apply snapshot_lookup.
Qed.

(** Only keys of listed peers are reported. *)
Lemma collect_keys now peers updates t : Forall (λ p, p_PublicKey p ≠ "") peers →
  Forall (λ u, mu_PublicKey u ≠ "") updates →
  Forall (λ u, mu_PublicKey u ≠ "") (fold_left (collect_one now) peers (updates, t)).1.
Proof.
  intros Hp. revert updates t. induction Hp as [|p peers Hp _ IH]; intros updates t Hu; [done|].
  cbn [fold_left]. rewrite collect_one_report. apply IH. apply Forall_app. split; [done|].
  unfold report. case_bool_decide; repeat constructor. done.
Qed.
