(* ===== verification/Reachable.v ===== *)
(** * What every run of the device manager keeps

    What holds of the stored devices however the operations of the manager and
    its background loops are interleaved: every device is well formed, no two
    share an address, no two have overlapping networks behind them, and nobody
    has more devices than allowed. Uniqueness of names and public keys is the
    storage's ([wf_abs]). The operations of the manager, the callbacks of the
    storage's events and the turns of the background loops are one step relation,
    and the invariant follows by induction on its runs. *)
From S2P Require Import Prelude GoText Netip NetipText NetipRoundTrip Network Storage Atomic AuthSession.
From S2P Require Import WireGuard Devices Allocation DeviceSpecs Routes RouteSpecs Manager ManagerSpecs Metadata.

Section invariant.
  Context {S : Type} `{StorageLaws S} (cfg : Config).
  Implicit Types (m : gmap (string * string) Device) (d : Device).

(** In a subnet of the VPN and not one of its reserved addresses. *)
Definition placed (a : Addr) : Prop :=
  ∃ p, (ParsePrefix (cidr cfg) = Some p ∧ Is4 a = true ∨
        ParsePrefix (cidrv6 cfg) = Some p ∧ Is4 a = false) ∧
    Contains p a = true ∧ ¬ reserved p a.
Definition off_vpn (p : Prefix) : Prop :=
  ∀ c v, c = cidr cfg ∨ c = cidrv6 cfg → ParsePrefix c = Some v → Overlaps (Masked v) p = false.

Definition addressed (t : string) : Prop :=
  ∃ l, l ≠ [] ∧ ParseAddresses t = (l, []) ∧ Forall placed l.

Record good_device (d : Device) : Prop := {
  gd_name : validateDeviceName (Device.Name d) = Ok tt;
  gd_key : key_ok (Device.PublicKey d);
  gd_psk : Device.PresharedKey d = "" ∨ key_ok (Device.PresharedKey d);
  gd_addr : addressed (Device.Address d);
  gd_routes : Forall (λ p, stored_route p ∧ off_vpn p) (routes_of d) }.

Definition apart (d1 d2 : Device) : Prop :=
  (∀ a, a ∈ addresses_of d1 → a ∉ addresses_of d2) ∧
  (∀ p q, p ∈ routes_of d1 → q ∈ routes_of d2 → Overlaps p q = false).

Record dev_inv (m : gmap (string * string) Device) : Prop := {
  inv_each : ∀ k d, m !! k = Some d → good_device d;
  inv_apart : ∀ k1 k2 d1 d2, m !! k1 = Some d1 → m !! k2 = Some d2 → k1 ≠ k2 → apart d1 d2;
  inv_limit : 0 < maxDevicesPerUser cfg → ∀ owner,
    Z.of_nat (List.length (owned m owner)) <= maxDevicesPerUser cfg }.

(** ** Counting the devices of an owner *)
Lemma owned_keys m owner : dev_keyed m →
  List.length (owned m owner) = List.length (filter (λ k, k.1 = owner) (map_to_list m).*1).
Proof.
  intros Hk. unfold owned.
  assert (∀ k d, (k, d) ∈ map_to_list m → Device.key d = k) as Hl
    by (intros k d Hin; apply Hk; by apply elem_of_map_to_list).
  revert Hl. generalize (map_to_list m). intros l Hl.
  induction l as [|[k d] l IH]; [done|].
  assert (Device.key d = k) as <- by (apply Hl; left).
  rewrite !fmap_cons, !filter_cons. unfold Device.key at 1. cbn [fst snd].
  destruct (decide _); cbn [List.length]; rewrite IH; [done| |done|]; intros; apply Hl; by right.
Qed.

Lemma owned_moved m m' (f : string * string → string * string) owner :
  dev_keyed m → dev_keyed m' →
  (∀ k, is_Some (m' !! k) → is_Some (m !! f k) ∧ (f k).1 = k.1) →
  (∀ k1 k2, is_Some (m' !! k1) → is_Some (m' !! k2) → f k1 = f k2 → k1 = k2) →
  (List.length (owned m' owner) <= List.length (owned m owner))%nat.
Proof.
  intros Hk Hk' Hf Hinj. rewrite !owned_keys by done.
  assert (∀ k, k ∈ (map_to_list m').*1 → is_Some (m' !! k)) as Hin.
  { intros k ([k' d] & -> & Hl)%list_elem_of_fmap. apply elem_of_map_to_list in Hl. by exists d. }
  rewrite <- (length_fmap f). apply submseteq_length, NoDup_submseteq.
  - apply NoDup_fmap_2_strong; [|apply NoDup_filter, NoDup_fst_map_to_list].
    intros k1 k2 [_ H1]%list_elem_of_filter [_ H2]%list_elem_of_filter. apply Hinj; by apply Hin.
  - intros k (k' & -> & [Ho Hl]%list_elem_of_filter)%list_elem_of_fmap.
    apply Hin, Hf in Hl as [[d Hd] E]. apply list_elem_of_filter. split; [congruence|].
    apply list_elem_of_fmap. exists (f k', d). split; [done|]. by apply elem_of_map_to_list.
Qed.

Lemma owned_insert m d owner : dev_keyed m → m !! Device.key d = None →
  List.length (owned (<[Device.key d := d]> m) owner) =
  (List.length (owned m owner) + (if decide (Device.Owner d = owner) then 1 else 0))%nat.
Proof.
  intros Hk Hn. unfold owned. rewrite map_to_list_insert by done. rewrite fmap_cons, filter_cons. cbn [snd].
  destruct (decide _); cbn [List.length]; lia.
Qed.

(** ** Devices that are moved, changed or removed *)
Lemma apart_same d1 d2 e1 e2 : Device.Address d1 = Device.Address e1 → Device.Routes d1 = Device.Routes e1 →
  Device.Address d2 = Device.Address e2 → Device.Routes d2 = Device.Routes e2 → apart e1 e2 → apart d1 d2.
Proof.
  intros A1 R1 A2 R2. unfold apart, addresses_of, routes_of, Device.RouteList. by rewrite A1, R1, A2, R2.
Qed.

Lemma dev_inv_moved m m' (f : string * string → string * string) : dev_keyed m → dev_keyed m' →
  (∀ k d, m' !! k = Some d → ∃ e, m !! f k = Some e ∧ (f k).1 = k.1 ∧
    Device.Address d = Device.Address e ∧ Device.Routes d = Device.Routes e ∧
    (good_device e → good_device d)) →
  (∀ k1 k2, is_Some (m' !! k1) → is_Some (m' !! k2) → f k1 = f k2 → k1 = k2) →
  dev_inv m → dev_inv m'.
Proof.
  intros Hk Hk' Hf Hinj [He Ha Hl]. constructor.
  - intros k d Hd. destruct (Hf k d Hd) as (e & Hm & _ & _ & _ & Hg). apply Hg. by eapply He.
  - intros k1 k2 d1 d2 H1 H2 Hne. destruct (Hf _ _ H1) as (e1 & E1 & _ & ? & ? & _).
    destruct (Hf _ _ H2) as (e2 & E2 & _ & ? & ? & _). apply (apart_same d1 d2 e1 e2); [done..|].
    eapply Ha; [done..|]. intros E. apply Hne. eapply Hinj; eauto.
  - intros Hmax owner. etrans; [|by apply (Hl Hmax owner)].
    pose proof (owned_moved m m' f owner Hk Hk') as Hle. assert (∀ a b : nat, (a <= b)%nat → Z.of_nat a <= Z.of_nat b) as Hz by lia.
    apply Hz, Hle; [|done]. intros k [d Hd]. destruct (Hf _ _ Hd) as (e & ? & ? & _). split; [by exists e|done].
Qed.

(** Every device of [m'] was there under its key, changed in a way that leaves
    its name, address and routes alone. *)
Lemma dev_inv_changed m m' : dev_keyed m → dev_keyed m' →
  (∀ k d, m' !! k = Some d → ∃ e, m !! k = Some e ∧ Device.Address d = Device.Address e ∧
     Device.Routes d = Device.Routes e ∧ (good_device e → good_device d)) →
  dev_inv m → dev_inv m'.
Proof.
  intros Hk Hk' Hf. apply (dev_inv_moved m m' id); [done..| |done].
  intros k d Hd. destruct (Hf k d Hd) as (e & ? & ? & ? & ?). exists e. done.
Qed.

Lemma dev_inv_subseteq m m' : dev_keyed m → m' ⊆ m → dev_inv m → dev_inv m'.
Proof.
  intros Hk Hs. apply dev_inv_changed; [done|by eapply dev_keyed_subseteq|].
  intros k d Hd. exists d. split; [by eapply lookup_weaken|done].
Qed.

(** The changes that do not touch what the invariant is about. *)
Definition same_place (d e : Device) : Prop :=
  Device.Owner d = Device.Owner e ∧ Device.Name d = Device.Name e ∧
  Device.PublicKey d = Device.PublicKey e ∧ Device.PresharedKey d = Device.PresharedKey e ∧
  Device.Address d = Device.Address e ∧ Device.Routes d = Device.Routes e.
Lemma same_place_good d e : same_place d e → good_device e → good_device d.
Proof.
  intros (_ & En & Ek & Ep & Ea & Er) [Hn Hk Hp Ha Hr]. constructor; rewrite ?En, ?Ek, ?Ep, ?Ea; try done.
  unfold routes_of, Device.RouteList. by rewrite Er.
Qed.
Lemma dev_inv_fmap m f : dev_keyed m → (∀ d, same_place (f d) d) → dev_inv m → dev_inv (f <$> m).
Proof.
  intros Hk Hf. apply dev_inv_changed; [done|apply dev_keyed_fmap; [|done]|].
  - intros d. destruct (Hf d) as (Eo & En & _). unfold Device.key. by rewrite Eo, En.
  - intros k d Hd. rewrite lookup_fmap in Hd. apply fmap_Some in Hd as (e & He & ->).
    exists e. split; [done|]. destruct (Hf e) as (_ & _ & _ & _ & ? & ?). split; [done|]. split; [done|].
    by apply same_place_good.
Qed.
Lemma dev_inv_replace m e d : dev_keyed m → m !! Device.key d = Some e →
  Device.Address d = Device.Address e → Device.Routes d = Device.Routes e →
  (good_device e → good_device d) → dev_inv m → dev_inv (<[Device.key d := d]> m).
Proof.
  intros Hk He Ea Er Hg. apply dev_inv_changed; [done|by apply dev_keyed_insert|].
  intros k d' [[<- <-]|[_ Hd]]%lookup_insert_Some; [by exists e|]. exists d'. done.
Qed.

(** ** Adding a device *)
Lemma dev_inv_add m d : dev_keyed m → m !! Device.key d = None → good_device d →
  routes_of d = [] → (∀ a, a ∈ addresses_of d → ¬ in_use m a) → under_limit cfg m (Device.Owner d) →
  dev_inv m → dev_inv (<[Device.key d := d]> m).
Proof.
  intros Hk Hn Hg Hr Ha Hu [He Hap Hl]. constructor.
  - intros k d' [[<- <-]|[_ Hd]]%lookup_insert_Some; [done|]. by eapply He.
  - intros k1 k2 d1 d2 [[<- <-]|[N1 H1]]%lookup_insert_Some [[<- <-]|[N2 H2]]%lookup_insert_Some Hne.
    + done.
    + split.
      * intros a Hin Hin2. apply (Ha a Hin). exists k2, d2. done.
      * intros p q Hp. rewrite Hr in Hp. by apply not_elem_of_nil in Hp.
    + split.
      * intros a Hin Hin2. apply (Ha a Hin2). exists k1, d1. done.
      * intros p q _ Hq. rewrite Hr in Hq. by apply not_elem_of_nil in Hq.
    + by eapply Hap.
  - intros Hmax owner. rewrite owned_insert by done. specialize (Hl Hmax owner). specialize (Hu Hmax).
    destruct (decide (Device.Owner d = owner)) as [<-|]; lia.
Qed.

(** ** Routing networks to a device *)
Lemma routes_wf d : good_device d → Forall wf_prefix (routes_of d).
Proof. intros [_ _ _ _ Hr]. eapply Forall_impl; [exact Hr|]. by intros p [[? _] _]. Qed.

Lemma dev_inv_routes m e d : dev_keyed m → m !! Device.key d = Some e → good_device d →
  Device.Address d = Device.Address e →
  (∀ k d', m !! k = Some d' → k ≠ Device.key d → Forall (not_routed d') (routes_of d)) →
  dev_inv m → dev_inv (<[Device.key d := d]> m).
Proof.
  intros Hk He Hg Ea Hr Hinv. destruct Hinv as [Hev Hap Hl].
  assert (∀ k d', m !! k = Some d' → k ≠ Device.key d → apart d d' ∧ apart d' d) as Hnew.
  { intros k d' Hd' Hne. pose proof (Hap _ _ _ _ He Hd' (not_eq_sym Hne)) as [Ha _].
    pose proof (routes_wf d Hg) as Hw. pose proof (routes_wf d' (Hev _ _ Hd')) as Hw'.
    specialize (Hr _ _ Hd' Hne). rewrite Forall_forall in Hr, Hw, Hw'.
    assert (∀ p q, p ∈ routes_of d → q ∈ routes_of d' → Overlaps p q = false) as Ho.
    { intros p q Hp Hq. rewrite Overlaps_comm by auto. specialize (Hr p Hp). unfold not_routed in Hr.
      rewrite Forall_forall in Hr. by apply Hr. }
    unfold apart, addresses_of in *. rewrite Ea. split; split.
    - done.
    - done.
    - intros a H1 H2. by eapply Ha.
    - intros p q Hp Hq. rewrite Overlaps_comm by auto. by apply Ho. }
  constructor.
  - intros k d' [[<- <-]|[_ Hd]]%lookup_insert_Some; [done|]. by eapply Hev.
  - intros k1 k2 d1 d2 [[<- <-]|[N1 H1]]%lookup_insert_Some [[<- <-]|[N2 H2]]%lookup_insert_Some Hne.
    + done.
    + by eapply Hnew.
    + by eapply Hnew.
    + by eapply Hap.
  - intros Hmax owner. etrans; [|by apply (Hl Hmax owner)].
    assert (∀ a b : nat, (a <= b)%nat → Z.of_nat a <= Z.of_nat b) as Hz by lia. apply Hz.
    apply (owned_moved m _ id); [done|by apply dev_keyed_insert| |done].
    intros k [d' Hd']. split; [|done]. apply lookup_insert_Some in Hd' as [[<- _]|[_ ?]]; [by exists e|by exists d'].
Qed.
End invariant.

(** ** The steps and the runs *)
(** ** Operations on the storage *)
Section storage.
  Context {S : Type} `{StorageLaws S} (cfg : Config) (Hcfg : config_ok cfg).
  Implicit Types (s : S).

(** The storage is in order and the devices satisfy the invariant. *)
Definition sinv (s : S) : Prop := ok s ∧ dev_inv cfg (devices (view s)).
Definition keeps {A} (m : M S A) : Prop := ∀ s r s', sinv s → m s = (r, s') → sinv s'.

Lemma sinv_keyed s : sinv s → dev_keyed (devices (view s)).
Proof. intros [Hok _]. apply ok_wf in Hok as []. done. Qed.

Lemma same_sinv s s' : same s s' → sinv s → sinv s'.
Proof. intros (Hok & Hv & _) [_ Hi]. split; [done|]. by rewrite Hv. Qed.

Lemma keeps_readonly {A} (m : M S A) : readonly m → keeps m.
Proof. intros Hm s r s' [Hok Hi] E. eapply same_sinv; [by eapply Hm|done]. Qed.

(** An operation that is all or nothing: only what a success stores counts. *)
Lemma keeps_atomic {A} (m : M S A) : atomic m →
  (∀ s a s', sinv s → m s = (Ok a, s') → dev_inv cfg (devices (view s'))) → keeps m.
Proof.
  intros Hm Hd s r s' Hs E. pose proof (Hm s r s' (proj1 Hs) E) as [Hok Herr].
  destruct r as [a|e]; [|by eapply same_sinv; [by eapply Herr|]].
  split; [done|]. by eapply Hd.
Qed.

Lemma keeps_AddDevice now identity name pk psk manual m4 m6 :
  keeps (AddDevice cfg now identity name pk psk manual m4 m6).
Proof.
  apply keeps_atomic.
  { unfold AddDevice, addDeviceLocked, ListDevices, SaveDevice, manualClientAddress,
      nextClientAddressLocked, usedAddresses. solve_atomic. }
  intros s d s' Hs E. pose proof Hs as [Hok Hi].
  apply AddDevice_spec in E as (_ & Hname & Hpk & Hpsk & (t & -> & l & Hl & Hp & Hf) & Hn & _ & Hlim & -> & _); [|done..].
  apply dev_inv_add; [by apply sinv_keyed|done| |done| |done|done].
  - constructor; [done..| |constructor]. exists l. split; [done|]. split; [done|].
    eapply Forall_impl; [exact Hf|]. by intros a [? _].
  - intros a Ha. change (a ∈ (ParseAddresses t).1) in Ha. rewrite Hp in Ha. rewrite Forall_forall in Hf.
    by apply Hf.
Qed.

Lemma keeps_RenameDevice user name newName : keeps (RenameDevice user name newName).
Proof.
  apply keeps_atomic; [unfold RenameDevice, ListDevices; solve_atomic|].
  intros s d s' Hs E. pose proof Hs as [Hok Hi].
  apply RenameDevice_spec in E as (Hname & Hok' & stored & Hl & Hk & Hd); [|done].
  destruct (String.eqb_spec name newName) as [<-|Hne]; [by destruct Hd as [_ ->]|].
  destruct Hd as (-> & Hfree & Hv & _).
  pose proof (sinv_keyed _ Hs) as Hkd. pose proof (wf_dev_key _ (ok_wf _ Hok')) as Hkd'.
  rewrite Hv in *. cbn [devices on_devices] in *.
  apply (dev_inv_moved cfg (devices (view s)) _
    (λ k, if decide (k = (user, newName)) then (user, name) else k)); [done|done| | |done].
  - intros k d [[<- <-]|[Hk1 [Hk2 Hd]%lookup_delete_Some]]%lookup_insert_Some.
    + rewrite decide_True by done. exists stored. do 4 (split; [done|]).
      intros [? ? ? ? ?]. by constructor.
    + rewrite decide_False by done. exists d. done.
  - intros k1 k2 [d1 H1] [d2 H2].
    assert (∀ k d, <[(user, newName):=Device.with_Name newName stored]> (delete (user, name) (devices (view s))) !! k = Some d →
      k ≠ (user, newName) → k ≠ (user, name)) as Hnot.
    { intros k d Hd Hk0 ->. rewrite lookup_insert_ne, lookup_delete_eq in Hd; [done|]. naive_solver. }
    repeat case_decide; intros E; try congruence.
    + exfalso. by eapply (Hnot k2).
    + exfalso. by eapply (Hnot k1).
Qed.

Lemma keeps_SetDeviceAccess now user name change : keeps (SetDeviceAccess now user name change).
Proof.
  apply keeps_atomic; [unfold SetDeviceAccess; solve_atomic|].
  intros s d s' Hs E. pose proof Hs as [Hok Hi].
  apply SetDeviceAccess_spec in E as (_ & stored & Hl & -> & _ & -> & _); [|done].
  pose proof (sinv_keyed _ Hs _ _ Hl) as Hk. rewrite <- Hk in *. cbn [devices on_devices].
  apply (dev_inv_replace cfg _ stored (Device.with_Access _ _ stored)); [by apply sinv_keyed|done..| |done].
  by apply same_place_good.
Qed.

Lemma keeps_SetDeviceRoutes addrs user name routes : keeps (SetDeviceRoutes cfg addrs user name routes).
Proof.
  apply keeps_atomic.
  { unfold SetDeviceRoutes, checkRoutes, ListAllDevices, withOwnerNames. solve_atomic. }
  intros s d s' Hs E. pose proof Hs as [Hok Hi].
  apply SetDeviceRoutes_spec in E as (_ & l & stored & Hn & Hl & -> & Hr & -> & _ & Hf); [|done].
  pose proof (sinv_keyed _ Hs _ _ Hl) as Hk. rewrite <- Hk in *. cbn [devices on_devices].
  apply normalizeRoutes_ok in Hn as (_ & Hst & _). rewrite Forall_forall in Hf, Hst.
  set (d := Device.with_Routes _ stored) in *.
  apply (dev_inv_routes cfg _ stored d); [by apply sinv_keyed|done| |done| |done].
  - destruct (inv_each _ _ Hi _ _ Hl) as [? ? ? ? _]. constructor; [done..|]. rewrite Hr.
    apply Forall_forall. intros p Hp. split; [by apply Hst|]. exact (proj1 (Hf p Hp)).
  - intros k d' Hd' Hne. rewrite Hr. apply Forall_forall. intros p Hp.
    destruct (Hf p Hp) as (_ & _ & Ho). by apply (Ho k).
Qed.

(** The deletions leave a part of the table. *)
Lemma keeps_shrink {A} (m : M S A) : atomic m →
  (∀ s a s', ok s → m s = (Ok a, s') → devices (view s') ⊆ devices (view s)) → keeps m.
Proof.
  intros Hm Hd. apply keeps_atomic; [done|]. intros s a s' Hs E. pose proof Hs as [Hok Hi].
  eapply dev_inv_subseteq; [by apply sinv_keyed|by eapply Hd|done].
Qed.

Lemma keeps_DeleteDevice user name : keeps (DeleteDevice user name).
Proof.
  apply keeps_shrink; [unfold DeleteDevice; solve_atomic|].
  intros s [] s' Hok E. apply DeleteDevice_spec in E as (_ & d & _ & -> & _); [|done]. apply delete_subseteq.
Qed.
Lemma keeps_ForgetUser subject : keeps (ForgetUser subject).
Proof.
  apply keeps_shrink; [unfold ForgetUser; solve_atomic|].
  intros s a s' Hok E. unfold ForgetUser in E. minv.
  apply law_DeleteUser in E as (_ & evs & (_ & ->) & _); done.
Qed.
Lemma keeps_DeleteDevicesForUser user : keeps (DeleteDevicesForUser user).
Proof.
  apply keeps_shrink; [unfold DeleteDevicesForUser; solve_atomic|].
  intros s a s' Hok E. unfold DeleteDevicesForUser in E. minv.
  match goal with Hd : DeleteForOwner _ _ = _ |- _ =>
    apply law_DeleteForOwner in Hd as (_ & evs & (_ & -> & _) & _); [|done] end.
  apply map_filter_subseteq.
Qed.

Lemma keeps_BlockDevicesForUser user : keeps (BlockDevicesForUser user).
Proof.
  apply keeps_atomic; [unfold BlockDevicesForUser; solve_atomic|].
  intros s n s' Hs E. pose proof Hs as [Hok Hi].
  apply BlockDevicesForUser_spec in E as (_ & -> & _); [|done]. cbn [devices on_devices].
  apply dev_inv_fmap; [by apply sinv_keyed| |done]. intros d. by case_bool_decide.
Qed.

Lemma apply_updates_place us d : same_place (fold_left apply_update us d) d.
Proof.
  revert d. induction us as [|u us IH]; intros d; [done|]. cbn [fold_left].
  specialize (IH (apply_update d u)). unfold apply_update in *. by destruct (mu_Connection u).
Qed.
Lemma keeps_RecordMetadata us : Forall (λ u, mu_PublicKey u ≠ "") us → keeps (RecordMetadata us).
Proof.
  intros Hus. apply keeps_atomic; [by eapply atomic_effect, law_RecordMetadata|].
  intros s a s' Hs E. apply law_RecordMetadata in E as (_ & evs & (_ & ->) & _); [|done|apply Hs].
  cbn [devices on_devices]. apply dev_inv_fmap; [by apply sinv_keyed| |apply Hs].
  intros d. apply apply_updates_place.
Qed.

Lemma keeps_SetKeys d pk psk : key_ok pk → psk = "" ∨ key_ok psk → keeps (SetKeys d pk psk).
Proof.
  intros Hpk Hpsk. apply keeps_atomic; [by eapply atomic_effect, law_SetKeys|].
  intros s d' s' Hs E. apply law_SetKeys in E as (_ & evs & (stored & Hl & _ & -> & _) & _); [|apply Hs].
  pose proof (sinv_keyed _ Hs _ _ Hl) as Hk. cbn [devices on_devices].
  rewrite <- Hk. apply (dev_inv_replace cfg _ stored (Device.with_Keys pk psk stored));
    [by apply sinv_keyed|change (devices (view s) !! Device.key stored = Some stored); by rewrite Hk|done..| |apply Hs].
  intros [? ? ? ? ?]. by constructor.
Qed.
End storage.

(** ** The manager: its operations, the events and the loops *)
Section manager.
  Context {S W : Type} `{StorageLaws S} `{WireGuardLaws W} (cfg : Config) (Hcfg : config_ok cfg)
    (firewallSync : option (FirewallState → result unit)).
  Notation DM := (DeviceManager S W).
  Implicit Types (d : DM).

(** One call of an operation, one event handed to its callback, or one turn of
    a loop, at any time and with any arguments; whether it fails or not. *)
Inductive step : DM → DM → Prop :=
  | step_AddDevice now identity name pk psk manual m4 m6 d r d' :
      on_storage (AddDevice cfg now identity name pk psk manual m4 m6) d = (r, d') → step d d'
  | step_RenameDevice user name newName d r d' :
      on_storage (RenameDevice user name newName) d = (r, d') → step d d'
  | step_SetDeviceAccess now user name change d r d' :
      on_storage (SetDeviceAccess now user name change) d = (r, d') → step d d'
  | step_SetDeviceRoutes addrs user name routes d r d' :
      on_storage (SetDeviceRoutes cfg addrs user name routes) d = (r, d') → step d d'
  | step_RotateDeviceKey now user name pk psk d r d' :
      RotateDeviceKey now user name pk psk d = (r, d') → step d d'
  | step_DeleteDevice user name d r d' : on_storage (DeleteDevice user name) d = (r, d') → step d d'
  | step_DeleteDevicesForUser user d r d' :
      on_storage (DeleteDevicesForUser user) d = (r, d') → step d d'
  | step_BlockDevicesForUser user d r d' :
      on_storage (BlockDevicesForUser user) d = (r, d') → step d d'
  | step_ForgetUser subject d r d' : on_storage (ForgetUser subject) d = (r, d') → step d d'
  | step_event now e d r d' : handle_event now e d = (r, d') → step d d'
  | step_resync now d r d' : resync_turn firewallSync now d = (r, d') → step d d'
  | step_access now d r d' : removeBlockedPeers now d = (r, d') → step d d'
  | step_inactive now grace d r d' : checkAndRemove now grace d = (r, d') → step d d'
  | step_metadata now tracker d r d' : syncMetrics now tracker d = (r, d') → step d d'.

Definition dm_keeps {A} (m : M DM A) : Prop :=
  ∀ d r d', sinv cfg (storage d) → m d = (r, d') → sinv cfg (storage d').

Lemma dm_storage {A} (m : M S A) : keeps cfg m → dm_keeps (on_storage m).
Proof.
  intros Hm d r d' Hs E. unfold on_storage in E. minv. subst. cbn. by eapply Hm.
Qed.
Lemma dm_wg {A} (m : M W A) : dm_keeps (on_wg m).
Proof. intros d r d' Hs E. unfold on_wg in E. minv. subst. done. Qed.
Lemma dm_bind {A B} (m : M DM A) (k : A → M DM B) :
  dm_keeps m → (∀ a, dm_keeps (k a)) → dm_keeps (m_bind m k).
Proof.
  intros Hm Hk d r d' Hs E. unfold m_bind in E. destruct (m d) as [[a|e] d1] eqn:Em.
  - eapply Hk; [|exact E]. by eapply Hm.
  - injection E as _ <-. by eapply Hm.
Qed.
Lemma dm_ret {A} (a : A) : dm_keeps (m_ret a).
Proof. by intros d r d' Hs [= <- <-]. Qed.
Lemma dm_fail {A} e : dm_keeps (m_fail (A := A) e).
Proof. by intros d r d' Hs [= <- <-]. Qed.
Lemma dm_wrap {A} msg (m : M DM A) : dm_keeps m → dm_keeps (m_wrap msg m).
Proof.
  intros Hm d r d' Hs E. unfold m_wrap in E. destruct (m d) eqn:Em. injection E as _ <-. by eapply Hm.
Qed.
Lemma dm_try {A} (m : M DM A) : dm_keeps m → dm_keeps (m_try m).
Proof.
  intros Hm d r d' Hs E. unfold m_try in E. destruct (m d) eqn:Em. injection E as _ <-. by eapply Hm.
Qed.
Lemma dm_for {A} (f : A → M DM unit) l : (∀ x, dm_keeps (f x)) → dm_keeps (m_for f l).
Proof. intros Hf. induction l as [|x l IH]; simpl; [apply dm_ret|]. by apply dm_bind. Qed.
Lemma dm_modify (f : DM → DM) : (∀ d, storage (f d) = storage d) → dm_keeps (m_modify f).
Proof. intros Hf d r d' Hs [= _ <-]. by rewrite Hf. Qed.

(** Follows the code: what only reads the storage or changes other parts. *)
Ltac dm_step :=
  match goal with
  | |- ∀ _, _ => intros
  | |- dm_keeps (m_ret _) => apply dm_ret
  | |- dm_keeps (m_fail _) => apply dm_fail
  | |- dm_keeps (m_bind _ _) => apply dm_bind
  | |- dm_keeps (m_wrap _ _) => apply dm_wrap
  | |- dm_keeps (m_try _) => apply dm_try
  | |- dm_keeps (m_for _ _) => apply dm_for
  | |- dm_keeps (m_modify _) => apply dm_modify; done
  | |- dm_keeps (on_wg _) => apply dm_wg
  | |- dm_keeps (on_storage _) => apply dm_storage, keeps_readonly; solve_readonly
  | |- dm_keeps (logged _) => unfold logged
  | |- dm_keeps (match ?x with _ => _ end) => destruct x
  end.

Lemma dm_ListAllDevices : dm_keeps (on_storage ListAllDevices).
Proof. apply dm_storage, keeps_readonly, readonly_ListAll. Qed.

Lemma dm_applyPeer now dev : dm_keeps (applyPeer now dev).
Proof. unfold applyPeer. repeat dm_step. Qed.

Lemma dm_choose (b : DM → bool) (m : M DM unit) : dm_keeps m →
  dm_keeps (λ d, if b d then (Ok tt, d) else m d).
Proof. intros Hm d r d' Hs E. destruct (b d); [by injection E as _ <-|]. by eapply Hm. Qed.

Lemma dm_syncFirewallState now devs : dm_keeps (syncFirewallState firewallSync now devs).
Proof. unfold syncFirewallState, firewallState. repeat first [dm_step | apply dm_choose]. Qed.

Lemma dm_sync now : dm_keeps (sync firewallSync now).
Proof.
  unfold sync, sync_remove, sync_add. repeat first [apply dm_ListAllDevices | apply dm_syncFirewallState | dm_step].
Qed.

Lemma dm_RotateDeviceKey now user name pk psk : dm_keeps (RotateDeviceKey now user name pk psk).
Proof.
  unfold RotateDeviceKey. destruct (wgKey_MatchString pk) eqn:Hpk; [|apply dm_fail].
  destruct (negb (slen psk =? 0) && negb (wgKey_MatchString psk)) eqn:Hg; [apply dm_fail|].
  assert (psk = "" ∨ key_ok psk) as Hpsk.
  { apply andb_false_iff in Hg as [Hg|Hg]; apply negb_false_iff in Hg; [left|by right].
    unfold slen in Hg. destruct psk; [done|]. apply Z.eqb_eq in Hg. simpl in Hg. lia. }
  repeat first [apply dm_applyPeer | apply dm_storage, keeps_SetKeys; done | dm_step].
Qed.

Lemma wg_keys_named w peers_ w' : ListPeers w = (Ok peers_, w') → Forall (λ p, p_PublicKey p ≠ "") peers_.
Proof.
  intros E. apply wg_list in E as [_ Hl]. rewrite Hl. apply Forall_forall.
  intros p ([k q] & -> & Hin)%list_elem_of_fmap. apply elem_of_map_to_list in Hin. cbn.
  rewrite (peers_keyed _ _ _ Hin). intros ->. by rewrite peers_named in Hin.
Qed.

Lemma dm_syncMetrics now tracker : dm_keeps (syncMetrics now tracker).
Proof.
  intros d r d' Hs E. unfold syncMetrics, on_wg in E. unfold m_bind at 1, m_try at 1, zoom at 1 in E.
  destruct (ListPeers (wg d)) as [[ps|e] w'] eqn:El; [|by injection E as _ <-].
  pose proof (collect_keys now ps [] (forgetAllBut tracker ps) (wg_keys_named _ _ _ El) (Forall_nil_2 _)) as Hk.
  unfold collectMetadata in E. destruct (fold_left _ _ _) as [updates t'].
  revert E. match goal with |- ?m ?x = _ → _ => assert (dm_keeps m) as Hm; [|by apply Hm] end.
  apply dm_bind; [|intros; apply dm_ret]. by apply dm_try, dm_storage, keeps_RecordMetadata.
Qed.

Lemma step_keeps d d' : step d d' → sinv cfg (storage d) → sinv cfg (storage d').
Proof.
  intros Hstep Hs. destruct Hstep as [| | | | | | | | |? ? ? ? ? E|? ? ? ? E|? ? ? ? E|? ? ? ? ? E|? ? ? ? ? E];
    try match goal with E : on_storage ?m _ = _ |- _ => revert E; apply dm_storage; [|done] end.
  - by apply keeps_AddDevice.
  - apply keeps_RenameDevice.
  - apply keeps_SetDeviceAccess.
  - apply keeps_SetDeviceRoutes.
  - by eapply dm_RotateDeviceKey.
  - apply keeps_DeleteDevice.
  - apply keeps_DeleteDevicesForUser.
  - apply keeps_BlockDevicesForUser.
  - apply keeps_ForgetUser.
  - revert E. assert (dm_keeps (handle_event now e)) as Hm; [|by apply Hm].
    unfold handle_event, Resync. destruct e; repeat first [apply dm_applyPeer | dm_step].
  - revert E. assert (dm_keeps (resync_turn firewallSync now)) as Hm; [|by apply Hm].
    unfold resync_turn. repeat first [apply dm_sync | dm_step].
  - revert E. assert (dm_keeps (removeBlockedPeers now)) as Hm; [|by apply Hm].
    unfold removeBlockedPeers, remove_blocked. repeat first [apply dm_ListAllDevices | dm_step].
  - revert E. assert (dm_keeps (checkAndRemove now grace)) as Hm; [|by apply Hm].
    unfold checkAndRemove, check_inactive.
    repeat first [apply dm_ListAllDevices | apply dm_storage, keeps_DeleteDevice | dm_step].
  - by eapply dm_syncMetrics.
Qed.

Lemma run_keeps d d' : rtc step d d' → sinv cfg (storage d) → sinv cfg (storage d').
Proof. induction 1 as [|x y z Hxy _ IH]; [done|]. intros Hs. apply IH. by eapply step_keeps. Qed.

Lemma sinv_empty s : ok s → devices (view s) = ∅ → sinv cfg s.
Proof.
  intros Hok He. split; [done|]. rewrite He. constructor.
  - intros k d Hd. by rewrite lookup_empty in Hd.
  - intros k1 k2 d1 d2 Hd. by rewrite lookup_empty in Hd.
  - intros Hmax owner. unfold owned. rewrite map_to_list_empty. cbn. lia.
Qed.
End manager.
