(* ===== verification/Host.v ===== *)
(** * What the server takes from its host, and the edges of its web server

    The nameservers and the default interface of the host ([resolvconf.go], the end of
    [config.go]), the names a generated certificate is for ([web/tls.go]), where
    the storage is ([NewStorage] and the connection strings of [sql.go]), the handlers
    around every request ([web/middleware.go], [web/health.go], [web/router.go], [traces.go]), and the
    store of the cookies ([authnz/router.go]). Files, links and
    routes, parsing a URL and certificates are arguments. *)
From S2P Require Import Prelude GoText Netip NetipText NetipRoundTrip GoNet Storage Totp.
From S2P Require Import Encoding TextFacts AuthSession WireGuard Devices Routes Manager GoQuote Oidc WebServer.

(** ** internal/resolvconf *)
Definition systemdStub : string := "127.0.0.53".
Definition newline : ascii := chr 10.
Definition nameserver_of (line : string) : option string :=
  match Fields line with
  | [] => None
  | f :: rest =>
      if HasPrefix f "#" || HasPrefix f ";" then None else
      if negb (String.eqb f "nameserver") then None else
      match rest with
      | [] => None
      | field :: _ => AddrString <$> ParseAddr field
      end
  end.
Definition parseNameservers (content : string) : list string := omap nameserver_of (Split content newline).

Section resolv_conf.
  Variable read_file : string → result string.
Definition parseFile (path : string) : list string :=
  match read_file path with Err _ => [] | Ok content => parseNameservers content end.
Definition nameserversFrom (primary systemd : string) : list string :=
  let nameservers := parseFile primary in
  if bool_decide (nameservers = [systemdStub]) then parseFile systemd else nameservers.
Definition Nameservers : list string := nameserversFrom "/etc/resolv.conf" "/run/systemd/resolve/resolv.conf".

(** ** cmd/serve/config.go *)
Definition detectDNSUpstream (ipv4Enabled ipv6Enabled : bool) : list string :=
  let upstream := Nameservers in
  if bool_decide (upstream = []) then
    upstream ++ (if ipv6Enabled then ["2606:4700:4700::1111"] else []) ++ (if ipv4Enabled then ["1.1.1.1"] else [])
  else upstream.
End resolv_conf.

(** A route to a destination, none where the library has nil. *)
Inductive family := FAMILY_V4 | FAMILY_V6.
(** [net.IP.IsUnspecified], which takes a mapped address for the IPv4 one. *)
Definition IsUnspecified (a : Addr) : bool := match Unmap a with A4 v | A6 v _ => v =? 0 | A0 _ => false end.
Section default_interface.
  Context {Link : Type} (link_name : Link → string) (routeList : Link → family → result (list (option Addr))).
Definition has_default (link : Link) (f : family) : bool :=
  match routeList link f with
  | Err _ => false
  | Ok routes => existsb (λ dst, match dst with Some a => IsUnspecified a | None => false end) routes
  end.
Fixpoint defaultInterfaceName (links : list Link) : string :=
  match links with
  | [] => ""
  | link :: links =>
      if has_default link FAMILY_V4 then link_name link else
      if has_default link FAMILY_V6 then link_name link else defaultInterfaceName links
  end.
Definition detectDefaultInterface (linkList : result (list Link)) : string :=
  match linkList with Err _ => "" | Ok links => defaultInterfaceName links end.
End default_interface.

(** ** web/tls.go *)
(** [strings.Index]: what comes before and after the first occurrence. *)
Fixpoint cut_at (sep l : list ascii) : option (list ascii * list ascii) :=
  match strip sep l with
  | Some after => Some ([], after)
  | None => match l with
            | [] => None
            | c :: l' => '(before, after) ← cut_at sep l'; Some (c :: before, after)
            end
  end.
(** [strings.Trim] with a set of bytes. *)
Fixpoint trim_bytes_left (set l : list ascii) : list ascii :=
  match l with c :: l' => if has_byte c set then trim_bytes_left set l' else l | [] => [] end.
Definition Trim (s : string) (cutset : string) : string :=
  of_bytes (rev (trim_bytes_left (bytes cutset) (rev (trim_bytes_left (bytes cutset) (bytes s))))).

Definition hostFromExternalHost (externalHost : string) : string :=
  let host := TrimSpace externalHost in
  if String.eqb host "" then "" else
  let host := match cut_at (bytes "://") (bytes host) with Some (_, after) => of_bytes after | None => host end in
  let host := match cut_at (bytes "/") (bytes host) with Some (before, _) => of_bytes before | None => host end in
  let host := match SplitHostPort host with Some (hostOnly, _) => hostOnly | None => host end in
  Trim host "[]".

Fixpoint dedup_from (seen : list string) (values : list string) : list string :=
  match values with
  | [] => []
  | value :: values =>
      if String.eqb value "" || bool_decide (value ∈ seen) then dedup_from seen values
      else value :: dedup_from (value :: seen) values
  end.
Definition deduplicate (values : list string) : list string := dedup_from [] values.

Definition IsLinkLocalUnicast (a : Addr) : bool :=
  match a with
  | A4 v => Z.shiftr v 16 =? 169 * 256 + 254
  | A6 v _ => Z.shiftr v 118 =? 1018
  | A0 _ => false
  end.
(** The addresses of the interfaces, none for one that is not of an IP network. *)
Definition CertHosts (externalHost : string) (interfaceAddrs : result (list (option Addr))) : list string :=
  let host := hostFromExternalHost externalHost in
  let addrs := match interfaceAddrs with Ok addrs => addrs | Err _ => [] end in
  deduplicate (["localhost"; "127.0.0.1"; "::1"] ++
    (if negb (String.eqb host "") then [host] else []) ++
    omap (λ addr, match addr with
                  | Some a => if IsLinkLocalUnicast (Unmap a) then None else Some (AddrString (Unmap a))
                  | None => None
                  end) addrs).

(** [net.ParseIP]: an address without a zone. *)
Definition ParseIP (s : string) : option Addr :=
  match ParseAddr s with Some a => if hasZone a then None else Some a | None => None end.
(** The second [time.Now], ten years later by the calendar of the host, is an argument. *)
Record Template := mkTemplate {
  SerialNumber : Z; Organization : list string; CommonName : string; NotBefore : Time; NotAfter : Time;
  KeyUsage : list string; ExtKeyUsage : list string; BasicConstraintsValid : bool;
  IPAddresses : list Addr; DNSNames : list string }.
Definition new_template (serial : Z) (now until : Time) (ips : list Addr) (names : list string) : Template :=
  mkTemplate serial ["WG Access Server"] "WG Access Server Self-Signed Certificate" now until
    ["KeyUsageKeyEncipherment"; "KeyUsageDigitalSignature"] ["ExtKeyUsageServerAuth"] true ips names.
(** [append] to one of the two lists. *)
Definition add_host (hosts : list Addr * list string) (host : string) : list Addr * list string :=
  match ParseIP host with
  | Some ip => (hosts.1 ++ [ip], hosts.2)
  | None => (hosts.1, hosts.2 ++ [host])
  end.
Definition template (serial : Z) (now until : Time) (hosts : list string) : Template :=
  let '(ips, names) := fold_left add_host hosts ([], []) in new_template serial now until ips names.

(** crypto/x509 and the file system. *)
Class Certificates (F K C : Type) := {
  MkdirAll (path : string) : M F unit;
  GenerateKey : M F K;
  random_serial : M F Z;
  CreateCertificate (t : Template) (key : K) : M F string;
  marshal_key : K → string;
  WriteFile (path content : string) (perm : Z) : M F unit;
  not_exist (path : string) : F → bool;
  LoadX509KeyPair (cert key : string) : M F C;
  Dir : string → string }.
Section certificates.
  Context {F K C : Type} `{Certificates F K C}.
Definition GenerateSelfSignedCert (now until : Time) (certPath keyPath : string) (hosts : list string) : M F unit :=
  do! m_wrap "failed to create certificate directory" (MkdirAll (Dir certPath));
  let! key := m_wrap "failed to generate private key" GenerateKey in
  let! serial := m_wrap "failed to generate a certificate serial number" random_serial in
  let! cert := m_wrap "failed to create certificate" (CreateCertificate (template serial now until hosts) key) in
  do! m_wrap "failed to write certificate file" (WriteFile certPath cert 420);
  m_wrap "failed to write private key file" (WriteFile keyPath (marshal_key key) 384).
Definition LoadTLSCert (now until : Time) (certPath keyPath : string) (hosts : list string) : M F C :=
  let! missing := m_gets (λ f, not_exist certPath f || not_exist keyPath f) in
  do! (if missing then GenerateSelfSignedCert now until certPath keyPath hosts else m_ret tt);
  m_wrap "failed to load TLS certificate" (LoadX509KeyPair certPath keyPath).
End certificates.

Definition GetDefaultCertPaths : string * string := ("wg-access-server.crt", "wg-access-server.key").

(** ** traces.go, web/middleware.go, web/health.go and web/router.go *)
(** What a context says of the trace. *)
Definition WithTraceID (NewRandom : result string) (ctx : option string) : option string :=
  match NewRandom with Ok id => Some id | Err _ => ctx end.
Definition TraceID (ctx : option string) : string := default "<no-trace-id>" ctx.

(** [http.ResponseWriter]: the headers as they stand, the status and the headers that
    are on their way, once one of them is, and the body. *)
Record Writer := mkWriter { header : gmap string string; sent : option (Z * gmap string string); body : string }.
Definition no_response : Writer := mkWriter ∅ None "".
Definition set_header (key value : string) (w : Writer) : Writer :=
  mkWriter (<[key := value]> (header w)) (sent w) (body w).
Definition send (status : Z) (w : Writer) : Writer :=
  mkWriter (header w) (Some (default (status, header w) (sent w))) (body w).
Definition append (text : string) (w : Writer) : Writer := mkWriter (header w) (sent w) (body w +:+ text).
Definition response_status (w : Writer) : Z := default 200 (fst <$> sent w).
Definition response_headers (w : Writer) : gmap string string := default (header w) (snd <$> sent w).

Definition contentSecurityPolicy : string :=
  "default-src 'self'; " +:+ "script-src 'self'; " +:+ "style-src 'self' 'unsafe-inline'; " +:+
  "img-src 'self' data:; " +:+ "connect-src 'self'; " +:+ "font-src 'self'; " +:+ "base-uri 'none'; " +:+
  "form-action 'self'; " +:+ "frame-ancestors 'none'".
Section handlers.
  Context {S : Type}.
(** A handler that panics fails. *)
Definition Handler : Type := M (Writer * S) unit.
Definition on_writer (f : Writer → Writer) : Handler := m_modify (λ '(w, s), (f w, s)).
Definition Header_Set (key value : string) : Handler := on_writer (set_header key value).
Definition WriteHeader (status : Z) : Handler := on_writer (send status).
Definition Fprintf (text : string) : Handler := do! WriteHeader 200; on_writer (append text).

Definition SecurityHeadersMiddleware (tls : bool) (next : Handler) : Handler :=
  do! Header_Set "X-Content-Type-Options" "nosniff";
  do! Header_Set "X-Frame-Options" "DENY";
  do! Header_Set "Referrer-Policy" "no-referrer";
  do! Header_Set "Content-Security-Policy" contentSecurityPolicy;
  do! (if tls then Header_Set "Strict-Transport-Security" "max-age=31536000" else m_ret tt);
  next.
Definition TracesMiddleware (NewRandom : result string) (ctx : option string) (next : option string → Handler) : Handler :=
  next (WithTraceID NewRandom ctx).
Definition RecoveryMiddleware (ctx : option string) (next : Handler) : Handler :=
  let! r := m_try next in
  match r with
  | Ok _ => m_ret tt
  | Err _ => do! WriteHeader 500; Fprintf ("server error" +:+ str [10] +:+ "trace = " +:+ TraceID ctx +:+ str [10])
  end.
(** The order [newRouter] puts them in. *)
Definition wrapped (NewRandom : result string) (tls : bool) (next : Handler) : Handler :=
  TracesMiddleware NewRandom None (λ ctx, RecoveryMiddleware ctx (SecurityHeadersMiddleware tls next)).
End handlers.
Arguments Handler : clear implicits.

Definition HealthEndpoint {S W} `{WireGuard W} (storage_ping : M S unit) : Handler (DeviceManager S W) :=
  let! ping := zoom snd (λ d ws, (ws.1, d)) (m_try (Ping storage_ping)) in
  match ping with
  | Err _ => do! WriteHeader 500; Fprintf "ping failed"
  | Ok _ => do! WriteHeader 200; Fprintf "ok"
  end.

(** ** authnz/router.go: the cookie store and the providers *)
(** [hex.DecodeString], the error without the byte it names. *)
Fixpoint hex_decode (l : list ascii) : option (list Z) :=
  match l with
  | [] => Some []
  | a :: b :: l => x ← hex_value a; y ← hex_value b; rest ← hex_decode l; Some (16 * x + y :: rest)
  | _ => None
  end.
Definition hex_DecodeString (s : string) : result (list Z) :=
  match hex_decode (bytes s) with Some l => Ok l | None => Err (PlainError "encoding/hex") end.
Record SessionStoreConfig := mkSessionStore { Secret_ : string; Secure_ : bool; MaxAge_ : string }.
(** [sessions.Options] of the cookie; [SameSite] is Lax. *)
Record CookieOptions := mkCookie {
  cookie_Path : string; cookie_MaxAge : Z; HttpOnly : bool; Secure : bool; SameSiteLax : bool }.
Definition storeSecret (config : option SessionStoreConfig) (random : list Z) : result (list Z) :=
  let secret := match config with Some c => Secret_ c | None => "" end in
  if String.eqb secret "" then Ok (string_bytes (RandomString random)) else
  let? secret := hex_DecodeString secret in
  fail! (PlainError "session store secret must be 32 bytes long") when negb (List.length secret =? 32)%nat;
  Ok secret.
(** The routes of the providers, the first error of them. *)
Fixpoint register_all {P : Type} (RegisterRoutes : P → option (result unit)) (providers : list P) : result unit :=
  match providers with
  | [] => Ok tt
  | p :: providers => let? _ := default (Ok tt) (RegisterRoutes p) in register_all RegisterRoutes providers
  end.
(** The secret of the store, the options of the cookie, and whether there are other providers. *)
Definition auth_New {P : Type} `{UnicodeTables} (config : option SessionStoreConfig) (random : list Z) (parsed : result Z)
    (RegisterRoutes : P → option (result unit)) (providers : list P) : result (list Z * CookieOptions * bool) :=
  let? secret := storeSecret config random in
  let? maxAge := sessionMaxAge (match config with Some c => MaxAge_ c | None => "" end) parsed in
  let options := mkCookie "/" maxAge true (match config with Some c => Secure_ c | None => false end) true in
  let? _ := register_all RegisterRoutes providers in
  Ok (secret, options, (1 <? List.length providers)%nat).

Example host_ex : hostFromExternalHost " https://vpn.example.com:8443/ui " = "vpn.example.com"
  ∧ hostFromExternalHost "[2001:db8::1]:443" = "2001:db8::1" ∧ hostFromExternalHost "2001:db8::1" = "2001:db8::1"
  ∧ hostFromExternalHost "[::1]" = "::1" ∧ hostFromExternalHost "10.0.0.1" = "10.0.0.1".
Proof. vm_compute. done. Qed.
Example resolv_ex : parseNameservers ("# nameserver 9.9.9.9" +:+ str [10] +:+ "nameserver  1.1.1.1 # one" +:+ str [10]
    +:+ "search lan" +:+ str [10] +:+ "nameserver bogus" +:+ str [10] +:+ "nameserver 2606:4700::0001") =
  ["1.1.1.1"; "2606:4700::1"].
Proof. vm_compute. done. Qed.

(** ** The storage: contracts.go and sql.go

    A URL as net/url parsed it: the name and the password in it, if there are any, and the
    form without the password. *)
Record URL := mkURL {
  Scheme : string; User_ : option (string * option string); url_Host : string; url_Path : string;
  RawQuery : string; Redacted : string }.
Definition Username_ (u : URL) : string := match User_ u with Some (name, _) => name | None => "" end.
Definition Password_ (u : URL) : string := match User_ u with Some (_, Some p) => p | _ => "" end.

(** [Hostname] and [Port]. *)
Definition validOptionalPort (l : list ascii) : bool :=
  match l with [] => true | c :: ds => Ascii.eqb c ":" && forallb is_digit ds end.
Definition url_split (u : URL) : list ascii * list ascii :=
  let l := bytes (url_Host u) in
  let '(host, port) :=
    match LastIndexByte ":" l with
    | Some i => if validOptionalPort (drop i l) then (take i l, drop (i + 1) l) else (l, [])
    | None => (l, [])
    end in
  (match host, rev host with
   | o :: _, c :: _ => if Ascii.eqb o "[" && Ascii.eqb c "]" then removelast (drop 1 host) else host
   | _, _ => host
   end, port).
Definition Hostname (u : URL) : string := of_bytes (url_split u).1.
Definition Port (u : URL) : string := of_bytes (url_split u).2.

(** [url.QueryUnescape] *)
Fixpoint unescape_bytes (l : list ascii) : option (list ascii) :=
  match l with
  | [] => Some []
  | c :: l' =>
      if Ascii.eqb c "%" then
        match l' with
        | a :: b :: l'' =>
            x ← hex_value a; y ← hex_value b; rest ← unescape_bytes l''; Some (chr (16 * x + y) :: rest)
        | _ => None
        end
      else rest ← unescape_bytes l'; Some ((if Ascii.eqb c "+" then " "%char else c) :: rest)
  end.
Definition QueryUnescape (s : string) : option string := of_bytes <$> unescape_bytes (bytes s).

(** [url.Values]: keys with their values, in the order of the query. *)
Definition parse_pair (part : string) : option (string * string) :=
  if Contains_byte part ";" || String.eqb part "" then None else
  let '(key, value) := default (part, "") (Cut part "=") in
  key ← QueryUnescape key; value ← QueryUnescape value; Some (key, value).
Definition url_Query (u : URL) : list (string * string) := omap parse_pair (Split (RawQuery u) "&").
Definition Values_Get (q : list (string * string)) (key : string) : string :=
  match List.find (λ kv, String.eqb kv.1 key) q with Some (_, v) => v | None => "" end.
Definition Values_Set (q : list (string * string)) (key value : string) : list (string * string) :=
  filter (λ kv, kv.1 ≠ key) q ++ [(key, value)].
Definition Values_Encode (q : list (string * string)) : string :=
  Join (sort_Strings (remove_dups q.*1) ≫= λ key,
    (λ kv, QueryEscape kv.1 +:+ "=" +:+ QueryEscape kv.2) <$> filter (λ kv, kv.1 = key) q) "&".

(** [strings.TrimLeft(path, /)] *)
Definition no_slash (path : string) : string := of_bytes (trim_bytes_left ["/"%char] (bytes path)).

Definition pgQuote (value : string) : string :=
  let value := ReplaceAll value "\" "\\" in
  let value := ReplaceAll value "'" "\'" in
  "'" +:+ value +:+ "'".
Definition pgconn (u : URL) : string :=
  let decodedQuery := default "" (QueryUnescape (RawQuery u)) in
  "host=" +:+ pgQuote (Hostname u) +:+ " port=" +:+ pgQuote (Port u) +:+ " user=" +:+ pgQuote (Username_ u) +:+
  " password=" +:+ pgQuote (Password_ u) +:+ " dbname=" +:+ pgQuote (no_slash (url_Path u)) +:+ " " +:+ decodedQuery.
Definition mysqlconn (u : URL) : string :=
  let query := url_Query u in
  let query := if String.eqb (Values_Get query "parseTime") "true" then query
               else Values_Set query "parseTime" "true" in
  Username_ u +:+ ":" +:+ Password_ u +:+ "@tcp(" +:+ url_Host u +:+ ")/" +:+ no_slash (url_Path u) +:+
  "?" +:+ Values_Encode query.

(** [filepath.Clean] and [path.Clean]: the elements that are left, the last one first. *)
Definition clean_element (rooted : bool) (out : list string) (element : string) : list string :=
  if String.eqb element "" || String.eqb element "." then out else
  if String.eqb element ".." then
    match out with
    | e :: out' => if String.eqb e ".." then ".." :: out else out'
    | [] => if rooted then [] else [".."]
    end
  else element :: out.
Definition Clean (path : string) : string :=
  if String.eqb path "" then "." else
  let rooted := HasPrefix path "/" in
  let elements := rev (fold_left (clean_element rooted) (Split path "/") []) in
  if rooted then "/" +:+ Join elements "/" else
  if bool_decide (elements = []) then "." else Join elements "/".
(** [filepath.Join] of two elements. *)
Definition filepath_Join (a b : string) : string :=
  match filter (λ s, s ≠ "") [a; b] with [] => "" | elements => Clean (Join elements "/") end.
Definition sqlite3conn (u : URL) : string := filepath_Join (url_Host u) (url_Path u).

(** ** web/router.go: the page of the web UI, or a file *)
Inductive Served := IndexPage | FileServer (upath : string).
(** [Open] says of a path whether it opens; the Boolean is [os.IsNotExist]. *)
Definition FileServerWith404 (Open : string → option bool) (path : string) : Served :=
  let upath := if negb (HasPrefix path "/") then "/" +:+ path else path in
  match Open (Clean upath) with
  | Some true => IndexPage
  | _ => FileServer upath
  end.

Inductive Backend := InMemory_ | SQL_ (sqlType connectionString : string).
Definition NewSqlStorage (u : URL) : result Backend :=
  let scheme := if String.eqb (Scheme u) "postgresql" then "postgres" else Scheme u in
  if String.eqb scheme "postgres" then Ok (SQL_ scheme (pgconn u)) else
  if String.eqb scheme "mysql" then Ok (SQL_ scheme (mysqlconn u)) else
  if String.eqb scheme "sqlite3" then Ok (SQL_ scheme (sqlite3conn u)) else
  Err (Panic ("unknown sql storage backend " +:+ scheme)).
(** [parsed]: what url.Parse says, the error without the URL in it. *)
Definition NewStorage (parsed : result URL) : result Backend :=
  let? u := wrap "error parsing storage uri" parsed in
  if String.eqb (Scheme u) "memory" then Ok InMemory_ else
  if bool_decide (Scheme u ∈ ["postgresql"; "postgres"; "mysql"; "sqlite3"]) then NewSqlStorage u else
  Err (PlainError ("unknown storage backend " +:+ Redacted u)).

Example pg_ex : pgconn (mkURL "postgres" (Some ("wg", Some "it's a \ secret")) "db.lan:5432" "/wg" "sslmode=disable" "") =
  "host='db.lan' port='5432' user='wg' password='it\'s a \\ secret' dbname='wg' sslmode=disable".
Proof. vm_compute. done. Qed.
Example mysql_ex : mysqlconn (mkURL "mysql" (Some ("wg", Some "p")) "db:3306" "/wg" "tls=true&parseTime=false&a=b+c" "") =
  "wg:p@tcp(db:3306)/wg?a=b+c&parseTime=true&tls=true".
Proof. vm_compute. done. Qed.
Example sqlite_ex : sqlite3conn (mkURL "sqlite3" None "" "/data//./db/../wg.db" "" "") = "/data/wg.db"
  ∧ sqlite3conn (mkURL "sqlite3" None "relative" "/x/../../../wg.db" "" "") = "../wg.db"
  ∧ Hostname (mkURL "" None "[::1]:5432" "" "" "") = "::1" ∧ Port (mkURL "" None "[::1]" "" "" "") = "".
Proof. vm_compute. done. Qed.

(** ** A reader of connection strings

    What libpq documents of its keyword/value strings: settings apart by blanks, a value in
    quotes as long as it takes, a backslash before a byte that stands for itself. *)
Definition conn_blanks : string := str [32; 9; 10; 11; 12; 13].
Fixpoint quoted_value (l : list ascii) : option (list ascii * list ascii) :=
  match l with
  | [] => None
  | c :: l' =>
      if Ascii.eqb c "'" then Some ([], l') else
      if Ascii.eqb c "\" then
        match l' with d :: l'' => '(value, rest) ← quoted_value l''; Some (d :: value, rest) | [] => None end
      else '(value, rest) ← quoted_value l'; Some (c :: value, rest)
  end.
Fixpoint plain_value (l : list ascii) : option (list ascii * list ascii) :=
  match l with
  | [] => Some ([], [])
  | c :: l' =>
      if has_byte c (bytes conn_blanks) then Some ([], l) else
      if Ascii.eqb c "\" then
        match l' with d :: l'' => '(value, rest) ← plain_value l''; Some (d :: value, rest) | [] => None end
      else '(value, rest) ← plain_value l'; Some (c :: value, rest)
  end.
Definition conn_setting (l : list ascii) : option ((string * string) * list ascii) :=
  '(key, after) ← cut_at ["="%char] l;
  let after := trim_bytes_left (bytes conn_blanks) after in
  '(value, rest) ← (match after with
                    | "'"%char :: quoted => quoted_value quoted
                    | _ => plain_value after
                    end);
  Some ((Trim (of_bytes key) conn_blanks, of_bytes value), rest).
(** The settings of [l], of which there are at most [n]. *)
Fixpoint conn_read (n : nat) (l : list ascii) : option (list (string * string)) :=
  match trim_bytes_left (bytes conn_blanks) l, n with
  | [], _ => Some []
  | _, O => None
  | l', Datatypes.S n => '(setting, rest) ← conn_setting l'; cons setting <$> conn_read n rest
  end.
Example conn_ex : conn_read 3 (bytes "host = db  password='a\'b \\ c' sslmode=disable") =
  Some [("host", "db"); ("password", "a'b \ c"); ("sslmode", "disable")] ∧ conn_read 3 (bytes "a='x") = None.
Proof. vm_compute. done. Qed.

(** What [pgQuote] makes of a byte. *)
Definition pg_escape (c : ascii) : list ascii :=
  if Ascii.eqb c "\" || Ascii.eqb c "'" then ["\"%char; c] else [c].
Lemma replace_byte f o new l : (List.length l <= f)%nat →
  replace_fuel f [o] new l = l ≫= λ c, if Ascii.eqb o c then new else [c].
Proof.
  revert f. induction l as [|c l IH]; intros [|f] Hf; simpl in *; try done; [lia|].
  destruct (Ascii.eqb o c); [|f_equal]; rewrite IH by lia; done.
Qed.
Lemma ReplaceAll_byte s o new :
  bytes (ReplaceAll s (String o "") new) = bytes s ≫= λ c, if Ascii.eqb o c then bytes new else [c].
Proof.
  unfold ReplaceAll. rewrite bytes_of_bytes. change (bytes (String o "")) with [o].
  apply replace_byte. by rewrite length_bytes.
Qed.
Lemma pgQuote_bytes value : bytes (pgQuote value) = "'"%char :: (bytes value ≫= pg_escape) ++ ["'"%char].
Proof.
  unfold pgQuote. rewrite !bytes_app, !ReplaceAll_byte. cbn [bytes app]. f_equal. f_equal.
  induction (bytes value) as [|c l IH]; [done|]. rewrite !bind_cons, bind_app, IH. f_equal. unfold pg_escape.
  destruct (Ascii.eqb_spec "\" c) as [<-|]; [reflexivity|]. rewrite bind_singleton.
  destruct (Ascii.eqb_spec "'" c) as [<-|]; [reflexivity|].
  by destruct (Ascii.eqb_spec c "\"), (Ascii.eqb_spec c "'"); subst.
Qed.
Lemma quoted_escaped l rest : quoted_value ((l ≫= pg_escape) ++ "'"%char :: rest) = Some (l, rest).
Proof.
  induction l as [|c l IH]; [done|]. cbn [mbind list_bind]. rewrite <- app_assoc. unfold pg_escape at 1.
  destruct (Ascii.eqb_spec c "\") as [->|]; [cbn; by rewrite IH|].
  destruct (Ascii.eqb_spec c "'") as [->|]; [cbn; by rewrite IH|]. cbn [orb app quoted_value].
  destruct (Ascii.eqb_spec c "'"), (Ascii.eqb_spec c "\"); try done. by rewrite IH.
Qed.

Lemma read_quoted key value rest : "="%char ∉ bytes key → Trim key conn_blanks = key →
  conn_setting (bytes key ++ "="%char :: bytes (pgQuote value) ++ rest) = Some ((key, value), rest).
Proof.
  intros Hkey Htrim. unfold conn_setting.
  assert (∀ l, cut_at ["="%char] (bytes key ++ "="%char :: l) = Some (bytes key, l)) as ->.
  { intros l. induction (bytes key) as [|c k IH]; [done|]. apply not_elem_of_cons in Hkey as [Hc Hk].
    cbn [app cut_at strip]. destruct (Ascii.eqb_spec "=" c) as [|_]; [done|]. by rewrite IH. }
  cbn [mbind option_bind]. rewrite pgQuote_bytes. cbn [app trim_bytes_left]. change (has_byte _ _) with false. cbv iota.
  rewrite <- app_assoc. cbn [app]. rewrite quoted_escaped. cbn [mbind option_bind].
  by rewrite !of_bytes_bytes, Htrim.
Qed.
Lemma trim_bytes_shorter set l : (List.length (trim_bytes_left set l) <= List.length l)%nat.
Proof. induction l as [|c l IH]; [done|]. cbn. case_match; cbn; lia. Qed.
Lemma read_next n key value rest : "="%char ∉ bytes key → Trim key conn_blanks = key → key ≠ "" →
  trim_bytes_left (bytes conn_blanks) (bytes key) = bytes key →
  conn_read (Datatypes.S n) (bytes key ++ "="%char :: bytes (pgQuote value) ++ rest) = cons (key, value) <$> conn_read n rest.
Proof.
  intros Hkey Htrim Hne Hleft. pose proof (read_quoted key value rest Hkey Htrim) as Hread. cbn [conn_read].
  destruct (bytes key) as [|c k] eqn:E; [by destruct key|]. cbn [app] in *. cbn [trim_bytes_left] in *.
  destruct (has_byte c (bytes conn_blanks)); [|by rewrite Hread].
  pose proof (trim_bytes_shorter (bytes conn_blanks) k) as Hl. rewrite Hleft in Hl. cbn in Hl. lia.
Qed.
Lemma conn_read_blank n l : conn_read n (" "%char :: l) = conn_read n l.
Proof. by destruct n. Qed.
(** The settings libpq reads in the connection string are the parts of the URL, whatever bytes are
    in them, and after them the ones of the query. *)
Theorem pgconn_reads_back u n : conn_read (5 + n) (bytes (pgconn u)) =
  app [("host", Hostname u); ("port", Port u); ("user", Username_ u); ("password", Password_ u);
       ("dbname", no_slash (url_Path u))] <$> conn_read n (bytes (default "" (QueryUnescape (RawQuery u)))).
Proof.
  unfold pgconn. rewrite !bytes_app. change (5 + n)%nat with (Datatypes.S (4 + n)).
  change (bytes "host=" ++ ?l) with (bytes "host" ++ "="%char :: l).
  change (bytes " port=" ++ ?l) with (" "%char :: bytes "port" ++ "="%char :: l).
  change (bytes " user=" ++ ?l) with (" "%char :: bytes "user" ++ "="%char :: l).
  change (bytes " password=" ++ ?l) with (" "%char :: bytes "password" ++ "="%char :: l).
  change (bytes " dbname=" ++ ?l) with (" "%char :: bytes "dbname" ++ "="%char :: l).
  change (bytes " " ++ ?l) with (" "%char :: l).
  rewrite read_next, conn_read_blank by (vm_compute; set_solver). cbn [Nat.add].
  do 4 rewrite read_next, conn_read_blank by (vm_compute; set_solver).
  by destruct (conn_read n _).
Qed.

(** ** Where the storage is *)
(** The backend is the one of the scheme, the panic of [NewSqlStorage] is never reached, and what is
    wrong with a URL of an unknown scheme tells only the form without the password. *)
Theorem NewStorage_correct parsed : match NewStorage parsed with
  | Ok InMemory_ => ∃ u, parsed = Ok u ∧ Scheme u = "memory"
  | Ok (SQL_ sqlType connection) => ∃ u, parsed = Ok u ∧
      ((Scheme u ∈ ["postgres"; "postgresql"] ∧ sqlType = "postgres" ∧ connection = pgconn u) ∨
       (Scheme u = "mysql" ∧ sqlType = "mysql" ∧ connection = mysqlconn u) ∨
       (Scheme u = "sqlite3" ∧ sqlType = "sqlite3" ∧ connection = sqlite3conn u))
  | Err e => (∃ e', parsed = Err e' ∧ e = WrappedError "error parsing storage uri" e') ∨
      ∃ u, parsed = Ok u ∧ Scheme u ∉ ["memory"; "postgres"; "postgresql"; "mysql"; "sqlite3"] ∧
        e = PlainError ("unknown storage backend " +:+ Redacted u)
  end.
Proof.
  unfold NewStorage, NewSqlStorage. destruct parsed as [u|e]; cbn [wrap rbind]; [|left; by eexists].
  destruct (String.eqb_spec (Scheme u) "memory") as [E|E]; [by exists u|].
  case_bool_decide as Hin; cycle 1; [right; exists u; split; [done|]; set_solver|].
  rewrite !elem_of_cons, elem_of_nil in Hin.
  destruct Hin as [E'|[E'|[E'|[E'|[]]]]]; rewrite E'; cbn; exists u; rewrite E'; set_solver.
Qed.

(** ** Responses *)
Definition security_headers (tls : bool) : gmap string string :=
  (if tls then <["Strict-Transport-Security" := "max-age=31536000"]> else id)
    (<["Content-Security-Policy" := contentSecurityPolicy]> (<["Referrer-Policy" := "no-referrer"]>
      (<["X-Frame-Options" := "DENY"]> (<["X-Content-Type-Options" := "nosniff"]> ∅)))).
(** A handler starts with the security headers set. When it panics, the client gets what it had sent,
    and otherwise status 500 with the trace; nothing of what it panicked with. *)
Theorem panics_are_caught {S} NewRandom tls (next : Handler S) s :
  wrapped NewRandom tls next (no_response, s) =
    (let '(r, (w, s')) := next (mkWriter (security_headers tls) None "", s) in
     (Ok tt, (match r with
              | Ok _ => w
              | Err _ => mkWriter (header w) (Some (default (500, header w) (sent w)))
                  (body w +:+ "server error" +:+ str [10] +:+ "trace = " +:+
                   TraceID (WithTraceID NewRandom None) +:+ str [10])
              end, s'))).
Proof.
  assert (SecurityHeadersMiddleware tls next (no_response, s) = next (mkWriter (security_headers tls) None "", s)) as E.
  { by destruct tls. }
  unfold wrapped, TracesMiddleware, RecoveryMiddleware, m_try, m_bind. rewrite E.
  destruct (next _) as [[[]|e] [w s']]; [done|]. reflexivity.
Qed.
(** The health check answers 200 exactly when the storage and the interface do, with the security
    headers, and tells nothing else. *)
Theorem health_check {S W} `{WireGuard W} NewRandom tls (storage_ping : M S unit) (d : DeviceManager S W) :
  wrapped NewRandom tls (HealthEndpoint storage_ping) (no_response, d) =
    (let '(r, d') := Ping storage_ping d in
     (Ok tt, (mkWriter (security_headers tls) (Some (if is_ok r then 200 else 500, security_headers tls))
                (if is_ok r then "ok" else "ping failed"), d'))).
Proof.
  rewrite panics_are_caught. unfold HealthEndpoint, zoom, m_try, m_bind. cbn [snd].
  destruct (Ping storage_ping d) as [[[]|e] d']; reflexivity.
Qed.

(** ** Paths *)
Definition plain_element (e : string) : Prop := e ≠ "" ∧ e ≠ "." ∧ e ≠ ".." ∧ "/"%char ∉ bytes e.
Lemma clean_elements l out : Forall (λ e, "/"%char ∉ bytes e) l → Forall plain_element out →
  Forall plain_element (fold_left (clean_element true) l out).
Proof.
  revert out. induction l as [|e l IH]; intros out Hl Ho; [done|]. apply Forall_cons in Hl as [He Hl].
  apply IH; [done|]. unfold clean_element.
  destruct (String.eqb_spec e ""), (String.eqb_spec e "."); cbn [orb]; try done.
  destruct (String.eqb_spec e ".."); [|by constructor]. destruct out as [|o out]; [done|].
  apply Forall_cons in Ho as [Ho Hout]. destruct (String.eqb_spec o "..") as [->|]; [by destruct Ho as (_ & _ & ? & _)|done].
Qed.
(** The path the web UI opens stays under its directory: it starts with a slash and no element
    of it is empty, the directory itself or the one above. *)
Theorem opens_below_root Open path : ∃ elements, Forall plain_element elements ∧
  FileServerWith404 Open path =
    (match Open ("/" +:+ Join elements "/") with
     | Some true => IndexPage
     | _ => FileServer (if HasPrefix path "/" then path else "/" +:+ path)
     end).
Proof.
  set (upath := if HasPrefix path "/" then path else "/" +:+ path).
  assert (HasPrefix upath "/" = true) as Hp.
  { unfold upath. destruct (HasPrefix path "/") eqn:E; [done|]. by destruct path. }
  exists (rev (fold_left (clean_element true) (Split upath "/") [])). split.
  { apply Forall_rev. apply clean_elements; [|done]. unfold Split. apply Forall_fmap.
    eapply Forall_impl; [apply (split_bytes_parts "/"); apply not_elem_of_nil|].
    intros l Hl. cbn. by rewrite bytes_of_bytes. }
  unfold FileServerWith404. replace (if negb (HasPrefix path "/") then _ else path) with upath by (unfold upath; by destruct (HasPrefix path "/")).
  unfold Clean. rewrite Hp. destruct upath; [done|]. reflexivity.
Qed.

(** ** The certificate *)
Lemma dedup_spec seen values : NoDup (dedup_from seen values) ∧
  ∀ v, v ∈ dedup_from seen values ↔ v ∈ values ∧ v ≠ "" ∧ v ∉ seen.
Proof.
  revert seen. induction values as [|x values IH]; intros seen; cbn [dedup_from]; [split; [constructor|set_solver]|].
  destruct (String.eqb_spec x "") as [->|Hx]; cbn [orb]; [destruct (IH seen); set_solver|].
  case_bool_decide as Hs; [destruct (IH seen); set_solver|]. destruct (IH (x :: seen)) as [Hn Hin]. split.
  - constructor; [|done]. rewrite Hin. set_solver.
  - intros v. rewrite elem_of_cons, Hin. destruct (decide (v = x)) as [->|]; set_solver.
Qed.
Lemma add_hosts hosts ips names :
  fold_left add_host hosts (ips, names) = (ips ++ omap ParseIP hosts, names ++ filter (λ h, ParseIP h = None) hosts).
Proof.
  revert ips names. induction hosts as [|h hosts IH]; intros ips names; cbn [fold_left]; [by rewrite !app_nil_r|].
  rewrite filter_cons. unfold add_host at 2. cbn [omap list_omap fst snd].
  destruct (ParseIP h) as [ip|]; rewrite IH; case_decide; try done; by rewrite <- ?app_assoc.
Qed.
(** A generated certificate is for this host, for its addresses except link-local ones and for the
    external host, each of them once; the addresses among them are in it as addresses, the rest as names. *)
Theorem certificate_hosts externalHost addrs serial now until :
  let hosts := CertHosts externalHost (Ok addrs) in
  NoDup hosts ∧
  (∀ h, h ∈ hosts ↔ h ≠ "" ∧ (h ∈ ["localhost"; "127.0.0.1"; "::1"] ∨ h = hostFromExternalHost externalHost ∨
     ∃ a, Some a ∈ addrs ∧ IsLinkLocalUnicast (Unmap a) = false ∧ h = AddrString (Unmap a))) ∧
  template serial now until hosts =
    new_template serial now until (omap ParseIP hosts) (filter (λ h, ParseIP h = None) hosts).
Proof.
  cbn zeta. split_and!; [apply dedup_spec| |unfold template; by rewrite add_hosts]. intros h. unfold CertHosts, deduplicate.
  destruct (dedup_spec [] (["localhost"; "127.0.0.1"; "::1"] ++
    (if negb (String.eqb (hostFromExternalHost externalHost) "") then [hostFromExternalHost externalHost] else []) ++
    omap (λ addr, match addr with
                  | Some a => if IsLinkLocalUnicast (Unmap a) then None else Some (AddrString (Unmap a))
                  | None => None
                  end) addrs)) as [_ Hin].
  rewrite Hin, !elem_of_app, list_elem_of_omap. clear Hin.
  destruct (String.eqb_spec (hostFromExternalHost externalHost) "") as [E|E]; cbn [negb].
  all: split; [intros ([Hl|[He|([a|] & Ha & Ea)]] & Hne & _); (split; [done|])|intros (Hne & [Hl|[He|(a & Ha & Hk & Ea)]]); (split; [|set_solver])].
  all: try (by left).
  all: try (by destruct (IsLinkLocalUnicast (Unmap a)) eqn:Hk; [done|injection Ea as <-; right; right; exists a]).
  all: try (right; right; exists (Some a); split; [done|]; by rewrite Hk, Ea).
  all: try (by rewrite elem_of_nil in He).
  - by rewrite He in Hne.
  - rewrite list_elem_of_singleton in He. by right; left.
  - right; left. by apply list_elem_of_singleton.
Qed.
(** Files that are there are loaded and not written. *)
Theorem certificate_kept {F K C} `{Certificates F K C} now until cert key hosts f :
  not_exist cert f = false → not_exist key f = false →
  LoadTLSCert now until cert key hosts f = m_wrap "failed to load TLS certificate" (LoadX509KeyPair cert key) f.
Proof. intros Hc Hk. unfold LoadTLSCert, m_gets, m_bind. by rewrite Hc, Hk. Qed.

(** ** Nameservers *)
(** What is listed as a nameserver is the text of an address, and without a zone reads back as it. *)
Theorem nameservers_are_addresses content s : s ∈ parseNameservers content →
  ∃ a, s = AddrString a ∧ (hasZone a = false → ParseAddr s = Some a).
Proof.
  intros (line & _ & E)%list_elem_of_omap. unfold nameserver_of in E. destruct (Fields line) as [|f [|field l]]; [done|by repeat case_match|].
  destruct (HasPrefix f "#" || HasPrefix f ";"); [done|]. destruct (negb _); [done|].
  destruct (ParseAddr field) as [a|] eqn:Ep; [|done]. injection E as <-. exists a. split; [done|]. intros Hz.
  apply ParseAddr_wf in Ep as [Hw Hv]. by apply ParseAddr_AddrString.
Qed.
(** A server that has addresses of some family to give always has a nameserver to ask. *)
Theorem some_upstream read_file v4 v6 : v4 || v6 = true → detectDNSUpstream read_file v4 v6 ≠ [].
Proof. unfold detectDNSUpstream. intros Hf. case_bool_decide as E; [|done]. rewrite E. by destruct v4, v6. Qed.

(** ** The secret of the cookies *)
Lemma hex_char_value d : 0 <= d < 16 → hex_value (hex_char d) = Some d.
Proof.
  intros Hd. assert (d ∈ seqZ 0 16) as Hin by (apply elem_of_seqZ; lia). revert d Hd Hin.
  assert (Forall (λ d, hex_value (hex_char d) = Some d) (seqZ 0 16)) as Hall
    by (refine (proj1 (bool_decide_eq_true _) _); vm_compute; reflexivity).
  intros d _ Hin. by apply (proj1 (Forall_forall _ _) Hall).
Qed.
(** What is encoded is decoded. *)
Lemma hex_roundtrip l : Forall (λ b, 0 <= b < 256) l → hex_DecodeString (hex_EncodeToString l) = Ok l.
Proof.
  intros Hl. unfold hex_DecodeString, hex_EncodeToString. rewrite bytes_of_bytes.
  assert (hex_decode (l ≫= λ b, [hex_char (b / 16); hex_char (b mod 16)]) = Some l) as ->; [|done].
  induction Hl as [|b l Hb _ IH]; [done|]. rewrite bind_cons. cbn [app hex_decode].
  rewrite !hex_char_value by (split; [|]; (apply Z.div_pos || apply Z.mod_pos_bound || apply Z.div_lt_upper_bound); lia).
  cbn [mbind option_bind]. rewrite IH. cbn [mbind option_bind]. do 2 f_equal. pose proof (Z.div_mod b 16). lia.
Qed.
Lemma register_all_ok {P : Type} (register : P → option (result unit)) providers :
  register_all register providers = Ok tt ↔ Forall (λ p, ∀ e, register p ≠ Some (Err e)) providers.
Proof.
  induction providers as [|p providers IH]; cbn [register_all]; [by split|]. rewrite Forall_cons.
  destruct (register p) as [[[]|e]|]; cbn [default from_option rbind]; rewrite <- ?IH; naive_solver.
Qed.
(** A server that starts signs its cookies with the 32 bytes the operator wrote down, or with a random string when
    there are none; scripts do not see the cookies, other sites do not send them along; and every provider is registered. *)
Theorem cookie_store {P : Type} `{UnicodeTables} config random parsed (register : P → option (result unit)) providers
    secret options others :
  auth_New config random parsed register providers = Ok (secret, options, others) →
  (let configured := match config with Some c => Secret_ c | None => "" end in
   if String.eqb configured "" then secret = string_bytes (RandomString random)
   else hex_DecodeString configured = Ok secret ∧ List.length secret = 32%nat) ∧
  HttpOnly options = true ∧ SameSiteLax options = true ∧ Secure options = match config with Some c => Secure_ c | None => false end ∧
  others = (1 <? List.length providers)%nat ∧ Forall (λ p, ∀ e, register p ≠ Some (Err e)) providers.
Proof.
  unfold auth_New, storeSecret. set (configured := match config with Some c => Secret_ c | None => "" end). intros E.
  destruct (String.eqb configured "") eqn:Ec; cbn [rbind] in E.
  - destruct (sessionMaxAge _ _); cbn [rbind] in E; [|done]. destruct (register_all _ _) as [[]|] eqn:Er; [|done].
    injection E as <- <- <-. by apply register_all_ok in Er.
  - destruct (hex_DecodeString configured) as [l|]; cbn [rbind] in E; [|done].
    destruct (Nat.eqb_spec (List.length l) 32) as [El|]; cbn [negb rbind] in E; [|done].
    destruct (sessionMaxAge _ _); cbn [rbind] in E; [|done]. destruct (register_all _ _) as [[]|] eqn:Er; [|done].
    injection E as <- <- <-. by apply register_all_ok in Er.
Qed.
