(* ===== verification/Toys.v ===== *)
(** * Small implementations of what the program only calls

    Concrete functions for the classes that stand for third-party code: the
    witnesses run the program on them. None of them claims to be the real thing;
    they show that what the classes promise can be kept. *)
From S2P Require Import Prelude GoText GoNet Network Encoding TextFacts Storage GoQuote.
From S2P Require Import Json Totp Passkeys Passwords TwoFactor Dns DnsProxy Oidc Github.
From S2P Require Import SqlStorage SqlLaws.

#[export] Instance tables : UnicodeTables := {| is_print _ := true |}.
#[export] Instance same_upper : UpperTable := {| upper_rune := λ r, r |}.
#[export, refine] Instance plain_hashing : PasswordHashing := {|
  CompareHashAndPassword hash password := String.eqb hash ("h" +:+ password);
  GenerateFromPassword password := Ok ("h" +:+ password);
  Matches := String.eqb |}.
Proof.
  - intros password hash [= <-]. apply String.eqb_refl.
  - intros password hash [= <-]. done.
Defined.
(** A credential is its id and the warning; an answer names the credential. *)
#[export, refine] Instance toy_library : WebAuthn := {|
  Credential := string * bool;
  Credential_ID c := string_bytes c.1;
  CloneWarning c := c.2;
  set_CloneWarning b c := (c.1, b);
  marshal_Credential c := Ok c.1;
  unmarshal_Credential data := Some (data, false);
  CredentialDescriptor := string;
  Descriptor c := c.1;
  SessionData := string;
  marshal_SessionData session := Ok session;
  unmarshal_SessionData data := Some data;
  CreationOptions := string;
  marshal_CreationOptions options := Ok options;
  AssertionOptions := string;
  marshal_AssertionOptions options := Ok options;
  CreationData := string;
  ParseCredentialCreationResponseBytes answer := Ok answer;
  AssertionData := string;
  ParseCredentialRequestResponseBytes answer := Ok answer;
  webauthn_New _ := Ok tt;
  lib_BeginRegistration _ _ _ random := Ok ("make", "challenge " +:+ str random);
  lib_CreateCredential _ _ _ parsed := Ok (parsed, false);
  lib_BeginLogin _ _ random := Ok ("prove", "challenge " +:+ str random);
  lib_ValidateLogin _ user _ parsed :=
    match List.find (λ c, String.eqb c.1 parsed) (WebAuthnCredentials user) with
    | Some c => Ok c
    | None => Err (PlainError "unknown credential")
    end |}.
Proof.
  - intros rp user session parsed c Hc. cbn in Hc. destruct (List.find _ _) as [d|] eqn:Ef; [|done]. injection Hc as <-.
    exists d. split; [|done]. apply find_some in Ef as [Hin _]. by apply list_elem_of_In.
  - intros c data [= <-]. by exists (c.1, false).
  - done.
Defined.

(** ** A DNS library

    Records that are their fields, one upstream server that answers and all others out of
    reach. *)
#[export] Instance same_lower : LowerTable := {| lower_rune := λ r, r |}.

Inductive toy_rr :=
  | toy_record (name : string) (ttl type : Z) (data : string)
  | toy_opt (o : OPT).
Definition toy_type (s : string) : Z :=
  if String.eqb s "A" then TypeA else if String.eqb s "AAAA" then TypeAAAA else TypeCNAME.
Definition toy_parse (s : string) : result toy_rr :=
  match Split s " " with
  | [name; ttl; _; type; data] => Ok (toy_record name (default 0 (Atoi ttl)) (toy_type type) data)
  | _ => Err (PlainError "dns: bad record")
  end.

Definition with_Extra {RR} (l : list RR) (m : Msg RR) : Msg RR :=
  mkMsg (Id m) (Opcode m) (Authoritative m) (Truncated m) (AuthenticatedData m) (CheckingDisabled m) (Rcode m)
    (DQuestion m) (Answer m) (Ns m) l.
Definition reply_to {RR} (m r : Msg RR) (rcode : Z) : Msg RR :=
  mkMsg (Id r) (Opcode r) (Authoritative m) (Truncated m) (AuthenticatedData m) (CheckingDisabled r) rcode
    (take 1 (DQuestion r)) (Answer m) (Ns m) (Extra m).
Fixpoint find_opt (l : list toy_rr) : option OPT :=
  match l with
  | [] => None
  | toy_opt o :: _ => Some o
  | _ :: l => find_opt l
  end.
Fixpoint put_opt (o : OPT) (l : list toy_rr) : list toy_rr :=
  match l with
  | [] => []
  | toy_opt _ :: l => toy_opt o :: l
  | rr :: l => rr :: put_opt o l
  end.
Lemma find_put o o' l : find_opt l = Some o → find_opt (put_opt o' l) = Some o'.
Proof. by induction l as [|[] l IH]. Qed.
Lemma find_end o l : find_opt l = None → find_opt (l ++ [toy_opt o]) = Some o.
Proof. by induction l as [|[] l IH]. Qed.

Definition toy_split (s : string) : list string :=
  if String.eqb s "" || String.eqb s "." then []
  else Split (of_bytes (take (String.length s - 1) (bytes s))) ".".
Lemma toy_split_labels l : l ≠ [] → Forall (λ x, plain_label x = true) l → toy_split (Join l "." +:+ ".") = l.
Proof.
  intros Hne Hl.
  assert (Forall (λ s, "."%char ∉ bytes s) l) as Hd.
  { eapply Forall_impl; [exact Hl|]. intros s Hs Hin. unfold plain_label in Hs. rewrite !andb_true_iff in Hs.
    destruct Hs as [[_ Hs] _]. apply negb_true_iff in Hs. unfold Contains_byte in Hs.
    assert (existsb (Ascii.eqb ".") (bytes s) = true) as Hx; [|congruence].
    apply existsb_exists. exists "."%char. by rewrite <- list_elem_of_In, Ascii.eqb_refl. }
  assert (Join l "." ≠ "") as Hj.
  { destruct l as [|x [|y l]]; [done|..]; apply Forall_cons in Hl as [Hx _]; by destruct x. }
  unfold toy_split. rewrite (proj2 (String.eqb_neq (Join l "." +:+ ".") "")) by (by destruct (Join l ".")).
  rewrite (proj2 (String.eqb_neq (Join l "." +:+ ".") ".")).
  2: { intros E. apply Hj. apply (f_equal bytes) in E. rewrite bytes_app in E. apply bytes_inj.
    by apply (app_inj_tail (bytes (Join l ".")) []) in E as [? _]. }
  simpl. rewrite <- length_bytes, bytes_app, length_app. simpl. rewrite Nat.add_sub, take_app_length, of_bytes_bytes.
  by apply Split_Join_byte.
Qed.

#[export, refine] Instance toy_dns : DNSLib toy_rr := {|
  Rrtype rr := match rr with toy_record _ _ t _ => t | toy_opt _ => TypeOPT end;
  Ttl rr := match rr with toy_record _ ttl _ _ => ttl mod 2 ^ 32 | toy_opt _ => 0 end;
  NewRR := toy_parse;
  SplitDomainName := toy_split;
  Fqdn s := if HasSuffix s "." then s else s +:+ ".";
  SetReply m r := reply_to m r RcodeSuccess;
  SetRcode := reply_to;
  IsEdns0 m := find_opt (Extra m);
  with_OPT o m := with_Extra (put_opt o (Extra m)) m;
  SetEdns0 size do_ m := with_Extra (Extra m ++ [toy_opt (mkOPT [] do_ size)]) m;
  Truncate size m := m |}.
Proof.
  - intros [name ttl type data|o]; [apply Z.mod_pos_bound|]; lia.
  - done.
  - apply toy_split_labels.
  - done.
  - done.
  - done.
  - intros o o' m E. simpl. split; [by apply (find_put o)|done].
  - intros size do_ m E. simpl. eexists. split; [by apply find_end|done].
  - done.
Defined.

(** Five seconds without an answer, or a thousandth of one. *)
Definition toy_answer (m : Msg toy_rr) : Msg toy_rr :=
  reply_to (mkMsg 0 0 false false false false 0 []
    [toy_record (match DQuestion m with q :: _ => q_Name q | [] => "" end) 60 TypeA "203.0.113.7"] [] []) m RcodeSuccess.
#[export, refine] Instance toy_exchanges : Exchanges toy_rr := {|
  udp_Exchange target m t :=
    if String.eqb target "192.0.2.53:53" then (Ok (toy_answer m), t + 10 ^ 6)
    else (Err (PlainError "i/o timeout"), t + 5 * 10 ^ 9);
  tcp_Exchange target m t := (Err (PlainError "i/o timeout"), t + 5 * 10 ^ 9) |}.
Proof.
  - intros target m t. destruct (String.eqb _ _); simpl; lia.
  - intros target m t. simpl. lia.
Defined.

(** ** Identity providers

    A token is the code it was redeemed for, the person is the one it names. *)
#[export] Instance same_fold_table : FoldTable := {| fold_other r := r |}.
(** A rule is the claim that has to be true. *)
#[export] Instance toy_rules : Rules string :=
  {| Evaluate rule claims := Ok (RBool (match claims !! rule with Some (JBool b) => b | _ => false end)) |}.
#[export] Instance toy_oauth : OAuth := {|
  Token := string;
  AuthCodeURL config state _ := (oa_Endpoint config).1 +:+ "?state=" +:+ state;
  Exchange _ code _ := if String.eqb code "" then Err (PlainError "no code") else Ok code |}.
Definition toy_claims (name : string) : OIDCClaims :=
  {[ "sub" := JString name; "name" := JString (" " +:+ name); "email" := JString (name +:+ "@Corp.example");
     "email_verified" := JBool true; "staff" := JBool true ]}.
#[export] Instance toy_service : OIDCLibrary := {|
  ServiceProvider := unit;
  NewProvider _ := Ok tt;
  Endpoint _ := ("https://id.example/auth", "https://id.example/token");
  CodeChallengeMethods _ := Ok ["S256"];
  UserInfo _ _ token := Ok (JString token);
  info_Claims info := match info with JString name => Ok (toy_claims name) | _ => Err (PlainError "no claims") end;
  id_token token := Some token;
  IDToken := string;
  Verify _ _ raw := Ok raw;
  token_Nonce _ := "";
  token_Claims name := Ok (toy_claims name) |}.
(** A body is what it decodes to; everybody is in one team and in one organization. *)
#[export] Instance toy_api : GithubAPI := {|
  Do token url := if HasSuffix url "/user/memberships/orgs/corp" || HasSuffix url "/user" ||
                     HasPrefix url "https://api.github.com/user/teams?"
                  then Ok (200, token) else Ok (404, "");
  decode_account body := Ok (mkAccount 42 body "");
  decode_state _ := Ok "active";
  decode_teams _ := Ok [mkTeam "ops" "Corp"];
  decode_emails _ := Ok [] |}.
#[export] Instance toy_urls : URLs := {| url_Parse url := if String.eqb url "" then Err (PlainError "empty url") else Ok ("https", url) |}.

(** ** A database

    Five lists of rows; a statement that would break a key, a unique index or the
    width of a counter fails. [counts_matches] is what a database counts as an
    affected row. *)
Inductive toy_db := mkToyDB {
  toy_devices : list Device;
  toy_users : list User;
  toy_sessions : list Session;
  toy_tokens : list APIToken;
  toy_passkeys : list Passkey;
  toy_saved : option toy_db }.
Definition toy_empty : toy_db := mkToyDB [] [] [] [] [] None.
Definition toy_rows {T} (t : Table T) (d : toy_db) : list T :=
  match t in Table T return list T with
  | DevicesTable => toy_devices d | UsersTable => toy_users d | SessionsTable => toy_sessions d
  | TokensTable => toy_tokens d | PasskeysTable => toy_passkeys d
  end.
Definition toy_put {T} (t : Table T) (l : list T) (d : toy_db) : toy_db :=
  match t in Table T return list T → toy_db with
  | DevicesTable => λ l, mkToyDB l (toy_users d) (toy_sessions d) (toy_tokens d) (toy_passkeys d) (toy_saved d)
  | UsersTable => λ l, mkToyDB (toy_devices d) l (toy_sessions d) (toy_tokens d) (toy_passkeys d) (toy_saved d)
  | SessionsTable => λ l, mkToyDB (toy_devices d) (toy_users d) l (toy_tokens d) (toy_passkeys d) (toy_saved d)
  | TokensTable => λ l, mkToyDB (toy_devices d) (toy_users d) (toy_sessions d) l (toy_passkeys d) (toy_saved d)
  | PasskeysTable => λ l, mkToyDB (toy_devices d) (toy_users d) (toy_sessions d) (toy_tokens d) l (toy_saved d)
  end l.
Definition toy_save (saved : option toy_db) (d : toy_db) : toy_db :=
  mkToyDB (toy_devices d) (toy_users d) (toy_sessions d) (toy_tokens d) (toy_passkeys d) saved.
Definition toy_fits {T} (t : Table T) (l : list T) : Prop :=
  NoDup (primaryKey t <$> l) ∧ NoDup (omap (uniqueIndex t) l) ∧ Forall (storable t) l.
Definition fits_columns {T} (t : Table T) : T → bool :=
  match t with
  | DevicesTable => λ x, bool_decide (- 2 ^ 63 <= Device.ReceiveBytes x < 2 ^ 63) &&
                         bool_decide (- 2 ^ 63 <= Device.TransmitBytes x < 2 ^ 63)
  | _ => λ _, true
  end.
Lemma fits_columns_iff {T} (t : Table T) x : fits_columns t x = true ↔ storable t x.
Proof. destruct t; cbn; try done. by rewrite andb_true_iff, !bool_decide_eq_true. Qed.
#[export] Instance storable_dec {T} (t : Table T) x : Decision (storable t x).
Proof.
  destruct (fits_columns t x) eqn:E; [left|right]; rewrite <- fits_columns_iff; [done|by rewrite E].
Defined.
Definition toy_ok (d : toy_db) : Prop := ∀ T (t : Table T), toy_fits t (toy_rows t d).
Definition toy_error : goerror := PlainError "constraint failed".
Definition toy_write {T A} (t : Table T) (f : list T → option (A * list T)) : M toy_db A := λ d,
  match f (toy_rows t d) with
  | Some (a, l) => if bool_decide (toy_fits t l) then (Ok a, toy_put t l d) else (Err toy_error, d)
  | None => (Err toy_error, d)
  end.
Definition toy_where {T} (P : T → bool) : list T → list T := filter (λ x, P x = true).
#[local] Existing Instances Device.eq_dec User.eq_dec Session.eq_dec APIToken.eq_dec Passkey.eq_dec.
Definition row_eqb {T} (t : Table T) (x y : T) : bool :=
  match t in Table T return T → T → bool with
  | DevicesTable => λ x y, bool_decide (x = y) | UsersTable => λ x y, bool_decide (x = y)
  | SessionsTable => λ x y, bool_decide (x = y) | TokensTable => λ x y, bool_decide (x = y)
  | PasskeysTable => λ x y, bool_decide (x = y)
  end x y.
Definition with_key {T} (t : Table T) (x y : T) : bool := bool_decide (primaryKey t y = primaryKey t x).
(** The rows an update counts. *)
Definition toy_counts {T} (counts_matches : bool) (t : Table T) (P : T → bool) (columns : T → option T) (x : T) : bool :=
  P x && (counts_matches || match columns x with Some y => negb (row_eqb t x y) | None => true end).
Definition toy_update {T} (counts_matches : bool) (t : Table T) (P : T → bool) (columns : T → option T)
    (l : list T) : option (Z * list T) :=
  if forallb (λ x, negb (P x) || bool_decide (columns x ≠ None)) l
  then Some (Z.of_nat (List.length (toy_where (toy_counts counts_matches t P columns) l)),
             (λ x, if P x then default x (columns x) else x) <$> l)
  else None.
Definition toy_read {T A} (t : Table T) (f : list T → result A) : M toy_db A := λ d, (f (toy_rows t d), d).
Definition in_order {T} (column : T → Z) (desc : bool) (x y : T) : Prop :=
  if desc then column y <= column x else column x <= column y.
#[export] Instance in_order_dec {T} (column : T → Z) desc x y : Decision (in_order column desc x y).
Proof. unfold in_order. destruct desc; apply _. Defined.
Definition toy_sort {T} (column : T → Z) (desc : bool) : list T → list T := merge_sort (in_order column desc).
Definition toy_plus (a b : Z) : option Z :=
  if bool_decide (- 2 ^ 63 <= a + b < 2 ^ 63) then Some (a + b) else None.
Definition toy_tx {A} (fn : M toy_db A) : M toy_db A := λ d,
  match fn d with (Ok a, d') => (Ok a, d') | (Err e, _) => (Err e, d) end.

Definition toy_gorm (counts_matches : bool) : Gorm toy_db := {|
  gorm_Count T t P := toy_read t (λ l, Ok (Z.of_nat (List.length (toy_where P l))));
  gorm_Find T t P := toy_read t (λ l, Ok (toy_where P l));
  gorm_FindOrdered T t P column desc := toy_read t (λ l, Ok (toy_sort column desc (toy_where P l)));
  gorm_First T t P := toy_read t (λ l,
    match toy_where P l with x :: _ => Ok x | [] => Err (SentinelError ErrRecordNotFound) end);
  gorm_Create T t x := toy_write t (λ l, Some (tt, x :: l));
  gorm_CreateOrAssign T t x assign := toy_write t (λ l, Some (tt,
    if bool_decide (primaryKey t x ∈ primaryKey t <$> l)
    then (λ y, if bool_decide (primaryKey t y = primaryKey t x) then assign y else y) <$> l else x :: l));
  gorm_CreateOrNothing T t x := toy_write t (λ l, Some
    (if bool_decide (primaryKey t x ∈ primaryKey t <$> l) then (0, l) else (1, x :: l)));
  gorm_Updates T t x := toy_write t (λ l, Some (tt,
    (λ y, if bool_decide (primaryKey t y = primaryKey t x) then x else y) <$> l));
  gorm_UpdateColumns T t P columns := toy_write t (toy_update counts_matches t P columns);
  gorm_DeleteWhere T t P := toy_write t (λ l, Some
    (Z.of_nat (List.length (toy_where P l)), filter (λ x, P x = false) l));
  gorm_Delete T t x := toy_write t (λ l, Some (tt, filter (λ y, primaryKey t y ≠ primaryKey t x) l));
  gorm_Transaction A fn := toy_tx fn;
  gorm_Begin := λ d, (Ok tt, toy_save (Some d) d);
  gorm_Commit := λ d, (Ok tt, toy_save None d);
  gorm_Rollback := λ d, (Ok tt, default d (toy_saved d));
  sql_plus := toy_plus;
  db_lock _ := m_ret tt |}.

Section toy_database.
  Context (counts_matches : bool).
#[local] Instance the_toy : Gorm toy_db := toy_gorm counts_matches.
  Notation t_rows := (λ T (t : Table T), toy_rows t).

Lemma toy_reads {T A} (t : Table T) (f : list T → result A) P : (∀ l, P l (f l)) →
  reads_rows t_rows toy_ok t (toy_read t f) P.
Proof. intros HP d r d' _ [= <- <-]. by split. Qed.
Lemma toy_rows_put {T} (t : Table T) l d : toy_rows t (toy_put t l d) = l.
Proof. by destruct t. Qed.
Lemma toy_rows_put_ne {T T'} (t : Table T) (t' : Table T') l d : TableName t' ≠ TableName t →
  toy_rows t' (toy_put t l d) = toy_rows t' d.
Proof. by destruct t, t'. Qed.
Lemma toy_put_ok {T} (t : Table T) l d : toy_ok d → toy_fits t l → toy_ok (toy_put t l d).
Proof.
  intros Hd Hl T' t'.
  destruct t, t'; first [exact Hl | exact (Hd _ DevicesTable) | exact (Hd _ UsersTable)
    | exact (Hd _ SessionsTable) | exact (Hd _ TokensTable) | exact (Hd _ PasskeysTable)].
Qed.
Lemma toy_untouched d : toy_ok d → untouched t_rows toy_ok toy_saved d d.
Proof. intros Hd. split; [done|]. split; [done|]. by intros T t. Qed.
Lemma toy_writes {T A} (t : Table T) (f : list T → option (A * list T)) P :
  (∀ l a l', f l = Some (a, l') → P l a l') →
  statement t_rows toy_ok toy_saved t (toy_write t f) P.
Proof.
  intros HP d r d' Hd E. unfold toy_write in E.
  destruct (f (toy_rows t d)) as [[a l]|] eqn:Ef; [|injection E as <- <-; by apply toy_untouched].
  case_bool_decide as Hl; injection E as <- <-; [|by apply toy_untouched].
  exists l. split; [by apply HP|]. split; [by apply toy_put_ok|]. split; [by destruct t|]. split.
  - by rewrite toy_rows_put.
  - intros T' t' Hne. by rewrite toy_rows_put_ne.
Qed.
Lemma row_eqb_iff {T} (t : Table T) x y : row_eqb t x y = true ↔ x = y.
Proof. destruct t; apply bool_decide_eq_true. Qed.
Lemma toy_update_spec {T} (t : Table T) P columns l n l' : toy_update counts_matches t P columns l = Some (n, l') →
  (∀ x, x ∈ l → P x = true → columns x ≠ None) ∧
  l' = (λ x, if P x then default x (columns x) else x) <$> l ∧
  (n = 0 ↔ ∀ x, x ∈ l → P x = true → counts_matches = false ∧ columns x = Some x).
Proof.
  unfold toy_update. destruct (forallb _ l) eqn:Ef; [|done]. intros [= <- <-].
  rewrite forallb_forall in Ef. split; [|split; [done|]].
  { intros x Hx HP. apply list_elem_of_In, Ef in Hx. rewrite HP in Hx. by apply bool_decide_eq_true in Hx. }
  unfold toy_where. split.
  - intros Hn x Hx HP. destruct (toy_counts counts_matches t P columns x) eqn:Ec.
    + assert (x ∈ filter (λ x, toy_counts counts_matches t P columns x = true) l) as Hf by by apply list_elem_of_filter.
      destruct (filter _ l); [by apply not_elem_of_nil in Hf|done].
    + unfold toy_counts in Ec. rewrite HP in Ec. apply orb_false_iff in Ec as [-> Ec].
      destruct (columns x) as [y|]; [|done]. apply negb_false_iff, row_eqb_iff in Ec as ->. done.
  - intros Hall. destruct (filter _ l) as [|x l'] eqn:E; [done|].
    assert (x ∈ filter (λ x, toy_counts counts_matches t P columns x = true) l) as [Hc Hx]%list_elem_of_filter
      by (rewrite E; left).
    unfold toy_counts in Hc. apply andb_true_iff in Hc as [HP Hc]. destruct (Hall x Hx HP) as [Hm Hcol].
    rewrite Hm, Hcol, (proj2 (row_eqb_iff t x x) eq_refl) in Hc. done.
Qed.
#[local] Instance sort_total {T} (column : T → Z) (desc : bool) : Total (in_order column desc).
Proof. intros x y. unfold in_order. destruct desc; lia. Qed.
Lemma toy_first {T} (t : Table T) P : reads_rows t_rows toy_ok t (gorm_First t P)
  (λ l r, match r with
          | Ok x => x ∈ l ∧ P x = true
          | Err e => db_error e ∧ (error_is e ErrRecordNotFound = true → ∀ x, x ∈ l → P x = false)
          end).
Proof.
  apply toy_reads. intros l. unfold toy_where. destruct (filter (λ x, P x = true) l) as [|x l'] eqn:E.
  - split; [intros s Hs; apply bool_decide_eq_false; congruence|]. intros _ x Hx. destruct (P x) eqn:HP; [|done]. exfalso.
    apply (not_elem_of_nil x). rewrite <- E. by apply list_elem_of_filter.
  - assert (x ∈ filter (λ x, P x = true) l) as [? ?]%list_elem_of_filter by (rewrite E; left). done.
Qed.

#[local, refine] Instance toy_gorm_laws : GormLaws toy_db := {|
  rows T t := toy_rows t; db_ok := toy_ok; saved := toy_saved; found_rows := counts_matches |}.
Proof.
  - intros T t d Hd. apply Hd.
  - intros T t d Hd. apply Hd.
  - intros T t d Hd. apply Hd.
  - intros T t P. by apply toy_reads.
  - intros T t P. apply toy_reads. intros l. cbn. reflexivity.
  - intros T t P column desc. apply toy_reads. intros l. cbn. split; [apply merge_sort_Permutation|].
    apply (Sorted_merge_sort _).
  - intros T t P. apply toy_first.
  - intros T t x. apply toy_writes. by intros l a l' [= <- <-].
  - intros T t x f. apply toy_writes. intros l a l' [= <- <-]. case_bool_decide; auto.
  - intros T t x. apply toy_writes. intros l a l'. case_bool_decide; intros [= <- <-]; auto.
  - intros T t x d e d'. cbn. unfold toy_write. repeat case_match; intros [= <- <-] || intros ?; done.
  - intros T t x. apply toy_writes. by intros l a l' [= <- <-].
  - intros T t P columns. apply toy_writes. intros l a l'. apply toy_update_spec.
  - intros T t P. apply toy_writes. by intros l a l' [= <- <-].
  - intros T t x. apply toy_writes. by intros l a l' [= <- <-].
  - intros A fn d r d' Hd. cbn. unfold toy_tx. destruct (fn d) as [[a|e] d1] eqn:E; intros [= <- <-];
      [|by apply toy_untouched].
    exists d, d1. split; [done|]. split; [by intros T t|]. split; [done|]. split; [done|]. by intros T t.
  - intros d r d' Hd [= <- <-]. split; [done|]. split; [done|]. by intros T t.
  - intros d d0 r d' Hd Hd0 Hs [= <- <-]. split; [done|]. by intros T t.
  - intros d d0 r d' Hd Hd0 Hs [= <- <-]. cbn in Hs. rewrite Hs. split; [done|]. by intros T t.
  - intros a b c. cbn. unfold toy_plus. case_bool_decide; [|done]. by intros [= <-].
  - intros name d r d' Hd [= <- <-]. by apply toy_untouched.
Defined.
End toy_database.
