(* ===== verification/Migration.v ===== *)
(** * cmd/migrate/main.go: moving to another storage

    [copyAll] and [copyUsers] between two storages of the interface, what they
    leave in the destination, and what they come to on a MySQL. Opening and closing
    the storages is not modelled. *)
From S2P Require Import Prelude GoText Storage Atomic InMemory InMemoryLaws SqlStorage SqlLaws Toys.

Record Storages (S1 S2 : Type) := mkStorages { source : S1; dest : S2 }.
Arguments mkStorages {S1 S2} _ _. Arguments source {S1 S2} _. Arguments dest {S1 S2} _.

Section migrate.
  Context {S1 S2 : Type} `{Storage S1} `{Storage S2}.
  Notation Both := (Storages S1 S2).

Definition from_source {A} (m : M S1 A) : M Both A := zoom source (λ s b, mkStorages s (dest b)) m.
Definition on_dest {A} (m : M S2 A) : M Both A := zoom dest (λ s b, mkStorages (source b) s) m.

(** A passkey that is there already is left as it is. *)
Definition copyPasskey (passkey : Passkey) : M Both unit :=
  let! r := m_try (on_dest (AddPasskey passkey)) in
  match r with
  | Ok _ => m_ret tt
  | Err e => if error_is e StoragePasskeyExists then m_ret tt
             else m_fail (WrappedError "failed to write a passkey to destination storage backend" e)
  end.
(** The loop of [copyUsers]. *)
Definition copyUser (user : User) : M Both unit :=
  do! m_wrap "failed to write user to destination storage backend" (on_dest (SaveUser user));
  do! m_wrap "failed to write the password of a user to destination storage backend"
    (on_dest (SetUserPassword (User.Subject user) (User.PasswordHash user) (User.PasswordFrom user)));
  do! m_wrap "failed to write the second factor of a user to destination storage backend"
    (on_dest (SetUserTOTP (User.Subject user) (User.TOTP user)));
  let! owned := m_wrap "failed to list the passkeys of a user from source storage backend"
    (from_source (ListPasskeys (User.Subject user))) in
  m_for copyPasskey owned.
Definition copyUsers : M Both unit :=
  let! users := m_wrap "failed to list all users from source storage backend" (from_source Users) in
  m_for copyUser users.

Definition copyAll : M Both unit :=
  do! copyUsers;
  let! devices := m_wrap "failed to list all devices from source storage backend" (from_source (List_ "")) in
  let! tokens := m_wrap "failed to list all api tokens from source storage backend" (from_source (ListTokens "")) in
  do! m_for (λ device, m_wrap "failed to write device to destination storage backend" (on_dest (Save device))) devices;
  m_for (λ token, m_wrap "failed to write api token to destination storage backend" (on_dest (SaveToken token))) tokens.
End migrate.

(** ** What is copied *)
(** Everything recorded of somebody but a passkey exchange that is under way. *)
Definition same_account (u u' : User) : Prop :=
  u' = User.with_Challenge (User.WebauthnChallenge u') (User.WebauthnChallengeUntil u') u.
(** The passkeys of [pa] that [Q] allows, where [pb] has none with their id. *)
Definition merged (Q : Passkey → Prop) (pa pb pb' : gmap string Passkey) : Prop :=
  ∀ id p, pb' !! id = Some p ↔ pb !! id = Some p ∨ (pb !! id = None ∧ pa !! id = Some p ∧ Q p).

Lemma merged_none pa pb : merged (λ _, False) pa pb pb.
Proof. intros id p. naive_solver. Qed.
Lemma merged_trans Q1 Q2 pa pb pb1 pb2 : merged Q1 pa pb pb1 → merged Q2 pa pb1 pb2 →
  merged (λ p, Q1 p ∨ Q2 p) pa pb pb2.
Proof.
  intros H1 H2 id p. rewrite (H2 id p), (H1 id p). split.
  - intros [[?|(? & ? & ?)]|(Hn & ? & ?)]; [by left|right; auto|]. right. split; [|auto].
    destruct (pb !! id) as [q|] eqn:E; [|done]. pose proof (proj2 (H1 id q) (or_introl E)). congruence.
  - intros [?|(Hn & Hp & [?|?])]; [auto|auto|]. destruct (pb1 !! id) as [q|] eqn:E; [|auto].
    left. apply H1 in E as [?|(_ & Hq & ?)]; [congruence|]. right. by simplify_eq.
Qed.
Lemma merged_ext (Q Q' : Passkey → Prop) pa pb pb' : (∀ id p, pa !! id = Some p → Q p ↔ Q' p) →
  merged Q pa pb pb' → merged Q' pa pb pb'.
Proof. intros HQ Hm id p. rewrite (Hm id p). naive_solver. Qed.

Section laws.
  Context {S1 S2 : Type} `{StorageLaws S1} `{StorageLaws S2}.
  Notation Both := (Storages S1 S2).
  Implicit Types (b : Both).

Definition both_ok b : Prop := ok (source b) ∧ ok (dest b).
Lemma from_source_query {A} (m : M S1 A) P msg b r b' : query view ok m P → both_ok b →
  m_wrap msg (from_source m) b = (r, b') → b' = b ∧ ∃ r0, r = wrap msg r0 ∧ P (view (source b)) r0.
Proof.
  intros Hm [Hok _] E. unfold m_wrap, from_source, zoom in E. destruct (m (source b)) as [r0 s'] eqn:Em.
  injection E as <- <-. destruct (Hm _ _ _ Hok Em) as [-> HP]. split; [by destruct b|]. by exists r0.
Qed.
(** A write to the destination: the source stays. *)
Lemma on_dest_effect {A} (m : M S2 A) P b r b' : effect view ok m P → both_ok b → on_dest m b = (r, b') →
  source b' = source b ∧ both_ok b' ∧
  match r with
  | Ok a => ∃ evs, P (view (dest b)) a (view (dest b')) evs
  | Err _ => view (dest b') = view (dest b)
  end.
Proof.
  intros Hm [Hs Hd] E. unfold on_dest, zoom in E. destruct (m (dest b)) as [r0 s'] eqn:Em. injection E as <- <-.
  destruct (Hm _ _ _ Hd Em) as [Hd' Hr]. split; [done|]. split; [done|].
  destruct r0 as [a|e]; [|apply Hr]. destruct Hr as (evs & HP & _). by exists evs.
Qed.

(** One step of the copying: it fails, or the rest runs after it. *)
Lemma dest_step {A B} (m : M S2 A) (k : A → M Both B) P msg b r b' : effect view ok m P → both_ok b →
  m_bind (m_wrap msg (on_dest m)) k b = (r, b') →
  (∃ e, r = Err e ∧ source b' = source b ∧ both_ok b') ∨
  ∃ a b1 evs, source b1 = source b ∧ both_ok b1 ∧ P (view (dest b)) a (view (dest b1)) evs ∧ k a b1 = (r, b').
Proof.
  intros Hm Hb E. unfold m_bind, m_wrap in E. destruct (on_dest m b) as [r0 b1] eqn:Em.
  destruct (on_dest_effect _ _ _ _ _ Hm Hb Em) as (Hs & Hb1 & Hr). destruct r0 as [a|e]; cbn in E.
  - right. destruct Hr as [evs HP]. by exists a, b1, evs.
  - left. injection E as <- <-. by eexists.
Qed.
Lemma source_step {A B} (m : M S1 A) (k : A → M Both B) P msg b r b' : query view ok m P → both_ok b →
  m_bind (m_wrap msg (from_source m)) k b = (r, b') →
  (∃ e, r = Err e ∧ b' = b) ∨ ∃ a, P (view (source b)) (Ok a) ∧ k a b = (r, b').
Proof.
  intros Hm Hb E. unfold m_bind in E. destruct (m_wrap msg (from_source m) b) as [r0 b1] eqn:Em.
  apply (from_source_query _ _ _ _ _ _ Hm Hb) in Em as (-> & r1 & -> & HP). destruct r1 as [a|e]; cbn in E.
  - right. by exists a.
  - left. injection E as <- <-. by eexists.
Qed.

(** ** The users *)
Definition user_copied (a : Abs) (b b' : Abs) (l : list User) : Prop :=
  devices b' = devices b ∧ tokens b' = tokens b ∧ sessions b' = sessions b ∧
  (∀ u, u ∈ l → ∃ u', users b' !! User.Subject u = Some u' ∧ same_account u u') ∧
  (∀ subject, subject ∉ User.Subject <$> l → users b' !! subject = users b !! subject) ∧
  merged (λ p, Passkey.Owner p ∈ User.Subject <$> l) (passkeys a) (passkeys b) (passkeys b').

Lemma copyPasskey_spec p b r b' : both_ok b → passkeys (view (source b)) !! Passkey.ID p = Some p →
  copyPasskey p b = (r, b') →
  source b' = source b ∧ both_ok b' ∧ (r = Ok tt → ∃ m,
    view (dest b') = on_passkeys (λ _, m) (view (dest b)) ∧
    merged (eq p) (passkeys (view (source b))) (passkeys (view (dest b))) m).
Proof.
  intros Hb Hp E. unfold copyPasskey, m_bind, m_try in E.
  destruct (on_dest (AddPasskey p) b) as [r0 b1] eqn:Ea.
  pose proof (on_dest_effect _ _ _ _ _ (law_AddPasskey p) Hb Ea) as (Hs & Hb1 & Hr). destruct r0 as [u|e].
  - injection E as <- <-. split; [done|]. split; [done|]. intros _. destruct Hr as (evs & -> & Hn & ->).
    eexists. split; [done|]. intros id q. rewrite lookup_insert_Some. split.
    + intros [[<- <-]|[? ?]]; [right; auto|by left].
    + intros [Hq|(Hn' & Hq & <-)]; [right; split; [congruence|done]|].
      left. split; [|done]. exact (wf_passkey_key _ (ok_wf _ (proj1 Hb)) _ _ Hq).
  - destruct (error_is e StoragePasskeyExists) eqn:Ee; injection E as <- <-; (split; [done|]; split; [done|]); [|done].
    intros _. exists (passkeys (view (dest b))). rewrite Hr. split; [by destruct (view (dest b))|].
    unfold on_dest, zoom in Ea. destruct (AddPasskey p (dest b)) as [ra sa] eqn:Eadd. injection Ea as -> _.
    pose proof (law_AddPasskey_exists p _ _ _ (proj2 Hb) Eadd Ee) as Hex.
    intros id q. split; [by left|]. intros [?|(Hn & Hq & <-)]; [done|].
    pose proof (wf_passkey_key _ (ok_wf _ (proj1 Hb)) _ _ Hq) as <-. done.
Qed.
Lemma copyPasskeys_spec l b r b' : both_ok b →
  Forall (λ p, passkeys (view (source b)) !! Passkey.ID p = Some p) l →
  m_for copyPasskey l b = (r, b') →
  source b' = source b ∧ both_ok b' ∧ (r = Ok tt → ∃ m,
    view (dest b') = on_passkeys (λ _, m) (view (dest b)) ∧
    merged (λ p, p ∈ l) (passkeys (view (source b))) (passkeys (view (dest b))) m).
Proof.
  revert b. induction l as [|p l IH]; intros b Hb Hl E; cbn in E.
  - injection E as <- <-. split; [done|]. split; [done|]. intros _. exists (passkeys (view (dest b))).
    split; [by destruct (view (dest b))|]. eapply merged_ext; [|apply merged_none]. intros id p _.
    split; [done|]. by intros ?%not_elem_of_nil.
  - apply Forall_cons in Hl as [Hp Hl]. unfold m_bind in E. destruct (copyPasskey p b) as [[[]|e] b1] eqn:Ep;
      destruct (copyPasskey_spec _ _ _ _ Hb Hp Ep) as (Hs & Hb1 & Hv).
    + apply IH in E as (Hs' & Hb' & Hv'); [|done|by rewrite Hs]. split; [congruence|]. split; [done|]. intros Hr.
      destruct (Hv eq_refl) as (m & Ev & Hm), (Hv' Hr) as (m' & Ev' & Hm'). exists m'.
      split; [by rewrite Ev', Ev|]. rewrite Hs, Ev in Hm'. cbn in Hm'.
      eapply merged_ext; [|exact (merged_trans _ _ _ _ _ _ Hm Hm')].
      intros id q _. rewrite elem_of_cons. naive_solver.
    + by injection E as <- <-.
Qed.

(** Who an account is written for, whether they are there already or not. *)
Lemma account_written u stored : User.Subject stored = User.Subject u → User.Provider stored = User.Provider u →
  User.Name stored = User.Name u → User.Email stored = User.Email u → User.Policies stored = User.Policies u →
  User.LastLogin stored = User.LastLogin u →
  same_account u (User.with_TOTP (User.TOTP u) (User.with_Password (User.PasswordHash u) (User.PasswordFrom u) stored)).
Proof.
  intros. unfold same_account, User.with_Challenge, User.with_TOTP, User.with_Password, User.TOTP. cbn. by f_equal.
Qed.
Lemma copyUser_spec u b r b' : both_ok b → copyUser u b = (r, b') →
  source b' = source b ∧ both_ok b' ∧
  (r = Ok tt → user_copied (view (source b)) (view (dest b)) (view (dest b')) [u]).
Proof.
  intros Hb E. unfold copyUser in E.
  destruct (dest_step _ _ _ _ _ _ _ (law_SaveUser u) Hb E)
    as [(e & -> & ? & ?)|([] & b1 & ? & Hs1 & Hb1 & [-> (stored & Hd1 & ? & ? & ? & ? & ? & ? & _)] & E1)]; [done|].
  destruct (dest_step _ _ _ _ _ _ _ (law_SetUserPassword _ _ _) Hb1 E1)
    as [(e & -> & ? & ?)|([] & b2 & ? & Hs2 & Hb2 & [-> (u2 & Hu2 & Hd2)] & E2)]; [by rewrite <- Hs1|].
  destruct (dest_step _ _ _ _ _ _ _ (law_SetUserTOTP _ _) Hb2 E2)
    as [(e & -> & ? & ?)|([] & b3 & ? & Hs3 & Hb3 & [-> (u3 & Hu3 & Hd3)] & E3)]; [by rewrite <- Hs1, <- Hs2|].
  assert (source b3 = source b) as Hsrc by congruence.
  destruct (source_step _ _ _ _ _ _ _ (law_ListPasskeys _) Hb3 E3)
    as [(e & -> & ->)|(owned & [Hl _] & E4)]; [done|].
  assert (∀ p, p ∈ owned ↔ passkeys (view (source b3)) !! Passkey.ID p = Some p ∧ Passkey.Owner p = User.Subject u) as Hin.
  { intros p. unfold lists_rows in Hl. rewrite Hl, list_elem_of_filter, list_elem_of_fmap. split.
    - intros (Ho & [k q] & -> & Hq%elem_of_map_to_list). split; [|done].
      cbn. by rewrite (wf_passkey_key _ (ok_wf _ (proj1 Hb3)) _ _ Hq).
    - intros [Hq Ho]. split; [done|]. exists (Passkey.ID p, p). split; [done|]. by apply elem_of_map_to_list. }
  apply copyPasskeys_spec in E4 as (Hs4 & Hb4 & Hv); [|done|by apply Forall_forall; intros p [? _]%Hin].
  split; [congruence|]. split; [done|]. intros Hr. destruct (Hv Hr) as (m & -> & Hm). rewrite Hsrc in *.
  rewrite Hd1 in Hu2, Hd2. cbn in Hu2, Hd2. rewrite lookup_insert_eq in Hu2. injection Hu2 as <-.
  rewrite Hd2 in Hu3, Hd3. cbn in Hu3, Hd3. rewrite lookup_insert_eq in Hu3. injection Hu3 as <-.
  rewrite Hd3 in Hm |- *. cbn in Hm |- *. split; [done|]. split; [done|]. split; [done|]. split; [|split].
  - intros v ->%list_elem_of_singleton. cbn. rewrite !lookup_insert_eq. eexists. split; [done|]. by apply account_written.
  - intros subject Hne. cbn in *. rewrite list_elem_of_singleton in Hne. by rewrite !lookup_insert_ne by done.
  - eapply merged_ext; [|exact Hm]. intros id p Hp. rewrite Hin. cbn. rewrite list_elem_of_singleton.
    rewrite (wf_passkey_key _ (ok_wf _ (proj1 Hb)) _ _ Hp). naive_solver.
Qed.

(** One after the other; the users are listed once each. *)
Lemma user_copied_app (a b b1 b2 : Abs) (l : list User) u : User.Subject u ∉ User.Subject <$> l →
  user_copied a b b1 l → user_copied a b1 b2 [u] → user_copied a b b2 (l ++ [u]).
Proof.
  intros Hnew (Hd & Ht & Hs & Hu & Ho & Hm) (Hd' & Ht' & Hs' & Hu' & Ho' & Hm').
  split; [congruence|]. split; [congruence|]. split; [congruence|]. split; [|split].
  - intros v [Hv|Hv]%elem_of_app; [|by apply Hu']. rewrite Ho'; [by apply Hu|]. cbn. rewrite list_elem_of_singleton.
    intros E. apply Hnew. rewrite <- E. apply list_elem_of_fmap. by exists v.
  - intros subject Hn. rewrite fmap_app, not_elem_of_app in Hn. destruct Hn. by rewrite Ho', Ho.
  - eapply merged_ext; [|exact (merged_trans _ _ _ _ _ _ Hm Hm')].
    intros id p _. by rewrite fmap_app, elem_of_app.
Qed.
Lemma user_copied_nil (a b : Abs) : user_copied a b b [].
Proof.
  split; [done|]. split; [done|]. split; [done|]. split; [by intros u ?%not_elem_of_nil|]. split; [done|].
  eapply merged_ext; [|apply merged_none]. intros id p _. split; [done|]. by intros ?%not_elem_of_nil.
Qed.
Lemma copyUsers_loop todo b0 done_ b r b' : source b = source b0 → both_ok b →
  NoDup (User.Subject <$> done_ ++ todo) →
  user_copied (view (source b0)) (view (dest b0)) (view (dest b)) done_ →
  m_for copyUser todo b = (r, b') →
  source b' = source b0 ∧ both_ok b' ∧
  (r = Ok tt → user_copied (view (source b0)) (view (dest b0)) (view (dest b')) (done_ ++ todo)).
Proof.
  revert done_ b. induction todo as [|u todo IH]; intros done_ b Hs Hb Hn Hc E; cbn in E.
  - injection E as <- <-. by rewrite app_nil_r.
  - unfold m_bind in E. destruct (copyUser u b) as [[[]|e] b1] eqn:Eu;
      destruct (copyUser_spec _ _ _ _ Hb Eu) as (Hs1 & Hb1 & Hc1).
    + rewrite Hs in Hc1. replace (done_ ++ u :: todo) with ((done_ ++ [u]) ++ todo) in * by by rewrite <- app_assoc.
      eapply IH in E; [exact E|congruence|done|done|]. eapply user_copied_app; [|exact Hc|by apply Hc1].
      rewrite !fmap_app in Hn. apply NoDup_app in Hn as [Hn _]. apply NoDup_app in Hn as (_ & Hn & _).
      intros Hin. apply (Hn _ Hin). cbn. by apply list_elem_of_singleton.
    + injection E as <- <-. split; [congruence|]. split; [done|]. done.
Qed.
(** What a complete listing says of its table. *)
Lemma listed_rows {K T} `{Countable K} (key : T → K) (m : gmap K T) (P : T → Prop) `{∀ x, Decision (P x)} l :
  (∀ k x, m !! k = Some x → key x = k) → (∀ x, P x) → lists_rows m P l →
  NoDup (key <$> l) ∧ to_map key l = m.
Proof.
  intros Hk HP Hl. assert (NoDup (key <$> (map_to_list m).*2)) as Hn.
  { rewrite <- list_fmap_compose. rewrite (list_fmap_ext _ fst (map_to_list m)); [apply NoDup_fst_map_to_list|].
    intros i [k x] Hx. cbn. apply Hk. apply elem_of_map_to_list. by eapply list_elem_of_lookup_2. }
  assert (l ≡ₚ (map_to_list m).*2) as Hp.
  { unfold lists_rows in Hl. rewrite Hl. clear Hl Hn. induction (map_to_list m).*2 as [|x l' IH]; [done|].
    by rewrite filter_cons_True, IH. }
  assert (NoDup (key <$> l)) as Hn' by by rewrite Hp. split; [done|]. apply to_map_ext; [done|].
  intros k x. rewrite Hp, list_elem_of_fmap. split.
  - intros Hx. split; [|by apply Hk]. exists (k, x). split; [done|]. by apply elem_of_map_to_list.
  - intros ([[k' y] [-> Hy%elem_of_map_to_list]] & <-). cbn. by rewrite (Hk _ _ Hy).
Qed.

(** ** The devices and the tokens *)
Lemma insert_union {K T} `{Countable K} (key : T → K) x l (m : gmap K T) : NoDup (key <$> x :: l) →
  to_map key l ∪ <[key x := x]> m = to_map key (x :: l) ∪ m.
Proof.
  intros [Hx _]%NoDup_cons. change (to_map key (x :: l)) with (<[key x := x]> (to_map key l)).
  rewrite <- insert_union_l, insert_union_r; [done|]. by apply to_map_none.
Qed.
Lemma copyDevices msg l b r b' : both_ok b → NoDup (Device.key <$> l) →
  Forall (λ d, devices (view (dest b)) !! Device.key d = None ∨ Device.Owner d ≠ "" ∧ Device.Name d ≠ "") l →
  m_for (λ d, m_wrap msg (on_dest (Save d))) l b = (r, b') →
  source b' = source b ∧ both_ok b' ∧
  (r = Ok tt → view (dest b') = on_devices (λ m, to_map Device.key l ∪ m) (view (dest b))).
Proof.
  revert b. induction l as [|d l IH]; intros b Hb Hn Hl E; cbn [m_for] in E.
  - injection E as <- <-. split; [done|]. split; [done|]. intros _. unfold on_devices, to_map. cbn.
    rewrite map_empty_union. by destruct (view (dest b)).
  - apply Forall_cons in Hl as [Hd Hl].
    destruct (dest_step _ _ _ _ _ _ _ (law_Save d) Hb E)
      as [(e & -> & ? & ?)|([] & b1 & ? & Hs1 & Hb1 & HP & E1)]; [done|]. destruct (HP Hd) as (_ & Hv & _). clear HP.
    apply IH in E1 as (Hs & Hb' & Hv'); [|done|by apply NoDup_cons in Hn as [_ ?]|].
    + split; [congruence|]. split; [done|]. intros Hr. rewrite (Hv' Hr), Hv. unfold on_devices. cbn. f_equal.
      by apply insert_union.
    + rewrite Hv. apply NoDup_cons in Hn as [Hn _]. rewrite Forall_forall in Hl |- *. intros y Hy. cbn.
      destruct (Hl y Hy); [left|by right]. rewrite lookup_insert_ne; [done|].
      intros Ek. apply Hn. rewrite Ek. apply list_elem_of_fmap. by exists y.
Qed.
Lemma copyTokens msg l b r b' : both_ok b → NoDup (APIToken.ID <$> l) →
  m_for (λ k, m_wrap msg (on_dest (SaveToken k))) l b = (r, b') →
  source b' = source b ∧ both_ok b' ∧
  (r = Ok tt → view (dest b') = on_tokens (λ m, to_map APIToken.ID l ∪ m) (view (dest b))).
Proof.
  revert b. induction l as [|k l IH]; intros b Hb Hn E; cbn [m_for] in E.
  - injection E as <- <-. split; [done|]. split; [done|]. intros _. unfold on_tokens, to_map. cbn.
    rewrite map_empty_union. by destruct (view (dest b)).
  - destruct (dest_step _ _ _ _ _ _ _ (law_SaveToken k) Hb E)
      as [(e & -> & ? & ?)|([] & b1 & ? & Hs1 & Hb1 & [_ [_ Hv]] & E1)]; [done|].
    apply IH in E1 as (Hs & Hb' & Hv'); [|done|by apply NoDup_cons in Hn as [_ ?]].
    split; [congruence|]. split; [done|]. intros Hr. rewrite (Hv' Hr), Hv. unfold on_tokens. cbn. f_equal.
    by apply insert_union.
Qed.

(** C36 [migration_copies]: migrating changes nothing in the source, whether it succeeds or
    fails halfway. When it succeeds, the destination has every device and every
    API token of the source as it was there; everybody known to the source with what the
    identity provider said of them, their own password and their second factor -
    also those who were known to the destination already; and the passkeys of those
    people, where their id was not taken. Whatever else the destination held is as it
    was: other people, their devices and tokens, and the browser sessions. *)
Theorem migration_copies b r b' : ok (source b) → ok (dest b) →
  (∀ k d, devices (view (source b)) !! k = Some d → devices (view (dest b)) !! k = None ∨ k.1 ≠ "" ∧ k.2 ≠ "") →
  copyAll b = (r, b') →
  let all := view (source b) in let before := view (dest b) in let after := view (dest b') in
  source b' = source b ∧ ok (dest b') ∧
  (r = Ok tt →
    devices after = devices all ∪ devices before ∧ tokens after = tokens all ∪ tokens before ∧
    sessions after = sessions before ∧
    (∀ subject, match users all !! subject with
                | Some u => ∃ u', users after !! subject = Some u' ∧ same_account u u'
                | None => users after !! subject = users before !! subject
                end) ∧
    (∀ id p, passkeys after !! id = Some p ↔ passkeys before !! id = Some p ∨
       passkeys before !! id = None ∧ passkeys all !! id = Some p ∧ users all !! Passkey.Owner p ≠ None)).
Proof.
  intros Hs Hd Hkeys E all before after. assert (both_ok b) as Hb by done. pose proof (ok_wf _ Hs) as Hwf.
  unfold copyAll in E. unfold m_bind at 1 in E. destruct (copyUsers b) as [r1 b1] eqn:Eu. unfold copyUsers in Eu.
  destruct (source_step _ _ _ _ _ _ _ law_Users Hb Eu) as [(e & -> & ->)|(us & Hus & Eu')];
    [by injection E as <- <-|].
  apply (listed_rows User.Subject) in Hus as [Hnu Hus]; [|by apply Hwf|done].
  destruct (copyUsers_loop us b [] b r1 b1 eq_refl Hb Hnu (user_copied_nil _ _) Eu') as (Hs1 & Hb1 & Hc).
  destruct r1 as [[]|e]; [|injection E as <- <-; split; [done|]; split; [apply Hb1|done]].
  destruct (Hc eq_refl) as (Hcd & Hct & Hcs & Hcu & Hco & Hcp).
  destruct (source_step _ _ _ _ _ _ _ (law_List "") Hb1 E) as [(e & -> & ->)|(ds & Hds & E1)];
    [split; [done|]; split; [apply Hb1|done]|].
  destruct (source_step _ _ _ _ _ _ _ (law_ListTokens "") Hb1 E1) as [(e & -> & ->)|(ts & [Hts _] & E2)];
    [split; [done|]; split; [apply Hb1|done]|].
  rewrite Hs1 in Hds, Hts. apply (listed_rows Device.key) in Hds as [Hnd Hds]; [|by apply Hwf|by left].
  apply (listed_rows APIToken.ID) in Hts as [Hnt Hts]; [|by apply Hwf|by left].
  unfold m_bind in E2. destruct (m_for _ ds b1) as [r2 b2] eqn:Ed.
  apply copyDevices in Ed as (Hs2 & Hb2 & Hv2); [|done|done|].
  2: { apply Forall_forall. intros d Hin. rewrite Hcd. apply (Hkeys (Device.key d) d).
       rewrite <- Hds. by apply to_map_lookup. }
  destruct r2 as [[]|e]; [|injection E2 as <- <-; split; [congruence|]; split; [apply Hb2|done]].
  apply copyTokens in E2 as (Hs3 & Hb3 & Hv3); [|done|done]. split; [congruence|]. split; [apply Hb3|].
  intros Hr. unfold after. rewrite (Hv3 Hr), (Hv2 eq_refl), Hds, Hts. cbn. rewrite Hcd, Hct.
  split; [done|]. split; [done|]. split; [done|]. split.
  - intros subject. fold all. destruct (users all !! subject) as [u|] eqn:Eu1; unfold all in Eu1; rewrite <- Hus in Eu1.
    + apply to_map_lookup in Eu1 as [Hu <-]; [by apply Hcu|done].
    + apply to_map_none in Eu1. by apply Hco.
  - intros id p. rewrite (Hcp id p). cbn. unfold all. rewrite <- Hus, to_map_none.
    destruct (decide (Passkey.Owner p ∈ User.Subject <$> us)); naive_solver.
Qed.
End laws.

(** ** To a MySQL

    [SaveUser] writes a new user with every column, the password among them, and
    writing the same password again changes no row. Where only changed rows count
    as affected - MySQL, unless the connection asks for the rows found, and
    [mysqlconn] does not - [SetUserPassword] takes that for a user who is not there. *)
Lemma same_password {D} `{GormLaws D} (s : SQLStorage D) u r s' : found_rows = false → sql_ok s →
  users (sql_view s) !! User.Subject u = Some u →
  sql_SetUserPassword (User.Subject u) (User.PasswordHash u) (User.PasswordFrom u) s = (r, s') → r ≠ Ok tt.
Proof.
  intros Hf Hok [Hu _]%to_map_lookup E; [|by apply users_keys]. unfold sql_SetUserPassword, change_row, m_bind in E.
  rewrite on_db_run in E. destruct (gorm_UpdateColumns _ _ _ (sql_db s)) as [[n|e] d'] eqn:Eu; cbn in E;
    [|by injection E as <- <-].
  destruct (law_UpdateColumns _ _ _ _ _ _ Hok Eu) as (l & (_ & _ & Hn) & _).
  assert (n = 0) as ->; [|by injection E as <- <-]. apply Hn. intros x Hx HP%String.eqb_eq. split; [done|].
  assert (x = u) as ->.
  { pose proof (proj2 (to_map_lookup _ _ _ x (users_keys _ Hok)) (conj Hx HP)) as H1.
    rewrite (proj2 (to_map_lookup _ _ _ u (users_keys _ Hok))) in H1 by done. by injection H1. }
  by destruct u.
Qed.
(** So a source with a user in it cannot be migrated to an empty MySQL. *)
Theorem migrating_to_mysql_fails {S1 D} `{StorageLaws S1, GormLaws D} (b : Storages S1 (SQLStorage D)) r b' :
  found_rows = false → ok (source b) → sql_ok (dest b) →
  users (view (source b)) ≠ ∅ → users (sql_view (dest b)) = ∅ →
  copyAll b = (r, b') → r ≠ Ok tt.
Proof.
  intros Hf Hs Hd Hne Hempty E ->. assert (both_ok b) as Hb by done.
  apply m_bind_ok in E as ([] & b1 & E & _). unfold copyUsers in E.
  destruct (source_step _ _ _ _ _ _ _ law_Users Hb E) as [(e & ? & ->)|(us & Hus & E1)]; [done|].
  apply (listed_rows User.Subject) in Hus as [_ Hus]; [|by apply (ok_wf _ Hs)|done].
  destruct us as [|u us]; [by rewrite <- Hus in Hne|]. cbn in E1. apply m_bind_ok in E1 as ([] & b2 & E1 & _).
  unfold copyUser in E1.
  destruct (dest_step _ _ _ _ _ _ _ (law_SaveUser u) Hb E1)
    as [(e & ? & ?)|([] & b3 & ? & Hs1 & Hb1 & [-> (stored & Hd1 & Hst)] & E2)]; [done|].
  destruct Hst as (_ & _ & _ & _ & _ & _ & Hst). change (view (dest b)) with (sql_view (dest b)) in *.
  rewrite Hempty, lookup_empty in Hst. subst stored.
  apply m_bind_ok in E2 as ([] & b4 & E2 & _). apply m_wrap_ok in E2. unfold on_dest, zoom in E2.
  destruct (SetUserPassword _ _ _ (dest b3)) as [r2 s2] eqn:Ep. injection E2 as -> _.
  eapply (same_password (dest b3) u _ _ Hf); [apply Hb1| |exact Ep|done].
  change (sql_view (dest b3)) with (view (dest b3)). rewrite Hd1. cbn. apply lookup_insert_eq.
Qed.

(** ** Concrete cases *)
Definition alice : User :=
  User.mk "alice" "simple" "Alice" "a@corp.example" "ops" 5 "hash" "" None "SECRET" (Some 3) "codes" 57 "entry".
Definition alices_phone : Device :=
  Device.mk "alice" "Alice" "" "simple" "phone" "k1" "" "10.44.0.2/32" 4 false None "" None 10 20 "".
Lemma ok_after {S A} `{StorageLaws S} (m : M S A) P s : effect view ok m P → ok s → ok (m s).2.
Proof. intros Hm Hok. destruct (m s) as [r s'] eqn:E. by destruct (Hm _ _ _ Hok E). Qed.
Definition from_memory : InMemoryStorage :=
  let s := (SaveUser alice NewMemoryStorage).2 in
  let s := (AddPasskey (Passkey.mk "p1" "alice" "key" "data" 1 None) s).2 in
  let s := (AddPasskey (Passkey.mk "p2" "nobody" "key" "data" 1 None) s).2 in
  let s := (Save alices_phone s).2 in
  (SaveToken (APIToken.mk "t1" "alice" "script" "hash" "" 1 None None) s).2.
Lemma from_memory_ok : ok from_memory.
Proof.
  eapply ok_after; [apply law_SaveToken|]. eapply ok_after; [apply law_Save|].
  eapply ok_after; [apply law_AddPasskey|]. eapply ok_after; [apply law_AddPasskey|].
  eapply ok_after; [apply law_SaveUser|]. exact NewMemoryStorage_ok.
Qed.
Definition to_sqlite : SQLStorage toy_db := mkSQL toy_empty sqlite3 [].
Lemma to_sqlite_ok counts : sql_ok (H0 := toy_gorm_laws counts) to_sqlite.
Proof. intros T t. destruct t; repeat split; constructor. Qed.
Definition migrated counts : result unit * Storages InMemoryStorage (SQLStorage toy_db) :=
  copyAll (H0 := SQL_Storage (H := toy_gorm counts)) (mkStorages from_memory to_sqlite).

(** The passkey of nobody stays behind. *)
Lemma migration_copies_witness :
  (migrated true).1 = Ok tt ∧
  let after := sql_view (H0 := toy_gorm_laws true) (dest (migrated true).2) in
  devices after !! ("alice", "phone") = Some alices_phone ∧
  ∃ u', users after !! "alice" = Some u' ∧ same_account alice u'.
Proof.
  assert ((migrated true).1 = Ok tt) as Er by (vm_compute; reflexivity). split; [exact Er|]. cbv zeta.
  destruct (migration_copies (H2 := SQL_laws (H0 := toy_gorm_laws true)) (mkStorages from_memory to_sqlite)
    (migrated true).1 (migrated true).2 from_memory_ok (to_sqlite_ok true)) as (_ & _ & Hr).
  - intros k d _. left. vm_compute. reflexivity.
  - apply surjective_pairing.
  - destruct (Hr Er) as (Hd & _ & _ & Hu & _). split.
    + etrans; [exact (f_equal (lookup ("alice", "phone")) Hd)|vm_compute; reflexivity].
    + exact (Hu "alice").
Defined.
Lemma migrating_to_mysql_fails_witness : (migrated false).1 ≠ Ok tt.
Proof.
  apply (migrating_to_mysql_fails (H1 := toy_gorm false) (H2 := toy_gorm_laws false)
    (mkStorages from_memory to_sqlite) (migrated false).1 (migrated false).2);
    [reflexivity|exact from_memory_ok|exact (to_sqlite_ok false)| |vm_compute; reflexivity|apply surjective_pairing].
  intros E. apply (f_equal (lookup "alice")) in E. vm_compute in E. discriminate E.
Defined.
