(* ===== verification/Metrics.v ===== *)
(** * internal/metrics: what a Prometheus scrape collects

    [metrics.go] and [basic_auth.go]: the aggregates over all devices, the series of
    single devices with their cap, the labels they carry, and who may ask. The
    Prometheus library builds and gathers the metrics: a class, with the check of
    the labels it documents. A value is the whole number a float64 holds. *)
From S2P Require Import Prelude GoText GoQuote Netip Network Storage Atomic AuthSession Totp.
From S2P Require Import Passwords WireGuard Devices DeviceSpecs Routes RouteSpecs Manager Toys.
From S2P Require Import InMemory InMemoryLaws Migration.

(** ** unicode/utf8 and strings: what is valid, and making it so *)
Definition invalid_rune (d : Z * nat) : bool := (d.2 =? 1)%nat && (d.1 =? RuneError).
Fixpoint valid_fuel (fuel : nat) (l : list ascii) : bool :=
  match fuel, l with
  | S f, _ :: _ => let d := DecodeRune l in negb (invalid_rune d) && valid_fuel f (drop d.2 l)
  | _, _ => true
  end.
(** [utf8.Valid]; every step consumes a byte. *)
Definition valid_bytes (l : list ascii) : bool := valid_fuel (List.length l) l.
Definition ValidString (s : string) : bool := valid_bytes (bytes s).

(** [strings.ToValidUTF8]: a run of bytes that are none becomes one [replacement]. *)
Fixpoint to_valid_fuel (fuel : nat) (replacement : list ascii) (invalid : bool) (l : list ascii) : list ascii :=
  match fuel, l with
  | S f, _ :: _ =>
      let d := DecodeRune l in
      if invalid_rune d
      then (if invalid then [] else replacement) ++ to_valid_fuel f replacement true (drop d.2 l)
      else take d.2 l ++ to_valid_fuel f replacement false (drop d.2 l)
  | _, _ => []
  end.
Definition ToValidUTF8 (s replacement : string) : string :=
  of_bytes (to_valid_fuel (String.length s) (bytes replacement) false (bytes s)).

(** float64(int64): a whole number of 53 bits, the nearest one, the even one of two. *)
Definition float64 (z : Z) : Z :=
  let a := Z.abs z in
  if a <? 2 ^ 53 then z else
  let unit := 2 ^ (Z.log2 a - 52) in
  let '(q, r) := (a / unit, a mod unit) in
  Z.sgn z * unit * (if (unit <? 2 * r) || ((unit =? 2 * r) && Z.odd q) then q + 1 else q).

(** ** The metrics *)
Definition DefaultMaxDeviceSeries : Z := 1000.
Definition maxLabelValueLen : nat := 128.
Definition unknownLabelValue : string := "unknown".

Inductive Desc :=
  | devicesTotalDesc | devicesConnectedDesc | devicesBlockedDesc
  | devicesBytesReceivedDesc | devicesBytesTransmittedDesc
  | deviceConnectedDesc | deviceBytesReceivedDesc | deviceBytesTransmittedDesc | deviceLastHandshakeDesc
  | deviceScrapeErrorDesc | deviceSeriesDroppedDesc.
#[export] Instance Desc_eq_dec : EqDecision Desc.
Proof. solve_decision. Defined.

Definition fqName (d : Desc) : string :=
  match d with
  | devicesTotalDesc => "wg_access_server_devices_total"
  | devicesConnectedDesc => "wg_access_server_devices_connected"
  | devicesBlockedDesc => "wg_access_server_devices_blocked"
  | devicesBytesReceivedDesc => "wg_access_server_devices_bytes_received_total"
  | devicesBytesTransmittedDesc => "wg_access_server_devices_bytes_transmitted_total"
  | deviceConnectedDesc => "wg_access_server_device_connected"
  | deviceBytesReceivedDesc => "wg_access_server_device_bytes_received_total"
  | deviceBytesTransmittedDesc => "wg_access_server_device_bytes_transmitted_total"
  | deviceLastHandshakeDesc => "wg_access_server_device_last_handshake_timestamp_seconds"
  | deviceScrapeErrorDesc => "wg_access_server_device_metrics_scrape_error"
  | deviceSeriesDroppedDesc => "wg_access_server_device_metrics_series_dropped"
  end.
Definition deviceLabels : list string := ["device"; "owner"].
Definition variableLabels (d : Desc) : list string :=
  match d with
  | deviceConnectedDesc | deviceBytesReceivedDesc | deviceBytesTransmittedDesc | deviceLastHandshakeDesc =>
      deviceLabels
  | _ => []
  end.

Record Metric := mkMetric { desc : Desc; value : Z; labelValues : list string }.
#[export] Instance Metric_eq_dec : EqDecision Metric.
Proof. solve_decision. Defined.

(** Building a metric fails when the labels do not fit it or are not UTF-8. *)
Class Prometheus := {
  NewConstMetric : Desc → Z → list string → result Metric;
  law_NewConstMetric d v ls : List.length ls = List.length (variableLabels d) →
    forallb ValidString ls = true → NewConstMetric d v ls = Ok (mkMetric d v ls) }.

(** ** sanitizeLabelValue *)
Fixpoint longest_valid (n : nat) (l : list ascii) : list ascii :=
  match n with
  | O => []
  | S k => if valid_bytes (take n l) then take n l else longest_valid k l
  end.
Definition truncateUTF8 (value : string) (maxBytes : nat) : string :=
  if (String.length value <=? maxBytes)%nat then value else of_bytes (longest_valid maxBytes (bytes value)).
(** U+FFFD in UTF-8. *)
Definition replacementChar : string := str [239; 191; 189].
Definition sanitizeLabelValue (value : string) : string :=
  let value := if negb (ValidString value) then ToValidUTF8 value replacementChar else value in
  let value := truncateUTF8 value maxLabelValueLen in
  if String.eqb value "" then unknownLabelValue else value.

(** ** The collector *)
Section collector.
  Context `{Prometheus}.

Definition emitMetric (d : Desc) (v : Z) (labelValues : list string) : list Metric :=
  match NewConstMetric d v labelValues with Ok m => [m] | Err _ => [] end.

(** [Describe]: what the collector may report. *)
Definition Describe (maxSeries : Z) : list Desc :=
  [devicesTotalDesc; devicesConnectedDesc; devicesBlockedDesc; devicesBytesReceivedDesc;
   devicesBytesTransmittedDesc; deviceScrapeErrorDesc] ++
  (if maxSeries =? 0 then [] else
   [deviceConnectedDesc; deviceBytesReceivedDesc; deviceBytesTransmittedDesc; deviceLastHandshakeDesc;
    deviceSeriesDroppedDesc]).

(** The order of [sort.Slice]; owner and name are the key of a device. *)
Definition series_le (a b : Device) : Prop :=
  (if String.eqb (Device.Owner a) (Device.Owner b) then string_le (Device.Name a) (Device.Name b)
   else string_le (Device.Owner a) (Device.Owner b)) = true.
#[export] Instance series_le_dec a b : Decision (series_le a b).
Proof. unfold series_le. apply _. Defined.

Definition connected_at (now : Time) (d : Device) : bool :=
  match Device.LastHandshakeTime d with Some t => IsConnected now t | None => false end.

Record series := mkSeries { seen : gset (string * string); dropped : Z; exported : list Metric }.
(** The loop of [collectPerDevice]. *)
Definition export_device (now : Time) (maxSeries : Z) (st : series) (d : Device) : series :=
  let labels := (sanitizeLabelValue (Device.Name d), sanitizeLabelValue (Device.Owner d)) in
  if bool_decide (labels ∈ seen st) then mkSeries (seen st) (dropped st + 1) (exported st)
  else if (0 <? maxSeries) && (maxSeries <=? Z.of_nat (size (seen st)))
  then mkSeries (seen st) (dropped st + 1) (exported st)
  else mkSeries ({[labels]} ∪ seen st) (dropped st)
    (exported st ++
     emitMetric deviceConnectedDesc (if connected_at now d then 1 else 0) [labels.1; labels.2] ++
     emitMetric deviceBytesReceivedDesc (float64 (Device.ReceiveBytes d)) [labels.1; labels.2] ++
     emitMetric deviceBytesTransmittedDesc (float64 (Device.TransmitBytes d)) [labels.1; labels.2] ++
     match Device.LastHandshakeTime d with
     | Some t => emitMetric deviceLastHandshakeDesc (float64 (Unix t)) [labels.1; labels.2]
     | None => []
     end).
Definition collectPerDevice (now : Time) (maxSeries : Z) (devs : list Device) : list Metric :=
  let st := fold_left (export_device now maxSeries) (merge_sort series_le devs) (mkSeries ∅ 0 []) in
  exported st ++ emitMetric deviceSeriesDroppedDesc (float64 (dropped st)) [].

(** The counters of all devices are added up as int64. *)
Definition total (bytes_of : Device → Z) (devs : list Device) : Z :=
  fold_left (λ n d, wrap64 (n + bytes_of d)) devs 0.
Definition how_many (P : Device → bool) (devs : list Device) : Z := Z.of_nat (List.length (List.filter P devs)).
Definition collected (now : Time) (maxSeries : Z) (devs : list Device) : list Metric :=
  emitMetric deviceScrapeErrorDesc 0 [] ++
  emitMetric devicesTotalDesc (float64 (Z.of_nat (List.length devs))) [] ++
  emitMetric devicesConnectedDesc (float64 (how_many (connected_at now) devs)) [] ++
  emitMetric devicesBlockedDesc (float64 (how_many (λ d, negb (Device.AccessAllowed d now)) devs)) [] ++
  emitMetric devicesBytesReceivedDesc (float64 (total Device.ReceiveBytes devs)) [] ++
  emitMetric devicesBytesTransmittedDesc (float64 (total Device.TransmitBytes devs)) [] ++
  (if negb (maxSeries =? 0) then collectPerDevice now maxSeries devs else []).

Section storage.
  Context {S W : Type} `{Storage S} `{WireGuard W}.

Definition Collect (now : Time) (maxSeries : Z) : M S (list Metric) :=
  let! devs := m_try ListAllDevices in
  m_ret (match devs with
         | Err _ => emitMetric deviceScrapeErrorDesc 1 []
         | Ok devs => collected now maxSeries devs
         end).

(** ** The endpoint *)
Record MetricsConfig := mkMetricsConfig { Username : string; PasswordHash : string; MaxDeviceSeries : Z }.
Record Deps := mkDeps { Metadata : bool; DeviceMetrics : bool; Metrics_ : MetricsConfig }.

Definition resolveMaxDeviceSeries (configured : Z) : Z :=
  if configured =? 0 then DefaultMaxDeviceSeries else configured.

(** What a scrape answers: [up], and the devices where they may be reported. *)
Record Scrape := mkScrape { up : Z; metrics : list Metric }.
Definition Handler (deps : Deps) (now : Time) (storage_ping : M S unit) : M (DeviceManager S W) Scrape :=
  let! ping := m_try (Ping storage_ping) in
  let! metrics :=
    (if Metadata deps && DeviceMetrics deps
     then on_storage (Collect now (resolveMaxDeviceSeries (MaxDeviceSeries (Metrics_ deps))))
     else m_ret []) in
  m_ret (mkScrape (if is_ok ping then 1 else 0) metrics).

(** [Served] by the handler behind the check, or 401 with the realm. *)
Inductive Answer := Served (scrape : Scrape) | Unauthorized (realm : string).
Definition basicAuthHandler `{PasswordHashing} {S'} (h : M S' Scrape) (realm username passwordHash : string)
    (credentials : option (string * string)) : M S' Answer :=
  let '(u, p) := default ("", "") credentials in
  let userOK := String.eqb u username in
  let passwordOK := CompareHashAndPassword passwordHash p in
  if negb (bool_decide (credentials ≠ None)) || negb userOK || negb passwordOK
  then m_ret (Unauthorized realm)
  else let! scrape := h in m_ret (Served scrape).
Definition Endpoint `{PasswordHashing} (deps : Deps) (now : Time) (storage_ping : M S unit)
    (credentials : option (string * string)) : M (DeviceManager S W) Answer :=
  let h := Handler deps now storage_ping in
  let creds := Metrics_ deps in
  if String.eqb (Username creds) "" || String.eqb (PasswordHash creds) ""
  then let! scrape := h in m_ret (Served scrape)
  else basicAuthHandler h "metrics" (Username creds) (PasswordHash creds) credentials.
End storage.
End collector.

Example truncate_ex : truncateUTF8 (str [97; 195; 164]) 2 = "a" ∧ truncateUTF8 "abc" 2 = "ab".
Proof. vm_compute. done. Qed.
Example sanitize_ex : sanitizeLabelValue (str [97; 255; 254; 98]) = str [97; 239; 191; 189; 98]
  ∧ sanitizeLabelValue "" = "unknown".
Proof. vm_compute. done. Qed.
Example float64_ex : float64 (2 ^ 53 + 1) = 2 ^ 53 ∧ float64 (2 ^ 53 + 3) = 2 ^ 53 + 4 ∧ float64 (- (2 ^ 63)) = - 2 ^ 63
  ∧ float64 (2 ^ 63 - 1) = 2 ^ 63 ∧ float64 1000 = 1000.
Proof. vm_compute. done. Qed.

(** ** What is valid UTF-8 *)
Lemma DecodeRune_width c l : (1 <= (DecodeRune (c :: l)).2 <= List.length (c :: l))%nat.
Proof. unfold DecodeRune. repeat case_match; cbn; lia. Qed.
(** A rune is decoded without a look at what follows it. *)
Lemma DecodeRune_take c l rest : invalid_rune (DecodeRune (c :: l)) = false →
  DecodeRune (take (DecodeRune (c :: l)).2 (c :: l) ++ rest) = DecodeRune (c :: l).
Proof.
  destruct (DecodeRune (c :: l)) as [r n] eqn:E. unfold invalid_rune, DecodeRune in *. cbn [fst snd].
  repeat match type of E with context [match ?x with _ => _ end] => destruct x eqn:? end;
    simplify_eq; intros Hv; try (vm_compute in Hv; discriminate); cbn [take app];
    repeat match goal with Hb : ?b = true |- context [?b] => rewrite Hb
                      | Hb : ?b = false |- context [?b] => rewrite Hb end; done.
Qed.

Lemma valid_fuel_enough f f' l : (List.length l <= f)%nat → (List.length l <= f')%nat →
  valid_fuel f l = valid_fuel f' l.
Proof.
  revert f' l. induction f as [|f IH]; intros [|f'] [|c l] Hf Hf'; try done; try (cbn in *; lia).
  cbn [valid_fuel]. f_equal. pose proof (DecodeRune_width c l).
  apply IH; rewrite length_drop; cbn [List.length] in *; lia.
Qed.
Lemma valid_cons c l : valid_bytes (c :: l) =
  negb (invalid_rune (DecodeRune (c :: l))) && valid_bytes (drop (DecodeRune (c :: l)).2 (c :: l)).
Proof.
  unfold valid_bytes at 1. cbn [List.length valid_fuel]. f_equal. pose proof (DecodeRune_width c l).
  apply valid_fuel_enough; rewrite ?length_drop; cbn [List.length] in *; lia.
Qed.
(** The bytes of one rune. *)
Definition chunk (w : list ascii) : Prop := w ≠ [] ∧
  ∀ rest, invalid_rune (DecodeRune (w ++ rest)) = false ∧ (DecodeRune (w ++ rest)).2 = List.length w.
Lemma first_chunk c l : invalid_rune (DecodeRune (c :: l)) = false → chunk (take (DecodeRune (c :: l)).2 (c :: l)).
Proof.
  intros Hv. pose proof (DecodeRune_width c l) as Hw. split.
  - destruct (DecodeRune (c :: l)).2; [lia|done].
  - intros rest. rewrite DecodeRune_take by done. split; [done|]. rewrite length_take. cbn [List.length] in *. lia.
Qed.
Lemma valid_chunk w l : chunk w → valid_bytes (w ++ l) = valid_bytes l.
Proof.
  intros [Hn Hw]. destruct (Hw l) as [Hv Hl]. destruct w as [|c w]; [done|]. cbn [app].
  rewrite valid_cons. change (c :: w ++ l) with ((c :: w) ++ l). by rewrite Hv, Hl, drop_app_length.
Qed.
Lemma valid_ind (P : list ascii → Prop) : P [] →
  (∀ w l, chunk w → valid_bytes l = true → P l → P (w ++ l)) → ∀ l, valid_bytes l = true → P l.
Proof.
  intros H0 H1 l. remember (List.length l) as n eqn:Hn. revert l Hn.
  induction (lt_wf n) as [n _ IH]; intros [|c l] -> Hv; [done|].
  rewrite valid_cons in Hv. apply andb_prop in Hv as [Hc%negb_true_iff Hl].
  rewrite <- (take_drop (DecodeRune (c :: l)).2 (c :: l)). pose proof (DecodeRune_width c l).
  apply H1; [by apply first_chunk|done|]. eapply IH; [|reflexivity|done]. rewrite length_drop. cbn [List.length] in *. lia.
Qed.
Lemma valid_app l l' : valid_bytes l = true → valid_bytes l' = true → valid_bytes (l ++ l') = true.
Proof.
  intros Hl Hl'. revert l Hl. apply (valid_ind (λ l, valid_bytes (l ++ l') = true)); [done|].
  intros w l Hw _ IH. rewrite <- app_assoc. by rewrite valid_chunk.
Qed.
Lemma to_valid_ok f rep b l : valid_bytes rep = true → valid_bytes (to_valid_fuel f rep b l) = true.
Proof.
  intros Hrep. revert b l. induction f as [|f IH]; intros b [|c l]; [done..|]. cbn [to_valid_fuel].
  destruct (invalid_rune (DecodeRune (c :: l))) eqn:Ei.
  - apply valid_app; [by destruct b|apply IH].
  - rewrite valid_chunk by (by apply first_chunk). apply IH.
Qed.

(** ** Labels *)
Definition label_ok (v : string) : Prop := ValidString v = true ∧ v ≠ "" ∧ (String.length v <= maxLabelValueLen)%nat.
Lemma longest_valid_ok n l : valid_bytes (longest_valid n l) = true ∧ (List.length (longest_valid n l) <= n)%nat.
Proof.
  induction n as [|n IH]; [done|]. cbn [longest_valid]. destruct IH as [IHv IHl].
  destruct (valid_bytes (take (S n) l)) eqn:Ev; [|split; [done|lia]].
  split; [done|]. rewrite length_take. lia.
Qed.
Lemma truncate_ok value : ValidString value = true →
  ValidString (truncateUTF8 value maxLabelValueLen) = true ∧
  (String.length (truncateUTF8 value maxLabelValueLen) <= maxLabelValueLen)%nat.
Proof.
  intros Hv. unfold truncateUTF8. destruct (Nat.leb_spec (String.length value) maxLabelValueLen); [done|].
  unfold ValidString. rewrite <- length_bytes, bytes_of_bytes. apply longest_valid_ok.
Qed.
Lemma sanitize_label value : label_ok (sanitizeLabelValue value).
Proof.
  unfold sanitizeLabelValue. set (v := if negb (ValidString value) then _ else value).
  assert (ValidString v = true) as Hv.
  { unfold v. destruct (ValidString value) eqn:E; [done|]. unfold ToValidUTF8, ValidString. cbn [negb].
    rewrite bytes_of_bytes. by apply to_valid_ok. }
  apply truncate_ok in Hv as [Hv Hl]. destruct (String.eqb_spec (truncateUTF8 v maxLabelValueLen) ""); [|by split].
  split; [done|]. split; [done|]. by apply Nat.leb_le.
Qed.
(** A label that is fine is what it says. *)
Lemma sanitize_id value : label_ok value → sanitizeLabelValue value = value.
Proof.
  intros (Hv & Hn & Hl). unfold sanitizeLabelValue. rewrite Hv. cbn [negb]. unfold truncateUTF8.
  apply Nat.leb_le in Hl as ->. by apply String.eqb_neq in Hn as ->.
Qed.

(** ** The series *)
Section scrape.
  Context `{Prometheus}.

Lemma emitMetric_ok d v ls : List.length ls = List.length (variableLabels d) → forallb ValidString ls = true →
  emitMetric d v ls = [mkMetric d v ls].
Proof. intros H1 H2. unfold emitMetric. by rewrite law_NewConstMetric. Qed.

Definition labels_of (d : Device) : string * string :=
  (sanitizeLabelValue (Device.Name d), sanitizeLabelValue (Device.Owner d)).
(** The series of one device. *)
Definition series_of (now : Time) (d : Device) : list Metric :=
  let labels := [(labels_of d).1; (labels_of d).2] in
  [mkMetric deviceConnectedDesc (if connected_at now d then 1 else 0) labels;
   mkMetric deviceBytesReceivedDesc (float64 (Device.ReceiveBytes d)) labels;
   mkMetric deviceBytesTransmittedDesc (float64 (Device.TransmitBytes d)) labels] ++
  match Device.LastHandshakeTime d with
  | Some t => [mkMetric deviceLastHandshakeDesc (float64 (Unix t)) labels]
  | None => []
  end.
Lemma labels_ok d : label_ok (labels_of d).1 ∧ label_ok (labels_of d).2.
Proof. split; apply sanitize_label. Qed.
Lemma emit_labels desc v d : variableLabels desc = deviceLabels →
  emitMetric desc v [(labels_of d).1; (labels_of d).2] = [mkMetric desc v [(labels_of d).1; (labels_of d).2]].
Proof.
  intros Hd. apply emitMetric_ok; [by rewrite Hd|]. cbn. destruct (labels_ok d) as [[Hn _] [Ho _]].
  unfold labels_of in Hn, Ho. cbn in Hn, Ho. by rewrite Hn, Ho.
Qed.

(** Which of the devices are exported. *)
Record exports (maxSeries : Z) (devs kept : list Device) : Prop := {
  kept_sub : kept `sublist_of` devs;
  kept_labels : NoDup (labels_of <$> kept);
  kept_cap : 0 < maxSeries → Z.of_nat (List.length kept) <= maxSeries;
  kept_all d : d ∈ devs → labels_of d ∈ labels_of <$> kept ∨ 0 < maxSeries <= Z.of_nat (List.length kept) }.

Definition series_made (now : Time) (devs kept : list Device) : series :=
  mkSeries (list_to_set (labels_of <$> kept)) (Z.of_nat (List.length devs) - Z.of_nat (List.length kept))
    (kept ≫= series_of now).
Lemma export_step now maxSeries devs kept d : exports maxSeries devs kept →
  ∃ kept', exports maxSeries (devs ++ [d]) kept' ∧
    export_device now maxSeries (series_made now devs kept) d = series_made now (devs ++ [d]) kept'.
Proof.
  intros [Hsub Hn Hcap Hall]. unfold export_device, series_made. cbn [seen dropped exported].
  change (sanitizeLabelValue (Device.Name d), sanitizeLabelValue (Device.Owner d)) with (labels_of d).
  assert (size (list_to_set (labels_of <$> kept) : gset (string * string)) = List.length kept) as ->.
  { rewrite size_list_to_set by done. apply length_fmap. }
  assert (exports maxSeries (devs ++ [d]) kept ∨
    labels_of d ∉ labels_of <$> kept ∧ (0 < maxSeries → Z.of_nat (List.length kept) < maxSeries)) as Hcase.
  { destruct (decide (labels_of d ∈ labels_of <$> kept)) as [Hin|Hout];
      [|destruct (decide (0 < maxSeries <= Z.of_nat (List.length kept))) as [Hf|Hf]; [|by right; split; [|lia]]].
    all: left; split; [by apply sublist_inserts_r|done|done|].
    all: intros x [Hx| ->%list_elem_of_singleton]%elem_of_app; [by apply Hall|]; auto. }
  case_bool_decide as Hin; [|destruct ((0 <? maxSeries) && _) eqn:Ef].
  - destruct Hcase as [He|[Hout _]]; [|by apply elem_of_list_to_set in Hin]. exists kept. split; [done|]. f_equal. rewrite length_app. cbn. lia.
  - apply andb_prop in Ef as [E1%Z.ltb_lt E2%Z.leb_le]. destruct Hcase as [He|[_ Hc]]; [|lia].
    exists kept. split; [done|]. f_equal. rewrite length_app. cbn. lia.
  - rewrite elem_of_list_to_set in Hin. exists (kept ++ [d]). split.
    + apply andb_false_iff in Ef. assert (0 < maxSeries → Z.of_nat (List.length kept) < maxSeries) as Hc.
      { intros Hm. destruct Ef as [Ef%Z.ltb_ge|Ef%Z.leb_gt]; lia. }
      split.
      * by apply sublist_app.
      * rewrite fmap_app, NoDup_app. repeat split; [done| |apply NoDup_singleton].
        by intros x Hx ->%list_elem_of_singleton.
      * rewrite length_app. cbn. lia.
      * intros x [Hx| ->%list_elem_of_singleton]%elem_of_app; rewrite fmap_app, elem_of_app;
          [|left; right; apply list_elem_of_here].
        destruct (Hall x Hx) as [?|?]; [by left; left|]. right. rewrite length_app. cbn. lia.
    + rewrite fmap_app, list_to_set_app_L, bind_app, !length_app. cbn [list_fmap fmap List.length list_to_set].
      f_equal; [set_solver|lia|]. f_equal. rewrite bind_singleton. unfold series_of. rewrite !emit_labels by done.
      by destruct (Device.LastHandshakeTime d); [rewrite emit_labels by done|].
Qed.
Lemma export_loop now maxSeries todo devs kept : exports maxSeries devs kept →
  ∃ kept', exports maxSeries (devs ++ todo) kept' ∧
    fold_left (export_device now maxSeries) todo (series_made now devs kept) = series_made now (devs ++ todo) kept'.
Proof.
  revert devs kept. induction todo as [|d todo IH]; intros devs kept He; cbn.
  - exists kept. by rewrite app_nil_r.
  - destruct (export_step now maxSeries devs kept d He) as (kept1 & He1 & ->).
    destruct (IH _ _ He1) as (kept' & He' & ->). exists kept'. by rewrite <- app_assoc in *.
Qed.
Lemma export_nothing maxSeries : exports maxSeries [] [].
Proof. split; [done|constructor|cbn; lia|]. by intros d ?%not_elem_of_nil. Qed.
Lemma collectPerDevice_spec now maxSeries devs : ∃ kept, exports maxSeries (merge_sort series_le devs) kept ∧
  collectPerDevice now maxSeries devs = (kept ≫= series_of now) ++
    [mkMetric deviceSeriesDroppedDesc
       (float64 (Z.of_nat (List.length devs) - Z.of_nat (List.length kept))) []].
Proof.
  destruct (export_loop now maxSeries (merge_sort series_le devs) [] [] (export_nothing _)) as (kept & He & E).
  exists kept. split; [exact He|]. unfold collectPerDevice.
  change (mkSeries ∅ 0 []) with (series_made now [] []). rewrite E, emitMetric_ok by done. cbn [app series_made exported dropped].
  by rewrite (Permutation_length (merge_sort_Permutation series_le devs)).
Qed.

(** What tells two series apart. *)
Lemma two_labels (a b : string * string) : [a.1; a.2] = [b.1; b.2] → a = b.
Proof. destruct a, b. cbn. congruence. Qed.
Definition series_id (m : Metric) : Desc * list string := (desc m, labelValues m).
Lemma series_of_id now d i : i ∈ series_id <$> series_of now d →
  variableLabels i.1 = deviceLabels ∧ i.2 = [(labels_of d).1; (labels_of d).2].
Proof.
  unfold series_of. rewrite fmap_app, elem_of_app. cbn. destruct (Device.LastHandshakeTime d); cbn;
    rewrite !elem_of_cons, ?elem_of_nil; naive_solver.
Qed.
Lemma series_distinct now kept : NoDup (labels_of <$> kept) → NoDup (series_id <$> (kept ≫= series_of now)).
Proof.
  induction kept as [|d kept IH]; intros Hn; [constructor|]. rewrite fmap_cons in Hn. apply NoDup_cons in Hn as [Hd Hn].
  rewrite bind_cons, fmap_app, NoDup_app. split; [|split; [|by apply IH]].
  - unfold series_of. destruct (Device.LastHandshakeTime d); cbn; repeat constructor; set_solver.
  - intros i [_ Hi]%series_of_id Hin. apply Hd. apply list_elem_of_fmap in Hin as (m & -> & Hm).
    apply list_elem_of_bind in Hm as (d' & Hm & Hd'). apply (list_elem_of_fmap_2 series_id), series_of_id in Hm as [_ Hm].
    apply list_elem_of_fmap. exists d'. split; [|done]. apply two_labels. by rewrite <- Hi, <- Hm.
Qed.
End scrape.

(** ** The order does not show *)
Lemma bytes_le_total a b : bytes_le a b = true ∨ bytes_le b a = true.
Proof.
  revert b. induction a as [|x a IH]; intros [|y b]; cbn; auto. rewrite (Z.eqb_sym (byte_of y)).
  destruct (Z.eqb_spec (byte_of x) (byte_of y)); [apply IH|]. rewrite !Z.ltb_lt. lia.
Qed.
Lemma bytes_le_trans a b c : bytes_le a b = true → bytes_le b c = true → bytes_le a c = true.
Proof.
  revert b c. induction a as [|x a IH]; intros [|y b] [|z c]; cbn; auto; [done|].
  destruct (Z.eqb_spec (byte_of x) (byte_of y)), (Z.eqb_spec (byte_of y) (byte_of z)), (Z.eqb_spec (byte_of x) (byte_of z));
    rewrite ?Z.ltb_lt; try lia. apply IH.
Qed.
Lemma bytes_le_antisym a b : bytes_le a b = true → bytes_le b a = true → a = b.
Proof.
  revert b. induction a as [|x a IH]; intros [|y b]; cbn; auto; [done..|]. rewrite (Z.eqb_sym (byte_of y)).
  destruct (Z.eqb_spec (byte_of x) (byte_of y)) as [E|]; rewrite ?Z.ltb_lt; [|lia].
  intros H1 H2. f_equal; [|by apply IH]. by rewrite <- (chr_byte_of x), <- (chr_byte_of y), E.
Qed.
Lemma string_le_antisym a b : string_le a b = true → string_le b a = true → a = b.
Proof. intros H1 H2. by apply bytes_inj, bytes_le_antisym. Qed.

#[export] Instance series_le_total : Total series_le.
Proof.
  intros a b. unfold series_le. rewrite (String.eqb_sym (Device.Owner b)).
  destruct (String.eqb_spec (Device.Owner a) (Device.Owner b)); apply bytes_le_total.
Qed.
#[export] Instance series_le_trans : Transitive series_le.
Proof.
  intros a b c. unfold series_le.
  destruct (String.eqb_spec (Device.Owner a) (Device.Owner b)) as [E1|E1],
    (String.eqb_spec (Device.Owner b) (Device.Owner c)) as [E2|E2],
    (String.eqb_spec (Device.Owner a) (Device.Owner c)) as [E3|E3]; try congruence; try apply bytes_le_trans.
  intros H1 H2. rewrite E3 in H1. by destruct (string_le_antisym _ _ H1 H2).
Qed.
Lemma series_le_key a b : series_le a b → series_le b a → Device.key a = Device.key b.
Proof.
  unfold series_le, Device.key. rewrite (String.eqb_sym (Device.Owner b)).
  destruct (String.eqb_spec (Device.Owner a) (Device.Owner b)) as [E|]; intros H1 H2;
    pose proof (string_le_antisym _ _ H1 H2); congruence.
Qed.
Lemma key_inj l a b : NoDup (Device.key <$> l) → a ∈ l → b ∈ l → Device.key a = Device.key b → a = b.
Proof.
  intros Hn [i Hi]%list_elem_of_lookup [j Hj]%list_elem_of_lookup E.
  assert (i = j) as <-; [|congruence].
  eapply (NoDup_lookup _ _ _ _ Hn); rewrite list_lookup_fmap; [by rewrite Hi|by rewrite Hj, E].
Qed.
(** Devices with different keys have one order. *)
Lemma series_sorted l l' : NoDup (Device.key <$> l) → Sorted series_le l → Sorted series_le l' → l ≡ₚ l' → l = l'.
Proof.
  intros Hn Hl Hl' Hp. apply (Sorted_unique_strong series_le); [|done..].
  intros a b Ha Hb H1 H2. apply (key_inj l); [done..|by rewrite Hp|by apply series_le_key].
Qed.

Lemma filter_every {A} (P : A → Prop) `{∀ x, Decision (P x)} (l : list A) : Forall P l → filter P l = l.
Proof. induction 1 as [|x l Hx _ IH]; [done|]. rewrite filter_cons_True by done. by f_equal. Qed.
Lemma filter_none {A} (P : A → Prop) `{∀ x, Decision (P x)} (l : list A) : Forall (λ x, ¬ P x) l → filter P l = [].
Proof. induction 1 as [|x l Hx _ IH]; [done|]. by rewrite filter_cons_False. Qed.

(** What the metrics read of a device: not the names of its owner. *)
Definition reading (d : Device) : Device := Device.with_OwnerNames "" "" d.
Lemma sorted_reading l : NoDup (Device.key <$> l) →
  merge_sort series_le (reading <$> l) = reading <$> merge_sort series_le l.
Proof.
  intros Hn. apply series_sorted.
  - rewrite merge_sort_Permutation, <- list_fmap_compose. exact Hn.
  - apply Sorted_merge_sort. apply _.
  - assert (Sorted series_le (merge_sort series_le l)) as Hs by (apply Sorted_merge_sort; apply _).
    induction Hs as [|d l' Hs IH Hd]; constructor; [done|]. by destruct Hd; constructor.
  - by rewrite !merge_sort_Permutation.
Qed.
Section order.
  Context `{Prometheus}.

Lemma fold_reading {A} (f : A → Device → A) l x : (∀ y d, f y (reading d) = f y d) →
  fold_left f (reading <$> l) x = fold_left f l x.
Proof. intros Hf. revert x. induction l as [|d l IH]; intros x; [done|]. cbn. by rewrite Hf, IH. Qed.
Lemma how_many_reading P l : (∀ d, P (reading d) = P d) → how_many P (reading <$> l) = how_many P l.
Proof.
  intros HP. unfold how_many. f_equal. induction l as [|d l IH]; [done|]. cbn. rewrite HP.
  destruct (P d); cbn; [f_equal|]; exact IH.
Qed.
Lemma collected_reading now maxSeries l : NoDup (Device.key <$> l) →
  collected now maxSeries (reading <$> l) = collected now maxSeries l.
Proof.
  intros Hn. unfold collected, collectPerDevice, total. rewrite sorted_reading by done.
  rewrite !fold_reading by done. rewrite !how_many_reading by done. by rewrite length_fmap.
Qed.
Lemma total_perm bytes_of l l' : l ≡ₚ l' → total bytes_of l = total bytes_of l'.
Proof.
  assert (∀ l n, n = wrap64 n → fold_left (λ n d, wrap64 (n + bytes_of d)) l n =
    wrap64 (n + foldr (λ d n, bytes_of d + n) 0 l)) as Hf.
  { clear. induction l as [|d l IH]; intros n Hn; cbn; [by rewrite Z.add_0_r|].
    rewrite IH by (by rewrite (wrap64_id (wrap64 _)); [|apply wrap64_range]).
    rewrite wrap64_add_l. f_equal. lia. }
  intros Hp. unfold total. rewrite !Hf by done. do 2 f_equal.
  apply foldr_permutation_proper; [apply _..|lia|done].
Qed.
Lemma how_many_perm P l l' : l ≡ₚ l' → how_many P l = how_many P l'.
Proof. intros Hp. unfold how_many. f_equal. induction Hp; cbn; repeat case_match; cbn; congruence. Qed.
Lemma collected_perm now maxSeries l l' : NoDup (Device.key <$> l) → l ≡ₚ l' →
  collected now maxSeries l = collected now maxSeries l'.
Proof.
  intros Hn Hp. unfold collected, collectPerDevice.
  rewrite (series_sorted (merge_sort series_le l) (merge_sort series_le l'));
    [|by rewrite merge_sort_Permutation|apply Sorted_merge_sort; apply _..|by rewrite !merge_sort_Permutation].
  by rewrite !(total_perm _ _ _ Hp), !(how_many_perm _ _ _ Hp), (Permutation_length Hp).
Qed.

Context {S : Type} `{StorageLaws S}.
Implicit Types (s : S).

Definition stored (s : S) : list Device := (map_to_list (devices (view s))).*2.
Lemma stored_keys s : ok s → NoDup (Device.key <$> stored s).
Proof.
  intros Hok. unfold stored. rewrite <- list_fmap_compose.
  rewrite (list_fmap_ext _ fst); [apply NoDup_fst_map_to_list|].
  intros i [k d] Hi%list_elem_of_lookup_2%elem_of_map_to_list. cbn. by apply (wf_dev_key _ (ok_wf s Hok)).
Qed.
Lemma listing s l s' : ok s → ListAllDevices s = (Ok l, s') → s' = s ∧ reading <$> l ≡ₚ reading <$> stored s.
Proof.
  intros Hok E. unfold ListAllDevices in E. minv.
  match goal with Hl : List_ _ _ = _ |- _ =>
    apply (query_ok _ _ _ _ _ (law_List "")) in Hl as [-> Hl]; [|done] end.
  assert (reading <$> x ≡ₚ reading <$> stored s) as Hx.
  { match goal with Hl : on_ok _ _ |- _ => rename Hl into Hrows end. cbn in Hrows. unfold lists_rows in Hrows.
    rewrite Hrows. unfold stored. apply Permutation_map. by rewrite (filter_every (λ d : Device, "" = "" ∨ Device.Owner d = "")) by (apply Forall_forall; auto). }
  unfold withOwnerNames in E. destruct (negb (existsb incomplete x)); [by minv|]. minv.
  match goal with Hu : Users s = _ |- _ => apply (query_ok _ _ _ _ _ law_Users) in Hu as [-> _]; [|done] end.
  split; [done|]. destruct x0 as [us|e]; [|done]. rewrite <- Hx, <- list_fmap_compose.
  rewrite (list_fmap_ext _ reading); [done|]. intros i d _. cbn. unfold complete. by destruct (_ !! _).
Qed.

(** A scrape in one piece: the aggregates, the series of the devices that are kept, and
    how many are not. *)
Definition aggregates (now : Time) (devs : list Device) : list Metric :=
  [mkMetric deviceScrapeErrorDesc 0 [];
   mkMetric devicesTotalDesc (float64 (Z.of_nat (List.length devs))) [];
   mkMetric devicesConnectedDesc (float64 (how_many (connected_at now) devs)) [];
   mkMetric devicesBlockedDesc (float64 (how_many (λ d, negb (Device.AccessAllowed d now)) devs)) [];
   mkMetric devicesBytesReceivedDesc (float64 (total Device.ReceiveBytes devs)) [];
   mkMetric devicesBytesTransmittedDesc (float64 (total Device.TransmitBytes devs)) []].
Definition scraped (now : Time) (maxSeries : Z) (devs kept : list Device) : list Metric :=
  aggregates now devs ++
  if maxSeries =? 0 then [] else (kept ≫= series_of now) ++
    [mkMetric deviceSeriesDroppedDesc
       (float64 (Z.of_nat (List.length devs) - Z.of_nat (List.length kept))) []].
Lemma collected_scraped now maxSeries devs : ∃ kept,
  (maxSeries = 0 → kept = []) ∧ (maxSeries ≠ 0 → exports maxSeries (merge_sort series_le devs) kept) ∧
  NoDup (labels_of <$> kept) ∧ collected now maxSeries devs = scraped now maxSeries devs kept.
Proof.
  unfold collected, scraped. rewrite !emitMetric_ok by done. cbn [app].
  destruct (Z.eqb_spec maxSeries 0) as [->|Hm]; cbn [negb].
  - exists []. split; [done|]. split; [done|]. by split; [constructor|].
  - destruct (collectPerDevice_spec now maxSeries devs) as (kept & He & ->). exists kept.
    split; [done|]. split; [done|]. by split; [destruct He|].
Qed.
Lemma scraped_ids now maxSeries devs kept : NoDup (labels_of <$> kept) →
  NoDup (series_id <$> scraped now maxSeries devs kept).
Proof.
  intros Hn. unfold scraped, aggregates. destruct (maxSeries =? 0).
  { rewrite app_nil_r. cbn. repeat constructor; set_solver. }
  pose proof (series_distinct now kept Hn) as Hd. rewrite !fmap_app. cbn [fmap list_fmap series_id desc labelValues].
  assert (∀ i, i ∈ series_id <$> (kept ≫= series_of now) → variableLabels i.1 = deviceLabels) as Hs.
  { intros i (m & -> & Hm)%list_elem_of_fmap. apply list_elem_of_bind in Hm as (d & Hm & _).
    by apply (list_elem_of_fmap_2 series_id), series_of_id in Hm as [Hm _]. }
  rewrite NoDup_app. split; [repeat constructor; set_solver|]. split.
  - intros i Hi. rewrite elem_of_app. intros [Hin%Hs|Hin].
    + rewrite !elem_of_cons, elem_of_nil in Hi. by destruct_or!; subst.
    + apply list_elem_of_singleton in Hin as ->. by rewrite !elem_of_cons, elem_of_nil in Hi; destruct_or!.
  - rewrite NoDup_app. split; [done|]. split; [|apply NoDup_singleton].
    by intros i Hi%Hs ->%list_elem_of_singleton.
Qed.
Lemma scraped_fits now maxSeries devs kept m : m ∈ scraped now maxSeries devs kept →
  desc m ∈ Describe maxSeries ∧ Forall label_ok (labelValues m).
Proof.
  unfold scraped, Describe. rewrite elem_of_app. intros [Hm|Hm].
  { unfold aggregates in Hm. rewrite !elem_of_cons, elem_of_nil in Hm.
    destruct_or!; subst; (split; [cbn; set_solver|constructor]). }
  destruct (maxSeries =? 0); [by apply not_elem_of_nil in Hm|]. apply elem_of_app in Hm as [Hm| ->%list_elem_of_singleton];
    [|cbn; split; [set_solver|constructor]].
  apply list_elem_of_bind in Hm as (d & Hm & _). destruct (labels_ok d) as [Hl1 Hl2].
  apply (list_elem_of_fmap_2 series_id), series_of_id in Hm as [Hv Hl]. cbn [series_id fst snd] in Hv, Hl. rewrite Hl. split.
  - clear -Hv. destruct (desc m); try discriminate Hv; set_solver.
  - apply Forall_cons. split; [exact Hl1|]. apply Forall_cons. split; [exact Hl2|constructor].
Qed.
Lemma scraped_series now maxSeries devs kept : (maxSeries = 0 → kept = []) →
  filter (λ m, labelValues m ≠ []) (scraped now maxSeries devs kept) = kept ≫= series_of now.
Proof.
  intros Hz. unfold scraped. rewrite filter_app, filter_none by (repeat constructor; cbn; tauto). cbn [app].
  destruct (Z.eqb_spec maxSeries 0) as [E|]; [by rewrite (Hz E)|]. rewrite filter_app, filter_every.
  - rewrite filter_none by (repeat constructor; cbn; tauto). apply app_nil_r.
  - apply Forall_forall. intros m (d & Hm & _)%list_elem_of_bind.
    apply (list_elem_of_fmap_2 series_id), series_of_id in Hm as [_ Hm]. cbn in Hm. by rewrite Hm.
Qed.

Lemma Collect_run now maxSeries s r s' : ok s → Collect now maxSeries s = (r, s') → s' = s ∧
  (r = Ok [mkMetric deviceScrapeErrorDesc 1 []] ∨
   ∃ devs, reading <$> devs ≡ₚ reading <$> stored s ∧ r = Ok (collected now maxSeries devs)).
Proof.
  intros Hok E. unfold Collect, m_bind, m_try, m_ret in E.
  destruct (ListAllDevices s) as [[devs|e] s1] eqn:El; injection E as <- <-.
  - destruct (listing _ _ _ Hok El) as [-> Hp]. split; [done|]. right. by exists devs.
  - unfold ListAllDevices, m_bind in El. destruct (List_ "" s) as [[l|e'] s2] eqn:E.
    + unfold withOwnerNames, m_bind, m_try, m_ret in El. destruct (negb _); [done|]. by destruct (Users s2).
    + injection El as _ <-. apply (query_err _ _ _ _ _ (law_List "")) in E as ->; [|done].
      split; [done|]. left. by rewrite emitMetric_ok.
Qed.
Lemma reading_keys l s : ok s → reading <$> l ≡ₚ reading <$> stored s → NoDup (Device.key <$> l).
Proof.
  intros Hok Hp. assert (Device.key <$> l = Device.key <$> (reading <$> l)) as -> by by rewrite <- list_fmap_compose.
  rewrite Hp, <- list_fmap_compose. by apply (stored_keys s).
Qed.
Lemma length_stored s : List.length (stored s) = size (devices (view s)).
Proof. unfold stored. rewrite length_fmap. apply length_map_to_list. Qed.
Lemma elem_of_stored s d : ok s → d ∈ stored s ↔ devices (view s) !! Device.key d = Some d.
Proof.
  intros Hok. unfold stored. rewrite list_elem_of_fmap. split.
  - intros ([k d'] & -> & Hin%elem_of_map_to_list). cbn. by apply (dev_key_lookup _ k); [apply ok_wf|].
  - intros Hl. exists (Device.key d, d). split; [done|]. by apply elem_of_map_to_list.
Qed.

End order.

(** ** Who is let in, and what a configuration comes to *)
(** With a user name and a hash configured, nobody gets the metrics without that name
    and a password the hash accepts. *)
Theorem metrics_protected {S W} `{Storage S, WireGuard W} `{Prometheus} `{PasswordHashing} deps now storage_ping
    credentials (d : DeviceManager S W) scrape d' :
  Username (Metrics_ deps) ≠ "" → PasswordHash (Metrics_ deps) ≠ "" →
  Endpoint deps now storage_ping credentials d = (Ok (Served scrape), d') →
  ∃ password, credentials = Some (Username (Metrics_ deps), password) ∧
    CompareHashAndPassword (PasswordHash (Metrics_ deps)) password = true.
Proof.
  intros Hu%String.eqb_neq Hp%String.eqb_neq. unfold Endpoint. rewrite Hu, Hp. cbn [orb]. unfold basicAuthHandler.
  destruct credentials as [[u p]|]; cbn [default from_option id];
    [rewrite bool_decide_true by done|rewrite bool_decide_false by tauto; intros [=]].
  destruct (String.eqb_spec u (Username (Metrics_ deps))) as [->|]; [|intros [=]].
  destruct (CompareHashAndPassword _ p) eqn:Ep; [|intros [=]]. intros _. by exists p.
Qed.
(** A cap of 0, which is documented to export no single devices, is one of 1000. *)
Theorem zero_exports_devices {S W} `{Storage S, WireGuard W} `{Prometheus} metadata devices_ config now storage_ping :
  MaxDeviceSeries config = 0 →
  Handler (S := S) (W := W) (mkDeps metadata devices_ config) now storage_ping =
  Handler (mkDeps metadata devices_ (mkMetricsConfig (Username config) (PasswordHash config) 1000)) now storage_ping.
Proof. intros Hz. unfold Handler, resolveMaxDeviceSeries. cbn. by rewrite Hz. Qed.

(** ** A concrete case *)
#[export, refine] Instance plain_prometheus : Prometheus := {|
  NewConstMetric d v ls :=
    if (List.length ls =? List.length (variableLabels d))%nat && forallb ValidString ls
    then Ok (mkMetric d v ls) else Err (PlainError "inconsistent labels") |}.
Proof. intros d v ls Hl%Nat.eqb_eq Hv. by rewrite Hl, Hv. Defined.
Definition alices_tablet : Device :=
  Device.mk "alice" "Alice" "" "simple" (str [116; 255; 254]) "k2" "" "10.44.0.3/32" 4 true None "" (Some 7000000000) 1 2 "".
Definition with_tablet : InMemoryStorage := (Save alices_tablet from_memory).2.
Lemma with_tablet_ok : ok with_tablet.
Proof. eapply ok_after; [apply law_Save|exact from_memory_ok]. Qed.
