(* ===== verification/Server.v ===== *)
(** * cmd/serve/main.go, wireguard.go, dns.go and internal/hooks: up and down again

    What the server brings up, in which order, and what takes it down: [Run] with
    its deferred calls, [startWireGuard] with the commands of the operator around
    it ([hooks.go]), [startDNS] and [listenAndServe]. What a step does to the host
    and whether it works is a parameter; that it was tried, and with which result, is
    recorded. [logrus.Fatal] ends the process: nothing that was deferred runs. *)
From S2P Require Import Prelude GoText GoQuote Network Host.

(** ** internal/hooks *)
Definition PreUp_ : string := "preUp".
Definition PostUp_ : string := "postUp".
Definition PreDown_ : string := "preDown".
Definition PostDown_ : string := "postDown".
Definition interfacePlaceholder : string := "%i".

(** Permission bits and, where the system says, the owner of a file. *)
Record FileInfo := mkFileInfo { Perm : Z; fileOwner : option Z }.
(** [%04o] of permission bits. *)
Definition octal4 (n : Z) : string :=
  of_bytes (digit <$> [n / 512; n / 64 mod 8; n / 8 mod 8; n mod 8]).
Definition VerifyConfigFile (stat : string → result FileInfo) (euid : Z) (path : string) : result unit :=
  fail! (PlainError "no config file: lifecycle commands can only be configured in one") when String.eqb path "";
  let? info := wrap "failed to read the config file permissions" (stat path) in
  fail! (PlainError ("config file " +:+ path +:+ " is writable by group or others (mode " +:+ octal4 (Perm info) +:+ ")"))
    when negb (Z.land (Perm info) 18 =? 0);
  match fileOwner info with
  | None => Err (PlainError ("failed to determine the owner of the config file " +:+ path))
  | Some owner =>
      fail! (PlainError ("config file " +:+ path +:+ " is owned by uid " +:+ Itoa owner +:+
               ", which is neither root nor the user running the server (uid " +:+ Itoa euid +:+ ")"))
        when negb (owner =? 0) && negb (owner =? euid);
      Ok tt
  end.

(** ** A process *)
Inductive action :=
  (* sh -c, of a phase *)
  | Command (phase command : string)
  | NewInterface | LoadConfig | ConfigureForwarding | CloseInterface
  | NewStorage | OpenStorage | CloseStorage
  | NewDNSServer | ListenDNS | RebuildZone | WatchDevices | StopZoneUpdater | CloseDNS
  | StartSync | StartCleanup | StopBackground
  | NewRouter | ListenHTTP | LoadTLSCert (cert key : string) | ListenHTTPS | WaitForSignal | ShutdownHTTP | ShutdownHTTPS.
#[export] Instance action_eq_dec : EqDecision action.
Proof. solve_decision. Defined.

Class Machine (W : Type) := { act : action → W → result unit * W }.
Record Process (W : Type) := mkProcess { machine : W; trace : list (action * bool) }.
Arguments mkProcess {W} _ _. Arguments machine {W} _. Arguments trace {W} _.

Inductive outcome (A : Type) := Done (a : A) | Exited (e : goerror).
Arguments Done {A} _. Arguments Exited {A} _.
Definition P (W A : Type) : Type := Process W → outcome A * Process W.

#[export] Instance P_ret {W} : MRet (P W) := λ A a s, (Done a, s).
#[export] Instance P_bind {W} : MBind (P W) := λ A B k m s,
  match m s with
  | (Done a, s') => k a s'
  | (Exited e, s') => (Exited e, s')
  end.

Section process.
  Context {W : Type} `{Machine W}.
  Notation P := (P W).

(** [logrus.Fatal] *)
Definition Fatal {A} (e : goerror) : P A := λ s, (Exited e, s).
Definition attempt (a : action) : P (result unit) := λ s,
  let '(r, w) := act a (machine s) in (Done r, mkProcess w (trace s ++ [(a, is_ok r)])).
(** An error that only goes to the log. *)
Definition ignored (a : action) : P unit := _ ← attempt a; mret tt.
Definition or_fatal (m : P (result unit)) : P unit :=
  r ← m; match r with Ok _ => mret tt | Err e => Fatal e end.
(** [defer stop()] in front of the rest of a function. *)
Definition deferring (stop body : P unit) : P unit := _ ← body; stop.

(** [hooks.Run] *)
Fixpoint run_hooks (phase iface : string) (commands : list string) : P (result unit) :=
  match commands with
  | [] => mret (Ok tt)
  | command :: commands =>
      let command := ReplaceAll command interfacePlaceholder iface in
      r ← attempt (Command phase command);
      match r with
      | Err e => mret (Err (WrappedError (phase +:+ " command failed: " +:+ command) e))
      | Ok _ => run_hooks phase iface commands
      end
  end.

(** ** The configuration of what follows *)
Record WireGuardConfig := mkWG {
  wg_Enabled : bool; wg_Interface : string;
  PreUp : list string; PostUp : list string; PreDown : list string; PostDown : list string }.
Record servecmd := mkServe {
  ConfigFilePath : string;
  WireGuard_ : WireGuardConfig;
  DNSEnabled : bool; DNSDomain_ : string;
  HttpEnabled_ : bool;
  HTTPSEnabled_ : bool; CertFile : string; KeyFile : string;
  (* what authnz.SessionMaxAge makes of the configuration *)
  session_max_age : result Z }.

Section run.
  Variables (stat : string → result FileInfo) (euid : Z) (cmd : servecmd).
  Notation conf := (WireGuard_ cmd).

(** ** wireguard.go *)
Definition lifecycleCommands : list (list string) := [PreUp conf; PostUp conf; PreDown conf; PostDown conf].
Definition verifyLifecycleCommands : P unit :=
  if existsb (λ commands, negb (bool_decide (commands = []))) lifecycleCommands then
    match VerifyConfigFile stat euid (ConfigFilePath cmd) with
    | Err e => Fatal (WrappedError "refusing to run the configured lifecycle commands" e)
    | Ok _ => mret tt
    end
  else mret tt.

Definition stopWireGuard : P unit :=
  _ ← run_hooks PreDown_ (wg_Interface conf) (PreDown conf);
  _ ← ignored CloseInterface;
  _ ← run_hooks PostDown_ (wg_Interface conf) (PostDown conf);
  mret tt.
(** The function that takes it down again, and the error. *)
Definition startWireGuard : P (P unit * result unit) :=
  _ ← verifyLifecycleCommands;
  if negb (wg_Enabled conf) then mret (mret tt, Ok tt) else
  _ ← or_fatal (run_hooks PreUp_ (wg_Interface conf) (PreUp conf));
  _ ← or_fatal (r ← attempt NewInterface; mret (wrap "failed to create WireGuard interface" r));
  r ← attempt LoadConfig;
  match r with
  | Err e => mret (stopWireGuard, Err (WrappedError "failed to load WireGuard config" e))
  | Ok _ =>
      r ← attempt ConfigureForwarding;
      match r with
      | Err e => mret (stopWireGuard, Err e)
      | Ok _ =>
          _ ← or_fatal (run_hooks PostUp_ (wg_Interface conf) (PostUp conf));
          mret (stopWireGuard, Ok tt)
      end
  end.

(** ** dns.go *)
Definition startDNS : P (P unit * result unit) :=
  if negb (DNSEnabled cmd) then mret (mret tt, Ok tt) else
  r ← attempt NewDNSServer;
  match r with
  | Err e => mret (mret tt, Err (WrappedError "failed to create dns server" e))
  | Ok _ =>
      _ ← ignored ListenDNS;
      if negb (String.eqb (DNSDomain_ cmd) "") then
        _ ← ignored RebuildZone;
        _ ← ignored WatchDevices;
        mret (_ ← ignored StopZoneUpdater; ignored CloseDNS, Ok tt)
      else mret (ignored CloseDNS, Ok tt)
  end.

(** ** http.go *)
(** The listeners run beside it; [WaitForSignal] fails when one of them does. *)
Definition listenAndServe : P (result unit) :=
  _ ← (if HttpEnabled_ cmd then ignored ListenHTTP else mret tt);
  listening ← (if HTTPSEnabled_ cmd then
      let '(certPath, keyPath) :=
        if String.eqb (CertFile cmd) "" || String.eqb (KeyFile cmd) "" then GetDefaultCertPaths
        else (CertFile cmd, KeyFile cmd) in
      r ← attempt (LoadTLSCert certPath keyPath);
      match r with
      | Err e => mret (Err (WrappedError "failed to load TLS certificate" e))
      | Ok _ => _ ← ignored ListenHTTPS; mret (Ok tt)
      end
    else mret (Ok tt));
  match listening with
  | Err e => mret (Err e)
  | Ok _ =>
      r ← attempt WaitForSignal;
      match r with
      | Err e => mret (Err e)
      | Ok _ =>
          _ ← ignored StopBackground;
          _ ← (if HttpEnabled_ cmd then ignored ShutdownHTTP else mret tt);
          _ ← (if HTTPSEnabled_ cmd then ignored ShutdownHTTPS else mret tt);
          mret (Ok tt)
      end
  end.

(** ** main.go *)
(** What runs while the storage is open and the DNS server is up. *)
Definition serve_requests : P unit :=
  r ← attempt StartSync;
  if negb (is_ok r) then mret tt else
  if negb (is_ok (session_max_age cmd)) then mret tt else
  _ ← ignored StartCleanup;
  r ← attempt NewRouter;
  if negb (is_ok r) then mret tt else
  _ ← listenAndServe; mret tt.
Definition Run : P unit :=
  started ← startWireGuard;
  deferring started.1 (
    if negb (is_ok started.2) then mret tt else
    r ← attempt NewStorage;
    if negb (is_ok r) then mret tt else
    r ← attempt OpenStorage;
    if negb (is_ok r) then mret tt else
    deferring (ignored CloseStorage) (
      dns ← startDNS;
      deferring dns.1 (
        if negb (is_ok dns.2) then mret tt else
        deferring (ignored StopBackground) serve_requests))).
End run.
End process.

(** ** The order of the steps

    What is up, the latest first. A step is in order when what it needs is up; taking
    down what came up last takes it off, taking down what is not up is nothing, and
    anything else is out of order. *)
Inductive resource := Interface | Database | DNSServer | ZoneUpdater | Loops.
#[export] Instance resource_eq_dec : EqDecision resource.
Proof. solve_decision. Defined.
Notation is_up r st := (bool_decide (r ∈ st)).

Definition in_order (trusted : bool) (a : action) (st : list resource) : bool :=
  match a with
  | Command phase _ =>
      trusted && (if String.eqb phase PreUp_ || String.eqb phase PostDown_ then negb (is_up Interface st)
                  else is_up Interface st)
  | LoadConfig | ConfigureForwarding => is_up Interface st
  | RebuildZone | WatchDevices => is_up DNSServer st && is_up Database st
  | StartSync => is_up Database st
  | StartCleanup | NewRouter | ListenHTTP | LoadTLSCert _ _ | ListenHTTPS | WaitForSignal =>
      is_up Loops st && is_up Database st
  | ShutdownHTTP | ShutdownHTTPS => is_up Database st
  | _ => true
  end.
(** The loops are started before what may fail in [StartSync]. *)
Definition brings_up (a : action) (worked : bool) : option resource :=
  match a with
  | NewInterface => if worked then Some Interface else None
  | OpenStorage => if worked then Some Database else None
  | ListenDNS => Some DNSServer
  | WatchDevices => Some ZoneUpdater
  | StartSync => Some Loops
  | _ => None
  end.
Definition takes_down (a : action) : option resource :=
  match a with
  | CloseInterface => Some Interface
  | CloseStorage => Some Database
  | CloseDNS => Some DNSServer
  | StopZoneUpdater => Some ZoneUpdater
  | StopBackground => Some Loops
  | _ => None
  end.
Definition step (trusted : bool) (up : option (list resource)) (e : action * bool) : option (list resource) :=
  st ← up;
  if negb (in_order trusted e.1 st) then None else
  match brings_up e.1 e.2, takes_down e.1 with
  | Some r, _ => Some (r :: st)
  | None, Some r =>
      match st with
      | r' :: below => if bool_decide (r = r') then Some below else if is_up r st then None else Some st
      | [] => Some []
      end
  | None, None => Some st
  end.
Definition replay (trusted : bool) (tr : list (action * bool)) (st : list resource) : option (list resource) :=
  fold_left (step trusted) tr (Some st).

Lemma replay_app trusted tr tr' st st' : replay trusted tr st = Some st' →
  replay trusted (tr ++ tr') st = replay trusted tr' st'.
Proof. unfold replay. intros E. by rewrite fold_left_app, E. Qed.

Section order.
  Context {W : Type} `{Machine W}.
  Notation P := (P W).
  Variable trusted : bool.

(** From [st] on, [m] keeps to the order and ends in [Q]; the process ends early with at
    most the interface up. *)
Definition wp {A} (m : P A) (st : list resource) (Q : A → list resource → Prop) : Prop :=
  ∀ s o s', m s = (o, s') → ∃ tr st', trace s' = trace s ++ tr ∧ replay trusted tr st = Some st' ∧
    match o with Done a => Q a st' | Exited _ => st' = [] ∨ st' = [Interface] end.

Lemma wp_ret {A} (a : A) st (Q : A → list resource → Prop) : Q a st → wp (mret a) st Q.
Proof. intros HQ s o s' [= <- <-]. exists [], st. by rewrite app_nil_r. Qed.
Lemma wp_bind {A B} (m : P A) (k : A → P B) st (Q : B → list resource → Prop) :
  wp m st (λ a st', wp (k a) st' Q) → wp (m ≫= k) st Q.
Proof.
  intros Hm s o s' E. unfold mbind, P_bind in E. destruct (m s) as [[a|e] s1] eqn:Em.
  - apply Hm in Em as (tr1 & st1 & Et1 & Er1 & Hk). apply Hk in E as (tr2 & st2 & Et2 & Er2 & HQ).
    exists (tr1 ++ tr2), st2. rewrite Et2, Et1, app_assoc. by rewrite (replay_app _ _ _ _ _ Er1).
  - injection E as <- <-. apply Hm in Em as (tr1 & st1 & Et1 & Er1 & Hk). by exists tr1, st1.
Qed.
Lemma wp_exit {A} e st (Q : A → list resource → Prop) : st = [] ∨ st = [Interface] → wp (Fatal e) st Q.
Proof. intros Hs s o s' [= <- <-]. exists [], st. by rewrite app_nil_r. Qed.
Lemma wp_attempt a st (Q : result unit → list resource → Prop) :
  (∀ r, ∃ st', step trusted (Some st) (a, is_ok r) = Some st' ∧ Q r st') → wp (attempt a) st Q.
Proof.
  intros Ha s o s' E. unfold attempt in E. destruct (act a (machine s)) as [r w]. injection E as <- <-.
  destruct (Ha r) as (st' & Est & HQ). by exists [(a, is_ok r)], st'.
Qed.
Lemma wp_ignored a st st' (Q : unit → list resource → Prop) :
  (∀ worked, step trusted (Some st) (a, worked) = Some st') → Q tt st' → wp (ignored a) st Q.
Proof. intros Ha HQ. apply wp_bind, wp_attempt. intros r. exists st'. split; [apply Ha|by apply wp_ret]. Qed.
Lemma wp_or_fatal (m : P (result unit)) st (Q : unit → list resource → Prop) :
  wp m st (λ r st', match r with Ok _ => Q tt st' | Err _ => st' = [] ∨ st' = [Interface] end) → wp (or_fatal m) st Q.
Proof.
  intros Hm. apply wp_bind. intros s o s' E. destruct (Hm s o s' E) as (tr & st' & H1 & H2 & H3). exists tr, st'.
  split; [done|]. split; [done|]. destruct o as [[[]|e]|]; [by apply wp_ret|by apply wp_exit|done].
Qed.
Lemma wp_weaken {A} (m : P A) st (Q Q' : A → list resource → Prop) : (∀ a st', Q a st' → Q' a st') →
  wp m st Q → wp m st Q'.
Proof.
  intros HQ Hm s o s' E. destruct (Hm s o s' E) as (tr & st' & H1 & H2 & H3). exists tr, st'.
  destruct o; auto.
Qed.
Lemma wp_hooks phase iface commands st (Q : result unit → list resource → Prop) :
  (∀ command, commands ≠ [] → in_order trusted (Command phase command) st = true) →
  (∀ r, Q r st) → wp (run_hooks phase iface commands) st Q.
Proof.
  intros Ho HQ. assert (∀ todo, (todo ≠ [] → commands ≠ []) → wp (run_hooks phase iface todo) st Q) as Hl; [|auto].
  induction todo as [|c todo IH]; intros Hn; cbn [run_hooks]; [by apply wp_ret|]. apply wp_bind, wp_attempt.
  intros r. exists st. split.
  { unfold step. cbn [mbind option_bind fst snd]. rewrite Ho by (by apply Hn). done. }
  destruct r as [[]|e]; [|by apply wp_ret]. apply IH. intros _. by apply Hn.
Qed.

Section run.
  Variables (stat : string → result FileInfo) (euid : Z) (cmd : servecmd).
  Hypothesis Htrusted : trusted = is_ok (VerifyConfigFile stat euid (ConfigFilePath cmd)).
  Notation conf := (WireGuard_ cmd).

(** Commands are configured only in a file that can be trusted. *)
Definition commands_trusted : Prop := ∀ commands, commands ∈ lifecycleCommands cmd → commands ≠ [] → trusted = true.
Lemma wp_verify (Q : unit → list resource → Prop) : (commands_trusted → Q tt []) →
  wp (verifyLifecycleCommands stat euid cmd) [] Q.
Proof.
  intros HQ. unfold verifyLifecycleCommands. destruct (existsb _ _) eqn:Ee.
  - destruct (VerifyConfigFile _ _ _) as [u|e] eqn:Ev; [|apply wp_exit; auto]. apply wp_ret, HQ. by intros _ _ _.
  - apply wp_ret, HQ. intros commands Hc Hn. exfalso. apply not_true_iff_false in Ee. apply Ee.
    apply existsb_exists. exists commands. split; [by apply list_elem_of_In|]. by rewrite bool_decide_false.
Qed.
Lemma wp_phase phase commands st (Q : result unit → list resource → Prop) : commands_trusted →
  commands ∈ lifecycleCommands cmd → in_order true (Command phase "") st = true →
  (∀ r, Q r st) → wp (run_hooks phase (wg_Interface conf) commands) st Q.
Proof.
  intros Hc Hin Ho HQ. apply wp_hooks; [|done]. intros command Hn. rewrite (Hc commands Hin Hn). exact Ho.
Qed.
Lemma wp_stopWireGuard : commands_trusted → wp (stopWireGuard cmd) [Interface] (λ _ st, st = []).
Proof.
  intros Hc. apply wp_bind. apply wp_phase; [done|unfold lifecycleCommands; set_solver|done|]. intros _.
  apply wp_bind. apply (wp_ignored _ _ []); [done|]. apply wp_bind.
  apply wp_phase; [done|unfold lifecycleCommands; set_solver|done|]. intros _. by apply wp_ret.
Qed.
(** Afterwards the function that is returned takes down what is up. *)
Definition stops (stop : P unit) (st0 st : list resource) : Prop := wp stop st (λ _ st', st' = st0).
Lemma wp_startWireGuard : wp (startWireGuard stat euid cmd) [] (λ started st,
  stops started.1 [] st ∧ (st = [] ∨ st = [Interface])).
Proof.
  apply wp_bind, wp_verify. intros Hc. destruct (negb _).
  { apply wp_ret. split; [by apply wp_ret|by left]. }
  apply wp_bind, wp_or_fatal, wp_phase; [done|unfold lifecycleCommands; set_solver|done|]. intros [[]|e]; [|by left].
  apply wp_bind, wp_or_fatal, wp_bind, wp_attempt. intros [[]|e]; eexists; (split; [reflexivity|]); apply wp_ret; [|by left].
  apply wp_bind, wp_attempt. intros r. exists [Interface]. split; [by destruct r|].
  destruct r as [[]|e]; [|apply wp_ret; split; [by apply wp_stopWireGuard|by right]].
  apply wp_bind, wp_attempt. intros r. exists [Interface]. split; [by destruct r|].
  destruct r as [[]|e]; [|apply wp_ret; split; [by apply wp_stopWireGuard|by right]].
  apply wp_bind, wp_or_fatal, wp_phase; [done|unfold lifecycleCommands; set_solver|done|]. intros [[]|e]; [|by right].
  apply wp_ret. split; [by apply wp_stopWireGuard|by right].
Qed.

(** Taking down what is not up, or what came up last. *)
Lemma step_down a r worked st : takes_down a = Some r → (∀ up, in_order trusted a up = true) →
  (∀ w, brings_up a w = None) → r ∉ st →
  step trusted (Some (r :: st)) (a, worked) = Some st ∧ step trusted (Some st) (a, worked) = Some st.
Proof.
  intros Ht Ho Hb Hr. unfold step. cbn [mbind option_bind fst snd]. rewrite !Ho, !Hb, Ht. cbn [negb].
  rewrite bool_decide_true by done. split; [done|]. destruct st as [|r' st]; [done|].
  rewrite (bool_decide_false (r = r')) by set_solver. by rewrite (bool_decide_false (r ∈ r' :: st)).
Qed.
Lemma wp_down a r st (Q : unit → list resource → Prop) : takes_down a = Some r → (∀ up, in_order trusted a up = true) →
  (∀ w, brings_up a w = None) → r ∉ st → Q tt st → wp (ignored a) (r :: st) Q ∧ wp (ignored a) st Q.
Proof.
  intros Ht Ho Hb Hr HQ. split; apply (wp_ignored _ _ st); try done; intros worked; by apply (step_down a r worked st).
Qed.
Lemma wp_deferring (stop body : P unit) st Q :
  wp body st (λ _ st', wp stop st' Q) → wp (deferring stop body) st Q.
Proof. apply wp_bind. Qed.

Lemma wp_startDNS st : Database ∈ st → DNSServer ∉ st → ZoneUpdater ∉ st →
  wp (startDNS cmd) st (λ dns st', stops dns.1 st st' ∧
    (st' = st ∨ st' = DNSServer :: st ∨ st' = ZoneUpdater :: DNSServer :: st)).
Proof.
  intros Hd Hn Hz. unfold startDNS. destruct (negb (DNSEnabled cmd)).
  { apply wp_ret. split; [by apply wp_ret|by left]. }
  apply wp_bind, wp_attempt. intros r. exists st. split; [by destruct r|].
  destruct r as [[]|e]; [|apply wp_ret; split; [by apply wp_ret|by left]].
  apply wp_bind. apply (wp_ignored _ _ (DNSServer :: st)); [done|].
  assert (wp (ignored CloseDNS) (DNSServer :: st) (λ _ st', st' = st)) as Hc by (by apply (wp_down CloseDNS DNSServer st)).
  assert (∀ a, a = RebuildZone ∨ a = WatchDevices → in_order trusted a (DNSServer :: st) = true) as Ho.
  { intros a [->| ->]; cbn; rewrite !bool_decide_true by set_solver; done. }
  destruct (negb _).
  - apply wp_bind. apply (wp_ignored _ _ (DNSServer :: st)); [intros worked; unfold step; cbn [mbind option_bind fst snd];
      by rewrite (Ho RebuildZone) by auto|].
    apply wp_bind. apply (wp_ignored _ _ (ZoneUpdater :: DNSServer :: st)); [intros worked; unfold step; cbn [mbind option_bind fst snd];
      by rewrite (Ho WatchDevices) by auto|].
    apply wp_ret. split; [|by auto]. apply wp_bind. apply (wp_down StopZoneUpdater ZoneUpdater (DNSServer :: st)); try done. set_solver.
  - apply wp_ret. split; [done|by auto].
Qed.
(** While the loops run and the storage is open. *)
Lemma step_serving a worked st : Database ∈ st → takes_down a = None → (∀ w, brings_up a w = None) →
  in_order trusted a (Loops :: st) = is_up Loops (Loops :: st) && is_up Database (Loops :: st) →
  step trusted (Some (Loops :: st)) (a, worked) = Some (Loops :: st).
Proof.
  intros Hd Hdown Hup Ho. unfold step. cbn [mbind option_bind fst snd]. rewrite Ho, Hdown, Hup.
  by rewrite !bool_decide_true by set_solver.
Qed.
Lemma step_shutting_down a worked st : Database ∈ st → a = ShutdownHTTP ∨ a = ShutdownHTTPS →
  step trusted (Some st) (a, worked) = Some st.
Proof. intros Hd [->| ->]; unfold step; cbn; by rewrite bool_decide_true. Qed.
Lemma wp_optional (b : bool) a st (Q : unit → list resource → Prop) :
  (∀ worked, step trusted (Some st) (a, worked) = Some st) → Q tt st → wp (if b then ignored a else mret tt) st Q.
Proof. intros Ha HQ. destruct b; [by apply (wp_ignored _ _ st)|by apply wp_ret]. Qed.
Lemma wp_listenAndServe st : Database ∈ st → Loops ∉ st →
  wp (listenAndServe cmd) (Loops :: st) (λ _ st', st' = st ∨ st' = Loops :: st).
Proof.
  intros Hd Hl. unfold listenAndServe. apply wp_bind, wp_optional; [intros; by apply step_serving|].
  apply wp_bind. apply (wp_weaken _ _ (λ _ st', st' = Loops :: st)); cycle 1.
  { destruct (HTTPSEnabled_ cmd); [|by apply wp_ret].
    destruct (if _ || _ then _ else _) as [certPath keyPath]. apply wp_bind, wp_attempt. intros r.
    exists (Loops :: st). split; [by apply step_serving|]. destruct r; [|by apply wp_ret].
    apply wp_bind. apply (wp_ignored _ _ (Loops :: st)); [intros; by apply step_serving|by apply wp_ret]. }
  intros [[]|e] _ ->; [|apply wp_ret; by right]. apply wp_bind, wp_attempt. intros r. exists (Loops :: st).
  split; [by apply step_serving|]. destruct r; [|apply wp_ret; by right].
  apply wp_bind, (wp_down StopBackground Loops st); try done.
  apply wp_bind, wp_optional; [intros; apply step_shutting_down; auto|].
  apply wp_bind, wp_optional; [intros; apply step_shutting_down; auto|]. apply wp_ret. by left.
Qed.
Lemma wp_serve_requests st : Database ∈ st → Loops ∉ st →
  wp (serve_requests cmd) st (λ _ st', st' = st ∨ st' = Loops :: st).
Proof.
  intros Hd Hl. apply wp_bind, wp_attempt. intros r. exists (Loops :: st). split.
  { unfold step. cbn [mbind option_bind fst snd in_order]. by rewrite bool_decide_true. }
  destruct (negb (is_ok r)); [apply wp_ret; by right|]. destruct (negb (is_ok _)); [apply wp_ret; by right|].
  apply wp_bind. apply (wp_ignored _ _ (Loops :: st)); [intros; by apply step_serving|].
  apply wp_bind, wp_attempt. intros r'. exists (Loops :: st). split; [by apply step_serving|].
  destruct (negb (is_ok r')); [apply wp_ret; by right|]. apply wp_bind.
  eapply wp_weaken; [|by apply wp_listenAndServe]. intros r2 st' Hst'. by apply wp_ret.
Qed.
Lemma wp_Run : wp (Run stat euid cmd) [] (λ _ st, st = []).
Proof.
  apply wp_bind. eapply wp_weaken; [|apply wp_startWireGuard]. intros started st [Hstop Hst]. apply wp_deferring.
  apply (wp_weaken _ _ (λ _ st', st' = st)); [by intros _ st' ->|].
  destruct (negb (is_ok started.2)); [by apply wp_ret|]. apply wp_bind, wp_attempt. intros r. exists st.
  split; [by destruct r|]. destruct (negb (is_ok r)); [by apply wp_ret|]. apply wp_bind, wp_attempt. intros r'.
  destruct r' as [[]|e]; cbn [is_ok negb]; eexists; (split; [reflexivity|]); [|by apply wp_ret].
  apply wp_deferring. apply (wp_weaken _ _ (λ _ st', st' = Database :: st)).
  { intros _ st' ->. apply (wp_down CloseStorage Database st); try done. destruct Hst as [->| ->]; set_solver. }
  apply wp_bind. eapply wp_weaken; [|apply wp_startDNS; destruct Hst as [->| ->]; set_solver].
  intros dns st1 [Hdns Hst1]. apply wp_deferring. apply (wp_weaken _ _ (λ _ st', st' = st1)); [by intros _ st' ->|].
  destruct (negb (is_ok dns.2)); [by apply wp_ret|]. apply wp_deferring.
  assert (Database ∈ st1 ∧ Loops ∉ st1) as [Hd Hl].
  { destruct_or!; subst; set_solver. }
  eapply wp_weaken; [|by apply wp_serve_requests]. intros _ st2 [->| ->]; by apply (wp_down StopBackground Loops st1).
Qed.
End run.
End order.


(** ** Concrete cases *)
(** A host on which one command fails. *)
#[export] Instance failing_host : Machine string := {|
  act a broken := (match a with
                   | Command _ command => if String.eqb command broken then Err (PlainError "exit status 1") else Ok tt
                   | _ => Ok tt
                   end, broken) |}.
Definition served : servecmd :=
  mkServe "/etc/wg.yaml" (mkWG true "wg0" ["modprobe wireguard"] ["ip rule add iif %i"] ["ip rule del iif %i"] [])
    true "vpn.lan" true true "" "" (Ok 3600).
Definition root_file : string → result FileInfo := λ _, Ok (mkFileInfo 420 (Some 0)).
(** A command after the interface is up that fails ends the process: the interface stays,
    and the commands that would undo the others do not run. *)
Theorem failed_hook_leaves_interface :
  let '(o, s') := Run root_file 1000 served (mkProcess "ip rule add iif wg0" []) in
  (∃ e, o = Exited e) ∧ replay true (trace s') [] = Some [Interface].
Proof. vm_compute. split; [by eexists|done]. Qed.
