(* ===== verification/FirewallTheorems.v ===== *)
(** * The properties of the firewall

    What a client of the VPN reaches through the nftables ruleset, and that the
    iptables backend builds the same rules whatever it finds. *)
From S2P Require Import Prelude GoText GoQuote Netip NetipText NetipRoundTrip Network Firewall FirewallSpecs.

Lemma existsb_map {A B} (p : B → bool) (g : A → B) l : existsb p (g <$> l) = true ↔ ∃ x, x ∈ l ∧ p (g x) = true.
Proof.
  rewrite existsb_exists. split.
  - intros (y & Hin & Hp). apply list_elem_of_In, list_elem_of_fmap in Hin as (x & -> & Hx). by exists x.
  - intros (x & Hx & Hp). exists (g x). split; [|done]. apply list_elem_of_In, list_elem_of_fmap. by exists x.
Qed.

Section theorems.
  Context `{UnicodeTables}.

(** The address is one of the policy's members' devices, in this family. *)
Definition in_policy (f : family) (pol : Policy) (a : Addr) : Prop :=
  in_texts (addressesOfFamily (pol_Members pol) f) a.
(** The policy names a network of this family the address is in. *)
Definition policy_allows (f : family) (pol : Policy) (a : Addr) : Prop :=
  ∃ n p, n ∈ pol_AllowedIPs pol ∧ ParsePrefix n = Some p ∧ Is4 (Unmap (PAddr p)) = is_ip f ∧ Contains p a = true.

Lemma families_keywords options : Forall keyword_ok (families options) ∧ NoDup (keyword <$> families options).
Proof.
  unfold families. split.
  - apply Forall_forall. intros f [_ Hf]%list_elem_of_filter.
    apply elem_of_cons in Hf as [->|Hf]; [by left|]. apply list_elem_of_singleton in Hf as ->. by right.
  - rewrite !filter_cons. repeat case_decide; cbn; repeat constructor; set_solver.
Qed.

Lemma family_policies options f r : family_ruleset options f = Ok r →
  ∃ l, policiesOfFamily (fo_Policies options) f = Ok l.
Proof.
  unfold family_ruleset. destruct (ParsePrefix (f_cidr f)); [|done]. intros E.
  apply rbind_ok in E as (l & Hl & _). by exists l.
Qed.

(** ** The forward chain of one family, piece by piece *)
Section chain.
  Context (sets : list NftSet) (f : family) (src dst : Addr).
  Context (Hsrc : keyword f = family_keyword src) (Hdst : keyword f = family_keyword dst).
  Notation passes rules := (chain_verdict sets rules src dst ≠ Some Reject).

Lemma accept_matches sa d :
  rule_matches sets src dst (accept f sa d) = matches sets sa src && matches sets d dst.
Proof. unfold rule_matches, accept. cbn. by rewrite <- Hsrc, <- Hdst, String.eqb_refl. Qed.
Lemma reject_matches sa : rule_matches sets src dst (reject f sa) = matches sets sa src.
Proof. unfold rule_matches, reject. cbn. by rewrite <- Hsrc, <- Hdst, String.eqb_refl, andb_true_r. Qed.

Lemma accepts_then (g : string → Rule) ts rest : (∀ t, r_verdict (g t) = Accept) →
  passes ((g <$> ts) ++ rest) ↔ (∃ t, t ∈ ts ∧ rule_matches sets src dst (g t) = true) ∨ passes rest.
Proof.
  intros Hg. rewrite chain_verdict_app, (chain_verdict_same _ _ Accept).
  - destruct (existsb (rule_matches sets src dst) (g <$> ts)) eqn:Ex.
    + split; [|done]. intros _. left. by apply existsb_map.
    + split; [by right|]. intros [Hx|Hx]; [|done]. apply existsb_map in Hx. congruence.
  - apply Forall_fmap, Forall_forall. intros t _. apply Hg.
Qed.

(** Rules that let the clients' own network through to what the texts name. *)
Lemma client_accepts_then cidr ts rest : net_matches cidr src = true →
  passes (((λ t, accept f (Net cidr) (Net t)) <$> ts) ++ rest) ↔
  (∃ t, t ∈ ts ∧ net_matches t dst = true) ∨ passes rest.
Proof.
  intros Hc. rewrite accepts_then by done. setoid_rewrite accept_matches. cbn [matches]. by rewrite Hc.
Qed.

Lemma policies_then l rest : nat f = true →
  passes ((l ≫= policy_rules f) ++ rest) ↔
  (∃ q n, q ∈ l ∧ n ∈ pol_AllowedIPs q ∧ net_matches n dst = true ∧
    set_matches sets (policySetName (pol_Name q) f) src = true) ∨ passes rest.
Proof.
  intros Hnat. induction l as [|q l IH]; cbn [mbind list_bind app].
  - split; [by right|]. intros [(q & n & Hq & _)|]; [by apply not_elem_of_nil in Hq|done].
  - unfold policy_rules at 1. rewrite Hnat, app_nil_r, <- (assoc_L (++)), accepts_then by done. rewrite IH. split.
    + intros [(n & Hn & Hm)|[(q' & n & Hq' & ?)|?]]; [|left; exists q', n; split; [by right|done]|by right].
      rewrite accept_matches in Hm. cbn [matches] in Hm. apply andb_true_iff in Hm as [Hm1 Hm2].
      left. exists q, n. split; [left|done].
    + intros [(q' & n & [->|Hq']%elem_of_cons & Hn & Hm1 & Hm2)|?]; [left|right; left; by exists q', n|by right; right].
      exists n. split; [done|]. rewrite accept_matches. cbn [matches]. by rewrite Hm1, Hm2.
Qed.

Lemma reject_then sa rest : passes (reject f sa :: rest) ↔ matches sets sa src = false ∧ passes rest.
Proof. cbn [chain_verdict]. rewrite reject_matches. cbn. destruct (matches sets sa src); naive_solver. Qed.
End chain.

(** The rules of one family for a packet from a client, with NAT and without
    client isolation. *)
Lemma family_verdict options rs f r l src dst : families_ruleset options (families options) = Ok rs →
  family_ruleset options f = Ok r → policiesOfFamily (fo_Policies options) f = Ok l →
  keyword f = family_keyword src → keyword f = family_keyword dst →
  nat f = true → ClientIsolation options = false →
  (∃ p, ParsePrefix (f_cidr f) = Some p ∧ Contains p src = true) →
  chain_verdict (rs_sets rs) (rs_forward r) src dst ≠ Some Reject ↔
  (l ≠ [] ∧ ∃ t, t ∈ addressesOfFamily (ServerAddresses options) f ∧ net_matches t dst = true) ∨
  (∃ q n, q ∈ l ∧ n ∈ pol_AllowedIPs q ∧ net_matches n dst = true ∧
     set_matches (rs_sets rs) (policySetName (pol_Name q) f) src = true) ∨
  ((l = [] ∨ set_matches (rs_sets rs) (policyMembersSetName f) src = false) ∧
     ∃ t, t ∈ f_allowed f ∧ net_matches t dst = true).
Proof.
  intros Hrs Hr Hl Hks Hkd Hnat Hiso (p & Hp & Hsrc). unfold family_ruleset in Hr. rewrite Hp, Hl in Hr.
  cbn [rbind] in Hr. injection Hr as <-. rewrite Hiso, Hnat. cbn [rs_forward rs_app app].
  set (sets := rs_sets rs). set (cidr := PrefixString (Masked p)).
  assert (net_matches cidr src = true) as Hcidr.
  { unfold cidr. rewrite net_matches_prefix; [done|]. by eapply ParsePrefix_wf. }
  assert (chain_verdict sets (((λ t, accept f (Net cidr) (Net t)) <$> f_allowed f) ++ [reject f (Net cidr)])
    src dst ≠ Some Reject ↔ ∃ t, t ∈ f_allowed f ∧ net_matches t dst = true) as Hallowed.
  { rewrite client_accepts_then, reject_then by done. cbn [matches]. rewrite Hcidr. naive_solver. }
  destruct l as [|q0 l0].
  { cbn [policies_ruleset rs_forward app]. rewrite Hallowed. split.
    - intros Ha. right. right. split; [by left|done].
    - intros [[? _]|[(q & n & Hq & _)|[_ Ha]]]; [done|by apply not_elem_of_nil in Hq|done]. }
  cbn [policies_ruleset rs_forward]. set (l := q0 :: l0) in *. assert (l ≠ []) as Hne by done. clearbody l.
  rewrite <- !(assoc_L (++)), client_accepts_then, policies_then by done. cbn [app].
  rewrite reject_then, Hallowed by done. cbn [matches].
  destruct (set_matches sets (policyMembersSetName f) src); naive_solver.
Qed.

(** The reduced policies are those of the options. *)
Lemma reduced_policies options f l n src dst : policiesOfFamily (fo_Policies options) f = Ok l →
  (∃ q, q ∈ l ∧ (pol_Name q = n) ∧ in_texts (pol_Members q) src ∧
     ∃ t, t ∈ pol_AllowedIPs q ∧ net_matches t dst = true) ↔
  (∃ pol, pol ∈ fo_Policies options ∧ pol_Name pol = n ∧ in_policy f pol src ∧ policy_allows f pol dst).
Proof.
  intros Hl. apply policiesOfFamily_spec in Hl.
  assert (∀ pol q, prefixesOfFamily (pol_AllowedIPs pol) f = Ok (pol_AllowedIPs q) →
    (∃ t, t ∈ pol_AllowedIPs q ∧ net_matches t dst = true) ↔ policy_allows f pol dst) as Hallow.
  { intros pol q Hq. unfold policy_allows. setoid_rewrite (prefixesOfFamily_spec _ _ _ _ Hq). split.
    - intros (t & (m & p & Hm & Hp & Hf & ->) & Hd). exists m, p.
      rewrite net_matches_prefix in Hd by by eapply ParsePrefix_wf. done.
    - intros (m & p & Hm & Hp & Hf & Hd). exists (PrefixString (Masked p)). split; [by exists m, p|].
      rewrite net_matches_prefix; [done|by eapply ParsePrefix_wf]. }
  split.
  - intros (q & Hq & Hn & Hs & Hd). apply list_elem_of_lookup in Hq as [i Hi].
    eapply Forall2_lookup_r in Hl as (pol & Hpol & En & Ep & Em); [|done]. exists pol.
    split; [by eapply list_elem_of_lookup_2|]. split; [congruence|]. unfold in_policy. rewrite <- Em.
    split; [done|]. by apply (Hallow pol q Ep).
  - intros (pol & Hpol & Hn & Hs & Hd). apply list_elem_of_lookup in Hpol as [i Hi].
    eapply Forall2_lookup_l in Hl as (q & Hq & En & Ep & Em); [|done]. exists q.
    split; [by eapply list_elem_of_lookup_2|]. split; [congruence|]. rewrite Em. split; [done|].
    by apply (Hallow pol q Ep).
Qed.
Lemma reduced_members options f l src : policiesOfFamily (fo_Policies options) f = Ok l →
  (∃ q, q ∈ l ∧ in_texts (pol_Members q) src) ↔ ∃ pol, pol ∈ fo_Policies options ∧ in_policy f pol src.
Proof.
  intros Hl. apply policiesOfFamily_spec in Hl. unfold in_policy. split.
  - intros (q & Hq & Hs). apply list_elem_of_lookup in Hq as [i Hi].
    eapply Forall2_lookup_r in Hl as (pol & Hpol & _ & _ & Em); [|done]. exists pol.
    split; [by eapply list_elem_of_lookup_2|]. by rewrite <- Em.
  - intros (pol & Hpol & Hs). apply list_elem_of_lookup in Hpol as [i Hi].
    eapply Forall2_lookup_l in Hl as (q & Hq & _ & _ & Em); [|done]. exists q.
    split; [by eapply list_elem_of_lookup_2|]. by rewrite Em.
Qed.

(** Two policies of the reduced list that share a name are the same. *)
Lemma reduced_names options f l q q' : policiesOfFamily (fo_Policies options) f = Ok l →
  NoDup (pol_Name <$> fo_Policies options) → q ∈ l → q' ∈ l → pol_Name q = pol_Name q' → q = q'.
Proof.
  intros Hl%policiesOfFamily_spec Hn Hq Hq' E.
  assert (pol_Name <$> l = pol_Name <$> fo_Policies options) as Hnames.
  { clear -Hl. induction Hl as [|pol q ps l (En & _) _ IH]; [done|]. cbn. by rewrite En, IH. }
  rewrite <- Hnames in Hn. apply list_elem_of_lookup in Hq as [i Hi], Hq' as [j Hj].
  assert (i = j) as ->; [|congruence].
  eapply (NoDup_lookup _ _ _ (pol_Name q) Hn); rewrite list_lookup_fmap; [by rewrite Hi|by rewrite Hj, E].
Qed.

(** What a client of the VPN reaches through the nftables rules, with NAT
    and without client isolation: a client whose owner is in access policies
    reaches the server and the networks of those policies, and nothing else;
    any other client reaches the networks allowed to all (and the server).
    This needs no policy to be called "members". *)
Theorem policies_confine options rs f src dst : ruleset options = Ok rs → f ∈ families options →
  keyword f = family_keyword src → keyword f = family_keyword dst →
  nat f = true → ClientIsolation options = false →
  NoDup (pol_Name <$> fo_Policies options) → (∀ pol, pol ∈ fo_Policies options → pol_Name pol ≠ "members") →
  (∃ p, ParsePrefix (f_cidr f) = Some p ∧ Contains p src = true) →
  forwards rs src dst = true ↔
  (fo_Policies options ≠ [] ∧ ∃ t, t ∈ addressesOfFamily (ServerAddresses options) f ∧ net_matches t dst = true) ∨
  (∃ pol, pol ∈ fo_Policies options ∧ in_policy f pol src ∧ policy_allows f pol dst) ∨
  ((∀ pol, pol ∈ fo_Policies options → ¬ in_policy f pol src) ∧
     ∃ t, t ∈ f_allowed f ∧ net_matches t dst = true).
Proof.
  intros E Hf Hks Hkd Hnat Hiso Hn Hmem Hsrc. unfold ruleset in E. rinv.
  destruct (families_keywords options) as [Hkey Hnd].
  destruct (families_verdict options _ _ _ src dst E Hnd Hf Hks) as (r & Hr & Hv).
  destruct (family_policies _ _ _ Hr) as [l Hl].
  assert (forwards rs src dst = true ↔ chain_verdict (rs_sets rs) (rs_forward r) src dst ≠ Some Reject) as ->.
  { unfold forwards. rewrite Hv. destruct (chain_verdict _ _ _ _) as [[]|]; naive_solver. }
  rewrite (family_verdict options rs f r l) by done.
  pose proof (λ n, set_matches_spec options _ rs f r l n src E Hkey Hnd Hf Hr Hl) as Hset.
  assert (l ≠ [] ↔ fo_Policies options ≠ []) as ->.
  { apply policiesOfFamily_spec in Hl. inversion Hl; naive_solver. }
  f_equiv. f_equiv.
  - split.
    + intros (q & n & Hq & Hin & Hd & [q' Hq']%Hset). destruct Hq' as (Hq' & Hname & Hs).
      assert (pol_Name q ≠ "members") as Hm.
      { apply policiesOfFamily_spec in Hl. apply list_elem_of_lookup in Hq as [i Hi].
        eapply Forall2_lookup_r in Hl as (pol & Hpol & -> & _); [|done]. apply Hmem. by eapply list_elem_of_lookup_2. }
      destruct Hname as [Hname|Hname]; [|done].
      assert (q' = q) as -> by by eapply (reduced_names options f l).
      assert (∃ pol, pol ∈ fo_Policies options ∧ pol_Name pol = pol_Name q ∧ in_policy f pol src ∧ policy_allows f pol dst)
        as (pol & ? & _ & ?); [|by exists pol].
      apply (reduced_policies options f l); [done|]. exists q. split; [done|]. split; [done|]. split; [done|]. by exists n.
    + intros (pol & Hpol & Hs & Hd).
      assert (∃ q, q ∈ l ∧ pol_Name q = pol_Name pol ∧ in_texts (pol_Members q) src ∧
        ∃ t, t ∈ pol_AllowedIPs q ∧ net_matches t dst = true) as (q & Hq & Hname & Hs' & t & Ht & Hd').
      { apply (reduced_policies options f l); [done|]. by exists pol. }
      exists q, t. split; [done|]. split; [done|]. split; [done|]. apply Hset. exists q. split; [done|].
      split; [by left|done].
  - f_equiv. rewrite members_set, <- not_true_iff_false, Hset.
    pose proof (reduced_members options f l src Hl) as Hmembers. split.
    + intros Hno pol Hpol Hs. assert (∃ q, q ∈ l ∧ in_texts (pol_Members q) src) as (q & Hq & Hq') by (apply Hmembers; eauto).
      destruct Hno as [->|Hno]; [by apply not_elem_of_nil in Hq|]. apply Hno. exists q. auto.
    + intros Hno. right. intros (q & Hq & _ & Hq'). destruct (proj1 Hmembers) as (pol & Hpol & Hs); [by exists q|].
      by eapply Hno.
Qed.

(** A policy called "members", which the check of names lets through, opens
    its networks to the members of every policy: its set is the one that
    collects them all. *)
Theorem members_policy_leaks options rs f src dst pol other : ruleset options = Ok rs → f ∈ families options →
  keyword f = family_keyword src → keyword f = family_keyword dst →
  nat f = true → ClientIsolation options = false →
  (∃ p, ParsePrefix (f_cidr f) = Some p ∧ Contains p src = true) →
  pol ∈ fo_Policies options → pol_Name pol = "members" → policy_allows f pol dst →
  other ∈ fo_Policies options → in_policy f other src →
  ValidPolicyName "members" = true ∧ forwards rs src dst = true.
Proof.
  intros E Hf Hks Hkd Hnat Hiso Hsrc Hpol Hname Hd Hother Hs. split; [reflexivity|]. unfold ruleset in E. rinv.
  destruct (families_keywords options) as [Hkey Hnd].
  destruct (families_verdict options _ _ _ src dst E Hnd Hf Hks) as (r & Hr & Hv).
  destruct (family_policies _ _ _ Hr) as [l Hl].
  assert (chain_verdict (rs_sets rs) (rs_forward r) src dst ≠ Some Reject) as Hpass.
  { apply (family_verdict options rs f r l); [done..|]. right. left.
    pose proof Hl as Hl'. apply policiesOfFamily_spec in Hl'.
    destruct (proj2 (reduced_members options f l src Hl)) as (q' & Hq' & Hs'); [by exists other|].
    apply list_elem_of_lookup in Hpol as [i Hi].
    eapply Forall2_lookup_l in Hl' as (q & Hq & En & Ep & _); [|done].
    destruct Hd as (m & p & Hm & Hp & Hfam & Hdst). exists q, (PrefixString (Masked p)).
    split; [by eapply list_elem_of_lookup_2|]. split; [apply (prefixesOfFamily_spec _ _ _ _ Ep); by exists m, p|].
    split; [rewrite net_matches_prefix; [done|by eapply ParsePrefix_wf]|].
    eapply set_matches_spec; [done..|]. exists q'. split; [done|]. split; [right; congruence|done]. }
  unfold forwards. rewrite Hv. destruct (chain_verdict _ _ _ _) as [[]|]; done.
Qed.
End theorems.

(** ** The iptables backend on the plain tables *)
Definition append_unique (rules : list Spec) (spec : Spec) : list Spec :=
  if decide (spec ∈ rules) then rules else rules ++ [spec].
Definition forward_specs (options : ForwardingOptions) (f : family) : list Spec :=
  isolation_specs options f ++ allowed_specs f ++ return_specs f ++ [["-s"; f_cidr f; "-j"; "REJECT"]].
Definition masquerade_specs (options : ForwardingOptions) (f : family) : list Spec :=
  if negb (String.eqb (GatewayIface options) "") && nat f
  then [["-s"; f_cidr f; "-o"; GatewayIface options; "-j"; "MASQUERADE"]] else [].

(** A chain gets new rules, the others stay. *)
Definition with_chain (k : string * string * string) (rules : list Spec) (t : Tables) : Tables :=
  on_chains <[k := rules]> t.
Lemma with_chain_twice k r1 r2 t : with_chain k r2 (with_chain k r1 t) = with_chain k r2 t.
Proof. unfold with_chain, on_chains. cbn. by rewrite insert_insert_eq. Qed.

Lemma on_chain_run p t c f s rules : chains s !! (p, t, c) = Some rules →
  on_chain p t c f s = (Ok tt, with_chain (p, t, c) (f rules) s).
Proof. intros E. unfold on_chain. by rewrite E. Qed.

Lemma append_all p t c specs s rules (m : Spec → M Tables unit) :
  (∀ spec s s', AppendUnique p t c spec s = (Ok tt, s') → m spec s = (Ok tt, s')) →
  chains s !! (p, t, c) = Some rules →
  m_for m specs s = (Ok tt, with_chain (p, t, c) (fold_left append_unique specs rules) s).
Proof.
  intros Hm. revert s rules. induction specs as [|spec specs IH]; intros s rules E; cbn [m_for fold_left].
  - unfold with_chain, on_chains, m_ret. rewrite insert_id by done. by destruct s.
  - unfold m_bind. rewrite (Hm spec s (with_chain (p, t, c) (append_unique rules spec) s)).
    + rewrite (IH _ (append_unique rules spec)) by apply lookup_insert_eq. by rewrite with_chain_twice.
    + apply (on_chain_run p t c (λ rules, append_unique rules spec)). done.
Qed.

Lemma clearOrCreate_run p t c s : clearOrCreateChain p t c s = (Ok tt, with_chain (p, t, c) [] s).
Proof.
  unfold clearOrCreateChain, m_bind, m_wrap. cbn. case_bool_decide as Hc.
  - destruct Hc as [rules Hr]. unfold on_chain. by rewrite Hr.
  - by rewrite bool_decide_eq_false_2.
Qed.

Lemma m_wrap_run {A} msg (m : M Tables A) s a s' : m s = (Ok a, s') → m_wrap msg m s = (Ok a, s').
Proof. unfold m_wrap. by intros ->. Qed.
Lemma append_run p t c spec s rules : chains s !! (p, t, c) = Some rules →
  AppendUnique p t c spec s = (Ok tt, with_chain (p, t, c) (append_unique rules spec) s).
Proof. apply (on_chain_run p t c (λ rules, append_unique rules spec)). Qed.
Lemma chains_with_chain k rules s : chains (with_chain k rules s) = <[k := rules]> (chains s).
Proof. reflexivity. Qed.
Lemma with_chain_eq k rules s : chains (with_chain k rules s) !! k = Some rules.
Proof. apply lookup_insert_eq. Qed.
Lemma with_chain_ne k k' rules s : k ≠ k' → chains (with_chain k rules s) !! k' = chains s !! k'.
Proof. apply lookup_insert_ne. Qed.
Lemma fold_append_app l1 l2 rules :
  fold_left append_unique l2 (fold_left append_unique l1 rules) = fold_left append_unique (l1 ++ l2) rules.
Proof. by rewrite fold_left_app. Qed.

Ltac chain_step tac := erewrite m_bind_step; [|tac].

(** Whatever the tables held before, the iptables backend leaves its two
    chains with exactly the rules of the options - isolation, the allowed
    networks, the way back when there is no NAT, and the final reject - in that
    order, hooks them up, and touches no other chain of anybody. *)
Theorem iptables_chains options f s fwd post :
  chains s !! (keyword f, "filter", "FORWARD") = Some fwd →
  chains s !! (keyword f, "nat", "POSTROUTING") = Some post →
  ∃ s', configureIPTablesFamily options f s = (Ok tt, s') ∧
    chains s' = <[(keyword f, "nat", postroutingChain) := fold_left append_unique (masquerade_specs options f) []]>
      (<[(keyword f, "filter", forwardChain) := fold_left append_unique (forward_specs options f) []]>
      (<[(keyword f, "nat", "POSTROUTING") := append_unique post ["-j"; postroutingChain]]>
      (<[(keyword f, "filter", "FORWARD") := append_unique fwd ["-j"; forwardChain]]> (chains s)))).
Proof.
  intros Hfwd Hpost. unfold configureIPTablesFamily, set_rule.
  set (kf := (keyword f, "filter", forwardChain)). set (kp := (keyword f, "nat", postroutingChain)).
  set (jf := (keyword f, "filter", "FORWARD")) in *. set (jp := (keyword f, "nat", "POSTROUTING")) in *.
  assert (kf ≠ kp ∧ kf ≠ jf ∧ kf ≠ jp ∧ kp ≠ jf ∧ kp ≠ jp ∧ jf ≠ jp) as (N1 & N2 & N3 & N4 & N5 & N6)
    by (split_and!; intros [=]).
  chain_step ltac:(apply m_wrap_run; reflexivity).
  chain_step ltac:(apply clearOrCreate_run). chain_step ltac:(apply clearOrCreate_run).
  chain_step ltac:(apply m_wrap_run, append_run; rewrite !with_chain_ne by done; exact Hfwd).
  chain_step ltac:(apply m_wrap_run, append_run; rewrite !with_chain_ne by done; exact Hpost).
  fold kf kp jf jp.
  assert (∀ rules t, chains (with_chain jp rules t) !! kf = chains t !! kf) as Hj1 by (intros; by apply with_chain_ne).
  assert (∀ rules t, chains (with_chain jf rules t) !! kf = chains t !! kf) as Hj2 by (intros; by apply with_chain_ne).
  chain_step ltac:(apply append_all; [intros; by apply m_wrap_run|fold kf; rewrite Hj1, Hj2, with_chain_ne by done; apply with_chain_eq]).
  chain_step ltac:(apply append_all; [intros; by apply m_wrap_run|apply with_chain_eq]).
  chain_step ltac:(apply append_all; [intros; by apply m_wrap_run|apply with_chain_eq]).
  chain_step ltac:(apply m_wrap_run, append_run, with_chain_eq).
  fold kf. rewrite !with_chain_twice, !fold_append_app.
  match goal with |- ∃ s', _ ?t = _ ∧ _ => assert (chains t =
    <[kp := []]> (<[kf := fold_left append_unique (forward_specs options f) []]>
      (<[jp := append_unique post ["-j"; postroutingChain]]>
      (<[jf := append_unique fwd ["-j"; forwardChain]]> (chains s))))) as Ht end.
  { unfold forward_specs. rewrite !fold_left_app. cbn [chains with_chain on_chains fold_left].
    apply map_eq. intros k. rewrite !lookup_insert. repeat case_decide; first [reflexivity | congruence]. }
  unfold masquerade_specs. destruct (negb (String.eqb (GatewayIface options) "") && nat f).
  - eexists. split; [apply m_wrap_run, append_run; rewrite Ht; apply lookup_insert_eq|].
    rewrite chains_with_chain, Ht. fold kp. rewrite insert_insert_eq. reflexivity.
  - eexists. split; [reflexivity|]. rewrite Ht. reflexivity.
Qed.

(** ** Concrete cases *)
Definition options0 : ForwardingOptions :=
  mkForwarding "eth0" "10.44.0.0/24" "fd48:4c4:7aa9::/64" true true false ["0.0.0.0/0"; "::/0"] ["0.0.0.0/0"] ["::/0"]
    [mkPolicy "office" ["192.168.1.0/24"] ["10.44.0.2/32"; "fd48:4c4:7aa9::2/128"];
     mkPolicy "servers" ["10.8.0.0/16"] ["10.44.0.3/32"]] ["10.44.0.1"] "nftables".
Definition ip4 (a b c d : Z) : Addr := A4 (a * 2 ^ 24 + b * 2 ^ 16 + c * 2 ^ 8 + d).
Definition family4 : family := mkFamily "ip" "10.44.0.0/24" ["0.0.0.0/0"] true.
#[local] Instance some_tables : UnicodeTables := {| is_print := λ r, 161 <=? r |}.
Definition rules0 : Ruleset := match ruleset options0 with Ok rs => rs | Err _ => mkRuleset [] [] [] end.

Example ruleset_ex : rule_text <$> take 3 (rs_forward rules0) =
  ["ip saddr 10.44.0.0/24 ip daddr 10.44.0.1 accept";
   "ip saddr @policy_office_ip ip daddr 192.168.1.0/24 accept";
   "ip saddr @policy_servers_ip ip daddr 10.8.0.0/16 accept"]
  ∧ rule_text <$> rs_postrouting rules0 =
  ["ip saddr 10.44.0.0/24 oifname " +:+ Quote "eth0" +:+ " masquerade";
   "ip6 saddr fd48:4c4:7aa9::/64 oifname " +:+ Quote "eth0" +:+ " masquerade"].
Proof. vm_compute. done. Qed.

Lemma in_subnet (a : Addr) : (match ParsePrefix "10.44.0.0/24" with Some p => Contains p a | None => false end) = true →
  ∃ p, ParsePrefix (f_cidr family4) = Some p ∧ Contains p a = true.
Proof. cbn [f_cidr family4]. destruct (ParsePrefix "10.44.0.0/24") as [p|]; [|done]. by exists p. Qed.
Lemma policies_confine_witness : forwards rules0 (ip4 10 44 0 2) (ip4 10 8 0 1) = false ∧
  forwards rules0 (ip4 10 44 0 2) (ip4 192 168 1 7) = true ∧
  (forwards rules0 (ip4 10 44 0 2) (ip4 10 8 0 1) = true ↔
    (fo_Policies options0 ≠ [] ∧ ∃ t, t ∈ addressesOfFamily (ServerAddresses options0) family4 ∧ net_matches t (ip4 10 8 0 1) = true) ∨
    (∃ pol, pol ∈ fo_Policies options0 ∧ in_policy family4 pol (ip4 10 44 0 2) ∧ policy_allows family4 pol (ip4 10 8 0 1)) ∨
    ((∀ pol, pol ∈ fo_Policies options0 → ¬ in_policy family4 pol (ip4 10 44 0 2)) ∧
       ∃ t, t ∈ f_allowed family4 ∧ net_matches t (ip4 10 8 0 1) = true)).
Proof.
  split; [vm_compute; reflexivity|]. split; [vm_compute; reflexivity|].
  apply (policies_confine options0 rules0 family4); try reflexivity.
  - left.
  - apply (bool_decide_unpack _). vm_compute. exact I.
  - intros pol [->|[->|Hp]%elem_of_cons]%elem_of_cons; [discriminate..|]. by apply not_elem_of_nil in Hp.
  - apply in_subnet. vm_compute. reflexivity.
Defined.

Definition office : Policy := mkPolicy "office" ["192.168.1.0/24"] ["10.44.0.2/32"].
Definition open_ : Policy := mkPolicy "members" ["10.8.0.0/16"] [].
Definition options1 : ForwardingOptions :=
  mkForwarding "eth0" "10.44.0.0/24" "" true true false [] ["0.0.0.0/0"] [] [office; open_] [] "nftables".
Definition rules1 : Ruleset := match ruleset options1 with Ok rs => rs | Err _ => mkRuleset [] [] [] end.
Lemma members_policy_leaks_witness :
  ¬ policy_allows family4 office (ip4 10 8 0 1) ∧
  forwards rules1 (ip4 10 44 0 2) (ip4 10 8 0 1) = true.
Proof.
  split.
  - intros (n & p & Hn & Hp & _ & Hc). apply list_elem_of_singleton in Hn as ->.
    assert (match ParsePrefix "192.168.1.0/24" with Some p => Contains p (ip4 10 8 0 1) | None => false end = false)
      as Hf by (vm_compute; reflexivity).
    rewrite Hp in Hf. congruence.
  - apply (members_policy_leaks options1 rules1 family4 _ _ open_ office); try reflexivity.
    + left.
    + apply in_subnet. vm_compute. reflexivity.
    + right. left.
    + exists "10.8.0.0/16", (mkPrefix (ip4 10 8 0 0) 16). split; [left|]. split_and!; vm_compute; reflexivity.
    + left.
    + exists "10.44.0.2". split; [|vm_compute; reflexivity]. apply (bool_decide_unpack _). vm_compute. exact I.
Defined.

Definition hooked : Tables :=
  mkTables (<[("ip", "filter", "FORWARD") := [["-j"; "DOCKER"]]]> (<[("ip", "nat", "POSTROUTING") := []]>
    (<[("ip", "filter", forwardChain) := [["-j"; "old"]]]> ∅))) [].
Lemma iptables_chains_witness : ∃ s', configureIPTablesFamily options0 family4 hooked = (Ok tt, s') ∧
  chains s' !! ("ip", "filter", forwardChain) =
    Some [["-s"; "10.44.0.0/24"; "-d"; "0.0.0.0/0"; "-j"; "ACCEPT"]; ["-s"; "10.44.0.0/24"; "-j"; "REJECT"]].
Proof.
  destruct (iptables_chains options0 family4 hooked [["-j"; "DOCKER"]] []) as (s' & E & Hc); [vm_compute; reflexivity..|].
  exists s'. split; [exact E|]. rewrite Hc. vm_compute. reflexivity.
Defined.
