(* ===== verification/StorageTheorems.v ===== *)
(** * The properties of the storage

    That [InMemory.v] and [SqlStorage.v] keep the contract of [Storage.v] in every
    state they can reach: programs of storage operations run on them as on the
    abstract tables. And what single operations do. *)
From S2P Require Import Prelude GoText GoQuote Storage InMemory InMemoryLaws.
From S2P Require Import SqlStorage SqlLaws Toys.

(** ** Programs over the storage

    The operations of the storage as commands, and a program as what it does with
    the answer of each. Running a program on a storage that keeps the contract of
    [Storage.v] is a run of the same program on the abstract tables. *)
Inductive cmd : Type → Type :=
  | CSave (d : Device) : cmd unit
  | CRecordMetadata us : Forall (λ u, mu_PublicKey u ≠ "") us → cmd unit
  | CRename (d : Device) (newName : string) : cmd Device
  | CSetAccess (d : Device) (disabled : bool) (expiresAt : option Time) : cmd Device
  | CSetRoutes (d : Device) (routes : string) : cmd Device
  | CSetKeys (d : Device) (pk : string) (psk : string) : cmd Device
  | CList (owner : string) : cmd (list Device)
  | CAddresses : cmd (list string)
  | CGet (owner : string) (name : string) : cmd Device
  | CGetByPublicKey (pk : string) : cmd Device
  | CDelete (d : Device) : cmd unit
  | CDeleteForOwner (owner : string) : cmd (list Device)
  | CBlockForOwner (owner : string) : cmd (list Device)
  | CAllocationLock : cmd unit
  | CSaveUser (u : User) : cmd unit
  | CGetUser (subject : string) : cmd User
  | CUsers : cmd (list User)
  | CDeleteUser (subject : string) : cmd unit
  | CSetUserPassword (subject : string) (hash : string) (from : string) : cmd unit
  | CSetUserTOTP (subject : string) (state : TOTPState) : cmd unit
  | CSaveSession (x : Session) : cmd unit
  | CGetSessionByHash (hash : string) : cmd Session
  | CListSessions (owner : string) : cmd (list Session)
  | CTouchSession (id : string) (at_ : Time) : cmd unit
  | CDeleteSession (id : string) : cmd unit
  | CDeleteSessionsForOwner (owner : string) : cmd Z
  | CDeleteExpiredSessions (now : Time) : cmd Z
  | CSaveToken (x : APIToken) : cmd unit
  | CListTokens (owner : string) : cmd (list APIToken)
  | CGetToken (id : string) : cmd APIToken
  | CGetTokenByHash (hash : string) : cmd APIToken
  | CTouchToken (id : string) (at_ : Time) : cmd unit
  | CDeleteToken (id : string) : cmd unit
  | CDeleteTokensForOwner (owner : string) : cmd Z
  | CAddPasskey (p : Passkey) : cmd unit
  | CUpdatePasskey (p : Passkey) : cmd unit
  | CRenamePasskey (owner : string) (id : string) (name : string) : cmd unit
  | CListPasskeys (owner : string) : cmd (list Passkey)
  | CGetPasskey (id : string) : cmd Passkey
  | CDeletePasskey (owner : string) (id : string) : cmd unit
  | CSetWebauthnChallenge (subject : string) (data : string) (until : option Time) : cmd unit.

Section commands.
  Context {S : Type} `{StorageLaws S}.

Definition perform {B} (c : cmd B) : M S B :=
  match c in cmd B return M S B with
  | CSave d => Save d
  | CRecordMetadata us _ => RecordMetadata us
  | CRename d newName => Rename d newName
  | CSetAccess d disabled expiresAt => SetAccess d disabled expiresAt
  | CSetRoutes d routes => SetRoutes d routes
  | CSetKeys d pk psk => SetKeys d pk psk
  | CList owner => List_ owner
  | CAddresses => Addresses
  | CGet owner name => Get owner name
  | CGetByPublicKey pk => GetByPublicKey pk
  | CDelete d => Delete d
  | CDeleteForOwner owner => DeleteForOwner owner
  | CBlockForOwner owner => BlockForOwner owner
  | CAllocationLock => AllocationLock
  | CSaveUser u => SaveUser u
  | CGetUser subject => GetUser subject
  | CUsers => Users
  | CDeleteUser subject => DeleteUser subject
  | CSetUserPassword subject hash from => SetUserPassword subject hash from
  | CSetUserTOTP subject state => SetUserTOTP subject state
  | CSaveSession x => SaveSession x
  | CGetSessionByHash hash => GetSessionByHash hash
  | CListSessions owner => ListSessions owner
  | CTouchSession id at_ => TouchSession id at_
  | CDeleteSession id => DeleteSession id
  | CDeleteSessionsForOwner owner => DeleteSessionsForOwner owner
  | CDeleteExpiredSessions now => DeleteExpiredSessions now
  | CSaveToken x => SaveToken x
  | CListTokens owner => ListTokens owner
  | CGetToken id => GetToken id
  | CGetTokenByHash hash => GetTokenByHash hash
  | CTouchToken id at_ => TouchToken id at_
  | CDeleteToken id => DeleteToken id
  | CDeleteTokensForOwner owner => DeleteTokensForOwner owner
  | CAddPasskey p => AddPasskey p
  | CUpdatePasskey p => UpdatePasskey p
  | CRenamePasskey owner id name => RenamePasskey owner id name
  | CListPasskeys owner => ListPasskeys owner
  | CGetPasskey id => GetPasskey id
  | CDeletePasskey owner id => DeletePasskey owner id
  | CSetWebauthnChallenge subject data until => SetWebauthnChallenge subject data until
  end.

(** A step of the abstract tables: what was answered, the tables after it and the
    events of it. *)
Definition transition (B : Type) : Type := Abs → result B → Abs → list Event → Prop.
Definition writes {B} (P : Abs → B → Abs → list Event → Prop) : transition B := λ a r a' evs,
  match r with Ok x => P a x a' evs | Err _ => a' = a ∧ evs = [] end.
Definition reads {B} (P : Abs → result B → Prop) : transition B := λ a r a' evs, P a r ∧ a' = a ∧ evs = [].
End commands.

(** The step that a law of the storage describes. *)
Ltac step_of l := match type of l with
  | effect _ _ _ ?P => exact (writes P)
  | query _ _ _ ?P => exact (reads P)
  | changes_device _ _ _ _ _ => let t := type of l in let t := eval unfold changes_device in t in
      match t with effect _ _ _ ?P => exact (writes P) end
  end.
Notation says l := ltac:(step_of l) (only parsing).

Section specification.
  Context {S : Type} `{StorageLaws S}.
Definition allowed {B} (c : cmd B) : transition B :=
  match c in cmd B return transition B with
  | CSave d => says (law_Save d)
  | CRecordMetadata us Hus => says (law_RecordMetadata us Hus)
  | CRename d newName => says (law_Rename d newName)
  | CSetAccess d disabled expiresAt => says (law_SetAccess d disabled expiresAt)
  | CSetRoutes d routes => says (law_SetRoutes d routes)
  | CSetKeys d pk psk => says (law_SetKeys d pk psk)
  | CList owner => says (law_List owner)
  | CAddresses => says (law_Addresses)
  | CGet owner name => says (law_Get owner name)
  | CGetByPublicKey pk => says (law_GetByPublicKey pk)
  | CDelete d => says (law_Delete d)
  | CDeleteForOwner owner => says (law_DeleteForOwner owner)
  | CBlockForOwner owner => says (law_BlockForOwner owner)
  | CAllocationLock => says (law_AllocationLock)
  | CSaveUser u => says (law_SaveUser u)
  | CGetUser subject => says (law_GetUser subject)
  | CUsers => says (law_Users)
  | CDeleteUser subject => says (law_DeleteUser subject)
  | CSetUserPassword subject hash from => says (law_SetUserPassword subject hash from)
  | CSetUserTOTP subject state => says (law_SetUserTOTP subject state)
  | CSaveSession x => says (law_SaveSession x)
  | CGetSessionByHash hash => says (law_GetSessionByHash hash)
  | CListSessions owner => says (law_ListSessions owner)
  | CTouchSession id at_ => says (law_TouchSession id at_)
  | CDeleteSession id => says (law_DeleteSession id)
  | CDeleteSessionsForOwner owner => says (law_DeleteSessionsForOwner owner)
  | CDeleteExpiredSessions now => says (law_DeleteExpiredSessions now)
  | CSaveToken x => says (law_SaveToken x)
  | CListTokens owner => says (law_ListTokens owner)
  | CGetToken id => says (law_GetToken id)
  | CGetTokenByHash hash => says (law_GetTokenByHash hash)
  | CTouchToken id at_ => says (law_TouchToken id at_)
  | CDeleteToken id => says (law_DeleteToken id)
  | CDeleteTokensForOwner owner => says (law_DeleteTokensForOwner owner)
  | CAddPasskey p => says (law_AddPasskey p)
  | CUpdatePasskey p => says (law_UpdatePasskey p)
  | CRenamePasskey owner id name => says (law_RenamePasskey owner id name)
  | CListPasskeys owner => says (law_ListPasskeys owner)
  | CGetPasskey id => says (law_GetPasskey id)
  | CDeletePasskey owner id => says (law_DeletePasskey owner id)
  | CSetWebauthnChallenge subject data until => says (law_SetWebauthnChallenge subject data until)
  end.

Lemma effect_writes {B} (m : M S B) P s r s' : effect view ok m P → ok s → m s = (r, s') →
  ok s' ∧ ∃ evs, writes P (view s) r (view s') evs ∧ emitted s' = emitted s ++ evs.
Proof.
  intros Hm Hok E. destruct (Hm s r s' Hok E) as [Hok' Hr]. split; [done|]. destruct r as [x|e]; [done|].
  destruct Hr as [Hv He]. exists []. split; [done|]. by rewrite app_nil_r.
Qed.
Lemma query_reads {B} (m : M S B) P s r s' : query view ok m P → ok s → m s = (r, s') →
  ok s' ∧ ∃ evs, reads P (view s) r (view s') evs ∧ emitted s' = emitted s ++ evs.
Proof.
  intros Hm Hok E. destruct (Hm s r s' Hok E) as [-> Hr]. split; [done|]. exists []. split; [done|]. by rewrite app_nil_r.
Qed.
Tactic Notation "by_effect" uconstr(law) :=
  match goal with Hok : ok _, E : perform _ _ = _ |- _ => exact (effect_writes _ _ _ _ _ law Hok E) end.
Tactic Notation "by_query" uconstr(law) :=
  match goal with Hok : ok _, E : perform _ _ = _ |- _ => exact (query_reads _ _ _ _ _ law Hok E) end.

(** Every operation is a step of the tables. *)
Lemma perform_allowed {B} (c : cmd B) s r s' : ok s → perform c s = (r, s') →
  ok s' ∧ ∃ evs, allowed c (view s) r (view s') evs ∧ emitted s' = emitted s ++ evs.
Proof.
  intros Hok E. destruct c.
  all:
    first [ by_effect (law_Save _) | by_effect (law_RecordMetadata _ ltac:(eassumption)) |
    by_effect (law_Rename _ _) | by_effect (law_SetAccess _ _ _) |
    by_effect (law_SetRoutes _ _) | by_effect (law_SetKeys _ _ _) |
    by_effect (law_Delete _) | by_effect (law_DeleteForOwner _) |
    by_effect (law_BlockForOwner _) | by_effect law_AllocationLock |
    by_effect (law_SaveUser _) | by_effect (law_DeleteUser _) |
    by_effect (law_SetUserPassword _ _ _) | by_effect (law_SetUserTOTP _ _) |
    by_effect (law_SaveSession _) | by_effect (law_TouchSession _ _) |
    by_effect (law_DeleteSession _) | by_effect (law_DeleteSessionsForOwner _) |
    by_effect (law_DeleteExpiredSessions _) | by_effect (law_SaveToken _) |
    by_effect (law_TouchToken _ _) | by_effect (law_DeleteToken _) |
    by_effect (law_DeleteTokensForOwner _) | by_effect (law_AddPasskey _) |
    by_effect (law_UpdatePasskey _) | by_effect (law_RenamePasskey _ _ _) |
    by_effect (law_DeletePasskey _ _) | by_effect (law_SetWebauthnChallenge _ _ _)
    | by_query (law_List _) | by_query law_Addresses | by_query (law_Get _ _) |
    by_query (law_GetByPublicKey _) | by_query (law_GetUser _) | by_query law_Users |
    by_query (law_GetSessionByHash _) | by_query (law_ListSessions _) |
    by_query (law_ListTokens _) | by_query (law_GetToken _) |
    by_query (law_GetTokenByHash _) | by_query (law_ListPasskeys _) |
    by_query (law_GetPasskey _) ].
Qed.
End specification.

(** ** Programs *)
Inductive program (A : Type) : Type :=
  | Return (r : result A)
  | Call {B} (c : cmd B) (k : result B → program A).
Arguments Return {A} _. Arguments Call {A B} _ _.

(** Running one on a storage. *)
Fixpoint run {S A} `{Storage S} (p : program A) : M S A := λ s,
  match p with
  | Return r => (r, s)
  | Call c k => let '(x, s1) := perform c s in run (k x) s1
  end.
(** Running one on the abstract tables: each command takes a step they allow. *)
Inductive abstract_run {A} : program A → Abs → list Event → result A → Abs → list Event → Prop :=
  | abstract_return r a evs : abstract_run (Return r) a evs r a evs
  | abstract_call {B} (c : cmd B) k a evs x a1 es r a2 evs2 :
      allowed c a x a1 es → abstract_run (k x) a1 (evs ++ es) r a2 evs2 →
      abstract_run (Call c k) a evs r a2 evs2.

Lemma run_refines {S A} `{StorageLaws S} (p : program A) (s : S) r s' : ok s → run p s = (r, s') →
  ok s' ∧ abstract_run p (view s) (emitted s) r (view s') (emitted s').
Proof.
  revert s. induction p as [r0|B c k IH]; intros s Hok E; simpl in E.
  - injection E as <- <-. split; [done|]. constructor.
  - destruct (perform c s) as [x s1] eqn:Ec. apply perform_allowed in Ec as (Hok1 & evs & Ha & He); [|done].
    apply IH in E as (Hok' & Hrun); [|done]. split; [done|]. econstructor; [exact Ha|]. by rewrite <- He.
Qed.

(** The key a device is stored under determines its owner and its name: no
    choice of names - with slashes, quotes or control characters in them - makes
    two devices of different people overwrite each other. *)
Theorem storage_key_injective `{UnicodeTables} d1 d2 :
  InMemory.key d1 = InMemory.key d2 → Device.Owner d1 = Device.Owner d2 ∧ Device.Name d1 = Device.Name d2.
Proof. apply keyStr_inj. Qed.

(** ** Every reachable state *)
Section reachable.
  Context {S : Type} `{Storage S}.

(** The operations of the interface; the updates of the metadata sync name
    their devices by key. *)
Inductive operation : ∀ A, M S A → Prop :=
  | op_Save d : operation _ (Save d)
  | op_RecordMetadata us : Forall (λ u, mu_PublicKey u ≠ "") us → operation _ (RecordMetadata us)
  | op_Rename d name : operation _ (Rename d name)
  | op_SetAccess d disabled expires : operation _ (SetAccess d disabled expires)
  | op_SetRoutes d routes : operation _ (SetRoutes d routes)
  | op_SetKeys d pk psk : operation _ (SetKeys d pk psk)
  | op_Delete d : operation _ (Delete d)
  | op_DeleteForOwner owner : operation _ (DeleteForOwner owner)
  | op_BlockForOwner owner : operation _ (BlockForOwner owner)
  | op_AllocationLock : operation _ AllocationLock
  | op_SaveUser u : operation _ (SaveUser u)
  | op_DeleteUser subject : operation _ (DeleteUser subject)
  | op_SetUserPassword subject hash from : operation _ (SetUserPassword subject hash from)
  | op_SetUserTOTP subject state : operation _ (SetUserTOTP subject state)
  | op_SetWebauthnChallenge subject data until : operation _ (SetWebauthnChallenge subject data until)
  | op_SaveSession x : operation _ (SaveSession x)
  | op_TouchSession id at_ : operation _ (TouchSession id at_)
  | op_DeleteSession id : operation _ (DeleteSession id)
  | op_DeleteSessionsForOwner owner : operation _ (DeleteSessionsForOwner owner)
  | op_DeleteExpiredSessions now : operation _ (DeleteExpiredSessions now)
  | op_SaveToken x : operation _ (SaveToken x)
  | op_TouchToken id at_ : operation _ (TouchToken id at_)
  | op_DeleteToken id : operation _ (DeleteToken id)
  | op_DeleteTokensForOwner owner : operation _ (DeleteTokensForOwner owner)
  | op_AddPasskey p : operation _ (AddPasskey p)
  | op_UpdatePasskey p : operation _ (UpdatePasskey p)
  | op_RenamePasskey owner id name : operation _ (RenamePasskey owner id name)
  | op_DeletePasskey owner id : operation _ (DeletePasskey owner id).

Definition op_step (s s' : S) : Prop := ∃ A (m : M S A) r, operation A m ∧ m s = (r, s').

Lemma operation_ok `{!StorageLaws S} A (m : M S A) s r s' : operation A m → ok s → m s = (r, s') → ok s'.
Proof.
  intros Hop Hok E. destruct Hop;
    match goal with E : ?f s = _ |- _ => first
      [ apply law_Save in E | apply law_RecordMetadata in E | apply law_Rename in E
      | apply law_SetAccess in E | apply law_SetRoutes in E | apply law_SetKeys in E
      | apply law_Delete in E | apply law_DeleteForOwner in E | apply law_BlockForOwner in E
      | apply law_AllocationLock in E | apply law_SaveUser in E | apply law_DeleteUser in E
      | apply law_SetUserPassword in E | apply law_SetUserTOTP in E | apply law_SetWebauthnChallenge in E
      | apply law_SaveSession in E | apply law_TouchSession in E | apply law_DeleteSession in E
      | apply law_DeleteSessionsForOwner in E | apply law_DeleteExpiredSessions in E
      | apply law_SaveToken in E | apply law_TouchToken in E | apply law_DeleteToken in E
      | apply law_DeleteTokensForOwner in E | apply law_AddPasskey in E | apply law_UpdatePasskey in E
      | apply law_RenamePasskey in E | apply law_DeletePasskey in E ] end; (done || by destruct E).
Qed.
Lemma op_steps_ok `{!StorageLaws S} s s' : rtc op_step s s' → ok s → ok s'.
Proof. induction 1 as [|x y z (A & m & r & Hop & E) _ IH]; [done|]. intros Hok. eapply IH, operation_ok; eauto. Qed.
End reachable.

(** Whatever operations run on a new in-memory storage, its tables stay in
    order: every row under its own key, no two devices with the same public
    key, no two sessions or tokens with the same hash. *)
Theorem memory_storage_in_order `{UnicodeTables} s : rtc op_step NewMemoryStorage s → wf_abs (mem_view s).
Proof. intros Hr. apply op_steps_ok in Hr; [|apply NewMemoryStorage_ok]. apply Hr. Qed.

(** C34 [memory_storage_refines]: the in-memory storage refines the abstract tables. Whatever
    program runs on a new one - any sequence of operations, each chosen from
    the answers before it - is a run of the same program on the abstract tables with
    the same answers and the same events, and leaves them in order. *)
Theorem memory_storage_refines `{UnicodeTables} {A} (p : program A) :
  let '(r, s') := run p NewMemoryStorage in
  abstract_run p (mkAbs ∅ ∅ ∅ ∅ ∅) [] r (mem_view s') (log s') ∧ wf_abs (mem_view s').
Proof.
  destruct (run p NewMemoryStorage) as [r s'] eqn:E.
  destruct (run_refines p NewMemoryStorage r s') as [Hok Hrun]; [apply NewMemoryStorage_ok|done|].
  split; [exact Hrun|]. exact (ok_wf s' Hok).
Qed.
Example program_example `{UnicodeTables} :
  let d := Device.mk "a" "" "" "" "b" "k" "" "" 0 false None "" None 0 0 "" in
  (run (Call (CSave d) (λ _, Call (CGet "a" "b") Return)) NewMemoryStorage).1 = Ok d.
Proof. reflexivity. Qed.

(** C35 [sql_storage_refines]: so does the storage in a database. Whatever program runs on
    it, from whatever rows are there - upserts, conditional updates that look at the
    number of rows, transactions with their events after the commit, a statement
    that fails at any point - it is a run of the program on the abstract tables:
    the same specification the in-memory storage refines. *)
Theorem sql_storage_refines {D} `{GormLaws D} {A} (p : program A) (s : SQLStorage D) : sql_ok s →
  let '(r, s') := run p s in
  sql_ok s' ∧ wf_abs (sql_view s') ∧
  abstract_run p (sql_view s) (sql_log s) r (sql_view s') (sql_log s').
Proof.
  intros Hok. destruct (run p s) as [r s'] eqn:E.
  destruct (run_refines (S := SQLStorage D) p s r s') as [Hok' Hrun]; [exact Hok|exact E|].
  split; [exact Hok'|]. split; [exact (ok_wf s' Hok')|exact Hrun].
Qed.

(** Saving a device fails exactly when another stored device has its public
    key, and then nothing changes; otherwise it is stored under its key and the
    add event is emitted. *)
Theorem memory_Save_correct `{UnicodeTables} s d : mem_ok s →
  let taken := ∃ k' d', devices (mem_view s) !! k' = Some d' ∧ k' ≠ Device.key d ∧
    Device.PublicKey d' = Device.PublicKey d ∧ Device.PublicKey d ≠ "" in
  (taken → ∃ e, mem_Save d s = (Err e, s)) ∧
  (¬ taken → ∃ s', mem_Save d s = (Ok tt, s') ∧ log s' = log s ++ [EvAdd d] ∧
     mem_view s' = on_devices <[Device.key d := d]> (mem_view s)).
Proof.
  intros Hok taken. pose proof (mem_law_Save d s) as Hlaw.
  destruct (mem_Save d s) as [r s'] eqn:E. specialize (Hlaw r s' Hok eq_refl) as (Hok' & Hlaw).
  destruct r as [[]|e].
  - destruct Hlaw as (evs & (Hfree & Hv & ->) & He). split.
    + intros (k' & d' & Hl & Hne & Hp & Hpk). exfalso. by eapply (Hfree Hpk k' d').
    + intros _. by exists s'.
  - assert (s' = s ∧ taken) as [-> Ht]; [|split; [by exists e|done]].
    unfold mem_Save in E. destruct (String.eqb_spec (Device.PublicKey d) "") as [|Hpk]; [done|].
    cbn [negb andb] in E. destruct (public_key_taken _ _ _) eqn:Et; [|done]. injection E as _ <-. split; [done|].
    unfold public_key_taken in Et. apply bool_decide_eq_true in Et as (k & d' & Hl & Hp & Hne).
    exists (Device.key d'), d'. destruct Hok as [Hk _]. assert (k = InMemory.key d') as -> by by apply Hk in Hl.
    split; [cbn; by rewrite devs_lookup_key|]. split; [|done]. intros Ek. apply Hne. by apply key_eq.
Qed.

(** The passkeys of a user are listed completely, each once, the newest
    first. *)
Theorem sortPasskeys_correct l : sortPasskeys l ≡ₚ l ∧
  StronglySorted (λ x y, Passkey.CreatedAt y <= Passkey.CreatedAt x) (sortPasskeys l).
Proof. apply sortPasskeys_spec. Qed.

(** A login of somebody who is known already keeps their password and their
    second factor, but it forgets which code was used last. *)
Theorem login_forgets_last_step `{UnicodeTables} s u previous :
  m_users s !! User.Subject u = Some previous → User.PasswordHash u = "" → User.TotpSecret u = "" →
  ∃ stored, mem_SaveUser u s = (Ok tt, set_users <[User.Subject u := stored]> s) ∧
    keeps_credentials previous stored ∧ User.TotpLastStep stored = User.TotpLastStep u.
Proof.
  intros Hl Hp Ht. unfold mem_SaveUser, m_modify. rewrite Hl. eexists. split; [done|].
  unfold merge_user. rewrite Hp. cbn. rewrite Ht. cbn. split; [|done]. split_and!; done.
Qed.

(** ** Concrete cases *)
Module Tables.
(** What is printable beyond ASCII does not matter here. *)
#[export] Instance tables : UnicodeTables := {| is_print := λ r, 161 <=? r |}.
End Tables.
Import Tables.

Definition device (owner name pk : string) : Device :=
  Device.mk owner "" "" "" name pk "" "" 0 false None "" None 0 0 "".
Lemma storage_key_injective_witness :
  InMemory.key (device "a/b" "c" "k1") ≠ InMemory.key (device "a" "b/c" "k2") ∧
  (Device.Owner (device "a" "b" "k1") = Device.Owner (device "a" "b" "k2") ∧
   Device.Name (device "a" "b" "k1") = Device.Name (device "a" "b" "k2")).
Proof.
  split; [vm_compute; discriminate|].
  apply (storage_key_injective (device "a" "b" "k1") (device "a" "b" "k2")). reflexivity.
Defined.

Definition one_device : InMemoryStorage := (mem_Save (device "a" "b" "k1") NewMemoryStorage).2.
Lemma one_device_reachable : rtc op_step NewMemoryStorage one_device.
Proof.
  apply rtc_once. exists unit, (Save (device "a" "b" "k1")), (Ok tt). split; [constructor|reflexivity].
Qed.
Lemma memory_storage_in_order_witness :
  devices (mem_view one_device) !! ("a", "b") = Some (device "a" "b" "k1") ∧ wf_abs (mem_view one_device).
Proof.
  split; [vm_compute; reflexivity|]. exact (memory_storage_in_order one_device one_device_reachable).
Defined.

Lemma one_device_ok : mem_ok one_device.
Proof. exact (op_steps_ok _ _ one_device_reachable NewMemoryStorage_ok). Qed.
Lemma memory_Save_correct_witness : ∃ e,
  mem_Save (device "x" "y" "k1") one_device = (Err e, one_device).
Proof.
  apply (proj1 (memory_Save_correct one_device (device "x" "y" "k1") one_device_ok)).
  exists ("a", "b"), (device "a" "b" "k1"). split; [vm_compute; reflexivity|].
  split; [discriminate|]. split; [reflexivity|discriminate].
Defined.

Definition known : User := User.mk "alice" "simple" "Alice" "" "" 5 "" "" None "SECRET" (Some 3) "" 57 "".
Definition login : User := User.mk "alice" "simple" "Alice" "" "" 9 "" "" None "" None "" 0 "".
Definition with_known : InMemoryStorage := set_users <["alice" := known]> NewMemoryStorage.
Lemma login_forgets_last_step_witness : ∃ stored,
  mem_SaveUser login with_known = (Ok tt, set_users <["alice" := stored]> with_known) ∧
  keeps_credentials known stored ∧ User.TotpLastStep stored = 0 ∧ User.TotpLastStep known = 57.
Proof.
  destruct (login_forgets_last_step with_known login known) as (stored & H1 & H2 & H3); [reflexivity..|].
  exists stored. exact (conj H1 (conj H2 (conj H3 eq_refl))).
Defined.

(** Two devices with one public key, then an update, on a database. *)
Definition two_devices : program (list Device) :=
  Call (CSave (device "a" "b" "k1")) (λ _,
  Call (CSave (device "x" "y" "k1")) (λ _,
  Call (CSetRoutes (device "a" "b" "k1") "10.9.0.0/24") (λ _,
  Call (CList "") Return))).
Definition new_database : SQLStorage toy_db := mkSQL toy_empty sqlite3 [].
Lemma new_database_ok : sql_ok (H0 := toy_gorm_laws true) new_database.
Proof. intros T t. destruct t; repeat split; constructor. Qed.
Lemma sql_storage_refines_witness :
  let s' := (run (H := SQL_Storage (H := toy_gorm true)) two_devices new_database).2 in
  (run (H := SQL_Storage (H := toy_gorm true)) two_devices new_database).1 =
    Ok [Device.with_Routes "10.9.0.0/24" (device "a" "b" "k1")] ∧
  wf_abs (sql_view (H0 := toy_gorm_laws true) s').
Proof.
  split; [vm_compute; reflexivity|].
  pose proof (sql_storage_refines (H0 := toy_gorm_laws true) two_devices new_database new_database_ok) as Hr.
  destruct (run two_devices new_database) as [r s']. exact (proj1 (proj2 Hr)).
Defined.
