(* ===== verification/DeviceTheorems.v ===== *)
(** * The properties of the device manager

    What the definitions of [Devices.v], [Routes.v], [Manager.v] and
    [Metadata.v] guarantee, each with a concrete case on the in-memory storage
    and the plain implementation of the WireGuard interface. *)
From S2P Require Import Prelude GoText GoQuote Netip NetipText NetipRoundTrip Network Storage InMemory.
From S2P Require Import InMemoryLaws Atomic AuthSession WireGuard Devices Allocation DeviceSpecs Routes RouteSpecs.
From S2P Require Import Manager ManagerSpecs Metadata Reachable StorageTheorems.

(** ** A concrete server for the witnesses *)
Export StorageTheorems.Tables.
Module Demo.
#[export] Instance keys : WireGuardKeys := {| canonical_key := λ k, Some k |}.
Definition cfg : Config := mkConfig "10.44.0.0/24" "fd48::/64" 2.
Definition alice : Identity := Identity.mk "simple" "alice" "Alice" "a@example.com" [].
Definition pk1 : string := "AAAAAAAAAAAAAAAAAAAAAAAAAAAAAAAAAAAAAAAAAAE=".
Definition pk2 : string := "BBBBBBBBBBBBBBBBBBBBBBBBBBBBBBBBBBBBBBBBBBE=".
Definition dm0 : DeviceManager InMemoryStorage Peers := New NewMemoryStorage ∅.
Definition add (name pk : string) : M InMemoryStorage Device :=
  AddDevice cfg 1000 alice name pk "" false "" "".
Definition s0 : InMemoryStorage := NewMemoryStorage.
Definition s1 : InMemoryStorage := (add "laptop" pk1 s0).2.
Definition s2 : InMemoryStorage := (add "phone" pk2 s1).2.
Definition get (name : string) (s : InMemoryStorage) : option Device :=
  match Get "alice" name s with (Ok d, _) => Some d | _ => None end.

Lemma cfg_ok : config_ok cfg.
Proof. split; right; eexists; split; vm_compute; reflexivity. Qed.
Lemma ok0 : ok (StorageLaws := InMemory_laws) s0.
Proof. apply NewMemoryStorage_ok. Qed.
End Demo.
Import Demo.

Example add_ex : Device.Address <$> get "phone" s2 = Some "10.44.0.3/32, fd48::3/128".
Proof. vm_compute. reflexivity. Qed.
Example limit_ex : is_ok (add "third" zero_key s2).1 = false.
Proof. vm_compute. reflexivity. Qed.

(** ** Devices *)
Section theorems.
  Context {S W : Type} `{StorageLaws S} `{WireGuardLaws W} (cfg : Config).
  Implicit Types (s : S).

(** C1 However the operations of the manager, the events and the background
    loops are interleaved, starting from a storage without devices: every
    device is well formed, no two devices share an address, no two have
    overlapping networks behind them, nobody has more devices than the limit,
    and names and public keys stay unique. *)
Theorem devices_invariant firewallSync (d d' : DeviceManager S W) : config_ok cfg → ok (storage d) →
  devices (view (storage d)) = ∅ → rtc (step cfg firewallSync) d d' →
  dev_inv cfg (devices (view (storage d'))) ∧ wf_abs (view (storage d')).
Proof.
  intros Hcfg Hok He Hr. apply (run_keeps cfg Hcfg) in Hr as [Hok' Hi]; [|by apply sinv_empty].
  split; [done|by apply ok_wf].
Qed.

(** C2 A successful [AddDevice] stores exactly the device that was asked for,
    under a name and a key nobody else has, within the limit of its owner, with
    addresses that parse back to addresses of the configured subnets that are
    neither reserved nor in use; it emits the add event and nothing else. *)
Theorem AddDevice_correct now identity name pk psk manual m4 m6 s d s' : config_ok cfg → ok s →
  AddDevice cfg now identity name pk psk manual m4 m6 s = (Ok d, s') →
  validateDeviceName name = Ok tt ∧ key_ok pk ∧ (psk = "" ∨ key_ok psk) ∧
  (∃ t l, d = new_device now identity name pk psk t ∧ l ≠ [] ∧ ParseAddresses t = (l, []) ∧
     Forall (assignable cfg (devices (view s))) l) ∧
  devices (view s) !! Device.key d = None ∧
  key_free (devices (view s)) (Device.key d) pk ∧
  under_limit cfg (devices (view s)) (Device.Owner d) ∧
  view s' = on_devices <[Device.key d := d]> (view s) ∧ emitted s' = emitted s ++ [EvAdd d].
Proof.
  intros Hcfg Hok E. apply AddDevice_spec in E as (_ & ? & ? & ? & (t & Ht & l & Hl) & ?); [|done..].
  split; [done|]. split; [done|]. split; [done|]. split; [by exists t, l|done].
Qed.

(** C22 The address the manager picks in a subnet is the lowest one that is
    free, and it reports that there is none only when every address of the
    subnet is reserved or in use; the walk over the subnet always ends. *)
Theorem nextFree_lowest cidr p used : ParsePrefix cidr = Some p →
  (∃ a, nextFree cidr (BitLen (PAddr p)) used = Ok (PrefixString (single a)) ∧ free_in p used a ∧
     ∀ b, free_in p used b → addr_val a <= addr_val b) ∨
  (nextFree cidr (BitLen (PAddr p)) used = Ok "" ∧ ∀ a, ¬ free_in p used a).
Proof.
  intros Hp. destruct (nextFree_spec cidr p used _ Hp eq_refl) as [(a & ? & _ & ? & ?)|?]; [left|by right].
  by exists a.
Qed.

(** C23 An operation on devices that fails leaves the storage as it was, and
    emits no event: there is no partly added, renamed or changed device. *)
Theorem failed_operations_change_nothing s : ok s →
  (∀ now identity name pk psk manual m4 m6 e s',
     AddDevice cfg now identity name pk psk manual m4 m6 s = (Err e, s') → same s s') ∧
  (∀ user name newName e s', RenameDevice user name newName s = (Err e, s') → same s s') ∧
  (∀ now user name change e s', SetDeviceAccess now user name change s = (Err e, s') → same s s') ∧
  (∀ addrs user name routes e s',
     SetDeviceRoutes cfg addrs user name routes s = (Err e, s') → same s s') ∧
  (∀ user name e s', DeleteDevice user name s = (Err e, s') → same s s') ∧
  (∀ user e s', BlockDevicesForUser user s = (Err e, s') → same s s').
Proof.
  intros Hok.
  assert (∀ A (m : M S A), atomic m → ∀ e s', m s = (Err e, s') → same s s') as Ha.
  { intros A m Hm e s' E. by eapply Hm. }
  split_and!; intros; (eapply Ha; [|by eauto]).
  - unfold AddDevice, addDeviceLocked, ListDevices, SaveDevice, manualClientAddress,
      nextClientAddressLocked, usedAddresses. solve_atomic.
  - unfold RenameDevice, ListDevices. solve_atomic.
  - unfold SetDeviceAccess. solve_atomic.
  - unfold SetDeviceRoutes, checkRoutes, ListAllDevices, withOwnerNames. solve_atomic.
  - apply atomic_DeleteDevice.
  - unfold BlockDevicesForUser. solve_atomic.
Qed.

(** C24 [SetDeviceRoutes] stores at most 25 distinct networks, each masked and
    none a default route, that read back as they were asked for and that
    overlap neither the VPN, nor a network of the host, nor a network of
    another device. *)
Theorem SetDeviceRoutes_correct addrs user name routes s d s' : ok s →
  SetDeviceRoutes cfg addrs user name routes s = (Ok d, s') →
  ∃ stored, devices (view s) !! (user, name) = Some stored ∧
    view s' = on_devices <[(user, name) := d]> (view s) ∧ emitted s' = emitted s ++ [EvUpdate d] ∧
    d = Device.with_Routes (Device.Routes d) stored ∧
    normalizeRoutes routes = Ok (routes_of d) ∧ NoDup (routes_of d) ∧
    Z.of_nat (List.length (routes_of d)) <= maxRoutesPerDevice ∧
    Forall (λ p, stored_route p ∧ off_vpn cfg p ∧
      (∀ h, hostNetworks addrs = Ok h → Forall (λ q, Overlaps q p = false) h) ∧
      (∀ k d', devices (view s) !! k = Some d' → k ≠ (user, name) → not_routed d' p)) (routes_of d).
Proof.
  intros Hok E. apply SetDeviceRoutes_spec in E as (_ & l & stored & Hn & Hl & Hd & Hr & Hv & He & Hf); [|done].
  exists stored. rewrite Hr. pose proof (normalizeRoutes_ok _ _ Hn) as (Hnd & Hst & Hlen).
  split; [done|]. split; [done|]. split; [done|]. split; [by rewrite Hd|]. split; [done|]. split; [done|]. split; [done|].
  apply Forall_forall. intros p Hp. rewrite Forall_forall in Hst, Hf.
  specialize (Hf p Hp) as (Hv1 & Hh & Ho). split; [by apply Hst|]. split; [exact Hv1|done].
Qed.

(** [RenameDevice] moves the device to its new name, which was free, and
    changes nothing else of it or of any other device. *)
Theorem RenameDevice_correct user name newName s d s' : ok s → name ≠ newName →
  RenameDevice user name newName s = (Ok d, s') →
  ∃ stored, devices (view s) !! (user, name) = Some stored ∧ d = Device.with_Name newName stored ∧
    devices (view s) !! (user, newName) = None ∧ validateDeviceName newName = Ok tt ∧
    devices (view s') !! (user, name) = None ∧ devices (view s') !! (user, newName) = Some d ∧
    ∀ k, k ≠ (user, name) → k ≠ (user, newName) → devices (view s') !! k = devices (view s) !! k.
Proof.
  intros Hok Hne E. apply RenameDevice_spec in E as (Hn & _ & stored & Hl & _ & Hd); [|done].
  destruct (String.eqb_spec name newName); [done|]. destruct Hd as (-> & Hfree & -> & _).
  exists stored. cbn. do 4 (split; [done|]). split; [|split].
  - rewrite lookup_insert_ne by congruence. apply lookup_delete_eq.
  - apply lookup_insert_eq.
  - intros k H1' H2'. by rewrite lookup_insert_ne, lookup_delete_ne.
Qed.

(** [SetDeviceAccess] changes the two fields it is asked to change - an
    absent one stays - and nothing else; an expiry date it sets is in the
    future, so a device is never stored as expired already. *)
Theorem SetDeviceAccess_correct now user name change s d s' : ok s →
  SetDeviceAccess now user name change s = (Ok d, s') →
  ∃ stored, devices (view s) !! (user, name) = Some stored ∧
    d = Device.with_Access (default (Device.Disabled stored) (ac_Disabled change))
          (new_expiry (Device.ExpiresAt stored) change) stored ∧
    view s' = on_devices <[(user, name) := d]> (view s) ∧ emitted s' = emitted s ++ [EvUpdate d] ∧
    (ac_ExpiresAt change ≠ None → Device.Expired d now = false).
Proof.
  intros Hok E. apply SetDeviceAccess_spec in E as (_ & stored & Hl & -> & Hf & Hv & He); [|done].
  exists stored. split; [done|]. split; [done|]. split; [done|]. split; [done|].
  intros Hx. unfold Device.Expired, new_expiry. cbn. destruct (ac_ClearExpiresAt change); [done|].
  destruct (ac_ExpiresAt change) as [e|]; [|done]. apply negb_false_iff, Z.ltb_lt. by apply Hf.
Qed.

(** [BlockDevicesForUser] leaves no device of the user that may connect,
    leaves everybody else's devices alone, and reports how many it blocked. *)
Theorem BlockDevicesForUser_correct now user s n s' : ok s → BlockDevicesForUser user s = (Ok n, s') →
  (∀ k d, devices (view s') !! k = Some d → Device.Owner d = user → Device.AccessAllowed d now = false) ∧
  (∀ k, k.1 ≠ user → devices (view s') !! k = devices (view s) !! k) ∧
  n = Z.of_nat (List.length (filter (λ d, Device.Disabled d = false) (owned (devices (view s)) user))).
Proof.
  intros Hok E. apply BlockDevicesForUser_spec in E as (_ & -> & ->); [|done].
  pose proof (wf_dev_key _ (ok_wf _ Hok)) as Hkey.
  split; [|split; [|done]]; intros k; cbn; rewrite lookup_fmap.
  - intros d (d0 & Hd0 & ->)%fmap_Some. case_bool_decide as Ho; [done|]. done.
  - intros Hk. destruct (devices (view s) !! k) as [d|] eqn:Hd; [|done]. cbn. rewrite bool_decide_eq_false_2; [done|].
    intros <-. apply Hk. apply Hkey in Hd. by rewrite <- Hd.
Qed.
End theorems.

(** ** Concrete cases *)
Lemma add_ok name pk s : ok (StorageLaws := InMemory_laws) s → is_ok (add name pk s).1 = true →
  ok (StorageLaws := InMemory_laws) (add name pk s).2.
Proof.
  intros Hok. destruct (add name pk s) as [[d|e] s'] eqn:E; [|done]. intros _. unfold add in E.
  exact (proj1 (AddDevice_spec cfg _ _ _ _ _ _ _ _ _ _ _ Hok cfg_ok E)).
Qed.
Lemma ok1 : ok (StorageLaws := InMemory_laws) s1.
Proof. apply add_ok; [apply ok0|vm_compute; reflexivity]. Qed.
Lemma ok2 : ok (StorageLaws := InMemory_laws) s2.
Proof. apply add_ok; [apply ok1|vm_compute; reflexivity]. Qed.
(** The manager with the two devices, and without peers for them. *)
Definition dm2 : DeviceManager InMemoryStorage Peers := New s2 ∅.
Lemma run_New {S W A} `{Storage S} `{WireGuard W} (m : M S A) (s : S) (w : W) :
  on_storage m (New s w) = ((m s).1, New (m s).2 w).
Proof. unfold on_storage, zoom. cbn. by destruct (m s). Qed.
Lemma step_add name pk s :
  step cfg None (New s ∅ : DeviceManager InMemoryStorage Peers) (New (add name pk s).2 ∅).
Proof.
  refine (step_AddDevice cfg None 1000 alice name pk "" false "" "" _ (add name pk s).1 _ _).
  unfold add. apply run_New.
Qed.
Lemma run2 : rtc (step cfg None) dm0 dm2.
Proof. apply rtc_l with (New s1 ∅); [|apply rtc_once]; apply step_add. Qed.

Lemma devices_invariant_witness :
  devices (view s2) !! ("alice", "phone") ≠ None ∧ dev_inv cfg (devices (view s2)) ∧ wf_abs (view s2).
Proof.
  split; [by vm_compute|].
  apply (devices_invariant cfg None dm0 dm2); [apply cfg_ok|apply ok0|reflexivity|apply run2].
Defined.

Lemma AddDevice_correct_witness : ∃ d s', add "phone" pk2 s1 = (Ok d, s') ∧
  key_free (devices (view s1)) (Device.key d) pk2 ∧ view s' = on_devices <[Device.key d := d]> (view s1).
Proof.
  destruct (add "phone" pk2 s1) as [[d|e] s'] eqn:E; [|by vm_compute in E].
  exists d, s'. split; [reflexivity|]. unfold add in E.
  destruct (AddDevice_correct cfg _ _ _ _ _ _ _ _ _ _ _ cfg_ok ok1 E) as (_ & _ & _ & _ & _ & Hf & _ & Hv & _).
  exact (conj Hf Hv).
Defined.

Lemma nextFree_lowest_witness : nextFree "10.44.0.0/30" 32 ∅ = Ok "10.44.0.2/32" ∧
  (nextFree "10.44.0.0/30" 32 {[A4 (10 * 2 ^ 24 + 44 * 2 ^ 16 + 2); A4 (10 * 2 ^ 24 + 44 * 2 ^ 16 + 3)]} = Ok "") ∧
  ∃ p, ParsePrefix "10.44.0.0/30" = Some p ∧
    ((∃ a, nextFree "10.44.0.0/30" (BitLen (PAddr p)) ∅ = Ok (PrefixString (single a)) ∧ free_in p ∅ a ∧
       ∀ b, free_in p ∅ b → addr_val a <= addr_val b) ∨
     (nextFree "10.44.0.0/30" (BitLen (PAddr p)) ∅ = Ok "" ∧ ∀ a, ¬ free_in p ∅ a)).
Proof.
  split; [vm_compute; reflexivity|]. split; [vm_compute; reflexivity|].
  exists (mkPrefix (A4 (10 * 2 ^ 24 + 44 * 2 ^ 16)) 30). split; [vm_compute; reflexivity|].
  apply (nextFree_lowest "10.44.0.0/30"). vm_compute. reflexivity.
Defined.

Lemma failed_operations_change_nothing_witness : ∃ e s',
  AddDevice cfg 1000 alice "tablet" zero_key "" false "" "" s2 = (Err e, s') ∧ same s2 s'.
Proof.
  destruct (AddDevice cfg 1000 alice "tablet" zero_key "" false "" "" s2) as [[d|e] s'] eqn:E; [by vm_compute in E|].
  exists e, s'. split; [reflexivity|].
  by eapply (proj1 (failed_operations_change_nothing cfg s2 ok2)).
Defined.

(** Addresses of the host as the system reports them. *)
Definition host : result (list (option string)) := Ok [Some "192.0.2.10/24"; None].
Lemma SetDeviceRoutes_correct_witness : ∃ d s',
  SetDeviceRoutes cfg host "alice" "phone" ["10.1.2.3/16"; " 10.1.0.0/16 "; "fd00:1::/64"] s2 = (Ok d, s') ∧
  Device.Routes d = "10.1.0.0/16, fd00:1::/64" ∧ NoDup (routes_of d).
Proof.
  destruct (SetDeviceRoutes cfg host "alice" "phone" ["10.1.2.3/16"; " 10.1.0.0/16 "; "fd00:1::/64"] s2)
    as [[d|e] s'] eqn:E; [|by vm_compute in E].
  exists d, s'. split; [reflexivity|]. split; [by vm_compute in E; injection E as <- _|].
  destruct (SetDeviceRoutes_correct cfg _ _ _ _ _ _ _ ok2 E) as (? & _ & _ & _ & _ & _ & Hn & _). exact Hn.
Defined.

Lemma RenameDevice_correct_witness : ∃ d s', RenameDevice "alice" "phone" "my phone" s2 = (Ok d, s') ∧
  devices (view s') !! ("alice", "phone") = None ∧ devices (view s') !! ("alice", "my phone") = Some d.
Proof.
  destruct (RenameDevice "alice" "phone" "my phone" s2) as [[d|e] s'] eqn:E; [|by vm_compute in E].
  exists d, s'. split; [reflexivity|].
  assert ("phone" ≠ "my phone") as Hne by done.
  destruct (RenameDevice_correct _ _ _ _ _ _ ok2 Hne E) as (? & _ & _ & _ & _ & H1 & H2 & _). exact (conj H1 H2).
Defined.

Definition in_an_hour : AccessChange := mkAccessChange (Some false) (Some 5000) false.
Lemma SetDeviceAccess_correct_witness : ∃ d s',
  SetDeviceAccess 2000 "alice" "phone" in_an_hour s2 = (Ok d, s') ∧
  Device.ExpiresAt d = Some 5000 ∧ Device.Expired d 2000 = false.
Proof.
  destruct (SetDeviceAccess 2000 "alice" "phone" in_an_hour s2) as [[d|e] s'] eqn:E; [|by vm_compute in E].
  exists d, s'. split; [reflexivity|].
  destruct (SetDeviceAccess_correct _ _ _ _ _ _ _ ok2 E) as (? & _ & -> & _ & _ & Hx).
  split; [reflexivity|by apply Hx].
Defined.

Lemma BlockDevicesForUser_correct_witness : ∃ s', BlockDevicesForUser "alice" s2 = (Ok 2, s') ∧
  ∀ k d, devices (view s') !! k = Some d → Device.Owner d = "alice" → Device.AccessAllowed d 2000 = false.
Proof.
  destruct (BlockDevicesForUser "alice" s2) as [[n|e] s'] eqn:E; [|by vm_compute in E].
  assert (n = 2) as -> by (by vm_compute in E; injection E as <- _).
  exists s'. split; [reflexivity|]. destruct (BlockDevicesForUser_correct 2000 _ _ _ _ ok2 E) as (Hb & _ & _). exact Hb.
Defined.
