(* ===== verification/PeerTheorems.v ===== *)
(** * The properties of the interface's peers and of the firewall's state

    What [Manager.v], [Routes.v] and [Metadata.v] guarantee of the WireGuard
    peers, the state the firewall is built from and the recorded traffic, each
    with a concrete case. *)
From S2P Require Import Prelude GoText GoQuote Netip NetipText NetipRoundTrip Network Storage InMemory.
From S2P Require Import InMemoryLaws Atomic AuthSession WireGuard Devices Allocation DeviceSpecs Routes RouteSpecs.
From S2P Require Import Manager ManagerSpecs Metadata Reachable DeviceTheorems.
Import Demo.

Section theorems.
  Context {S W : Type} `{StorageLaws S} `{WireGuardLaws W} `{!WireGuardWorks W}
    (firewallSync : option (FirewallState → result unit)).
  Implicit Types (d : DeviceManager S W).


(** The access check takes the peer away from every device that is disabled
    or has expired, and from nobody else, and it changes nothing stored. *)
Theorem removeBlockedPeers_correct now d l s' r d' : ok (storage d) →
  ListAllDevices (storage d) = (Ok l, s') → removeBlockedPeers now d = (r, d') →
  r = Ok tt ∧ storage d' = storage d ∧
  ∀ k, has_peer d' k ↔ has_peer d k ∧ ¬ blocked_key now (devices (view (storage d))) k.
Proof. apply removeBlockedPeers_spec. Qed.

(** Handling an event of the storage leaves the device of the event with a
    peer exactly when it is still there and may connect, leaves all other peers
    in place, and asks for a resynchronization. *)
Theorem handle_event_correct now e d r d' : can_be_peer (event_device e) → handle_event now e d = (r, d') →
  r = Ok tt ∧ resync d' = true ∧
  (has_peer d' (Device.PublicKey (event_device e)) ↔ event_allows now e) ∧
  ∀ k, k ≠ Device.PublicKey (event_device e) → has_peer d' k ↔ has_peer d k.
Proof.
  intros Hp E. destruct (handle_event_spec _ _ _ _ _ Hp E) as (? & _ & ?). done.
Qed.

(** A successful key rotation stores the new keys - well formed, and used by
    no other device - in the same device, and its old key loses its peer at
    once: a lost key cannot connect any more. *)
Theorem RotateDeviceKey_correct now user name pk psk d dev d' : ok (storage d) →
  (∀ k dev, devices (view (storage d)) !! k = Some dev → can_be_peer dev) →
  RotateDeviceKey now user name pk psk d = (Ok dev, d') →
  key_ok pk ∧ ∃ stored, devices (view (storage d)) !! (user, name) = Some stored ∧
    dev = Device.with_Keys pk psk stored ∧ key_free (devices (view (storage d))) (user, name) pk ∧
    view (storage d') = on_devices <[(user, name) := dev]> (view (storage d)) ∧
    ¬ has_peer d' (Device.PublicKey stored) ∧
    (has_peer d' pk ↔ Device.AccessAllowed stored now = true).
Proof.
  intros Hok Hp E. destruct (RotateDeviceKey_spec _ _ _ _ _ _ _ _ Hok Hp E)
    as (? & _ & _ & stored & ? & _ & ? & ? & ? & ? & ?).
  split; [done|]. by exists stored.
Qed.
(** The inactivity check deletes no device that was active within the grace
    period, changes no device it leaves, and logs every deletion. *)
Theorem checkAndRemove_correct now grace d r d' :
  ok (storage d) → checkAndRemove now grace d = (r, d') → r = Ok tt ∧ pruned now grace d d'.
Proof. apply checkAndRemove_spec. Qed.
End theorems.

(** What the syncs record of a peer's counter adds up to what the peer
    transferred, however often its counter was reset in between. *)
Theorem recorded_traffic counters : Forall (λ c, 0 <= c < 2 ^ 63) counters →
  recorded 0 counters = transferred 0 counters.
Proof. intros Hc. rewrite <- recorded_transferred by (lia || done). lia. Qed.

(** A metadata sync reports of every peer the traffic since the last sync
    and its connection, once, unless there is nothing to report, and remembers
    the counters of exactly the peers it saw. *)
Theorem collectMetadata_correct now peers tracker : NoDup (p_PublicKey <$> peers) →
  collectMetadata now peers tracker = (omap (report now tracker) peers, snapshot peers).
Proof. apply collectMetadata_report. Qed.

(** The state the firewall is built from lists every network behind a
    device, and under an access policy exactly the addresses of the devices
    that may connect and whose owner has the policy. *)
Theorem build_state_correct now users devs p a : NoDup (User.Subject <$> users) →
  (∀ d, d ∈ devs → ∃ u, u ∈ users ∧ User.Subject u = Device.Owner d) →
  Routed (build_state now users devs) ≡ₚ devs ≫= Device.RouteList ∧
  (a ∈ default [] (Policies (build_state now users devs) !! p) ↔
   ∃ d u, d ∈ devs ∧ u ∈ users ∧ User.Subject u = Device.Owner d ∧ p ∈ User.PolicyList u ∧
     Device.AccessAllowed d now = true ∧ a ∈ SplitAddresses (Device.Address d)).
Proof.
  intros Hn Hu. unfold build_state. split.
  { cbn. unfold sort_Strings. rewrite merge_sort_Permutation. by rewrite see_devices_routed. }
  cbn. rewrite lookup_fmap.
  assert (a ∈ default [] (sort_Strings <$> Policies (fold_left (see_device now (policiesOf users)) devs
    zero_FirewallState) !! p) ↔ a ∈ default [] (Policies (fold_left (see_device now (policiesOf users)) devs
    zero_FirewallState) !! p)) as ->.
  { destruct (_ !! p); cbn; [|done]. unfold sort_Strings. by rewrite merge_sort_Permutation. }
  rewrite see_devices_policies. cbn. rewrite lookup_empty, Exists_exists. cbn. split.
  - intros [Hnil|(d & Hd & Ha & Hp & Hin)]; [by apply not_elem_of_nil in Hnil|].
    destruct (Hu d Hd) as (u & Hu1 & Hu2). exists d, u. rewrite <- Hu2, policiesOf_spec in Hp by done. done.
  - intros (d & u & Hd & Hin & Ho & Hp & Ha & Haddr). right. exists d. split; [done|]. split; [done|].
    rewrite <- Ho, policiesOf_spec by done. done.
Qed.

(** ** Concrete cases *)
(** A peer nobody knows, and the two devices of [DeviceTheorems], of which the
    second is blocked. *)
Definition stale : Peers := <[zero_key := mkPeer zero_key zero_key [] None 0 0 0]> ∅.
Definition s3 : InMemoryStorage := (SetDeviceAccess 2000 "alice" "phone" (mkAccessChange (Some true) None false) s2).2.
Definition dm3 : DeviceManager InMemoryStorage Peers := New s3 stale.

Lemma ok3 : ok (StorageLaws := InMemory_laws) s3.
Proof.
  unfold s3. destruct (SetDeviceAccess 2000 "alice" "phone" _ s2) as [[d|e] s'] eqn:E; [|by vm_compute in E].
  exact (proj1 (SetDeviceAccess_spec _ _ _ _ _ _ _ ok2 E)).
Qed.

(** A property of all devices of a table, decided by running through them. *)
Lemma all_devices_dec (m : gmap (string * string) Device) (P : Device → bool) :
  forallb P (map_to_list m).*2 = true → ∀ k d, m !! k = Some d → P d = true.
Proof.
  intros Hf k d Hd. rewrite forallb_forall in Hf. apply Hf, list_elem_of_In, list_elem_of_fmap.
  exists (k, d). split; [done|]. by apply elem_of_map_to_list.
Qed.
Definition peer_ready (d : Device) : bool :=
  negb (String.eqb (Device.PublicKey d) "") &&
  forallb (λ s, match ParseCIDR s with Some _ => true | None => false end) (Device.AllowedIPs d).
Lemma peer_ready_spec d : peer_ready d = true → can_be_peer d.
Proof.
  intros [Hn Hf%forallb_Forall]%andb_true_iff. split; [by apply String.eqb_neq, negb_true_iff|].
  eapply Forall_impl; [exact Hf|]. intros s. cbn. destruct (ParseCIDR s); [by eexists|done].
Qed.
Lemma ready3 k d : devices (view s3) !! k = Some d → can_be_peer d.
Proof. intros Hd. apply peer_ready_spec. revert k d Hd. apply all_devices_dec. vm_compute. reflexivity. Qed.


Definition dm4 : DeviceManager InMemoryStorage Peers :=
  New s3 (<[pk2 := mkPeer pk2 zero_key [] None 0 0 0]> (<[pk1 := mkPeer pk1 zero_key [] None 0 0 0]> ∅)).
Lemma removeBlockedPeers_correct_witness : let d' := (removeBlockedPeers 3000 dm4).2 in
  (map_to_list (peers (wg d'))).*1 = [pk1] ∧
  ∀ k, has_peer d' k ↔ has_peer dm4 k ∧ ¬ blocked_key 3000 (devices (view s3)) k.
Proof.
  destruct (m_run_ok ListAllDevices s3) as [l El]; [vm_compute; reflexivity|].
  destruct (m_run_ok (removeBlockedPeers 3000) dm4) as [[] E]; [vm_compute; reflexivity|].
  split; [vm_compute; reflexivity|].
  exact (proj2 (proj2 (removeBlockedPeers_correct 3000 dm4 _ _ _ _ ok3 El E))).
Defined.

Definition phone : Device := default (new_device 0 alice "" "" "" "") (get "phone" s2).
Lemma handle_event_correct_witness : let d' := (handle_event 3000 (EvAdd phone) dm0).2 in
  has_peer d' (Device.PublicKey phone) ↔ event_allows 3000 (EvAdd phone).
Proof.
  destruct (m_run_ok (handle_event 3000 (EvAdd phone)) dm0) as [[] E]; [vm_compute; reflexivity|].
  assert (can_be_peer phone) as Hp by (apply peer_ready_spec; vm_compute; reflexivity).
  exact (proj1 (proj2 (proj2 (handle_event_correct 3000 (EvAdd phone) dm0 _ _ Hp E)))).
Defined.

Definition pk3 : string := "CCCCCCCCCCCCCCCCCCCCCCCCCCCCCCCCCCCCCCCCCCE=".
Definition rotated : result Device * DeviceManager InMemoryStorage Peers :=
  RotateDeviceKey 3000 "alice" "laptop" pk3 "" dm4.
Lemma RotateDeviceKey_correct_witness : is_ok rotated.1 = true ∧
  ∃ stored, devices (view s3) !! ("alice", "laptop") = Some stored ∧
    ¬ has_peer rotated.2 (Device.PublicKey stored) ∧
    (has_peer rotated.2 pk3 ↔ Device.AccessAllowed stored 3000 = true).
Proof.
  split; [vm_compute; reflexivity|].
  destruct (m_run_ok (RotateDeviceKey 3000 "alice" "laptop" pk3 "") dm4) as [dev E]; [vm_compute; reflexivity|].
  destruct (RotateDeviceKey_correct 3000 _ _ _ _ dm4 _ _ ok3 ready3 E) as (_ & stored & H1 & _ & _ & _ & H2 & H3).
  exact (ex_intro _ stored (conj H1 (conj H2 H3))).
Defined.

Lemma checkAndRemove_correct_witness : let d' := (checkAndRemove 5000 4500 dm4).2 in
  map_to_list (devices (view (storage d'))) ≠ [] ∧ pruned 5000 4500 dm4 d'.
Proof.
  destruct (m_run_ok (checkAndRemove 5000 4500) dm4) as [[] E]; [vm_compute; reflexivity|].
  split; [vm_compute; discriminate|]. exact (proj2 (checkAndRemove_correct 5000 4500 dm4 _ _ ok3 E)).
Defined.

Lemma recorded_traffic_witness : recorded 0 [100; 250; 40; 90] = 340 ∧ transferred 0 [100; 250; 40; 90] = 340.
Proof.
  rewrite <- (recorded_traffic [100; 250; 40; 90]); [split; reflexivity|]. repeat (constructor; [lia|]). constructor.
Defined.

Definition two_peers : list Peer :=
  [mkPeer pk1 zero_key [] (Some "203.0.113.5") 2000 700 30; mkPeer pk2 zero_key [] None 0 0 0].
Lemma collectMetadata_correct_witness :
  collectMetadata 3000 two_peers newTrafficTracker = (omap (report 3000 newTrafficTracker) two_peers, snapshot two_peers) ∧
  omap (report 3000 newTrafficTracker) two_peers = [mkMetadataUpdate pk1 700 30 (Some (mkPeerConnection "203.0.113.5" 2000))].
Proof.
  split; [|vm_compute; reflexivity]. apply (collectMetadata_correct 3000 two_peers newTrafficTracker).
  apply (bool_decide_unpack _). vm_compute. exact I.
Defined.

Definition member_of (policies : string) : User :=
  User.mk "alice" "simple" "Alice" "" policies 0 "" "" None "" None "" 0 "".
Lemma build_state_correct_witness : let users := [member_of "office, servers"] in
  Policies (build_state 3000 users [phone]) !! "servers" = Some ["10.44.0.3/32"; "fd48::3/128"] ∧
  Routed (build_state 3000 users [phone]) ≡ₚ [phone] ≫= Device.RouteList.
Proof.
  split; [vm_compute; reflexivity|].
  apply (build_state_correct 3000 [member_of "office, servers"] [phone] "servers" "").
  - apply (bool_decide_unpack _). vm_compute. exact I.
  - intros d [->|Hd]%elem_of_cons; [|by apply not_elem_of_nil in Hd].
    exists (member_of "office, servers"). split; [left|vm_compute; reflexivity].
Defined.
