(* ===== verification/PgWatcher.v ===== *)
(** * internal/storage/pgwatcher.go: how the replicas of a PostgreSQL hear of changes

    [NewPgWatcher] with the triggers it asks for, the callbacks of [PgWatcher], and what
    opens a SQL storage around them ([Open] and [attachWatcher] of [sql.go]). The listener
    of pg-events and the statements it sends are a class; [Plain] is the plain
    implementation of what PostgreSQL and pg-events document of triggers: which
    statements on a table an event is raised for, and what it carries. *)
From S2P Require Import Prelude GoText Storage SqlStorage Schema AuthSession WireGuard Devices Routes Manager ManagerSpecs.
From S2P Require Import InMemory InMemoryLaws Toys DeviceTheorems PeerTheorems.
Import Demo.

Inductive Action := INSERT | UPDATE | DELETE.
#[export] Instance Action_eq_dec : EqDecision Action.
Proof. solve_decision. Defined.
(** Without the row of a table, [Data] is empty and [Truncated] is set. *)
Record TableEvent := mkEvent { Table : string; EventAction : Action; Data : string; Truncated : bool }.

(** ** Setting up *)
Class Postgres (P : Type) := {
  OpenListener (connectionString : string) : M P unit;
  AttachWithoutRow (table : string) (actions : list Action) : M P unit;
  CloseListener : M P unit;
  Exec (statement : string) : M P unit }.

Definition updateTriggerSuffix : string := "_update_events".
Definition legacyRenameTriggerSuffix : string := "_rename_events".
Definition drop_trigger (name table : string) : string := "DROP TRIGGER IF EXISTS " +:+ name +:+ " ON " +:+ table.
Definition create_trigger (name table : string) : string :=
  "CREATE TRIGGER " +:+ name +:+ " AFTER UPDATE OF name, disabled, expires_at, routes, public_key, preshared_key " +:+
  "ON " +:+ table +:+ " FOR EACH ROW EXECUTE PROCEDURE pgevents_notify_event('norow')".

Section setup.
  Context {P : Type} `{Postgres P}.
Definition attachUpdateTrigger (table : string) : M P unit :=
  let trigger := table +:+ updateTriggerSuffix in
  do! m_for (λ name, m_wrap ("failed to drop the update trigger on " +:+ table) (Exec (drop_trigger name table)))
    [trigger; table +:+ legacyRenameTriggerSuffix];
  m_wrap ("failed to create the update trigger on " +:+ table) (Exec (create_trigger trigger table)).

(** [_ = listener.Close(); return nil, err] *)
Definition or_close (m : M P unit) : M P unit := λ s,
  match m s with
  | (Ok _, s') => (Ok tt, s')
  | (Err e, s') => (Err e, (m_try CloseListener s').2)
  end.
Definition NewPgWatcher (connectionString table usersTable : string) : M P unit :=
  do! m_wrap "failed to open pg listener" (OpenListener connectionString);
  or_close (
    do! m_wrap ("failed to attach listener to table: " +:+ table) (AttachWithoutRow table [INSERT; DELETE]);
    do! m_wrap ("failed to attach listener to table: " +:+ usersTable)
      (AttachWithoutRow usersTable [INSERT; UPDATE; DELETE]);
    attachUpdateTrigger table).
End setup.

(** ** The callbacks *)
Section watcher.
  Context {St : Type} (Unmarshal : string → result Device).
Record Listener := mkListener { on_event : list (TableEvent → M St unit); on_reconnect : list (M St unit) }.
Definition OnEvent (h : TableEvent → M St unit) (l : Listener) : Listener :=
  mkListener (on_event l ++ [h]) (on_reconnect l).
Definition emit (cb : Device → M St unit) (event : TableEvent) : M St unit :=
  match Unmarshal (Data event) with Err _ => m_ret tt | Ok device => cb device end.
Definition on_action (action : Action) (cb : Device → M St unit) : Listener → Listener :=
  OnEvent (λ event, if bool_decide (EventAction event = action) && negb (Truncated event)
                    then emit cb event else m_ret tt).
Definition OnAdd : (Device → M St unit) → Listener → Listener := on_action INSERT.
Definition OnUpdate : (Device → M St unit) → Listener → Listener := on_action UPDATE.
Definition OnDelete : (Device → M St unit) → Listener → Listener := on_action DELETE.
Definition OnReconnect (cb : M St unit) (l : Listener) : Listener :=
  OnEvent (λ event, if Truncated event then cb else m_ret tt) (mkListener (on_event l) (on_reconnect l ++ [cb])).
(** Every change is reported by the database. *)
Definition Emit (device : Device) : M St unit := m_ret tt.

(** A notification arrives. *)
Definition deliver (l : Listener) (event : TableEvent) : M St unit := m_for (λ h, h event) (on_event l).
End watcher.
Arguments Listener : clear implicits.
Arguments mkListener {St} _ _. Arguments on_event {St} _. Arguments on_reconnect {St} _.

(** What [StartSync] registers. *)
Definition registered {S W} `{Storage S} `{WireGuard W} (Unmarshal : string → result Device) (now : Time)
    (l : Listener (DeviceManager S W)) : Listener (DeviceManager S W) :=
  OnReconnect Resync
    (OnDelete Unmarshal (λ device, handle_event now (EvDelete device))
      (OnUpdate Unmarshal (λ device, handle_event now (EvUpdate device))
        (OnAdd Unmarshal (λ device, handle_event now (EvAdd device)) l))).

(** ** sql.go: opening the storage *)
Inductive Dialector :=
  | postgres_Open (dsn : string)
  | mysql_New (DSN : string) (DefaultStringSize : Z) (DisableDatetimePrecision : bool)
  | sqlite_Open (dsn : string).
Definition dialector (sqlType connectionString : string) : result Dialector :=
  if String.eqb sqlType "postgres" then Ok (postgres_Open connectionString) else
  if String.eqb sqlType "mysql" then Ok (mysql_New connectionString 255 true) else
  if String.eqb sqlType "sqlite3" then Ok (sqlite_Open connectionString) else
  Err (PlainError ("unknown sql storage backend " +:+ sqlType)).

Class Connecting (P : Type) := {
  gorm_Open (d : Dialector) : M P unit;
  (* the table GORM uses for a model *)
  stmt_Parse (model : string) : M P string;
  gorm_DB : M P unit }.
Inductive Watcher := PgWatcher_ | GormWatcher_ (table : string) | InProcessWatcher_.
Section opening.
  Context {P C : Type} `{Postgres P, Connecting P, SchemaDB P, DatabaseLocks P C} (sqlType connectionString : string).
Definition deviceTable : M P string := m_wrap "failed to determine the devices table name" (stmt_Parse "Device").
Definition userTable : M P string := m_wrap "failed to determine the users table name" (stmt_Parse "User").
Definition attachWatcher (table : string) : M P Watcher :=
  if String.eqb sqlType "postgres" then
    let! users := userTable in
    do! m_wrap "failed to create pg watcher" (NewPgWatcher connectionString table users);
    m_ret PgWatcher_
  else if String.eqb sqlType "mysql" || String.eqb sqlType "sqlite3" then m_ret (GormWatcher_ table)
  else m_ret InProcessWatcher_.
Definition Open : M P Watcher :=
  let! dialector := lift (dialector sqlType connectionString) in
  do! m_wrap ("failed to connect to " +:+ sqlType) (gorm_Open dialector);
  let! table := deviceTable in
  do! gorm_DB;
  withSchemaLock (do! runMigrations migrations; attachWatcher table).
End opening.

(** ** PostgreSQL with pg-events

    What pg-events attached to a table, with the row or without; the triggers on top; and
    what does not work. *)
Record Trigger := mkTrigger { of_columns : list string; call : string }.
Record Plain := mkPlain {
  attached : gmap string (list Action * bool);
  triggers : gmap (string * string) Trigger;
  broken : string → bool }.
Definition works (what : string) (f : Plain → result unit * Plain) : M Plain unit := λ p,
  if broken p what then (Err (PlainError what), p) else f p.
(** The two statements, read word by word. *)
Inductive Statement := Drop (table name : string) | Create (table name : string) (trigger : Trigger).
Fixpoint until_on (words : list string) : option (list string * list string) :=
  match words with
  | [] => None
  | w :: words =>
      if String.eqb w "ON" then Some ([], words)
      else '(before, after) ← until_on words; Some (TrimSuffix w "," :: before, after)
  end.
Definition starts_with (l words : list string) : option (list string) :=
  if bool_decide (take (List.length l) words = l) then Some (drop (List.length l) words) else None.
Definition statement_of (statement : string) : option Statement :=
  let words := Fields statement in
  match starts_with ["DROP"; "TRIGGER"; "IF"; "EXISTS"] words with
  | Some [name; on; table] => if String.eqb on "ON" then Some (Drop table name) else None
  | Some _ => None
  | None =>
      match starts_with ["CREATE"; "TRIGGER"] words with
      | Some (name :: words) =>
          words ← starts_with ["AFTER"; "UPDATE"; "OF"] words;
          '(columns, words) ← until_on words;
          match words with
          | table :: words =>
              words ← starts_with ["FOR"; "EACH"; "ROW"; "EXECUTE"; "PROCEDURE"] words;
              match words with [f] => Some (Create table name (mkTrigger columns f)) | _ => None end
          | [] => None
          end
      | _ => None
      end
  end.
Definition plain_Exec (statement : string) : M Plain unit := works statement (λ p,
  match statement_of statement with
  | None => (Err (PlainError "syntax error"), p)
  | Some (Drop table name) => (Ok tt, mkPlain (attached p) (delete (table, name) (triggers p)) (broken p))
  | Some (Create table name trigger) =>
      match triggers p !! (table, name) with
      | Some _ => (Err (PlainError "trigger already exists"), p)
      | None => (Ok tt, mkPlain (attached p) (<[(table, name) := trigger]> (triggers p)) (broken p))
      end
  end).
#[export] Instance plain_postgres : Postgres Plain := {|
  OpenListener connectionString := works connectionString (λ p, (Ok tt, p));
  AttachWithoutRow table actions := works ("attach " +:+ table) (λ p,
    (Ok tt, mkPlain (<[table := (actions, false)]> (attached p)) (triggers p) (broken p)));
  CloseListener := works "close" (λ p, (Ok tt, p));
  Exec := plain_Exec |}.

(** The events of a statement that writes a row of a table and assigns these columns. *)
Definition fires (table : string) (action : Action) (columns : list string) (kt : (string * string) * Trigger) : Prop :=
  kt.1.1 = table ∧ action = UPDATE ∧ Exists (λ c, c ∈ columns) (of_columns kt.2).
#[export] Instance fires_dec table action columns kt : Decision (fires table action columns kt).
Proof. unfold fires. apply _. Defined.
Definition notification (row table : string) (action : Action) (with_row : bool) : TableEvent :=
  mkEvent table action (if with_row then row else "") (negb with_row).
Definition carries_row (t : Trigger) : bool := negb (String.eqb (call t) "pgevents_notify_event('norow')").
Definition events (p : Plain) (row table : string) (action : Action) (columns : list string) : list TableEvent :=
  match attached p !! table with
  | Some (actions, with_row) => if bool_decide (action ∈ actions) then [notification row table action with_row] else []
  | None => []
  end ++
  ((λ kt, notification row table action (carries_row kt.2)) <$>
     map_to_list (filter (fires table action columns) (triggers p))).

(** ** The statements of the storage *)
Inductive Change :=
  | Inserted | Deleted
  (* Select of every column *)
  | Saved (device : Device)
  | Renamed (newName : string) | AccessSet (disabled : bool) (expiresAt : option Time) | RoutesSet (routes : string)
  | KeysSet (publicKey presharedKey : string) | Blocked
  | MetadataRecorded (update : MetadataUpdate)
  | SignedIn (known : bool) | UserDeleted.
Definition device_columns : list string :=
  ["owner_name"; "owner_email"; "owner_provider"; "public_key"; "preshared_key"; "address"; "created_at"; "disabled";
   "expires_at"; "routes"; "last_handshake_time"; "receive_bytes"; "transmit_bytes"; "endpoint"].
(** The table, what happens to the row, and the columns the statement assigns. *)
Definition statement (c : Change) : string * Action * list string :=
  match c with
  | Inserted => ("devices", INSERT, [])
  | Deleted => ("devices", DELETE, [])
  | Saved _ => ("devices", UPDATE, device_columns)
  | Renamed _ => ("devices", UPDATE, ["name"])
  | AccessSet _ _ => ("devices", UPDATE, ["disabled"; "expires_at"])
  | RoutesSet _ => ("devices", UPDATE, ["routes"])
  | KeysSet _ _ => ("devices", UPDATE, ["public_key"; "preshared_key"])
  | Blocked => ("devices", UPDATE, ["disabled"])
  | MetadataRecorded u => ("devices", UPDATE,
      (if mu_ReceiveBytes u =? 0 then [] else ["receive_bytes"]) ++
      (if mu_TransmitBytes u =? 0 then [] else ["transmit_bytes"]) ++
      (if mu_Connection u then ["endpoint"; "last_handshake_time"] else []))
  | SignedIn false => ("users", INSERT, [])
  | SignedIn true => ("users", UPDATE, ["provider"; "name"; "email"; "policies"; "last_login"])
  | UserDeleted => ("users", DELETE, [])
  end.
(** What it makes of a row of the devices, and the columns of one. *)
Definition row_change {D} `{Gorm D} (c : Change) (d : Device) : option Device :=
  match c with
  | Saved device => if bool_decide (Device.key device = Device.key d) then Some device else None
  | Renamed newName => Some (Device.with_Name newName d)
  | AccessSet disabled expiresAt => Some (Device.with_Access disabled expiresAt d)
  | RoutesSet routes => Some (Device.with_Routes routes d)
  | KeysSet publicKey presharedKey => Some (Device.with_Keys publicKey presharedKey d)
  | Blocked => Some (disable d)
  | MetadataRecorded u => columns ← update_columns u; columns d
  | _ => None
  end.
Inductive Cell := Text (s : string) | Number (n : Z) | Flag (b : bool) | Moment (t : option Time).
Definition cell (d : Device) (column : string) : Cell :=
  let cells := [("owner", Text (Device.Owner d)); ("owner_name", Text (Device.OwnerName d));
    ("owner_email", Text (Device.OwnerEmail d)); ("owner_provider", Text (Device.OwnerProvider d));
    ("name", Text (Device.Name d)); ("public_key", Text (Device.PublicKey d));
    ("preshared_key", Text (Device.PresharedKey d)); ("address", Text (Device.Address d));
    ("created_at", Moment (Some (Device.CreatedAt d))); ("disabled", Flag (Device.Disabled d));
    ("expires_at", Moment (Device.ExpiresAt d)); ("routes", Text (Device.Routes d));
    ("last_handshake_time", Moment (Device.LastHandshakeTime d)); ("receive_bytes", Number (Device.ReceiveBytes d));
    ("transmit_bytes", Number (Device.TransmitBytes d)); ("endpoint", Text (Device.Endpoint d))] in
  match List.find (λ c, String.eqb c.1 column) cells with Some c => c.2 | None => Text "" end.
Definition is_metadata (c : Change) : bool := match c with MetadataRecorded _ => true | _ => false end.

(** ** What is set up *)
Definition update_trigger : Trigger :=
  mkTrigger ["name"; "disabled"; "expires_at"; "routes"; "public_key"; "preshared_key"] "pgevents_notify_event('norow')".
Lemma works_ok what f p p' : works what f p = (Ok tt, p') → f p = (Ok tt, p').
Proof. unfold works. by destruct (broken p what). Qed.
Lemma or_close_ok (m : M Plain unit) p p' : or_close m p = (Ok tt, p') → m p = (Ok tt, p').
Proof. unfold or_close. destruct (m p) as [[[]|e] s]; [done|by intros [=]]. Qed.
Lemma Exec_drop table name p p' : statement_of (drop_trigger name table) = Some (Drop table name) →
  Exec (drop_trigger name table) p = (Ok tt, p') → attached p' = attached p ∧ triggers p' = delete (table, name) (triggers p).
Proof. intros Es E. apply works_ok in E. rewrite Es in E. by injection E as <-. Qed.
Lemma Exec_create table name trigger p p' :
  statement_of (create_trigger name table) = Some (Create table name trigger) →
  Exec (create_trigger name table) p = (Ok tt, p') →
  attached p' = attached p ∧ triggers p' = <[(table, name) := trigger]> (triggers p).
Proof. intros Es E. apply works_ok in E. rewrite Es in E. destruct (triggers p !! _); [done|]. by injection E as <-. Qed.
(** After opening, pg-events reports what it is asked to and the trigger is the one of this version. *)
Lemma set_up connection p p' : NewPgWatcher connection "devices" "users" p = (Ok tt, p') →
  attached p' !! "devices" = Some ([INSERT; DELETE], false) ∧
  attached p' !! "users" = Some ([INSERT; UPDATE; DELETE], false) ∧
  triggers p' = <[("devices", "devices_update_events") := update_trigger]>
    (delete ("devices", "devices_rename_events") (delete ("devices", "devices_update_events") (triggers p))).
Proof.
  intros E. unfold NewPgWatcher in E. minv. apply or_close_ok in E. unfold attachUpdateTrigger in E. cbn [m_for] in E. minv.
  repeat match goal with u : () |- _ => destruct u end.
  match goal with H : OpenListener _ _ = _ |- _ => apply works_ok in H; injection H as <- end.
  do 2 match goal with H : AttachWithoutRow _ _ _ = _ |- _ => apply works_ok in H; injection H as <- end.
  do 2 match goal with H : Exec (drop_trigger _ _) _ = _ |- _ =>
    apply Exec_drop in H as [? ?]; [|vm_compute; reflexivity] end.
  apply (Exec_create _ _ update_trigger) in E as [? ?]; [|vm_compute; reflexivity]. cbn [attached triggers] in *.
  repeat match goal with H : attached _ = _ |- _ => rewrite H; clear H | H : triggers _ = _ |- _ => rewrite H; clear H end.
  split; [by rewrite lookup_insert_ne, lookup_insert_eq by done|]. by rewrite lookup_insert_eq.
Qed.

(** ** Which statements are announced *)
(** A row keeps what the statement does not assign. *)
Ltac per_column column :=
  repeat match goal with
  | |- context [String.eqb ?k column] => destruct (String.eqb_spec k column) as [<-|]; cbn [fst snd]; [|]
  end.
Ltac assigned Hc := exfalso; apply Hc; refine (bool_decide_eq_true_1 _ _); vm_compute; reflexivity.
Lemma assigned_columns {D} `{Gorm D} c d d' column : row_change c d = Some d' →
  column ∉ (statement c).2 → cell d' column = cell d column.
Proof.
  intros E Hc. destruct c as [| |device| | | | | |u| |]; cbn [row_change statement snd] in *; try discriminate E.
  1: { case_bool_decide as Hk; [|done]. injection E as ->. destruct d, d'. unfold Device.key in Hk. cbn in Hk.
       injection Hk as -> ->. unfold cell. cbn [List.find fst snd]. unfold device_columns in Hc. per_column column.
       all: try done. all: assigned Hc. }
  6: { unfold update_columns in E. destruct u as [pk rx tx [[endpoint handshake]|]]; cbn in *;
       destruct (Z.eqb_spec rx 0), (Z.eqb_spec tx 0); cbn in *; try discriminate; repeat case_match; simplify_eq; cbn in *.
       all: unfold cell; cbn [List.find fst snd]; per_column column. all: try done. all: assigned Hc. }
  all: injection E as <-; destruct d; unfold cell; cbn [List.find fst snd]; per_column column; try done.
  all: assigned Hc.
Qed.

(** The triggers that versions of this program left on the table. *)
Definition own_triggers : list (string * string) :=
  [("devices", "devices_update_events"); ("devices", "devices_rename_events")].
Lemma only_own p p' connection : (∀ k, is_Some (triggers p !! k) → k ∈ own_triggers) →
  NewPgWatcher connection "devices" "users" p = (Ok tt, p') →
  triggers p' = {[("devices", "devices_update_events") := update_trigger]}.
Proof.
  intros Hown (_ & _ & ->)%set_up. apply map_eq. intros k.
  destruct (decide (k = ("devices", "devices_update_events"))) as [->|Hne]; [by rewrite lookup_insert_eq, lookup_singleton_eq|].
  rewrite lookup_insert_ne, lookup_singleton_ne by done.
  destruct (decide (k = ("devices", "devices_rename_events"))) as [->|Hne']; [by rewrite lookup_delete_eq|].
  rewrite !lookup_delete_ne by done. destruct (triggers p !! k) eqn:Ek; [|done].
  assert (k ∈ own_triggers) as Hk by (apply Hown; by eexists). unfold own_triggers in Hk. set_solver.
Qed.
Lemma single_trigger table action columns :
  map_to_list (filter (fires table action columns) ({[("devices", "devices_update_events") := update_trigger]} : gmap _ _)) =
    if decide (fires table action columns (("devices", "devices_update_events"), update_trigger))
    then [(("devices", "devices_update_events"), update_trigger)] else [].
Proof.
  rewrite map_filter_singleton. case_decide; [by rewrite map_to_list_singleton|by rewrite map_to_list_empty].
Qed.
Lemma metadata_columns u : ¬ fires "devices" UPDATE (statement (MetadataRecorded u)).2 (("devices", "devices_update_events"), update_trigger).
Proof.
  intros (_ & _ & Hf). revert Hf. cbn [statement snd of_columns update_trigger].
  destruct (_ =? 0), (_ =? 0), (mu_Connection u); intros Hf; revert Hf; refine (bool_decide_eq_false_1 _ _); vm_compute; reflexivity.
Qed.
Lemma events_exact p p' connection row c : (∀ k, is_Some (triggers p !! k) → k ∈ own_triggers) →
  NewPgWatcher connection "devices" "users" p = (Ok tt, p') →
  events p' row (statement c).1.1 (statement c).1.2 (statement c).2 =
    if is_metadata c then [] else [mkEvent (statement c).1.1 (statement c).1.2 "" true].
Proof.
  intros Hown E. unfold events. rewrite (only_own _ _ _ Hown E), single_trigger. apply set_up in E as (Hd & Hu & _).
  destruct c as [| | | | | | | |u|known|]; cbn [is_metadata].
  9: { rewrite decide_False by apply metadata_columns. cbn [statement fst snd]. by rewrite Hd. }
  9: destruct known.
  all: cbn [statement fst snd]; rewrite ?Hd, ?Hu; reflexivity.
Qed.
Lemma announced p p' connection row c : NewPgWatcher connection "devices" "users" p = (Ok tt, p') → is_metadata c = false →
  mkEvent (statement c).1.1 (statement c).1.2 "" true ∈ events p' row (statement c).1.1 (statement c).1.2 (statement c).2.
Proof.
  intros (Hd & Hu & Ht)%set_up Hc. unfold events. apply elem_of_app.
  assert (fires "devices" UPDATE (statement c).2 (("devices", "devices_update_events"), update_trigger) →
    mkEvent "devices" UPDATE "" true ∈ (λ kt, notification row "devices" UPDATE (carries_row kt.2)) <$>
      map_to_list (filter (fires "devices" UPDATE (statement c).2) (triggers p'))) as Hfire.
  { intros Hf. apply list_elem_of_fmap. exists (("devices", "devices_update_events"), update_trigger). split; [reflexivity|].
    apply elem_of_map_to_list, map_lookup_filter_Some. split; [|exact Hf]. rewrite Ht. apply lookup_insert_eq. }
  destruct c as [| | | | | | | |u|known|]; cbn [is_metadata] in Hc; try done.
  9: destruct known.
  all: cbn [statement fst snd] in *; rewrite ?Hd, ?Hu.
  all: try (left; apply list_elem_of_here).
  all: right; apply Hfire; refine (bool_decide_eq_true_1 _ _); vm_compute; reflexivity.
Qed.
(** An update that is not announced leaves alone what a peer is made of. *)
Lemma silent_update {D} `{Gorm D} u d d' : row_change (MetadataRecorded u) d = Some d' →
  Device.key d' = Device.key d ∧ Device.PublicKey d' = Device.PublicKey d ∧ Device.PresharedKey d' = Device.PresharedKey d ∧
  Device.AllowedIPs d' = Device.AllowedIPs d ∧ ∀ now, Device.AccessAllowed d' now = Device.AccessAllowed d now.
Proof.
  intros (columns & Ec & E)%bind_Some. unfold update_columns in Ec. destruct (_ && _); [done|]. injection Ec as <-.
  repeat case_match; simplify_eq; done.
Qed.

(** ** What a replica does about it *)
Section replica.
  Context {S W : Type} `{StorageLaws S} `{WireGuardLaws W} `{!WireGuardWorks W}.
  Context (firewallSync : option (FirewallState → result unit)) (Unmarshal : string → result Device).
  Implicit Types (d : DeviceManager S W).
Definition registered_here now : Listener (DeviceManager S W) := registered Unmarshal now (mkListener [] []).
Lemma deliver_without_row now event d : Truncated event = true →
  deliver (registered_here now) event d = (Ok tt, set_resync true d).
Proof. destruct event as [table action data without]. cbn [Truncated]. intros ->. by destruct action. Qed.
Definition event_of (action : Action) (device : Device) : Event :=
  match action with INSERT => EvAdd device | UPDATE => EvUpdate device | DELETE => EvDelete device end.
Lemma deliver_with_row now event device d : Truncated event = false → Unmarshal (Data event) = Ok device →
  deliver (registered_here now) event d = handle_event now (event_of (EventAction event) device) d.
Proof.
  destruct event as [table action data without]. cbn [Truncated Data EventAction]. intros -> Eu.
  assert (∀ e, (do! handle_event now e; m_ret tt) d = handle_event now e d) as Hret.
  { intros e. unfold m_bind. by destruct (handle_event now e d) as [[[]|] ?]. }
  unfold deliver, registered_here, registered, OnAdd, OnUpdate, OnDelete, on_action, OnReconnect, OnEvent, emit.
  cbn [on_event app m_for EventAction Truncated Data negb]. rewrite Eu.
  destruct action; [exact (Hret (EvAdd device))|exact (Hret (EvUpdate device))|exact (Hret (EvDelete device))].
Qed.
Lemma resync_catches_up now d d' : ok (storage d) →
  (∀ k dev, devices (view (storage d)) !! k = Some dev → can_be_peer dev) →
  sync firewallSync now (set_resync false d) = (Ok tt, d') →
  resync_turn firewallSync now d = (Ok tt, d') ∧ ∀ k, has_peer d' k ↔ may_connect now (devices (view (storage d))) k.
Proof.
  intros Hok Hp E. split; [|by apply (sync_spec firewallSync now (set_resync false d))].
  unfold resync_turn, logged, m_modify, m_try, m_bind. by rewrite E.
Qed.
End replica.


(** ** Concrete cases *)
(** A database an older version was on: its triggers, and one that named fewer columns. *)
Definition older : Plain := mkPlain (<["devices" := ([INSERT; DELETE], true)]> ∅)
  (<[("devices", "devices_rename_events") := mkTrigger ["name"] "pgevents_notify_event()"]>
    (<[("devices", "devices_update_events") := mkTrigger ["name"; "disabled"] "pgevents_notify_event()"]> ∅)) (λ _, false).
Definition opened : Plain := (NewPgWatcher "host=db" "devices" "users" older).2.
