(* ===== verification/DnsTheorems.v ===== *)
(** * The DNS server: what it promises

    Names of devices resolve to their addresses, the zone catches up with the
    devices, no cached answer outlives its records, and one upstream server that
    answers is enough. *)
From stdpp Require Import relations.
From S2P Require Import Prelude GoText GoNet Netip Network TextFacts Encoding Storage Dns Limiter.
From S2P Require Import DnsProxy DnsSpecs Toys.

(** Replaces what an answer is made of by its parts. *)
Ltac answered := match goal with |- context [answer_with ?c ?q ?t ?a ?m] =>
  let R := fresh in let A := fresh in let L := fresh in
  destruct (answer_with_spec c q t a m) as (_ & R & A & L); rewrite ?R, ?A, ?L end.

Section zone.
Context {RR : Type} `{DNSLib RR, LowerTable}.

(** C18 [names_resolve]: with the zone [generateZone] makes of the devices, pushed in
    whatever order the map is walked, a query for a device's name below
    the domain - in any case - is answered with authority and exactly the
    addresses of that device that the type asks for; a longer name is an alias for
    it. A name no device has does not exist, what is answered belongs to a device
    of that name, the name of an owner alone is empty, and the
    domain itself is the server. *)
Theorem names_resolve (domain dom : string) (vpnips : list Addr) (devs : list Device) entries (m : Msg RR) labels qtype :
  entries ≡ₚ map_to_list (zone_of devs vpnips) → asks m labels dom qtype → EqualFold dom domain = true →
  let reply := auth_ServeDNS (mkDNSAuth domain (folded entries)) m in
  let qname := dotted labels +:+ dom in
  Id reply = Id m ∧
  (labels = [] → (∀ d, d ∈ devs → ¬ same_name d "" "") →
    Rcode reply = RcodeSuccess ∧ Authoritative reply = true ∧ Answer reply = vpnips ≫= address_records qname qtype) ∧
  (∀ owner, labels = [owner] → Rcode reply = RcodeSuccess ∧ Answer reply = []) ∧
  ∀ sub device owner cname, labels = sub ++ [device; owner] →
    let target := device +:+ "." +:+ owner +:+ "." +:+ domain in
    let answer d := cname ++ (device_addresses d ≫= address_records (answered_name sub qname target) qtype) in
    alias sub qname target = Ok cname →
    ((∀ d, d ∈ devs → ¬ same_name d device owner) → Rcode reply = RcodeNameError ∧ Answer reply = cname) ∧
    (∀ d, d ∈ devs → same_name d device owner → (∀ d', d' ∈ devs → same_name d' device owner → d' = d) →
       device_addresses d ≠ [] → Rcode reply = RcodeSuccess ∧ Authoritative reply = true ∧ Answer reply = answer d) ∧
    (Rcode reply = RcodeSuccess → ∃ d, d ∈ devs ∧ same_name d device owner ∧ Answer reply = answer d).
Proof.
  intros He Hm Hdom reply qname. pose proof (proj2 (proj2 Hm)) as Hl.
  split; [by apply (auth_id _ m labels dom qtype)|]. split; [intros -> Hno|split; [intros owner ->|]].
  - unfold reply. rewrite (auth_domain _ _ dom qtype) by done. rewrite (served_server vpnips devs) by done.
    by answered.
  - unfold reply. rewrite (auth_owner _ _ owner dom qtype) by done.
    destruct (reply_keeps new_response m) as (_ & _ & -> & _). by rewrite reply_rcode.
  - intros sub device owner cname -> target answer Hc. unfold reply. rewrite (auth_device _ _ sub device owner dom qtype cname) by done.
    assert (ToLower device ≠ ToLower "") as Hne.
    { apply ToLower_ne. rewrite Forall_app, !Forall_cons in Hl. by destruct Hl as (_ & ? & _). }
    split; [|split].
    + intros Hno. rewrite (served_nobody vpnips devs) by done. rewrite bool_decide_eq_true_2 by done.
      by destruct (rcode_set (with_Answer cname new_response) m RcodeNameError) as (-> & -> & _).
    + intros d Hd Hs Hu Ha. rewrite (served_device vpnips devs _ _ _ _ d) by done. rewrite bool_decide_eq_false_2 by done.
      by answered.
    + case_bool_decide as E.
      { by destruct (rcode_set (with_Answer cname new_response) m RcodeNameError) as (-> & _). }
      intros _. destruct (served_lookup vpnips devs entries domain device owner He) as [[? _]|[(_ & _ & ?)|(d & Hd & Hs & Ef)]]; [done..|].
      exists d. split; [done|]. split; [done|]. rewrite Ef.
      by answered.
Qed.
End zone.


(** ** Queries passed on *)
Section proxy.
Context {RR C : Type} `{DNSLib RR, LowerTable, Exchanges RR, LRU (cachedResponse RR) C}.
Implicit Types (m r : Msg RR) (s : DNSProxy C).

(** [one_upstream_is_enough]: a query the cache has no answer for goes to the
    upstream servers one after the other, those that failed in the last thirty
    seconds behind all the others; the first answer is the answer, and every server that
    refused is remembered. So it fails only when every
    server was asked and refused, and one that answers is enough. *)
Theorem one_upstream_is_enough m s res s' : Lookup m s = (res, s') → DQuestion m ≠ [] →
  let from_cache := ∃ key c e, makekey m = Ok key ∧ p_cache s = Some c ∧ kept c !! key = Some e ∧ clock s < expiresAt e ∧
    res = Ok (response e) ∧ clock s' = clock s ∧ failedAt s' = failedAt s in
  let from_upstream := ∃ r u t, res = Ok r ∧ u ∈ upstream s ∧ clock s <= t ∧ exchange m u t = (Ok r, clock s') ∧
    failedAt s' !! u = None ∧
    (cooling s u = true → ∀ v, v ∈ upstream s → cooling s v = false →
       refuses m v (clock s) ∧ failed_between s' (clock s) (clock s') v) in
  let refused_by_all := (∃ e, res = Err e) ∧
    ∀ v, v ∈ upstream s → refuses m v (clock s) ∧ failed_between s' (clock s) (clock s') v in
  (from_cache ∨ from_upstream ∨ refused_by_all) ∧
  ((∃ u, u ∈ upstream s ∧ ∀ t, is_ok (exchange m u t).1 = true) → is_ok res = true).
Proof.
  intros E Hq fc fu fr. assert (fc ∨ fu ∨ fr) as Hcases.
  { apply Lookup_spec in E as (key & Hk & [(c & e & ? & ? & ? & -> & ? & ? & ? & _)|Hup]); [| |done].
    { left. exists key, c, e. by split_and!. }
    right. destruct Hup as (us & s1 & s2 & Ho & Hu & Hf & Hcl & _ & Ht & Hres).
    apply ordered_spec in Ho as (_ & Hperm & Hbehind). apply try_upstreams_spec in Ht as [(_ & _ & _) Ht].
    rewrite Hu in Hperm, Hbehind. rewrite Hcl in Ht. unfold cooling in Hbehind. rewrite Hf, Hcl in Hbehind.
    destruct res as [r|e].
    - left. apply cacheResponse_spec in Hres as (_ & _ & Hfa & Hclk & _).
      destruct Ht as (failed & u & rest & t & -> & ? & ? & ? & Hfailed & _). exists r, u, t. rewrite Hclk, Hfa.
      split; [done|]. split; [rewrite <- Hperm; set_solver|]. repeat (split; [done|]).
      intros Hcool v Hv Hcv. destruct (Hfailed v) as [? Hb]; [by apply (Hbehind failed u rest)|]. split; [done|].
      destruct Hb as (x & ? & ?); [intros ->; unfold cooling in Hcv, Hcool; congruence|]. exists x. by rewrite Hfa.
    - right. subst s'. destruct Ht as [Ht _]. split; [by eexists|]. intros v Hv. apply Ht. by rewrite Hperm. }
  split; [done|]. intros (u & Hu & Hok). destruct Hcases as [(? & ? & ? & ? & ? & ? & ? & -> & _)|[(? & ? & ? & -> & _)|[_ Hall]]]; [done..|].
  destruct (Hall u Hu) as [(t & e & t' & _ & Ex) _]. specialize (Hok t). by rewrite Ex in Hok.
Qed.

(** ** A server that runs *)
(** The query an upstream server sees: no client subnet, and 1232 bytes. *)
Definition forwarded m : Prop := wf_query m ∧ ∃ opt, IsEdns0 m = Some opt ∧ opt_UDPSize opt = 1232 ∧
  Forall (λ o, o.1 ≠ EDNS0SUBNET) (opt_Options opt).
Inductive proxy_step : DNSProxy C → DNSProxy C → Prop :=
  | step_serve transport request reply s s' : wf_query request →
      ServeDNS transport request s = (Ok reply, s') → proxy_step s s'
  | step_wait t s : clock s <= t → proxy_step s (set_clock t s).
Definition proxy_running (opts : DNSServerOpts) s : Prop :=
  ∃ now server, New opts now = Ok server ∧ rtc proxy_step (proxy server) s.

(** What the cache holds came from an upstream server, for a query with that key. *)
Definition entry_good (us : list string) (now : Time) (key : string) (e : cachedResponse RR) : Prop :=
  ∃ m u t0 t, makekey m = Ok key ∧ forwarded m ∧ u ∈ us ∧ exchange m u t0 = (Ok (response e), t) ∧
    expiresAt e = t + minTTL (response e) ∧ t <= now.
Definition cache_good (us : list string) s : Prop :=
  upstream s = us ∧ ∀ c key e, p_cache s = Some c → kept c !! key = Some e → entry_good us (clock s) key e.

Lemma entry_later us now now' key e : now <= now' → entry_good us now key e → entry_good us now' key e.
Proof. intros ? (m & u & t0 & t & ? & ? & ? & ? & ? & ?). exists m, u, t0, t. split_and!; try done. lia. Qed.

(** One lookup: the cache stays good, and what is answered was answered by an
    upstream server, just now or within its TTL. *)
Definition in_time (us : list string) m s r s' : Prop := ∃ m0 u t0 t,
  u ∈ us ∧ forwarded m0 ∧ same_query m0 m ∧ exchange m0 u t0 = (Ok r, t) ∧ t <= clock s' ∧
  ((m0 = m ∧ clock s <= t0 ∧ t = clock s') ∨ ∀ rr, rr ∈ records r → counts rr → clock s' < t + Ttl rr * 10 ^ 9).
Lemma Lookup_good us m s res s' : Lookup m s = (res, s') → DQuestion m ≠ [] → forwarded m → cache_good us s →
  cache_good us s' ∧ ∀ r, res = Ok r → in_time us m s r s'.
Proof.
  intros E Hq Hm [Hus Hgood]. apply Lookup_spec in E as (key & Hk & [Hhit|Hup]); [| |done].
  - destruct Hhit as (c & e & Hc & He & Ht & -> & Hu & _ & Hcl & Hk'). split.
    { split; [congruence|]. intros c' k' e' Hc' He'. rewrite Hcl.
      apply (Hgood c); [done|]. by apply (lookup_weaken _ _ _ _ He'), Hk'. }
    intros r [= <-]. destruct (Hgood c key e Hc He) as (m0 & u & t0 & t & Hk0 & Hf0 & ? & ? & Hexp & ?).
    exists m0, u, t0, t. split; [done|]. split; [done|].
    split; [by apply (makekey_inj _ _ key); [apply Hf0|apply Hm|..]|]. split; [done|]. split; [lia|]. right.
    intros rr Hrr Hcnt. destruct (minTTL_spec (response e)) as (_ & Hle & _). specialize (Hle rr Hrr Hcnt). lia.
  - destruct Hup as (os & s1 & s2 & Ho & Hu & _ & Hcl & Hsub & Ht & Hres).
    apply ordered_spec in Ho as (_ & Hperm & _). apply try_upstreams_spec in Ht as [(Hc2 & Hu2 & Hcl2) Ht].
    assert (cache_good us s2) as [Hus2 Hgood2].
    { split; [congruence|]. intros c' k' e' Hc' He'. rewrite Hc2 in Hc'. destruct (Hsub c' Hc') as (c & Hc & Hle).
      apply (entry_later _ (clock s)); [lia|]. apply (Hgood c); [done|]. by apply (lookup_weaken _ _ _ _ He'). }
    destruct res as [r|e]; [|by subst s'; split].
    destruct Ht as (failed & u & rest & t & -> & ? & Hex & _). rewrite Hcl in *.
    assert (u ∈ us) as Hin by (rewrite <- Hus, <- Hu, <- Hperm; set_solver).
    apply cacheResponse_spec in Hres as (_ & Hu3 & _ & Hcl3 & Hk3). split.
    + split; [congruence|]. intros c' k' e' Hc' He'. rewrite Hcl3. destruct (Hk3 c' Hc') as (c & [[Hc Hle]|Hc]); [|by apply (Hgood2 c')].
      pose proof (lookup_weaken _ _ _ _ He' Hle) as Hl. destruct (decide (k' = key)) as [->|Hne].
      * rewrite lookup_insert_eq in Hl. injection Hl as <-. exists m, u, t, (clock s2). by split_and!.
      * rewrite lookup_insert_ne in Hl by done. by apply (Hgood2 c).
    + intros r' [= <-]. exists m, u, t, (clock s2). rewrite Hcl3. split_and!; try done; by left.
Qed.

(** What is asked of the upstream servers. *)
Definition outQuery request : Msg RR := ensureEDNS0BufSize (purgeECS request).
Lemma outQuery_spec request : wf_query request → forwarded (outQuery request) ∧ DQuestion (outQuery request) = DQuestion request.
Proof.
  intros Hwf. assert (∀ m, DQuestion m = DQuestion request → wf_query m) as Hw by (intros m E; unfold wf_query; by rewrite E).
  unfold outQuery, purgeECS, ensureEDNS0BufSize. destruct (IsEdns0 request) as [opt|] eqn:Eo.
  - set (o1 := mkOPT _ (opt_Do opt) (opt_UDPSize opt)). destruct (opt_written opt o1 request Eo) as (E1 & Q1 & _).
    rewrite E1. set (o2 := mkOPT (opt_Options o1) (opt_Do o1) 1232). destruct (opt_written o1 o2 _ E1) as (E2 & Q2 & _).
    split; [|congruence]. split; [apply Hw; congruence|]. exists o2. split; [done|]. split; [done|].
    rewrite Forall_forall. by intros o [Ho _]%list_elem_of_filter.
  - rewrite Eo. destruct (opt_added 1232 false request Eo) as (o & E1 & E2 & _ & E3 & Q).
    split; [|done]. split; [by apply Hw|]. exists o. split; [done|]. split; [done|]. by rewrite E2.
Qed.
Lemma purgeECS_Id request : Id (purgeECS request) = Id request.
Proof. unfold purgeECS. destruct (IsEdns0 request) eqn:E; [|done]. by eapply opt_written. Qed.

Lemma ServeDNS_good us transport request s reply s' :
  ServeDNS transport request s = (Ok reply, s') → wf_query request → cache_good us s → cache_good us s' ∧
  (Opcode request = OpcodeQuery → reply = HandleFailed (purgeECS request) ∨ ∃ r, in_time us (outQuery request) s r s' ∧
     reply = truncateIfRequired (with_Rcode (Rcode r) (SetReply r (purgeECS request))) (purgeECS request) transport).
Proof.
  unfold ServeDNS. intros E Hwf Hgood. destruct (Opcode request =? OpcodeQuery) eqn:Eo;
    [|injection E as <- <-; split; [done|]; intros Ho; rewrite Ho in Eo; done].
  destruct (outQuery_spec request Hwf) as [Hf HQ]. fold (outQuery request) in E.
  unfold m_bind, m_try in E. destruct (Lookup (outQuery request) s) as [res s1] eqn:El.
  destruct (decide (DQuestion (outQuery request) = [])) as [Hq|Hq].
  { unfold Lookup, makekey in El. rewrite Hq in El. injection El as <- <-. injection E as <- <-. split; [done|]. by left. }
  destruct (Lookup_good us _ _ _ _ El Hq Hf Hgood) as [Hg Hr]. destruct res as [r|e]; injection E as <- <-; (split; [done|]).
  - intros _. right. exists r. split; [by apply Hr|done].
  - by left.
Qed.
Lemma running_good opts s : proxy_running opts s → cache_good (opts_Upstream opts) s.
Proof.
  intros (now & server & Hnew & Hrun). assert (cache_good (opts_Upstream opts) (proxy server)) as H0good.
  { unfold New in Hnew. rinv. subst server. split; [done|]. intros c key e Hc He. simpl in Hc.
    destruct (0 <? CacheSize opts); [|done]. injection Hc as <-. by rewrite lru_new, lookup_empty in He. }
  induction Hrun as [|s1 s2 s3 Hstep _ IH]; [done|]. apply IH. destruct Hstep as [transport request reply s1 s2 Hwf Hs|t s1 Ht].
  - by eapply ServeDNS_good.
  - destruct H0good as [Hu Hc]. split; [done|]. intros c key e Hk He. apply (entry_later _ (clock s1)); [done|]. by apply (Hc c).
Qed.

(** C20 [answers_in_time]: a server that has run for any time always answers a
    query, with its id. The answer says SERVFAIL, or it is - with its code, in
    the size the client can take - what an upstream server of the
    configuration answered to a query for the same name, type, class and flags, sent
    without the client subnet and asking for 1232 bytes: just now, or so short ago
    that no record of it has outlived its TTL. *)
Theorem answers_in_time opts s transport request :
  proxy_running opts s → wf_query request → Opcode request = OpcodeQuery →
  ∃ reply s', ServeDNS transport request s = (Ok reply, s') ∧ Id reply = Id request ∧
  ((reply = HandleFailed (purgeECS request) ∧ Rcode reply = RcodeServerFailure) ∨
   ∃ r, in_time (opts_Upstream opts) (outQuery request) s r s' ∧ Rcode reply = Rcode r ∧
     reply = truncateIfRequired (with_Rcode (Rcode r) (SetReply r (purgeECS request))) (purgeECS request) transport).
Proof.
  intros Hrun Hwf Ho. apply running_good in Hrun.
  assert (∃ reply s', ServeDNS transport request s = (Ok reply, s')) as (reply & s' & E).
  { unfold ServeDNS. rewrite Ho. change (OpcodeQuery =? OpcodeQuery) with true. cbv iota zeta. unfold m_bind, m_try.
    destruct (Lookup (ensureEDNS0BufSize (purgeECS request)) s) as [[r|e] s1]; eexists _, _; reflexivity. }
  exists reply, s'. split; [done|].
  destruct (ServeDNS_good _ _ _ _ _ _ E Hwf Hrun) as [_ Hr]. destruct (Hr Ho) as [->|(r & Hin & ->)].
  - destruct (rcode_set empty_msg (purgeECS request) RcodeServerFailure) as (Hc & _ & _ & Hi).
    split; [unfold HandleFailed; rewrite Hi; apply purgeECS_Id|]. left. by split.
  - unfold truncateIfRequired. destruct (truncate_rcode (response_size (purgeECS request) transport)
      (with_Rcode (Rcode r) (SetReply r (purgeECS request)))) as [Hc Hi].
    split; [rewrite Hi; simpl; rewrite <- (purgeECS_Id request); apply reply_keeps|]. right. exists r. split; [done|]. by rewrite Hc.
Qed.
End proxy.

(** ** Witnesses *)
Definition demo_device : Device :=
  Device.mk "alice" "Alice" "" "simple" "Phone" "pk" "" "10.44.0.2/32, fd48::2/128" 0 false None "" None 0 0 "".
Definition demo_ips : list Addr := (ParseAddresses "10.44.0.1").1.
Definition demo_entries : list (ZoneKey * list Addr) := map_to_list (zone_of [demo_device] demo_ips).
Definition demo_query (labels : list string) (dom : string) (qtype : Z) : Msg toy_rr :=
  mkMsg 7 OpcodeQuery false false false false 0 [mkQuestion (dotted labels +:+ dom) qtype ClassINET] [] [] [].
Definition demo_reply (labels : list string) (qtype : Z) : Msg toy_rr :=
  auth_ServeDNS (mkDNSAuth "vpn.example." (folded demo_entries)) (demo_query labels "VPN.example." qtype).
Lemma names_resolve_witness :
  Rcode (demo_reply ["pHONE"; "Alice"] TypeA) = RcodeSuccess ∧
  Answer (demo_reply ["pHONE"; "Alice"] TypeA) = [toy_record "pHONE.Alice.VPN.example." 300 TypeA "10.44.0.2"] ∧
  Answer (demo_reply ["www"; "phone"; "alice"] TypeAAAA) =
    [toy_record "www.phone.alice.VPN.example." 300 TypeCNAME "phone.alice.vpn.example.";
     toy_record "phone.alice.vpn.example." 300 TypeAAAA "fd48::2"] ∧
  Rcode (demo_reply ["laptop"; "alice"] TypeA) = RcodeNameError.
Proof.
  assert (EqualFold "VPN.example." "vpn.example." = true) as Hd by reflexivity.
  assert (∀ d, d ∈ [demo_device] → d = demo_device) as Hone by (by intros d ->%list_elem_of_singleton).
  assert (∀ labels qtype, forallb plain_label labels = true → asks (demo_query labels "VPN.example." qtype) labels "VPN.example." qtype) as Ha.
  { intros labels qtype Hl. split; [done|]. split; [done|]. rewrite forallb_forall in Hl.
    apply Forall_forall. intros l Hin. by apply Hl, list_elem_of_In. }
  assert (∀ labels qtype, forallb plain_label labels = true → _) as Hr
    by (intros labels qtype Hl; exact (proj2 (proj2 (proj2 (names_resolve "vpn.example." "VPN.example." demo_ips [demo_device]
      demo_entries (demo_query labels "VPN.example." qtype) labels qtype (Permutation_refl _) (Ha labels qtype Hl) Hd))))).
  assert (demo_device ∈ [demo_device]) as Hin by (by left).
  assert (device_addresses demo_device ≠ []) as Hne by (vm_compute; discriminate).
  assert (same_name demo_device "pHONE" "Alice" ∧ same_name demo_device "phone" "alice") as [Hs1 Hs2] by (vm_compute; done).
  destruct (Hr ["pHONE"; "Alice"] TypeA eq_refl [] "pHONE" "Alice" [] eq_refl eq_refl) as (_ & H1 & _).
  destruct (H1 demo_device Hin Hs1 (λ d Hd _, Hone d Hd) Hne) as (R1 & _ & A1).
  destruct (Hr ["www"; "phone"; "alice"] TypeAAAA eq_refl ["www"] "phone" "alice" _ eq_refl eq_refl) as (_ & H2 & _).
  destruct (H2 demo_device Hin Hs2 (λ d Hd _, Hone d Hd) Hne) as (_ & _ & A2).
  destruct (Hr ["laptop"; "alice"] TypeA eq_refl [] "laptop" "alice" [] eq_refl eq_refl) as (H3 & _ & _).
  split; [exact R1|]. split; [unfold demo_reply; rewrite A1; vm_compute; reflexivity|].
  split; [unfold demo_reply; rewrite A2; vm_compute; reflexivity|].
  apply H3. intros d ->%list_elem_of_singleton. vm_compute. intros [? _]. discriminate.
Defined.

Definition demo_auth : DNSAuth := mkDNSAuth "vpn.example." ∅.
Definition demo_updater (n : nat) : updater :=
  mkUpdater [demo_device] n false false Selecting (PushZone (map_to_list (zone_of [] demo_ips)) demo_auth).

Definition demo_opts : DNSServerOpts := mkDNSServerOpts "vpn.example" ["10.44.0.1:53"] ["192.0.2.1"; "192.0.2.53"] 100.
Notation demo_cache := (toy_cache (cachedResponse toy_rr)).
Notation demo_proxy := (mkProxy (C := demo_cache) (Some (lru_New 100)) (opts_Upstream demo_opts) ∅ 0).
Notation demo_asked := (demo_query ["www"; "example"] "com." TypeA).
Lemma one_upstream_is_enough_witness :
  is_ok (Lookup (RR := toy_rr) demo_asked demo_proxy).1 = true ∧
  failedAt (Lookup (RR := toy_rr) demo_asked demo_proxy).2 !! "192.0.2.1" = Some (5 * 10 ^ 9).
Proof.
  destruct (Lookup (RR := toy_rr) demo_asked demo_proxy) as [res s'] eqn:E.
  assert (DQuestion demo_asked ≠ []) as Hq by discriminate.
  destruct (one_upstream_is_enough demo_asked demo_proxy res s' E Hq) as [_ Hok]. split.
  - apply Hok. exists "192.0.2.53". split; [right; by left|]. intros t. vm_compute. reflexivity.
  - apply (f_equal (λ x, failedAt x.2 !! "192.0.2.1")) in E. etransitivity; [symmetry; exact E|]. vm_compute. reflexivity.
Defined.

Notation demo_step s := (ServeDNS (RR := toy_rr) "udp" demo_asked s).
Lemma answers_in_time_witness :
  is_ok (demo_step demo_proxy).1 = true ∧
  clock (demo_step (demo_step demo_proxy).2).2 = clock (demo_step demo_proxy).2 ∧
  ∃ reply s', demo_step (demo_step demo_proxy).2 = (Ok reply, s') ∧ Id reply = 7.
Proof.
  assert (wf_query demo_asked) as Hwf by (repeat constructor; vm_compute; congruence).
  destruct (m_run_ok (ServeDNS (RR := toy_rr) "udp" demo_asked) demo_proxy) as [r1 E1]; [vm_compute; reflexivity|].
  split; [vm_compute; reflexivity|]. split; [vm_compute; reflexivity|].
  assert (proxy_running demo_opts (demo_step demo_proxy).2) as Hrun.
  { eexists 0, _. split; [reflexivity|]. eapply rtc_once, step_serve; [exact Hwf|exact E1]. }
  destruct (answers_in_time demo_opts _ "udp" demo_asked Hrun Hwf eq_refl) as (reply & s' & E & Hid & _).
  exists reply, s'. split; [exact E|exact Hid].
Defined.

(** Names that differ only in case share an entry of the zone pushed: which of two
    devices is answered depends on the order the map is walked in. *)
Definition demo_twin : Device :=
  Device.mk "alice" "Alice" "" "simple" "phone" "pk2" "" "10.44.0.3/32" 0 false None "" None 0 0 "".
Lemma names_collide : ∃ entries entries',
  entries ≡ₚ map_to_list (zone_of [demo_device; demo_twin] demo_ips) ∧
  entries' ≡ₚ map_to_list (zone_of [demo_device; demo_twin] demo_ips) ∧
  getDevice "alice" "phone" (mkDNSAuth "vpn.example." (folded entries)) = device_addresses demo_device ∧
  getDevice "alice" "phone" (mkDNSAuth "vpn.example." (folded entries')) = device_addresses demo_twin.
Proof.
  set (l := map_to_list (zone_of [demo_device; demo_twin] demo_ips)).
  assert (l ≡ₚ rev l) as Hp by apply Permutation_rev.
  first
    [ exists l, (rev l); split; [done|]; split; [done|]; vm_compute; split; reflexivity
    | exists (rev l), l; split; [done|]; split; [done|]; vm_compute; split; reflexivity ].
Qed.

(** A rebuild that could not read the devices leaves the server alone in the zone,
    and nothing asks for another one. *)
Lemma unreadable_empties `{LowerTable} vpnips devs z : ∃ u',
  rtc (λ u u', settles vpnips u u' ∨ breaks vpnips u u') (mkUpdater devs 0 true false Selecting z) u' ∧
  worker u' = Selecting ∧ ¬ noted u' ∧ stored u' = devs ∧ pushed (zone_of [] vpnips) z (served u').
Proof.
  eexists. split; [|split; [|split; [|split]]].
  - eapply rtc_l; [left; constructor|]. eapply rtc_l; [right; constructor|]. apply rtc_once. left. constructor. by eexists.
  - done.
  - unfold noted. simpl. intros [?|?]; [lia|done].
  - done.
  - by eexists.
Qed.
