(* ===== verification/ApiTokenTheorems.v ===== *)
(** * The properties of API tokens

    What creating, using and revoking a token guarantees, on every storage that
    keeps the contract, and what a request with a token acts as. *)
From S2P Require Import Prelude GoText GoNet Encoding Json Storage Atomic.
From S2P Require Import AuthSession ApiTokens GoQuote InMemory InMemoryLaws.
From S2P Require Import Toys.

Section specs.
  Context {S : Type} `{StorageLaws S}.
  Implicit Types (s : S).

(** What a secret opens: a stored token that has not expired, whose identity
    reads back and is let through. *)
Definition opens (claims : option ClaimsMiddleware) (a : Abs) (secret : string) (now : Time)
    (i : Identity) (k : APIToken) : Prop :=
  HasPrefix secret Prefix = true ∧ tokens a !! APIToken.ID k = Some k ∧
  APIToken.Hash k = hash secret ∧ APIToken.Expired k now = false ∧
  ∃ i0, unmarshal_identity (APIToken.Identity k) = Some i0 ∧ apply_claims claims i0 = Ok i.
(** A change of tokens that at most records a use. *)
Definition only_touched (a a' : Abs) (id : string) (now : Time) : Prop :=
  a' = a ∨ a' = on_tokens (alter (APIToken.with_LastUsedAt now) id) a.

Lemma touch_token_run s k now s' r : ok s →
  touch k now s = (r, s') →
  r = Ok tt ∧ ok s' ∧ only_touched (view s) (view s') (APIToken.ID k) now.
Proof.
  intros Hok E. unfold touch in E. destruct (touch_due k now); [|injection E as <- <-; by split_and!; try left].
  unfold m_bind, m_try in E. destruct (TouchToken (APIToken.ID k) now s) as [[u|e] s1] eqn:Et; injection E as <- <-.
  - apply (effect_ok _ _ _ _ _ (law_TouchToken _ _)) in Et as (Hok' & evs & [_ Hv] & _); [|done].
    split_and!; [done..|]. by right.
  - apply (effect_err _ _ _ _ _ (law_TouchToken _ _)) in Et as (Hok' & Hv & _); [|done].
    split_and!; [done..|]. by left.
Qed.

Lemma Authenticate_spec claims secret now s i k s' : ok s →
  Authenticate claims secret now s = (Ok (i, k), s') →
  ok s' ∧ opens claims (view s) secret now i k ∧ only_touched (view s) (view s') (APIToken.ID k) now.
Proof.
  intros Hok E. unfold Authenticate in E. minv. apply negb_false_iff in Hguard.
  destruct x as [token|e]; [|by minv].
  apply (found_ok _ _ _ _ _ _ _ (law_GetTokenByHash _)) in H1 as [-> [Hk Hh]]; [|done].
  minv. destruct (unmarshal_identity (APIToken.Identity token)) as [i0|] eqn:Ei; [|by minv]. minv.
  apply touch_token_run in H2 as (_ & Hok' & Ht); [|done].
  split; [done|]. split; [|done]. split_and!; eauto.
Qed.

(** Which failure is which. *)
Lemma Authenticate_err claims secret now s e s' : ok s →
  Authenticate claims secret now s = (Err e, s') →
  (∃ e0 s1, GetTokenByHash (hash secret) s = (Err e0, s1) ∧ e = e0 ∧ error_is e0 ErrTokenNotFound = false) ∨
  (e = SentinelError ErrInvalid ∧
     (HasPrefix secret Prefix = false ∨ ∀ id k, tokens (view s) !! id = Some k → APIToken.Hash k ≠ hash secret)) ∨
  ∃ k, HasPrefix secret Prefix = true ∧ tokens (view s) !! APIToken.ID k = Some k ∧ APIToken.Hash k = hash secret ∧
    ((e = SentinelError ErrExpired ∧ APIToken.Expired k now = true) ∨
     (unmarshal_identity (APIToken.Identity k) = None ∧ is_forbidden e = false ∧
       error_is e ErrInvalid = false ∧ error_is e ErrExpired = false) ∨
     (∃ i0, unmarshal_identity (APIToken.Identity k) = Some i0 ∧ apply_claims claims i0 = Err e)).
Proof.
  intros Hok E. unfold Authenticate in E. destruct (HasPrefix secret Prefix) eqn:Hp.
  2:{ injection E as <- <-. right. left. auto. }
  cbn [negb] in E. unfold m_bind at 1, m_try in E.
  destruct (GetTokenByHash (hash secret) s) as [[k|e0] s1] eqn:Eg.
  - apply (found_ok _ _ _ _ _ _ _ (law_GetTokenByHash _)) in Eg as [-> [Hk Hh]]; [|done].
    right. right. exists k. split_and!; [done..|].
    destruct (APIToken.Expired k now) eqn:Ex; [injection E as <- <-; by left|].
    destruct (unmarshal_identity (APIToken.Identity k)) as [i0|] eqn:Ei.
    + right. right. exists i0. split; [done|]. unfold m_bind at 1, lift in E.
      destruct (apply_claims claims i0) as [i|e1]; [|by injection E as <- _].
      unfold m_bind in E. destruct (touch k now s) as [r s2] eqn:Et.
      apply touch_token_run in Et as (-> & _ & _); [|done]. done.
    + injection E as <- <-. right. left. done.
  - pose proof Eg as Eg0. apply (found_missing _ _ _ _ _ _ _ (law_GetTokenByHash _)) in Eg0 as [_ Hm]; [|done].
    destruct (error_is e0 ErrTokenNotFound) eqn:Ee; injection E as <- <-.
    + right. left. split; [done|]. right. by apply Hm.
    + left. eauto.
Qed.

(** ** Creating *)
Lemma Create_token_spec owner name expires now idb sb s secret k s' : ok s →
  Create owner name expires now idb sb s = (Ok (secret, k), s') →
  ok s' ∧ secret = Prefix +:+ RawURLEncoding sb ∧
  k = APIToken.mk (hex_EncodeToString idb) (Identity.Subject owner) (TrimSpace name) (hash secret)
        (marshal_identity (snapshot owner)) now expires None ∧
  view s' = on_tokens <[APIToken.ID k := k]> (view s) ∧
  TrimSpace name ≠ "" ∧ RuneCountInString (TrimSpace name) <= 100 ∧
  APIToken.Expired k now = false ∧
  ∀ id k', tokens (view s) !! id = Some k' → APIToken.Hash k' = hash secret → id = APIToken.ID k.
Proof.
  intros Hok E. unfold Create in E. minv.
  apply String.eqb_neq in Hguard. apply Z.ltb_ge in Hguard0.
  apply (effect_ok _ _ _ _ _ (law_SaveToken _)) in H1 as (Hok' & evs & (_ & Hu & Hv) & _); [|done].
  by split_and!.
Qed.

(** ** Revoking *)
Lemma Delete_token_spec user id s k s' : ok s → Delete_token user id s = (Ok k, s') →
  ok s' ∧ tokens (view s) !! id = Some k ∧
  (APIToken.Owner k = Identity.Subject user ∨ IsAdmin (Identity.Claims user) = true) ∧
  view s' = on_tokens (delete id) (view s).
Proof.
  intros Hok E. unfold Delete_token in E. minv.
  apply (found_ok _ _ _ _ _ _ _ (law_GetToken _)) in H1 as [-> Hk]; [|done].
  apply (effect_ok _ _ _ _ _ (law_DeleteToken _)) in H2 as (Hok' & evs & (_ & _ & Hv) & _); [|done].
  split_and!; [done..| |done]. apply andb_false_iff in Hguard as [Hg|Hg]; apply negb_false_iff in Hg; [left|by right].
  by apply String.eqb_eq.
Qed.
End specs.

(** ** The theorems *)
Lemma snapshot_no_admin owner :
  Identity.Provider owner = BasicAuthProvider ∨ Identity.Provider owner = SimpleAuthProvider →
  claims_Contains (Identity.Claims (snapshot owner)) AdminClaim = false.
Proof.
  intros Hp. unfold snapshot, claims_Contains. simpl. apply not_true_is_false.
  intros (c & Hc & Ec)%existsb_exists. apply filter_In in Hc as [_ Hc]. apply negb_true_iff in Hc.
  unfold derived_claim in Hc. rewrite Ec, andb_true_r in Hc. apply orb_false_iff in Hc as [H1 H2].
  destruct Hp as [Hp|Hp]; rewrite Hp in *; done.
Qed.

(** C27 A token that was created is named, not expired, and works: whoever
    presents its secret before it expires is let in as the identity its owner
    had, through the claims rules of the configuration, unless the storage
    fails. A user of the built-in sign-in does not take the admin claim along:
    that has to come from those rules again. *)
Theorem created_token_works {S} `{StorageLaws S} claims owner name expires now now' idb sb (s : S) secret k s1 r s2 :
  ok s → Create owner name expires now idb sb s = (Ok (secret, k), s1) →
  (∀ e, expires = Some e → now' < e) →
  Authenticate claims secret now' s1 = (r, s2) →
  APIToken.Owner k = Identity.Subject owner ∧ APIToken.Name k ≠ "" ∧ RuneCountInString (APIToken.Name k) <= 100 ∧
  (Identity.Provider owner = BasicAuthProvider ∨ Identity.Provider owner = SimpleAuthProvider →
     claims_Contains (Identity.Claims (snapshot owner)) AdminClaim = false) ∧
  (match apply_claims claims (valid_identity (snapshot owner)) with
   | Ok i => r = Ok (i, k)
   | Err e => r = Err e
   end ∨ ∃ e s', GetTokenByHash (hash secret) s1 = (Err e, s') ∧ error_is e ErrTokenNotFound = false).
Proof.
  intros Hok Ec Hexp Ea.
  apply Create_token_spec in Ec as (Hok1 & Hsec & Hk & Hv & Hne & Hlen & Hx & Hu); [|done].
  assert (HasPrefix secret Prefix = true) as Hp by (subst secret; apply HasPrefix_app).
  assert (tokens (view s1) !! APIToken.ID k = Some k) as Hlk by (rewrite Hv; apply lookup_insert_eq).
  assert (APIToken.Hash k = hash secret) as Hh by (subst k; done).
  assert (∀ k', tokens (view s1) !! APIToken.ID k' = Some k' → APIToken.Hash k' = hash secret → k' = k) as Honly.
  { intros k' Hk' Hh'. pose proof (wf_token_hash _ (ok_wf _ Hok1) _ _ _ _ Hk' Hlk) as He.
    rewrite He in Hk' by congruence. congruence. }
  assert (APIToken.Expired k now' = false) as Hx'.
  { subst k. unfold APIToken.Expired. simpl. destruct expires as [e|]; [|done].
    apply negb_false_iff, Z.ltb_lt. auto. }
  assert (unmarshal_identity (APIToken.Identity k) = Some (valid_identity (snapshot owner))) as Hi.
  { subst k. apply unmarshal_marshal. }
  split_and!; [by subst k|by subst k|by subst k|apply snapshot_no_admin|].
  destruct r as [[i k']|e].
  - apply Authenticate_spec in Ea as (_ & (_ & Hk' & Hh' & _ & i0 & Hi0 & Ha) & _); [|done].
    left. rewrite (Honly k') in Hi0 |- * by done. rewrite Hi in Hi0. injection Hi0 as <-. by rewrite Ha.
  - apply Authenticate_err in Ea as [(e0 & s' & Eg & -> & Hn)|[(_ & [Hp'|Hno])|(k' & _ & Hk' & Hh' & Hc)]]; [|congruence| | |done].
    + right. eauto.
    + by destruct (Hno _ _ Hlk).
    + rewrite (Honly k') in Hc by done. left. destruct Hc as [[_ Hc]|[[Hc _]|(i0 & Hi0 & Ha)]]; [congruence..|].
      rewrite Hi in Hi0. injection Hi0 as <-. by rewrite Ha.
Qed.

(** C26 What a request with a bearer token acts as. Outside the API, or without a
    token, the middleware passes the request on as it came. An API request that
    names a token never acts as the session it came with: either it is refused,
    or it goes on as the identity of a stored token that the secret opens and
    that has not expired. *)
Theorem bearer_requests {S} `{StorageLaws S} enabled claims trace r ctx now (s : S) h s' : ok s →
  Middleware enabled claims trace r ctx now s = (Ok h, s') →
  match bearerToken r with
  | Some secret =>
      if HasPrefix (Path r) apiPrefix then
        match h with
        | Next c => enabled = true ∧ ∃ i k, opens claims (view s) secret now i k ∧
            CurrentUser c = Ok i ∧ APIToken_id c = APIToken.ID k ∧ CurrentSessionID c = ""
        | Refused status _ => status = 401 ∨ status = 403 ∨ status = 500
        end
      else h = Next ctx ∧ s' = s
  | None => h = Next ctx ∧ s' = s
  end.
Proof.
  intros Hok E. unfold Middleware in E. destruct (bearerToken r) as [secret|]; [|by minv].
  destruct (HasPrefix (Path r) apiPrefix); cbn [negb] in E; [|by minv].
  destruct enabled; cbn [negb] in E; [|minv; auto]. minv.
  destruct x as [[i k]|e].
  - minv. apply Authenticate_spec in H1 as (_ & Ho & _); [|done]. split; [done|]. by exists i, k.
  - minv. unfold refusal. destruct (is_forbidden e); [auto|]. destruct (_ || _); auto.
Qed.

(** Revoking a token takes exactly that token away, and only its owner or an
    admin can: for anybody else a token that exists is reported like one that
    does not, and stays. After all tokens of somebody are revoked no secret opens
    one of theirs. *)
Theorem revoking_tokens {S} `{StorageLaws S} (s : S) : ok s →
  (∀ user id k s', Delete_token user id s = (Ok k, s') →
     tokens (view s) !! id = Some k ∧ view s' = on_tokens (delete id) (view s) ∧
     (APIToken.Owner k = Identity.Subject user ∨ IsAdmin (Identity.Claims user) = true) ∧
     ∀ claims now secret i s'', APIToken.Hash k = hash secret →
       Authenticate claims secret now s' ≠ (Ok (i, k), s'')) ∧
  (∀ user id k e s', tokens (view s) !! id = Some k → APIToken.Owner k ≠ Identity.Subject user →
     IsAdmin (Identity.Claims user) = false → Delete_token user id s = (Err e, s') →
     s' = s ∧ (e = SentinelError ErrTokenNotFound ∨ GetToken id s = (Err e, s'))) ∧
  (∀ owner n s', DeleteForOwner owner s = (Ok n, s') →
     n = Z.of_nat (size (filter (λ ix, APIToken.Owner ix.2 = owner) (tokens (view s)))) ∧
     ∀ claims now secret i k s'', Authenticate claims secret now s' = (Ok (i, k), s'') → APIToken.Owner k ≠ owner).
Proof.
  intros Hok. split_and!.
  - intros user id k s' E. apply Delete_token_spec in E as (Hok' & Hk & Hp & Hv); [|done].
    split_and!; [done..|]. intros claims now secret i s'' Hh E.
    apply Authenticate_spec in E as (_ & (_ & Hk' & _) & _); [|done].
    rewrite (wf_token_key _ (ok_wf _ Hok) _ _ Hk), Hv in Hk'. simpl in Hk'. by rewrite lookup_delete_eq in Hk'.
  - intros user id k e s' Hk Ho Ha E. unfold Delete_token in E. unfold m_bind at 1 in E.
    destruct (GetToken id s) as [[k'|e'] s1] eqn:Eg.
    + apply (found_ok _ _ _ _ _ _ _ (law_GetToken _)) in Eg as [-> Hk']; [|done].
      assert (k' = k) as -> by (simpl in Hk'; congruence).
      rewrite Ha in E. destruct (String.eqb_spec (APIToken.Owner k) (Identity.Subject user)); [done|].
      injection E as <- <-. auto.
    + injection E as <- <-. split; [|by right].
      by apply (query_err _ _ _ _ _ (law_GetToken _)) in Eg.
  - intros owner n s' E. apply (effect_ok _ _ _ _ _ (law_DeleteTokensForOwner _)) in E as (Hok' & evs & (_ & Hn & Hv) & _); [|done].
    split; [done|]. intros claims now secret i k s'' E.
    apply Authenticate_spec in E as (_ & (_ & Hk & _) & _); [|done].
    rewrite Hv in Hk. simpl in Hk. by apply map_lookup_filter_Some in Hk as [_ Ho].
Qed.

(** ** Witnesses on the in-memory storage *)
Definition admin_alice : Identity :=
  Identity.mk "simple" "alice" "Alice" "" [mkClaim "admin" "true"; mkClaim "policy" "office"].
Definition create0 := Create (S := InMemoryStorage) admin_alice " backup " (Some 500) 100 [1; 2; 3; 4; 5; 6; 7; 8]
  (repeat 7 32).
Definition token0 : string * APIToken := match (create0 NewMemoryStorage).1 with
  | Ok p => p | Err _ => ("", APIToken.mk "" "" "" "" "" 0 None None) end.
Definition store1 : InMemoryStorage := (create0 NewMemoryStorage).2.
Lemma store1_created : create0 NewMemoryStorage = (Ok token0, store1).
Proof. vm_compute. reflexivity. Qed.
Lemma token_store_ok : ok store1.
Proof.
  pose proof store1_created as E. destruct token0 as [secret k] eqn:Et.
  apply Create_token_spec in E as [Hok _]; [done|apply NewMemoryStorage_ok].
Qed.

Lemma created_token_works_witness :
  Authenticate None token0.1 200 store1 = (Ok (snapshot admin_alice, token0.2), (Authenticate None token0.1 200 store1).2).
Proof.
  destruct (Authenticate None token0.1 200 store1) as [r s2] eqn:E. simpl.
  destruct (created_token_works None admin_alice " backup " (Some 500) 100 200 [1; 2; 3; 4; 5; 6; 7; 8] (repeat 7 32)
    NewMemoryStorage token0.1 token0.2 store1 r s2) as (_ & _ & _ & _ & [Hr|(e & s' & Eg & _)]).
  - apply NewMemoryStorage_ok.
  - vm_compute. reflexivity.
  - intros e [= <-]. lia.
  - exact E.
  - rewrite Hr. reflexivity.
  - exfalso. assert (is_ok (GetTokenByHash (hash token0.1) store1).1 = true) as Hg by (vm_compute; reflexivity).
    rewrite Eg in Hg. discriminate.
Defined.

Definition api_request : Request := mkRequest "POST" "/api/proto.Devices/ListDevices" "vpn.example"
  "192.0.2.1:4711" true [("Authorization", "bearer " +:+ token0.1)].
Lemma bearer_requests_witness :
  ∃ h, Middleware true None "t" api_request None 200 store1 = (Ok h, (Middleware true None "t" api_request None 200 store1).2)
    ∧ (∃ c, h = Next c ∧ CurrentUser c = Ok (snapshot admin_alice)).
Proof.
  destruct (m_run_ok (Middleware true None "t" api_request None 200) store1) as [h E]; [vm_compute; reflexivity|].
  exists h. split; [exact E|].
  pose proof (bearer_requests _ _ _ _ _ _ _ _ _ token_store_ok E) as Hb.
  destruct h as [c|st m].
  - exists c. split; [reflexivity|]. assert (Ok (Next c) = (Middleware true None "t" api_request None 200 store1).1) as Hc
      by (rewrite E; reflexivity). vm_compute in Hc. injection Hc as Hc. rewrite Hc. reflexivity.
  - exfalso. assert (Ok (Refused st m) = (Middleware true None "t" api_request None 200 store1).1) as Hc
      by (rewrite E; reflexivity). vm_compute in Hc. discriminate.
Defined.

Definition bob : Identity := Identity.mk "simple" "bob" "Bob" "" [].
Lemma revoking_tokens_witness :
  (∀ e s', Delete_token bob "0102030405060708" store1 = (Err e, s') → s' = store1) ∧
  (∀ k s', Delete_token admin_alice "0102030405060708" store1 = (Ok k, s') → tokens (view s') !! "0102030405060708" = None).
Proof.
  destruct (revoking_tokens store1 token_store_ok) as (Hd & Hn & _). split.
  - intros e s' E. destruct (Hn bob "0102030405060708" token0.2 e s') as [H _];
      [vm_compute; reflexivity|vm_compute; discriminate|reflexivity|exact E|exact H].
  - intros k s' E. destruct (Hd _ _ _ _ E) as (_ & Hv & _). rewrite Hv. apply lookup_delete_eq.
Defined.
