(* ===== verification/WebSessionTheorems.v ===== *)
(** * The properties of browser sessions

    On every storage that keeps the contract: a session works from the sign-in
    until it expires or is ended, and only then; ending the others ends exactly
    the others; the cookie alone never makes anybody signed in. *)
From S2P Require Import Prelude GoText GoNet Encoding Json Storage Atomic.
From S2P Require Import AuthSession WebSessions GoQuote InMemory InMemoryLaws.
From S2P Require Import Toys.

Lemma userAgent_short r : slen (userAgent r) <= 255.
Proof.
  destruct r as [r|]; [|done]. unfold userAgent. destruct (Z.ltb_spec maxUserAgentLength (slen (UserAgent r))) as [Hl|Hl].
  - unfold slen. rewrite <- length_bytes, bytes_of_bytes, length_take. unfold maxUserAgentLength. lia.
  - exact Hl.
Qed.

Section specs.
  Context {S : Type} `{StorageLaws S}.
  Implicit Types (s : S).

(** A cookie's id opens a stored session that has not expired. *)
Definition names (a : Abs) (id : string) (x : Session) : Prop :=
  sessions a !! Session.ID x = Some x ∧ Session.Hash x = hash id.
Definition opens (a : Abs) (id : string) (now : Time) (i : Identity) : Prop :=
  ∃ x, names a id x ∧ Session.Expired x now = false ∧ unmarshal_identity (Session.Identity x) = Some i.
Definition only_touched (a a' : Abs) (id : string) (now : Time) : Prop :=
  a' = a ∨ a' = on_sessions (alter (Session.with_LastSeenAt now) id) a.

Lemma names_unique a id x y : wf_abs a → names a id x → names a id y → x = y.
Proof.
  intros Hwf [Hx Ex] [Hy Ey]. pose proof (wf_session_hash _ Hwf _ _ _ _ Hx Hy ltac:(congruence)) as Hid.
  rewrite Hid in Hx. congruence.
Qed.

Lemma lookup_session_ok id s x s' : ok s → lookup_session id s = (Ok x, s') → s' = s ∧ names (view s) id x.
Proof.
  intros Hok E. unfold lookup_session in E. minv. destruct x0 as [y|e]; [|by minv].
  apply (found_ok _ _ _ _ _ _ _ (law_GetSessionByHash _)) in H1 as [-> Hx]; [|done]. by minv.
Qed.
Lemma lookup_session_err id s e s' : ok s → lookup_session id s = (Err e, s') →
  (e = SentinelError ErrInvalidSession ∧ ∀ k x, sessions (view s) !! k = Some x → Session.Hash x ≠ hash id) ∨
  (GetSessionByHash (hash id) s = (Err e, s') ∧ error_is e ErrSessionNotFound = false).
Proof.
  intros Hok E. unfold lookup_session, m_bind, m_try in E.
  destruct (GetSessionByHash (hash id) s) as [[x|e0] s1] eqn:Eg; [by injection E|].
  pose proof Eg as Eg0. apply (found_missing _ _ _ _ _ _ _ (law_GetSessionByHash _)) in Eg0 as [-> Hm]; [|done].
  destruct (error_is e0 ErrSessionNotFound) eqn:Ee; injection E as <- <-; [left|by right].
  split; [done|]. by apply Hm.
Qed.

Lemma touch_run s x now s' r : ok s → touch x now s = (r, s') →
  r = Ok tt ∧ ok s' ∧ only_touched (view s) (view s') (Session.ID x) now.
Proof.
  intros Hok E. unfold touch in E. destruct (touchInterval <=? _); [|injection E as <- <-; by split_and!; try left].
  unfold m_bind, m_try in E. destruct (TouchSession (Session.ID x) now s) as [[u|e] s1] eqn:Et; injection E as <- <-.
  - apply (effect_ok _ _ _ _ _ (law_TouchSession _ _)) in Et as (Hok' & evs & (_ & _ & Hv) & _); [|done].
    split_and!; [done..|]. by right.
  - apply (effect_err _ _ _ _ _ (law_TouchSession _ _)) in Et as (Hok' & Hv & _); [|done].
    split_and!; [done..|]. by left.
Qed.

Lemma Identity_of_ok id now s i s' : ok s → Identity_of id now s = (Ok i, s') →
  ok s' ∧ id ≠ "" ∧ opens (view s) id now i ∧ ∃ k, only_touched (view s) (view s') k now.
Proof.
  intros Hok E. unfold Identity_of in E. minv. apply String.eqb_neq in Hguard.
  apply lookup_session_ok in H1 as [-> Hn]; [|done]. minv.
  destruct (unmarshal_identity (Session.Identity x)) as [i0|] eqn:Ei; [|by minv]. minv.
  apply touch_run in H1 as (_ & Hok' & Ht); [|done]. split_and!; [done..|by exists x|by exists (Session.ID x)].
Qed.
Lemma Identity_of_err id now s e s' : ok s → Identity_of id now s = (Err e, s') → id ≠ "" →
  (GetSessionByHash (hash id) s = (Err e, s') ∧ error_is e ErrSessionNotFound = false) ∨
  (e = SentinelError ErrInvalidSession ∧ ∀ x, names (view s) id x → Session.Expired x now = true) ∨
  (∃ x, names (view s) id x ∧ unmarshal_identity (Session.Identity x) = None).
Proof.
  intros Hok E Hne. unfold Identity_of in E. destruct (String.eqb_spec id ""); [done|].
  unfold m_bind at 1 in E. destruct (lookup_session id s) as [[x|e0] s1] eqn:El.
  - apply lookup_session_ok in El as [-> Hn]; [|done]. destruct (Session.Expired x now) eqn:Ex.
    + injection E as <- <-. right. left. split; [done|]. intros y Hy.
      by rewrite (names_unique _ _ _ _ (ok_wf _ Hok) Hy Hn).
    + destruct (unmarshal_identity (Session.Identity x)) as [i|] eqn:Ei; [|right; right; eauto].
      unfold m_bind in E. destruct (touch x now s) as [r s2] eqn:Et.
      by apply touch_run in Et as (-> & _ & _).
  - injection E as <- <-. apply lookup_session_err in El as [[-> Hno]|Hf]; [|by left|done].
    right. left. split; [done|]. intros x [Hx Hh]. by destruct (Hno _ _ Hx).
Qed.

Lemma Identity_of_same id now s e s' : ok s → Identity_of id now s = (Err e, s') → s' = s.
Proof.
  intros Hok E. unfold Identity_of in E. destruct (String.eqb_spec id ""); [by injection E as _ <-|].
  unfold m_bind at 1 in E. destruct (lookup_session id s) as [[x|e0] s1] eqn:El.
  - apply lookup_session_ok in El as [-> _]; [|done]. destruct (Session.Expired x now); [by injection E|].
    destruct (unmarshal_identity (Session.Identity x)); [|by injection E].
    unfold m_bind in E. destruct (touch x now s) as [r s2] eqn:Et. by apply touch_run in Et as (-> & _ & _).
  - injection E as _ <-. unfold lookup_session, m_bind, m_try in El.
    destruct (GetSessionByHash (hash id) s) as [rg sg] eqn:Eg.
    destruct (law_GetSessionByHash (hash id) _ _ _ Hok Eg) as [-> _]. by destruct rg; injection El.
Qed.
Lemma Create_spec maxAge i r now uuid buf s secret s' : ok s →
  Create maxAge (Some i) r now uuid buf s = (Ok secret, s') →
  let x := Session.mk uuid (Identity.Subject i) (hash secret) (marshal_identity i)
             (userAgent r) (remoteAddr r) now (now + maxAge) now in
  ok s' ∧ secret = newID buf ∧ view s' = on_sessions <[uuid := x]> (view s) ∧ names (view s') secret x.
Proof.
  intros Hok E. simpl in E. minv. rename H1 into E.
  apply (effect_ok _ _ _ _ _ (law_SaveSession _)) in E as (Hok' & evs & (_ & Hu & Hv) & _); [|done].
  split_and!; [done..|]. split; [|done]. rewrite Hv. apply lookup_insert_eq.
Qed.

(** ** Ending *)
Lemma End_session_spec id s s' : ok s → End_session id s = (Ok tt, s') → ok s' ∧
  (view s' = view s ∧ (id = "" ∨ ∀ x, ¬ names (view s) id x) ∨
   ∃ x, names (view s) id x ∧ view s' = on_sessions (delete (Session.ID x)) (view s)).
Proof.
  intros Hok E. unfold End_session in E. destruct (String.eqb_spec id ""); [injection E as <-; auto|].
  unfold m_bind, m_try in E. destruct (GetSessionByHash (hash id) s) as [[x|e0] s1] eqn:Eg.
  - apply (found_ok _ _ _ _ _ _ _ (law_GetSessionByHash _)) in Eg as [-> Hx]; [|done].
    apply (effect_ok _ _ _ _ _ (law_DeleteSession _)) in E as (Hok' & evs & (_ & Hv) & _); [|done].
    split; [done|]. right. by exists x.
  - apply (found_missing _ _ _ _ _ _ _ (law_GetSessionByHash _)) in Eg as [-> Hm]; [|done].
    destruct (error_is e0 ErrSessionNotFound); [|done]. injection E as <-. split; [done|]. left.
    split; [done|]. right. intros x [Hx Hh]. by destruct (Hm eq_refl _ _ Hx).
Qed.
Lemma End_session_keeps id s r s' : ok s → End_session id s = (r, s') → ok s'.
Proof.
  intros Hok E. unfold End_session in E. destruct (String.eqb_spec id ""); [by injection E as _ <-|].
  unfold m_bind, m_try in E. destruct (GetSessionByHash (hash id) s) as [rg sg] eqn:Eg.
  destruct (law_GetSessionByHash (hash id) _ _ _ Hok Eg) as [-> _]. destruct rg as [x|e0].
  - by apply (law_DeleteSession (Session.ID x)) in E as [? _].
  - destruct (error_is e0 ErrSessionNotFound); by injection E as _ <-.
Qed.
Lemma End_session_gone id s s' : ok s → End_session id s = (Ok tt, s') → ∀ now i, ¬ opens (view s') id now i ∨ id = "".
Proof.
  intros Hok E now i. pose proof E as E0. apply End_session_spec in E as (Hok' & [[Hv [->|Hno]]|(x & Hx & Hv)]); [auto| | |done].
  - left. intros (y & Hy & _). rewrite Hv in Hy. by apply (Hno y).
  - left. intros (y & [Hy Hh] & _). rewrite Hv in Hy. simpl in Hy.
    apply lookup_delete_Some in Hy as [Hne Hy].
    by rewrite (names_unique _ id y x (ok_wf _ Hok)) in Hne.
Qed.

(** What the loop has ended: a part of the ids that are not kept, all of them
    when it did not fail. *)
Lemma end_others_spec keep l n s m err s' : ok s → NoDup (Session.ID <$> l) →
  (∀ x, x ∈ l → sessions (view s) !! Session.ID x = Some x) →
  end_others keep l n s = (Ok (m, err), s') →
  ok s' ∧ ∃ gone, gone ⊆ filter (λ id, id ≠ keep) (Session.ID <$> l) ∧
    (err = None → filter (λ id, id ≠ keep) (Session.ID <$> l) ⊆ gone) ∧
    view s' = on_sessions (filter (λ kx, kx.1 ∉ gone)) (view s) ∧
    m + Z.of_nat (size (sessions (view s'))) = n + Z.of_nat (size (sessions (view s))).
Proof.
  revert n s. induction l as [|x l IH]; intros n s Hok Hn Hl E.
  { injection E as <- <- <-. split; [done|]. exists []. split_and!; [done|done| |done].
    destruct (view s) as [a b c d e]. unfold on_sessions. simpl. f_equal. symmetry. apply map_filter_id.
    intros i y _. simpl. apply not_elem_of_nil. }
  cbn [fmap list_fmap] in Hn. apply NoDup_cons in Hn as [Hx Hn]. cbn [end_others] in E.
  destruct (String.eqb_spec (Session.ID x) keep) as [Hk|Hk].
  { apply IH in E as (Hok' & gone & Hsub & Hall & Hv & Hm); [|done..|by intros; apply Hl; right].
    split; [done|]. exists gone. cbn [fmap list_fmap]. rewrite filter_cons_False by auto. done. }
  unfold m_bind at 1, m_try in E. destruct (DeleteSession (Session.ID x) s) as [[u|e] s1] eqn:Ed.
  - apply (effect_ok _ _ _ _ _ (law_DeleteSession _)) in Ed as (Hok1 & evs & (_ & Hv1) & _); [|done].
    assert (sessions (view s1) = delete (Session.ID x) (sessions (view s))) as Hs1 by (by rewrite Hv1).
    apply IH in E as (Hok' & gone & Hsub & Hall & Hv & Hm); [|done..|].
    2:{ intros y Hy. rewrite Hs1. rewrite lookup_delete_ne; [apply Hl; by right|].
        intros He. apply Hx. rewrite He. by apply list_elem_of_fmap_2. }
    split; [done|]. exists (Session.ID x :: gone). cbn [fmap list_fmap]. rewrite filter_cons_True by done.
    split_and!.
    + set_solver.
    + intros He. specialize (Hall He). set_solver.
    + rewrite Hv, Hv1. destruct (view s) as [a b c d e]. unfold on_sessions. simpl. f_equal.
      apply map_eq. intros i. apply option_eq. intros y.
      rewrite !map_lookup_filter_Some, lookup_delete_Some. simpl. set_solver.
    + rewrite Hs1, map_size_delete_Some in Hm by (rewrite Hl by (by left); done).
      enough (size (sessions (view s)) ≠ 0%nat) by lia. intros Hz%map_size_empty_iff.
      pose proof (Hl x ltac:(by left)) as Hlx. by rewrite Hz in Hlx.
  - apply (effect_err _ _ _ _ _ (law_DeleteSession _)) in Ed as (Hok1 & Hv1 & _); [|done].
    injection E as <- <- <-. split; [done|]. exists []. rewrite Hv1. split_and!; [set_solver|done| |done].
    destruct (view s) as [a b c d e']. unfold on_sessions. simpl. f_equal. symmetry. apply map_filter_id.
    intros i y _. simpl. apply not_elem_of_nil.
Qed.

(** A listing of the table of sessions: each once, under its id. *)
Lemma ListSessions_spec owner s l s' : ok s → ListSessions owner s = (Ok l, s') →
  s' = s ∧ NoDup (Session.ID <$> l) ∧
  ∀ x, x ∈ l ↔ Session.Owner x = owner ∧ sessions (view s) !! Session.ID x = Some x.
Proof.
  intros Hok E. apply (query_ok _ _ _ _ _ (law_ListSessions owner)) in E as [-> [Hl _]]; [|done].
  pose proof (ok_wf _ Hok) as Hwf. split; [done|]. split.
  - unfold lists_rows in Hl. rewrite Hl.
    assert (NoDup (Session.ID <$> (map_to_list (sessions (view s))).*2)) as Hn.
    { assert (Session.ID <$> (map_to_list (sessions (view s))).*2 = (map_to_list (sessions (view s))).*1) as ->.
      { rewrite <- list_fmap_compose. apply list_fmap_ext. intros i [k x] Hi%list_elem_of_lookup_2.
        apply elem_of_map_to_list in Hi. simpl. by apply (wf_session_key _ Hwf). }
      apply NoDup_fst_map_to_list. }
    revert Hn. generalize ((map_to_list (sessions (view s))).*2) as rows. induction rows as [|x rows IH]; [done|].
    cbn [fmap list_fmap]. intros [Hx Hn]%NoDup_cons. destruct (decide (Session.Owner x = owner)).
    + rewrite filter_cons_True by done. cbn [fmap list_fmap]. constructor; [|by apply IH].
      intros (y & Hy & [_ Hin]%list_elem_of_filter)%list_elem_of_fmap. apply Hx. rewrite Hy. by apply list_elem_of_fmap_2.
    + rewrite filter_cons_False by done. by apply IH.
  - intros x. rewrite (lists_rows_elem _ _ _ _ Hl). f_equiv. split; [|by eauto].
    intros [k Hk]. by rewrite (wf_session_key _ Hwf _ _ Hk).
Qed.
End specs.

(** A session that was started works until it expires: the id of the cookie
    gives the identity back until then, unless the storage fails, and from then
    on never. The storage keeps the hash of the id, not the id, and the first
    255 bytes of what the browser calls itself. *)
Theorem session_lifetime {S} `{StorageLaws S} maxAge i r now now' uuid buf (s : S) id s1 res s2 : ok s →
  Create maxAge (Some i) r now uuid buf s = (Ok id, s1) → id ≠ "" →
  Identity_of id now' s1 = (res, s2) →
  (∃ x, view s1 = on_sessions <[uuid := x]> (view s) ∧ Session.Hash x = hash id ∧
     Session.Owner x = Identity.Subject i ∧ slen (Session.UserAgent x) <= 255) ∧
  (now' < now + maxAge → res = Ok (valid_identity i) ∨
     ∃ e, GetSessionByHash (hash id) s1 = (Err e, s2) ∧ error_is e ErrSessionNotFound = false) ∧
  (now + maxAge <= now' → ∃ e, res = Err e).
Proof.
  intros Hok Ec Hne Ei. apply Create_spec in Ec as (Hok1 & Hid & Hv & Hn); [|done].
  set (x := Session.mk _ _ _ _ _ _ _ _ _) in *.
  assert (unmarshal_identity (Session.Identity x) = Some (valid_identity i)) as Hi by apply unmarshal_marshal.
  assert (∀ y, names (view s1) id y → y = x) as Hone by (intros; by eapply names_unique; [apply ok_wf|..]).
  assert (Session.Expired x now' = negb (now' <? now + maxAge)) as Hx by done.
  split_and!.
  - exists x. split_and!; [done..|]. apply userAgent_short.
  - intros Hlt. destruct res as [j|e].
    + apply Identity_of_ok in Ei as (_ & _ & (y & Hy & _ & Hj) & _); [|done]. left.
      rewrite (Hone y Hy), Hi in Hj. congruence.
    + apply Identity_of_err in Ei as [[Hg Hn']|[(_ & Hexp)|(y & Hy & Hj)]]; [|..|done|done].
      * right. by exists e.
      * specialize (Hexp _ Hn). rewrite Hx in Hexp. apply negb_true_iff, Z.ltb_ge in Hexp. lia.
      * rewrite (Hone y Hy), Hi in Hj. done.
  - intros Hge. destruct res as [j|e]; [|by exists e].
    apply Identity_of_ok in Ei as (_ & _ & (y & Hy & Hexp & _) & _); [|done].
    rewrite (Hone y Hy), Hx in Hexp. apply negb_false_iff, Z.ltb_lt in Hexp. lia.
Qed.

(** Ending a session ends that session and no other: its id opens nothing any
    more, whatever time it is, and every other session stays as it was. Somebody
    who deletes a session by its row only ever ends one of their own. *)
Theorem ending_sessions {S} `{StorageLaws S} (s : S) : ok s →
  (∀ id s', End_session id s = (Ok tt, s') → id ≠ "" →
     (∀ now i, ¬ opens (view s') id now i) ∧
     ∀ id' now i, hash id' ≠ hash id → opens (view s) id' now i → opens (view s') id' now i) ∧
  (∀ owner id s', Delete_session owner id s = (Ok tt, s') →
     ∃ x, sessions (view s) !! id = Some x ∧ Session.Owner x = owner ∧ view s' = on_sessions (delete id) (view s)) ∧
  (∀ owner n s', EndAllForOwner owner s = (Ok n, s') →
     ∀ id now x, names (view s') id x → Session.Expired x now = false → Session.Owner x ≠ owner).
Proof.
  intros Hok. split_and!.
  - intros id s' E Hne. split.
    + intros now i Ho. destruct (End_session_gone _ _ _ Hok E now i); done.
    + intros id' now i Hh (x & [Hx Hhx] & Hlive & Hi). exists x. split_and!; [|done..].
      apply End_session_spec in E as (_ & [[-> _]|(y & [Hy Hhy] & ->)]); [done| |done]. split; [|done].
      simpl. rewrite lookup_delete_ne; [done|]. intros He. rewrite He, Hx in Hy. congruence.
  - intros owner id s' E. unfold Delete_session in E. minv.
    apply ListSessions_spec in H1 as (-> & _ & Hl); [|done].
    destruct (existsb (λ x, String.eqb (Session.ID x) id) x) eqn:Ex; [|by minv].
    apply existsb_exists in Ex as (y & Hy%list_elem_of_In & Eid%String.eqb_eq). apply Hl in Hy as [Ho Hy].
    apply (effect_ok _ _ _ _ _ (law_DeleteSession _)) in E as (_ & evs & (_ & Hv) & _); [|done].
    exists y. rewrite Eid in Hy. done.
  - intros owner n s' E id now x [Hx _] _.
    apply (effect_ok _ _ _ _ _ (law_DeleteSessionsForOwner _)) in E as (_ & evs & (_ & _ & Hv) & _); [|done].
    rewrite Hv in Hx. simpl in Hx. by apply map_lookup_filter_Some in Hx as [_ ?].
Qed.

(** Signing out everywhere else ends every session of the user but the one to
    keep, none of anybody else, and counts them. When the storage fails half way
    the count is of those that are gone. *)
Theorem EndOthers_correct {S} `{StorageLaws S} owner keep (s : S) n err s' : ok s →
  EndOthers owner keep s = (Ok (n, err), s') →
  n + Z.of_nat (size (sessions (view s'))) = Z.of_nat (size (sessions (view s))) ∧
  (∀ k x, sessions (view s') !! k = Some x → sessions (view s) !! k = Some x) ∧
  (∀ k x, sessions (view s) !! k = Some x → Session.Owner x ≠ owner ∨ k = keep → sessions (view s') !! k = Some x) ∧
  (err = None → ∀ k x, sessions (view s') !! k = Some x → Session.Owner x = owner → k = keep).
Proof.
  intros Hok E. unfold EndOthers in E. minv. destruct x as [l|e].
  - apply ListSessions_spec in H1 as (-> & Hn & Hl); [|done].
    apply end_others_spec in E as (Hok' & gone & Hsub & Hall & Hv & Hm); [|done..|by intros y [_ Hy]%Hl].
    assert (∀ k x, sessions (view s') !! k = Some x ↔ sessions (view s) !! k = Some x ∧ k ∉ gone) as Hlk.
    { intros k x. rewrite Hv. simpl. by rewrite map_lookup_filter_Some. }
    split_and!.
    + by rewrite Hm.
    + by intros k x [? _]%Hlk.
    + intros k x Hk Hor. apply Hlk. split; [done|]. intros [Hkk (y & -> & Hy)%list_elem_of_fmap]%Hsub%list_elem_of_filter.
      apply Hl in Hy as [Ho Hy]. rewrite Hk in Hy. injection Hy as ->. by destruct Hor.
    + intros He k x [Hk Hg]%Hlk Ho. destruct (decide (k = keep)) as [|Hne]; [done|]. exfalso. apply Hg, Hall; [done|].
      apply list_elem_of_filter. split; [done|]. apply list_elem_of_fmap.
      pose proof (wf_session_key _ (ok_wf _ Hok) _ _ Hk) as Hkey.
      exists x. split; [done|]. apply Hl. by rewrite Hkey.
  - minv. apply (query_err _ _ _ _ _ (law_ListSessions _)) in H1 as ->; [|done]. naive_solver.
Qed.

Lemma GetSession_names {S} `{StorageLaws S} cookie now (s : S) a s' i : ok s →
  GetSession cookie now s = (Ok a, s') → as_Identity a = Some i →
  as_APIToken a = "" ∧ ∃ c, cookie = Some c ∧ as_ID a = ck_ID c ∧ ck_ID c ≠ "" ∧ opens (view s) (ck_ID c) now i.
Proof.
  intros Hok E Hi. destruct cookie as [c|]; [|done]. simpl in E.
  destruct (String.eqb_spec (ck_ID c) ""); [by minv|]. minv.
  apply Identity_of_ok in H1 as (_ & _ & Ho & _); [|done]. simpl in *. injection Hi as <-.
  split; [done|]. by exists c.
Qed.

(** The cookie alone signs nobody in: a request has an identity only when its
    cookie names a session the server keeps and that has not expired, and then
    it is the identity of that session; it never carries an API token. *)
Theorem GetSession_identity {S} `{StorageLaws S} cookie now (s : S) a s' i : ok s →
  GetSession cookie now s = (Ok a, s') → as_Identity a = Some i →
  as_APIToken a = "" ∧ ∃ c, cookie = Some c ∧ as_ID a = ck_ID c ∧ ck_ID c ≠ "" ∧ opens (view s) (ck_ID c) now i.
Proof. apply GetSession_names. Qed.

(** ** Replacing the cookie *)
Lemma GetSession_ok {S} `{StorageLaws S} cookie now (s : S) r s' : ok s →
  GetSession cookie now s = (r, s') → ok s'.
Proof.
  intros Hok E. destruct cookie as [c|]; [|by injection E as _ <-]. simpl in E.
  destruct (String.eqb_spec (ck_ID c) ""); [by injection E as _ <-|].
  unfold m_bind, m_wrap in E. destruct (Identity_of (ck_ID c) now s) as [[i|e] s1] eqn:Ei; injection E as _ <-.
  - by apply Identity_of_ok in Ei as [? _].
  - by apply Identity_of_same in Ei as ->.
Qed.

(** Ending the session a cookie named before. *)
Lemma end_previous_run {S} `{StorageLaws S} cookie id now (s : S) r s' : ok s →
  end_previous cookie id now s = (r, s') → r = Ok tt ∧ ok s' ∧
  (∀ p s1, GetSession cookie now s = (Ok p, s1) → as_ID p ≠ "" → as_ID p ≠ id →
     is_ok (End_session (as_ID p) s1).1 = true → ∀ x, ¬ names (view s') (as_ID p) x).
Proof.
  intros Hok E. unfold end_previous, m_bind at 1, m_try at 1 in E.
  destruct (GetSession cookie now s) as [[p|e] s1] eqn:Eg;
    pose proof (GetSession_ok _ _ _ _ _ Hok Eg) as Hok1.
  2:{ injection E as <- <-. split_and!; [done..|]. by intros p s2 [=]. }
  destruct (negb (String.eqb (as_ID p) "") && negb (String.eqb (as_ID p) id)) eqn:Eb.
  - unfold m_bind, m_try in E. destruct (End_session (as_ID p) s1) as [re s2] eqn:Ee. injection E as <- <-.
    split; [done|]. split; [by apply End_session_keeps in Ee|].
    intros p' s1' [= <- <-] H1 H2 Hr x Hx. rewrite Ee in Hr. simpl in Hr. destruct re as [[]|]; [|done].
    apply End_session_spec in Ee as (Hok2 & [[Hv [|Hno]]|(y & Hy & Hv)]); [done| | |done].
    + rewrite Hv in Hx. by apply (Hno x).
    + destruct Hx as [Hx Hh]. rewrite Hv in Hx. simpl in Hx. apply lookup_delete_Some in Hx as [Hne Hx].
      by rewrite (names_unique _ (as_ID p) y x (ok_wf _ Hok1)) in Hne.
  - injection E as <- <-. split_and!; [done..|]. intros p' s2 [= <- <-] H1 H2.
    apply andb_false_iff in Eb as [Eb|Eb]; apply negb_false_iff, String.eqb_eq in Eb; done.
Qed.

Lemma SetSession_keeps {S} `{StorageLaws S} maxAge cookie r a now uuid buf saved (s : S) c s' : ok s →
  SetSession maxAge cookie r a now uuid buf saved s = (c, s') → ok s'.
Proof.
  intros Hok E. unfold SetSession, m_bind at 1 in E.
  destruct (end_previous cookie (as_ID a) now s) as [rp s1] eqn:Ep.
  apply end_previous_run in Ep as (-> & Hok1 & _); [|done].
  destruct (bool_decide (as_Identity a ≠ None) && String.eqb (as_ID a) "").
  - unfold m_bind, m_wrap in E. destruct (Create maxAge (as_Identity a) (Some r) now uuid buf s1) as [ri s2] eqn:Ec.
    assert (ok s2) as Hok2.
    { unfold Create in Ec. destruct (as_Identity a); [|by injection Ec as _ <-]. unfold m_bind in Ec.
      destruct (SaveSession _ s1) as [rs s3] eqn:Es. apply law_SaveSession in Es as [Hok3 _]; [|done].
      by destruct rs; injection Ec as _ <-. }
    destruct ri; [|by injection E as _ <-]. destruct saved; by injection E as _ <-.
  - destruct saved; by injection E as _ <-.
Qed.

Lemma SetSession_opens {S} `{StorageLaws S} maxAge cookie r a now uuid buf saved (s : S) c s' i : ok s →
  SetSession maxAge cookie r a now uuid buf saved s = (Ok c, s') →
  as_Identity a = Some i → as_ID a = "" → 0 < maxAge →
  ok s' ∧ ck_ID c = newID buf ∧ ck_Pending c = as_Pending a ∧
  opens (view s') (ck_ID c) now (valid_identity i) ∧
  ∀ p s1, GetSession cookie now s = (Ok p, s1) → as_ID p ≠ "" → hash (as_ID p) ≠ hash (newID buf) →
    is_ok (End_session (as_ID p) s1).1 = true → ∀ now' j, ¬ opens (view s') (as_ID p) now' j.
Proof.
  intros Hok E Hi Hid Hage. unfold SetSession in E. apply m_bind_ok in E as (u & s1 & Ep & E).
  apply end_previous_run in Ep as (_ & Hok1 & Hgone); [|done].
  rewrite Hi, Hid in E. rewrite bool_decide_eq_true_2 in E by done. cbn [andb String.eqb] in E. minv.
  match goal with Hc : Create _ _ _ _ _ _ _ = _ |- _ => rename Hc into Ec end.
  apply Create_spec in Ec as (Hok2 & Hsec & Hv & Hn); [|done]. set (row := Session.mk _ _ _ _ _ _ _ _ _) in *.
  split_and!; [done..| |].
  - exists row. split_and!; [done| |apply unmarshal_marshal]. unfold Session.Expired. cbn.
    apply negb_false_iff, Z.ltb_lt. lia.
  - intros p s2 Eg Hne Hh Hend now' j (y & [Hy Hhy] & _).
    assert (as_ID p ≠ as_ID a) as Hne' by congruence.
    apply (Hgone _ _ Eg Hne Hne' Hend y). split; [|done]. rewrite Hv in Hy. simpl in Hy.
    apply lookup_insert_Some in Hy as [[_ <-]|[_ Hy]]; [|done]. exfalso. apply Hh. rewrite <- Hhy. cbn. by rewrite Hsec.
Qed.

(** Signing in gives the browser a cookie whose id names a new session of that
    identity, and nothing of the identity itself. The session the old cookie
    named ends with it: a copy of the old cookie opens nothing any more, unless
    the storage could not end it. *)
Theorem SetSession_signs_in {S} `{StorageLaws S} maxAge cookie r a now uuid buf saved (s : S) c s' i : ok s →
  SetSession maxAge cookie r a now uuid buf saved s = (Ok c, s') →
  as_Identity a = Some i → as_ID a = "" → 0 < maxAge →
  ok s' ∧ ck_ID c = newID buf ∧ ck_Pending c = as_Pending a ∧
  opens (view s') (ck_ID c) now (valid_identity i) ∧
  ∀ p s1, GetSession cookie now s = (Ok p, s1) → as_ID p ≠ "" → hash (as_ID p) ≠ hash (newID buf) →
    is_ok (End_session (as_ID p) s1).1 = true → ∀ now' j, ¬ opens (view s') (as_ID p) now' j.
Proof. intros. by eapply SetSession_opens. Qed.

(** ** Witnesses on the in-memory storage *)
Definition alice : Identity := Identity.mk "simple" "alice" "Alice" "" [].
Definition browser : Request := mkRequest "POST" "/signin/simpleauth" "vpn.example" "192.0.2.7:5000" true
  [("User-Agent", "Browser/1.0")].
Definition buf1 : list Z := repeat 9 32.
Definition buf2 : list Z := repeat 77 32.
Definition day : Z := 86400 * second.
Definition first_sign_in := SetSession (S := InMemoryStorage) day None browser
  (mkAuthSession None None None "" (Some alice) "" None) 0 "row-1" buf1 (Ok tt).
Definition cookie1 : Cookie := match (first_sign_in NewMemoryStorage).1 with
  | Ok c => c | Err _ => mkCookie None None None "" None end.
Definition store1 : InMemoryStorage := (first_sign_in NewMemoryStorage).2.
Lemma first_signed_in : first_sign_in NewMemoryStorage = (Ok cookie1, store1).
Proof. vm_compute. reflexivity. Qed.
Lemma store1_ok : ok store1.
Proof. exact (SetSession_keeps _ _ _ _ _ _ _ _ _ _ _ NewMemoryStorage_ok first_signed_in). Qed.

Lemma session_lifetime_witness : ∃ id, Create day (Some alice) (Some browser) 0 "row-2" buf2 store1 =
    (Ok id, (Create day (Some alice) (Some browser) 0 "row-2" buf2 store1).2) ∧
  ∀ res s2, Identity_of id 5 (Create day (Some alice) (Some browser) 0 "row-2" buf2 store1).2 = (res, s2) →
    res = Ok (valid_identity alice) ∨
    ∃ e, GetSessionByHash (hash id) (Create day (Some alice) (Some browser) 0 "row-2" buf2 store1).2 = (Err e, s2)
      ∧ error_is e ErrSessionNotFound = false.
Proof.
  destruct (m_run_ok (Create day (Some alice) (Some browser) 0 "row-2" buf2) store1) as [id E]; [vm_compute; reflexivity|].
  exists id. split; [exact E|]. intros res s2 Ei.
  assert (id ≠ "") as Hne.
  { assert (Ok id = (Create day (Some alice) (Some browser) 0 "row-2" buf2 store1).1) as Hc by (rewrite E; reflexivity).
    vm_compute in Hc. injection Hc as ->. discriminate. }
  destruct (session_lifetime _ _ _ _ 5 _ _ _ _ _ _ _ store1_ok E Hne Ei) as (_ & Hl & _).
  apply Hl. unfold day, second. lia.
Defined.

Lemma ending_sessions_witness :
  is_ok (End_session (newID buf1) store1).1 = true ∧
  ∀ now i, ¬ opens (view (End_session (newID buf1) store1).2) (newID buf1) now i.
Proof.
  destruct (ending_sessions store1 store1_ok) as (He & _ & _). split; [vm_compute; reflexivity|].
  destruct (m_run_ok (End_session (newID buf1)) store1) as [[] E]; [vm_compute; reflexivity|].
  apply (He _ _ E). vm_compute. discriminate.
Defined.

Definition second_sign_in := SetSession (S := InMemoryStorage) day None browser
  (mkAuthSession None None None "" (Some alice) "" None) 0 "row-2" buf2 (Ok tt).
Definition store2 : InMemoryStorage := (second_sign_in store1).2.
Lemma store2_ok : ok store2.
Proof.
  destruct (m_run_ok second_sign_in store1) as [c E]; [vm_compute; reflexivity|].
  exact (SetSession_keeps _ _ _ _ _ _ _ _ _ _ _ store1_ok E).
Qed.
Lemma EndOthers_correct_witness : ∃ n err s', EndOthers "alice" "row-2" store2 = (Ok (n, err), s') ∧
  n = 1 ∧ n + Z.of_nat (size (sessions (view s'))) = 2.
Proof.
  destruct (m_run_ok (EndOthers "alice" "row-2") store2) as [[n err] E]; [vm_compute; reflexivity|].
  exists n, err, (EndOthers "alice" "row-2" store2).2. split; [exact E|].
  destruct (EndOthers_correct _ _ _ _ _ _ store2_ok E) as (Hn & _). rewrite Hn. split; [|vm_compute; reflexivity].
  assert (Z.of_nat (size (sessions (view (EndOthers "alice" "row-2" store2).2))) = 1) as H1 by (vm_compute; reflexivity).
  assert (Z.of_nat (size (sessions (view store2))) = 2) as H2 by (vm_compute; reflexivity). lia.
Defined.

Lemma GetSession_identity_witness : ∃ a, GetSession (Some cookie1) 5 store1 = (Ok a, (GetSession (Some cookie1) 5 store1).2)
  ∧ ∀ i, as_Identity a = Some i → opens (view store1) (ck_ID cookie1) 5 i.
Proof.
  destruct (m_run_ok (GetSession (Some cookie1) 5) store1) as [a E]; [vm_compute; reflexivity|].
  exists a. split; [exact E|]. intros i Hi.
  destruct (GetSession_identity _ _ _ _ _ _ store1_ok E Hi) as (_ & c & Hc & _ & _ & Ho). by injection Hc as <-.
Defined.

Definition replaced := SetSession (S := InMemoryStorage) day (Some cookie1) browser
  (mkAuthSession None None None "" (Some alice) "" None) 7 "row-3" buf2 (Ok tt).
Lemma SetSession_signs_in_witness : ∃ c, replaced store1 = (Ok c, (replaced store1).2) ∧
  opens (view (replaced store1).2) (ck_ID c) 7 (valid_identity alice) ∧
  ∀ now' j, ¬ opens (view (replaced store1).2) (newID buf1) now' j.
Proof.
  destruct (m_run_ok replaced store1) as [c E]; [vm_compute; reflexivity|]. exists c. split; [exact E|].
  destruct (SetSession_signs_in _ _ _ _ _ _ _ _ _ _ _ alice store1_ok E) as (_ & _ & _ & Ho & Hg);
    [reflexivity|reflexivity|reflexivity|]. split; [exact Ho|].
  destruct (m_run_ok (GetSession (Some cookie1) 7) store1) as [p Ep]; [vm_compute; reflexivity|].
  assert (as_ID p = newID buf1) as Hp.
  { assert (Ok p = (GetSession (Some cookie1) 7 store1).1) as Hc by (rewrite Ep; reflexivity).
    vm_compute in Hc. injection Hc as ->. vm_compute. reflexivity. }
  specialize (Hg p _ Ep). rewrite Hp in Hg. apply Hg.
  - vm_compute. discriminate.
  - vm_compute. discriminate.
  - vm_compute. reflexivity.
Defined.
