(* ===== verification/SignInSpecs.v ===== *)
(** * The steps of a sign-in: lemmas

    What a sign-in reads without changing anything, what the password step and
    the second step come down to, and when a handler signs somebody in. *)
From S2P Require Import Limiter.
From S2P Require Import Prelude GoText GoQuote GoNet Network Encoding TextFacts Storage.
From S2P Require Import AuthSession WireGuard Devices Routes Manager AuditLog Totp Passkeys Passwords.
From S2P Require Import TwoFactor TwoFactorSpecs ApiTokens WebSessions WebSessionTheorems Api ApiUsers.
From S2P Require Import Throttle SignIn AuthConfig WebServer ApiSpecs.

Section reads.
  Context {S W : Type} `{StorageLaws S}.
  Notation Srv := (Server S W).
  Implicit Types (srv : Srv).

(** A call that leaves the server as it is. *)
Definition reads {A} (m : M Srv A) : Prop := ∀ srv r srv', ok (data srv) → m srv = (r, srv') → srv' = srv.
Lemma reads_ret {A} (a : A) : reads (m_ret a).
Proof. intros srv r srv' _ E. by injection E as _ <-. Qed.
Lemma reads_lift {A} (x : result A) : reads (lift x).
Proof. intros srv r srv' _ E. by injection E as _ <-. Qed.
Lemma reads_fail {A} e : reads (m_fail (A := A) e).
Proof. intros srv r srv' _ E. by injection E as _ <-. Qed.
Lemma reads_bind {A B} (m : M Srv A) (k : A → M Srv B) : reads m → (∀ a, reads (k a)) → reads (m_bind m k).
Proof.
  intros Hm Hk srv r srv' Hok E. unfold m_bind in E. destruct (m srv) as [[a|e] srv1] eqn:Em.
  - apply Hm in Em as ->; [|done]. by eapply Hk.
  - injection E as _ <-. by eapply Hm.
Qed.
Lemma reads_try {A} (m : M Srv A) : reads m → reads (m_try m).
Proof. intros Hm srv r srv' Hok E. unfold m_try in E. destruct (m srv) eqn:Em. injection E as _ <-. by eapply Hm. Qed.
Lemma reads_wrap {A} msg (m : M Srv A) : reads m → reads (m_wrap msg m).
Proof. intros Hm srv r srv' Hok E. unfold m_wrap in E. destruct (m srv) eqn:Em. injection E as _ <-. by eapply Hm. Qed.
Lemma reads_if {A} (b : bool) (m1 m2 : M Srv A) : reads m1 → reads m2 → reads (if b then m1 else m2).
Proof. by destruct b. Qed.

Lemma set_data_same srv : mkServer (set_storage (storage (manager srv)) (manager srv)) (wrong_passwords srv) (audit_log srv) = srv.
Proof. by destruct srv as [[] ? ?]. Qed.
Lemma on_data_run {A} (m : M S A) srv r srv' : on_data m srv = (r, srv') →
  ∃ s', m (data srv) = (r, s') ∧ srv' = mkServer (set_storage s' (manager srv)) (wrong_passwords srv) (audit_log srv).
Proof.
  intros E. unfold on_data, on_manager, on_storage, zoom in E. destruct (m (storage (manager srv))) as [x s'] eqn:Em.
  injection E as <- <-. by exists s'.
Qed.
Lemma on_data_same {A} (m : M S A) srv r srv' : (∀ s x s', ok s → m s = (x, s') → s' = s) → ok (data srv) →
  on_data m srv = (r, srv') → srv' = srv ∧ m (data srv) = (r, data srv).
Proof.
  intros Hm Hok E. apply on_data_run in E as (s' & E & ->). pose proof (Hm _ _ _ Hok E) as ->.
  split; [apply set_data_same|done].
Qed.
Lemma reads_query {A} (m : M S A) P : query view ok m P → reads (on_data m).
Proof.
  intros Hq srv r srv' Hok E. eapply on_data_same in E as [-> _]; [done| |done].
  intros s x s' Hs Em. by apply (Hq s x s' Hs) in Em as [-> _].
Qed.
Lemma reads_accounts {A} (m : M (Accounts S) A) : (∀ u r u', ok (store u) → m u = (r, u') → u' = u) → reads (on_accounts m).
Proof.
  intros Hm srv r srv' Hok E. unfold on_accounts, zoom in E. destruct (m _) as [x u] eqn:Em. injection E as _ <-.
  apply Hm in Em as ->; [|done]. apply set_data_same.
Qed.
Lemma reads_known_user subject u r u' : ok (store u) → known_user (S := S) subject u = (r, u') → u' = u.
Proof.
  intros Hok E. unfold known_user, m_bind, m_try, on_store, zoom in E.
  destruct (GetUser subject (store u)) as [x s] eqn:Eg. apply (law_GetUser _) in Eg as [-> _]; [|done].
  destruct u. by destruct x; injection E as _ <-.
Qed.
Lemma has_same subject s r s' : ok s → Has (S := S) subject s = (r, s') → s' = s.
Proof.
  intros Hok E. unfold Has, m_bind, m_try in E. destruct (ListPasskeys subject s) as [x s1] eqn:El.
  apply (law_ListPasskeys _) in El as [-> _]; [|done]. by injection E as _ <-.
Qed.
End reads.

Create HintDb reads.
#[export] Hint Resolve reads_ret reads_lift reads_fail reads_try reads_wrap : reads.
Ltac reads_step :=
  match goal with
  | |- ∀ _, _ => intros
  | |- reads (m_bind _ _) => apply reads_bind
  | |- reads (if _ then _ else _) => apply reads_if
  | |- reads (match ?x with _ => _ end) => destruct x
  | |- reads (m_try _) => apply reads_try
  | |- reads (m_wrap _ _) => apply reads_wrap
  | |- reads (on_data (GetUser _)) => eapply reads_query, law_GetUser
  | |- reads (on_data (List_ _)) => eapply reads_query, law_List
  | |- reads (on_data (Has _)) => intros srv r srv' Hok E; eapply on_data_same in E as [-> _]; [done|by intros; eapply has_same|done]
  | |- reads _ => solve [eauto with reads]
  end.

Section steps.
  Context {S W C : Type} `{StorageLaws S} `{PasswordHashing} `{UpperTable} `{WebAuthn} `{LRU attempts C} `{UnicodeTables}.
  Variables (maxAge : Z) (other : bool) (factor : option (option Request → string * string)) (users : list string).
  Notation rt := (newRuntime (S := S) (W := W) maxAge other factor).
  Implicit Types (srv : Server S W) (t : Door S W C) (r : SignInRequest).

Lemma reads_UserPassword subject : reads (UserPassword (S := S) (W := W) subject).
Proof. unfold UserPassword. repeat reads_step. Qed.
Lemma reads_checkLogin i : reads (checkLogin (S := S) (W := W) i).
Proof. unfold checkLogin, known_providers. repeat reads_step. Qed.
Lemma reads_TwoFactorRequired subject : reads (TwoFactorRequired rt subject).
Proof.
  unfold TwoFactorRequired, newRuntime. cbn [rt_twoFactor]. destruct factor; [|repeat reads_step].
  apply reads_accounts. intros u x u' Hok E. unfold Enabled, m_bind at 1 in E. cbn iota in E.
  unfold on_store, zoom in E. destruct (Has subject (store u)) as [h s1] eqn:Eh.
  pose proof (has_same _ _ _ _ Hok Eh) as ->. destruct u as [s w]. cbn in *.
  destruct h as [[|]|e]; [by injection E as _ <-| |by injection E as _ <-].
  unfold CodesEnabled, m_bind in E. destruct (known_user subject _) as [k u1] eqn:Ek.
  apply reads_known_user in Ek as ->; [|done]. by destruct k; injection E as _ <-.
Qed.
Lemma reads_TwoFactorCodes subject : reads (TwoFactorCodes rt subject).
Proof.
  unfold TwoFactorCodes, newRuntime. cbn [rt_twoFactor]. destruct factor; [|repeat reads_step].
  apply reads_accounts. intros u x u' Hok E. unfold CodesEnabled, m_bind in E.
  destruct (known_user subject u) as [k u1] eqn:Ek. apply reads_known_user in Ek as ->; [|done]. by destruct k; injection E as _ <-.
Qed.
Lemma reads_HasPasskey subject : reads (HasPasskey rt subject).
Proof. unfold HasPasskey. cbn [rt_passkeys newRuntime]. destruct factor; repeat reads_step. Qed.

(** The password step: what decides is the listed entry and the password that
    counts for it. *)
Definition right_credentials (u p : string) srv : Prop :=
  ∃ entry hash from, entry_of users u = Some entry ∧ UserPassword u srv = (Ok (hash, from), srv) ∧
    password_is hash from entry p = true.
Lemma checkCreds_run u p srv x srv' : ok (data srv) → checkCreds rt users u p srv = (x, srv') →
  srv' = srv ∧ ∃ b, x = Ok b ∧ (b = true ↔ right_credentials u p srv).
Proof.
  intros Hok. unfold right_credentials. induction users as [|user l IH]; cbn [checkCreds entry_of].
  - intros E. injection E as <- <-. split; [done|]. exists false. split; [done|]. split; [done|].
    by intros (? & ? & ? & ? & _).
  - destruct (parsehtpassword user) as [[name entry]|]; [|exact IH].
    destruct (String.eqb name u); cbn [negb]; [|exact IH].
    unfold Password. cbn [rt_passwords newRuntime]. intros E. unfold m_bind in E.
    destruct (UserPassword u srv) as [y srv1] eqn:Ep. pose proof (reads_UserPassword u _ _ _ Hok Ep) as ->.
    assert (∃ hash from, y = Ok (hash, from)) as (hash & from & ->).
    { unfold UserPassword, m_bind, m_try in Ep. destruct (on_data _ srv) as [z srv1]. injection Ep as <- _. destruct z; eauto. }
    injection E as <- <-. split; [done|]. eexists. split; [reflexivity|]. split.
    + intros Hb. exists entry, hash, from. by split_and!.
    + by intros (? & ? & ? & [= <-] & [= <- <-] & Hb).
Qed.

(** Starting the session. *)
Lemma SaveUser_sessions u srv x srv' : ok (data srv) → on_data (SaveUser u) srv = (x, srv') →
  ok (data srv') ∧ sessions (view (data srv')) = sessions (view (data srv)).
Proof.
  intros Hok E. apply on_data_run in E as (s' & E & ->). destruct (law_SaveUser u _ _ _ Hok E) as [Hok' Hr].
  split; [exact Hok'|]. change (data (mkServer _ _ _)) with s'. destruct x as [[]|e].
  - destruct Hr as (evs & (_ & st & Hv & _) & _). by rewrite Hv.
  - destruct Hr as [Hv _]. by rewrite Hv.
Qed.
Lemma recordLogin_run i now srv x srv' : ok (data srv) → recordLogin i now srv = (x, srv') →
  x = Ok tt ∧ ok (data srv') ∧ sessions (view (data srv')) = sessions (view (data srv)).
Proof.
  intros Hok E. unfold recordLogin, m_bind at 1, m_try at 1 in E.
  destruct (on_data (SaveUser _) srv) as [y srv1] eqn:Es. apply SaveUser_sessions in Es as [Hok1 Hs]; [|done].
  destruct (is_ok y); [|by injection E as <- <-].
  unfold on_manager, zoom, Resync, m_modify in E. injection E as <- <-. by split_and!.
Qed.
Lemma opens_sessions a a' id now i : sessions a' = sessions a → opens a id now i → opens a' id now i.
Proof. intros Hs (x & [Hx Hh] & Hrest). exists x. split; [|done]. split; [by rewrite Hs|done]. Qed.
Lemma rt_SetSession_identity r i now d srv c srv' : ok (data srv) → 0 < maxAge →
  rt_SetSession rt r (mkAuthSession None None None "" (Some i) "" None) now d srv = (Ok c, srv') →
  ok (data srv') ∧ checkLogin i srv = (Ok tt, srv) ∧
  opens (view (data srv')) (ck_ID c) now (valid_identity i) ∧ ck_Pending c = None.
Proof.
  intros Hok Hage E. unfold rt_SetSession in E. cbn [as_Identity rt_checkLogin rt_recordLogin newRuntime rt_maxAge] in E.
  apply m_bind_ok in E as ([] & srv1 & Ec & E). pose proof (reads_checkLogin _ _ _ _ Hok Ec) as ->.
  apply m_bind_ok in E as (c' & srv2 & Es & E). apply on_data_run in Es as (s2 & Es & ->).
  eapply SetSession_opens in Es as (Hok2 & _ & Hp & Ho & _); [|done..].
  apply m_bind_ok in E as ([] & srv3 & Er & E). apply recordLogin_run in Er as (_ & Hok3 & Hs); [|done].
  injection E as <- <-. split_and!; [done..| |done]. by eapply opens_sessions.
Qed.
Lemma rt_SetSession_done r provider u now d srv c srv' : ok (data srv) → 0 < maxAge →
  rt_SetSession rt r (signed_in provider u) now d srv = (Ok c, srv') →
  ok (data srv') ∧ checkLogin (identity_of provider u) srv = (Ok tt, srv) ∧
  opens (view (data srv')) (ck_ID c) now (valid_identity (identity_of provider u)) ∧ ck_Pending c = None.
Proof. apply rt_SetSession_identity. Qed.
End steps.
