(* ===== verification/AccountTheorems.v ===== *)
(** * The properties of accounts: passwords and the second factor

    The code of an authenticator app, what is accepted at the sign-in and how
    often, enrolling, and what asks for the password. *)
From S2P Require Import Prelude GoText Netip NetipText Network GoQuote Encoding TextFacts Storage.
From S2P Require Import Totp Passwords TwoFactor TwoFactorSpecs InMemory InMemoryLaws.
From S2P Require Import Limiter Toys.

(** ** Codes of the app *)
Section app.
  Context `{UpperTable}.

Lemma time_step_range at_ : 0 <= time_step at_ < 2 ^ 64.
Proof.
  unfold time_step, uint64, totpStep. pose proof (Z.mod_pos_bound (Unix at_) (2 ^ 64)).
  Z.to_euclidean_division_equations; lia.
Qed.
Lemma uint64_shift step i : 0 <= step + i < 2 ^ 64 → uint64 (step + uint64 i) = step + i.
Proof. intros. unfold uint64. rewrite Z.add_mod_idemp_r by lia. by apply Z.mod_small. Qed.
Lemma neighbours d : d ∈ [-1; 0; 1] ↔ Z.abs d <= 1.
Proof. rewrite !elem_of_cons, elem_of_nil. lia. Qed.

(** A code is accepted exactly when it is, up to blanks around it, the code
    of the app at some time of the same time step, the one before or the one
    after. A secret that was generated here has a code at every time. *)
Theorem CheckTOTP_iff secret given now : 2 * totpStep <= Unix now < 2 ^ 62 →
  (CheckTOTP secret given now = true ↔
   ∃ at_, Z.abs (time_step at_ - time_step now) <= 1 ∧ TOTPCode secret at_ = Ok (TrimSpace given)) ∧
  ∀ buf, Forall is_byte buf → secret = NewTOTPSecret buf → is_ok (TOTPCode secret now) = true.
Proof.
  intros Hnow. unfold totpStep in Hnow. split.
  - unfold CheckTOTP. split.
    + intros Hc. destruct (CheckTOTPStep secret given now) as [m b] eqn:E. simpl in Hc. subst b.
      apply CheckTOTPStep_ok in E as (key & i & Hk & Hi%neighbours & _ & Hc).
      assert (time_step now = Unix now / 30) as Hs by (unfold time_step; rewrite uint64_id by lia; done).
      assert (2 <= time_step now < 2 ^ 62) as Hr
        by (rewrite Hs; Z.to_euclidean_division_equations; lia).
      rewrite uint64_shift in Hc by lia.
      exists ((time_step now + i) * totpStep * 10 ^ 9).
      assert (time_step ((time_step now + i) * totpStep * 10 ^ 9) = time_step now + i) as Ht.
      { unfold time_step at 1. unfold Unix at 1. rewrite Z.div_mul by lia. unfold totpStep.
        rewrite uint64_id; [by rewrite Z.div_mul by lia|].
        rewrite Hs. unfold totpStep in *. Z.to_euclidean_division_equations; lia. }
      unfold TOTPCode. rewrite Hk, Ht. split; [lia|]. by rewrite Hc.
    + intros (at_ & Hd & Hc). unfold TOTPCode in Hc. destruct (secret_key secret) as [key|] eqn:Hk; [|done].
      injection Hc as Hc. pose proof (CheckTOTPStep_code secret key now (time_step at_ - time_step now) Hk) as Hx.
      rewrite uint64_shift in Hx by (pose proof (time_step_range at_); lia).
      replace (time_step now + (time_step at_ - time_step now)) with (time_step at_) in Hx by lia.
      rewrite Hc in Hx. specialize (Hx (proj2 (neighbours _) Hd)).
      unfold CheckTOTPStep in *. by rewrite TrimSpace_idem in Hx.
  - intros buf Hb ->. unfold TOTPCode, secret_key, NewTOTPSecret.
    rewrite base32_trimmed by done.
    rewrite ToUpper_base32, base32_roundtrip by done. done.
Qed.
End app.

(** ** Guessing passwords *)
Definition said_yes (r : result bool) : bool := match r with Ok b => b | Err _ => false end.
(** The checks that go ahead for one account. *)
Fixpoint goes_ahead {S} (subject : string) (l : list guess) (u : Accounts S) : Z :=
  match l with
  | [] => 0
  | Reserve who now :: l =>
      let '(r, u') := attempt who now u in
      (if bool_decide (who = subject) && said_yes r then 1 else 0) + goes_ahead subject l u'
  | WasRight who :: l => goes_ahead subject l (right who u).2
  end.

Section guessing.
  Context {S : Type} (subject : string).
  Implicit Types (u : Accounts S).

(** The counters of the passwords, as the limit of [Limiter.v]. *)
Definition tallies u : gmap string (Z * Time) := (λ r, (count r, last r)) <$> wrong u.
Lemma attempt_reserve who now u : (attempt who now u).1 = Ok (reserve maxWrongPasswords wrongPasswordsFor who now (tallies u)).1
  ∧ tallies (attempt who now u).2 = (reserve maxWrongPasswords wrongPasswordsFor who now (tallies u)).2.
Proof.
  unfold attempt, reserve, tallies. assert (standing wrongPasswordsFor now (((λ r, (count r, last r)) <$> wrong u) !! who)
    = (count (record_of who now (wrong u)), last (record_of who now (wrong u)))) as ->.
  { unfold standing, record_of. rewrite lookup_fmap. destruct (wrong u !! who); [|done]. simpl. by destruct (_ <? _). }
  cbn [fst snd]. destruct (_ <=? _); simpl; by rewrite fmap_insert.
Qed.
Lemma goes_ahead_tried l u : goes_ahead subject l u = tried maxWrongPasswords wrongPasswordsFor subject l (tallies u).
Proof.
  revert u. induction l as [|[who now|who] l IH]; intros u; [done|..]; cbn [goes_ahead tried].
  - destruct (attempt_reserve who now u) as [Hb Ht]. destruct (attempt who now u) as [r u1], (reserve _ _ who now (tallies u)) as [b m1].
    simpl in *. subst r m1. by rewrite IH.
  - rewrite IH. f_equal. unfold tallies. simpl. by rewrite fmap_delete.
Qed.
End guessing.

(** C30 Nobody guesses a password through the actions of an account: of all the
    checks that are asked for in fifteen minutes, however they interleave, at
    most five go ahead as long as none of them was right. What is asked for
    other accounts makes no difference, so nobody can use up the checks of
    somebody else; and a password is only compared by a check that goes ahead. *)
Theorem guessing_limit {S} `{StorageLaws S} `{PasswordHashing} subject (u : Accounts S) a l :
  (∀ r, wrong u !! subject = Some r → 0 <= count r) →
  Forall (λ g, match g with Reserve _ now => a <= now <= a + wrongPasswordsFor | WasRight s => s ≠ subject end) l →
  goes_ahead subject l u <= maxWrongPasswords ∧
  goes_ahead subject l u = goes_ahead subject (filter (λ g, whose g = subject) l) u ∧
  ∀ configured password now r u', ok (store u) → Verify configured subject password now u = (r, u') →
    r = Ok tt ∨ r = Err (SentinelError ErrWrongPassword) → (attempt subject now u).1 = Ok true.
Proof.
  intros Hc Hl. split_and!.
  - rewrite goes_ahead_tried. apply (tried_limit maxWrongPasswords wrongPasswordsFor ltac:(done) subject a); [|done]. intros p Hp.
    unfold tallies in Hp. rewrite lookup_fmap in Hp. destruct (wrong u !! subject) as [r|] eqn:Er; [|done].
    injection Hp as <-. by apply Hc.
  - rewrite !goes_ahead_tried. by apply tried_filter.
  - intros configured password now r u' Hok E Hr. apply Verify_cases in E as [_ E]; [|done].
    destruct (configured subject) as [entry|]; [|destruct E as [-> _]; by destruct Hr as [[=]|[=]]].
    cbv zeta in E. unfold attempt. destruct (_ <=? _); [|done]. destruct E as [-> _]. by destruct Hr as [[=]|[=]].
Qed.

(** ** The second factor *)
Section factor.
  Context {S : Type} `{StorageLaws S} `{PasswordHashing} `{UpperTable}.
  Implicit Types (u : Accounts S).

(** C28 What the sign-in takes as a second factor. A code is accepted only from a
    user with the factor on: a code of the app whose step is later than the last
    accepted one, which is recorded, or a recovery code that is still on the
    list, which is taken off it. Nothing else of that user changes, and no other
    user. A code that is refused changes nothing; and one that is right is only
    refused when the storage fails. *)
Theorem Check_correct subject given now u r u' : ok (store u) → Check subject given now u = (r, u') →
  ok (store u') ∧ wrong u' = wrong u ∧ ∃ b, r = Ok b ∧
  if b then ∃ x state, user_of u subject = Some x ∧ User.TwoFactorEnabled x = true ∧
      view (store u') = on_users <[subject := User.with_TOTP state x]> (view (store u)) ∧
      Secret state = User.TotpSecret x ∧ EnabledAt state = User.TotpEnabledAt x ∧
      ((by_app x given now (LastStep state) ∧ Recovery state = User.TotpRecovery x) ∨
       (by_recovery x given now ∧ LastStep state = User.TotpLastStep x ∧
        splitCodes (Recovery state) = filter (λ h, h ≠ hashRecoveryCode given) (splitCodes (User.TotpRecovery x))))
  else view (store u') = view (store u) ∧
      (read_fails u subject ∨ write_fails u subject ∨
       ∀ x, user_of u subject = Some x → User.TwoFactorEnabled x = true →
         ¬ (∃ step, by_app x given now step) ∧ ¬ by_recovery x given now).
Proof.
  intros Hok E. apply Check_run in E as (Hok' & b & -> & Hr); [|done]. split; [done|].
  destruct b.
  - destruct Hr as (x & Hx & Hen & [(step & Ha & y & Hy & Hw & Hv)|(Ha & rest & Hrest & y & Hy & Hw & Hv)]);
      assert (y = x) as -> by congruence; (split; [done|]); exists true; (split; [done|]); exists x.
    + exists (with_step x step). split_and!; try done. by left.
    + exists (with_codes x rest). split_and!; try done. by right.
  - destruct Hr as ([Hw Hv] & Hr). split; [done|]. exists false. by split_and!.
Qed.


(** C33 Enrolling. A secret that was handed out does not count yet. It is turned
    on only by a code of it, and from then on the user is asked for a second
    factor. The recovery codes that are shown with it are ten, and every one of
    them is accepted, with or without dashes and blanks and in any case, unless
    the storage fails. *)
Theorem enrolment issuer subject account buf now given bufs u : ok (store u) →
  Forall (λ buf, Forall is_byte buf ∧ List.length buf = recoveryCodeBytes) bufs →
  (∀ secret uri u', Start issuer subject account buf u = (Ok (secret, uri), u') →
     secret = NewTOTPSecret buf ∧ ∃ x, user_of u' subject = Some x ∧ User.TwoFactorEnabled x = false ∧
       User.TotpSecret x = secret) ∧
  (∀ codes u', Confirm subject given now bufs u = (Ok codes, u') →
     ok (store u') ∧ List.length codes = List.length bufs ∧
     (∃ x, user_of u subject = Some x ∧ User.TwoFactorEnabled x = false ∧
        CheckTOTP (User.TotpSecret x) given now = true) ∧
     (∃ x, user_of u' subject = Some x ∧ User.TwoFactorEnabled x = true) ∧
     ∀ shown typed now' b u'', shown ∈ codes → normalizeRecoveryCode typed = normalizeRecoveryCode shown →
       Check subject typed now' u' = (Ok b, u'') →
       b = true ∨ read_fails u' subject ∨ write_fails u' subject).
Proof.
  intros Hok Hbufs. split.
  - intros secret uri u' E. apply Start_ok in E as (Hok' & -> & _ & Hf); [|done]. split; [done|].
    destruct (factor_set_user _ _ _ _ Hf) as (x & _ & Hx). eexists. split; [exact Hx|]. split; [|done].
    unfold User.TwoFactorEnabled. simpl. by rewrite andb_false_r.
  - intros codes u' E. apply Confirm_ok in E as (Hok' & x & Hx & Hoff & Hne & Hcode & -> & Hf); [|done].
    destruct (factor_set_user _ _ _ _ Hf) as (y & Hy & Hy'). assert (y = x) as -> by congruence.
    assert (User.TwoFactorEnabled (User.with_TOTP (mkTOTP (User.TotpSecret x) (Some now)
      (Join (hashRecoveryCode <$> (base32_EncodeToString <$> bufs)) ",") 0) x) = true) as Hon.
    { unfold User.TwoFactorEnabled. simpl. by apply String.eqb_neq in Hne as ->. }
    split_and!; [done|by rewrite !length_fmap|by exists x|by eexists|].
    intros shown typed now' b u'' (c & -> & (bf & -> & Hin)%list_elem_of_fmap)%list_elem_of_fmap Hn Ec.
    rewrite Forall_forall in Hbufs. destruct (Hbufs _ Hin) as [Hbyte Hlen].
    rewrite group_normal in Hn by done.
    eapply (stored_code_accepted subject typed now' u' b u'' bufs bf); [done| |done|exact Hy'|done|done|done|done].
    by apply Forall_forall.
Qed.
End factor.

(** ** What asks for the password *)
Section password.
  Context {S : Type} `{StorageLaws S} `{PasswordHashing} `{UpperTable}.
  Implicit Types (u : Accounts S).

(** Turning the second factor off and printing new recovery codes need the
    password of the account, and do nothing without it. New recovery codes keep
    the secret, when it was confirmed and the last accepted step. *)
Theorem factor_needs_password passwords subject password now bufs u : ok (store u) →
  (∀ u', Disable passwords subject password now u = (Ok tt, u') →
     ∃ configured x, passwords = Some configured ∧ right_password configured u subject password ∧
       user_of u subject = Some x ∧
       view (store u') = on_users <[subject := User.with_TOTP zero_TOTPState x]> (view (store u))) ∧
  (∀ codes u', ReplaceRecoveryCodes passwords subject password now bufs u = (Ok codes, u') →
     ∃ configured x, passwords = Some configured ∧ right_password configured u subject password ∧
       user_of u subject = Some x ∧ User.TwoFactorEnabled x = true ∧
       codes = group <$> (base32_EncodeToString <$> bufs) ∧
       view (store u') = on_users <[subject := User.with_TOTP (with_codes x
         (Join (hashRecoveryCode <$> (base32_EncodeToString <$> bufs)) ",")) x]> (view (store u))).
Proof.
  intros Hok. split.
  - intros u' E. unfold Disable, verify_password, clear in E. destruct passwords as [configured|]; [|by minv]. minv.
    destruct x. match goal with Hv : Verify _ _ _ _ _ = _ |- _ => apply Verify_ok in Hv as (Hs & _ & Hr); [|done] end.
    match goal with Hf : on_store _ _ = _ |- _ =>
      apply set_factor_run in Hf as [_ (x & Hx & _ & Hv)]; [|by rewrite Hs] end.
    exists configured, x. rewrite (user_of_store _ u _ Hs) in Hx. rewrite Hs in Hv. by split_and!.
  - intros codes u' E. unfold ReplaceRecoveryCodes in E. destruct passwords as [configured|].
    2:{ rewrite bool_decide_eq_true_2 in E by done. by minv. }
    rewrite bool_decide_eq_false_2 in E by done. apply need_user_ok in E as (x & Hx & E); [|done].
    unfold verify_password in E. minv. destruct x0.
    match goal with Hv : Verify _ _ _ _ _ = _ |- _ => apply Verify_ok in Hv as (Hs & _ & Hr); [|done] end.
    apply need_user_ok in E as (y & Hy & E); [|by rewrite Hs].
    rewrite (user_of_store _ u _ Hs) in Hy. assert (y = x) as -> by congruence.
    cbn [newRecoveryCodes] in E. minv.
    match goal with Hf : on_store _ _ = _ |- _ =>
      apply set_factor_run in Hf as [_ (z & Hz & _ & Hv)]; [|by rewrite Hs] end.
    rewrite (user_of_store _ u _ Hs) in Hz. assert (z = x) as -> by congruence. rewrite Hs in Hv.
    exists configured, x.
    match goal with Hg : negb (User.TwoFactorEnabled x) = false |- _ => apply negb_false_iff in Hg end. by split_and!.
Qed.

(** Changing a password needs the one in effect, stores a hash of the new one
    next to the configured entry it was set against, and changes nothing else.
    From then on the new password is the right one; and when the configuration
    gives the user another entry, that entry counts again. *)
Theorem Change_correct configured subject current next now u u' : ok (store u) →
  Change configured subject current next now u = (Ok tt, u') →
  ∃ entry hash x, configured subject = Some entry ∧ right_password configured u subject current ∧
    GenerateFromPassword next = Ok hash ∧ user_of u subject = Some x ∧
    view (store u') = on_users <[subject := User.with_Password hash entry x]> (view (store u)) ∧
    (∀ now' r u'', Verify configured subject next now' u' = (r, u'') → r = Ok tt ∨ read_fails u' subject) ∧
    (∀ configured' entry' password now' r u'', configured' subject = Some entry' → entry' ≠ entry →
       Verify configured' subject password now' u' = (r, u'') → (r = Ok tt ↔ Matches entry' password = true)).
Proof.
  intros Hok E. unfold Change in E. destruct (configured subject) as [entry|] eqn:Hc; [|by minv]. minv. destruct x.
  match goal with Hv : Verify _ _ _ _ _ = _ |- _ => apply Verify_ok in Hv as (Hs & Hw & Hr); [|done] end.
  unfold on_store in E. minv. rename x1 into hash. subst x2.
  apply (effect_ok _ _ _ _ _ (law_SetUserPassword _ _ _)) in E as (Hok' & evs & (_ & y & Hy & Hv) & _); [|by rewrite Hs].
  rewrite Hs in Hy, Hv. subst u'. set (u' := mkAccounts x (wrong x0)).
  assert (user_of u' subject = Some (User.with_Password hash entry y)) as Hnew.
  { unfold user_of. simpl. rewrite Hv. simpl. apply lookup_insert_eq. }
  assert (∀ configured' entry' password now' r u'', configured' subject = Some entry' →
    Verify configured' subject password now' u' = (r, u'') →
    ∃ h from, (h = hash ∧ from = entry ∨ h = "" ∧ read_fails u' subject) ∧
      (r = Ok tt ↔ password_is h from entry' password = true)) as Hafter.
  { intros configured' entry' password now' r u'' Hc' E'. apply Verify_cases in E' as [_ E']; [|done].
    rewrite Hc' in E'. cbv zeta in E'. unfold record_of in E'. simpl in E'. rewrite Hw, lookup_delete_eq in E'.
    simpl in E'. destruct E' as (h & from & u1 & Es & Hu1 & E'). exists h, from. split.
    - apply stored_cases in Es as [(z & Hz & -> & ->)|[-> Hn]]; [left|right|by rewrite Hu1].
      + rewrite (user_of_store u1 u' subject Hu1), Hnew in Hz. by injection Hz as <-.
      + split; [done|]. rewrite (user_of_store u1 u' subject Hu1), Hnew in Hn. destruct Hn as [[=]|Hn].
        by apply (read_fails_store u1 u').
    - destruct (password_is h from entry' password); by destruct E' as [-> _]. }
  exists entry, hash, y. split_and!; try done.
  - intros now' r u'' (h & from & [[-> ->]|[_ Hf]] & Hi)%(Hafter _ entry); [left|by right|done].
    apply Hi. unfold password_is. rewrite String.eqb_refl. pose proof (hash_nonempty _ _ H4) as ->%String.eqb_neq.
    by apply hash_compares.
  - intros configured' entry' password now' r u'' Hc' Hne (h & from & Hcase & Hi)%(Hafter _ entry'); [|done].
    rewrite Hi. unfold password_is. destruct Hcase as [[-> ->]|[-> _]]; [|done].
    assert (String.eqb entry entry' = false) as -> by by apply String.eqb_neq. by rewrite andb_false_r.
Qed.
End password.

(** ** Instances for the witnesses *)
Definition demo_buf : list Z := byte_of <$> bytes "12345678901234567890".
Definition demo_now : Time := 1111111109 * 10 ^ 9.

Lemma CheckTOTP_iff_witness : (2 * totpStep <= Unix demo_now < 2 ^ 62) ∧
  CheckTOTP (NewTOTPSecret demo_buf) " 081804 " demo_now = true ∧
  ∃ at_, Z.abs (time_step at_ - time_step demo_now) <= 1 ∧
    TOTPCode (NewTOTPSecret demo_buf) at_ = Ok (TrimSpace " 081804 ").
Proof.
  split; [vm_compute; split; [discriminate|reflexivity]|].
  assert (CheckTOTP (NewTOTPSecret demo_buf) " 081804 " demo_now = true) as Hc by (vm_compute; reflexivity).
  split; [exact Hc|].
  apply (proj1 (CheckTOTP_iff (NewTOTPSecret demo_buf) " 081804 " demo_now
    ltac:(vm_compute; split; [discriminate|reflexivity]))). exact Hc.
Defined.

Definition demo_guesses : list guess :=
  (λ i, Reserve "ada" (demo_now + i)) <$> [1; 2; 3; 4; 5; 6; 7].
(** ** Witnesses on the in-memory storage *)
Definition ada : User := User.mk "ada" "simple" "Ada" "" "" 0 "" "" None "" None "" 0 "".
Definition store0 : InMemoryStorage := (SaveUser ada NewMemoryStorage).2.
Definition accounts0 : Accounts InMemoryStorage := mkAccounts store0 ∅.
Lemma accounts0_ok : ok (store accounts0).
Proof.
  destruct (m_run_ok (SaveUser ada) NewMemoryStorage) as [a E]; [vm_compute; reflexivity|].
  by apply (effect_ok _ _ _ _ _ (law_SaveUser _)) in E as [Hok _]; [|apply NewMemoryStorage_ok].
Qed.
Definition demo_bufs : list (list Z) := (λ i, repeat i 13) <$> [1; 2; 3; 4; 5; 6; 7; 8; 9; 10].
Lemma demo_bufs_ok : Forall (λ buf, Forall is_byte buf ∧ List.length buf = recoveryCodeBytes) demo_bufs.
Proof. unfold demo_bufs. repeat (constructor; [split; [repeat constructor; done|reflexivity]|]). constructor. Qed.
Definition started := Start (S := InMemoryStorage) "wg" "ada" "ada" demo_buf.
Definition accounts1 := (started accounts0).2.
Lemma accounts1_ok : ok (store accounts1).
Proof.
  destruct (m_run_ok started accounts0) as [[secret uri] E]; [vm_compute; reflexivity|].
  by apply Start_ok in E as [Hok _]; [|apply accounts0_ok].
Qed.
Definition confirmed := Confirm (S := InMemoryStorage) "ada" "081804" demo_now demo_bufs.
Definition accounts2 := (confirmed accounts1).2.
Lemma accounts2_ok : ok (store accounts2).
Proof.
  destruct (m_run_ok confirmed accounts1) as [codes E]; [vm_compute; reflexivity|].
  by apply Confirm_ok in E as [Hok _]; [|apply accounts1_ok].
Qed.
(** The first recovery code, typed in lower case and without its dashes. *)
Definition typed_code : string := "aeaqcaibaeaqcaibaeaqc".
Definition entries : string → option string := λ who, if String.eqb who "ada" then Some "secret" else None.

Lemma enrolment_witness : ∃ codes, confirmed accounts1 = (Ok codes, accounts2) ∧ List.length codes = 10%nat ∧
  ∃ x, user_of accounts2 "ada" = Some x ∧ User.TwoFactorEnabled x = true.
Proof.
  destruct (m_run_ok confirmed accounts1) as [codes E]; [vm_compute; reflexivity|]. exists codes. split; [exact E|].
  destruct (enrolment "wg" "ada" "ada" demo_buf demo_now "081804" demo_bufs accounts1 accounts1_ok demo_bufs_ok) as [_ Hc].
  destruct (Hc _ _ E) as (_ & Hl & _ & Hx & _). split; [rewrite Hl; reflexivity|exact Hx].
Defined.
Lemma Check_correct_witness : ∃ b, Check "ada" "081804" demo_now accounts2 = (Ok b, (Check "ada" "081804" demo_now accounts2).2)
  ∧ ok (store (Check "ada" "081804" demo_now accounts2).2) ∧ b = true.
Proof.
  destruct (m_run_ok (Check "ada" "081804" demo_now) accounts2) as [b E]; [vm_compute; reflexivity|]. exists b.
  split; [exact E|]. destruct (Check_correct _ _ _ _ _ _ accounts2_ok E) as (Hok & _ & b' & Hb & _).
  split; [exact Hok|]. assert (Ok b = Ok true) as Ht; [|by injection Ht].
  assert (Ok b = (Check "ada" "081804" demo_now accounts2).1) as -> by (rewrite E; reflexivity). vm_compute. reflexivity.
Defined.
Lemma factor_needs_password_witness : ∃ u, Disable (Some entries) "ada" "secret" 5 accounts2 = (Ok tt, u) ∧
  right_password entries accounts2 "ada" "secret".
Proof.
  destruct (m_run_ok (Disable (Some entries) "ada" "secret" 5) accounts2) as [[] E]; [vm_compute; reflexivity|].
  eexists. split; [exact E|].
  destruct (factor_needs_password (Some entries) "ada" "secret" 5 demo_bufs accounts2 accounts2_ok) as [Hd _].
  destruct (Hd _ E) as (c & x & Hc & Hr & _). by injection Hc as <-.
Defined.
Lemma Change_correct_witness : ∃ u, Change entries "ada" "secret" "new" 5 accounts0 = (Ok tt, u) ∧
  ∀ r u2, Verify entries "ada" "new" 6 u = (r, u2) → r = Ok tt ∨ read_fails u "ada".
Proof.
  destruct (m_run_ok (Change entries "ada" "secret" "new" 5) accounts0) as [[] E]; [vm_compute; reflexivity|].
  eexists. split; [exact E|].
  destruct (Change_correct _ _ _ _ _ _ _ accounts0_ok E) as (e & h & x & _ & _ & _ & _ & _ & Hn & _). apply Hn.
Defined.
Lemma guessing_limit_witness :
  goes_ahead "ada" (WasRight "bob" :: demo_guesses) accounts0 = 5 ∧
  goes_ahead "ada" (WasRight "bob" :: demo_guesses) accounts0 <= maxWrongPasswords.
Proof.
  split; [vm_compute; reflexivity|].
  assert (∀ r, wrong accounts0 !! "ada" = Some r → 0 <= count r) as Hc by (intros r; vm_compute; discriminate).
  assert (Forall (λ g, match g with Reserve _ now => demo_now <= now <= demo_now + wrongPasswordsFor
    | WasRight s => s ≠ "ada" end) (WasRight "bob" :: demo_guesses)) as Hl
    by (repeat constructor; vm_compute; discriminate).
  exact (proj1 (guessing_limit (S := InMemoryStorage) "ada" accounts0 demo_now _ Hc Hl)).
Defined.
