(* ===== verification/PasskeyTheorems.v ===== *)
(** * The properties of passkeys

    Whose rows change, what an answer of a browser is worth and how often, and
    which row a sign-in is with. *)
From S2P Require Import Prelude GoText GoNet Encoding Storage Passkeys PasskeySpecs.
From S2P Require Import GoQuote InMemory InMemoryLaws.
From S2P Require Import Toys.

Section theorems.
  Context {S : Type} `{StorageLaws S} `{WebAuthn} (relyingParty : option Request → string * string).
  Implicit Types (s : S) (a : Abs).

(** Every row a credential can be read from is kept under the id of that
    credential. *)
Definition rows_match (a : Abs) : Prop :=
  ∀ id p c, passkeys a !! id = Some p → unmarshal_Credential (Passkey.Data p) = Some c →
    RawURLEncoding (Credential_ID c) = id.

(** What happens to passkeys, and anything else that at most removes some. *)
Inductive passkey_step : S → S → Prop :=
  | begin_registration r subject now random s res s' :
      BeginRegistration relyingParty r subject now random s = (res, s') → passkey_step s s'
  | finish_registration r subject name answer now s res s' :
      FinishRegistration relyingParty r subject name answer now s = (res, s') → passkey_step s s'
  | begin_login r subject now random s res s' :
      BeginLogin relyingParty r subject now random s = (res, s') → passkey_step s s'
  | finish_login r subject answer now s res s' :
      FinishLogin relyingParty r subject answer now s = (res, s') → passkey_step s s'
  | rename subject id name s res s' : Rename_passkey subject id name s = (res, s') → passkey_step s s'
  | delete_one subject id s res s' : Delete_passkey subject id s = (res, s') → passkey_step s s'
  | elsewhere s s' : ok s' → passkeys (view s') ⊆ passkeys (view s) → passkey_step s s'.

Lemma passkey_step_keeps s s' : passkey_step s s' → ok s → rows_match (view s) → ok s' ∧ rows_match (view s').
Proof.
  intros Hstep Hok Hm.
  assert (∀ a, passkeys a = passkeys (view s) → rows_match a) as Hsame by (intros a E id p c; rewrite E; apply Hm).
  destruct Hstep as [r subject now random s res s' E|r subject name answer now s res s' E|r subject now random s res s' E
    |r subject answer now s res s' E|subject id name s res s' E|subject id s res s' E|s s' Hok' Hsub].
  - apply BeginRegistration_run in E as [Hok' Hk]; [|done]. split; [done|]. apply Hsame.
    by destruct Hk as [->|(x & d & _ & ->)].
  - apply FinishRegistration_run in E as [Hok' Ht]; [|done]. split; [done|].
    destruct Ht as [[_ ->]|(user & session & _ & _ & Ht)]; [done|]. destruct res as [p|e]; [|rewrite Ht; by apply Hsame].
    destruct Ht as (rp & parsed & c & data & _ & _ & _ & Hd & -> & _ & ->). intros id q c' Hq Hc'. simpl in Hq.
    apply lookup_insert_Some in Hq as [[<- <-]|[_ Hq]]; [|by eapply Hm]. simpl in *.
    destruct (marshal_keeps_ID _ _ Hd) as (c2 & Hc2 & <-). congruence.
  - apply BeginLogin_run in E as [Hok' Hk]; [|done]. split; [done|]. apply Hsame.
    by destruct Hk as [->|(x & d & _ & ->)].
  - apply FinishLogin_run in E as [Hok' Ht]; [|done]. split; [done|].
    destruct Ht as [[_ ->]|(user & session & _ & _ & Ht)]; [done|]. destruct res as [u|e]; [|rewrite Ht; by apply Hsame].
    destruct Ht as (rp & parsed & c & _ & _ & _ & _ & [->|(p & q & Hp & -> & Hid & _ & _ & _ & Hd)]); [by apply Hsame|].
    simpl in Hp. intros id q' c' Hq Hc'. simpl in Hq.
    apply lookup_insert_Some in Hq as [[<- <-]|[_ Hq]]; [|by eapply Hm].
    destruct Hd as [Hd|Hd]; [rewrite Hd in Hc'; by eapply Hm|].
    destruct (marshal_keeps_ID _ _ Hd) as (c2 & Hc2 & <-). congruence.
  - apply Rename_passkey_run in E as [Hok' [[_ ->]|(p & Hp & _ & -> & _)]]; [done| |done]. split; [done|].
    intros id' q c Hq Hc. simpl in Hq. apply lookup_insert_Some in Hq as [[<- <-]|[_ Hq]]; by eapply Hm.
  - apply Delete_passkey_run in E as [Hok' Hr]; [|done]. split; [done|]. destruct res as [u|e]; [|by rewrite Hr].
    destruct Hr as (p & _ & _ & ->). intros id' q c Hq Hc. simpl in Hq. apply lookup_delete_Some in Hq as [_ Hq]. by eapply Hm.
  - split; [done|]. intros id p c Hp. apply (Hm id). by eapply lookup_weaken.
Qed.

(** Whatever people do with their passkeys, and whatever else happens to the
    storage short of adding some by other means, every readable row stays under
    the id of the credential in it. *)
Theorem passkeys_in_order s s' : ok s → rows_match (view s) → rtc passkey_step s s' →
  ok s' ∧ rows_match (view s').
Proof.
  intros Hok Hm Hs. induction Hs as [s|s1 s2 s3 Hstep Hs IH]; [done|].
  destruct (passkey_step_keeps _ _ Hstep Hok Hm) as [Hok2 Hm2]. by apply IH.
Qed.

(** C31 A sign-in with a passkey. It succeeds only within the time of a challenge
    that was kept for this person, with an answer the library accepts for one of
    their own passkeys, and without a warning that the passkey was copied. It
    uses the challenge up, writes at most the data and the last use of the row
    of that passkey, and changes nothing else. *)
Theorem FinishLogin_correct r subject answer now s s' : ok s → rows_match (view s) →
  FinishLogin relyingParty r subject answer now s = (Ok tt, s') →
  ∃ user session rp parsed c p, pending (view s) subject now (pu_stored user) session ∧
    webauthn relyingParty r = Ok rp ∧ ParseCredentialRequestResponseBytes answer = Ok parsed ∧
    lib_ValidateLogin rp (library_user user) session parsed = Ok c ∧ CloneWarning c = false ∧
    passkeys (view s) !! RawURLEncoding (Credential_ID c) = Some p ∧ Passkey.Owner p = subject ∧
    (view s' = cleared subject (pu_stored user) (view s) ∨
     ∃ q, view s' = on_passkeys <[Passkey.ID p := q]> (cleared subject (pu_stored user) (view s)) ∧
       Passkey.ID q = Passkey.ID p ∧ Passkey.Owner q = Passkey.Owner p ∧ Passkey.Name q = Passkey.Name p ∧
       Passkey.LastUsedAt q = Some now ∧
       (Passkey.Data q = Passkey.Data p ∨ marshal_Credential c = Ok (Passkey.Data q))).
Proof.
  intros Hok Hm E. apply FinishLogin_run in E as [_ [[[e [=]] _]|(user & session & Hp & Hrows & Ht)]]; [|done].
  destruct Ht as (rp & parsed & c & Hrp & Hparsed & Hc & Hw & Hu).
  destruct (ValidateLogin_known _ _ _ _ _ Hc) as (known & Hknown & Hid).
  simpl in Hknown. unfold credentials in Hknown. apply list_elem_of_fmap in Hknown as (k & -> & Hk).
  apply list_elem_of_omap in Hk as (p & Hin & Hk). unfold rows_of, lists_rows in Hrows.
  rewrite Hrows in Hin. apply list_elem_of_filter in Hin as [Ho Hin].
  apply list_elem_of_fmap in Hin as ([id p'] & -> & Hin). apply elem_of_map_to_list in Hin. simpl in *.
  pose proof (Hm _ _ _ Hin Hk) as Hrow. rewrite set_CloneWarning_ID in Hid. rewrite Hid in Hrow. subst id.
  exists user, session, rp, parsed, c, p'. split_and!; try done.
  destruct Hu as [->|(p & q & Hlk & -> & Hqi & Hqo & Hqn & Hqu & Hqd)]; [by left|right].
  simpl in Hlk. assert (p = p') as -> by congruence.
  pose proof (wf_passkey_key _ (ok_wf _ Hok) _ _ Hin) as Hkey. exists q. rewrite Hkey.
  split_and!; (done || congruence).
Qed.

(** An answer to a challenge, of a sign-in or of a registration. *)
Inductive answered (subject : string) (now : Time) : S → bool → S → Prop :=
  | answered_login r answer s res s' :
      FinishLogin relyingParty r subject answer now s = (res, s') → answered subject now s (is_ok res) s'
  | answered_registration r name answer s res s' :
      FinishRegistration relyingParty r subject name answer now s = (res, s') → answered subject now s (is_ok res) s'.
Lemma answered_run subject now s b s' : ok s → answered subject now s b s' → ok s' ∧
  ((b = false ∧ view s' = view s) ∨ ∃ x session, pending (view s) subject now x session ∧
     ∃ x', users (view s') !! subject = Some x' ∧ User.WebauthnChallenge x' = "").
Proof.
  intros Hok Ha. revert Hok. destruct Ha as [r answer s0 res s1 E|r name answer s0 res s1 E]; intros Hok.
  - apply FinishLogin_run in E as [Hok' Ht]; [|done]. split; [done|].
    destruct Ht as [[[e ->] Hv]|(user & session & Hp & _ & Ht)]; [by left|right].
    exists (pu_stored user), session. split; [done|]. exists (User.with_Challenge "" None (pu_stored user)). split; [|done].
    destruct res as [u|e]; [|rewrite Ht; apply lookup_insert_eq].
    destruct Ht as (rp & parsed & c & _ & _ & _ & _ & [->|(p & q & _ & -> & _)]); apply lookup_insert_eq.
  - apply FinishRegistration_run in E as [Hok' Ht]; [|done]. split; [done|].
    destruct Ht as [[[e ->] Hv]|(user & session & Hp & _ & Ht)]; [by left|right].
    exists (pu_stored user), session. split; [done|]. exists (User.with_Challenge "" None (pu_stored user)). split; [|done].
    destruct res as [u|e]; [|rewrite Ht; apply lookup_insert_eq].
    destruct Ht as (rp & parsed & c & data & _ & _ & _ & _ & _ & _ & ->). apply lookup_insert_eq.
Qed.

(** C32 A challenge is answered once and in time. An answer that gets as far as
    the challenge uses it up, whatever becomes of the answer: until a new one is
    kept, no other answer of this person succeeds or changes anything. And the
    challenge of a beginning is worth nothing five minutes later. *)
Theorem answers_count_once subject now s b s1 : ok s → answered subject now s b s1 →
  ((b = false ∧ view s1 = view s) ∨
   ∀ now' b' s2, answered subject now' s1 b' s2 → b' = false ∧ view s2 = view s1) ∧
  (∀ r random begun options s0 s2, begun + challengeFor < now → ok s0 →
     BeginLogin relyingParty r subject begun random s0 = (Ok options, s2) ∨
     BeginRegistration relyingParty r subject begun random s0 = (Ok options, s2) →
     ∀ b' s3, answered subject now s2 b' s3 → b' = false ∧ view s3 = view s2).
Proof.
  intros Hok Ha. split.
  - apply answered_run in Ha as [Hok1 [Ha|(x & session & _ & x' & Hx' & Hc)]]; [by left|right|done].
    intros now' b' s2 Ha2. apply answered_run in Ha2 as [_ [Ha2|(y & session' & (Hy & Hne & _) & _)]]; [done| |done].
    exfalso. congruence.
  - clear Ha. intros r random begun options s0 s2 Hlate Hok0 Hb b' s3 Ha3.
    assert (ok s2 ∧ kept subject begun (view s0) (view s2) ∧ ∃ x data,
      view s2 = with_challenge subject data (Some (begun + challengeFor)) x (view s0)) as (Hok2 & _ & x & data & Hv).
    { destruct Hb as [Hb|Hb].
      - pose proof Hb as Hb0. apply BeginLogin_run in Hb0 as [Hok2 Hk]; [|done]. split_and!; [done..|].
        unfold BeginLogin in Hb. minv.
        match goal with Hx : user_ _ _ = _ |- _ => apply user_run in Hx as [-> _]; [|done] end.
        destruct (bool_decide _); [by minv|]. minv.
        match goal with Hx : lib_BeginLogin _ _ _ = Ok ?y |- _ => destruct y as [opts session] end.
        cbn beta iota in Hb. minv. subst. match goal with Hx : keepChallenge _ _ _ _ = _ |- _ =>
          apply keepChallenge_run in Hx as [_ (z & data & _ & _ & Hv)]; [|done] end. eauto.
      - pose proof Hb as Hb0. apply BeginRegistration_run in Hb0 as [Hok2 Hk]; [|done]. split_and!; [done..|].
        unfold BeginRegistration in Hb. minv.
        match goal with Hx : user_ _ _ = _ |- _ => apply user_run in Hx as [-> _]; [|done] end.
        match goal with Hx : lib_BeginRegistration _ _ _ _ = Ok ?y |- _ => destruct y as [opts session] end.
        cbn beta iota in Hb. minv. subst. match goal with Hx : keepChallenge _ _ _ _ = _ |- _ =>
          apply keepChallenge_run in Hx as [_ (z & data & _ & _ & Hv)]; [|done] end. eauto. }
    apply answered_run in Ha3 as [_ [Ha3|(y & session & (Hy & _ & (until & Hu & Hle) & _) & _)]]; [done| |done].
    exfalso. rewrite Hv in Hy. simpl in Hy. rewrite lookup_insert_eq in Hy. injection Hy as <-. simpl in Hu.
    injection Hu as <-. lia.
Qed.

(** Nobody touches the passkeys of somebody else. Registering never takes the
    id of a passkey that exists, adds one row of the person, and its name fits
    the column; renaming and deleting work on own rows only and change that row
    alone; a passkey of somebody else is refused with nothing changed. *)
Theorem own_passkeys subject s : ok s →
  (∀ r name answer now p s', FinishRegistration relyingParty r subject name answer now s = (Ok p, s') →
     passkeys (view s) !! Passkey.ID p = None ∧ passkeys (view s') = <[Passkey.ID p := p]> (passkeys (view s)) ∧
     Passkey.Owner p = subject ∧ (String.length (Passkey.Name p) <= maxPasskeyName)%nat) ∧
  (∀ id name res s', Rename_passkey subject id name s = (res, s') →
     (∃ p, passkeys (view s) !! id = Some p ∧ Passkey.Owner p = subject ∧
        view s' = on_passkeys <[id := Passkey.with_Name (passkeyName name) p]> (view s)) ∨
     (is_ok res = false ∧ view s' = view s)) ∧
  (∀ id res s', Delete_passkey subject id s = (res, s') →
     (∃ p, passkeys (view s) !! id = Some p ∧ Passkey.Owner p = subject ∧ res = Ok tt ∧
        view s' = on_passkeys (delete id) (view s)) ∨
     (is_ok res = false ∧ view s' = view s)) ∧
  (∀ id p, passkeys (view s) !! id = Some p → Passkey.Owner p ≠ subject →
     ∀ s', (∀ name res, Rename_passkey subject id name s = (res, s') → is_ok res = false ∧ view s' = view s) ∧
       (∀ res, Delete_passkey subject id s = (res, s') → is_ok res = false ∧ view s' = view s)).
Proof.
  intros Hok. split_and!.
  - intros r name answer now p s' E.
    apply FinishRegistration_run in E as [_ [[[e [=]] _]|(user & session & _ & _ & Ht)]]; [|done].
    destruct Ht as (rp & parsed & c & data & _ & _ & _ & _ & Hp & Hnew & ->). split_and!; [done|done|by rewrite Hp|].
    rewrite Hp. simpl. unfold passkeyName. set (n := if String.eqb _ "" then _ else _).
    destruct (Z.ltb_spec (Z.of_nat maxPasskeyName) (slen n)) as [Hl|Hl]; [|unfold slen in Hl; lia].
    rewrite <- length_bytes, bytes_of_bytes, length_take. lia.
  - intros id name res s' E. apply Rename_passkey_run in E as [_ [[[e ->] Hv]|(p & Hp & Ho & Hv & _)]]; [by right| |done].
    left. by exists p.
  - intros id res s' E. apply Delete_passkey_run in E as [_ Hr]; [|done]. destruct res as [[]|e]; [left|by right].
    destruct Hr as (p & Hp & Ho & Hv). by exists p.
  - intros id p Hp Hne s'. split.
    + intros name res E. apply Rename_passkey_run in E as [_ [[[e ->] Hv]|(q & Hq & Ho & _)]]; [done|congruence|done].
    + intros res E. apply Delete_passkey_run in E as [_ Hr]; [|done]. destruct res as [[]|e]; [|done].
      destruct Hr as (q & Hq & Ho & _). congruence.
Qed.
End theorems.

(** ** Witnesses: a small library on the in-memory storage *)
Definition site : option Request → string * string := RelyingPartyFromHost "vpn.example.com" true.
Definition ada : User := User.mk "ada" "simple" "Ada" "" "" 0 "" "" None "" None "" 0 "".
Definition with_ada : InMemoryStorage := (SaveUser ada NewMemoryStorage).2.
Definition begun_registration := BeginRegistration (S := InMemoryStorage) site None "ada" 100 [65].
Definition finished_registration := FinishRegistration (S := InMemoryStorage) site None "ada" " Laptop " "key" 200.
Definition begun_login := BeginLogin (S := InMemoryStorage) site None "ada" 300 [66].
Definition passkeys1 : InMemoryStorage := (begun_registration with_ada).2.
Definition passkeys2 : InMemoryStorage := (finished_registration passkeys1).2.
Definition passkeys3 : InMemoryStorage := (begun_login passkeys2).2.
Lemma with_ada_ok : ok with_ada.
Proof.
  destruct (m_run_ok (SaveUser ada) NewMemoryStorage) as [a E]; [vm_compute; reflexivity|].
  by apply (effect_ok _ _ _ _ _ (law_SaveUser _)) in E as [Hok _]; [|apply NewMemoryStorage_ok].
Qed.
Lemma passkeys1_ok : ok passkeys1.
Proof.
  destruct (begun_registration with_ada) as [res s] eqn:E. pose proof E as E0.
  apply BeginRegistration_run in E0 as [Hok _]; [|apply with_ada_ok]. unfold passkeys1. by rewrite E.
Qed.
Lemma passkeys2_ok : ok passkeys2.
Proof.
  destruct (finished_registration passkeys1) as [res s] eqn:E. pose proof E as E0.
  apply FinishRegistration_run in E0 as [Hok _]; [|apply passkeys1_ok]. unfold passkeys2. by rewrite E.
Qed.
Lemma passkeys3_ok : ok passkeys3.
Proof.
  destruct (begun_login passkeys2) as [res s] eqn:E. pose proof E as E0.
  apply BeginLogin_run in E0 as [Hok _]; [|apply passkeys2_ok]. unfold passkeys3. by rewrite E.
Qed.
Lemma nothing_matches : rows_match (view with_ada).
Proof.
  intros id p c Hp _. assert (passkeys (view with_ada) !! id = None) as Hn; [|congruence].
  change (passkeys (view with_ada)) with (∅ : gmap string Passkey). apply lookup_empty.
Qed.
Lemma three_steps : rtc (passkey_step (S := InMemoryStorage) site) with_ada passkeys3.
Proof.
  apply rtc_l with passkeys1.
  { apply (begin_registration site None "ada" 100 [65] _ (begun_registration with_ada).1). apply surjective_pairing. }
  apply rtc_l with passkeys2.
  { apply (finish_registration site None "ada" " Laptop " "key" 200 _ (finished_registration passkeys1).1). apply surjective_pairing. }
  apply rtc_once.
  apply (begin_login site None "ada" 300 [66] _ (begun_login passkeys2).1). apply surjective_pairing.
Qed.

Lemma passkeys_in_order_witness : rows_match (view passkeys3) ∧ size (passkeys (view passkeys3)) = 1%nat.
Proof.
  split; [|vm_compute; reflexivity].
  exact (proj2 (passkeys_in_order site with_ada passkeys3 with_ada_ok nothing_matches three_steps)).
Defined.
Definition demo_login := FinishLogin (S := InMemoryStorage) site None "ada" "key" 400.
Lemma FinishLogin_correct_witness : ∃ s, demo_login passkeys3 = (Ok tt, s) ∧
  ∃ c p, CloneWarning c = false ∧ passkeys (view passkeys3) !! RawURLEncoding (Credential_ID c) = Some p ∧
    Passkey.Owner p = "ada".
Proof.
  destruct (m_run_ok demo_login passkeys3) as [[] E]; [vm_compute; reflexivity|]. eexists. split; [exact E|].
  assert (rows_match (view passkeys3)) as Hm.
  { intros id p c Hp Hc. change (passkeys (view passkeys3)) with
      (<["a2V5" := Passkey.mk "a2V5" "ada" "Laptop" "key" 200 None]> (∅ : gmap string Passkey)) in Hp.
    apply lookup_insert_Some in Hp as [[<- <-]|[_ Hp]]; [|by rewrite lookup_empty in Hp].
    cbn in Hc. injection Hc as <-. vm_compute. reflexivity. }
  destruct (FinishLogin_correct site None "ada" "key" 400 passkeys3 _ passkeys3_ok Hm E)
    as (user & session & rp & parsed & c & p & _ & _ & _ & _ & Hw & Hp & Ho & _).
  exists c, p. split; [exact Hw|]. split; [exact Hp|exact Ho].
Defined.
Lemma answers_count_once_witness :
  answered site "ada" 400 passkeys3 true (demo_login passkeys3).2 ∧
  ∀ now' b' s2, answered site "ada" now' (demo_login passkeys3).2 b' s2 → b' = false ∧ view s2 = view (demo_login passkeys3).2.
Proof.
  destruct (m_run_ok demo_login passkeys3) as [[] E]; [vm_compute; reflexivity|].
  assert (answered site "ada" 400 passkeys3 true (demo_login passkeys3).2) as Ha
    by exact (answered_login site "ada" 400 None "key" passkeys3 (Ok tt) _ E).
  split; [exact Ha|].
  destruct (answers_count_once site "ada" 400 passkeys3 true _ passkeys3_ok Ha) as [[[Hb _]|Hs] _]; [discriminate Hb|exact Hs].
Defined.
Lemma own_passkeys_witness : ∃ p s, finished_registration passkeys1 = (Ok p, s) ∧ Passkey.Owner p = "ada" ∧
  ∀ res s', Delete_passkey "bob" "a2V5" passkeys3 = (res, s') → is_ok res = false ∧ view s' = view passkeys3.
Proof.
  destruct (m_run_ok finished_registration passkeys1) as [p E]; [vm_compute; reflexivity|].
  exists p. eexists. split; [exact E|]. split.
  - destruct (own_passkeys site "ada" passkeys1 passkeys1_ok) as [Hr _]. exact (proj1 (proj2 (proj2 (Hr _ _ _ _ _ _ E)))).
  - intros res s'. destruct (own_passkeys site "bob" passkeys3 passkeys3_ok) as (_ & _ & _ & Hother).
    apply (proj2 (Hother "a2V5" (Passkey.mk "a2V5" "ada" "Laptop" "key" 200 None) ltac:(vm_compute; reflexivity)
      ltac:(discriminate) s')).
Defined.
(** A long name is cut in the middle of a character: what is stored is not
    valid UTF-8. *)
Lemma passkeyName_cuts_characters :
  let name := of_bytes (repeat "a"%char 63 ++ [chr 195; chr 169]) in
  RuneError ∉ runes name ∧ RuneError ∈ runes (passkeyName name).
Proof.
  assert (forallb (λ r, negb (r =? RuneError)) (runes (of_bytes (repeat "a"%char 63 ++ [chr 195; chr 169]))) = true) as H1
    by (vm_compute; reflexivity).
  assert (existsb (Z.eqb RuneError) (runes (passkeyName (of_bytes (repeat "a"%char 63 ++ [chr 195; chr 169])))) = true) as H2
    by (vm_compute; reflexivity).
  cbv zeta. split.
  - intros Hin%list_elem_of_In. rewrite forallb_forall in H1. by apply H1 in Hin.
  - apply existsb_exists in H2 as (r & Hin & <-%Z.eqb_eq). by apply list_elem_of_In.
Qed.
