(* ===== verification/ConfigurationTheorems.v ===== *)
(** * The properties of the configuration

    What a configuration that is accepted guarantees, and what the clients reach
    in the end: from the configured policies, the users and the devices to the
    verdict of the kernel on a packet. *)
From S2P Require Import Prelude GoText GoQuote GoNet Netip NetipText NetipRoundTrip Network Firewall FirewallSpecs.
From S2P Require Import FirewallTheorems Storage AuthSession Devices Routes RouteSpecs PeerTheorems Passwords Throttle.
From S2P Require Import SignIn AuthConfig Configuration Toys.

(** ** Checks that succeed *)
Section checks.
  Context `{UnicodeTables} `{PasswordHashing}.

Definition usable_policy (name : string) (allowed : list string) : Prop :=
  ValidPolicyName name = true ∧ allowed ≠ [] ∧ ∀ n, n ∈ allowed → is_Some (ParsePrefix n).
Lemma check_policy_ok name allowed u : check_policy (name, allowed) = Ok u → usable_policy name allowed.
Proof.
  unfold check_policy, usable_policy. destruct (ValidPolicyName name); [|done]. cbn [negb].
  destruct (bool_decide_reflect (allowed = [])) as [|Hne]; [done|]. intros E. split_and!; [done..|]. intros n Hn.
  apply (check_all_elem _ _ _ E) in Hn. unfold check_network in Hn. destruct (ParsePrefix n) as [p|]; [by exists p|done].
Qed.
Lemma validatePolicies_ok policies auth u : validatePolicies policies auth = Ok u →
  (∀ name allowed, policies !! name = Some allowed → usable_policy name allowed) ∧
  ∃ names, PolicyNames auth = Ok names ∧
    ∀ provider mapped name, names !! provider = Some mapped → name ∈ mapped → is_Some (policies !! name).
Proof.
  unfold validatePolicies. destruct (check_all check_policy _) as [v|] eqn:Ec; [|done]. cbn [rbind].
  destruct (PolicyNames auth) as [names|]; [|done]. cbn [rbind]. intros E. split.
  - intros name allowed Hl. apply (check_policy_ok name allowed tt), (check_all_elem _ _ _ Ec). by apply elem_of_map_to_list.
  - exists names. split; [done|]. intros provider mapped name Hp Hn.
    assert (check_rules policies (provider, mapped) = Ok tt) as Hr
      by (apply (check_all_elem _ _ _ E); by apply elem_of_map_to_list).
    apply (check_all_elem _ _ _ Hr) in Hn. unfold check_rule in Hn. destruct (policies !! name); [done|done].
Qed.

(** *** The entry of the admin *)
Lemma entry_of_app l1 l2 u : entry_of (l1 ++ l2) u = match entry_of l1 u with Some e => Some e | None => entry_of l2 u end.
Proof.
  induction l1 as [|x l1 IH]; [done|]. simpl. destruct (parsehtpassword x) as [[name e]|]; [|done].
  by destruct (String.eqb name u).
Qed.
Lemma parse_admin u pw : u ≠ "" → pw ≠ "" → Cut u ":" = None → parsehtpassword (u +:+ ":" +:+ pw) = Some (u, pw).
Proof.
  intros Hu Hp Hc. unfold parsehtpassword, Cut in *. rewrite !bytes_app. destruct (cut ":" (bytes u)) as [[]|] eqn:Ec; [done|].
  change (bytes ":" ++ bytes pw) with (":"%char :: bytes pw). rewrite cut_app by done. cbn [option_bind mbind].
  rewrite !of_bytes_bytes. apply String.eqb_neq in Hu, Hp. by rewrite Hu, Hp.
Qed.
Lemma add_admin_entry u pw a : u ≠ "" → pw ≠ "" → Cut u ":" = None → ConfiguredEntry a u = Ok None →
  ConfiguredEntry (add_admin u pw a) u = Ok (Some pw).
Proof.
  intros Hu Hp Hc. pose proof (parse_admin u pw Hu Hp Hc) as Hparse.
  unfold ConfiguredEntry, all_lists, first_entry, add_admin, user_lists.
  destruct a as [[o gl gh b s] m]. cbn [Embedded Multiple Simple Basic].
  assert (∀ l, entry_of ((u +:+ ":" +:+ pw) :: l) u = Some pw) as Hhead
    by (intros l; cbn [entry_of]; rewrite Hparse; by rewrite String.eqb_refl).
  destruct s as [us|], b as [ub|]; cbn [Embedded Multiple Simple Basic set_embedded with_users];
    (destruct (multiple_lists m) as [rest|]; [|done]); cbn [rbind app mjoin list_join];
    rewrite ?app_nil_r, <- ?app_assoc, ?entry_of_app; intros [= Hn];
    repeat match goal with
    | Hn : match entry_of ?l ?v with _ => _ end = None |- _ => destruct (entry_of l v) eqn:?; [done|]
    end; rewrite ?entry_of_app; rewrite ?Hhead; cbn [app]; rewrite ?Hhead; try done.
Qed.
Lemma add_admin_valid u pw a : Validate (add_admin u pw a) = Validate a.
Proof. destruct a as [[o gl gh [b|] [s|]] m]; done. Qed.
Lemma add_admin_enabled u pw a : IsEnabled (add_admin u pw a) = true.
Proof.
  destruct a as [[o gl gh b s] m]. unfold IsEnabled, add_admin. destruct s, b; cbn; by rewrite ?orb_true_r.
Qed.
Lemma add_admin_policies u pw a : PolicyNames (add_admin u pw a) = PolicyNames a.
Proof. destruct a as [[o gl gh [b|] [s|]] m]; done. Qed.

(** *** Step by step *)
Lemma check_firewall_ok c c' : check_firewall c = Ok c' → ∃ v, c' = with_VPN v c ∧ vpn_Policies v = vpn_Policies (VPN c) ∧
  (vpn_Policies (VPN c) ≠ ∅ → vpn_Firewall v = FirewallNftables).
Proof.
  unfold check_firewall. intros E. apply rbind_ok in E as (fw & _ & E).
  destruct (bool_decide _ && negb _) eqn:Eb; [done|]. injection E as <-. eexists. split_and!; [done..|].
  intros Hne. rewrite bool_decide_eq_true_2 in Eb by done. cbn [vpn_Firewall]. by apply negb_false_iff, String.eqb_eq in Eb.
Qed.
Definition admin_set (c : AppConfig) (a : AuthConfig) : Prop :=
  AdminPassword c ≠ "" → ∃ pw, GenerateFromPassword (AdminPassword c) = Ok pw ∧
    (AdminUsername c ≠ "" → Cut (AdminUsername c) ":" = None → ConfiguredEntry (Auth c) (AdminUsername c) = Ok None →
       ConfiguredEntry a (AdminUsername c) = Ok (Some pw)).
Lemma check_auth_ok c c' : check_auth c = Ok c' → ∃ a, c' = with_Auth a c ∧ IsEnabled a = true ∧
  Validate a = Validate (Auth c) ∧ PolicyNames a = PolicyNames (Auth c) ∧ admin_set c a.
Proof.
  unfold check_auth, admin_set. destruct (String.eqb_spec (AdminPassword c) "") as [Ha|Ha].
  - rewrite andb_true_r. destruct (IsEnabled (Auth c)) eqn:Ei; [|done]. intros [= <-]. exists (Auth c). split_and!; try done.
    by destruct c.
  - rewrite andb_false_r. intros E. apply rbind_ok in E as (pw & Eg & E). injection E as <-.
    apply wrap_ok in Eg. exists (add_admin (AdminUsername c) pw (Auth c)).
    split_and!; [done|apply add_admin_enabled|apply add_admin_valid|apply add_admin_policies|]. intros _. exists pw.
    split; [done|]. intros. apply add_admin_entry; try done. by eapply hash_nonempty.
Qed.
Definition key_set (key : result string) (c : AppConfig) (k : string) : Prop :=
  k = PrivateKey c ∧ PrivateKey c ≠ "" ∨ PrivateKey c = "" ∧ Ok k = key ∧ HasPrefix (StorageURI c) "memory://" = true.
Lemma check_key_ok key c c' : check_key key c = Ok c' → ∃ k, c' = with_PrivateKey k c ∧ key_set key c k.
Proof.
  unfold check_key, key_set. destruct (String.eqb_spec (PrivateKey c) "") as [Hz|Hz]; cbn [negb].
  - destruct (HasPrefix (StorageURI c) "memory://"); [|done]. cbn [negb]. intros E. apply rbind_ok in E as (k & Ek & E).
    injection E as <-. apply wrap_ok in Ek. exists k. split; [done|]. by right.
  - intros [= <-]. exists (PrivateKey c). split; [by destruct c|]. by left.
Qed.

(** C21 What a configuration that starts the server guarantees. The UI listens
    somewhere; the policies are usable, the rules of the providers name no other
    ones and the firewall is one that can enforce them; the providers can be told
    apart; somebody can sign in, and when an admin password is given for a name
    nobody else has, its hash is what that name signs in with; and the server has
    a key, made up only for a storage that forgets everything. *)
Theorem ReadConfig_correct key c c' : ReadConfig key c = Ok c' →
  HttpEnabled c' || HTTPSEnabled c' = true ∧
  (∀ name allowed, vpn_Policies (VPN c') !! name = Some allowed → usable_policy name allowed) ∧
  (∃ names, PolicyNames (Auth c') = Ok names ∧ ∀ provider mapped name, names !! provider = Some mapped →
     name ∈ mapped → is_Some (vpn_Policies (VPN c') !! name)) ∧
  (vpn_Policies (VPN c') ≠ ∅ → vpn_Firewall (VPN c') = FirewallNftables) ∧
  Validate (Auth c') = Ok tt ∧ IsEnabled (Auth c') = true ∧
  (AdminPassword c ≠ "" → ∃ pw, GenerateFromPassword (AdminPassword c) = Ok pw ∧
     (AdminUsername c ≠ "" → Cut (AdminUsername c) ":" = None → ConfiguredEntry (Auth c) (AdminUsername c) = Ok None →
        ConfiguredEntry (Auth c') (AdminUsername c) = Ok (Some pw))) ∧
  (PrivateKey c' = PrivateKey c ∧ PrivateKey c ≠ "" ∨
     PrivateKey c = "" ∧ Ok (PrivateKey c') = key ∧ HasPrefix (StorageURI c) "memory://" = true).
Proof.
  unfold ReadConfig. destruct (negb (HttpEnabled c) && negb (HTTPSEnabled c)) eqn:El; [done|]. intros E.
  apply rbind_ok in E as ([] & Ep & E). apply rbind_ok in E as ([] & Ev & E). apply validatePolicies_ok in Ep as [Hpol Hnames].
  apply rbind_ok in E as (c1 & E1 & E). apply check_firewall_ok in E1 as (v & -> & Hv & Hfw).
  apply rbind_ok in E as (c2 & E2 & E). apply check_auth_ok in E2 as (a & -> & Hen & Hval & Hpn & Hadm).
  apply rbind_ok in E as (c3 & E3 & E). apply check_key_ok in E3 as (k & -> & Hk). injection E as <-.
  cbn [tidy with_VPN with_Auth with_PrivateKey HttpEnabled HTTPSEnabled VPN Auth PrivateKey vpn_Policies vpn_Firewall] in *.
  rewrite Hv, Hpn, Hval. split_and!; try done. by destruct (HttpEnabled c), (HTTPSEnabled c).
Qed.

(** ** From the users and their devices to the packets *)
Lemma splitAllowedIPs_ok o o' : splitAllowedIPs o = Ok o' →
  fo_Policies o' = fo_Policies o ∧ ServerAddresses o' = ServerAddresses o ∧ ClientIsolation o' = ClientIsolation o.
Proof. unfold splitAllowedIPs. intros E. apply rbind_ok in E as (split & _ & E). by injection E as <-. Qed.
Lemma sortedPolicyNames_spec policies : NoDup (sortedPolicyNames policies) ∧
  ∀ name, name ∈ sortedPolicyNames policies ↔ is_Some (policies !! name).
Proof.
  unfold sortedPolicyNames, sort_Strings. split.
  - rewrite merge_sort_Permutation. apply NoDup_fst_map_to_list.
  - intros name. rewrite merge_sort_Permutation, list_elem_of_fmap. split.
    + intros ([n l] & -> & Hin%elem_of_map_to_list). by exists l.
    + intros [l Hl]. exists (name, l). split; [done|]. by apply elem_of_map_to_list.
Qed.
(** *** The addresses of the server *)
Definition good_addr (a : Addr) : Prop := wf_addr a ∧ IsValidAddr a = true ∧ hasZone a = false.
Lemma good_text a : good_addr a → ParsePrefix (AddrString a) = None ∧ TrimSpace (AddrString a) = AddrString a ∧
  ParseAddr (AddrString a) = Some a.
Proof.
  intros (Hw & Hv & Hz). pose proof (addr_bytes_plain a Hw Hv Hz) as Hp. split_and!; [| |by apply ParseAddr_AddrString].
  - unfold ParsePrefix, AddrString. rewrite bytes_of_bytes. unfold cut_last.
    rewrite (cut_plain "/" (rev (addr_bytes a))); [done..|]. by apply Forall_rev.
  - unfold AddrString. by apply TrimSpace_text, plain_text.
Qed.
Lemma good_unmap a : good_addr a → good_addr (Unmap a).
Proof.
  intros (Hw & Hv & Hz). unfold Unmap. destruct (Is4In6 a) eqn:E4; [|done]. split_and!; [|done..]. cbn [wf_addr].
  rewrite Z.land_ones by lia. by apply Z.mod_pos_bound.
Qed.
Lemma server_prefix_good cidr p : server_prefix cidr = Ok p → IsValid p = true → good_addr (PAddr p).
Proof.
  unfold server_prefix. destruct (String.eqb cidr ""); [by intros [= <-]|].
  destruct (ParsePrefix cidr) as [q|] eqn:Eq; [|done]. intros [= <-] Hv. apply ParsePrefix_wf, Masked_wf in Eq as (Hw & Hz & Hva & _).
  revert Hv. unfold PrefixFrom, IsValid, good_addr. cbn [Bits PAddr]. destruct (PAddr (Masked q)) as [v|v|v z]; [done|..];
    cbn [Next wf_addr] in *; destruct (Z.eqb_spec (v + 1) (2 ^ 32)); destruct (Z.eqb_spec (v + 1) (2 ^ 128));
    cbn [IsValidAddr andb]; try done; intros _; split_and!; try done; cbn [withoutZone wf_addr]; lia.
Qed.
Lemma vpnAddresses_good c vpn c' : vpnAddresses c = Ok (vpn, c') → Forall good_addr (a_addrs vpn) ∧
  ∃ l, c' = with_VPN (with_AllowedIPs l (VPN c)) c.
Proof.
  intros E. unfold vpnAddresses in E. apply rbind_ok in E as ([p4 p6] & Ei & E). unfold ServerVPNIPs in Ei.
  apply rbind_ok in Ei as (q4 & E4 & Ei). apply rbind_ok in Ei as (q6 & E6 & Ei). injection Ei as <- <-.
  destruct (negb (IsValid q4) && negb (IsValid q6)); [done|]. injection E as <- <-. split; [|by eexists].
  cbn [a_addrs]. apply Forall_forall. intros a (pb & -> & [Hv Hin]%list_elem_of_filter)%list_elem_of_fmap.
  apply elem_of_cons in Hin as [->|[->|[]%not_elem_of_nil]%elem_of_cons]; by eapply server_prefix_good.
Qed.
Lemma server_reached addrs f dst : Forall good_addr addrs → keyword f = family_keyword dst →
  (∃ t, t ∈ addressesOfFamily (AddrString <$> addrs) f ∧ net_matches t dst = true) ↔ ∃ a, a ∈ addrs ∧ Unmap a = dst ∧ is_ip f = Is4 dst.
Proof.
  intros Hg Hk. rewrite Forall_forall in Hg.
  assert (∀ a, a ∈ addrs → entry_addr (AddrString a) = Some a) as Hent.
  { intros a Ha. destruct (good_text a (Hg a Ha)) as (Hp & Ht & Hpa). unfold entry_addr, parse_entry. by rewrite Ht, Hp, Hpa. }
  unfold addressesOfFamily. split.
  - intros (t & (s & (a & -> & Ha)%list_elem_of_fmap & E)%list_elem_of_omap & Hm). rewrite Hent in E by done. cbn [mbind option_bind] in E.
    destruct (Bool.eqb _ _) eqn:Eb; [|done]. injection E as <-. destruct (good_text _ (good_unmap _ (Hg a Ha))) as (Hp & _ & Hpa).
    unfold net_matches in Hm. rewrite Hp, Hpa in Hm. apply bool_decide_eq_true in Hm as [= <-]. apply Bool.eqb_prop in Eb. by exists a.
  - intros (a & Ha & <- & Hf). exists (AddrString (Unmap a)). destruct (good_text _ (good_unmap _ (Hg a Ha))) as (Hp & _ & Hpa). split.
    + apply list_elem_of_omap. exists (AddrString a). split; [by apply list_elem_of_fmap_2|]. rewrite Hent by done. cbn [mbind option_bind].
      by rewrite Hf, Bool.eqb_reflx.
    + unfold net_matches. rewrite Hp, Hpa. by apply bool_decide_eq_true.
Qed.

(** One of the addresses stored for the device is this one. *)
Definition device_has (f : family) (d : Device) (a : Addr) : Prop :=
  in_texts (addressesOfFamily (SplitAddresses (Device.Address d)) f) a.
(** The address is a device's that may connect now and whose owner has the policy. *)
Definition under_policy (now : Time) (users : list User) (devs : list Device) (f : family) (name : string) (a : Addr) : Prop :=
  ∃ d u, d ∈ devs ∧ u ∈ users ∧ User.Subject u = Device.Owner d ∧ name ∈ User.PolicyList u ∧
    Device.AccessAllowed d now = true ∧ device_has f d a.
Lemma in_texts_family l f a : in_texts (addressesOfFamily l f) a ↔ ∃ t, t ∈ l ∧ in_texts (addressesOfFamily [t] f) a.
Proof.
  unfold in_texts, addressesOfFamily. split.
  - intros (t & (s & Hs & E)%list_elem_of_omap & Hp). exists s. split; [done|]. exists t. split; [|done].
    apply list_elem_of_omap. exists s. split; [by left|done].
  - intros (s & Hs & t & (s' & Hs' & E)%list_elem_of_omap & Hp). apply list_elem_of_singleton in Hs' as ->. exists t.
    split; [|done]. apply list_elem_of_omap. by exists s.
Qed.

End checks.

(** ** Instances for the witnesses *)
Definition demo_vpn : VPNConfig :=
  mkVPN ["0.0.0.0/0"] "10.44.0.0/24" "0" true true "eth0" false {["office" := ["192.168.1.0/24"]]} "nftables" false.
Definition read_config : AppConfig :=
  mkApp true false "admin" "letmein" "memory://" "" "" [] [] demo_vpn (mkAuthConfig (mkProviderConfig None None None None None) []).
Definition checked_config : AppConfig := match ReadConfig (Ok "key") read_config with Ok c => c | Err _ => read_config end.
Lemma ReadConfig_correct_witness : ReadConfig (Ok "key") read_config = Ok checked_config ∧ IsEnabled (Auth checked_config) = true ∧
  ConfiguredEntry (Auth checked_config) "admin" = Ok (Some "hletmein").
Proof.
  assert (ReadConfig (Ok "key") read_config = Ok checked_config) as E by (vm_compute; reflexivity). split; [exact E|].
  destruct (ReadConfig_correct _ _ _ E) as (_ & _ & _ & _ & _ & He & Ha & _). split; [exact He|].
  destruct Ha as (pw & Hpw & Hc); [discriminate|]. injection Hpw as <-. apply Hc; [discriminate|reflexivity..].
Defined.

Definition demo_addressing : vpnAddressing * AppConfig :=
  match vpnAddresses checked_config with Ok p => p | Err _ => (mkAddressing zero_prefix zero_prefix [] [], checked_config) end.
Definition ada : User := User.mk "ada" "simple" "Ada" "" "office" 0 "" "" None "" None "" 0 "".
Definition tablet : Device := Device.mk "ada" "Ada" "" "simple" "tablet" "pk" "" "10.44.0.2/32" 0 false None "" None 0 0 "".
Definition demo_options : ForwardingOptions :=
  let o := forwardingOptions demo_addressing.2 demo_addressing.1 (build_state 5 [ada] [tablet]) in
  match splitAllowedIPs o with Ok o => o | Err _ => o end.
Definition demo_rules : Ruleset := match ruleset demo_options with Ok rs => rs | Err _ => mkRuleset [] [] [] end.
Definition demo_family : family := mkFamily "ip" "10.44.0.0/24" ["0.0.0.0/0"; "10.44.0.1/32"] true.
