(* ===== verification/ThrottleTheorems.v ===== *)
(** * The properties of the throttle

    How long a sign-in waits, and how many answers the second step takes. *)
From S2P Require Import Limiter.
From S2P Require Import Prelude Storage GoText GoNet Network Encoding TextFacts.
From S2P Require Import Totp Passkeys Passwords TwoFactor Throttle Toys.

Section throttle.
  Context {C : Type} `{LRU attempts C}.
  Implicit Types (t : Throttle C).

(** Failed sign-ins for one name, one after the other. *)
Definition failed_at (username : string) (t : Throttle C) (times : list Time) : Throttle C :=
  fold_left (λ t now, (recordFailure username now t).2) times t.
(** The wait the next one has to sit out. *)
Definition next_wait (username : string) now t : result Z := (wait username now t).1.

(** What is counted after failures in a window. *)
Definition holds_count (username : string) (a : Time) (n : Z) t : Prop :=
  ∀ now, a <= now <= a + loginThrottleReset → counted username now t = n.
Lemma holds_failure username a n now t : a <= now <= a + loginThrottleReset → holds_count username a n t →
  holds_count username a (n + 1) (recordFailure username now t).2.
Proof.
  intros Hn Hc now' Hn'. destruct (recordFailure_run username now t) as (t' & -> & Hk & _).
  unfold counted. simpl. rewrite Hk. simpl. destruct (Z.ltb_spec loginThrottleReset (now' - now)); [lia|].
  by rewrite Hc.
Qed.
Lemma holds_failures username a times n t : Forall (λ now, a <= now <= a + loginThrottleReset) times →
  holds_count username a n t → holds_count username a (n + Z.of_nat (List.length times)) (failed_at username t times).
Proof.
  intros Ht. revert n t. induction Ht as [|now times Hn Ht IH]; intros n t Hc; [by rewrite Z.add_0_r|].
  change (failed_at username t (now :: times)) with (failed_at username (recordFailure username now t).2 times).
  replace (n + Z.of_nat (List.length (now :: times))) with (n + 1 + Z.of_nat (List.length times)) by (cbn [List.length]; lia).
  apply IH. by apply holds_failure.
Qed.
Lemma success_forgets username a t : holds_count username a 0 (recordSuccess username t).2.
Proof. intros now _. unfold counted. simpl. rewrite lru_remove. by rewrite lookup_delete_eq. Qed.
Lemma next_wait_is username now t : next_wait username now t = Ok (delay_after (counted username now t)).
Proof. unfold next_wait. by destruct (wait_run username now t) as (? & -> & _). Qed.
Lemma delay_after_pos n : 0 < n → delay_after n = Z.min loginThrottleMax (loginThrottleBase * 2 ^ (n - 1)).
Proof.
  intros Hn. unfold delay_after. destruct (Z.eqb_spec n 0); [lia|]. rewrite doubled_min by done.
  destruct (decide _) as [Hz|Hz]; [|do 3 f_equal; lia]. by assert (n = 1) as -> by lia.
Qed.
(** Nothing that happens to one name makes another one wait longer. *)
Lemma failure_spares username now t name now' : name ≠ username →
  counted name now' (recordFailure username now t).2 = counted name now' t ∨
  counted name now' (recordFailure username now t).2 = 0.
Proof.
  intros Hne. destruct (recordFailure_run username now t) as (t' & -> & _ & Hsub & _). unfold counted. simpl.
  destruct (kept (cache t') !! name) as [r|] eqn:Er; [|by right].
  eapply lookup_weaken in Er; [|done]. rewrite lookup_insert_ne in Er by done. rewrite Er. by left.
Qed.

(** Guessing gets slower and never locks anybody out. After a right password
    the next sign-in does not wait; after [n] failures within fifteen minutes it
    waits 250 ms doubled [n-1] times, but at most ten seconds - so a wait never
    gets shorter by failing once more. Failures for one name never make another
    one wait: its count stays, or is forgotten when the cache is full. *)
Theorem guessing_slows username a times now t :
  Forall (λ x, a <= x <= a + loginThrottleReset) times → a <= now <= a + loginThrottleReset →
  let n := Z.of_nat (List.length times) in
  next_wait username now (recordSuccess username t).2 = Ok 0 ∧
  next_wait username now (failed_at username (recordSuccess username t).2 times) =
    Ok (if decide (n = 0) then 0 else Z.min loginThrottleMax (loginThrottleBase * 2 ^ (n - 1))) ∧
  (∀ t' d, next_wait username now t' = Ok d → d <= loginThrottleMax) ∧
  (∀ name t', name ≠ username → next_wait name now (failed_at username t' times) = next_wait name now t' ∨
     next_wait name now (failed_at username t' times) = Ok 0).
Proof.
  intros Ht Hn n. pose proof (success_forgets username a t) as H0. split_and!.
  - by rewrite next_wait_is, H0.
  - rewrite next_wait_is, (holds_failures username a times 0) by done. f_equal. fold n. rewrite Z.add_0_l.
    destruct (decide (n = 0)) as [->|]; [done|]. apply delay_after_pos. lia.
  - intros t' d. rewrite next_wait_is. intros [= <-]. unfold delay_after. destruct (_ =? 0); [done|].
    rewrite doubled_min by done. destruct (decide _); [done|lia].
  - intros name t' Hne. clear Hn n Ht. revert t'. induction times as [|x times IH]; intros t'; [by left|].
    change (failed_at username t' (x :: times)) with (failed_at username (recordFailure username x t').2 times).
    pose proof (failure_spares username x t' name now Hne) as Hs. specialize (IH (recordFailure username x t').2).
    rewrite !next_wait_is in *. destruct IH as [->| ->]; [destruct Hs as [->| ->]|]; auto.
Qed.

(** ** The second step *)
(** What the handlers do with the limit: reserve an answer, report a right one. *)
Definition step (g : guess) : M (Throttle C) bool :=
  match g with
  | Reserve who now => beginSecondFactor who now
  | WasRight who => do! secondFactorSucceeded who; m_ret false
  end.
(** The answers of one name that are looked at. *)
Fixpoint looked_at (username : string) (l : list guess) t : Z :=
  match l with
  | [] => 0
  | g :: l =>
      let '(r, t') := step g t in
      (if bool_decide (whose g = username) && (if r is Ok b then b else false) then 1 else 0) + looked_at username l t'
  end.
Lemma looked_at_tried username l t :
  looked_at username l t = tried maxSecondFactorFailures secondFactorLockout username l (answers_of t).
Proof.
  revert t. induction l as [|[who now|who] l IH]; intros t; [done|..]; cbn [looked_at tried step].
  - destruct (beginSecondFactor_reserve who now t) as [Hb Ht].
    destruct (beginSecondFactor who now t) as [x t1], (reserve _ _ who now (answers_of t)) as [b m1].
    simpl in *. subst x m1. by rewrite IH.
  - unfold m_bind, secondFactorSucceeded, m_ret. rewrite andb_false_r, IH, Z.add_0_l. f_equal. unfold answers_of. simpl.
    by rewrite fmap_delete.
Qed.

(** C14 Nobody guesses a code. Of all the answers to the second step that are given
    for one account in fifteen minutes, however the requests interleave, at most
    ten are looked at as long as none was right; what is asked of other accounts
    makes no difference. Waiting and the counts of the password step never touch
    this limit, so signing in with the password again does not reset it. *)
Theorem second_step_limit username a l t :
  (∀ r, secondFactor t !! username = Some r → 0 <= a_failures r) →
  Forall (λ g, match g with Reserve _ now => a <= now <= a + secondFactorLockout | WasRight s => s ≠ username end) l →
  looked_at username l t <= maxSecondFactorFailures ∧
  looked_at username l t = looked_at username (filter (λ g, whose g = username) l) t ∧
  (∀ name now, secondFactor (wait name now t).2 = secondFactor t ∧
     secondFactor (recordFailure name now t).2 = secondFactor t ∧ secondFactor (recordSuccess name t).2 = secondFactor t).
Proof.
  intros Hc Hl. split_and!.
  - rewrite looked_at_tried. apply (tried_limit maxSecondFactorFailures secondFactorLockout ltac:(done) username a); [|done]. intros p Hp. unfold answers_of in Hp.
    rewrite lookup_fmap in Hp. destruct (secondFactor t !! username) as [r|] eqn:Er; [|done]. injection Hp as <-. by apply Hc.
  - rewrite !looked_at_tried. by apply tried_filter.
  - intros name now. split_and!; [|by destruct (recordFailure_run name now t) as (? & -> & _ & _ & ?)|done].
    by destruct (wait_run name now t) as (? & -> & ?).
Qed.
End throttle.

Lemma guessing_slows_witness :
  next_wait "ada" 50 (failed_at "ada" (recordSuccess "ada" (newLoginThrottle (C := (toy_cache attempts)))).2 [1; 2; 3]) = Ok (10 ^ 9) ∧
  (∀ d, next_wait "ada" 50 (failed_at "ada" (newLoginThrottle (C := (toy_cache attempts))) (repeat 1 20)) = Ok d → d <= loginThrottleMax).
Proof.
  assert (Forall (λ x, 0 <= x <= 0 + loginThrottleReset) [1; 2; 3]) as Ht by (repeat constructor; vm_compute; discriminate).
  assert (0 <= 50 <= 0 + loginThrottleReset) as Hn by (split; vm_compute; discriminate).
  destruct (guessing_slows "ada" 0 [1; 2; 3] 50 (newLoginThrottle (C := (toy_cache attempts))) Ht Hn) as (_ & Hw & Hm & _).
  split; [rewrite Hw; reflexivity|intros d; apply Hm].
Defined.
Definition demo_answers : list guess := (λ n, Reserve "ada" (Z.of_nat n)) <$> seq 0 30.
Lemma second_step_limit_witness :
  looked_at "ada" (WasRight "bob" :: demo_answers) (newLoginThrottle (C := (toy_cache attempts))) = 10 ∧
  looked_at "ada" (WasRight "bob" :: demo_answers) (newLoginThrottle (C := (toy_cache attempts))) <= maxSecondFactorFailures.
Proof.
  split; [vm_compute; reflexivity|].
  assert (∀ r, secondFactor (newLoginThrottle (C := (toy_cache attempts))) !! "ada" = Some r → 0 <= a_failures r) as Hc
    by (intros r; vm_compute; discriminate).
  assert (Forall (λ g, match g with Reserve _ now => 0 <= now <= 0 + secondFactorLockout
    | WasRight s => s ≠ "ada" end) (WasRight "bob" :: demo_answers)) as Hl.
  { constructor; [discriminate|]. apply Forall_fmap, Forall_seq. intros j Hj. cbn. unfold secondFactorLockout. lia. }
  exact (proj1 (second_step_limit (C := (toy_cache attempts)) "ada" 0 _ newLoginThrottle Hc Hl)).
Defined.
