(* ===== verification/SignInTheorems.v ===== *)
(** * The properties of the sign-in

    Who is signed in and who is not, what guessing costs, and how many answers
    the second step takes. *)
From S2P Require Import Limiter.
From S2P Require Import Prelude GoText GoQuote GoNet Network Encoding TextFacts Storage.
From S2P Require Import AuthSession WireGuard Devices Routes Manager AuditLog Totp Passkeys Passwords.
From S2P Require Import TwoFactor TwoFactorSpecs PasskeySpecs ApiTokens WebSessions WebSessionTheorems Api ApiUsers.
From S2P Require Import Throttle SignIn AuthConfig WebServer ApiSpecs SignInSpecs InMemory InMemoryLaws.
From S2P Require Import DeviceTheorems Toys.

Section doors.
  Context {S W C : Type} `{StorageLaws S} `{PasswordHashing} `{UpperTable} `{WebAuthn} `{LRU attempts C} `{UnicodeTables}.
  Variables (maxAge : Z) (other : bool) (factor : option (option Request → string * string)) (users : list string).
  Notation rt := (newRuntime (S := S) (W := W) maxAge other factor).
  Implicit Types (srv : Server S W) (t : Door S W C) (r : SignInRequest).
  Notation house t := (data (site t)).

Lemma on_site_reads {A} (m : M (Server S W) A) t x t' : reads m → ok (house t) → on_site m t = (x, t') →
  t' = t ∧ m (site t) = (x, site t).
Proof.
  intros Hm Hok E. unfold on_site, zoom in E. destruct (m (site t)) as [y srv'] eqn:Em. injection E as <- <-.
  apply Hm in Em as Hs; [|done]. rewrite Hs in Em |- *. by destruct t.
Qed.
Lemma on_site_run {A} (m : M (Server S W) A) t x t' : on_site m t = (x, t') →
  m (site t) = (x, site t') ∧ throttle t' = throttle t.
Proof. intros E. unfold on_site, zoom in E. destruct (m (site t)) eqn:Em. by injection E as <- <-. Qed.
Lemma on_throttle_site {A} (m : M (Throttle C) A) t x t' : on_throttle m t = (x, t') →
  site t' = site t ∧ m (throttle t) = (x, throttle t').
Proof. intros E. unfold on_throttle, zoom in E. destruct (m (throttle t)) eqn:Em. by injection E as <- <-. Qed.

(** Where the site is the same as before, whatever became of the throttle. *)
Lemma site_bind {A B} (m : M (Throttle C) A) (k : A → M (Door S W C) B) t x t' : never_fails m →
  m_bind (on_throttle m) k t = (x, t') → ∃ a t1, site t1 = site t ∧ m (throttle t) = (Ok a, throttle t1) ∧ k a t1 = (x, t').
Proof.
  intros Hn E. unfold m_bind in E. destruct (on_throttle m t) as [y t1] eqn:Em. apply on_throttle_site in Em as [Hs Em].
  specialize (Hn (throttle t)). rewrite Em in Hn. destruct y as [a|e]; [|done]. by exists a, t1.
Qed.
Lemma reads_bind_site {A B} (m : M (Server S W) A) (k : A → M (Door S W C) B) t x t' : reads m → never_fails m →
  ok (house t) → m_bind (on_site m) k t = (x, t') → ∃ a, m (site t) = (Ok a, site t) ∧ k a t = (x, t').
Proof.
  intros Hr Hn Hok E. unfold m_bind in E. destruct (on_site m t) as [y t1] eqn:Em.
  apply on_site_reads in Em as [-> Em]; [|done..]. specialize (Hn (site t)). rewrite Em in Hn.
  destruct y as [a|e]; [|done]. by exists a.
Qed.

Lemma never_failures username now : never_fails (St := Throttle C) (failures username now).
Proof. intros t. destruct (failures_run username now t) as (t' & -> & _). done. Qed.
Lemma never_wait username now : never_fails (St := Throttle C) (wait username now).
Proof. intros t. destruct (wait_run username now t) as (t' & -> & _). done. Qed.
Lemma never_recordFailure username now : never_fails (St := Throttle C) (recordFailure username now).
Proof. intros t. destruct (recordFailure_run username now t) as (t' & -> & _). done. Qed.
Lemma never_recordSuccess username : never_fails (St := Throttle C) (recordSuccess username).
Proof. done. Qed.
Lemma never_begin username now : never_fails (St := Throttle C) (beginSecondFactor username now).
Proof. intros t. destruct (beginSecondFactor_reserve username now t) as [-> _]. done. Qed.
Lemma never_succeeded username : never_fails (St := Throttle C) (secondFactorSucceeded username).
Proof. done. Qed.
Lemma wait_nonneg username now (t : Throttle C) d (t' : Throttle C) : wait username now t = (Ok d, t') → 0 <= d.
Proof. destruct (wait_run username now t) as (t1 & -> & _). intros [= <- _]. apply delay_after_nonneg. Qed.

Lemma never_factor subject : never_fails (TwoFactorRequired rt subject).
Proof.
  unfold TwoFactorRequired. cbn [rt_twoFactor newRuntime]. destruct factor; [|apply never_ret].
  apply never_on_accounts, never_Enabled.
Qed.
Lemma never_codes subject : never_fails (TwoFactorCodes rt subject).
Proof.
  unfold TwoFactorCodes. cbn [rt_twoFactor newRuntime]. destruct factor; [|apply never_ret].
  apply never_on_accounts, never_bind; [apply never_known_user|]. intros. apply never_ret.
Qed.
Lemma never_passkey subject : never_fails (HasPasskey rt subject).
Proof.
  unfold HasPasskey. cbn [rt_passkeys newRuntime]. destruct factor; [|apply never_ret]. apply never_on_data, never_Has.
Qed.
(** The page of the second step changes nothing. *)
Lemma renderCodePage_run status username message r t x t' : ok (house t) →
  renderCodePage rt status username message r t = (x, t') → t' = t ∧ ∃ p, x = Ok (Page status p, cookie r).
Proof.
  intros Hok E. unfold renderCodePage in E.
  apply reads_bind_site in E as (a & _ & E); [|apply reads_HasPasskey|apply never_passkey|done].
  apply reads_bind_site in E as (b & _ & E); [|apply reads_TwoFactorCodes|apply never_codes|done].
  injection E as <- <-. split; [done|]. by eexists.
Qed.
Lemma start_session_run r provider u now d t x t' : ok (house t) → 0 < maxAge →
  start_session rt r (signed_in provider u) now d t = (x, t') → ∃ reply c, x = Ok (reply, c) ∧
  (reply = Done → ok (house t') ∧ ∃ k, c = Some k ∧ ck_Pending k = None ∧
     checkLogin (identity_of provider u) (site t) = (Ok tt, site t) ∧
     opens (view (house t')) (ck_ID k) now (valid_identity (identity_of provider u))) ∧
  (reply ≠ Done → c = cookie r).
Proof.
  intros Hok Hage E. unfold start_session, m_bind, m_try in E.
  destruct (on_site _ t) as [y t1] eqn:Es. apply on_site_run in Es as [Es _]. injection E as <- <-.
  destruct y as [c|e].
  - apply rt_SetSession_done in Es as (Hok' & Hc & Ho & Hp); [|done..]. eexists _, _. split; [done|].
    split; [|done]. intros _. split; [done|]. by exists c.
  - eexists _, _. split; [done|]. split; [|done]. intros [=]. unfold sessionNotStarted in *. by destruct (as_refused e).
Qed.

(** What a sign-in has to show. *)
Definition password_step r (u : string) srv : Prop :=
  values_Get (PostForm r) "passkey" = "" ∧ values_Get (PostForm r) "code" = "" ∧
  values_Get (PostForm r) "username" = u ∧ right_credentials users u (values_Get (PostForm r) "password") srv.
(** Their password was right a moment ago. *)
Definition waits_for_proof (s : AuthSession) now (u : string) : Prop :=
  ∃ p, as_Pending s = Some p ∧ pl_Subject p = u ∧ u ≠ "" ∧ pl_Provider p = SimpleAuthProvider ∧ now < pl_Until p.
Lemma pending_user_ok s now u : pending_user s now = Some u → waits_for_proof s now u.
Proof.
  unfold pending_user, waits_for_proof, PendingLogin_Valid. destruct (as_Pending s) as [p|]; [|done].
  destruct (negb (String.eqb (pl_Subject p) "") && (now <? pl_Until p) && String.eqb (pl_Provider p) SimpleAuthProvider) eqn:E; [|done].
  rewrite !andb_true_iff, negb_true_iff, String.eqb_neq, Z.ltb_lt, String.eqb_eq in E. intros [= <-].
  destruct E as [[? ?] ?]. by exists p.
Qed.
Definition second_step_proved r now t (u : string) now' : Prop :=
  ∃ s srv1, rt_GetSession r now (site t) = (Ok s, srv1) ∧ waits_for_proof s now u ∧
    (beginSecondFactor u now (throttle t)).1 = Ok true ∧
    let answer := values_Get (PostForm r) "passkey" in let code := values_Get (PostForm r) "code" in
    if negb (String.eqb answer "")
    then is_ok (FinishPasskeyLogin rt (http r) u answer now' srv1).1 = true
    else code ≠ "" ∧ (CheckTwoFactor rt u code now' srv1).1 = Ok true.

Lemma never_accept subject state : never_fails (accept (S := S) subject state).
Proof. apply never_bind; [apply never_try|]. intros. apply never_ret. Qed.
Lemma never_Check subject code now : never_fails (Check (S := S) subject code now).
Proof.
  unfold Check. apply never_bind; [apply never_known_user|]. intros [user|]; [|apply never_ret].
  apply never_if; [apply never_ret|]. cbv zeta. destruct (CheckTOTPStep _ _ _) as [step []].
  - apply never_if; [apply never_ret|apply never_accept].
  - destruct (useRecoveryCode _ _) as [rest used]. apply never_if; [apply never_ret|apply never_accept].
Qed.

Lemma second_step_run r now d wrong proves t x t' : ok (house t) → 0 < maxAge →
  (∀ u now, never_fails (proves u now)) →
  (∀ u now srv y srv', ok (data srv) → proves u now srv = (y, srv') → ok (data srv')) →
  second_step rt r now d wrong proves t = (x, t') → ∃ reply c, x = Ok (reply, c) ∧
  (reply = Done → ok (house t') ∧ ∃ u k now' s srv1, now <= now' ∧ c = Some k ∧ ck_Pending k = None ∧
     opens (view (house t')) (ck_ID k) now' (valid_identity (identity_of SimpleAuthProvider u)) ∧
     rt_GetSession r now (site t) = (Ok s, srv1) ∧ pending_user s now = Some u ∧
     (beginSecondFactor u now (throttle t)).1 = Ok true ∧ (proves u now' srv1).1 = Ok true) ∧
  (reply ≠ Done → c = cookie r).
Proof.
  intros Hok Hage Hn Hk E. unfold second_step, pending_of in E.
  unfold m_bind at 1 in E. unfold m_bind at 1, m_try in E.
  destruct (on_site (rt_GetSession r now) t) as [y t1] eqn:Eg. apply on_site_run in Eg as [Eg Ht1].
  cbn iota beta in E. unfold m_ret at 1 in E.
  assert (ok (house t1)) as Hok1.
  { apply on_data_run in Eg as (s' & Eg & ->). by eapply GetSession_ok. }
  destruct y as [s|e]; [|injection E as <- <-; by eexists _, _].
  destruct (pending_user s now) as [u|] eqn:Epu; [|injection E as <- <-; by eexists _, _].
  apply site_bind in E as (allowed & t2 & Hs2 & Eb & E); [|apply never_begin].
  destruct allowed; cbn [negb] in E.
  2:{ apply renderCodePage_run in E as (_ & p & ->); [|by rewrite Hs2]. by eexists _, _. }
  apply site_bind in E as (waited & t3 & Hs3 & Ew & E); [|apply never_wait].
  apply wait_nonneg in Ew. unfold m_bind at 1 in E.
  destruct (on_site (proves u (now + waited)) t3) as [z t4] eqn:Ep. apply on_site_run in Ep as [Ep _].
  rewrite Hs3, Hs2 in Ep. pose proof (Hn u (now + waited) (site t1)) as Hz. rewrite Ep in Hz.
  destruct z as [right|e]; [|done]. pose proof (Hk _ _ _ _ _ Hok1 Ep) as Hok4.
  destruct right; cbn [negb] in E.
  - apply site_bind in E as (? & t5 & Hs5 & _ & E); [|apply never_recordSuccess].
    apply site_bind in E as (? & t6 & Hs6 & _ & E); [|apply never_succeeded].
    assert (site t6 = site t4) as Hs by congruence.
    apply start_session_run in E as (reply & c & -> & Hdone & Hnot); [|by rewrite Hs|done].
    eexists _, _. split; [done|]. split; [|done]. intros Hd. destruct (Hdone Hd) as (Hok' & k & -> & Hpk & _ & Ho).
    split; [done|]. exists u, k, (now + waited), s, (site t1). split_and!; try done; [lia| |].
    + rewrite Ht1 in Eb. by rewrite Eb.
    + by rewrite Ep.
  - apply site_bind in E as (? & t5 & Hs5 & _ & E); [|apply never_recordFailure].
    apply renderCodePage_run in E as (_ & p & ->); [|by rewrite Hs5]. by eexists _, _.
Qed.
Lemma never_UserPassword subject : never_fails (UserPassword (S := S) (W := W) subject).
Proof. apply never_bind; [apply never_try|]. intros. apply never_ret. Qed.
Lemma never_checkCreds l u p : never_fails (checkCreds rt l u p).
Proof.
  induction l as [|e l IH]; [apply never_ret|]. cbn [checkCreds]. destruct (parsehtpassword e) as [[name entry]|]; [|done].
  apply never_if; [done|]. apply never_bind; [apply never_UserPassword|]. intros [hash from]. apply never_ret.
Qed.
Lemma reads_checkCreds l u p : reads (checkCreds rt l u p).
Proof.
  induction l as [|e l IH]; [apply reads_ret|]. cbn [checkCreds]. destruct (parsehtpassword e) as [[name entry]|]; [|done].
  apply reads_if; [done|]. apply reads_bind; [apply reads_UserPassword|]. intros [hash from]. apply reads_ret.
Qed.
(** The password was right, and the second step is to come. *)
Definition half_way (u : string) now (k : Cookie) : Prop :=
  ck_ID k = "" ∧ ck_Pending k = Some (mkPending u SimpleAuthProvider (now + pendingFor)).
Lemma askForCode_run r u now d t x t' : ok (house t) → askForCode rt r u now d t = (x, t') →
  ∃ reply c, x = Ok (reply, c) ∧ reply ≠ Done ∧ (c = cookie r ∨ ∃ k, c = Some k ∧ half_way u now k).
Proof.
  intros Hok E. unfold askForCode in E. unfold m_bind at 1, m_try in E.
  destruct (on_site _ t) as [y t1] eqn:Es. apply on_site_run in Es as [Es _].
  destruct y as [c|e]; [|injection E as <- <-; eexists _, _; split_and!; [done..|by left]].
  unfold rt_SetSession in Es. cbn [as_Identity] in Es.
  apply m_bind_ok in Es as ([] & srv1 & Ec & Es). injection Ec as <-.
  apply m_bind_ok in Es as (c' & srv2 & Es & Er). injection Er as <- Hsite.
  apply on_data_run in Es as (s' & Es & ->). pose proof (SetSession_keeps _ _ _ _ _ _ _ _ _ _ _ Hok Es) as Hok'.
  assert (half_way u now c') as Hhalf.
  { unfold SetSession in Es. apply m_bind_ok in Es as (? & s1 & _ & Es). cbn [as_Identity as_ID] in Es.
    rewrite bool_decide_eq_false_2 in Es by naive_solver. cbn [andb] in Es. unfold m_bind at 1, m_ret at 1 in Es.
    apply m_bind_ok in Es as (? & s2 & _ & Es). injection Es as <- <-. by split. }
  unfold m_bind in E. destruct (renderCodePage rt 200 u "" r t1) as [z t2] eqn:Ep.
  apply renderCodePage_run in Ep as (_ & p & ->); [|by rewrite <- Hsite]. cbn in E. injection E as <- <-.
  eexists _, _. split_and!; [done..|]. right. by exists c'.
Qed.
Lemma first_step_run r u p now d t x t' : ok (house t) → 0 < maxAge → first_step rt users r u p now d t = (x, t') →
  ∃ reply c, x = Ok (reply, c) ∧
  (reply = Done → ok (house t') ∧ ∃ k now', now <= now' ∧ c = Some k ∧ ck_Pending k = None ∧
     opens (view (house t')) (ck_ID k) now' (valid_identity (identity_of SimpleAuthProvider u)) ∧
     right_credentials users u p (site t) ∧ TwoFactorRequired rt u (site t) = (Ok false, site t)) ∧
  (reply ≠ Done → c = cookie r ∨ ∃ k now', c = Some k ∧ half_way u now' k ∧ right_credentials users u p (site t)).
Proof.
  intros Hok Hage E. unfold first_step in E. set (attempted := _ && _) in E.
  assert (∃ waited t1, 0 <= waited ∧ site t1 = site t ∧
    (let! ok0 := (if attempted then on_site (checkCreds rt users u p) else m_ret false) in
     if ok0 then do! on_throttle (recordSuccess u); let! required := on_site (TwoFactorRequired rt u) in
       (if required then askForCode rt r u (now + waited) d else start_session rt r (sessionFor u) (now + waited) d)
     else do! (if attempted then on_throttle (recordFailure u (now + waited)) else m_ret tt);
       m_ret (Page 403 (mkPage "Invalid username or password" (rt_otherProviders rt) false false false), cookie r)) t1
    = (x, t')) as (waited & t1 & Hw & Hs1 & E1).
  { destruct attempted.
    - apply site_bind in E as (waited & t1 & Hs1 & Ew & E); [|apply never_wait]. apply wait_nonneg in Ew. by exists waited, t1.
    - by exists 0, t. }
  clear E. assert (ok (house t1)) as Hok1 by by rewrite Hs1.
  assert (x = Ok (Page 403 (mkPage "Invalid username or password" (rt_otherProviders rt) false false false), cookie r) ∨
    right_credentials users u p (site t) ∧ ∃ t2 : Door S W C, site t2 = site t ∧
      (let! required := on_site (TwoFactorRequired rt u) in
       if required then askForCode rt r u (now + waited) d else start_session rt r (sessionFor u) (now + waited) d) t2 = (x, t'))
    as [->|(Hright & t2 & Hs2 & E)]; [|by eexists _, _; split_and!; [done|done|by left]|].
  { destruct attempted.
    - apply reads_bind_site in E1 as (b & Ec & E1); [|apply reads_checkCreds|apply never_checkCreds|done].
      apply checkCreds_run in Ec as (_ & b' & [= <-] & Hb); [|done]. destruct b.
      + apply site_bind in E1 as (? & t2 & Hs2 & _ & E1); [|apply never_recordSuccess]. right.
        split; [rewrite <- Hs1; by apply Hb|]. exists t2. split; [congruence|done].
      + apply site_bind in E1 as (? & t2 & _ & _ & E1); [|apply never_recordFailure]. injection E1 as <- _. by left.
    - injection E1 as <- _. by left. }
  apply reads_bind_site in E as (required & Et & E); [|apply reads_TwoFactorRequired|apply never_factor|by rewrite Hs2].
  rewrite Hs2 in Et. destruct required.
  - apply askForCode_run in E as (reply & c & -> & Hne & Hc); [|by rewrite Hs2]. eexists _, _. split_and!; [done..|].
    intros _. destruct Hc as [->|(k & -> & Hk)]; [by left|right; by eauto].
  - apply start_session_run in E as (reply & c & -> & Hdone & Hnot); [|by rewrite Hs2|done]. eexists _, _. split; [done|].
    split; [|intros Hne; left; by apply Hnot]. intros Hd. destruct (Hdone Hd) as (Hok' & k & -> & Hp & _ & Ho).
    split; [done|]. exists k, (now + waited). split_and!; try done. lia.
Qed.
End doors.

(** C8 The password form. Somebody is signed in - the browser gets a cookie whose
    id opens a session of theirs - only with the password that counts for a user
    the configuration lists, when no second factor is asked of them, or with an
    accepted second factor while the cookie says that their password was right no
    more than five minutes ago and attempts are left. Every other answer leaves
    the cookie alone, or puts a pending sign-in into it after a right password:
    one without a session. *)
Theorem simple_sign_in {S W C} `{StorageLaws S} `{PasswordHashing} `{UpperTable} `{WebAuthn} `{LRU attempts C} `{UnicodeTables}
    maxAge other factor users r now d (t : Door S W C) x t' :
  ok (data (site t)) → 0 < maxAge →
  simpleAuthPostEndpoint (newRuntime maxAge other factor) users r now d t = (x, t') →
  ∃ reply c, x = Ok (reply, c) ∧
  (reply = Done → ∃ u k now', now <= now' ∧ c = Some k ∧ ck_Pending k = None ∧
     opens (view (data (site t'))) (ck_ID k) now' (valid_identity (identity_of SimpleAuthProvider u)) ∧
     (password_step users r u (site t) ∧
      TwoFactorRequired (newRuntime maxAge other factor) u (site t) = (Ok false, site t) ∨
      second_step_proved maxAge other factor r now t u now')) ∧
  (reply ≠ Done → c = cookie r ∨ ∃ u k now', c = Some k ∧ half_way u now' k ∧ password_step users r u (site t)).
Proof.
  intros Hok Hage E. unfold simpleAuthPostEndpoint in E.
  destruct (negb (String.eqb (Method (http r)) "POST")); [injection E as <- <-; eexists _, _; split_and!; [done..|by left]|].
  destruct (bool_decide (form_error r ≠ None)); [injection E as <- <-; eexists _, _; split_and!; [done..|by left]|].
  destruct (negb (String.eqb (values_Get (PostForm r) "passkey") "")) eqn:Ea.
  { apply second_step_run in E as (reply & c & -> & Hdone & Hnot); [|done..| |].
    - eexists _, _. split; [done|]. split; [|intros Hne; left; by apply Hnot]. intros Hd.
      destruct (Hdone Hd) as (_ & u & k & now' & s & srv1 & Hn & Hc & Hp & Ho & Hg & Hpu & Hb & Hpr). exists u, k, now'.
      split_and!; [done..|]. right. exists s, srv1. split_and!; [done|by apply pending_user_ok|done|]. cbv zeta. rewrite Ea.
      unfold m_bind, m_try in Hpr. destruct (FinishPasskeyLogin _ _ _ _ _ srv1) as [y srv2]. by destruct y.
    - intros u now0. apply never_bind; [apply never_try|]. intros. apply never_ret.
    - intros u now0 srv y srv' Hs Em. unfold m_bind, m_try in Em.
      destruct (FinishPasskeyLogin _ _ _ _ _ srv) as [z srv1] eqn:Ef. injection Em as _ <-.
      unfold FinishPasskeyLogin in Ef. cbn [rt_passkeys newRuntime] in Ef. destruct factor; [|by injection Ef as _ <-].
      apply on_data_run in Ef as (s' & Ef & ->). by apply FinishLogin_run in Ef as [Hs' _]. }
  apply negb_false_iff, String.eqb_eq in Ea.
  destruct (negb (String.eqb (values_Get (PostForm r) "code") "")) eqn:Ec.
  { apply second_step_run in E as (reply & c & -> & Hdone & Hnot); [|done..| |].
    - eexists _, _. split; [done|]. split; [|intros Hne; left; by apply Hnot]. intros Hd.
      destruct (Hdone Hd) as (_ & u & k & now' & s & srv1 & Hn & Hc & Hp & Ho & Hg & Hpu & Hb & Hpr). exists u, k, now'.
      split_and!; [done..|]. right. exists s, srv1. split_and!; [done|by apply pending_user_ok|done|]. cbv zeta. rewrite Ea. cbn [String.eqb negb].
      split; [|done]. by apply negb_true_iff, String.eqb_neq in Ec.
    - intros u now0. unfold CheckTwoFactor. cbn [rt_twoFactor newRuntime]. destruct factor; [|apply never_ret].
      apply never_on_accounts, never_Check.
    - intros u now0 srv y srv' Hs Em. unfold CheckTwoFactor in Em. cbn [rt_twoFactor newRuntime] in Em.
      destruct factor; [|by injection Em as _ <-]. unfold on_accounts, zoom in Em.
      destruct (Check _ _ _ _) as [z v] eqn:Ef. injection Em as _ <-. by apply Check_run in Ef as [Hs' _]. }
  apply negb_false_iff, String.eqb_eq in Ec.
  apply first_step_run in E as (reply & c & -> & Hdone & Hnot); [|done..]. eexists _, _. split; [done|]. split.
  - intros Hd. destruct (Hdone Hd) as (_ & k & now' & Hn & Hc & Hp & Ho & Hr & Ht). eexists _, k, now'.
    split_and!; [done..|]. left. by split_and!.
  - intros Hne. destruct (Hnot Hne) as [->|(k & now' & -> & Hk & Hr)]; [by left|right]. eexists _, k, now'. by split_and!.
Qed.

(** Basic auth. Only the password that counts for a listed user signs them in,
    and only somebody without a second factor, for which there is nowhere to ask;
    no other answer touches the cookie. *)
Theorem basic_sign_in {S W C} `{StorageLaws S} `{PasswordHashing} `{UpperTable} `{WebAuthn} `{LRU attempts C} `{UnicodeTables}
    maxAge other factor users r now d (t : Door S W C) x t' :
  ok (data (site t)) → 0 < maxAge →
  basicAuthLogin (newRuntime maxAge other factor) users r now d t = (x, t') →
  ∃ reply c, x = Ok (reply, c) ∧
  (reply = Done → let '(u, p) := basic_credentials r in ∃ k now', now <= now' ∧ c = Some k ∧ ck_Pending k = None ∧
     u ≠ "" ∧ slen u <= maxUsernameLength ∧ right_credentials users u p (site t) ∧
     TwoFactorRequired (newRuntime maxAge other factor) u (site t) = (Ok false, site t) ∧
     opens (view (data (site t'))) (ck_ID k) now' (valid_identity (identity_of BasicAuthProvider u))) ∧
  (reply ≠ Done → c = cookie r).
Proof.
  intros Hok Hage E. unfold basicAuthLogin in E. destruct (basic_credentials r) as [u p].
  set (attempted := _ && _) in E. destruct attempted eqn:Ea.
  - apply site_bind in E as (waited & t1 & Hs1 & Ew & E); [|apply never_wait]. apply wait_nonneg in Ew. cbv zeta in E.
    apply reads_bind_site in E as (b & Ec & E); [|apply reads_checkCreds|apply never_checkCreds|by rewrite Hs1].
    rewrite Hs1 in Ec. apply checkCreds_run in Ec as (_ & b' & [= <-] & Hb); [|done]. destruct b.
    + apply reads_bind_site in E as (required & Et & E); [|apply reads_TwoFactorRequired|apply never_factor|by rewrite Hs1].
      rewrite Hs1 in Et. destruct required; [injection E as <- <-; eexists _, _; split_and!; [done| |done];
        by destruct (bool_decide (basic_auth r ≠ None))|].
      apply site_bind in E as (? & t2 & Hs2 & _ & E); [|apply never_recordSuccess].
      apply start_session_run in E as (reply & c & -> & Hdone & Hnot); [|by rewrite Hs2, Hs1|done]. eexists _, _.
      split; [done|]. split; [|done]. intros Hd. destruct (Hdone Hd) as (_ & k & -> & Hp & _ & Ho). exists k, (now + waited).
      unfold attempted in Ea. apply andb_true_iff in Ea as [Hu%negb_true_iff%String.eqb_neq Hl%Z.leb_le].
      split_and!; try done; [lia|by apply Hb].
    + apply site_bind in E as (? & t2 & _ & _ & E); [|apply never_recordFailure]. injection E as <- <-.
      eexists _, _. split_and!; [done| |done]. by destruct (bool_decide (basic_auth r ≠ None)).
  - unfold m_bind, m_ret in E. injection E as <- <-. eexists _, _. split_and!; [done| |done]. by destruct (bool_decide (basic_auth r ≠ None)).
Qed.

(** ** Instances for the witnesses *)
Import Demo.
Notation DemoDoor := (Door InMemoryStorage Peers (toy_cache attempts)).
Definition demo_draws : Draws := mkDraws "row-1" [1] (Ok tt) [2].
Definition demo_door : DemoDoor := mkDoor (mkServer (New NewMemoryStorage ∅) ∅ []) newLoginThrottle.
Definition typed (username password : string) : SignInRequest :=
  mkSignIn (mkRequest "POST" "/signin/simpleauth" "vpn" "192.0.2.1:5" false [])
    [("username", username); ("password", password)] [] None None None.
Definition sent (username password : string) : SignInRequest :=
  mkSignIn (mkRequest "GET" "/signin/0" "vpn" "192.0.2.1:5" false []) [] [] None (Some (username, password)) None.
Definition listed : list string := ["broken"; "ada:secret"].
Notation demo_rt := (newRuntime (S := InMemoryStorage) (W := Peers) 3600 false None).

Lemma demo_door_ok : ok (data (site demo_door)).
Proof. apply NewMemoryStorage_ok. Qed.

Lemma simple_sign_in_witness : ∃ k t', simpleAuthPostEndpoint demo_rt listed (typed "ada" "secret") 7 demo_draws demo_door =
    (Ok (Done, Some k), t') ∧
  ∃ u now', opens (view (data (site t'))) (ck_ID k) now' (valid_identity (identity_of SimpleAuthProvider u)).
Proof.
  destruct (simpleAuthPostEndpoint demo_rt listed (typed "ada" "secret") 7 demo_draws demo_door) as [x t'] eqn:E.
  assert (∃ k, x = Ok (Done, Some k)) as (k & ->).
  { replace x with (simpleAuthPostEndpoint demo_rt listed (typed "ada" "secret") 7 demo_draws demo_door).1 by (rewrite E; reflexivity).
    eexists. vm_compute. reflexivity. }
  exists k, t'. split; [reflexivity|].
  destruct (simple_sign_in 3600 false None listed (typed "ada" "secret") 7 demo_draws demo_door _ _ demo_door_ok
    eq_refl E) as (reply & c & Ex & Hdone & _). injection Ex as <- <-.
  destruct (Hdone eq_refl) as (u & k' & now' & _ & [= <-] & _ & Ho & _). exists u, now'. exact Ho.
Defined.
Lemma basic_sign_in_witness : ∃ k t', basicAuthLogin demo_rt listed (sent "ada" "secret") 7 demo_draws demo_door =
    (Ok (Done, Some k), t') ∧
  ∃ now', opens (view (data (site t'))) (ck_ID k) now' (valid_identity (identity_of BasicAuthProvider "ada")).
Proof.
  destruct (basicAuthLogin demo_rt listed (sent "ada" "secret") 7 demo_draws demo_door) as [x t'] eqn:E.
  assert (∃ k, x = Ok (Done, Some k)) as (k & ->).
  { replace x with (basicAuthLogin demo_rt listed (sent "ada" "secret") 7 demo_draws demo_door).1 by (rewrite E; reflexivity).
    eexists. vm_compute. reflexivity. }
  exists k, t'. split; [reflexivity|].
  destruct (basic_sign_in 3600 false None listed (sent "ada" "secret") 7 demo_draws demo_door _ _ demo_door_ok
    eq_refl E) as (reply & c & Ex & Hdone & _). injection Ex as <- <-.
  destruct (Hdone eq_refl) as (k' & now' & _ & [= <-] & _ & _ & _ & _ & _ & Ho). exists now'. exact Ho.
Defined.
