(* ===== verification/WebServerTheorems.v ===== *)
(** * The properties of the way of a request

    Who a request can act as once it reaches the API or the web UI, whose account
    a sign-in can open, and what the claims of somebody are. *)
From S2P Require Import Limiter.
From S2P Require Import Prelude GoText GoQuote GoNet ClientAddr Network Encoding TextFacts Storage.
From S2P Require Import AuthSession WireGuard Devices Routes Manager AuditLog Totp Passkeys Passwords.
From S2P Require Import TwoFactor TwoFactorSpecs PasskeySpecs ApiTokens WebSessions ApiTokenTheorems WebSessionTheorems Api.
From S2P Require Import ApiUsers Throttle SignIn AuthConfig WebServer ApiSpecs SignInSpecs InMemory.
From S2P Require Import InMemoryLaws DeviceTheorems Toys SignInTheorems.

(** ** One person per subject *)
Section subjects.
  Context {S W : Type} `{StorageLaws S} `{UnicodeTables}.
  Implicit Types (srv : Server S W).

(** The providers a subject is known from. *)
Definition known_from (a : Abs) (subject provider : string) : Prop :=
  match users a !! subject with
  | Some row => User.Provider row = provider
  | None => ∃ k d, devices a !! k = Some d ∧ Device.Owner d = subject ∧ Device.OwnerProvider d = provider
  end.
Lemma known_providers_run subject srv known srv' : ok (data srv) →
  known_providers subject srv = (Ok known, srv') → ∀ p, known_from (view (data srv)) subject p → p ∈ known.
Proof.
  intros Hok E p. unfold known_providers in E. unfold m_bind at 1, m_try at 1 in E.
  destruct (on_data (GetUser subject) srv) as [x srv1] eqn:Eg. apply on_data_run in Eg as (s1 & Eg & ->).
  unfold known_from. destruct x as [row|e].
  - apply (found_ok _ _ _ _ _ _ _ (law_GetUser _)) in Eg as [-> Hrow]; [|done]. simpl in Hrow. rewrite Hrow.
    injection E as <- _. intros ->. by left.
  - apply (found_missing _ _ _ _ _ _ _ (law_GetUser _)) in Eg as [-> Hm]; [|done].
    destruct (error_is e ErrUserNotFound) eqn:Ee; [|done]. rewrite (Hm eq_refl).
    apply m_bind_ok in E as (devs & srv2 & E & Er). injection Er as <- _.
    unfold m_wrap in E. destruct (on_data (List_ subject) _) as [y srv3] eqn:El. destruct y as [l|]; [|done].
    injection E as <- _. apply on_data_run in El as (s2 & El & _).
    apply (query_ok _ _ _ _ _ (law_List subject)) in El as [_ Hl]; [|exact Hok]. simpl in Hl.
    intros (k & d & Hd & Ho & <-). apply list_elem_of_fmap. exists d. split; [done|]. unfold lists_rows in Hl. rewrite Hl.
    apply list_elem_of_filter. split; [by right|]. apply list_elem_of_fmap. exists (k, d). split; [done|]. by apply elem_of_map_to_list.
Qed.
Lemma check_known_ok i known u : check_known i known = Ok u →
  Forall (λ p, p = "" ∨ sameProvider p (Identity.Provider i) = true) known.
Proof.
  induction known as [|p known IH]; [by constructor|]. cbn [check_known].
  destruct (String.eqb_spec p "") as [->|]; [intros ?; constructor; auto|]. simpl.
  destruct (sameProvider p (Identity.Provider i)) eqn:Es; [|done]. intros ?. constructor; auto.
Qed.
Lemma checkLogin_ok i srv u srv' : ok (data srv) → checkLogin i srv = (Ok u, srv') → ∀ p,
  known_from (view (data srv)) (Identity.Subject i) p → p = "" ∨ sameProvider p (Identity.Provider i) = true.
Proof.
  intros Hok E p Hp. unfold checkLogin in E. apply m_bind_ok in E as (known & srv1 & Ek & E).
  pose proof (known_providers_run _ _ _ _ Hok Ek p Hp) as Hin. injection E as E _. apply check_known_ok in E.
  rewrite Forall_forall in E. by apply E.
Qed.
End subjects.

(** C11 An account is one person. The data of a user - devices, tokens, policies -
    is kept under the subject alone; whoever signs in through another provider
    with the subject of somebody who is known here gets no session, and nothing
    is written. The two built-in providers share their users. *)
Theorem one_person_per_subject {S W} `{StorageLaws S} `{PasswordHashing} `{UpperTable} `{WebAuthn} `{UnicodeTables}
    maxAge other factor r s i p now d (srv : Server S W) x srv' :
  ok (data srv) → as_Identity s = Some i → known_from (view (data srv)) (Identity.Subject i) p → p ≠ "" →
  Identity.Provider i ≠ p → (HasPassword p && HasPassword (Identity.Provider i) = false) →
  rt_SetSession (newRuntime maxAge other factor) r s now d srv = (x, srv') → (∃ e, x = Err e) ∧ srv' = srv.
Proof.
  intros Hok Hi Hp Hne Hother Hb E. unfold rt_SetSession in E. rewrite Hi in E. cbn [rt_checkLogin newRuntime] in E.
  unfold m_bind at 1 in E. destruct (checkLogin i srv) as [y srv1] eqn:Ec.
  pose proof (reads_checkLogin _ _ _ _ Hok Ec) as ->. destruct y as [u|e]; [|injection E as <- <-; split; [by exists e|done]].
  exfalso. destruct (checkLogin_ok _ _ _ _ Hok Ec p Hp) as [|Hs]; [done|]. unfold sameProvider in Hs.
  rewrite Hb, orb_false_r in Hs. by apply String.eqb_eq in Hs.
Qed.

(** ** Which provider a name is *)
Section providers.
  Context `{UnicodeTables}.

(** The OpenID Connect provider that is configured under a name. *)
Definition configured_as (c : AuthConfig) (name : string) (x : OIDCConfig) : Prop :=
  OIDC (Embedded c) = Some x ∧ oidc_Name x = name ∨
  ∃ key p, (key, Some p) ∈ Multiple c ∧ OIDC p = Some x ∧ or_key key (oidc_Name x) = name.
Definition oidc_at (name : string) (e : string * option ProviderConfig) : list OIDCConfig :=
  match e.2 with
  | Some p => match OIDC p with
              | Some c => if String.eqb (or_key e.1 (oidc_Name c)) name then [c] else []
              | None => []
              end
  | None => []
  end.
Definition embedded_at (name : string) (c : AuthConfig) : list OIDCConfig :=
  match OIDC (Embedded c) with Some x => if String.eqb (oidc_Name x) name then [x] else [] | None => [] end.
Definition candidates (c : AuthConfig) (name : string) : list OIDCConfig :=
  embedded_at name c ++ mjoin (oidc_at name <$> Multiple c).
Lemma oidc_at_spec name e x : x ∈ oidc_at name e ↔
  ∃ p, e.2 = Some p ∧ OIDC p = Some x ∧ or_key e.1 (oidc_Name x) = name.
Proof.
  unfold oidc_at. destruct e as [key [p|]]; simpl; [|set_solver]. destruct (OIDC p) as [c|] eqn:Ec; [|set_solver].
  destruct (String.eqb_spec (or_key key (oidc_Name c)) name) as [E|E]; rewrite ?list_elem_of_singleton.
  - split; [intros ->; by exists p|]. intros (p' & [= <-] & Hp & _). congruence.
  - split; [set_solver|]. intros (p' & [= <-] & Hp & Hn). congruence.
Qed.
Lemma embedded_at_spec name c x : x ∈ embedded_at name c ↔ OIDC (Embedded c) = Some x ∧ oidc_Name x = name.
Proof.
  unfold embedded_at. destruct (OIDC (Embedded c)) as [y|]; [|set_solver].
  destruct (String.eqb_spec (oidc_Name y) name); rewrite ?list_elem_of_singleton; naive_solver set_solver.
Qed.
Lemma candidates_spec c name x : x ∈ candidates c name ↔ configured_as c name x.
Proof.
  unfold candidates, configured_as. rewrite elem_of_app, embedded_at_spec, list_elem_of_join. apply or_iff_compat_l. split.
  - intros (l & Hx & (e & -> & He)%list_elem_of_fmap). apply oidc_at_spec in Hx as (p & Hp & Hc & Hn).
    exists e.1, p. split_and!; try done. by destruct e as [? o]; simpl in *; subst o.
  - intros (key & p & Hin & Hc & Hn). exists (oidc_at name (key, Some p)). split; [|by apply list_elem_of_fmap_2].
    apply oidc_at_spec. by exists p.
Qed.
Lemma find_multiple_head l name : name ≠ "" → Forall (λ e, e.2 ≠ None) l →
  find_multiple l name = Ok (head (mjoin (oidc_at name <$> l))).
Proof.
  intros Hn Hl. induction Hl as [|[key [p|]] l Hp Hl IH]; [done| |done]. cbn [find_multiple deref].
  cbn [fmap list_fmap mjoin list_join]. unfold oidc_at at 1. simpl. destruct (OIDC p) as [c|]; [|exact IH].
  unfold or_key. destruct (String.eqb_spec (oidc_Name c) "") as [->|He].
  - rewrite (proj2 (String.eqb_neq "" name)) by done. simpl. destruct (String.eqb key name); [done|exact IH].
  - rewrite andb_false_l, orb_false_r. destruct (String.eqb (oidc_Name c) name); [done|exact IH].
Qed.
Lemma findOIDCProvider_head c name : name ≠ "" → Forall (λ e, e.2 ≠ None) (Multiple c) →
  findOIDCProvider c name = Ok (head (candidates c name)).
Proof.
  intros Hn Hl. unfold findOIDCProvider, candidates, embedded_at. rewrite (find_multiple_head _ _ Hn Hl).
  destruct (OIDC (Embedded c)) as [x|]; [|done]. by destruct (String.eqb (oidc_Name x) name).
Qed.

(** Every candidate has an entry among the names that are checked. *)
Notation uses names name := (List.length (default [] (names !! name))).
Lemma uses_add names name name' where_ :
  uses (add_name name' where_ names) name = ((if String.eqb name' name then 1 else 0) + uses names name)%nat.
Proof.
  unfold add_name. destruct (String.eqb_spec name' name) as [->|]; [|by rewrite lookup_insert_ne].
  rewrite lookup_insert_eq. cbn [default id from_option]. rewrite length_app. simpl. lia.
Qed.
Lemma uses_named {A} (o : option A) f where_ names name : (uses names name <= uses (named o f where_ names) name)%nat.
Proof. destruct o; [|done]. cbn [named]. rewrite uses_add. lia. Qed.
Lemma uses_multiple names e name : (List.length (oidc_at name e) + uses names name <= uses (multiple_names names e) name)%nat.
Proof.
  destruct e as [key [p|]]; [|done]. cbn [multiple_names]. etrans; [|apply uses_named]. etrans; [|apply uses_named].
  unfold oidc_at. simpl. destruct (OIDC p) as [c|]; [|done]. cbn [named]. rewrite uses_add.
  by destruct (String.eqb (or_key key (oidc_Name c)) name).
Qed.
Lemma uses_candidates c name : (List.length (candidates c name) <= uses (identityProviderNames c) name)%nat.
Proof.
  unfold candidates, identityProviderNames. rewrite length_app.
  set (m := named (Github _) _ _ _). assert (List.length (embedded_at name c) <= uses m name)%nat as Hm.
  { unfold m. etrans; [|apply uses_named]. etrans; [|apply uses_named]. unfold embedded_at.
    destruct (OIDC (Embedded c)) as [x|]; [|done]. cbn [named]. rewrite uses_add. by destruct (String.eqb (oidc_Name x) name). }
  clearbody m. revert m Hm. generalize (List.length (embedded_at name c)). generalize (Multiple c). intros l.
  induction l as [|e l IH]; intros n m Hm; [simpl; lia|]. cbn [fold_left].
  change (mjoin (oidc_at name <$> e :: l)) with (oidc_at name e ++ mjoin (oidc_at name <$> l)). rewrite length_app.
  specialize (IH (List.length (oidc_at name e) + n)%nat (multiple_names m e)).
  pose proof (uses_multiple m e name). lia.
Qed.
Lemma check_githubs_ok l u : check_githubs l = Ok u → Forall (λ e : string * option ProviderConfig, e.2 ≠ None) l.
Proof.
  induction l as [|[name [p|]] l IH]; [by constructor| |done]. cbn [check_githubs deref rbind].
  destruct (check_github _ _); [|done]. intros E. constructor; [done|by apply IH].
Qed.
Lemma check_names_ok names sorted u : check_names names sorted = Ok u →
  ∀ name, name ∈ sorted → HasPassword name = false ∧ (uses names name <= 1)%nat.
Proof.
  induction sorted as [|n sorted IH]; [set_solver|]. cbn [check_names]. unfold check_name at 1.
  destruct (HasPassword n) eqn:Eh; [done|]. cbn [rbind].
  destruct (1 <? Z.of_nat (List.length (sort_Strings (default [] (names !! n))))) eqn:El; [done|]. intros E name Hin.
  apply elem_of_cons in Hin as [->|Hin]; [|by apply IH]. split; [done|]. apply Z.ltb_ge in El.
  unfold sort_Strings in El. rewrite merge_sort_Permutation in El. lia.
Qed.
Lemma Validate_ok c u : Validate c = Ok u → Forall (λ e, e.2 ≠ None) (Multiple c) ∧
  ∀ name, (uses (identityProviderNames c) name <= 1)%nat ∧ (HasPassword name = true → identityProviderNames c !! name = None).
Proof.
  intros E. unfold Validate in E. destruct (check_github _ _); [|done]. cbn [rbind] in E.
  destruct (check_githubs (Multiple c)) eqn:Eg; [|done]. apply check_githubs_ok in Eg. split; [done|]. cbn [rbind] in E.
  intros name. destruct (identityProviderNames c !! name) as [l|] eqn:En; [|simpl; split; [lia|done]].
  assert (name ∈ sort_Strings (map_to_list (identityProviderNames c)).*1) as Hin.
  { unfold sort_Strings. rewrite merge_sort_Permutation. apply list_elem_of_fmap. exists (name, l). split; [done|].
    by apply elem_of_map_to_list. }
  destruct (check_names_ok _ _ _ E _ Hin) as [Hb Hu]. rewrite En in Hu. split; [done|]. by rewrite Hb.
Qed.

(** C16 The providers of a valid configuration are told apart. Under every name
    there is at most one OpenID Connect provider, the one the requests of its
    users are checked against, in whatever order the map of providers is walked;
    and none goes by the name of a built-in provider, so that nobody from outside
    is taken for a user of the configuration. *)
Theorem providers_told_apart c name : Validate c = Ok tt → name ≠ "" → ∃ o, findOIDCProvider c name = Ok o ∧
  (∀ x, o = Some x ↔ configured_as c name x) ∧ (HasPassword name = true → o = None).
Proof.
  intros Hv Hn. apply Validate_ok in Hv as [Hl Hu]. destruct (Hu name) as [H1 Hb]. pose proof (uses_candidates c name) as Hc.
  exists (head (candidates c name)). split; [by apply findOIDCProvider_head|]. split.
  - intros x. rewrite <- candidates_spec. destruct (candidates c name) as [|y [|z l]]; simpl in *; [|rewrite list_elem_of_singleton; naive_solver|lia].
    by rewrite elem_of_nil.
  - intros Hp. rewrite (Hb Hp) in Hc. simpl in Hc. destruct (candidates c name); [done|simpl in Hc; lia].
Qed.
End providers.

(** ** The claims of somebody *)
(** C15 What a request's user may claim. The claims middleware leaves who somebody
    is alone. Somebody is an admin only with the claim of the session or as the
    configured administrator of a built-in provider; a user of an OpenID Connect
    provider with an access claim gets in only with that claim, and is told so
    otherwise. With a valid configuration nothing else fails. *)
Theorem claims_given `{UnicodeTables} admin auth i :
  (∀ i', claimsMiddleware admin auth i = Ok i' →
     Identity.Subject i' = Identity.Subject i ∧ Identity.Provider i' = Identity.Provider i ∧
     Identity.Name i' = Identity.Name i ∧ Identity.Email i' = Identity.Email i ∧
     (IsAdmin (Identity.Claims i') = true ↔ IsAdmin (Identity.Claims i) = true ∨
        (HasPassword (Identity.Provider i) = true ∧ Identity.Subject i = admin)) ∧
     (∀ c, findOIDCProvider auth (Identity.Provider i) = Ok (Some c) → AccessClaim c ≠ "" →
        claims_Has (Identity.Claims i') (AccessClaim c) "true" = true)) ∧
  (Validate auth = Ok tt → Identity.Provider i ≠ "" → ∀ e, claimsMiddleware admin auth i = Err e →
     e = LoginError NotAuthorized "User has no access" ∧ ∃ c, configured_as auth (Identity.Provider i) c ∧
       AccessClaim c ≠ "" ∧ claims_Has (Identity.Claims i) (AccessClaim c) "true" = false).
Proof.
  assert (∀ b, IsAdmin (Identity.Claims (if b : bool then with_Claims (MakeAdmin (Identity.Claims i)) i else i)) = true ↔
    IsAdmin (Identity.Claims i) = true ∨ b = true) as Hadmin.
  { intros [|]; [|naive_solver]. cbn [with_Claims Identity.Claims]. unfold IsAdmin. rewrite !claims_Has_spec.
    unfold MakeAdmin, claims_Add. rewrite elem_of_app, list_elem_of_singleton. naive_solver. }
  unfold claimsMiddleware. set (b := HasPassword _ && String.eqb _ _) in *.
  assert (b = true ↔ HasPassword (Identity.Provider i) = true ∧ Identity.Subject i = admin) as Hb
    by (unfold b; by rewrite andb_true_iff, String.eqb_eq).
  set (i1 := if b then _ else i). assert (Identity.Provider i1 = Identity.Provider i) as Hp by (unfold i1; by destruct b).
  rewrite Hp. split.
  - intros i' E. assert (i' = i1 ∧ ∀ c, findOIDCProvider auth (Identity.Provider i) = Ok (Some c) → AccessClaim c ≠ "" →
      claims_Has (Identity.Claims i1) (AccessClaim c) "true" = true) as [-> Hc].
    { destruct (findOIDCProvider auth (Identity.Provider i)) as [[c|]|e]; [|by injection E as <-|done]. cbn [rbind] in E.
      destruct (negb (String.eqb (AccessClaim c) "") && negb (claims_Has (Identity.Claims i1) (AccessClaim c) "true")) eqn:Ea;
        [done|]. injection E as <-. split; [done|]. intros c' [= <-] Hne%String.eqb_neq. rewrite Hne in Ea. simpl in Ea.
      by apply negb_false_iff in Ea. }
    split_and!; [by unfold i1; destruct b..| |done]. rewrite <- Hb. apply Hadmin.
  - intros Hv Hne e E. pose proof (Validate_ok _ _ Hv) as [Hl Hu].
    rewrite findOIDCProvider_head in E by done. cbn [rbind] in E.
    pose proof (uses_candidates auth (Identity.Provider i)) as Hn. destruct (Hu (Identity.Provider i)) as [_ Hbuilt].
    destruct (candidates auth (Identity.Provider i)) as [|c l] eqn:Ec; simpl in E; [done|].
    assert (i1 = i) as Hi.
    { unfold i1. destruct b; [|done]. destruct (proj1 Hb eq_refl) as [Eb _]. rewrite (Hbuilt Eb) in Hn. simpl in Hn. lia. }
    rewrite Hi in E. destruct (String.eqb_spec (AccessClaim c) ""); [done|].
    destruct (claims_Has (Identity.Claims i) (AccessClaim c) "true") eqn:Ea; [done|]. injection E as <-. split; [done|].
    exists c. split_and!; [|done..]. apply candidates_spec. rewrite Ec. by left.
Qed.

(** ** Who gets through *)
Notation SessionOpens := WebSessionTheorems.opens.
Notation TokenOpens := ApiTokenTheorems.opens.

Section entry.
  Context {S W C : Type} `{StorageLaws S} `{PasswordHashing} `{UpperTable} `{WebAuthn} `{LRU attempts C} `{UnicodeTables}.
  Variables (rt : ProviderRuntime S W) (providers : list provider) (desires_page : bool).
  Variables (login answer : provider → SignInRequest → Time → Draws → M (Server S W) reaction).
  Variables (callback : provider → string → bool) (claims : ClaimsMiddleware).
  Variables (trusted : TrustedProxies) (tokens_enabled : bool) (url_Host : string → option string).
  Implicit Types (h : House S W C) (r : SignInRequest).
  Notation house h := (data (server h)).

Lemma on_server_run {A} (m : M (Server S W) A) h x h' : on_server m h = (x, h') → m (server h) = (x, server h').
Proof. intros E. unfold on_server, zoom in E. destruct (m (server h)) eqn:Em. by injection E as <- <-. Qed.
(** What the tokens middleware passes on. *)
Lemma Middleware_passes enabled f trace q ctx now (s : S) c s' : ok s →
  Middleware enabled f trace q ctx now s = (Ok (Next c), s') →
  c = ctx ∧ (bearerToken q = None ∨ HasPrefix (Path q) apiPrefix = false) ∨
  ∃ secret i k, bearerToken q = Some secret ∧ HasPrefix (Path q) apiPrefix = true ∧ enabled = true ∧
    TokenOpens f (view s) secret now i k ∧ CurrentUser c = Ok i ∧ APIToken_id c = APIToken.ID k.
Proof.
  intros Hok E. unfold Middleware in E. destruct (bearerToken q) as [secret|] eqn:Eb; [|minv; auto].
  destruct (HasPrefix (Path q) apiPrefix) eqn:Ep; cbn [negb] in E; [|minv; auto].
  destruct enabled; cbn [negb] in E; [|by minv]. minv. destruct x as [[i k]|e]; minv.
  - match goal with Ha : Authenticate _ _ _ _ = _ |- _ => apply Authenticate_spec in Ha as (_ & Ho & _); [|done] end.
    right. by exists secret, i, k.
  - unfold refusal in *. destruct (is_forbidden e); [done|]. by destruct (_ || _).
Qed.
(** What the session of a request is. *)
Lemma session_run r now h x h' : ok (house h) → on_server (rt_GetSession r now) h = (x, h') →
  ok (house h') ∧ tokens (view (house h')) = tokens (view (house h)) ∧
  ∀ a i, x = Ok a → as_Identity a = Some i → as_APIToken a = "" ∧
    ∃ k, cookie r = Some k ∧ as_ID a = ck_ID k ∧ SessionOpens (view (house h)) (ck_ID k) now i.
Proof.
  intros Hok E. apply on_server_run in E. apply on_data_run in E as (s' & E & Hs). rewrite Hs. change (data (mkServer _ _ _)) with s'.
  pose proof (GetSession_ok _ _ _ _ _ Hok E) as Hok'. split; [done|]. split.
  - destruct (cookie r) as [k|]; [|by injection E as _ <-]. simpl in E.
    destruct (String.eqb (ck_ID k) ""); [by injection E as _ <-|]. unfold m_bind, m_wrap in E.
    destruct (Identity_of (ck_ID k) now _) as [[i|e] s1] eqn:Ei; injection E as _ <-.
    + apply Identity_of_ok in Ei as (_ & _ & _ & id & [->| ->]); done.
    + by apply Identity_of_same in Ei as ->.
  - intros a i -> Hi. destruct (GetSession_names _ _ _ _ _ _ Hok E Hi) as (Ha & k & Hk & Hid & _ & Ho).
    split; [done|]. by exists k.
Qed.

(** C7 Who gets through to the API and the web UI. A request is passed on as
    somebody only with a cookie that names a live session of theirs and, when it
    names no token, or with a live API token, on the API; the claims middleware
    has accepted them either way. It is never a request a browser sends for
    another site, and the pages behind the sign-in are never reached as nobody. *)
Theorem requests_let_in trace r now d h ctx h' : ok (house h) →
  newRouter rt providers desires_page login callback answer claims trusted tokens_enabled url_Host trace r now d h
    = (Ok (Passed ctx), h') →
  let q := http (seen_as trusted r) in
  cross_origin url_Host q = None ∧ page_of providers callback (Path q) = None ∧
  (∀ i, CurrentUser ctx = Ok i →
     (∃ k i0, cookie r = Some k ∧ SessionOpens (view (house h)) (ck_ID k) now i0 ∧ claims i0 = Ok i ∧
        CurrentSessionID ctx = ck_ID k ∧ APIToken_id ctx = "" ∧
        (bearerToken q = None ∨ HasPrefix (Path q) apiPrefix = false)) ∨
     (∃ secret k, bearerToken q = Some secret ∧ HasPrefix (Path q) apiPrefix = true ∧ tokens_enabled = true ∧
        TokenOpens (Some claims) (view (house h)) secret now i k ∧ APIToken_id ctx = APIToken.ID k)) ∧
  (is_site (Path q) = true → ∃ i, CurrentUser ctx = Ok i).
Proof.
  intros Hok E q. unfold newRouter in E. cbv zeta in E. fold q in E.
  destruct (cross_origin url_Host q) as [why|]; [done|]. split; [done|].
  apply m_bind_ok in E as (passed & h1 & Ea & E). destruct passed as [ctx1|]; [|done].
  apply m_bind_ok in E as (handled & h2 & Em & E). apply on_server_run in Em. apply on_data_run in Em as (s2 & Em & _).
  unfold auth_middleware in Ea. fold q in Ea. destruct (page_of providers callback (Path q)).
  { apply m_bind_ok in Ea as (? & ? & _ & Ea). done. }
  split; [done|]. apply m_bind_ok in Ea as (session & h1' & Eg & Ea). unfold m_try in Eg.
  destruct (on_server (rt_GetSession _ now) h) as [x h3] eqn:Es. injection Eg as <- <-.
  apply session_run in Es as (Hok1 & Htok & Hsession); [|done].
  assert (h1 = h3 ∧ ∀ i, CurrentUser ctx1 = Ok i → APIToken_id ctx1 = "" ∧ ∃ k i0, cookie r = Some k ∧
    SessionOpens (view (house h)) (ck_ID k) now i0 ∧ claims i0 = Ok i ∧ CurrentSessionID ctx1 = ck_ID k) as [-> Hcookie].
  { destruct x as [a|e]; [|by injection Ea as <- <-]. destruct (as_Identity a) as [i0|] eqn:Hi; [|done].
    destruct (claims i0) as [i1|e] eqn:Ec.
    2:{ destruct e; try done. by destruct code. }
    injection Ea as <- <-. split; [done|]. intros i [= <-]. destruct (Hsession a i0 eq_refl Hi) as (Ht & k & Hk & Hid & Ho).
    split; [done|]. exists k, i0. by split_and!. }
  destruct handled as [ctx2|]; [|done]. assert (ctx2 = ctx ∧ (is_site (Path q) = true → ∃ i, CurrentUser ctx = Ok i)) as [-> Hsite].
  { destruct (is_site (Path q)); [|by injection E as <- _]. unfold RequireAuthentication, Authenticated in E.
    destruct (CurrentUser ctx2) as [i|] eqn:Eu; [|done]. injection E as <- _. split; [done|]. by exists i. }
  split; [|done]. intros i Hi. apply Middleware_passes in Em as [[-> Hno]|(secret & j & k & Hb & Hp & He & Ho & Hj & Hk)]; [| |done].
  - left. destruct (Hcookie i Hi) as (Ht & k & i0 & Hk & Ho & Hc & Hid). by exists k, i0.
  - right. exists secret, k. assert (j = i) as -> by congruence. split_and!; try done.
    destruct Ho as (Hpre & Hrow & Hrest). rewrite Htok in Hrow. exact (conj Hpre (conj Hrow Hrest)).
Qed.
End entry.

(** ** Instances for the witnesses *)
Definition corp : AuthConfig := mkAuthConfig (mkProviderConfig (Some (mkOIDC "corp" "vpn" [])) None None None (Some listed))
  [("lab", Some (mkProviderConfig (Some (mkOIDC "" "" [])) None None None None))].
Lemma providers_told_apart_witness : Validate corp = Ok tt ∧ ∃ o, findOIDCProvider corp "lab" = Ok o ∧
  ∀ x, o = Some x ↔ configured_as corp "lab" x.
Proof.
  assert (Validate corp = Ok tt) as Hv by (vm_compute; reflexivity). split; [exact Hv|].
  destruct (providers_told_apart corp "lab" Hv) as (o & Ho & Hx & _); [discriminate|]. exists o. split; [exact Ho|exact Hx].
Defined.
Lemma claims_given_witness : claimsMiddleware "root" corp (Identity.mk "simple" "root" "" "" []) =
    Ok (Identity.mk "simple" "root" "" "" [mkClaim "admin" "true"]) ∧
  ∀ e, claimsMiddleware "root" corp (Identity.mk "corp" "root" "" "" []) = Err e → e = LoginError NotAuthorized "User has no access".
Proof.
  split; [vm_compute; reflexivity|]. intros e E.
  destruct (claims_given "root" corp (Identity.mk "corp" "root" "" "" [])) as [_ Hr].
  apply (Hr ltac:(vm_compute; reflexivity) ltac:(discriminate) e E).
Defined.

(** Somebody who is known through the password form comes back as a user of the
    identity provider with the same subject. *)
Definition known_ada : InMemoryStorage :=
  (SaveUser (User.mk "ada" "simple" "Ada" "" "" 0 "" "" None "" None "" 0 "") NewMemoryStorage).2.
Lemma known_ada_ok : ok known_ada.
Proof.
  destruct (m_run_ok (SaveUser (User.mk "ada" "simple" "Ada" "" "" 0 "" "" None "" None "" 0 "")) NewMemoryStorage) as [a E];
    [vm_compute; reflexivity|].
  by apply (effect_ok _ _ _ _ _ (law_SaveUser _)) in E as [Hok _]; [|apply NewMemoryStorage_ok].
Qed.
Definition known_site : Server InMemoryStorage Peers := mkServer (New known_ada ∅) ∅ [].
Lemma one_person_per_subject_witness : ∃ e,
  rt_SetSession demo_rt (typed "ada" "x") (signed_in "corp" "ada") 7 demo_draws known_site = (Err e, known_site).
Proof.
  destruct (rt_SetSession demo_rt (typed "ada" "x") (signed_in "corp" "ada") 7 demo_draws known_site) as [x srv'] eqn:E.
  destruct (one_person_per_subject 3600 false None (typed "ada" "x") (signed_in "corp" "ada") (identity_of "corp" "ada") "simple"
    7 demo_draws known_site x srv') as [[e ->] ->]; [exact known_ada_ok|reflexivity|vm_compute; reflexivity|discriminate..
    |reflexivity|exact E|]. by exists e.
Defined.

Definition with_cookie : SignInRequest :=
  mkSignIn (mkRequest "GET" "/" "vpn" "192.0.2.7:5000" false []) [] [] None None (Some cookie1).
Definition home : House InMemoryStorage Peers (toy_cache attempts) := mkHouse (mkServer (New store1 ∅) ∅ []) ∅.
Notation run_router r := (newRouter (S := InMemoryStorage) (W := Peers) (C := (toy_cache attempts)) demo_rt [PSimple listed] false
  (λ _ q _ _, m_ret (Done, cookie q)) (λ _ _, false) (λ _ q _ _, m_ret (Done, cookie q)) (claimsMiddleware "root" corp) []
  true (λ _, None) "t1" r 5 demo_draws).
Lemma requests_let_in_witness : ∃ ctx h', run_router with_cookie home = (Ok (Passed ctx), h') ∧
  ∃ i, CurrentUser ctx = Ok i.
Proof.
  destruct (run_router with_cookie home) as [x h'] eqn:E.
  assert (∃ ctx, x = Ok (Passed ctx)) as (ctx & ->).
  { replace x with (run_router with_cookie home).1 by (rewrite E; reflexivity). eexists. vm_compute. reflexivity. }
  exists ctx, h'. split; [reflexivity|].
  assert (ok (data (server home))) as Hok by exact store1_ok.
  destruct (requests_let_in _ _ _ _ _ _ _ _ _ _ _ _ _ _ _ _ _ Hok E) as (_ & _ & _ & Hi). apply Hi. reflexivity.
Defined.
