(* ===== verification/ExternalTheorems.v ===== *)
(** * Signing in with another service: what it takes

    Nobody gets a session from the callback of an OpenID Connect provider or of
    GitHub without the sign-in their browser started, the answer of the service
    and the conditions of the configuration; and the claims they get are those of its rules. *)
From S2P Require Import Limiter.
From S2P Require Import Prelude GoText GoQuote GoNet Network Encoding TextFacts Json Storage.
From S2P Require Import AuthSession WireGuard Devices Routes Manager AuditLog Totp Passkeys Passwords.
From S2P Require Import TwoFactor ApiTokens WebSessions WebSessionTheorems Api ApiUsers Throttle.
From S2P Require Import SignIn AuthConfig WebServer ApiSpecs SignInSpecs WebServerTheorems Oidc Github.
From S2P Require Import InMemory InMemoryLaws DeviceTheorems Toys.

(** [ginv] takes a chain of steps that went on apart. *)
Lemma step_bind_go {A B} (m : step A) (k : A → step B) b : step_bind m k = Go b ↔ ∃ a, m = Go a ∧ k a = Go b.
Proof. destruct m; naive_solver. Qed.
Lemma or_stop_go {A} f (m : result A) a : or_stop f m = Go a ↔ m = Ok a.
Proof. destruct m; naive_solver. Qed.
Ltac ginv := repeat match goal with
  | H : step_bind _ _ = Go _ |- _ => apply step_bind_go in H as (? & ? & H)
  | H : or_stop _ _ = Go _ |- _ => apply or_stop_go in H
  | H : Go _ = Go _ |- _ => injection H as H
  | H : (if ?b then Stop _ else _) = Go _ |- _ => let E := fresh "Hguard" in destruct b eqn:E; [discriminate H|]
  end.
(** Every answer that stops a sign-in is a text, not the way on. *)
Definition texts {A} (m : step A) : Prop := match m with Stop (ErrorText _ _) | Go _ => True | _ => False end.
Lemma texts_bind {A B} (m : step A) (k : A → step B) : texts m → (∀ a, texts (k a)) → texts (step_bind m k).
Proof. destruct m as [a|x]; [intros _ Hk; apply (Hk a)|done]. Qed.
Lemma texts_or_stop {A} f (m : result A) : (∀ e, texts (A := A) (Stop (f e))) → texts (or_stop f m).
Proof. intros Hf. destruct m as [a|e]; [done|apply (Hf e)]. Qed.
Lemma texts_not_done {A} (m : step A) x : texts m → m = Stop x → x ≠ Done.
Proof. intros Hm ->. by destruct x. Qed.

(** ** The claims of the rules *)
Section claims.
  Context `{FoldTable} {Rule : Type} `{Rules Rule}.

(** What a rule of the claim mapping gives. *)
Definition gives (name : string) (rule : Rule) (claims : OIDCClaims) (cm : claim) : Prop :=
  (Evaluate rule claims = Ok (RBool true) ∧ cm = mkClaim name "true") ∨
  ∃ s, Evaluate rule claims = Ok (RString s) ∧ s ≠ "" ∧ cm = mkClaim name s.
Lemma mapped_claim_in name v claims cm : cm ∈ mapped_claim name v claims ↔
  cm ∈ claims ∨ (v = RBool true ∧ cm = mkClaim name "true") ∨ ∃ s, v = RString s ∧ s ≠ "" ∧ cm = mkClaim name s.
Proof.
  unfold mapped_claim, claims_Add. destruct v as [[|]|s|]; try (rewrite elem_of_app, list_elem_of_singleton); [naive_solver..| |naive_solver].
  destruct (Z.ltb_spec 0 (slen s)) as [Hs|Hs]; [rewrite elem_of_app, list_elem_of_singleton|].
  - assert (s ≠ "") by (by intros ->). naive_solver.
  - assert (s = "") as -> by (destruct s; [done|unfold slen in Hs; simpl in Hs; lia]). naive_solver.
Qed.
Lemma evaluate_claims_in mapping acc claims out : evaluate_claims mapping acc claims = Ok out → ∀ cm,
  cm ∈ out ↔ cm ∈ acc ∨ ∃ name rule, (name, rule) ∈ mapping ∧ gives name rule claims cm.
Proof.
  revert acc. induction mapping as [|[name rule] mapping IH]; intros acc E cm; simpl in E.
  - injection E as ->. set_solver.
  - apply rbind_ok in E as (v & Ev & E). rewrite (IH _ E), mapped_claim_in. split.
    + intros [[?|Hv]|(n & ru & ? & ?)]; [by left| |right; exists n, ru; split; [by right|done]].
      right. exists name, rule. split; [by left|]. unfold gives. rewrite Ev. naive_solver.
    + intros [?|(n & ru & [[= -> ->]|Hin]%elem_of_cons & Hg)]; [by left; left| |right; by exists n, ru].
      left. right. unfold gives in Hg. rewrite Ev in Hg. naive_solver.
Qed.
Lemma evaluate_policies_in names mapping acc claims out : evaluate_policies names mapping acc claims = Ok out → ∀ cm,
  cm ∈ out ↔ cm ∈ acc ∨ ∃ name rule, name ∈ names ∧ mapping !! name = Some rule ∧
    Evaluate rule claims = Ok (RBool true) ∧ cm = mkClaim PolicyClaim name.
Proof.
  revert acc. induction names as [|name names IH]; intros acc E cm; simpl in E.
  - injection E as ->. set_solver.
  - setoid_rewrite elem_of_cons. destruct (mapping !! name) as [rule|] eqn:Em; [|rewrite (IH _ E); naive_solver].
    apply rbind_ok in E as (v & Ev & E). apply wrap_ok in Ev. rewrite (IH _ E).
    assert (cm ∈ match v with RBool true => claims_Add acc PolicyClaim name | _ => acc end ↔
      cm ∈ acc ∨ (v = RBool true ∧ cm = mkClaim PolicyClaim name)) as ->.
    { unfold claims_Add. destruct v as [[|]|s|]; try (rewrite elem_of_app, list_elem_of_singleton); naive_solver. }
    split.
    + intros [[?|[-> ->]]|(n & ru & ? & ? & ? & ?)]; [by left|right; exists name, rule|right; exists n, ru]; split_and!; auto.
    + intros [?|(n & ru & [->|Hin] & Hn & He & ->)]; [by left; left| |right; by exists n, ru].
      left. right. assert (ru = rule) as -> by congruence. split; [congruence|done].
Qed.
(** The policies do not depend on the order the map of rules is walked in, and a
    policy is named by the configuration alone. *)
Lemma evaluatePolicyMapping_in given mapping claims out : evaluatePolicyMapping given mapping claims = Ok out → ∀ cm,
  cm ∈ out ↔ cm ∈ given ∨ ∃ name rule, mapping !! name = Some rule ∧ Evaluate rule claims = Ok (RBool true) ∧
    cm = mkClaim PolicyClaim name.
Proof.
  intros E cm. rewrite (evaluate_policies_in _ _ _ _ _ E). split; [naive_solver|].
  intros [?|(name & rule & Hm & ?)]; [by left|]. right. exists name, rule. split; [|done]. unfold sort_Strings.
  rewrite merge_sort_Permutation. apply list_elem_of_fmap. exists (name, rule). split; [done|]. by apply elem_of_map_to_list.
Qed.

(** An address of one of the domains, with one at sign. *)
Definition in_domains (domains : list string) (email : string) : Prop :=
  ∃ user domain allowed, Split email "@" = [user; domain] ∧ allowed ∈ domains ∧ equal_fold allowed domain = true.
Lemma verifyEmailDomain_ok domains email : verifyEmailDomain domains email = None ↔ domains = [] ∨ in_domains domains email.
Proof.
  unfold verifyEmailDomain, in_domains. case_bool_decide as E; [naive_solver|].
  destruct (Split email "@") as [|user [|domain [|x l]]]; try naive_solver.
  destruct (existsb _ domains) eqn:Ex.
  - apply existsb_exists in Ex as (allowed & Hin%list_elem_of_In & Hf). naive_solver.
  - split; [done|]. intros [?|(u & dm & allowed & [= <- <-] & Hin & Hf)]; [done|].
    assert (existsb (λ a, equal_fold a domain) domains = true) as Ht; [|congruence].
    apply existsb_exists. exists allowed. split; [by apply list_elem_of_In|done].
Qed.
End claims.

(** ** From the callback to the session *)
Section callback.
  Context {S W : Type} `{StorageLaws S} `{PasswordHashing} `{UpperTable} `{WebAuthn} `{UnicodeTables}.
  Variables (maxAge : Z) (other : bool) (factor : option (option Request → string * string)).
  Notation rt := (newRuntime (S := S) (W := W) maxAge other factor).
  Implicit Types (r : SignInRequest) (now : Time) (d : Draws) (srv : Server S W).

(** The session the browser comes with is the one of its cookie. *)
Lemma rt_GetSession_cookie r now srv s srv' : ok (data srv) → rt_GetSession r now srv = (Ok s, srv') →
  ok (data srv') ∧ (∀ subject p, known_from (view (data srv)) subject p → known_from (view (data srv')) subject p) ∧
  ∃ k, cookie r = Some k ∧ as_State s = ck_State k ∧ as_Nonce s = ck_Nonce k ∧ as_Verifier s = ck_Verifier k.
Proof.
  intros Hok E. apply on_data_run in E as (s' & E & ->). split; [by eapply GetSession_ok|].
  unfold GetSession in E. destruct (cookie r) as [k|]; [|done].
  destruct (String.eqb (as_ID (from_cookie k)) ""); [injection E as <- <-; split; [done|by exists k]|].
  apply m_bind_ok in E as (i & s1 & Ei & E). apply m_wrap_ok in Ei. injection E as <- <-.
  split; [|by exists k]. apply Identity_of_ok in Ei as (_ & _ & _ & id & Hv); [|done].
  unfold known_from. change (data (mkServer _ _ _)) with s1. by destruct Hv as [->| ->].
Qed.
(** What both callbacks do with the decision about the answer of the service. *)
Definition decided (decide : AuthSession → step Identity) (no_session : reply) r now d : M (Server S W) reaction :=
  let! session := m_try (rt_GetSession r now) in
  match session with
  | Err _ => m_ret (no_session, cookie r)
  | Ok s =>
      match decide s with
      | Stop answer => m_ret (answer, cookie r)
      | Go identity =>
          let! started := m_try (rt_SetSession rt r (session_of identity) now d) in
          m_ret match started with
                | Ok k => (Done, Some k)
                | Err e => (sessionNotStarted e, cookie r)
                end
      end
  end.
Lemma decided_run decide no_session r now d srv x srv' : ok (data srv) → 0 < maxAge → no_session ≠ Done →
  (∀ s, texts (decide s)) → decided decide no_session r now d srv = (x, srv') →
  ∃ reply c, x = Ok (reply, c) ∧ (reply ≠ Done → c = cookie r) ∧
  (reply = Done → ∃ s k0 i k srv1, rt_GetSession r now srv = (Ok s, srv1) ∧ cookie r = Some k0 ∧
     as_State s = ck_State k0 ∧ as_Nonce s = ck_Nonce k0 ∧ as_Verifier s = ck_Verifier k0 ∧
     decide s = Go i ∧ c = Some k ∧
     (∀ p, known_from (view (data srv)) (Identity.Subject i) p → p = "" ∨ sameProvider p (Identity.Provider i) = true) ∧
     opens (view (data srv')) (ck_ID k) now (valid_identity i)).
Proof.
  intros Hok Hage Hno Htext E. unfold decided, m_bind at 1, m_try at 1 in E.
  destruct (rt_GetSession r now srv) as [session srv1] eqn:Eg. destruct session as [s|e].
  2:{ injection E as <- <-. exists no_session, (cookie r). by split_and!. }
  destruct (rt_GetSession_cookie _ _ _ _ _ Hok Eg) as (Hok1 & Hknown & k0 & Hk0 & Hst & Hn & Hv).
  destruct (decide s) as [i|answer] eqn:Ed.
  2:{ injection E as <- <-. exists answer, (cookie r). split; [done|]. split; [done|].
      intros ->. by destruct (texts_not_done (decide s) Done (Htext s) Ed). }
  unfold m_bind, m_try in E. destruct (rt_SetSession rt r (session_of i) now d srv1) as [started srv2] eqn:Es.
  destruct started as [k|e]; injection E as <- <-.
  - exists Done, (Some k). split; [done|]. split; [done|]. intros _.
    apply rt_SetSession_identity in Es as (_ & Hcheck & Ho & _); [|done..].
    exists s, k0, i, k, srv1. split_and!; try done. intros p Hp. apply (checkLogin_ok _ _ _ _ Hok1 Hcheck). by apply Hknown.
  - eexists _, (cookie r). split; [done|]. split; [done|]. unfold sessionNotStarted. by destruct (as_refused e).
Qed.
End callback.

(** ** OpenID Connect *)
Section oidc.
  Context {S W : Type} `{StorageLaws S} `{PasswordHashing} `{UpperTable} `{WebAuthn} `{UnicodeTables}.
  Context `{FoldTable} {Rule : Type} `{Rules Rule} `{OIDCLibrary}.
  Variables (maxAge : Z) (other : bool) (factor : option (option Request → string * string)).
  Variable c : OIDCClient Rule.
  Notation rt := (newRuntime (S := S) (W := W) maxAge other factor).
  Implicit Types (r : SignInRequest) (now : Time) (d : Draws) (srv : Server S W).

(** The claims come from the service: for the code of this request, redeemed with
    the verifier of this browser, from its UserInfo endpoint or from a token it signed
    with the nonce of this browser. *)
Definition vouched (p : ServiceProvider) (code : string) (verifier nonce : option string) (claims : OIDCClaims) : Prop :=
  ∃ token, Exchange (oauthConfig c p) code verifier = Ok token ∧
  if o_ClaimsFromIDToken c then
    ∃ raw t n, id_token token = Some raw ∧ Verify p (o_ClientID c) raw = Ok t ∧ nonce = Some n ∧ token_Nonce t = n ∧
      token_Claims t = Ok claims
  else ∃ info, UserInfo p (oauthConfig c p) token = Ok info ∧ info_Claims info = Ok claims.
(** The address meets the configuration. *)
Definition email_ok (claims : OIDCClaims) : Prop :=
  o_EmailDomains c = [] ∨
  in_domains (o_EmailDomains c) (default "" (text_claim claims "email")) ∧
  claims !! "email_verified" ≠ Some (JBool false) ∧
  ∀ s, claims !! "email_verified" = Some (JString s) → equal_fold s "true" = true.
(** Who the claims say somebody is. *)
Definition described (claims : OIDCClaims) (i : Identity) : Prop :=
  AuthSession.Identity.Provider i = o_Name c ∧ text_claim claims "sub" = Some (Identity.Subject i) ∧
  Identity.Email i = default "" (text_claim claims "email") ∧ Identity.Name i = displayName claims ∧
  ∀ cm, cm ∈ Identity.Claims i ↔
    (∃ name rule, (name, rule) ∈ o_ClaimMapping c ∧ gives name rule claims cm) ∨
    ∃ policy rule, o_PolicyMapping c !! policy = Some rule ∧ Evaluate rule claims = Ok (RBool true) ∧
      cm = mkClaim PolicyClaim policy.

Lemma claims_of_ok p s token claims code : Exchange (oauthConfig c p) code (as_Verifier s) = Ok token →
  claims_of c p s token = Go claims → vouched p code (as_Verifier s) (as_Nonce s) claims.
Proof.
  intros Hex E. exists token. split; [done|]. unfold claims_of in E. destruct (o_ClaimsFromIDToken c); simpl in E.
  - destruct (id_token token) as [raw|]; [|done]. ginv. destruct (as_Nonce s) as [n|]; [|done]. ginv.
    apply negb_false_iff, String.eqb_eq in Hguard. by exists raw, x, n.
  - ginv. by exists x.
Qed.
Lemma check_email_ok claims u : check_email c claims = Go u → email_ok claims.
Proof.
  unfold check_email, email_ok. intros E. ginv. destruct (verifyEmailDomain _ _) as [msg|] eqn:Ev; [done|].
  apply verifyEmailDomain_ok in Ev as [?|Hd]; [by left|]. right. split; [done|].
  destruct (decide (o_EmailDomains c = [])) as [En|En].
  { rewrite En in Hd. destruct Hd as (? & ? & ? & _ & Hin & _). set_solver. }
  rewrite bool_decide_eq_false_2 in Hguard by done. simpl in Hguard. unfold emailVerified in Hguard.
  split; [intros Hv; by rewrite Hv in Hguard|]. intros s Hv. rewrite Hv in Hguard. simpl in Hguard. by apply negb_false_iff in Hguard.
Qed.
Lemma identity_from_ok claims i : identity_from c claims = Go i → described claims i.
Proof.
  unfold identity_from, described. intros E.
  apply step_bind_go in E as (given & Eg%or_stop_go & E). apply step_bind_go in E as (out & Ep%or_stop_go & E).
  destruct (text_claim claims "sub") as [subject|] eqn:Es; [|done].
  injection E as <-. split_and!; try done. simpl. intros cm. rewrite (evaluatePolicyMapping_in _ _ _ _ Ep).
  unfold evaluateClaimMapping in Eg. rewrite (evaluate_claims_in _ _ _ _ Eg). set_solver.
Qed.
Lemma authenticate_ok p r s i : authenticate c p r s = Go i →
  as_State s = Some (FormValue r "state") ∧ ∃ claims,
    vouched p (FormValue r "code") (as_Verifier s) (as_Nonce s) claims ∧ email_ok claims ∧ described claims i.
Proof.
  unfold authenticate, check_state. intros E. ginv. destruct (as_State s) as [started|]; [|done].
  ginv. apply negb_false_iff, String.eqb_eq in Hguard as ->. split; [done|]. eexists.
  split; [by eapply claims_of_ok|]. split; [by eapply check_email_ok|]. by apply identity_from_ok.
Qed.
Lemma authenticate_texts p r s : texts (authenticate c p r s).
Proof.
  unfold authenticate. apply texts_bind.
  { unfold check_state. destruct (as_State s); [|done]. by destruct (negb _). }
  intros _. apply texts_bind; [by apply texts_or_stop|]. intros token. apply texts_bind.
  { unfold claims_of. destruct (negb _); [apply texts_bind; [by apply texts_or_stop|]; intros; by apply texts_or_stop|].
    destruct (id_token token); [|done]. apply texts_bind; [by apply texts_or_stop|]. intros t.
    destruct (as_Nonce s); [|done]. destruct (negb _); [done|]. by apply texts_or_stop. }
  intros claims. apply texts_bind; [unfold check_email; destruct (_ && _); [done|]; by destruct (verifyEmailDomain _ _)|].
  intros _. unfold identity_from. apply texts_bind; [by apply texts_or_stop|]. intros given.
  apply texts_bind; [by apply texts_or_stop|]. intros out. by destruct (text_claim _ _).
Qed.

(** C9 [oidc_sign_in]: the callback of an OpenID Connect provider signs somebody in only
    when the state it is called with is the one in the cookie of this
    browser, the provider redeems the code with this browser's verifier, and - when the
    claims come from the ID token - signed it with this browser's nonce; when
    the address is of an allowed domain and not said to be unverified; and when nobody
    else here has the subject. The session is that of the subject the claims name,
    under the name of the provider, and its claims are exactly what the rules of the
    configuration come to: the policies are named by the configuration, never by the
    provider. Every other answer leaves the cookie alone. *)
Theorem oidc_sign_in p r now d srv x srv' : ok (data srv) → 0 < maxAge →
  callbackHandler rt c p r now d srv = (x, srv') →
  ∃ reply c', x = Ok (reply, c') ∧ (reply ≠ Done → c' = cookie r) ∧
  (reply = Done → ∃ browser k claims i,
     cookie r = Some browser ∧ ck_State browser = Some (FormValue r "state") ∧
     vouched p (FormValue r "code") (ck_Verifier browser) (ck_Nonce browser) claims ∧
     email_ok claims ∧ described claims i ∧
     (∀ known, known_from (view (data srv)) (Identity.Subject i) known → known = "" ∨ sameProvider known (o_Name c) = true) ∧
     c' = Some k ∧ opens (view (data srv')) (ck_ID k) now (valid_identity i)).
Proof.
  intros Hok Hage E. change (callbackHandler rt c p r now d srv) with
    (decided maxAge other factor (authenticate c p r) (ErrorText 400 "No session") r now d srv) in E.
  apply decided_run in E as (reply & c' & -> & Hnot & Hdone); [|done..|apply authenticate_texts]. exists reply, c'.
  split; [done|]. split; [done|]. intros Hd. destruct (Hdone Hd) as (s & k0 & i & k & srv1 & _ & Hk0 & Hst & Hn & Hv & Ea & -> & Hknown & Ho).
  apply authenticate_ok in Ea as (Hstate & claims & Hvouch & Hemail & Hi). rewrite Hv, Hn in Hvouch.
  exists k0, k, claims, i. destruct Hi as [Hp Hi]. rewrite <- Hp. split_and!; try done. congruence.
Qed.
End oidc.

(** ** GitHub *)
Section github.
  Context {S W : Type} `{StorageLaws S} `{PasswordHashing} `{UpperTable} `{WebAuthn} `{UnicodeTables}.
  Context `{GithubAPI} `{URLs} `{FoldTable}.
  Variables (maxAge : Z) (other : bool) (factor : option (option Request → string * string)).
  Variable c : GithubSettings.
  Notation rt := (newRuntime (S := S) (W := W) maxAge other factor).
  Implicit Types (r : SignInRequest) (now : Time) (d : Draws) (srv : Server S W).

(** An account is listed by its number; the login of an entry matches nobody. *)
Definition is_listed (l : list string) (n : Z) : Prop := ∃ entry u, entry ∈ l ∧ parseGithubUser entry = Ok u ∧ id u = n.
Lemma listed_spec l n : listed l n = true ↔ is_listed l n.
Proof.
  unfold listed, is_listed. induction l as [|entry l IH]; simpl; [split; [done|]; intros (? & ? & ? & _); set_solver|].
  assert (∀ P : Prop, (P ↔ ∃ x u, x ∈ l ∧ parseGithubUser x = Ok u ∧ id u = n) →
    (∀ u, parseGithubUser entry = Ok u → id u ≠ n) →
    (P ↔ ∃ x u, x ∈ entry :: l ∧ parseGithubUser x = Ok u ∧ id u = n)) as Hskip.
  { intros P -> Hne. split; intros (x & u & Hx & Hp & Hu); exists x, u; [split; [by right|done]|].
    apply elem_of_cons in Hx as [->|Hx]; [by apply Hne in Hu|done]. }
  destruct (parseGithubUser entry) as [u|e] eqn:Ep; [|by apply Hskip].
  destruct (Z.eqb_spec (id u) n) as [En|En]; [|apply Hskip; [done|by intros v [= <-]]].
  split; [|done]. intros _. exists entry, u. split; [by left|done].
Qed.
(** One of the teams is configured, in whatever case. *)
Definition in_teams (configured teams : list string) : Prop :=
  ∃ t configured_team, t ∈ teams ∧ configured_team ∈ configured ∧ equal_fold configured_team t = true.
Lemma intersectsFold_spec configured actual : intersectsFold configured actual = true ↔ in_teams configured actual.
Proof.
  unfold intersectsFold, containsFold, in_teams. rewrite existsb_exists. split.
  - intros (t & Ht & (k & Hk & Hf)%existsb_exists). exists t, k. by rewrite !list_elem_of_In.
  - intros (t & k & Ht & Hk & Hf). exists t. split; [by apply list_elem_of_In|]. apply existsb_exists. exists k.
    by rewrite <- list_elem_of_In.
Qed.
Lemma member_of_any_ok token orgs : member_of_any c token orgs = Ok true →
  ∃ org, org ∈ orgs ∧ isMember (apiURL c) token org = Ok true.
Proof.
  induction orgs as [|org orgs IH]; [done|]. simpl. destruct (isMember _ _ org) as [[|]|] eqn:Em; simpl; [|set_solver|done].
  intros _. exists org. split; [by left|done].
Qed.

(** GitHub says that the membership is active. *)
Definition active_member (token : Token) (org : string) : Prop :=
  api_get (apiURL c) token ("/user/memberships/orgs/" +:+ PathEscape org) decode_state = Found "active".
Lemma isMember_ok token org : isMember (apiURL c) token org = Ok true → active_member token org.
Proof.
  unfold isMember, active_member. destruct (api_get _ _ _ _) as [state| |]; try done.
  intros [= Hs]. by apply String.eqb_eq in Hs as ->.
Qed.
(** What GitHub says of the person the token is for. *)
Definition account_of (token : Token) (u : account) (ts : list string) : Prop :=
  api_get (apiURL c) token "/user" decode_account = Found u ∧ u_ID u ≠ 0 ∧ u_Login u ≠ "" ∧
  ((Teams c = [] ∧ AdminTeams c = [] ∧ ts = []) ∨ teams (apiURL c) token = Ok ts).
Definition may_sign_in (token : Token) (n : Z) (ts : list string) : Prop :=
  is_listed (Users c) n ∨ in_teams (Teams c) ts ∨
  ∃ org, org ∈ Organizations c ∧ active_member token org.
Lemma identity_ok token i : identity c token = Ok (Allowed i) → ∃ u ts,
  account_of token u ts ∧ may_sign_in token (u_ID u) ts ∧
  Identity.Provider i = github_name c ∧ Identity.Subject i = subject c (u_ID u) ∧
  (IsAdmin (Identity.Claims i) = true ↔ is_listed (AdminUsers c) (u_ID u) ∨ in_teams (AdminTeams c) ts).
Proof.
  unfold identity. intros E. apply rbind_ok in E as (u & Eu & E).
  destruct ((u_ID u =? 0) || String.eqb (u_Login u) "") eqn:Ez; [done|].
  apply orb_false_iff in Ez as [Ez%Z.eqb_neq El%String.eqb_neq].
  apply rbind_ok in E as (ts & Et & E). apply rbind_ok in E as (ok & Ea & E). destruct ok; [|done]. injection E as <-.
  exists u, ts. split_and!; simpl; try done.
  - split; [by destruct (api_get _ _ _ _); simplify_eq/=|]. split_and!; [done..|].
    destruct (bool_decide (Teams c = []) && bool_decide (AdminTeams c = [])) eqn:Eb; [|by right].
    apply andb_true_iff in Eb as [Eb1%bool_decide_eq_true Eb2%bool_decide_eq_true]. left. by injection Et as <-.
  - unfold allowed, may_sign_in in *. destruct (listed (Users c) (u_ID u) || intersectsFold (Teams c) ts) eqn:Eo.
    + apply orb_true_iff in Eo as [Eo|Eo]; [left; by apply listed_spec|right; left; by apply intersectsFold_spec].
    + right. right. apply member_of_any_ok in Ea as (org & ? & ?). exists org. split; [done|by apply isMember_ok].
  - unfold is_admin. rewrite <- listed_spec, <- intersectsFold_spec, <- orb_true_iff. by destruct (_ || _).
Qed.
Lemma github_authenticate_texts r s : texts (github_authenticate c r s).
Proof.
  unfold github_authenticate. destruct (as_State s); [|done]. destruct (negb _); [done|]. destruct (negb _); [done|].
  apply texts_bind; [by apply texts_or_stop|]. intros token. by destruct (identity c token) as [[]|].
Qed.
(** The number of an account can be read off its subject. *)
Lemma subject_inj n n' : 0 <= n < 2 ^ 63 → 0 <= n' < 2 ^ 63 → subject c n = subject c n' → n = n'.
Proof.
  unfold subject. intros Hn Hn' E. destruct (String.eqb (gs_BaseURL c) "").
  - change ("github:" +:+ Itoa n) with ("github" +:+ ":" +:+ Itoa n) in E.
    change ("github:" +:+ Itoa n') with ("github" +:+ ":" +:+ Itoa n') in E. apply numbered_inj in E as [_ ?]; [done|lia..].
  - set (host := match url_Parse _ with Ok _ => _ | Err _ => _ end) in E.
    apply (f_equal bytes) in E. rewrite !bytes_app in E. apply app_inv_head in E. rewrite <- !bytes_app in E.
    apply bytes_inj, numbered_inj in E as [_ ?]; [done|lia..].
Qed.

(** C10 [github_sign_in]: the callback of GitHub signs in only the account that GitHub
    gives for the code of this request, when the state is the one in the
    cookie of this browser, and when the account is listed by its number, in a configured
    team, or an active member of a configured organization. The session is of
    the subject made of the number - two accounts never share it, whatever
    logins they have had -, it is an admin exactly by its number or its teams, and nobody who
    signs in another way here has that subject. Every other answer leaves the cookie alone. *)
Theorem github_sign_in r now d srv x srv' : ok (data srv) → 0 < maxAge →
  github_callback rt c r now d srv = (x, srv') →
  ∃ reply c', x = Ok (reply, c') ∧ (reply ≠ Done → c' = cookie r) ∧
  (∀ n n', 0 <= n < 2 ^ 63 → 0 <= n' < 2 ^ 63 → subject c n = subject c n' → n = n') ∧
  (reply = Done → ∃ browser k token u ts i,
     cookie r = Some browser ∧ ck_State browser = Some (FormValue r "state") ∧ FormValue r "error" = "" ∧
     Exchange (github_oauth c) (FormValue r "code") None = Ok token ∧ account_of token u ts ∧
     may_sign_in token (u_ID u) ts ∧ Identity.Provider i = github_name c ∧ Identity.Subject i = subject c (u_ID u) ∧
     (IsAdmin (Identity.Claims i) = true ↔ is_listed (AdminUsers c) (u_ID u) ∨ in_teams (AdminTeams c) ts) ∧
     (∀ known, known_from (view (data srv)) (Identity.Subject i) known → known = "" ∨ sameProvider known (github_name c) = true) ∧
     c' = Some k ∧ opens (view (data srv')) (ck_ID k) now (valid_identity i)).
Proof.
  intros Hok Hage E. change (github_callback rt c r now d srv) with
    (decided maxAge other factor (github_authenticate c r) (ErrorText 400 "No sign-in in progress - please start again") r now d srv) in E.
  apply decided_run in E as (reply & c' & -> & Hnot & Hdone); [|done..|apply github_authenticate_texts]. exists reply, c'.
  split; [done|]. split; [done|]. split; [apply subject_inj|]. intros Hd.
  destruct (Hdone Hd) as (s & k0 & i & k & srv1 & _ & Hk0 & Hst & _ & _ & Ea & -> & Hknown & Ho).
  unfold github_authenticate in Ea. destruct (as_State s) as [state|] eqn:Es; [|done]. ginv.
  apply negb_false_iff, String.eqb_eq in Hguard, Hguard0.
  destruct (identity c x) as [[i'|]|] eqn:Ei; [|done..]. injection Ea as ->.
  apply identity_ok in Ei as (u & ts & Hu & Hmay & Hp & Hs & Hadm). rewrite Hp in Hknown.
  exists k0, k, x, u, ts, i. split_and!; try done. by rewrite <- Hst, Hguard.
Qed.
End github.

(** ** A sign-in from its start *)
Definition demo_client : OIDCClient string :=
  mkClient "corp" "https://id.example" "vpn" "secret" [] "https://vpn.example/callback" ["corp.example"]
    [("admin", "boss")] {["office" := "staff"]} false "".
Definition demo_service : ServiceProvider (OIDCLibrary := toy_service) := tt.
Definition demo_server : Server InMemoryStorage Peers := mkServer (New NewMemoryStorage ∅) ∅ [].
Definition drawn : Draws := mkDraws "row-1" (repeat 9 32) (Ok tt) [].
Definition visits (path : string) (query : list (string * string)) (k : option Cookie) : SignInRequest :=
  mkSignIn (mkRequest "GET" path "vpn.example" "192.0.2.7:5000" true []) [] query None None k.
Notation demo_runtime := (newRuntime (S := InMemoryStorage) (W := Peers) 3600 false None).
(** The cookie somebody has after the start of a sign-in. *)
Definition started (x : result reaction) : option Cookie := match x with Ok (_, k) => k | Err _ => None end.
Notation oidc_cookie := (started (loginHandler demo_runtime demo_client demo_service (repeat 1 32) (repeat 2 32) "verifier"
  (visits "/signin/0" [] None) 5 drawn demo_server).1).
Notation oidc_answer := (visits "/callback" [("state", RandomString (repeat 1 32)); ("code", "ada")] oidc_cookie).
Notation oidc_run := (callbackHandler demo_runtime demo_client demo_service oidc_answer 6 drawn demo_server).
Lemma oidc_sign_in_witness : ∃ reply c', oidc_run = (Ok (reply, c'), oidc_run.2) ∧ reply = Done ∧
  ∃ k i, c' = Some k ∧ Identity.Subject i = "ada" ∧ claims_Has (Identity.Claims i) PolicyClaim "office" = true ∧
    opens (view (data oidc_run.2)) (ck_ID k) 6 (valid_identity i).
Proof.
  destruct oidc_run as [x srv'] eqn:E.
  assert (ok (data demo_server)) as Hok by (apply NewMemoryStorage_ok).
  assert (match x with Ok (reply, _) => reply = Done | Err _ => False end) as Hx.
  { replace x with oidc_run.1 by (rewrite E; reflexivity). vm_compute. reflexivity. }
  destruct (oidc_sign_in 3600 false None demo_client demo_service oidc_answer 6 drawn demo_server x srv' Hok ltac:(reflexivity) E)
    as (reply & c' & -> & _ & Hd). exists reply, c'. split; [reflexivity|]. split; [exact Hx|].
  destruct (Hd Hx) as (browser & k & claims & i & _ & _ & (token & Hex & info & Hinfo & Hcl) & _ & (_ & Hsub & _ & _ & Hcm) & _ & Hk & Ho).
  exists k, i. split; [exact Hk|]. assert (claims = toy_claims "ada") as ->.
  { assert (token = "ada") as -> by (vm_compute in Hex; injection Hex as ->; reflexivity). cbn in Hinfo.
    injection Hinfo as <-. cbn in Hcl. injection Hcl as ->. reflexivity. }
  split; [vm_compute in Hsub; injection Hsub as ->; reflexivity|]. split; [|exact Ho].
  apply claims_Has_spec, Hcm. right. exists "office", "staff". split; [vm_compute; reflexivity|]. split; [vm_compute; reflexivity|reflexivity].
Defined.

Definition demo_github : GithubSettings :=
  mkGithubSettings "" "vpn" "secret" "https://vpn.example/callback" "" ["Corp"] ["corp/Ops"] ["ada:7"] [] ["grace:42"].
Notation github_cookie := (started (github_login demo_runtime demo_github (repeat 1 32)
  (visits "/signin/0" [] None) 5 drawn demo_server).1).
Notation github_answer := (visits "/callback" [("state", RandomString (repeat 1 32)); ("code", "gracie")] github_cookie).
Notation github_run := (github_callback demo_runtime demo_github github_answer 6 drawn demo_server).
Lemma github_sign_in_witness : ∃ reply c', github_run = (Ok (reply, c'), github_run.2) ∧ reply = Done ∧
  ∃ k i, c' = Some k ∧ Identity.Subject i = "github:42" ∧ IsAdmin (Identity.Claims i) = true ∧
    opens (view (data github_run.2)) (ck_ID k) 6 (valid_identity i).
Proof.
  destruct github_run as [x srv'] eqn:E.
  assert (ok (data demo_server)) as Hok by (apply NewMemoryStorage_ok).
  assert (match x with Ok (reply, _) => reply = Done | Err _ => False end) as Hx.
  { replace x with github_run.1 by (rewrite E; reflexivity). vm_compute. reflexivity. }
  destruct (github_sign_in 3600 false None demo_github github_answer 6 drawn demo_server x srv' Hok ltac:(reflexivity) E)
    as (reply & c' & -> & _ & _ & Hd). exists reply, c'. split; [reflexivity|]. split; [exact Hx|].
  destruct (Hd Hx) as (browser & k & token & u & ts & i & _ & _ & _ & Hex & (Hu & _) & _ & _ & Hs & Hadm & _ & Hk & Ho).
  exists k, i. split; [exact Hk|]. assert (u_ID u = 42) as Hid.
  { assert (token = "gracie") as -> by (vm_compute in Hex; injection Hex as ->; reflexivity). vm_compute in Hu. injection Hu as <-. reflexivity. }
  rewrite Hid in Hs, Hadm. split; [rewrite Hs; vm_compute; reflexivity|]. split; [|exact Ho].
  apply Hadm. left. exists "grace:42", (mkGithubUser "grace" 42). split; [by left|]. split; [vm_compute; reflexivity|reflexivity].
Defined.
