(* ===== verification/ApiTheorems.v ===== *)
(** * The properties of the API

    Whose data a call can touch, who may call what, what taking somebody's
    access away leaves, and what a change of the password does to the other ways
    in. *)
From S2P Require Import Prelude GoText GoNet Network Encoding TextFacts Storage Atomic.
From S2P Require Import AuthSession WireGuard Devices Allocation DeviceSpecs Routes Manager AuditLog Totp.
From S2P Require Import Passkeys Passwords TwoFactor PasskeySpecs TwoFactorSpecs ApiTokens WebSessions.
From S2P Require Import WebSessionTheorems.
From S2P Require Import Confine Api ApiUsers ApiServices ApiSpecs GoQuote InMemory InMemoryLaws.
From S2P Require Import DeviceTheorems Toys.

(** C3 Nobody but an admin touches what is somebody else's. Whatever a caller
    without the admin claim asks of the API, with whatever arguments, and whether
    it succeeds or fails half-way: the devices, sessions, tokens, passkeys and
    the account of everybody else stay exactly as they were. *)
Theorem api_confined {S W} `{StorageLaws S} `{WireGuard W} `{PasswordHashing} `{UpperTable} `{WebAuthn}
    conf cfg host_addrs deps c p user (srv : Server S W) r srv' :
  config_ok cfg → ok (data srv) → CurrentUser (ctx c) = Ok user → is_admin user = false → draws_fresh p srv →
  serve conf cfg host_addrs deps c p srv = (r, srv') →
  ok (data srv') ∧ others (Identity.Subject user) (view (data srv')) = others (Identity.Subject user) (view (data srv)).
Proof. intros Hcfg Hok Hu Ha Hf E. by eapply serve_confined. Qed.

(** ** Who may call *)
(** What an API token must not do to its own account. *)
Definition manages_account (p : procedure) : bool :=
  match p with
  | P_ChangePassword _ _ | P_StartTwoFactor _ | P_ConfirmTwoFactor _ _ | P_DisableTwoFactor _
  | P_NewRecoveryCodes _ _ | P_BeginPasskey _ | P_FinishPasskey _ _ | P_RenamePasskey _ _ | P_DeletePasskey _
  | P_CreateToken _ _ _ _ | P_DeleteSession _ | P_DeleteOtherSessions => true
  | _ => false
  end.
(** What only admins may do. *)
Definition admins_only (p : procedure) : bool :=
  match p with
  | P_DeleteDevice (Some _) _ | P_RenameDevice (Some _) _ _ | P_SetDeviceAccess _ _ _ _ _ | P_SetDeviceRoutes _ _ _
  | P_ListAllDevices | P_ListUsers | P_DeleteUser _ | P_RevokeAccess _ | P_ResetTwoFactor _ | P_ListAllTokens => true
  | _ => false
  end.
Definition refused_code (e : goerror) : bool :=
  match e with
  | ConnectError CodePermissionDenied _ | ConnectError CodeFailedPrecondition _ => true
  | _ => false
  end.

Section callers.
  Context {S W : Type} `{Storage S} `{WireGuard W} `{PasswordHashing} `{UpperTable} `{WebAuthn}.
  Variables (conf : InfoConfig) (cfg : Config) (host_addrs : result (list (option string))) (deps : Deps).
  Implicit Types (srv : Server S W) (c : CallContext).

(** A call that is refused before it does anything. *)
Definition refuses {A} (m : M (Server S W) A) : Prop :=
  ∀ srv, ∃ e, m srv = (Err e, srv) ∧ refused_code e = true.
Lemma refuses_with {A} (f : A → answer) (m : M (Server S W) A) : refuses m → refuses (answer_with f m).
Proof. intros Hm srv. destruct (Hm srv) as (e & E & He). exists e. unfold answer_with, m_bind. by rewrite E. Qed.
Lemma refuses_bind {A B} (m : M (Server S W) A) (k : A → M (Server S W) B) a :
  (∀ srv, m srv = (Ok a, srv)) → refuses (k a) → refuses (m_bind m k).
Proof. intros Hm Hk srv. unfold m_bind. rewrite Hm. apply Hk. Qed.
Lemma refuses_bind_l {A B} (m : M (Server S W) A) (k : A → M (Server S W) B) : refuses m → refuses (m_bind m k).
Proof. intros Hm srv. destruct (Hm srv) as (e & E & He). exists e. unfold m_bind. by rewrite E. Qed.
Lemma refuses_fail {A} e : refused_code e = true → refuses (m_fail (A := A) e).
Proof. intros He srv. by exists e. Qed.
Lemma refuses_stop {A} (b : bool) e (m : M (Server S W) A) : refused_code e = true → (b = false → refuses m) →
  refuses (if b then m_fail e else m).
Proof. intros He Hm. destruct b; [by apply refuses_fail|by apply Hm]. Qed.
Lemma refuses_stranger {A} c (k : Identity → M (Server S W) A) e0 : CurrentUser (ctx c) = Err e0 →
  refuses (m_bind (current_user c) k).
Proof.
  intros Hu. apply refuses_bind_l. intros srv. exists errNotAuthenticated.
  unfold current_user, m_answer, lift. by rewrite Hu.
Qed.
Lemma user_known {A} c user (k : Identity → M (Server S W) A) : CurrentUser (ctx c) = Ok user →
  refuses (k user) → refuses (m_bind (current_user c) k).
Proof. intros Hu. apply refuses_bind. intros srv. unfold current_user, m_answer, lift. by rewrite Hu. Qed.
Lemma refuses_current_user c e0 : CurrentUser (ctx c) = Err e0 → refuses (current_user c).
Proof. intros Hu srv. exists errNotAuthenticated. unfold current_user, m_answer, lift. by rewrite Hu. Qed.
(** A check at the door: it refuses, or goes on with nothing done. *)
Definition gate {A} (m : M (Server S W) A) : Prop :=
  ∀ srv, (∃ e, m srv = (Err e, srv) ∧ refused_code e = true) ∨ ∃ a, m srv = (Ok a, srv).
Lemma gate_bind {A B} (m : M (Server S W) A) (k : A → M (Server S W) B) : gate m → (∀ a, gate (k a)) → gate (m_bind m k).
Proof.
  intros Hm Hk srv. destruct (Hm srv) as [(e & E & He)|(a & E)].
  - left. exists e. unfold m_bind. by rewrite E.
  - destruct (Hk a srv) as [(e & Ek & He)|(b & Ek)]; [left; exists e|right; exists b]; unfold m_bind; by rewrite E, Ek.
Qed.
Lemma gate_stop {A} (b : bool) e (m : M (Server S W) A) : refused_code e = true → gate m → gate (if b then m_fail e else m).
Proof. intros He Hm. destruct b; [|done]. intros srv. left. by exists e. Qed.
Lemma gate_user c : gate (current_user c).
Proof.
  intros srv. unfold current_user, m_answer, lift. destruct (CurrentUser (ctx c)) as [u|e]; [right; by exists u|left].
  by exists errNotAuthenticated.
Qed.
Lemma gate_passkeys c : gate (passkeysFor deps c).
Proof.
  unfold passkeysFor. apply gate_bind; [apply gate_user|]. intros u. destruct (dp_Passkeys deps).
  - do 2 (apply gate_stop; [done|]). intros srv. right. by eexists.
  - intros srv. left. by eexists.
Qed.
Lemma gate_token_user enabled c : gate (token_user enabled c).
Proof. unfold token_user. apply gate_stop; [done|apply gate_user]. Qed.
Lemma refuses_gate {A B} (m : M (Server S W) A) (k : A → M (Server S W) B) : gate m → (∀ a, refuses (k a)) → refuses (m_bind m k).
Proof.
  intros Hm Hk srv. destruct (Hm srv) as [(e & E & He)|(a & E)]; unfold m_bind; rewrite E; [by exists e|apply Hk].
Qed.
Lemma refuses_twoFactor {A} c (k : Identity * TwoFactorDeps → M (Server S W) A) : APIToken_id (ctx c) ≠ "" →
  refuses (m_bind (twoFactorFor deps c) k).
Proof.
  intros Ht. apply refuses_bind_l. unfold twoFactorFor. apply refuses_gate; [apply gate_user|]. intros u srv.
  unfold m_bind, lift, refuseAPIToken. apply String.eqb_neq in Ht. rewrite Ht. by eexists.
Qed.
Lemma refuses_token {A} c (k : unit → M (Server S W) A) : APIToken_id (ctx c) ≠ "" →
  refuses (m_bind (lift (refuseAPIToken c)) k).
Proof.
  intros Ht. apply refuses_bind_l. intros srv. unfold refuseAPIToken, lift.
  apply String.eqb_neq in Ht. rewrite Ht. simpl. by eexists.
Qed.
Lemma refuses_admin {A} user (m : M (Server S W) A) : is_admin user = false →
  refuses (if negb (is_admin user) then m_fail errNotAdmin else m).
Proof. intros ->. by apply refuses_fail. Qed.
Lemma refuses_owner {A} user owner (k : string → M (Server S W) A) : is_admin user = false →
  refuses (m_bind (device_owner user (Some owner)) k).
Proof. intros Ha. apply refuses_bind_l. unfold device_owner. rewrite Ha. by apply refuses_fail. Qed.
End callers.
Ltac refuse_step :=
  match goal with
  | He : CurrentUser _ = Err _ |- refuses (m_bind (current_user _) _) => by eapply refuses_stranger
  | Hu : CurrentUser _ = Ok _ |- refuses (m_bind (current_user _) _) => eapply user_known; [exact Hu|]
  | Ht : APIToken_id _ ≠ "" |- refuses (m_bind (lift (refuseAPIToken _)) _) => by apply refuses_token
  | Ha : is_admin _ = false |- refuses (if negb (is_admin _) then _ else _) => by apply refuses_admin
  | Ha : is_admin _ = false |- refuses (m_bind (device_owner _ (Some _)) _) => by apply refuses_owner
  | Hu : CurrentUser _ = Err _ |- refuses (current_user _) => by eapply refuses_current_user
  | Ht : APIToken_id _ ≠ "" |- refuses (m_bind (twoFactorFor _ _) _) => by apply refuses_twoFactor
  | |- refuses (m_bind (passkeysFor _ _) _) => apply refuses_gate; [apply gate_passkeys|intros [? ?]]
  | |- refuses (m_bind (token_user _ _) _) => apply refuses_gate; [apply gate_token_user|intros ?]
  | |- refuses (m_bind (current_user _) _) => apply refuses_gate; [apply gate_user|intros ?]
  | Ht : APIToken_id _ ≠ "" |- refuses (if negb (String.eqb (APIToken_id _) "") then _ else _) =>
      apply String.eqb_neq in Ht; rewrite Ht; by apply refuses_fail
  | |- refuses (m_fail _) => by apply refuses_fail
  | |- refuses (if _ then m_fail _ else _) => apply refuses_stop; [done|intros _]
  | |- refuses (match dp_TwoFactor ?d with _ => _ end) => destruct (dp_TwoFactor d)
  | |- refuses (match dp_Passkeys ?d with _ => _ end) => destruct (dp_Passkeys d)
  | |- refuses (match dp_Passwords ?d with _ => _ end) => destruct (dp_Passwords d)
  end.

(** C4 Who is let in. Without a session every procedure is refused; without the
    admin claim so is everything that names somebody else or belongs to admins;
    and a call made with an API token cannot change the password, the second
    factors, the sessions or the tokens of its account. A refused call has done
    nothing. *)
Theorem api_access {S W} `{Storage S} `{WireGuard W} `{PasswordHashing} `{UpperTable} `{WebAuthn}
    conf cfg host_addrs deps c p (srv : Server S W) :
  is_ok (CurrentUser (ctx c)) = false ∨
  (∃ user, CurrentUser (ctx c) = Ok user ∧ is_admin user = false ∧ admins_only p = true) ∨
  (APIToken_id (ctx c) ≠ "" ∧ manages_account p = true) →
  ∃ e, serve conf cfg host_addrs deps c p srv = (Err e, srv) ∧ refused_code e = true.
Proof.
  intros Hwhy. revert srv. change (refuses (serve conf cfg host_addrs deps c p)).
  destruct Hwhy as [Hs|[(user & Hu & Ha & Hp)|[Ht Hp]]].
  - destruct (CurrentUser (ctx c)) as [u|e] eqn:Eu; [done|].
    destruct p; apply refuses_with;
      unfold AddDevice_call, ListDevices_call, DeleteDevice_call, RenameDevice_call, RotateDeviceKey_call,
        SetDeviceAccess_call, SetDeviceRoutes_call, ListAllDevices_call, ListUsers_call, DeleteUser_call,
        RevokeAccess_call, ChangePassword_call, StartTwoFactor_call, ConfirmTwoFactor_call, DisableTwoFactor_call,
        ResetTwoFactor_call, NewRecoveryCodes_call, ListPasskeys_call, BeginPasskey_call, FinishPasskey_call,
        RenamePasskey_call, DeletePasskey_call, CreateToken_call, ListTokens_call, DeleteToken_call,
        ListAllTokens_call, ListSessions_call, DeleteSession_call, DeleteOtherSessions_call, Info_call;
      first [by eapply refuses_stranger
            |apply refuses_bind_l; unfold twoFactorFor, passkeysFor, token_user; repeat refuse_step].
  - destruct p as [| |[o|] n|[o|] n n'| | | | | | | | | | | | | | | | | | | | | | | | | |]; try discriminate Hp;
      apply refuses_with;
      unfold DeleteDevice_call, RenameDevice_call, SetDeviceAccess_call, SetDeviceRoutes_call, ListAllDevices_call,
        ListUsers_call, DeleteUser_call, RevokeAccess_call, ResetTwoFactor_call, ListAllTokens_call, token_user;
      repeat refuse_step.
    destruct (EnableAPITokens conf); cbn [negb]; [|by apply refuses_bind_l, refuses_fail]. repeat refuse_step.
  - destruct p; try discriminate Hp; apply refuses_with;
      unfold ChangePassword_call, StartTwoFactor_call, ConfirmTwoFactor_call, DisableTwoFactor_call,
        NewRecoveryCodes_call, BeginPasskey_call, FinishPasskey_call, RenamePasskey_call, DeletePasskey_call,
        CreateToken_call, DeleteSession_call, DeleteOtherSessions_call; repeat refuse_step.
Qed.

(** ** Taking access away *)
Definition no_tokens (name : string) (a : Abs) : Prop := ∀ k x, tokens a !! k = Some x → APIToken.Owner x ≠ name.
Definition no_sessions (name : string) (a : Abs) : Prop := ∀ k x, sessions a !! k = Some x → Session.Owner x ≠ name.
Definition no_devices (name : string) (a : Abs) : Prop := ∀ k d, devices a !! k = Some d → Device.Owner d ≠ name.
Definition no_passkeys (name : string) (a : Abs) : Prop := ∀ k x, passkeys a !! k = Some x → Passkey.Owner x ≠ name.

Section revoking.
  Context {S W : Type} `{StorageLaws S}.
  Implicit Types (srv : Server S W) (c : CallContext).

(** An operation of the storage that is answered with another error. *)
Lemma answered_effect {A} f (m : M S A) P srv r srv' : effect view ok m P → ok (data srv) →
  m_answer f (on_data m) srv = (r, srv') →
  ok (data srv') ∧ match r with
                   | Ok x => ∃ evs, P (view (data srv)) x (view (data srv')) evs
                   | Err e => view (data srv') = view (data srv) ∧ ∃ e0, e = f e0
                   end.
Proof.
  intros He Hok E. unfold m_answer, on_data, on_manager, on_storage, zoom in E.
  destruct (m (storage (manager srv))) as [[x|e] s1] eqn:Em; injection E as <- <-.
  - apply (effect_ok _ _ _ _ _ He) in Em as (Hok' & evs & HP & _); [|done]. split; [done|]. by exists evs.
  - apply (effect_err _ _ _ _ _ He) in Em as (Hok' & Hv & _); [|done]. split; [done|]. split; [done|]. by exists e.
Qed.

Variable deps : Deps.
Lemma delete_tokens_run c what name srv r srv' : ok (data srv) → delete_tokens deps c what name srv = (r, srv') →
  ok (data srv') ∧ match r with
    | Ok n => dp_Tokens deps = true →
        view (data srv') = on_tokens (filter (λ kx, APIToken.Owner kx.2 ≠ name)) (view (data srv)) ∧
        n = Z.of_nat (size (filter (λ kx, APIToken.Owner kx.2 = name) (tokens (view (data srv)))))
    | Err _ => view (data srv') = view (data srv)
    end.
Proof.
  intros Hok E. unfold delete_tokens in E. destruct (dp_Tokens deps); [|by injection E as <- <-].
  apply (answered_effect _ _ _ _ _ _ (law_DeleteTokensForOwner name)) in E as [Hok' Hr]; [|done]. split; [done|].
  destruct r as [n|e]; [|by destruct Hr]. by destruct Hr as (evs & _ & -> & ->).
Qed.
Lemma end_sessions_run c what name srv r srv' : ok (data srv) → end_sessions deps c what name srv = (r, srv') →
  ok (data srv') ∧ match r with
    | Ok n => dp_Sessions deps = true →
        view (data srv') = on_sessions (filter (λ kx, Session.Owner kx.2 ≠ name)) (view (data srv)) ∧
        n = Z.of_nat (size (filter (λ kx, Session.Owner kx.2 = name) (sessions (view (data srv)))))
    | Err _ => view (data srv') = view (data srv)
    end.
Proof.
  intros Hok E. unfold end_sessions in E. destruct (dp_Sessions deps); [|by injection E as <- <-].
  apply (answered_effect _ _ _ _ _ _ (law_DeleteSessionsForOwner name)) in E as [Hok' Hr]; [|done]. split; [done|].
  destruct r as [n|e]; [|by destruct Hr]. by destruct Hr as (evs & _ & -> & ->).
Qed.
End revoking.

(** The storage without what lets somebody in. *)
Definition locked_out (name : string) (a : Abs) : Abs :=
  on_sessions (filter (λ kx, Session.Owner kx.2 ≠ name)) (on_tokens (filter (λ kx, APIToken.Owner kx.2 ≠ name)) a).
Definition blocked (name : string) (a : Abs) : Abs :=
  on_devices (fmap (λ d, if bool_decide (Device.Owner d = name)
    then Device.with_Access true (Device.ExpiresAt d) d else d)) a.

(** C5 Revoking the access of somebody. Only an admin can, and not their own:
    their tokens are gone, their sessions ended and every device of theirs is
    blocked, nothing else changes, and the answer counts what was there. When it
    fails half-way, the devices are as they were, and they are not blocked before
    the tokens and the sessions are gone. *)
Theorem revoking_access {S W} `{StorageLaws S} `{WireGuard W} `{PasswordHashing} `{UpperTable} `{WebAuthn}
    conf cfg host_addrs deps c name (srv : Server S W) r srv' :
  ok (data srv) → dp_Tokens deps = true → dp_Sessions deps = true →
  serve conf cfg host_addrs deps c (P_RevokeAccess name) srv = (r, srv') →
  match r with
  | Ok a => ∃ user, CurrentUser (ctx c) = Ok user ∧ is_admin user = true ∧ name ≠ Identity.Subject user ∧
      view (data srv') = blocked name (locked_out name (view (data srv))) ∧
      a = A_Revoked (mkRevokeAccessRes
        (int32 (Z.of_nat (List.length (filter (λ d, Device.Disabled d = false) (owned (devices (view (data srv))) name)))))
        (int32 (Z.of_nat (size (filter (λ kx, APIToken.Owner kx.2 = name) (tokens (view (data srv)))))))
        (int32 (Z.of_nat (size (filter (λ kx, Session.Owner kx.2 = name) (sessions (view (data srv))))))))
  | Err _ => devices (view (data srv')) = devices (view (data srv)) ∧
      (view (data srv') = view (data srv) ∨
       view (data srv') = on_tokens (filter (λ kx, APIToken.Owner kx.2 ≠ name)) (view (data srv)) ∨
       view (data srv') = locked_out name (view (data srv)))
  end.
Proof.
  intros Hok Ht Hs E. unfold serve, answer_with, m_bind at 1 in E.
  destruct (RevokeAccess_call deps c name srv) as [x srv1] eqn:Ec.
  assert (r = match x with Ok a => Ok (A_Revoked a) | Err e => Err e end ∧ srv' = srv1) as [-> ->]
    by (destruct x; by injection E as <- <-). clear E.
  unfold RevokeAccess_call in Ec. unfold m_bind at 1, current_user, m_answer at 1, lift in Ec.
  destruct (CurrentUser (ctx c)) as [user|e0] eqn:Eu; [|injection Ec as <- <-; split; [done|by left]].
  destruct (is_admin user) eqn:Ea; cbn [negb] in Ec; [|injection Ec as <- <-; split; [done|by left]].
  destruct (String.eqb_spec name (Identity.Subject user)) as [|Hne]; [injection Ec as <- <-; split; [done|by left]|].
  unfold m_bind at 1 in Ec. destruct (delete_tokens deps c _ name srv) as [t srv2] eqn:Et.
  apply delete_tokens_run in Et as [Hok2 Hv2]; [|done].
  destruct t as [n|e]; [|injection Ec as <- <-; rewrite Hv2; split; [done|by left]].
  destruct (Hv2 Ht) as [Hv2' ->]. clear Hv2. unfold m_bind at 1 in Ec.
  destruct (end_sessions deps c _ name srv2) as [t srv3] eqn:Es.
  apply end_sessions_run in Es as [Hok3 Hv3]; [|done].
  destruct t as [n|e]; [|injection Ec as <- <-; rewrite Hv3, Hv2'; split; [done|by right; left]].
  destruct (Hv3 Hs) as [Hv3' ->]. clear Hv3. unfold m_bind at 1 in Ec. unfold m_answer at 1, on_data, on_manager, on_storage, zoom in Ec.
  destruct (BlockDevicesForUser name (storage (manager srv3))) as [t s4] eqn:Eb. destruct t as [n|e].
  - apply BlockDevicesForUser_spec in Eb as (Hok4 & Hv4 & ->); [|done].
    unfold m_bind, audit, m_modify in Ec. injection Ec as <- <-. exists user. split_and!; [done..| |].
    + unfold data in *. simpl. by rewrite Hv4, Hv3', Hv2'.
    + unfold data in *. by rewrite Hv3', Hv2'.
  - injection Ec as <- <-.
    assert (atomic (BlockDevicesForUser (S := S) name)) as Hat by (unfold BlockDevicesForUser; solve_atomic).
    destruct (Hat _ _ _ Hok3 Eb) as [_ Herr]. destruct (Herr _ eq_refl) as (_ & Hv4 & _).
    unfold data in *. simpl. rewrite Hv4, Hv3', Hv2'. split; [done|by right; right].
Qed.

Section deleting.
  Context {S : Type} `{StorageLaws S}.
Lemma effect_DeleteDevicesForUser name : effect view ok (DeleteDevicesForUser (S := S) name)
  (λ a _ a' _, a' = on_devices (filter (λ kd, Device.Owner kd.2 ≠ name)) a).
Proof.
  intros s r s' Hok E. unfold DeleteDevicesForUser, m_bind, m_wrap in E.
  destruct (Storage.DeleteForOwner name s) as [x s1] eqn:Ed.
  destruct (law_DeleteForOwner name _ _ _ Hok Ed) as [Hok' Hr].
  destruct x as [l|e]; simpl in E; injection E as <- <-; (split; [done|]); [|done].
  destruct Hr as (evs & (_ & Hv & _) & He). by exists evs.
Qed.
Lemma effect_ForgetUser name : effect view ok (ForgetUser (S := S) name)
  (λ a _ a' _, a' = on_passkeys (filter (λ ip, Passkey.Owner ip.2 ≠ name)) (on_users (delete name) a)).
Proof.
  intros s r s' Hok E. unfold ForgetUser, m_wrap in E. destruct (DeleteUser name s) as [x s1] eqn:Ed.
  destruct (law_DeleteUser name _ _ _ Hok Ed) as [Hok' Hr].
  destruct x as [l|e]; simpl in E; injection E as <- <-; (split; [done|]); [|done].
  destruct Hr as (evs & [_ Hv] & He). by exists evs.
Qed.
End deleting.

(** The storage without a user. *)
Definition forgotten (name : string) (a : Abs) : Abs :=
  on_passkeys (filter (λ ip, Passkey.Owner ip.2 ≠ name)) (on_users (delete name)
    (on_devices (filter (λ kd, Device.Owner kd.2 ≠ name)) (locked_out name a))).

(** Deleting a user. Only an admin can, and afterwards the storage holds
    nothing of them, and everything of everybody else. When it fails half-way,
    the account is still there: never is it gone while something of theirs is
    left, and no device goes before the tokens and the sessions. *)
Theorem deleting_users {S W} `{StorageLaws S} `{WireGuard W} `{PasswordHashing} `{UpperTable} `{WebAuthn}
    conf cfg host_addrs deps c name (srv : Server S W) r srv' :
  ok (data srv) → dp_Tokens deps = true → dp_Sessions deps = true →
  serve conf cfg host_addrs deps c (P_DeleteUser name) srv = (r, srv') →
  match r with
  | Ok _ => (∃ user, CurrentUser (ctx c) = Ok user ∧ is_admin user = true) ∧
      view (data srv') = forgotten name (view (data srv)) ∧
      others name (view (data srv')) = others name (view (data srv)) ∧
      no_tokens name (view (data srv')) ∧ no_sessions name (view (data srv')) ∧ no_devices name (view (data srv')) ∧
      no_passkeys name (view (data srv')) ∧ users (view (data srv')) !! name = None
  | Err _ => users (view (data srv')) = users (view (data srv)) ∧
      (devices (view (data srv')) = devices (view (data srv)) ∨
       no_tokens name (view (data srv')) ∧ no_sessions name (view (data srv')))
  end.
Proof.
  intros Hok Ht Hs E. unfold serve, answer_with, m_bind at 1 in E.
  destruct (DeleteUser_call deps c name srv) as [x srv1] eqn:Ec.
  assert (r = match x with Ok a => Ok A_Empty | Err e => Err e end ∧ srv' = srv1) as [-> ->]
    by (destruct x; by injection E as <- <-). clear E.
  unfold DeleteUser_call in Ec. unfold m_bind at 1, current_user, m_answer at 1, lift in Ec.
  destruct (CurrentUser (ctx c)) as [user|e0] eqn:Eu; [|injection Ec as <- <-; split; [done|by left]].
  destruct (is_admin user) eqn:Ea; cbn [negb] in Ec; [|injection Ec as <- <-; split; [done|by left]].
  unfold m_bind at 1 in Ec. destruct (delete_tokens deps c _ name srv) as [t srv2] eqn:Et.
  apply delete_tokens_run in Et as [Hok2 Hv2]; [|done].
  destruct t as [n|e]; [|injection Ec as <- <-; rewrite Hv2; split; [done|by left]].
  destruct (Hv2 Ht) as [Hv2' _]. clear Hv2. unfold m_bind at 1 in Ec.
  destruct (end_sessions deps c _ name srv2) as [t srv3] eqn:Es.
  apply end_sessions_run in Es as [Hok3 Hv3]; [|done].
  destruct t as [n'|e]; [|injection Ec as <- <-; rewrite Hv3, Hv2'; split; [done|by left]].
  destruct (Hv3 Hs) as [Hv3' _]. clear Hv3. unfold m_bind at 1 in Ec.
  assert (view (data srv3) = locked_out name (view (data srv))) as Hlock by by rewrite Hv3', Hv2'.
  destruct (m_answer _ (on_data (DeleteDevicesForUser name)) srv3) as [t srv4] eqn:Ed.
  apply (answered_effect _ _ _ _ _ _ (effect_DeleteDevicesForUser name)) in Ed as [Hok4 Hv4]; [|done].
  destruct t as [u|e]; [|injection Ec as <- <-; destruct Hv4 as [-> _]; rewrite Hlock; split; [done|by left]].
  destruct Hv4 as [_ Hv4]. unfold m_bind at 1 in Ec.
  destruct (m_answer _ (on_data (ForgetUser name)) srv4) as [t srv5] eqn:Ef.
  apply (answered_effect _ _ _ _ _ _ (effect_ForgetUser name)) in Ef as [Hok5 Hv5]; [|done].
  destruct t as [u'|e].
  - destruct Hv5 as [_ Hv5]. unfold audit, m_modify in Ec. injection Ec as <- <-.
    assert (view (data srv5) = forgotten name (view (data srv))) as Hall by by rewrite Hv5, Hv4, Hlock.
    change (data (mkServer _ _ _)) with (data srv5). rewrite Hall. split; [by exists user|]. split; [done|].
    split; [|split_and!; [..|by apply lookup_delete_eq];
      intros k y Hy; simpl in Hy; by apply map_lookup_filter_Some in Hy as [_ Hy]].
    unfold others, forgotten, locked_out. simpl. by rewrite !own_filter, delete_delete_eq.
  - injection Ec as <- <-. destruct Hv5 as [-> _]. rewrite Hv4, Hlock. split; [done|]. right.
    split; intros k y Hy; simpl in Hy; by apply map_lookup_filter_Some in Hy as [_ Hy].
Qed.

(** ** Signing out elsewhere *)
(** What is left to somebody: no token, and at most the session they are in. *)
Definition alone (c : CallContext) (subject : string) (a : Abs) : Prop :=
  no_tokens subject a ∧
  ∀ k x, sessions a !! k = Some x → Session.Owner x = subject → k = "" ∨ Session.Hash x = hash (CurrentSessionID (ctx c)).

Section elsewhere.
  Context {S W : Type} `{StorageLaws S}.
  Implicit Types (srv : Server S W) (c : CallContext).
(** The storage answers what signing out needs. *)
Definition answers (subject : string) : Prop := ∀ s : S, ok s →
  is_ok (ListSessions subject s).1 = true ∧ is_ok (DeleteTokensForOwner subject s).1 = true ∧
  ∀ id, is_ok (DeleteSession id s).1 = true.

Lemma end_others_answers subject keep l n (s : S) m err s' : answers subject → ok s →
  end_others keep l n s = (Ok (m, err), s') → err = None.
Proof.
  intros Ha. revert n s. induction l as [|x l IH]; intros n s Hok E; cbn [end_others] in E; [by injection E as _ <- _|].
  destruct (String.eqb _ keep); [by eapply IH|]. unfold m_bind, m_try in E.
  destruct (Ha s Hok) as (_ & _ & Hd). specialize (Hd (Session.ID x)).
  destruct (DeleteSession (Session.ID x) s) as [[u|e] s1] eqn:Ed; [|done].
  apply (effect_ok _ _ _ _ _ (law_DeleteSession _)) in Ed as (Hok1 & _); [|done]. by eapply IH.
Qed.
Lemma EndOthers_run subject keep (s : S) r s' : answers subject → ok s → EndOthers subject keep s = (r, s') →
  ok s' ∧ tokens (view s') = tokens (view s) ∧ sessions (view s') ⊆ sessions (view s) ∧
  ∀ k x, sessions (view s') !! k = Some x → Session.Owner x = subject → k = keep.
Proof.
  intros Ha Hok E. unfold EndOthers in E. unfold m_bind at 1, m_try in E. destruct (Ha s Hok) as (Hl & _).
  destruct (ListSessions subject s) as [[l|e] s1] eqn:El; [|done].
  apply ListSessions_spec in El as (-> & Hn & Hin); [|done].
  assert (∃ m err, r = Ok (m, err)) as (m & err & ->).
  { revert E. generalize 0. clear Hn Hin Hl. revert Ha Hok. generalize s as s0. induction l as [|x l IH]; intros s0 Ha Hok n E.
    - injection E as <- <-. eauto.
    - cbn [end_others] in E. destruct (String.eqb _ keep); [by eapply IH|]. unfold m_bind, m_try in E.
      destruct (DeleteSession (Session.ID x) s0) as [[u|e] s2] eqn:Ed; [|injection E as <- <-; eauto].
      apply (effect_ok _ _ _ _ _ (law_DeleteSession _)) in Ed as (Hok1 & _); [|done]. by eapply IH. }
  pose proof (end_others_answers _ _ _ _ _ _ _ _ Ha Hok E) as ->.
  apply end_others_spec in E as (Hok' & gone & Hsub & Hall & Hv & _); [|done..|by intros y [_ Hy]%Hin].
  specialize (Hall eq_refl).
  split_and!; [done|by rewrite Hv|rewrite Hv; apply map_filter_subseteq|].
  intros k x Hk Ho. rewrite Hv in Hk. simpl in Hk. apply map_lookup_filter_Some in Hk as [Hk Hg]. simpl in Hg.
  destruct (decide (k = keep)) as [|Hne]; [done|]. exfalso. apply Hg, Hall, list_elem_of_filter. split; [done|].
  pose proof (wf_session_key _ (ok_wf _ Hok) _ _ Hk) as Hkey. apply list_elem_of_fmap. exists x. split; [done|].
  apply Hin. by rewrite Hkey.
Qed.

Variable deps : Deps.
Lemma signOutElsewhere_run c subject srv r srv' : answers subject → ok (data srv) →
  dp_Tokens deps = true → dp_Sessions deps = true → signOutElsewhere deps c subject srv = (r, srv') →
  ok (data srv') ∧ is_ok r = true ∧ alone c subject (view (data srv')).
Proof.
  intros Ha Hok Ht Hs E. unfold signOutElsewhere in E. rewrite Ht, Hs in E.
  unfold m_bind at 1 in E. unfold m_bind at 1, keep_session in E. unfold m_bind at 1, m_try at 1 in E.
  destruct (on_data (Find (CurrentSessionID (ctx c))) srv) as [f srv1] eqn:Ef.
  unfold on_data, on_manager, on_storage, zoom in Ef.
  destruct (Find (CurrentSessionID (ctx c)) (storage (manager srv))) as [f0 s1] eqn:Ef0. injection Ef as <- <-.
  assert (s1 = storage (manager srv) ∧ ∀ x, f0 = Ok x → names (view (data srv)) (CurrentSessionID (ctx c)) x) as [-> Hfound].
  { unfold Find in Ef0. destruct (String.eqb _ ""); [by injection Ef0 as <- <-|]. destruct f0 as [x|e].
    - apply lookup_session_ok in Ef0 as [-> Hx]; [|done]. split; [done|]. by intros y [= <-].
    - split; [|done]. unfold lookup_session, m_bind, m_try in Ef0.
      destruct (GetSessionByHash _ _) as [g s2] eqn:Eg. apply (law_GetSessionByHash _) in Eg as [-> _]; [|done].
      destruct g; by injection Ef0 as _ <-. }
  cbn [m_ret] in E. set (keep := match f0 with Ok session => Session.ID session | Err _ => "" end) in E.
  unfold m_bind at 1, m_try at 1 in E. unfold on_data at 1, on_manager at 1, on_storage at 1, zoom at 1 in E.
  unfold zoom at 1 in E. simpl in E.
  destruct (EndOthers subject keep (storage (manager srv))) as [eo s2] eqn:Eo.
  apply EndOthers_run in Eo as (Hok2 & Htok & Hsub & Hkeep); [|done|done].
  unfold m_bind at 1 in E. unfold m_bind at 1, m_try at 1 in E. unfold on_data, on_manager, on_storage, zoom in E. simpl in E.
  unfold DeleteForOwner in E. destruct (DeleteTokensForOwner subject s2) as [d s3] eqn:Ed.
  destruct (Ha s2 Hok2) as (_ & Hd & _). rewrite Ed in Hd. destruct d as [n|e]; [|done].
  apply (effect_ok _ _ _ _ _ (law_DeleteTokensForOwner _)) in Ed as (Hok3 & evs & (_ & _ & Hv3) & _); [|done].
  cbn in E. injection E as <- <-. split; [done|]. split; [done|]. unfold data. simpl. rewrite Hv3. split.
  - intros k x Hk. simpl in Hk. by apply map_lookup_filter_Some in Hk as [_ Hk].
  - intros k x Hk Ho. simpl in Hk. pose proof (Hkeep _ _ Hk Ho) as ->.
    assert (sessions (view (data srv)) !! keep = Some x) as Hx by (eapply lookup_weaken; [exact Hk|done]).
    unfold keep in *. destruct f0 as [y|e]; [right|by left].
    destruct (Hfound y eq_refl) as [Hy Hh]. congruence.
Qed.
End elsewhere.

Section signing_out.
  Context {S W : Type} `{StorageLaws S} `{WireGuard W} `{PasswordHashing} `{UpperTable} `{WebAuthn}.
  Variable deps : Deps.
  Implicit Types (srv : Server S W) (c : CallContext).

(** The account part of the server. *)
Definition accounts srv : Accounts S := mkAccounts (data srv) (wrong_passwords srv).
Lemma answered_accounts {A} f (m : M (Accounts S) A) subject srv x srv' :
  Confine.confined store subject m → ok (data srv) → m_answer f (on_accounts m) srv = (Ok x, srv') →
  ok (data srv') ∧ m (accounts srv) = (Ok x, accounts srv').
Proof.
  intros Hm Hok E. unfold m_answer, on_accounts, zoom in E. fold (accounts srv) in E.
  change (mkAccounts (storage (manager srv)) (wrong_passwords srv)) with (accounts srv) in E.
  destruct (m (accounts srv)) as [[y|e] u] eqn:Em; [|done]. injection E as <- <-.
  pose proof (Hm (accounts srv) _ _ Hok Em) as [Hok' _]. split; [exact Hok'|]. unfold accounts, data. simpl. by destruct u.
Qed.
Lemma ok_caller c {A} (k : Identity → M (Server S W) A) srv x srv' :
  m_bind (current_user c) k srv = (Ok x, srv') → ∃ user, CurrentUser (ctx c) = Ok user ∧ k user srv = (Ok x, srv').
Proof.
  intros E. unfold m_bind, current_user, m_answer, lift in E. destruct (CurrentUser (ctx c)) as [u|e]; [|done]. by exists u.
Qed.
Lemma ok_no_token c {A} (k : unit → M (Server S W) A) srv x srv' :
  m_bind (lift (refuseAPIToken c)) k srv = (Ok x, srv') → APIToken_id (ctx c) = "" ∧ k tt srv = (Ok x, srv').
Proof.
  intros E. unfold m_bind, lift, refuseAPIToken in E. destruct (String.eqb_spec (APIToken_id (ctx c)) ""); by cbn in E.
Qed.
End signing_out.

Section theorem_elsewhere.
  Context {S W : Type} `{StorageLaws S} `{WireGuard W} `{PasswordHashing} `{UpperTable} `{WebAuthn}.
  Variables (conf : InfoConfig) (cfg : Config) (host_addrs : result (list (option string))) (deps : Deps).
  Implicit Types (srv : Server S W) (c : CallContext).

Lemma ChangePassword_ok c current next srv n srv' : ok (data srv) → dp_Tokens deps = true → dp_Sessions deps = true →
  (∀ subject, answers (S := S) subject) →
  ChangePassword_call deps c current next srv = (Ok n, srv') →
  ∃ user configured u, CurrentUser (ctx c) = Ok user ∧ dp_Passwords deps = Some configured ∧
    APIToken_id (ctx c) = "" ∧ HasPassword (Identity.Provider user) = true ∧ minPasswordLength <= slen next ∧
    Change configured (Identity.Subject user) current next (now c) (accounts srv) = (Ok tt, u) ∧
    alone c (Identity.Subject user) (view (data srv')).
Proof.
  intros Hok Ht Hs Ha E. unfold ChangePassword_call in E. apply ok_caller in E as (user & Hu & E).
  apply ok_no_token in E as [Htok E]. destruct (dp_Passwords deps) as [configured|] eqn:Ep; [|done].
  destruct (HasPassword (Identity.Provider user)) eqn:Eh; cbn [negb] in E; [|done].
  destruct (Z.ltb_spec (slen next) minPasswordLength) as [|Hlen]; [done|].
  apply m_bind_ok in E as ([] & srv1 & E1 & E).
  apply (answered_accounts _ _ (Identity.Subject user)) in E1 as [Hok1 Hc]; [|apply confined_Change|done].
  apply m_bind_ok in E as (p & srv2 & E2 & E).
  apply signOutElsewhere_run in E2 as (Hok2 & _ & Hal); [|done..].
  destruct p as [ended deleted]. unfold m_bind, audit, m_modify in E. injection E as <- <-.
  exists user, configured, (accounts srv1). split_and!; done.
Qed.
Lemma ConfirmTwoFactor_ok c code bufs srv codes srv' : ok (data srv) → dp_Tokens deps = true → dp_Sessions deps = true →
  (∀ subject, answers (S := S) subject) →
  ConfirmTwoFactor_call deps c code bufs srv = (Ok codes, srv') →
  ∃ user u, CurrentUser (ctx c) = Ok user ∧ APIToken_id (ctx c) = "" ∧
    Confirm (Identity.Subject user) code (now c) bufs (accounts srv) = (Ok codes, u) ∧
    alone c (Identity.Subject user) (view (data srv')).
Proof.
  intros Hok Ht Hs Ha E. unfold ConfirmTwoFactor_call, twoFactorFor in E.
  apply m_bind_ok in E as ([user tf] & srv0 & E0 & E).
  apply ok_caller in E0 as (user' & Hu & E0). apply ok_no_token in E0 as [Htok E0].
  destruct (dp_TwoFactor deps) as [tf'|]; [|done].
  assert (user = user' ∧ srv0 = srv) as [-> ->].
  { destruct (negb (HasPassword _)); [done|]. destruct (negb _); [done|]. by injection E0 as <- _ <-. }
  apply m_bind_ok in E as (codes' & srv1 & E1 & E).
  apply (answered_accounts _ _ (Identity.Subject user')) in E1 as [Hok1 Hc]; [|apply confined_Confirm|done].
  apply m_bind_ok in E as (p & srv2 & E2 & E).
  apply signOutElsewhere_run in E2 as (Hok2 & _ & Hal); [|done..].
  destruct p as [ended deleted]. unfold m_bind, audit, m_modify in E. injection E as <- <-.
  exists user', (accounts srv1). split_and!; done.
Qed.
Lemma FinishPasskey_ok c name credential srv p srv' : ok (data srv) → dp_Tokens deps = true → dp_Sessions deps = true →
  (∀ subject, answers (S := S) subject) →
  FinishPasskey_call deps c name credential srv = (Ok p, srv') →
  ∃ user, CurrentUser (ctx c) = Ok user ∧ APIToken_id (ctx c) = "" ∧
    (no_passkeys (Identity.Subject user) (view (data srv)) → alone c (Identity.Subject user) (view (data srv'))).
Proof.
  intros Hok Ht Hs Ha E. unfold FinishPasskey_call, passkeysFor in E.
  apply m_bind_ok in E as ([user rp] & srv0 & E0 & E).
  apply ok_caller in E0 as (user' & Hu & E0).
  destruct (dp_Passkeys deps) as [rp'|]; [|done].
  assert (user = user' ∧ srv0 = srv) as [-> ->].
  { destruct (negb (HasPassword _)); [done|]. destruct (negb _); [done|]. by injection E0 as <- _ <-. }
  apply ok_no_token in E as [Htok E]. exists user'. split_and!; [done..|]. intros Hnone.
  apply m_bind_ok in E as (has & srv1 & E1 & E).
  assert (ok (data srv1) ∧ has = false) as [Hok1 ->].
  { unfold on_data, on_manager, on_storage, zoom in E1. destruct (Has _ _) as [h s1] eqn:Eh. injection E1 as -> <-.
    unfold Has, m_bind, m_try in Eh. destruct (ListPasskeys _ _) as [l s2] eqn:El.
    pose proof (law_ListPasskeys _ _ _ _ Hok El) as [-> Hl]. injection Eh as <- <-. split; [exact Hok|].
    destruct l as [[|y l]|e]; [done| |done]. destruct Hl as [Hl _].
    assert (y ∈ y :: l) as Hy by left. apply (lists_rows_elem _ _ _ _ Hl) in Hy as [Ho (k & Hk)].
    exfalso. by apply (Hnone k y). }
  apply m_bind_ok in E as (pk & srv2 & E2 & E).
  assert (ok (data srv2)) as Hok2.
  { refine (proj1 (srv_answer (Identity.Subject user') finish_error _ _ _ _ _ Hok1 E2)).
    apply srv_on_data, confined_FinishRegistration. }
  apply m_bind_ok in E as (fields & srv3 & E3 & E). apply m_bind_ok in E3 as ([ended deleted] & srv4 & E4 & E3).
  apply signOutElsewhere_run in E4 as (Hok4 & _ & Hal); [|done..].
  injection E3 as _ <-. unfold m_bind, audit, m_modify in E. by injection E as <- <-.
Qed.
End theorem_elsewhere.

(** A change of the password, turning the second factor on and the first
    passkey end every other way in: when one of them succeeds, made by a browser
    and not by a token, no token of the account is left and no session but the
    one the request came with. The password change needs the old password and a
    new one of ten bytes. *)
Theorem signing_out_elsewhere {S W} `{StorageLaws S} `{WireGuard W} `{PasswordHashing} `{UpperTable} `{WebAuthn}
    conf cfg host_addrs deps c p (srv : Server S W) a srv' :
  ok (data srv) → dp_Tokens deps = true → dp_Sessions deps = true → (∀ subject, answers (S := S) subject) →
  serve conf cfg host_addrs deps c p srv = (Ok a, srv') →
  match p with
  | P_ChangePassword current next => ∃ user configured, CurrentUser (ctx c) = Ok user ∧
      dp_Passwords deps = Some configured ∧ APIToken_id (ctx c) = "" ∧ minPasswordLength <= slen next ∧
      right_password configured (accounts srv) (Identity.Subject user) current ∧
      alone c (Identity.Subject user) (view (data srv'))
  | P_ConfirmTwoFactor _ _ => ∃ user, CurrentUser (ctx c) = Ok user ∧ APIToken_id (ctx c) = "" ∧
      alone c (Identity.Subject user) (view (data srv'))
  | P_FinishPasskey _ _ => ∃ user, CurrentUser (ctx c) = Ok user ∧ APIToken_id (ctx c) = "" ∧
      (no_passkeys (Identity.Subject user) (view (data srv)) → alone c (Identity.Subject user) (view (data srv')))
  | _ => True
  end.
Proof.
  intros Hok Ht Hs Ha E. destruct p; try done; unfold serve, answer_with in E; apply m_bind_ok in E as (x & srv1 & E & E').
  - injection E' as _ <-. apply ChangePassword_ok in E as (user & configured & u & Hu & Hp & Htok & _ & Hlen & Hc & Hal); [|done..].
    exists user, configured. split_and!; try done. unfold Change in Hc. destruct (configured _) as [entry|]; [|done].
    apply m_bind_ok in Hc as ([] & u1 & Hv & _). by apply Verify_ok in Hv as (_ & _ & Hr).
  - injection E' as _ <-. apply ConfirmTwoFactor_ok in E as (user & u & Hu & Htok & _ & Hal); [|done..]. by exists user.
  - injection E' as _ <-. by apply FinishPasskey_ok in E.
Qed.

(** ** A concrete server *)
Import Demo.
(** The in-memory storage never fails to list or to delete. *)
Lemma memory_answers subject : answers (S := InMemoryStorage) subject.
Proof. intros s _. split_and!; done. Qed.

Definition entries : string → option string := λ who, if String.eqb who "alice" then Some "secret" else None.
Definition site : option Request → string * string := RelyingPartyFromHost "vpn.example.com" true.
Definition demo_deps : Deps := mkDeps (Some entries) (Some (mkTwoFactorDeps (Some entries) true "wg")) (Some site) true true.
Definition demo_conf : InfoConfig :=
  mkInfoConfig "vpn.example.com" 51820 true false 0 ["0.0.0.0/0"] true "" [] "" 1420 0 "dev" "" 1420 true.
Definition demo_identity (who : string) (claims : Claims) : Identity := Identity.mk "simple" who who "" claims.
Definition demo_call (who : string) (claims : Claims) (token : string) : CallContext :=
  mkCall (Some (mkAuthSession None None None "" (Some (demo_identity who claims)) token None)) None "t1" "192.0.2.1" 1000.
Definition as_alice : CallContext := demo_call "alice" [] "".
Definition as_root : CallContext := demo_call "root" [mkClaim "admin" "true"] "".
Notation DemoServer := (Server InMemoryStorage Peers).
Notation run_call c p := (serve (S := InMemoryStorage) (W := Peers) demo_conf Demo.cfg (Ok []) demo_deps c p).
Definition alice_user : User := User.mk "alice" "simple" "Alice" "" "" 0 "" "" None "" None "" 0 "".
Definition with_alice : InMemoryStorage := (SaveUser alice_user NewMemoryStorage).2.
Definition server0 : DemoServer := mkServer (New with_alice ∅) ∅ [].
Definition add_laptop : procedure := P_AddDevice "laptop" Demo.pk1 "" false "" "".
Definition server1 : DemoServer := (run_call as_alice add_laptop server0).2.
Definition add_token : procedure := P_CreateToken "ci" None [1] [2].
Definition server2 : DemoServer := (run_call as_alice add_token server1).2.

Lemma server0_ok : ok (data server0).
Proof.
  destruct (m_run_ok (SaveUser alice_user) NewMemoryStorage) as [a E]; [vm_compute; reflexivity|].
  by apply (effect_ok _ _ _ _ _ (law_SaveUser _)) in E as [Hok _]; [|apply NewMemoryStorage_ok].
Qed.
Lemma serve_ok c user p (srv : DemoServer) : CurrentUser (ctx c) = Ok user → is_admin user = false →
  draws_fresh p srv → ok (data srv) → ok (data (run_call c p srv).2).
Proof.
  intros Hu Ha Hf Hok. destruct (run_call c p srv) as [r srv'] eqn:E.
  eapply (serve_confined demo_conf Demo.cfg (Ok []) demo_deps c user Demo.cfg_ok Hu Ha) in E; [|done..]. by destruct E.
Qed.
Lemma server1_ok : ok (data server1).
Proof. exact (serve_ok as_alice (demo_identity "alice" []) add_laptop server0 eq_refl eq_refl I server0_ok). Qed.
Lemma server1_fresh : draws_fresh add_token server1.
Proof. vm_compute. done. Qed.
Lemma server2_ok : ok (data server2).
Proof. exact (serve_ok as_alice (demo_identity "alice" []) add_token server1 eq_refl eq_refl server1_fresh server1_ok). Qed.

Lemma api_confined_witness : ∃ a, run_call as_alice add_token server1 = (Ok a, server2) ∧
  others "alice" (view (data server2)) = others "alice" (view (data server1)).
Proof.
  destruct (m_run_ok (run_call as_alice add_token) server1) as [a E]; [vm_compute; reflexivity|]. exists a. split; [exact E|].
  exact (proj2 (api_confined demo_conf Demo.cfg (Ok []) demo_deps as_alice add_token (demo_identity "alice" []) server1
    _ _ Demo.cfg_ok server1_ok eq_refl eq_refl server1_fresh E)).
Defined.
Lemma api_access_witness : ∃ e, run_call as_alice (P_DeleteUser "root") server2 = (Err e, server2) ∧ refused_code e = true.
Proof.
  apply (api_access demo_conf Demo.cfg (Ok []) demo_deps as_alice (P_DeleteUser "root") server2).
  right. left. exists (demo_identity "alice" []). split_and!; reflexivity.
Defined.
Lemma revoking_access_witness : run_call as_root (P_RevokeAccess "alice") server2 =
    (Ok (A_Revoked (mkRevokeAccessRes 1 1 0)), (run_call as_root (P_RevokeAccess "alice") server2).2) ∧
  view (data (run_call as_root (P_RevokeAccess "alice") server2).2) = blocked "alice" (locked_out "alice" (view (data server2))).
Proof.
  destruct (run_call as_root (P_RevokeAccess "alice") server2) as [r srv'] eqn:E.
  assert (r = Ok (A_Revoked (mkRevokeAccessRes 1 1 0))) as ->.
  { assert (r = (run_call as_root (P_RevokeAccess "alice") server2).1) as -> by (rewrite E; reflexivity).
    vm_compute. reflexivity. }
  split; [reflexivity|].
  destruct (revoking_access demo_conf Demo.cfg (Ok []) demo_deps as_root "alice" server2 _ _ server2_ok eq_refl eq_refl E)
    as (user & _ & _ & _ & Hv & _). exact Hv.
Defined.
Lemma deleting_users_witness : ∃ a, run_call as_root (P_DeleteUser "alice") server2 =
    (Ok a, (run_call as_root (P_DeleteUser "alice") server2).2) ∧
  users (view (data (run_call as_root (P_DeleteUser "alice") server2).2)) !! "alice" = None.
Proof.
  destruct (m_run_ok (run_call as_root (P_DeleteUser "alice")) server2) as [a E]; [vm_compute; reflexivity|].
  exists a. split; [exact E|].
  destruct (deleting_users demo_conf Demo.cfg (Ok []) demo_deps as_root "alice" server2 _ _ server2_ok eq_refl eq_refl E)
    as (_ & _ & _ & _ & _ & _ & _ & Hu). exact Hu.
Defined.
Definition change_password : procedure := P_ChangePassword "secret" "a longer secret".
Lemma signing_out_elsewhere_witness : ∃ a, run_call as_alice change_password server2 =
    (Ok a, (run_call as_alice change_password server2).2) ∧
  no_tokens "alice" (view (data (run_call as_alice change_password server2).2)).
Proof.
  destruct (m_run_ok (run_call as_alice change_password) server2) as [a E]; [vm_compute; reflexivity|].
  exists a. split; [exact E|].
  destruct (signing_out_elsewhere demo_conf Demo.cfg (Ok []) demo_deps as_alice change_password server2 _ _ server2_ok
    eq_refl eq_refl memory_answers E) as (user & configured & Hu & _ & _ & _ & _ & Hn & _).
  injection Hu as <-. exact Hn.
Defined.
