(* ===== verification/ApiAudit.v ===== *)
(** * What the API writes into the audit log, and the errors clients get

    Both follow the shape of the procedures: a call that changes something ends
    with one entry, and every failure is answered with an error of the API. *)
From S2P Require Import Prelude GoText GoNet Network Encoding Storage AuthSession.
From S2P Require Import WireGuard Devices Routes Manager AuditLog Totp Passkeys Passwords TwoFactor.
From S2P Require Import ApiTokens WebSessions Api ApiUsers ApiServices ApiSpecs InMemory ApiTheorems DeviceTheorems Toys.

(** ** What a client learns of a failure *)
(** What an internal error says besides the trace id. *)
Definition internal_texts : list string :=
  [ "failed to add device"; "failed to retrieve devices"; "failed to delete device"; "failed to rename device";
    "failed to change the keys of the device"; "failed to change the access of the device";
    "failed to change the routes of the device"; "failed to retrieve users"; "failed to delete user";
    "failed to revoke the access of the user"; "failed to change the password";
    "failed to start the two-factor setup"; "failed to turn the second factor on";
    "failed to turn the second factor off"; "failed to remove the second factor";
    "failed to replace the recovery codes"; "failed to list the passkeys";
    "failed to start the passkey registration"; "failed to rename the passkey"; "failed to delete the passkey";
    "failed to create token"; "failed to retrieve tokens"; "failed to delete token"; "failed to retrieve sessions";
    "failed to end the session"; "failed to end the sessions"; "failed to get public key"; "failed to get server IPs" ].
Definition client_error (c : CallContext) (e : goerror) : Prop :=
  match e with
  | ConnectError CodeInternal cause =>
      ∃ what, what ∈ internal_texts ∧ cause = PlainError (what +:+ " (trace = " +:+ trace c +:+ ")")
  | ConnectError _ _ => True
  | _ => False
  end.

(** ** What a call writes down *)
(** The line of an action: the action, who did it and, with a token, which. *)
Definition records (c : CallContext) (action : string) (line : Fields) : Prop :=
  line !! "audit" = Some (FString action) ∧ line !! "trace.id" = Some (FString (trace c)) ∧
  ∀ user, CurrentUser (ctx c) = Ok user →
    line !! "actor" = Some (FString (Identity.Subject user)) ∧
    (APIToken_id (ctx c) ≠ "" → line !! "actor_api_token" = Some (FString (APIToken_id (ctx c)))).
(** The action a procedure is recorded as. *)
Definition action_of (p : procedure) : option string :=
  match p with
  | P_AddDevice _ _ _ _ _ _ => Some DeviceCreate
  | P_DeleteDevice _ _ => Some AuditLog.DeviceDelete
  | P_RenameDevice _ _ _ => Some DeviceRename
  | P_RotateDeviceKey _ _ _ => Some DeviceRotate
  | P_SetDeviceAccess _ _ _ _ _ => Some DeviceAccess
  | P_SetDeviceRoutes _ _ _ => Some AuditLog.DeviceRoutes
  | P_DeleteUser _ => Some UserDelete
  | P_RevokeAccess _ => Some UserRevoke
  | P_ChangePassword _ _ => Some UserPassword
  | P_ConfirmTwoFactor _ _ | P_DisableTwoFactor _ => Some UserTwoFactor
  | P_ResetTwoFactor _ => Some UserTwoFactorReset
  | P_NewRecoveryCodes _ _ => Some UserRecoveryCodes
  | P_FinishPasskey _ _ => Some UserPasskeyAdd
  | P_RenamePasskey _ _ => Some UserPasskeyRename
  | P_DeletePasskey _ => Some UserPasskeyDelete
  | P_CreateToken _ _ _ _ => Some TokenCreate
  | P_DeleteToken _ => Some TokenDelete
  | P_DeleteSession _ | P_DeleteOtherSessions => Some SessionDelete
  | P_ListDevices | P_ListAllDevices | P_ListUsers | P_StartTwoFactor _ | P_ListPasskeys | P_BeginPasskey _
  | P_ListTokens | P_ListAllTokens | P_ListSessions | P_Info _ => None
  end.

(** Fields an action does not set itself. *)
Definition plain_fields (fields : Fields) : Prop :=
  fields !! "audit" = None ∧ fields !! "actor" = None ∧ fields !! "trace.id" = None ∧ fields !! "actor_api_token" = None.
Lemma Log_records c action fields : plain_fields fields → records c action (Log (ctx c) (trace c) (remote_addr c) action fields).
Proof.
  intros (Ha & Hw & Ht & Hk). unfold Log, records.
  split_and!; [| |intros user ->; split; [|intros Htok]];
    rewrite lookup_union_r by done;
    repeat case_match; simplify_map_eq; try done.
  all: by match goal with Hb : String.eqb (APIToken_id _) "" = true |- _ => apply String.eqb_eq in Hb end.
Qed.

Section logs.
  Context {S W : Type}.
  Notation Srv := (Server S W).
  Variable c : CallContext.

(** Nothing is written down. *)
Definition quiet {A} (m : M Srv A) : Prop := ∀ srv r srv', m srv = (r, srv') → audit_log srv' = audit_log srv.
(** A success is recorded as the action, or not at all; a failure never is, and
    is one for a client. *)
Definition logs {A} (action : option string) (m : M Srv A) : Prop := ∀ srv r srv', m srv = (r, srv') →
  match r with
  | Ok _ => match action with
            | Some a => ∃ line, audit_log srv' = audit_log srv ++ [line] ∧ records c a line
            | None => audit_log srv' = audit_log srv
            end
  | Err e => audit_log srv' = audit_log srv ∧ client_error c e
  end.

Lemma quiet_on_manager {A} (m : M (DeviceManager S W) A) : quiet (on_manager m).
Proof. intros srv r srv' E. unfold on_manager, zoom in E. destruct (m (manager srv)). by injection E as <- <-. Qed.
Lemma quiet_on_data {A} (m : M S A) : quiet (on_data m).
Proof. apply quiet_on_manager. Qed.
Lemma quiet_on_accounts {A} (m : M (Accounts S) A) : quiet (on_accounts m).
Proof. intros srv r srv' E. unfold on_accounts, zoom in E. destruct (m _). by injection E as <- <-. Qed.
Lemma quiet_lift {A} (r : result A) : quiet (lift r).
Proof. intros srv x srv' E. by injection E as <- <-. Qed.
Lemma quiet_try {A} (m : M Srv A) : quiet m → quiet (m_try m).
Proof. intros Hm srv r srv' E. unfold m_try in E. destruct (m srv) eqn:Em. injection E as <- <-. by eapply Hm. Qed.

Lemma logs_ret {A} (a : A) : logs None (m_ret a).
Proof. intros srv r srv' E. by injection E as <- <-. Qed.
Lemma logs_fail {A} action e : client_error c e → logs action (m_fail (A := A) e).
Proof. intros He srv r srv' E. by injection E as <- <-. Qed.
Lemma logs_if {A} action (b : bool) (m1 m2 : M Srv A) : logs action m1 → logs action m2 → logs action (if b then m1 else m2).
Proof. by destruct b. Qed.
Lemma logs_bind_post {A B} (Q : A → Prop) action (m : M Srv A) (k : A → M Srv B) : logs None m →
  (∀ srv a srv', m srv = (Ok a, srv') → Q a) → (∀ a, Q a → logs action (k a)) → logs action (m_bind m k).
Proof.
  intros Hm Hq Hk srv r srv' E. unfold m_bind in E. destruct (m srv) as [[a|e] srv1] eqn:Em.
  - pose proof (Hq _ _ _ Em) as Ha. apply Hm in Em. apply (Hk a Ha) in E. by rewrite Em in E.
  - injection E as <- <-. by apply Hm in Em.
Qed.
Lemma logs_bind {A B} action (m : M Srv A) (k : A → M Srv B) : logs None m → (∀ a, logs action (k a)) → logs action (m_bind m k).
Proof. intros Hm Hk. by apply (logs_bind_post (λ _, True)). Qed.
Lemma logs_then {A B} action (m : M Srv A) (f : A → B) : logs action m → logs action (m_bind m (λ a, m_ret (f a))).
Proof.
  intros Hm srv r srv' E. unfold m_bind in E. destruct (m srv) as [[a|e] srv1] eqn:Em.
  - injection E as <- <-. by apply Hm in Em.
  - injection E as <- <-. by apply Hm in Em.
Qed.
Lemma logs_answer {A} f (m : M Srv A) : quiet m → (∀ e, client_error c (f e)) → logs None (m_answer f m).
Proof.
  intros Hm Hf srv r srv' E. unfold m_answer in E. destruct (m srv) as [[a|e] srv1] eqn:Em;
    injection E as <- <-; apply Hm in Em; [done|]. split; [done|apply Hf].
Qed.
Lemma logs_never {A} (m : M Srv A) : quiet m → never_fails m → logs None m.
Proof.
  intros Hm Hn srv r srv' E. specialize (Hn srv). rewrite E in Hn. apply Hm in E. by destruct r.
Qed.
Lemma logs_audit action fields : plain_fields fields → logs (Some action) (audit c action fields).
Proof.
  intros Hf srv r srv' E. unfold audit, m_modify in E. injection E as <- <-. eexists. split; [done|].
  by apply Log_records.
Qed.

Lemma logs_user : logs None (current_user (S := S) (W := W) c).
Proof. apply logs_answer; [apply quiet_lift|done]. Qed.
Lemma logs_no_token : logs (A := unit) None (lift (S := Srv) (refuseAPIToken c)).
Proof. unfold refuseAPIToken. intros srv r srv' E. destruct (negb _); by injection E as <- <-. Qed.

Lemma client_internal what : what ∈ internal_texts → client_error c (internalError c what).
Proof. intros Hw. exists what. by split. Qed.
End logs.

Create HintDb api_logs.
#[export] Hint Resolve logs_ret logs_user logs_no_token quiet_on_manager quiet_on_data quiet_on_accounts quiet_lift
  quiet_try never_try never_ret client_internal : api_logs.
#[export] Hint Extern 1 (_ ∈ internal_texts) => (unfold internal_texts; repeat constructor) : api_logs.
#[export] Hint Extern 1 (client_error _ errNotAuthenticated) => exact I : api_logs.
#[export] Hint Extern 1 (client_error _ errNotAdmin) => exact I : api_logs.
#[export] Hint Extern 1 (client_error _ errTooManyWrongPasswords) => exact I : api_logs.
#[export] Hint Extern 1 (client_error _ errNoSecondFactorHere) => exact I : api_logs.
#[export] Hint Extern 1 (client_error _ (connect_error _ _)) => exact I : api_logs.
#[export] Hint Extern 2 (client_error _ (ConnectError _ _)) => exact I : api_logs.
#[export] Hint Extern 2 (plain_fields _) => (split_and!; by simplify_map_eq) : api_logs.

(** [logs_step] follows the code of a procedure. *)
Ltac logs_step :=
  match goal with
  | |- ∀ _, _ => intros
  | |- logs _ _ (if _ then m_fail _ else _) => apply logs_if; [apply logs_fail|]
  | |- logs _ _ (m_bind _ (λ x, m_ret (@?f x))) => apply (logs_then _ _ _ f)
  | |- logs _ _ (m_bind _ _) => apply logs_bind
  | |- logs _ _ (m_answer _ _) => apply logs_answer
  | |- logs _ _ (m_fail _) => apply logs_fail
  | |- logs _ _ (audit _ _ _) => apply logs_audit
  | |- logs _ _ (match ?x with _ => _ end) => destruct x
  | |- client_error _ (if _ then _ else _) => case_match
  | |- client_error _ (match ?x with _ => _ end) => destruct x eqn:?
  | |- plain_fields (match ?x with _ => _ end) => destruct x
  | |- _ => solve [eauto with api_logs]
  end.

Section every.
  Context {S W : Type} `{Storage S} `{WireGuard W} `{PasswordHashing} `{UpperTable} `{WebAuthn}.
  Variables (conf : InfoConfig) (cfg : Config) (host_addrs : result (list (option string))) (deps : Deps).
  Variable c : CallContext.
  Notation Srv := (Server S W).
  Notation logs := (logs (S := S) (W := W) c).

Lemma client_deviceError what e : what ∈ internal_texts → client_error c (deviceError c what e).
Proof. intros Hw. unfold deviceError. repeat logs_step. Qed.
Lemma client_change e : client_error c (change_error c e).
Proof. unfold change_error. repeat logs_step. Qed.
Lemma client_confirm e : client_error c (confirm_error c e).
Proof. unfold confirm_error. repeat logs_step. Qed.
Lemma client_password what e : what ∈ internal_texts → client_error c (password_error c what e).
Proof. intros Hw. unfold password_error. repeat logs_step. Qed.
Lemma client_recovery e : client_error c (recovery_error c e).
Proof. unfold recovery_error. repeat logs_step. Qed.
Lemma client_finish e : client_error c (finish_error e).
Proof. unfold finish_error. repeat logs_step. Qed.
Lemma client_create e : client_error c (create_error c e).
Proof. unfold create_error. repeat logs_step. Qed.

Lemma logs_total_data {A} (m : M S A) : never_fails m → logs None (on_data m).
Proof. intros Hm. apply logs_never; [apply quiet_on_data|by apply never_on_data]. Qed.
Lemma logs_total_accounts {A} (m : M (Accounts S) A) : never_fails m → logs None (on_accounts m).
Proof. intros Hm. apply logs_never; [apply quiet_on_accounts|by apply never_on_accounts]. Qed.
Lemma logs_tried {A} (m : M Srv A) : quiet m → logs None (m_try m).
Proof. intros Hm. apply logs_never; [by apply quiet_try|apply never_try]. Qed.

Lemma logs_device_owner user owner : logs None (device_owner user owner).
Proof. unfold device_owner. repeat logs_step. Qed.
Lemma logs_delete_tokens what name : what ∈ internal_texts → logs None (delete_tokens deps c what name).
Proof. intros Hw. unfold delete_tokens. repeat logs_step. Qed.
Lemma logs_end_sessions what name : what ∈ internal_texts → logs None (end_sessions deps c what name).
Proof. intros Hw. unfold end_sessions. repeat logs_step. Qed.
Lemma logs_currentID : logs None (currentID c).
Proof. unfold currentID. apply logs_then, logs_tried, quiet_on_data. Qed.
Lemma logs_signOutElsewhere subject : logs None (signOutElsewhere deps c subject).
Proof.
  unfold signOutElsewhere. apply logs_bind.
  - apply logs_if; [|repeat logs_step]. apply logs_bind; [apply logs_currentID|]. intros keep.
    apply logs_then, logs_tried, quiet_on_data.
  - intros ended. apply logs_then. apply logs_if; [|repeat logs_step]. apply logs_then, logs_tried, quiet_on_data.
Qed.
Lemma logs_twoFactorFor : logs None (twoFactorFor deps c).
Proof. unfold twoFactorFor. repeat logs_step. Qed.
Lemma logs_passkeysFor : logs None (passkeysFor deps c).
Proof. unfold passkeysFor. repeat logs_step. Qed.
Lemma logs_token_user enabled : logs None (token_user enabled c).
Proof. unfold token_user. repeat logs_step. Qed.
Lemma logs_recoveryCodesLeft subject : logs None (recoveryCodesLeft deps subject).
Proof.
  unfold recoveryCodesLeft. destruct (dp_TwoFactor deps); [|repeat logs_step].
  apply logs_then, logs_total_accounts, never_RecoveryCodesLeft.
Qed.
Lemma logs_RoutedNetworks : logs None (on_manager RoutedNetworks).
Proof. apply logs_never; [apply quiet_on_manager|by apply never_on_manager]. Qed.
Lemma logs_passkeyCount subject : logs None (passkeyCount deps subject).
Proof.
  unfold passkeyCount. destruct (dp_Passkeys deps); [|repeat logs_step]. apply logs_then, logs_tried, quiet_on_data.
Qed.
Hint Resolve never_RecoveryCodesLeft never_Enabled logs_device_owner logs_delete_tokens logs_end_sessions logs_currentID logs_signOutElsewhere
  logs_twoFactorFor logs_passkeysFor logs_token_user logs_recoveryCodesLeft logs_passkeyCount logs_RoutedNetworks client_deviceError
  client_change client_confirm client_password client_recovery client_finish client_create never_EndOthers never_Has
  never_known_user logs_total_data logs_total_accounts : api_logs.

Lemma logs_FinishPasskey name credential : logs (Some UserPasskeyAdd) (FinishPasskey_call deps c name credential).
Proof.
  unfold FinishPasskey_call. apply logs_bind; [repeat logs_step|]. intros [user rp].
  do 3 (apply logs_bind; [repeat logs_step|]; intros). apply (logs_bind_post _ plain_fields); [repeat logs_step| |repeat logs_step].
  intros srv fields srv' E. case_match; minv; [by split_and!|]. case_match. minv. split_and!; by simplify_map_eq.
Qed.
Lemma serve_logs p : logs (action_of p) (serve conf cfg host_addrs deps c p).
Proof.
  destruct p; unfold serve, answer_with; cbn [action_of].
  all: apply logs_then.
  - unfold AddDevice_call. repeat logs_step.
  - unfold ListDevices_call. repeat logs_step.
  - unfold DeleteDevice_call. repeat logs_step.
  - unfold RenameDevice_call. repeat logs_step.
  - unfold RotateDeviceKey_call. repeat logs_step.
  - unfold SetDeviceAccess_call. repeat logs_step.
  - unfold SetDeviceRoutes_call. repeat logs_step.
  - unfold ListAllDevices_call. repeat logs_step.
  - unfold ListUsers_call. repeat logs_step.
  - unfold DeleteUser_call. repeat logs_step.
  - unfold RevokeAccess_call. repeat logs_step.
  - unfold ChangePassword_call. repeat logs_step.
  - unfold StartTwoFactor_call. repeat logs_step.
  - unfold ConfirmTwoFactor_call. repeat logs_step.
  - unfold DisableTwoFactor_call. repeat logs_step.
  - unfold ResetTwoFactor_call. repeat logs_step.
  - unfold NewRecoveryCodes_call. repeat logs_step.
  - unfold ListPasskeys_call. repeat logs_step.
  - unfold BeginPasskey_call. repeat logs_step.
  - apply logs_FinishPasskey.
  - unfold RenamePasskey_call. repeat logs_step.
  - unfold DeletePasskey_call. repeat logs_step.
  - unfold CreateToken_call. repeat logs_step.
  - unfold ListTokens_call. repeat logs_step.
  - unfold DeleteToken_call. repeat logs_step.
  - unfold ListAllTokens_call. repeat logs_step.
  - unfold ListSessions_call. repeat logs_step.
  - unfold DeleteSession_call. repeat logs_step.
  - unfold DeleteOtherSessions_call. repeat logs_step.
  - unfold Info_call. repeat logs_step.
Qed.
End every.


(** C13 What a failure tells the client. Whatever goes wrong, the answer is an
    error of the API; and when it is an internal one, it holds a fixed text and
    the trace id, nothing of the storage, the interface or the library that
    failed. *)
Theorem errors_tell_nothing {S W} `{Storage S} `{WireGuard W} `{PasswordHashing} `{UpperTable} `{WebAuthn}
    conf cfg host_addrs deps c p (srv : Server S W) e srv' :
  serve conf cfg host_addrs deps c p srv = (Err e, srv') → client_error c e.
Proof. intros E. by apply serve_logs in E as [_ Hc]. Qed.

Import Demo.
Lemma errors_tell_nothing_witness : ∃ e srv', run_call as_alice (P_RevokeAccess "root") server2 = (Err e, srv') ∧
  client_error as_alice e.
Proof.
  destruct (m_run_err (run_call as_alice (P_RevokeAccess "root")) server2) as [e E]; [vm_compute; reflexivity|].
  exists e. eexists. split; [exact E|].
  exact (errors_tell_nothing demo_conf Demo.cfg (Ok []) demo_deps as_alice _ server2 _ _ E).
Defined.
